(* ===== verification/_CoqProject ===== *)
-Q . S2P
Prelude.v
GoLib.v
Runs.v
Trace.v
Errors.v
Contracts.v
Approval.v
Task.v
TaskProps.v
Dag.v
Project.v
ProjectWf.v
ProjectProps.v
Conformance.v
Budget.v
BudgetBooks.v
BudgetProps.v
Json.v
EventStore.v
EventStoreProps.v
Projector.v
ProjectorProps.v
Reconcile.v
ReconcileProps.v
ReconcileSound.v
Lifecycle.v
LifecycleProps.v
LifecycleRuns.v
Outbox.v
OutboxProps.v
Inbox.v
InboxProps.v
Path.v
EventBus.v
Convergence.v
ConvergenceProps.v
Specs.v
SpecsProps.v
PlanSpecs.v
Evidence.v
Capability.v
CapabilityProps.v
Effects.v
Orchestrator.v
OrchestratorTasks.v
OrchestratorPlans.v
OrchestratorGoals.v
OrchestratorLogic.v
OrchestratorStore.v
OrchestratorSafety.v
OrchestratorHandlers.v
OrchestratorClock.v
OrchestratorProps.v
OrchestratorCascade.v
Authz.v
AuthzProps.v
EventBusProps.v
Lease.v
LeaseProps.v
LeaseSafety.v
Engine.v
EngineProps.v
Integration.v
IntegrationProps.v
Queue.v
QueueAudit.v
QueueProps.v
QueueChecks.v
QueueSafety.v
