(* ===== verification/Prelude.v ===== *)
(** * Verification of the Agent Organization Runtime (AOR)

    AOR ([src/], Go) runs software projects with agents.  A project's goal is
    approved by a user, planned into module tasks, executed, audited,
    integrated, audited as a whole and released.  The state of all that lives
    in aggregates that decide commands into events; events are committed
    together with their projections and an outbox; messages are processed once;
    model calls are paid from budget accounts; every side effect needs a policy
    decision and a capability lease; finished modules are merged by an
    integration queue.  This library models these cores as executable functions
    and proves what makes them correct.

    ** The parts, and where they are modelled

    - [Prelude] (this file): results of fallible code, notations, record update,
      the tactics that follow a handler's guards, generic lemmas.
    - [GoLib]: the fragment of Go and its standard library in use - [int64]
      wrap-around, [time.Time] as nanoseconds since the zero time, saturating
      [Sub], byte strings, [strings], [sort.Slice].  [Json]: the validity
      grammar of [encoding/json].  [Path]: [path.Clean], [path.Match] and the
      parsing of UTC timestamps.
    - [Runs]: runs of a partial step function with their command history.
    - [Errors] - [pkg/errors/errors.go].  [Contracts] - the shared vocabulary of
      [pkg/contracts/types.go].  [Trace] - [internal/observability/propagation.go].
    - The aggregates, [internal/state]: [Approval] (approval.go), [Task]
      (task.go: [DecideTask], [ApplyTask]), [Project] (project.go:
      [DecideProject], [ApplyProject]), [Dag] (its [ValidateDAG]), [Conformance]
      (conformance.go).  Commands are inductive types with the source's
      constructors, one definition per case of the Go switch; the aggregates
      call [Approval] and raise the codes of [Errors].  Theorems: [TaskProps],
      [ProjectWf], [ProjectProps].
    - The budget ledger, [internal/modelgateway] (budget.go, and the ledger's
      half of model_call.go and reconcile.go): [Budget]; its abstract books and
      the refinement: [BudgetBooks]; theorems: [BudgetProps].
    - Events, [internal/eventing]: [EventStore] (store.go, memory.go,
      replay_state.go, and [pkg/canonicaljson]), [Outbox] (outbox.go: batches of
      concurrent publishers and the dispatcher), [Inbox] (inbox.go: shared
      records in a heap and interleaved callers); theorems in the files ending
      in [Props].  [Outbox] publishes what [EventStore] committed.
    - The other views of a project.  [internal/projection]: [Projector]
      (projector.go, reducers.go) rebuilds projections from events, [Reconcile]
      (replay.go) compares them with what [EventStore] keeps, [Convergence]
      (convergence.go) compares the store with the workflow and the bus.
      [Lifecycle] ([internal/workflow]: project_lifecycle.go,
      lifecycle_snapshot.go, lifecycle_store.go) is the workflow that follows a
      project by signals.  [EventBus] ([pkg/cloudevents], and of
      [internal/eventing] cloud_event.go, jetstream.go, jetstream_replay.go)
      carries events to the consumers of a tenant.  Theorems: the files ending
      in [Props], [ReconcileSound] and [LifecycleRuns], which runs the workflow
      on the events of [Project].
    - Authorization, [internal/authz] and the principals of [internal/authn]:
      [Authz] (types.go), [Lease] (lease.go, lease_tenant.go), [Engine]
      (engine.go); theorems: [AuthzProps], [LeaseProps], [LeaseSafety],
      [EngineProps].  The engine validates leases through [Lease] and bounds the
      leases that are issued under its grants.
    - Contract documents, [pkg/contracts]: [Specs] (goals, modules, toolchains,
      submissions), [PlanSpecs] ([PlanSpec.Validate] with its Kahn loop),
      [Evidence] (findings, evidence bundles, the audit gate); theorems:
      [SpecsProps] and the last two themselves.
    - The orchestrator, [internal/orchestrator], which carries the decisions of
      the aggregates to the store: [Capability] (capability.go, boundary.go: the
      signed commit boundary) with [CapabilityProps]; [Effects] (a handler as a
      tree of calls to store, clock, identifiers and boundary, and its run over
      [EventStore]); [Orchestrator] (service.go's parts, trace.go, query.go),
      [OrchestratorTasks] ([HandleTask], core_summary.go), [OrchestratorPlans]
      (plan.go), [OrchestratorGoals] (goal.go and [HandleProject]).  Proofs:
      [OrchestratorLogic] (weakest preconditions, interleaved runs and the rule
      that joins them), [OrchestratorStore] (what the store keeps whoever
      writes), [OrchestratorSafety] and [OrchestratorHandlers] (a specification
      per part and per handler), [OrchestratorClock] (a handler judges a commit
      at its last clock reading), [OrchestratorProps] and [OrchestratorCascade]
      (the properties).
    - Integration, [internal/integration]: [Integration] (types.go: data,
      validators, memory store), [Queue] (queue.go); theorems:
      [IntegrationProps] (the store's lifecycle), [QueueAudit] (the ownership
      audit), [QueueProps] (outcomes of a merge), [QueueChecks] (the checks),
      [QueueSafety] (the queue's properties and concrete worlds).

    Go names are kept.  A critical section of a mutex is one function from the
    state to the state; where several goroutines matter (outbox batches, the
    inbox, leases read before they are swapped) steps interleave freely, and
    between two calls of an orchestrator handler any number of other requests
    may run.

    ** What the theorems show

    - Aggregates: reachable tasks and projects are well formed; a third audit
      failure needs the user; stale fencing tokens are refused; what an
      integrated task and a completed project must have gone through; when a
      goal approval is accepted, exactly; legal holds stop erasure and erasure
      otherwise completes; [ValidateDAG] decides acyclicity for every map order.
    - Ledger: its invariant; exclusive claims; exact expiry; idempotent repeats;
      it refines books that only make six kinds of moves.
    - Events: contiguous histories, atomic and idempotent commits, an outbox
      that refines a life cycle per record; a batch of publishers ends; a
      message has one successful handler whatever the interleaving.
    - Projections: a projector does not depend on the order of delivery; a
      verification without drift leaves no stale or altered projection; every
      reachable store passes it for a tenant without a budget account in the
      log, and fails it for one with; what it means that store, workflow and
      bus have converged.
    - Lifecycle workflow: it reaches the project's state whatever the order and
      repetition of its signals, over continuations as new runs, as long as the
      project's commands are ones it tracks; which they are, exactly; and it
      never gets past an event of any other.
    - Event bus: a published event reaches its tenant's consumers as it was
      stored; a message of one tenant is refused for every other.
    - Authorization: path globs mean what a declarative reading says; leases
      validate exactly for what they were issued for, keep their identity, stay
      within their bounds and stay revoked under any interleaving; an allowed
      side effect rests on a live lease; custom rules only narrow; who may write
      and who may take high-risk actions; a lease never exceeds its grant.
    - Documents: toolchains are pinned exactly when each is installed; what an
      approved goal has; the audit gate and [PlanSpec.Validate] decide exactly
      their declarative readings, and the latter ends for every map order.
    - Orchestrator: whatever runs between the calls of a handler, each commit is
      an accepted command of the state machines on the state stored at that
      moment; behind the signed boundary each carries a signed and confirmed
      capability, live at the last clock reading, that covers exactly that
      commit, and the boundary accepts nothing else; a task command is idempotent
      forever; and a task commits in one transaction what it freezes or releases
      and exactly what it makes ready.
    - Integration: the store follows an abstract lifecycle of at most eleven
      transitions per task; the ownership audit accepts exactly the candidates
      that can stand together and does not depend on map order; checks are made
      well-formed and say what the verifier said; the queue keeps its books
      whatever gate, executor, verifier and clock do; a successful merge stores
      the executor's commit for exactly what was verified and audited, or had
      done so before; merging is idempotent; an interrupted merge can be finished.

    Further theorems in the same files are not listed as properties of the
    manifest: they are weaker, or consequences of listed ones.

    ** Parameters and assumptions

    Code that is not part of the repository is an argument of the definitions:
    the RFC 8785 transform ([jcs_Transform]), SHA-256 and HMAC ([sha256_Sum256],
    [Signer]), the JSON encoders of signing and digest views, the values
    [encoding/json] gives the orchestrator ([Codec]: one function per type) and
    the projections ([Decoders], [Encoders], [Codecs]), [url.Parse], generated
    identifiers and nonces, Unicode lower-casing of interface names, policy
    rules and approval verifiers, the clients of Temporal and of the broker, and
    the gate, executor and verifier of the integration queue.  Laws about them are named hypotheses ([SignerLaws],
    [CodecLaws], [RangeLaw], [hash_law], [encodes]; of the broker [carried] and
    of the envelope's JSON [json_preserves]) and have concrete instances.
    Theorems assume, where they need it and say so: tenant identifiers, and in
    [store_reconciles] aggregate types, without NUL bytes (they separate the
    parts of map keys), account limits below 2^62, versions and
    attempt counters below 2^63-1, fresh identifiers from the generators, no more
    signals ahead of a workflow than its buffer holds, and of the other
    requests of the orchestrator's store that their transactions state the
    version they write ([honest]), which its own operations are shown to do.

    Loops that are not structural run with fuel that bounds them: the length of
    the input for the matchers and parsers of [Path] and [Json], the number of
    nodes for Kahn's algorithm, the number of claims for a batch; the retry loop of
    [HandleTask] carries a number of rounds, and its theorems hold for every
    number and for runs that use it up; the theorems
    show the fuel is enough ([ValidateDAG_correct], [batch_completes],
    [path_authorized_exact] against a relation without fuel).

    ** Not modelled

    - Storage in PostgreSQL (the [postgres*.go] files of every package): SQL
      text and drivers; the in-memory implementations of the same interfaces are
      modelled.
    - Network and process glue: [internal/controlapi], [internal/cli],
      [internal/webui], [internal/servicebootstrap], the activities and
      schedulers of [internal/workflow], the broker behind [EventBus], the [cmd]
      programs, [pkg/a2a], [pkg/mcp], the SDK.
    - Calls of the outside world: model providers, the sandbox and tool broker,
      repositories and git, toolchain installers, backup, deployment.
    - The agents, audit pipelines, artifact and knowledge stores around these
      cores, listed with their reasons in the manifest.
    - Parts of modelled packages: raw JSON schema validation, the model
      gateway's routing and replay store,
      the authenticators of [internal/authn], and of [internal/integration] the
      authoritative gate, the workflow and the sandboxed verifier.
    - Error causes ([Wrap], [Unwrap]) and log text: no decision reads them. *)

From Stdlib Require Export ZArith Lia Ascii.
From stdpp Require Export base relations gmap strings list pretty sorting.

#[global] Open Scope string_scope.
#[global] Open Scope list_scope.
#[global] Open Scope Z_scope.

(** ** Results of fallible code

    A Go function returning [(T, error)] is modelled by [result T E]: on a
    non-nil error the code returns the zero [T], which callers do not read. *)
Inductive result (A E : Type) : Type :=
| Ok (value : A)
| Err (error : E).
Arguments Ok {A E} value.
Arguments Err {A E} error.

Definition rbind {A B E} (r : result A E) (k : A -> result B E) : result B E :=
  match r with Ok a => k a | Err e => Err e end.

Definition is_ok {A E} (r : result A E) : bool :=
  match r with Ok _ => true | Err _ => false end.

(** ** Notations of the development *)
Declare Scope go_scope.
Delimit Scope go_scope with go.

(** [x ≟ y] and [x ≠? y] are Go's [x == y] and [x != y] on values with
    decidable equality; [nil? o] is [o == nil] on a pointer. *)
Notation "x ≟ y" := (bool_decide (x = y)) (at level 70, no associativity) : go_scope.
Notation "x ≠? y" := (negb (bool_decide (x = y))) (at level 70, no associativity) : go_scope.

Definition is_nil {A} (o : option A) : bool :=
  match o with None => true | Some _ => false end.

(** [reject e when c ;; k]: the early return [if c { return ..., e }]. *)
Notation "'reject' e 'when' c ;; k" := (if c then Err e else k)
  (at level 100, e at level 99, c at level 99, k at level 200, right associativity,
   format "'[v' 'reject'  e  'when'  c  ;; '/' k ']'") : go_scope.

(** [x <-! r ;; k]: the call [x, err := r] followed by [if err != nil] return. *)
Notation "x <-! r ;; k" := (rbind r (fun x => k))
  (at level 100, r at level 99, k at level 200, right associativity,
   format "'[v' x  <-!  r  ;; '/' k ']'") : go_scope.

(** [x <-? o 'else' e ;; k]: the early return with [e] when the pointer [o] is
    nil; below it [x] is what [o] points to. *)
Notation "x <-? o 'else' e ;; k" := (match o with Some x => k | None => Err e end)
  (at level 100, o at level 99, e at level 99, k at level 200, right associativity,
   format "'[v' x  <-?  o  'else'  e  ;; '/' k ']'") : go_scope.

#[global] Open Scope go_scope.

(** ** Record update

    [r ⟦ field := v ⟧] is the copy of [r] with one field changed, Go's
    [next := current; next.field = v].  A record joins the scheme with an
    [Eta] instance, which rebuilds it field by field. *)
Class Eta (R : Type) := eta : R -> R.
Class Update {R T : Type} (proj : R -> T) := update : (T -> T) -> R -> R.
Arguments update {R T} proj {_} f r /.

Ltac build_update proj :=
  lazymatch type of proj with
  | ?R -> ?T =>
      let e := eval cbv beta delta [eta] in (eta : R -> R) in
      let e := eval hnf in e in
      exact (fun (g : T -> T) (r : R) =>
        ltac:(let body := eval cbv beta in (e r) in
              let abs := eval pattern (proj r) in body in
              lazymatch abs with
              | ?F _ => let b := eval cbv beta in (F (g (proj r))) in exact b
              end))
  end.

#[export] Hint Extern 1 (Update ?proj) => build_update proj : typeclass_instances.

Notation "r ⟦ proj := v ⟧" := (update proj (fun _ => v) r)
  (at level 1, left associativity, proj at level 9, v at level 200,
   format "r  ⟦  proj  :=  v  ⟧") : go_scope.

(** ** Automation *)

(** Turn the boolean guards of the code into propositions. *)
Ltac go_bool :=
  repeat match goal with
  | H : (_ || _) = false |- _ => apply orb_false_iff in H as [? ?]
  | H : (_ && _) = true |- _ => apply andb_true_iff in H as [? ?]
  | H : negb _ = true |- _ => apply negb_true_iff in H
  | H : negb _ = false |- _ => apply negb_false_iff in H
  | H : bool_decide _ = true |- _ => apply bool_decide_eq_true in H
  | H : bool_decide _ = false |- _ => apply bool_decide_eq_false in H
  | H : (_ <? _) = true |- _ => apply Z.ltb_lt in H
  | H : (_ <? _) = false |- _ => apply Z.ltb_ge in H
  | H : (_ <=? _) = true |- _ => apply Z.leb_le in H
  | H : (_ <=? _) = false |- _ => apply Z.leb_gt in H
  | H : (_ =? _) = true |- _ => apply Z.eqb_eq in H
  | H : (_ =? _) = false |- _ => apply Z.eqb_neq in H
  end.

(** Follow the accepting path through a handler: every rejected guard of
    [H : handler ... = Ok _] is discarded, the passed guards are kept. *)
Ltac accepted H :=
  repeat match type of H with
  | (if ?c then Err _ else _) = Ok _ =>
      let G := fresh "G" in destruct c eqn:G; [discriminate H|]
  | (match ?o with Some _ => _ | None => Err _ end) = Ok _ =>
      let G := fresh "G" in destruct o eqn:G; [|discriminate H]
  | (match ?o with Some _ => Err _ | None => _ end) = Ok _ =>
      let G := fresh "G" in destruct o eqn:G; [discriminate H|]
  | rbind ?r _ = Ok _ =>
      let G := fresh "G" in destruct r eqn:G; cbn [rbind] in H; [|discriminate H]
  | Ok (_, _) = Ok (?a, ?b) => is_var a; is_var b; injection H as <- <-
  | Ok _ = Ok _ => injection H as H; try subst
  end.

(** The same for a boolean validator written with early [return false]. *)
Ltac guards H :=
  repeat match type of H with
  | (if ?c then false else _) = true =>
      let G := fresh "G" in destruct c eqn:G; [discriminate H|]
  end.

(** Evaluate the guards of a goal whose outcome the context decides. *)
Ltac go_eval1 :=
  match goal with
  | |- context [bool_decide ?P] =>
      first [ rewrite (bool_decide_eq_true_2 P) by (reflexivity || assumption || congruence)
            | rewrite (bool_decide_eq_false_2 P) by (assumption || congruence || lia) ]
  | |- context [?a <? ?b] =>
      first [ rewrite (proj2 (Z.ltb_lt a b)) by lia | rewrite (proj2 (Z.ltb_ge a b)) by lia ]
  | |- context [?a <=? ?b] =>
      first [ rewrite (proj2 (Z.leb_le a b)) by lia | rewrite (proj2 (Z.leb_gt a b)) by lia ]
  | |- context [?a =? ?b] =>
      first [ rewrite (proj2 (Z.eqb_eq a b)) by lia | rewrite (proj2 (Z.eqb_neq a b)) by lia ]
  end.
Ltac go_eval := repeat (go_eval1; cbn [negb orb andb]).

(** A pair from its parts, without evaluating the first. *)
Lemma pair_parts {A B} (w : A * B) b : snd w = b -> w = (fst w, b).
Proof. intros <-. by destruct w. Qed.

(** Close an equation by evaluating both sides in the virtual machine. *)
Ltac vm_eq := match goal with |- _ = ?b => vm_cast_no_check (eq_refl b) end.

Create HintDb aor discriminated.

(** ** Generic lemmas *)
Lemma rbind_ok {A B E} (r : result A E) (k : A -> result B E) b :
  rbind r k = Ok b <-> exists a, r = Ok a /\ k a = Ok b.
Proof.
  destruct r as [a|e]; cbn; split.
  - intros Hk. by exists a.
  - by intros (a' & [= ->] & Hk).
  - done.
  - by intros (a' & ? & _).
Qed.

Lemma Ok_inj {A E} (a b : A) : @Ok A E a = Ok b -> a = b.
Proof. by intros [= ->]. Qed.

(** A check that reports [e] reports nothing exactly when its guard is false. *)
Lemma guard_none {E} (c : bool) (e : E) : (if c then Some e else None) = None <-> c = false.
Proof. by destruct c. Qed.

Lemma is_nil_false {A} (o : option A) : is_nil o = false <-> exists a, o = Some a.
Proof. destruct o as [a|]; cbn; split; [by exists a|done|done|by intros [a ?]]. Qed.

Lemma filter_ext_in {A} (P Q : A -> Prop) `{!forall x, Decision (P x), !forall x, Decision (Q x)}
    (l : list A) :
  (forall x, x ∈ l -> P x <-> Q x) -> filter P l = filter Q l.
Proof.
  induction l as [|x l IH]; intros Hl; [done|]. rewrite !filter_cons.
  rewrite (decide_ext (P x) (Q x)) by (apply Hl; by left).
  rewrite IH by (intros y Hy; apply Hl; by right). done.
Qed.

Lemma filter_in_all {A} (P : A -> Prop) `{!forall x, Decision (P x)} (l : list A) :
  (forall x, x ∈ l -> P x) -> filter P l = l.
Proof.
  induction l as [|x l IH]; intros Hl; [done|].
  rewrite filter_cons_True by (apply Hl; by left). f_equal. apply IH. intros y Hy.
  apply Hl. by right.
Qed.

Lemma filter_in_none {A} (P : A -> Prop) `{!forall x, Decision (P x)} (l : list A) :
  (forall x, x ∈ l -> ~ P x) -> filter P l = [].
Proof.
  induction l as [|x l IH]; intros Hl; [done|].
  rewrite filter_cons_False by (apply Hl; by left). apply IH. intros y Hy.
  apply Hl. by right.
Qed.

(** Writing the entries of a list into a map, one after the other. *)
Lemma foldl_insert_notin {A B} (f : A -> string) (g : A -> B) l (m : gmap string B) k :
  k ∉ map f l -> foldl (fun m x => <[f x := g x]> m) m l !! k = m !! k.
Proof.
  revert m. induction l as [|x l IH]; intros m Hk; [done|]. cbn in *.
  apply not_elem_of_cons in Hk as [Hx Hk]. rewrite IH by done. by rewrite lookup_insert_ne.
Qed.

Lemma foldl_insert_in {A B} (f : A -> string) (g : A -> B) l (m : gmap string B) x :
  NoDup (map f l) -> x ∈ l -> foldl (fun m x => <[f x := g x]> m) m l !! f x = Some (g x).
Proof.
  revert m. induction l as [|y l IH]; intros m Hnd Hx; [by apply not_elem_of_nil in Hx|].
  cbn in *. apply NoDup_cons in Hnd as [Hni Hnd].
  apply elem_of_cons in Hx as [->|Hx]; [|by apply IH].
  rewrite foldl_insert_notin by done. by rewrite lookup_insert_eq.
Qed.

(** Every entry of the result is a written one or an old one. *)
Lemma foldl_insert_inv {A B} (f : A -> string) (g : A -> B) l (m : gmap string B) k y :
  NoDup (map f l) -> foldl (fun m x => <[f x := g x]> m) m l !! k = Some y ->
  (exists x, x ∈ l /\ k = f x /\ y = g x) \/ (k ∉ map f l /\ m !! k = Some y).
Proof.
  intros Hnd H. destruct (decide (k ∈ map f l)) as [Hin|Hni].
  - apply list_elem_of_In, in_map_iff in Hin as (x & <- & Hx%list_elem_of_In).
    rewrite foldl_insert_in in H by done. injection H as <-. left. eauto.
  - right. by rewrite foldl_insert_notin in H.
Qed.
