(* ===== verification/GoLib.v ===== *)
(** The fragment of the Go language and its standard library the modelled
    packages use: 64-bit integers, [time.Time] and [time.Duration], and the
    byte-level functions of package [strings]. *)

From Stdlib Require Import Strings.String Structures.OrderedTypeEx.
From S2P Require Import Prelude.

(** ** [int64] and [int] (64-bit on every supported target) *)
Definition two63 : Z := 9223372036854775808.
Definition two64 : Z := 18446744073709551616.

(** Two's-complement wrap-around of an arithmetic result. *)
Definition wrap64 (z : Z) : Z := (z + two63) mod two64 - two63.

Definition in_int64 (z : Z) : Prop := - two63 <= z < two63.

Lemma wrap64_id z : in_int64 z -> wrap64 z = z.
Proof.
  unfold in_int64, wrap64, two63, two64. intros. rewrite Z.mod_small; lia.
Qed.

Lemma wrap64_range z : in_int64 (wrap64 z).
Proof.
  unfold in_int64, wrap64, two63, two64.
  pose proof (Z.mod_pos_bound (z + 9223372036854775808) 18446744073709551616). lia.
Qed.

Lemma wrap64_succ_inj a b :
  in_int64 a -> in_int64 b -> wrap64 (a + 1) = wrap64 (b + 1) -> a = b.
Proof.
  unfold in_int64, wrap64, two63, two64. intros.
  Z.div_mod_to_equations. lia.
Qed.

#[export] Hint Resolve wrap64_range : aor.

(** ** [time.Time] and [time.Duration]

    An instant is the number of nanoseconds since Go's zero time, so the zero
    instant is [0] and [UTC()] does nothing (it changes the location only).
    A duration is an [int64] number of nanoseconds; [Sub] saturates. *)
Abbreviation time := Z (only parsing).
Abbreviation duration := Z (only parsing).

Definition IsZero (t : time) : bool := t =? 0.
Definition Before (t u : time) : bool := t <? u.
Definition After (t u : time) : bool := u <? t.
Definition Equal (t u : time) : bool := t =? u.
Definition UTC (t : time) : time := t.
Definition Add (t : time) (d : duration) : time := t + d.
Definition Sub (t u : time) : duration := Z.max (- two63) (Z.min (two63 - 1) (t - u)).

Definition Millisecond : duration := 1000000.
Definition Second : duration := 1000000000.
Definition Minute : duration := 60 * Second.
Definition Hour : duration := 60 * Minute.

(** ** Package [strings]; a Go string is a sequence of bytes. *)
Definition len (s : string) : Z := Z.of_nat (String.length s).

Definition byte_of (c : ascii) : Z := Z.of_N (N_of_ascii c).
Definition bytes (s : string) : list ascii := String.list_ascii_of_string s.
Definition of_bytes (l : list ascii) : string := String.string_of_list_ascii l.

Definition byte_in (lo hi : Z) (c : ascii) : bool :=
  (lo <=? byte_of c) && (byte_of c <=? hi).
Definition byte_is (v : Z) (c : ascii) : bool := byte_of c =? v.

(** [unicode.IsSpace] on the UTF-8 encodings of one, two and three bytes. *)
Definition space1 (a : ascii) : bool := byte_in 9 13 a || byte_is 32 a.
Definition space2 (a b : ascii) : bool :=
  byte_is 0xC2 a && (byte_is 0x85 b || byte_is 0xA0 b).
Definition space3 (a b c : ascii) : bool :=
  (byte_is 0xE1 a && byte_is 0x9A b && byte_is 0x80 c)
  || (byte_is 0xE2 a && byte_is 0x80 b
      && (byte_in 0x80 0x8A c || byte_is 0xA8 c || byte_is 0xA9 c || byte_is 0xAF c))
  || (byte_is 0xE2 a && byte_is 0x81 b && byte_is 0x9F c)
  || (byte_is 0xE3 a && byte_is 0x80 b && byte_is 0x80 c).

(** Drop leading spaces, given the recognisers of multi-byte spaces. *)
Fixpoint drop_spaces (s2 : ascii -> ascii -> bool) (s3 : ascii -> ascii -> ascii -> bool)
    (l : list ascii) : list ascii :=
  match l with
  | [] => []
  | a :: l1 =>
    if space1 a then drop_spaces s2 s3 l1 else
    match l1 with
    | [] => l
    | b :: l2 =>
      if s2 a b then drop_spaces s2 s3 l2 else
      match l2 with
      | [] => l
      | c :: l3 => if s3 a b c then drop_spaces s2 s3 l3 else l
      end
    end
  end.

(** [strings.TrimSpace]: from the left, then from the right (on the reversed
    bytes, where the encodings are met backwards). *)
Definition TrimSpace (s : string) : string :=
  let left := drop_spaces space2 space3 (bytes s) in
  of_bytes (rev (drop_spaces (fun b a => space2 a b) (fun c b a => space3 a b c) (rev left))).

(** [strings.ContainsAny(s, "\r\n\x00")]. *)
Definition has_control (s : string) : bool :=
  existsb (fun c => byte_is 13 c || byte_is 10 c || byte_is 0 c) (bytes s).

Definition lower_byte (c : ascii) : ascii :=
  if byte_in 65 90 c then ascii_of_N (N_of_ascii c + 32) else c.

(** [strings.ToLower] as far as a comparison with an ASCII literal can see it:
    the ASCII letters, and the two other code points whose lower case is ASCII
    (U+212A KELVIN SIGN to [k], U+0130 to [i]); every other non-ASCII code
    point stays non-ASCII under [ToLower] and is left as it is here. *)
Fixpoint lower_bytes (l : list ascii) : list ascii :=
  match l with
  | [] => []
  | a :: l1 =>
    match l1 with
    | b :: l2 =>
      if byte_is 0xC4 a && byte_is 0xB0 b then "i"%char :: lower_bytes l2 else
      match l2 with
      | c :: l3 =>
        if byte_is 0xE2 a && byte_is 0x84 b && byte_is 0xAA c
        then "k"%char :: lower_bytes l3 else lower_byte a :: lower_bytes l1
      | [] => lower_byte a :: lower_bytes l1
      end
    | [] => [lower_byte a]
    end
  end.
Definition ToLower (s : string) : string := of_bytes (lower_bytes (bytes s)).

Fixpoint is_prefix (p l : list ascii) : bool :=
  match p, l with
  | [], _ => true
  | a :: p, b :: l => (a ≟ b) && is_prefix p l
  | _, _ => false
  end.
Definition HasPrefix (s prefix : string) : bool := is_prefix (bytes prefix) (bytes s).
Definition HasSuffix (s suffix : string) : bool :=
  is_prefix (rev (bytes suffix)) (rev (bytes s)).
(** The slice [s[n:]]. *)
Definition slice_from (n : nat) (s : string) : string := of_bytes (drop n (bytes s)).
Definition TrimPrefix (s prefix : string) : string :=
  if HasPrefix s prefix then slice_from (String.length prefix) s else s.

(** The NUL byte used to separate the parts of a composite key. *)
Definition nul : string := String (ascii_of_N 0) EmptyString.

(** *** Separated composite keys *)
Definition no_nul (s : string) : bool := negb (existsb (byte_is 0) (bytes s)).

Lemma bytes_concat s t : bytes (s +:+ t) = bytes s ++ bytes t.
Proof.
  induction s as [|c s IH]; [done|].
  change (c :: bytes (s +:+ t) = c :: bytes s ++ bytes t). by rewrite IH.
Qed.

Lemma prefix_app p l : is_prefix p l = true <-> exists r, l = p ++ r.
Proof.
  revert l. induction p as [|a p IH]; intros l; cbn; [split; eauto|].
  destruct l as [|b l]; [split; [done|by intros [? ?]]|]. split.
  - intros Hp. go_bool. subst. apply IH in H0 as [r ->]. by exists r.
  - intros [r [= -> ->]]. rewrite bool_decide_eq_true_2 by done. apply IH. eauto.
Qed.

Lemma bytes_inj s t : bytes s = bytes t -> s = t.
Proof.
  intros H. rewrite <- (String.string_of_list_ascii_of_string s).
  rewrite <- (String.string_of_list_ascii_of_string t).
  change (of_bytes (bytes s) = of_bytes (bytes t)). by rewrite H.
Qed.

Lemma no_nul_bytes s : no_nul s = true -> ascii_of_N 0 ∉ bytes s.
Proof.
  unfold no_nul. intros H%negb_true_iff Hin%list_elem_of_In.
  assert (Ht : existsb (byte_is 0) (bytes s) = true)
    by (apply existsb_exists; by exists (ascii_of_N 0)).
  congruence.
Qed.

Lemma split_first_inj {A} (z : A) a b x y :
  z ∉ a -> z ∉ b -> a ++ z :: x = b ++ z :: y -> a = b /\ x = y.
Proof.
  revert b. induction a as [|c a IH]; intros [|d b] Ha Hb H; cbn in H.
  - by injection H.
  - injection H as <- _. destruct Hb. by left.
  - injection H as -> _. destruct Ha. by left.
  - injection H as -> H. apply not_elem_of_cons in Ha as [_ Ha], Hb as [_ Hb].
    by destruct (IH b Ha Hb H) as [-> ->].
Qed.

(** A separator is found again from the left when what precedes it holds no
    NUL, and from the right when what follows it holds none. *)
Lemma nul_prefix_inj a b x y :
  no_nul a = true -> no_nul b = true -> a +:+ nul +:+ x = b +:+ nul +:+ y -> a = b /\ x = y.
Proof.
  intros Ha%no_nul_bytes Hb%no_nul_bytes H%(f_equal bytes). rewrite !bytes_concat in H.
  destruct (split_first_inj _ _ _ _ _ Ha Hb H) as [H1 H2]. auto using bytes_inj.
Qed.

Lemma nul_suffix_inj a b x y :
  no_nul x = true -> no_nul y = true -> a +:+ nul +:+ x = b +:+ nul +:+ y -> a = b /\ x = y.
Proof.
  intros Hx%no_nul_bytes Hy%no_nul_bytes H%(f_equal bytes). rewrite !bytes_concat in H.
  apply (f_equal reverse) in H. rewrite !reverse_app, <- !app_assoc in H.
  rewrite <- elem_of_reverse in Hx, Hy.
  destruct (split_first_inj _ _ _ _ _ Hx Hy H) as [H1 H2].
  apply (inj reverse) in H1, H2. auto using bytes_inj.
Qed.

Lemma no_nul_cons c s : no_nul (String c s) = negb (byte_is 0 c) && no_nul s.
Proof. unfold no_nul. cbn. by rewrite negb_orb. Qed.

Lemma pretty_N_go_no_nul x s : no_nul s = true -> no_nul (pretty_N_go x s) = true.
Proof.
  revert s. induction (N.lt_wf_0 x) as [x _ IH]; intros s Hs.
  destruct (decide (x = 0)%N) as [->|Hx]; [by rewrite pretty_N_go_0|].
  rewrite pretty_N_go_step by lia. apply IH; [apply N.div_lt; lia|].
  rewrite no_nul_cons, Hs, andb_true_r. unfold pretty_N_char. by repeat case_match.
Qed.

(** The decimal digits of an integer hold no NUL. *)
Lemma pretty_no_nul (z : Z) : no_nul (pretty z) = true.
Proof.
  assert (Hpos : forall p, no_nul (pretty (Npos p)) = true).
  { intros p. unfold pretty, pretty_N. case_decide; [done|]. by apply pretty_N_go_no_nul. }
  destruct z as [|p|p]; [done|apply Hpos|].
  change (pretty (Zneg p)) with (String "-"%char (pretty (Npos p))).
  by rewrite no_nul_cons, Hpos.
Qed.

(** ** Package [sort]: [sort.Slice(values, less)], where the outcome does not
    depend on how ties are ordered. *)
Definition not_after {A} (less : A -> A -> bool) (x y : A) : Prop := less y x = false.
#[export] Instance not_after_dec {A} (less : A -> A -> bool) : RelDecision (not_after less).
Proof. intros x y. unfold not_after. apply _. Defined.

Definition sort_slice {A} (less : A -> A -> bool) : list A -> list A :=
  merge_sort (not_after less).

Lemma sort_slice_Permutation {A} (less : A -> A -> bool) l : sort_slice less l ≡ₚ l.
Proof. apply merge_sort_Permutation. Qed.

(** A comparison that is asymmetric and negatively transitive sorts. *)
Lemma sort_slice_StronglySorted {A} (less : A -> A -> bool) l :
  (forall x y, less x y = true -> less y x = false) ->
  (forall x y z, less y x = false -> less z y = false -> less z x = false) ->
  StronglySorted (not_after less) (sort_slice less l).
Proof.
  intros Has Htr.
  assert (Transitive (not_after less)) by (intros x y z; apply Htr).
  assert (Total (not_after less)).
  { intros x y. unfold not_after. destruct (less y x) eqn:E; [right; auto | by left]. }
  apply (StronglySorted_merge_sort (not_after less)).
Qed.

(** Go compares strings byte by byte, as [String.ltb] does. *)
Lemma string_ltb_lt a b : String.ltb a b = true <-> String_as_OT.lt a b.
Proof.
  rewrite <- String_as_OT.cmp_lt. change String_as_OT.cmp with String.compare.
  unfold String.ltb. by destruct (String.compare a b).
Qed.

Lemma string_ltb_trans a b c : String.ltb a b = true -> String.ltb b c = true -> String.ltb a c = true.
Proof. rewrite !string_ltb_lt. apply String_as_OT.lt_trans. Qed.

Lemma string_ltb_irrefl a : String.ltb a a = false.
Proof.
  destruct (String.ltb a a) eqn:E; [|done]. apply string_ltb_lt, String_as_OT.lt_not_eq in E.
  by destruct E.
Qed.

Lemma string_ltb_total a b : String.ltb a b = true \/ a = b \/ String.ltb b a = true.
Proof.
  rewrite !string_ltb_lt. destruct (String_as_OT.compare a b) as [H|H|H]; auto.
Qed.

Lemma string_ltb_asym a b : String.ltb a b = true -> String.ltb b a = false.
Proof.
  intros H. destruct (String.ltb b a) eqn:E; [|done].
  pose proof (string_ltb_trans _ _ _ H E) as Haa. by rewrite string_ltb_irrefl in Haa.
Qed.

Lemma string_ltb_negtrans a b c :
  String.ltb b a = false -> String.ltb c b = false -> String.ltb c a = false.
Proof.
  intros H1 H2. destruct (String.ltb c a) eqn:E; [|done].
  destruct (string_ltb_total a b) as [H|[->|H]]; [|congruence|congruence].
  by rewrite (string_ltb_trans _ _ _ E H) in H2.
Qed.

(** Comparisons field after field: asymmetric and negatively transitive ones
    compose. *)
Record strict_order {A} (less : A -> A -> bool) : Prop := {
  order_asym x y : less x y = true -> less y x = false;
  order_negtrans x y z : less y x = false -> less z y = false -> less z x = false
}.

Lemma string_order : strict_order String.ltb.
Proof. split; [apply string_ltb_asym|apply string_ltb_negtrans]. Qed.
Lemma Z_order : strict_order Z.ltb.
Proof. split; intros *; rewrite ?Z.ltb_lt, ?Z.ltb_ge; lia. Qed.
Lemma order_by {A B} (f : A -> B) less : strict_order less -> strict_order (fun x y => less (f x) (f y)).
Proof. intros [Ha Ht]. split; intros *; [apply Ha|apply Ht]. Qed.

(** [first] decides where it tells two values apart, [second] where it does
    not. *)
Lemma order_lex {A} (first second : A -> A -> bool) :
  strict_order first -> strict_order second ->
  strict_order (fun x y => first x y || (negb (first y x) && second x y)).
Proof.
  intros [Ha1 Ht1] [Ha2 Ht2]. split.
  - intros x y [H|[H H2]%andb_true_iff]%orb_true_iff.
    + by rewrite (Ha1 _ _ H), H.
    + apply negb_true_iff in H. rewrite H, (Ha2 _ _ H2). cbn. apply andb_false_r.
  - intros x y z [Hyx Hyx2]%orb_false_iff [Hzy Hzy2]%orb_false_iff.
    rewrite (Ht1 x y z Hyx Hzy). cbn. destruct (first x z) eqn:Hxz; [done|]. cbn in *.
    destruct (first x y) eqn:Hxy.
    { exfalso. assert (Hzx : first y x = false) by done.
      pose proof (Ht1 y z x Hzy Hxz). congruence. }
    destruct (first y z) eqn:Hyz; [pose proof (Ht1 z x y Hxz Hyx); congruence|].
    cbn in *. by eapply Ht2.
Qed.

Lemma sort_slice_sorted {A} (less : A -> A -> bool) l :
  strict_order less -> StronglySorted (not_after less) (sort_slice less l).
Proof. intros [Ha Ht]. by apply sort_slice_StronglySorted. Qed.

(** Sorting loses the order of the input where ties are equal. *)
Lemma sort_slice_unique {A} (less : A -> A -> bool) l l' :
  strict_order less -> (forall x y, x ∈ l -> y ∈ l -> less x y = false -> less y x = false -> x = y) ->
  l ≡ₚ l' -> sort_slice less l = sort_slice less l'.
Proof.
  intros Ho Htie Hp. apply (StronglySorted_unique_strong (not_after less)).
  - intros x y Hx Hy Hxy Hyx. apply Htie; [by rewrite sort_slice_Permutation in Hx| |done..].
    rewrite sort_slice_Permutation in Hy. by rewrite Hp.
  - by apply sort_slice_sorted.
  - by apply sort_slice_sorted.
  - by rewrite !sort_slice_Permutation.
Qed.

(** [values] as the copy [append([]string(nil), values...)]. *)
Definition copy_slice {A} (values : list A) : list A := [] ++ values.

Lemma copy_slice_id {A} (l : list A) : copy_slice l = l.
Proof. reflexivity. Qed.

Example TrimSpace_ex : TrimSpace "  a b	 "%string = "a b"%string.
Proof. reflexivity. Qed.
Example ToLower_ex : ToLower "OpenAI-Primary"%string = "openai-primary"%string.
Proof. reflexivity. Qed.
