(* ===== verification/Runs.v ===== *)
(** Runs of a command-driven state machine: a deterministic partial step
    function, the states it reaches, and runs with their command history. *)

From S2P Require Import Prelude.

Section Runs.
Context {St Cm : Type} (step : St -> Cm -> option St).

Definition steps_to (t t' : St) : Prop := exists c, step t c = Some t'.

(** A run with its command history. *)
Inductive run : St -> list Cm -> St -> Prop :=
| run_nil t : run t [] t
| run_snoc t cs t1 c t2 : run t cs t1 -> step t1 c = Some t2 -> run t (cs ++ [c]) t2.

(** Run a list of commands; [None] when one is refused. *)
Fixpoint exec (t : St) (cs : list Cm) : option St :=
  match cs with
  | [] => Some t
  | c :: cs => match step t c with Some u => exec u cs | None => None end
  end.

Lemma run_reachable t cs u : run t cs u -> rtc steps_to t u.
Proof.
  induction 1 as [|t cs t1 c t2 _ IH Hs]; [done|].
  eapply rtc_r; [exact IH|]. by exists c.
Qed.

Lemma run_app t cs u cs' v : run t cs u -> run u cs' v -> run t (cs ++ cs') v.
Proof.
  intros H. induction 1 as [|u cs' u1 c u2 _ IH Hs]; [by rewrite app_nil_r|].
  rewrite app_assoc. econstructor; eauto.
Qed.

Lemma exec_app t cs cs' :
  exec t (cs ++ cs') = match exec t cs with Some u => exec u cs' | None => None end.
Proof. revert t. induction cs as [|c cs IH]; intros t; cbn; [done|]. by destruct (step t c). Qed.

Lemma exec_run t cs u : exec t cs = Some u -> run t cs u.
Proof.
  revert t. induction cs as [|c cs IH]; intros t; cbn.
  - intros [= <-]. constructor.
  - destruct (step t c) as [v|] eqn:Hs; [|done]. intros H.
    apply (run_app t [c] v); [|by apply IH]. apply (run_snoc t [] t); [constructor|done].
Qed.

(** What every accepted command preserves, a run preserves. *)
Lemma run_preserves (P : St -> Prop) :
  (forall t c t', P t -> step t c = Some t' -> P t') ->
  forall t cs t', run t cs t' -> P t -> P t'.
Proof. intros HP t cs t'. induction 1 as [|t cs t1 c t2 _ IH Hs]; eauto. Qed.

(** The same for a relation to the start of the run, under an invariant. *)
Lemma run_relates (P : St -> Prop) (R : St -> St -> Prop) :
  (forall t, R t t) -> (forall t u v, R t u -> R u v -> R t v) ->
  (forall t c t', P t -> step t c = Some t' -> P t' /\ R t t') ->
  forall t cs t', run t cs t' -> P t -> P t' /\ R t t'.
Proof.
  intros Hrefl Htrans HP t cs t'. induction 1 as [|t cs t1 c t2 _ IH Hs]; intros Ht; [auto|].
  destruct (IH Ht) as [H1 HR]. destruct (HP _ _ _ H1 Hs). eauto.
Qed.
End Runs.

(** [since Q R cs]: somewhere in the history [cs] there is a command satisfying
    [R], issued after a history satisfying [Q]. *)
Definition since {Cm} (Q : list Cm -> Prop) (R : Cm -> Prop) (cs : list Cm) : Prop :=
  exists cs0 c cs1, cs = cs0 ++ c :: cs1 /\ Q cs0 /\ R c.

Lemma since_now {Cm} (Q : list Cm -> Prop) (R : Cm -> Prop) cs c :
  Q cs -> R c -> since Q R (cs ++ [c]).
Proof. intros. by exists cs, c, []. Qed.

Lemma since_later {Cm} (Q : list Cm -> Prop) (R : Cm -> Prop) cs c :
  since Q R cs -> since Q R (cs ++ [c]).
Proof.
  intros (cs0 & d & cs1 & -> & ? & ?). exists cs0, d, (cs1 ++ [c]).
  by rewrite <- app_assoc.
Qed.

Lemma since_app {Cm} (Q : list Cm -> Prop) (R : Cm -> Prop) cs cs' :
  since Q R cs -> since Q R (cs ++ cs').
Proof.
  intros (cs0 & d & cs1 & -> & ? & ?). exists cs0, d, (cs1 ++ cs').
  by rewrite <- app_assoc.
Qed.

(** What happened since some point happened in the whole history. *)
Lemma since_since {Cm} (Q : list Cm -> Prop) (R S : Cm -> Prop) cs :
  since (since Q R) S cs -> since Q R cs.
Proof. intros (cs0 & d & cs1 & -> & H & _). by apply since_app. Qed.

#[export] Hint Resolve since_now since_later : aor.
