(* ===== verification/Trace.v ===== *)
(** W3C trace-context propagation ([internal/observability/propagation.go]):
    validation, rendering and parsing of the [traceparent] and [tracestate]
    values.  Carriers and Go contexts are not modelled. *)

From S2P Require Import Prelude GoLib.

Module Trace.

Inductive trace_error : Type :=
| ErrInvalidTraceContext
| ErrRandom (err : string).

Record TraceContext : Type := mkTraceContext {
  TraceID : string;
  SpanID : string;
  TraceFlags : Z;
  TraceState : string
}.

Definition Empty (t : TraceContext) : bool :=
  (TraceID t ≟ "") && (SpanID t ≟ "") && (TraceFlags t ≟ 0) && (TraceState t ≟ "").

(** ** Package [encoding/hex] *)
Definition hex_digit (d : Z) : ascii :=
  ascii_of_N (Z.to_N (if d <? 10 then 48 + d else 87 + d)).

(** The value of a hexadecimal digit, in either case. *)
Definition hex_value (c : ascii) : option Z :=
  if byte_in 48 57 c then Some (byte_of c - 48)
  else if byte_in 97 102 c then Some (byte_of c - 87)
  else if byte_in 65 70 c then Some (byte_of c - 55)
  else None.

(** [hex.DecodeString]. *)
Fixpoint hex_decode (l : list ascii) : option (list Z) :=
  match l with
  | [] => Some []
  | a :: b :: l =>
      match hex_value a, hex_value b, hex_decode l with
      | Some x, Some y, Some rest => Some (16 * x + y :: rest)
      | _, _, _ => None
      end
  | [_] => None
  end.

(** [hex.EncodeToString] and the verb [%02x]. *)
Definition hex_byte (v : Z) : list ascii := [hex_digit (v / 16); hex_digit (v mod 16)].
Definition hex_encode (l : list Z) : list ascii := concat (map hex_byte l).

Definition validHexID (value : string) (n : Z) : bool :=
  if (len value ≠? n * 2) || (ToLower value ≠? value) then false else
  match hex_decode (bytes value) with
  | None => false
  | Some decoded => existsb (fun item => negb (item =? 0)) decoded
  end.

(** ** The trace state *)

(** [strings.Split] by one byte. *)
Fixpoint split_on (sep : Z) (l : list ascii) : list (list ascii) :=
  match l with
  | [] => [[]]
  | c :: l =>
      if byte_is sep c then [] :: split_on sep l
      else match split_on sep l with
           | part :: parts => (c :: part) :: parts
           | [] => [[c]]
           end
  end.

(** [strings.SplitN(s, sep, 2)]: [None] when there is no separator. *)
Fixpoint cut (sep : Z) (l : list ascii) : option (list ascii * list ascii) :=
  match l with
  | [] => None
  | c :: l =>
      if byte_is sep c then Some ([], l)
      else match cut sep l with
           | Some (before, after) => Some (c :: before, after)
           | None => None
           end
  end.

(** [[a-z0-9]] and [[a-z0-9_*/-]]. *)
Definition key_start (c : ascii) : bool := byte_in 97 122 c || byte_in 48 57 c.
Definition key_byte (c : ascii) : bool :=
  key_start c || byte_is 95 c || byte_is 42 c || byte_is 47 c || byte_is 45 c.

(** [[a-z0-9][a-z0-9_*/-]{0,max}]. *)
Definition key_part (max : nat) (l : list ascii) : bool :=
  match l with
  | [] => false
  | c :: l => key_start c && Nat.leb (length l) max && forallb key_byte l
  end.

(** [traceStateKeyPattern]; the key class has no [@], so the optional part
    starts at the first one. *)
Definition traceStateKeyPattern (l : list ascii) : bool :=
  match cut 64 l with
  | None => key_part 255 l
  | Some (name, system) => key_part 255 name && key_part 13 system
  end.

(** The loop over the members, with the keys [seen] so far. *)
Fixpoint valid_members (seen : gset string) (members : list (list ascii)) : bool :=
  match members with
  | [] => true
  | raw :: rest =>
      match cut 61 (bytes (TrimSpace (of_bytes raw))) with
      | None => false
      | Some (key, value) =>
          if negb (traceStateKeyPattern key) || Nat.eqb (length value) 0
             || negb (Nat.leb (length value) 256)
             || existsb (fun c => byte_is 44 c || byte_is 61 c) value
          then false else
          if bool_decide (of_bytes key ∈ seen) then false else
          if negb (forallb (byte_in 0x20 0x7e) value) then false
          else valid_members ({[of_bytes key]} ∪ seen) rest
      end
  end.

Definition validTraceState (value : string) : bool :=
  if value ≟ "" then true else
  if 512 <? len value then false else
  let members := split_on 44 (bytes value) in
  if Nat.ltb 32 (length members) then false else valid_members ∅ members.

(** ** Trace contexts *)

(** [TraceContext.Validate() == nil]. *)
Definition Validate (t : TraceContext) : bool :=
  validHexID (TraceID t) 16 && validHexID (SpanID t) 8 && validTraceState (TraceState t).

(** [TraceContext.TraceParent]. *)
Definition TraceParent (t : TraceContext) : result string trace_error :=
  reject ErrInvalidTraceContext when negb (Validate t) ;;
  Ok ("00-" +:+ TraceID t +:+ "-" +:+ SpanID t +:+ "-" +:+ of_bytes (hex_byte (TraceFlags t))).

(** [s[from:to]] and [s[i] == b] within bounds. *)
Definition slice (from to : nat) (s : string) : string :=
  of_bytes (take (to - from) (drop from (bytes s))).
Definition byte_at (i : nat) (b : Z) (s : string) : bool :=
  match bytes s !! i with Some c => byte_is b c | None => false end.

Definition ParseTraceParent (value traceState : string) : result TraceContext trace_error :=
  reject ErrInvalidTraceContext when
    (len value ≠? 55) || negb (byte_at 2 45 value) || negb (byte_at 35 45 value)
    || negb (byte_at 52 45 value) || (slice 0 2 value ≠? "00") ;;
  match hex_decode (bytes (slice 53 55 value)) with
  | Some [flags] =>
      let parsed := mkTraceContext (slice 3 35 value) (slice 36 52 value) flags traceState in
      reject ErrInvalidTraceContext when negb (Validate parsed) ;;
      Ok parsed
  | _ => Err ErrInvalidTraceContext
  end.

(** [randomHex], given what [crypto/rand] returned. *)
Definition randomHex (random : result (list Z) string) : result string trace_error :=
  match random with
  | Err err => Err (ErrRandom err)
  | Ok data => Ok (of_bytes (hex_encode data))
  end.

Definition NewRootTraceContext (random16 random8 : result (list Z) string) (sampled : bool)
    : result TraceContext trace_error :=
  traceID <-! randomHex random16 ;;
  spanID <-! randomHex random8 ;;
  Ok (mkTraceContext traceID spanID (if sampled then 1 else 0) "").

(** ** Round trip *)

Lemma bytes_of_bytes l : bytes (of_bytes l) = l.
Proof. apply String.list_ascii_of_string_of_list_ascii. Qed.
Lemma of_bytes_bytes s : of_bytes (bytes s) = s.
Proof. apply String.string_of_list_ascii_of_string. Qed.
Lemma bytes_app s t : bytes (s +:+ t) = bytes s ++ bytes t.
Proof.
  induction s as [|c s IH]; [done|].
  change (c :: bytes (s +:+ t) = c :: bytes s ++ bytes t). by rewrite IH.
Qed.
Lemma length_bytes s : length (bytes s) = String.length s.
Proof. induction s as [|c s IH]; [done|]. unfold bytes in *. cbn. by rewrite IH. Qed.

Lemma validHexID_length v n : validHexID v n = true -> Z.of_nat (length (bytes v)) = n * 2.
Proof.
  unfold validHexID, len. rewrite length_bytes. intros H. guards H. go_bool. done.
Qed.

Lemma hex_value_digit d : 0 <= d < 16 -> hex_value (hex_digit d) = Some d.
Proof.
  intros Hd.
  assert (Hall : forallb (fun d => bool_decide (hex_value (hex_digit d) = Some d))
                   (map Z.of_nat (seq 0 16)) = true) by (vm_compute; reflexivity).
  rewrite forallb_forall in Hall.
  apply (bool_decide_eq_true_1 _), Hall, in_map_iff.
  exists (Z.to_nat d). split; [lia|]. apply in_seq. lia.
Qed.

Lemma hex_decode_byte v : 0 <= v < 256 -> hex_decode (hex_byte v) = Some [v].
Proof.
  intros Hv. unfold hex_byte. cbn [hex_decode].
  rewrite !hex_value_digit by (Z.div_mod_to_equations; lia).
  do 2 f_equal. Z.div_mod_to_equations. lia.
Qed.

(** The fixed layout of a rendered trace parent. *)
Lemma slices_of_parent (tid sid fl : list ascii) v :
  length tid = 32%nat -> length sid = 16%nat -> length fl = 2%nat ->
  bytes v = bytes "00-" ++ tid ++ bytes "-" ++ sid ++ bytes "-" ++ fl ->
  slice 0 2 v = "00" /\ slice 3 35 v = of_bytes tid /\ slice 36 52 v = of_bytes sid /\
  slice 53 55 v = of_bytes fl /\ byte_at 2 45 v = true /\ byte_at 35 45 v = true /\
  byte_at 52 45 v = true /\ len v = 55.
Proof.
  intros Ht Hs Hf Hv. unfold slice, byte_at, len. rewrite <- length_bytes, Hv.
  change (bytes "00-") with ["0"%char; "0"%char; "-"%char].
  change (bytes "-") with ["-"%char].
  cbn [app]. repeat split.
  - cbn. by rewrite drop_0, take_app_length' by done.
  - cbn. change 33%nat with (32 + 1)%nat. rewrite drop_app_add' by done. cbn.
    by rewrite drop_0, take_app_length' by done.
  - cbn. change 50%nat with (32 + 18)%nat. rewrite drop_app_add' by done. cbn.
    change 17%nat with (16 + 1)%nat. rewrite drop_app_add' by done. cbn.
    by rewrite drop_0, take_ge by lia.
  - assert (H : ("0"%char :: "0"%char :: "-"%char :: tid ++ "-"%char :: sid ++ "-"%char :: fl)
              !! 35%nat = Some "-"%char)
      by (apply (list_lookup_middle ("0"%char :: "0"%char :: "-"%char :: tid)); cbn; lia).
    by rewrite H.
  - assert (H : ("0"%char :: "0"%char :: "-"%char :: (tid ++ "-"%char :: sid) ++ "-"%char :: fl)
              !! 52%nat = Some "-"%char).
    { apply (list_lookup_middle ("0"%char :: "0"%char :: "-"%char :: (tid ++ "-"%char :: sid))).
      cbn. rewrite length_app. cbn. lia. }
    rewrite <- app_assoc in H. cbn [app] in H. by rewrite H.
  - cbn [length]. rewrite length_app. cbn [length]. rewrite length_app. cbn [length]. lia.
Qed.

Lemma byte_at_lookup i s : byte_at i 45 s = true -> bytes s !! i = Some "-"%char.
Proof.
  unfold byte_at, byte_is, byte_of. destruct (bytes s !! i) as [c|]; [|done].
  intros H. go_bool. f_equal. rewrite <- (ascii_N_embedding c).
  replace (N_of_ascii c) with 45%N by lia. done.
Qed.

(** A text with dashes at the right places has the layout of a trace parent. *)
Lemma parent_layout s :
  len s = 55 -> slice 0 2 s = "00" ->
  byte_at 2 45 s = true -> byte_at 35 45 s = true -> byte_at 52 45 s = true ->
  bytes s = (bytes "00-" ++ bytes (slice 3 35 s) ++ bytes "-" ++ bytes (slice 36 52 s)
             ++ bytes "-") ++ bytes (slice 53 55 s).
Proof.
  intros Hl H0 H2 H35 H52. apply byte_at_lookup in H2, H35, H52.
  assert (Hlen : length (bytes s) = 55%nat) by (unfold len in Hl; rewrite length_bytes; lia).
  assert (H00 : take 2 (bytes s) = bytes "00").
  { rewrite <- (bytes_of_bytes (take 2 (bytes s))). rewrite <- H0. unfold slice.
    by rewrite drop_0. }
  unfold slice. rewrite !bytes_of_bytes. revert Hlen H00 H2 H35 H52. generalize (bytes s) as l.
  intros l Hlen H00 H2 H35 H52. rewrite <- !app_assoc. cbn [Nat.sub].
  rewrite <- (take_drop_middle l 2 _ H2) at 1. rewrite H00. cbn. do 3 f_equal.
  rewrite <- (take_drop 32 (drop 3 l)) at 1. rewrite drop_drop. f_equal.
  change (3 + 32)%nat with 35%nat. rewrite (drop_S l _ 35 H35) by done. f_equal.
  rewrite <- (take_drop 16 (drop 36 l)) at 1. rewrite drop_drop. f_equal.
  change (36 + 16)%nat with 52%nat. rewrite (drop_S l _ 52 H52) by done. f_equal.
  symmetry. apply take_ge. rewrite length_drop. lia.
Qed.

Definition flags_ok (t : TraceContext) : Prop := 0 <= TraceFlags t < 256.

(** Trace contexts survive propagation.  A trace context whose flags are
    a byte and which renders to a [traceparent] is parsed back from it and its
    [tracestate] unchanged, and the rendering always succeeds on a valid one. *)
Theorem trace_roundtrip t :
  flags_ok t -> Validate t = true ->
  exists s, TraceParent t = Ok s /\ ParseTraceParent s (TraceState t) = Ok t.
Proof.
  intros Hfl Hv. unfold TraceParent. rewrite Hv. cbn [negb]. eexists. split; [reflexivity|].
  unfold Validate in Hv. apply andb_true_iff in Hv as [[Ht Hs]%andb_true_iff Hst].
  pose proof (validHexID_length _ _ Ht). pose proof (validHexID_length _ _ Hs).
  unfold ParseTraceParent.
  destruct (slices_of_parent (bytes (TraceID t)) (bytes (SpanID t)) (hex_byte (TraceFlags t))
    ("00-" +:+ TraceID t +:+ "-" +:+ SpanID t +:+ "-" +:+ of_bytes (hex_byte (TraceFlags t))))
    as (-> & -> & -> & -> & -> & -> & -> & ->); [lia|lia|reflexivity| |].
  { by rewrite !bytes_app, bytes_of_bytes. }
  rewrite !of_bytes_bytes, bytes_of_bytes, hex_decode_byte by done. cbn.
  unfold Validate. cbn. rewrite Ht, Hs, Hst. by destruct t.
Qed.

Definition trace1 : TraceContext :=
  mkTraceContext "4bf92f3577b34da6a3ce929d0e0e4736" "00f067aa0ba902b7" 1 "vendor=value,a@b=c".

Lemma trace_roundtrip_witness :
  exists s, TraceParent trace1 = Ok s /\ ParseTraceParent s "vendor=value,a@b=c" = Ok trace1.
Proof.
  apply (trace_roundtrip trace1); [split; reflexivity || discriminate | vm_compute; reflexivity].
Defined.

Lemma slices_at_53 v (X Y : list ascii) :
  length X = 53%nat -> length Y = 2%nat -> bytes v = X ++ Y ->
  slice 0 53 v = of_bytes X /\ slice 53 55 v = of_bytes Y.
Proof.
  intros HX HY Hv. unfold slice. rewrite Hv, drop_0. split.
  - by rewrite take_app_length' by done.
  - by rewrite drop_app_length', take_ge by (done || cbn; lia).
Qed.

Lemma hex_value_range c v : hex_value c = Some v -> 0 <= v < 16.
Proof.
  unfold hex_value, byte_in. repeat case_match; intros [= <-]; go_bool; lia.
Qed.

Lemma hex_decode_one l v : hex_decode l = Some [v] -> 0 <= v < 256 /\ length l = 2%nat.
Proof.
  destruct l as [|a [|b l]]; cbn [hex_decode]; try done.
  destruct (hex_value a) as [x|] eqn:Ha; [|done].
  destruct (hex_value b) as [y|] eqn:Hb; [|done].
  destruct (hex_decode l) as [rest|] eqn:Hl; [|done]. intros [= <- ->].
  apply hex_value_range in Ha, Hb. split; [lia|].
  destruct l as [|c [|d l]]; [done|done|]. cbn in Hl. by repeat case_match.
Qed.

(** Parsing admits nothing else.  Every accepted [traceparent] yields a
    valid trace context with byte flags, and rendering that context gives the
    accepted text back up to the letter case of the two flag digits. *)
Theorem trace_parse_sound s st t :
  ParseTraceParent s st = Ok t ->
  Validate t = true /\ flags_ok t /\ TraceState t = st /\
  exists r, TraceParent t = Ok r /\ slice 0 53 r = slice 0 53 s /\
    hex_decode (bytes (slice 53 55 r)) = hex_decode (bytes (slice 53 55 s)).
Proof.
  unfold ParseTraceParent. intros H. accepted H.
  destruct l as [|flags [|? ?]]; try discriminate H. accepted H. go_bool.
  assert (Hfl : 0 <= flags < 256 /\ length (bytes (slice 53 55 s)) = 2%nat)
    by by apply hex_decode_one.
  destruct Hfl as [Hfl Hlf]. split; [done|]. split; [done|]. split; [done|].
  unfold TraceParent. rewrite G1. cbn [negb]. eexists. split; [reflexivity|].
  cbn [TraceID SpanID TraceFlags]. clear G1.
  pose proof (parent_layout s) as Hlay. rewrite H, H0, H1, H2, H3 in Hlay.
  specialize (Hlay eq_refl eq_refl eq_refl eq_refl eq_refl).
  set (X := bytes "00-" ++ _ ++ _ ++ _ ++ _) in Hlay.
  assert (HX : length X = 53%nat).
  { apply (f_equal length) in Hlay. rewrite length_app, length_bytes in Hlay.
    unfold len in H. lia. }
  destruct (slices_at_53 s X _ HX Hlf Hlay) as [-> _].
  match goal with |- slice 0 53 ?r = _ /\ _ =>
    destruct (slices_at_53 r X (hex_byte flags) HX eq_refl) as [-> ->] end.
  - unfold X. rewrite !bytes_app, bytes_of_bytes, <- !app_assoc. done.
  - split; [done|]. rewrite bytes_of_bytes. by apply hex_decode_byte.
Qed.

Lemma trace_parse_sound_witness :
  exists t r, ParseTraceParent "00-4bf92f3577b34da6a3ce929d0e0e4736-00f067aa0ba902b7-AB" "" = Ok t
    /\ Validate t = true /\ TraceParent t = Ok r.
Proof.
  destruct (ParseTraceParent "00-4bf92f3577b34da6a3ce929d0e0e4736-00f067aa0ba902b7-AB" "")
    as [t|e] eqn:E; [|vm_compute in E; discriminate E].
  destruct (trace_parse_sound _ _ t E) as (Hv & _ & _ & r & Hr & _).
  exists t, r. split; [reflexivity|]. split; [exact Hv | exact Hr].
Defined.
End Trace.
