(* ===== verification/Errors.v ===== *)
(** Package [errors] ([pkg/errors/errors.go]): the stable wire error codes,
    their metadata, and the redaction of error details. *)

From S2P Require Import Prelude GoLib.

(** ** Codes

    [Code] is a Go string type; [CodeOther s] is a value [s] that is none of
    the declared constants. *)
Inductive Code : Type :=
| CodeInternalError
| CodeInvalidArgument
| CodeContextWindowExceeded
| CodeNotFound
| CodeConflict
| CodeUnauthorized
| CodeForbidden
| CodeRateLimited
| CodeTimeout
| CodeDependencyUnavailable
| CodeStateVersionConflict
| CodeInvalidStateTransition
| CodeGoalNotApproved
| CodeGoalHashMismatch
| CodeSpecSuperseded
| CodeTaskBlocked
| CodeAttemptLimitReached
| CodeLeaseExpired
| CodeIdempotencyConflict
| CodeBudgetExceeded
| CodeBudgetReservationFailed
| CodeModelNotAllowed
| CodeModelCapabilityMissing
| CodeProviderRateLimited
| CodeProviderResultUnknown
| CodeModelOutputSchemaInvalid
| CodeToolNotAllowed
| CodeToolInputInvalid
| CodeToolOutputTooLarge
| CodePolicyDenied
| CodeApprovalRequired
| CodeSandboxLevelInsufficient
| CodeSandboxCreateFailed
| CodeSandboxExecTimeout
| CodeUnauthorizedPath
| CodeNetworkDestinationDenied
| CodeArtifactHashMismatch
| CodeArtifactNotAvailable
| CodeKnowledgeRevisionUnavailable
| CodeKnowledgeWriteForbidden
| CodeAuditEvidenceInvalid
| CodeAuditorContextViolation
| CodeHiddenTestAccessDenied
| CodeIntegrationConflict
| CodeOther (raw : string).

#[export] Instance Code_eq_dec : EqDecision Code.
Proof. solve_decision. Defined.

Definition Code_string (code : Code) : string :=
  match code with
  | CodeInternalError => "AOR_INTERNAL_ERROR"
  | CodeInvalidArgument => "AOR_INVALID_ARGUMENT"
  | CodeContextWindowExceeded => "AOR_CONTEXT_WINDOW_EXCEEDED"
  | CodeNotFound => "AOR_NOT_FOUND"
  | CodeConflict => "AOR_CONFLICT"
  | CodeUnauthorized => "AOR_UNAUTHORIZED"
  | CodeForbidden => "AOR_FORBIDDEN"
  | CodeRateLimited => "AOR_RATE_LIMITED"
  | CodeTimeout => "AOR_TIMEOUT"
  | CodeDependencyUnavailable => "AOR_DEPENDENCY_UNAVAILABLE"
  | CodeStateVersionConflict => "AOR_STATE_VERSION_CONFLICT"
  | CodeInvalidStateTransition => "AOR_INVALID_STATE_TRANSITION"
  | CodeGoalNotApproved => "AOR_GOAL_NOT_APPROVED"
  | CodeGoalHashMismatch => "AOR_GOAL_HASH_MISMATCH"
  | CodeSpecSuperseded => "AOR_SPEC_SUPERSEDED"
  | CodeTaskBlocked => "AOR_TASK_BLOCKED"
  | CodeAttemptLimitReached => "AOR_ATTEMPT_LIMIT_REACHED"
  | CodeLeaseExpired => "AOR_LEASE_EXPIRED"
  | CodeIdempotencyConflict => "AOR_IDEMPOTENCY_CONFLICT"
  | CodeBudgetExceeded => "AOR_BUDGET_EXCEEDED"
  | CodeBudgetReservationFailed => "AOR_BUDGET_RESERVATION_FAILED"
  | CodeModelNotAllowed => "AOR_MODEL_NOT_ALLOWED"
  | CodeModelCapabilityMissing => "AOR_MODEL_CAPABILITY_MISSING"
  | CodeProviderRateLimited => "AOR_PROVIDER_RATE_LIMITED"
  | CodeProviderResultUnknown => "AOR_PROVIDER_RESULT_UNKNOWN"
  | CodeModelOutputSchemaInvalid => "AOR_MODEL_OUTPUT_SCHEMA_INVALID"
  | CodeToolNotAllowed => "AOR_TOOL_NOT_ALLOWED"
  | CodeToolInputInvalid => "AOR_TOOL_INPUT_INVALID"
  | CodeToolOutputTooLarge => "AOR_TOOL_OUTPUT_TOO_LARGE"
  | CodePolicyDenied => "AOR_POLICY_DENIED"
  | CodeApprovalRequired => "AOR_APPROVAL_REQUIRED"
  | CodeSandboxLevelInsufficient => "AOR_SANDBOX_LEVEL_INSUFFICIENT"
  | CodeSandboxCreateFailed => "AOR_SANDBOX_CREATE_FAILED"
  | CodeSandboxExecTimeout => "AOR_SANDBOX_EXEC_TIMEOUT"
  | CodeUnauthorizedPath => "AOR_UNAUTHORIZED_PATH"
  | CodeNetworkDestinationDenied => "AOR_NETWORK_DESTINATION_DENIED"
  | CodeArtifactHashMismatch => "AOR_ARTIFACT_HASH_MISMATCH"
  | CodeArtifactNotAvailable => "AOR_ARTIFACT_NOT_AVAILABLE"
  | CodeKnowledgeRevisionUnavailable => "AOR_KNOWLEDGE_REVISION_NOT_AVAILABLE"
  | CodeKnowledgeWriteForbidden => "AOR_KNOWLEDGE_WRITE_FORBIDDEN"
  | CodeAuditEvidenceInvalid => "AOR_AUDIT_EVIDENCE_INVALID"
  | CodeAuditorContextViolation => "AOR_AUDITOR_CONTEXT_VIOLATION"
  | CodeHiddenTestAccessDenied => "AOR_HIDDEN_TEST_ACCESS_DENIED"
  | CodeIntegrationConflict => "AOR_INTEGRATION_CONFLICT"
  | CodeOther raw => raw
  end.

(** ** Metadata *)
Record Metadata : Type := mkMetadata {
  Message : string;
  HTTPStatus : Z;
  Retryable : bool
}.

(** The [codes] slice, in its order. *)
Definition codes : list Code :=
  [CodeInternalError;
   CodeInvalidArgument;
   CodeContextWindowExceeded;
   CodeNotFound;
   CodeConflict;
   CodeUnauthorized;
   CodeForbidden;
   CodeRateLimited;
   CodeTimeout;
   CodeDependencyUnavailable;
   CodeStateVersionConflict;
   CodeInvalidStateTransition;
   CodeGoalNotApproved;
   CodeGoalHashMismatch;
   CodeSpecSuperseded;
   CodeTaskBlocked;
   CodeAttemptLimitReached;
   CodeLeaseExpired;
   CodeIdempotencyConflict;
   CodeBudgetExceeded;
   CodeBudgetReservationFailed;
   CodeModelNotAllowed;
   CodeModelCapabilityMissing;
   CodeProviderRateLimited;
   CodeProviderResultUnknown;
   CodeModelOutputSchemaInvalid;
   CodeToolNotAllowed;
   CodeToolInputInvalid;
   CodeToolOutputTooLarge;
   CodePolicyDenied;
   CodeApprovalRequired;
   CodeSandboxLevelInsufficient;
   CodeSandboxCreateFailed;
   CodeSandboxExecTimeout;
   CodeUnauthorizedPath;
   CodeNetworkDestinationDenied;
   CodeArtifactHashMismatch;
   CodeArtifactNotAvailable;
   CodeKnowledgeRevisionUnavailable;
   CodeKnowledgeWriteForbidden;
   CodeAuditEvidenceInvalid;
   CodeAuditorContextViolation;
   CodeHiddenTestAccessDenied;
   CodeIntegrationConflict].

(** The [metadata] map literal: [None] for an absent key. *)
Definition metadata (code : Code) : option Metadata :=
  match code with
  | CodeInternalError => Some (mkMetadata "Internal error" 500 false)
  | CodeInvalidArgument => Some (mkMetadata "Invalid argument" 400 false)
  | CodeContextWindowExceeded => Some (mkMetadata "Model context window exceeded" 422 false)
  | CodeNotFound => Some (mkMetadata "Resource not found" 404 false)
  | CodeConflict => Some (mkMetadata "Resource conflict" 409 false)
  | CodeUnauthorized => Some (mkMetadata "Authentication required" 401 false)
  | CodeForbidden => Some (mkMetadata "Operation forbidden" 403 false)
  | CodeRateLimited => Some (mkMetadata "Rate limit exceeded" 429 true)
  | CodeTimeout => Some (mkMetadata "Operation timed out" 504 true)
  | CodeDependencyUnavailable => Some (mkMetadata "Dependency unavailable" 503 true)
  | CodeStateVersionConflict => Some (mkMetadata "Aggregate version conflict" 409 false)
  | CodeInvalidStateTransition => Some (mkMetadata "Invalid state transition" 409 false)
  | CodeGoalNotApproved => Some (mkMetadata "Goal is not approved" 409 false)
  | CodeGoalHashMismatch => Some (mkMetadata "Goal digest mismatch" 409 false)
  | CodeSpecSuperseded => Some (mkMetadata "Specification was superseded" 409 false)
  | CodeTaskBlocked => Some (mkMetadata "Task is blocked" 409 false)
  | CodeAttemptLimitReached => Some (mkMetadata "Attempt limit reached" 409 false)
  | CodeLeaseExpired => Some (mkMetadata "Capability lease expired" 410 false)
  | CodeIdempotencyConflict => Some (mkMetadata "Idempotency key conflicts with prior request" 409 false)
  | CodeBudgetExceeded => Some (mkMetadata "Budget exceeded" 402 false)
  | CodeBudgetReservationFailed => Some (mkMetadata "Budget reservation failed" 409 false)
  | CodeModelNotAllowed => Some (mkMetadata "Model is not allowed" 403 false)
  | CodeModelCapabilityMissing => Some (mkMetadata "Required model capability is missing" 422 false)
  | CodeProviderRateLimited => Some (mkMetadata "Provider rate limit exceeded" 429 true)
  | CodeProviderResultUnknown => Some (mkMetadata "Provider result is unknown" 502 false)
  | CodeModelOutputSchemaInvalid => Some (mkMetadata "Model output does not match Schema" 422 false)
  | CodeToolNotAllowed => Some (mkMetadata "Tool is not allowed" 403 false)
  | CodeToolInputInvalid => Some (mkMetadata "Tool input is invalid" 422 false)
  | CodeToolOutputTooLarge => Some (mkMetadata "Tool output exceeds the inline limit" 413 false)
  | CodePolicyDenied => Some (mkMetadata "Operation denied by policy" 403 false)
  | CodeApprovalRequired => Some (mkMetadata "Explicit approval is required" 428 false)
  | CodeSandboxLevelInsufficient => Some (mkMetadata "Sandbox level is insufficient" 412 false)
  | CodeSandboxCreateFailed => Some (mkMetadata "Sandbox creation failed" 500 false)
  | CodeSandboxExecTimeout => Some (mkMetadata "Sandbox execution timed out" 504 true)
  | CodeUnauthorizedPath => Some (mkMetadata "Path is outside the authorized scope" 403 false)
  | CodeNetworkDestinationDenied => Some (mkMetadata "Network destination denied" 403 false)
  | CodeArtifactHashMismatch => Some (mkMetadata "Artifact digest mismatch" 409 false)
  | CodeArtifactNotAvailable => Some (mkMetadata "Artifact not available" 404 false)
  | CodeKnowledgeRevisionUnavailable => Some (mkMetadata "Knowledge revision not available" 410 false)
  | CodeKnowledgeWriteForbidden => Some (mkMetadata "Knowledge write forbidden" 403 false)
  | CodeAuditEvidenceInvalid => Some (mkMetadata "Audit evidence is invalid" 422 false)
  | CodeAuditorContextViolation => Some (mkMetadata "Auditor context violates blind-review policy" 403 false)
  | CodeHiddenTestAccessDenied => Some (mkMetadata "Hidden test access denied" 403 false)
  | CodeIntegrationConflict => Some (mkMetadata "Integration conflict" 409 false)
  | CodeOther _ => None
  end.

Definition AllCodes : list Code := copy_slice codes.

(** The zero [Metadata], which Go yields for an absent map key. *)
Definition zeroMetadata : Metadata := mkMetadata "" 0 false.

Definition MetadataFor (code : Code) : Metadata :=
  match metadata code with
  | Some value => value
  | None => default zeroMetadata (metadata CodeInternalError)
  end.

(** ** Errors and their details

    Detail values of type [any] are the strings and integers the callers pass;
    a nil details map and an empty one are the same finite map. *)
Inductive any : Type :=
| AnyString (s : string)
| AnyInt (z : Z).

(** [fmt.Sprint]. *)
Definition Sprint (value : any) : string :=
  match value with AnyString s => s | AnyInt z => pretty z end.

Definition safeDetailKeys : gset string :=
  {["actualVersion"; "expectedVersion"; "limit"; "policyVersion"; "ruleId"; "scope";
    "subjectType"]}.

Definition safeDetails (input : gmap string any) : gmap string string :=
  Sprint <$> filter (fun kv => kv.1 ∈ safeDetailKeys) input.

Record Error : Type := mkError {
  ErrCode : Code;
  CorrelationID : string;
  Details : gmap string string
}.

Definition New (code : Code) (correlationID : string) (details : gmap string any) : Error :=
  mkError code correlationID (safeDetails details).

(** [Error.Error]. *)
Definition Error_string (e : Error) : string :=
  Code_string (ErrCode e) +:+ ": " +:+ Message (MetadataFor (ErrCode e)).

(** [Error.NonRetryable]; the receiver may be nil. *)
Definition NonRetryable (e : option Error) : bool :=
  match e with
  | None => false
  | Some e => negb (Retryable (MetadataFor (ErrCode e)))
  end.

Record ProblemBody : Type := mkProblemBody {
  BodyCode : Code;
  BodyMessage : string;
  BodyRetryable : bool;
  BodyDetails : gmap string string;
  BodyCorrelationID : string
}.

Record Problem : Type := mkProblem {
  ProblemType : string;
  Title : string;
  Status : Z;
  Detail : string;
  ProblemError : ProblemBody
}.

(** [Error.Problem]: the details pass through [safeDetails] again. *)
Definition Error_Problem (e : Error) : Problem :=
  let meta := MetadataFor (ErrCode e) in
  mkProblem ("https://errors.aor.local/" +:+ Code_string (ErrCode e)) (Message meta)
    (HTTPStatus meta) (Message meta)
    (mkProblemBody (ErrCode e) (Message meta) (Retryable meta)
      (safeDetails (AnyString <$> Details e)) (CorrelationID e)).

(** The common constructor: no correlation id and a [scope] detail. *)
Definition scoped (code : Code) (scope : string) : Error :=
  New code "" {["scope" := AnyString scope]}.
