(* ===== verification/Contracts.v ===== *)
(** The shared vocabulary of package [contracts] ([pkg/contracts/types.go]):
    aggregate states, goal statuses, decisions and digest-bound references. *)

From S2P Require Import Prelude GoLib.

(** ** Aggregate states

    The Go types are string types.  The declared constants are constructors;
    [...Raw s] is any other string, in particular the zero value [""]. *)
Inductive ProjectState : Type :=
| ProjectCreated
| ProjectGoalNegotiating
| ProjectGoalSuspended
| ProjectPlanning
| ProjectExecuting
| ProjectIntegrating
| ProjectGlobalAudit
| ProjectBlockedUserDecision
| ProjectPaused
| ProjectCompleted
| ProjectAborted
| ProjectFailedSystem
| ProjectArchived
| ProjectStateRaw (raw : string).

Inductive ModuleTaskState : Type :=
| TaskDefined
| TaskQueuedPlanning
| TaskPlanning
| TaskReadyExecution
| TaskQueuedExecution
| TaskExecuting
| TaskSubmitted
| TaskDeterministicAudit
| TaskLLMAudit
| TaskReworkRequired
| TaskBlockedDependency
| TaskBlockedUserDecision
| TaskPassed
| TaskIntegrated
| TaskCanceled
| TaskSuperseded
| TaskStateRaw (raw : string).

Inductive GoalStatus : Type :=
| GoalDraft
| GoalApproved
| GoalSuperseded
| GoalRejected
| GoalStatusRaw (raw : string).

#[export] Instance ProjectState_eq_dec : EqDecision ProjectState.
Proof. solve_decision. Defined.
#[export] Instance ModuleTaskState_eq_dec : EqDecision ModuleTaskState.
Proof. solve_decision. Defined.
#[export] Instance GoalStatus_eq_dec : EqDecision GoalStatus.
Proof. solve_decision. Defined.

(** The zero values of the string types. *)
Abbreviation ProjectStateZero := (ProjectStateRaw "").
Abbreviation TaskStateZero := (TaskStateRaw "").

Definition ProjectState_string (s : ProjectState) : string :=
  match s with
  | ProjectCreated => "CREATED"
  | ProjectGoalNegotiating => "GOAL_NEGOTIATING"
  | ProjectGoalSuspended => "GOAL_SUSPENDED"
  | ProjectPlanning => "PLANNING"
  | ProjectExecuting => "EXECUTING"
  | ProjectIntegrating => "INTEGRATING"
  | ProjectGlobalAudit => "GLOBAL_AUDIT"
  | ProjectBlockedUserDecision => "BLOCKED_USER_DECISION"
  | ProjectPaused => "PAUSED"
  | ProjectCompleted => "COMPLETED"
  | ProjectAborted => "ABORTED"
  | ProjectFailedSystem => "FAILED_SYSTEM"
  | ProjectArchived => "ARCHIVED"
  | ProjectStateRaw raw => raw
  end.

Definition ModuleTaskState_string (s : ModuleTaskState) : string :=
  match s with
  | TaskDefined => "DEFINED"
  | TaskQueuedPlanning => "QUEUED_PLANNING"
  | TaskPlanning => "PLANNING"
  | TaskReadyExecution => "READY_EXECUTION"
  | TaskQueuedExecution => "QUEUED_EXECUTION"
  | TaskExecuting => "EXECUTING"
  | TaskSubmitted => "SUBMITTED"
  | TaskDeterministicAudit => "DETERMINISTIC_AUDIT"
  | TaskLLMAudit => "LLM_AUDIT"
  | TaskReworkRequired => "REWORK_REQUIRED"
  | TaskBlockedDependency => "BLOCKED_DEPENDENCY"
  | TaskBlockedUserDecision => "BLOCKED_USER_DECISION"
  | TaskPassed => "PASSED"
  | TaskIntegrated => "INTEGRATED"
  | TaskCanceled => "CANCELED"
  | TaskSuperseded => "SUPERSEDED"
  | TaskStateRaw raw => raw
  end.

(** [Decision], of which the task aggregate reads one constant. *)
Definition DecisionAuthorizeNewAttemptSeries : string := "AUTHORIZE_NEW_ATTEMPT_SERIES".

(** ** Digest-bound references *)
Record SpecRef : Type := mkSpecRef {
  RefVersion : Z;
  RefSHA256 : string
}.

#[export] Instance SpecRef_eq_dec : EqDecision SpecRef.
Proof. solve_decision. Defined.

(** [SpecRef{}]. *)
Definition zeroSpecRef : SpecRef := mkSpecRef 0 "".

Definition lower_hex (c : ascii) : bool := byte_in 48 57 c || byte_in 97 102 c.

(** [digestPattern]: [^sha256:[0-9a-f]{64}$]. *)
Definition digestPattern (value : string) : bool :=
  HasPrefix value "sha256:"
  && (Nat.eqb (String.length value) 71)
  && forallb lower_hex (drop 7 (bytes value)).

(** The validators return an error or nil: [option string] here. *)
Definition validateDigest (value : string) : option string :=
  if negb (digestPattern value) then Some "invalid sha256 digest" else None.

Definition SpecRef_Validate (r : SpecRef) : option string :=
  if RefVersion r <? 1 then Some "spec version must be positive" else
  validateDigest (RefSHA256 r).

(** [SpecRef.Validate() == nil]. *)
Definition SpecRef_valid (r : SpecRef) : bool := is_nil (SpecRef_Validate r).

Lemma SpecRef_valid_version r : SpecRef_valid r = true -> 1 <= RefVersion r.
Proof.
  unfold SpecRef_valid, SpecRef_Validate. destruct (RefVersion r <? 1) eqn:E; [done|].
  intros _. go_bool. lia.
Qed.

Lemma SpecRef_valid_nonzero r : SpecRef_valid r = true -> r <> zeroSpecRef.
Proof. by intros H ->. Qed.

#[export] Hint Resolve SpecRef_valid_version SpecRef_valid_nonzero : aor.
