(* ===== verification/Approval.v ===== *)
(** Approval bindings ([internal/state/approval.go]): the signed user decision
    that authorises a goal, a release or a new attempt series. *)

From S2P Require Import Prelude GoLib Errors Contracts.

Module Approval.

Record ApprovalBinding : Type := mkApprovalBinding {
  RecordID : string;
  ApprovalType : string;
  SubjectType : string;
  SubjectID : string;
  SubjectVersion : Z;
  SubjectSHA256 : string;
  PrincipalID : string;
  Reason : string;
  IssuedAt : time;
  ExpiresAt : option time;
  RevokedAt : option time;
  Signature : string
}.

#[export] Instance eta_ApprovalBinding : Eta ApprovalBinding := fun a =>
  mkApprovalBinding (RecordID a) (ApprovalType a) (SubjectType a) (SubjectID a)
    (SubjectVersion a) (SubjectSHA256 a) (PrincipalID a) (Reason a) (IssuedAt a)
    (ExpiresAt a) (RevokedAt a) (Signature a).

(** [ApprovalBinding.validAt]. *)
Definition validAt (a : ApprovalBinding) (now : time)
    (actorID approvalType subjectType subjectID : string) (subjectVersion : Z)
    (subjectSHA256 : string) : bool :=
  if (RecordID a ≟ "") || (ApprovalType a ≠? approvalType) || (SubjectType a ≠? subjectType)
     || (SubjectID a ≠? subjectID) || (SubjectVersion a ≠? subjectVersion)
     || (SubjectSHA256 a ≠? subjectSHA256)
  then false else
  if (PrincipalID a ≟ "") || (PrincipalID a ≠? actorID) || (Reason a ≟ "")
     || (Signature a ≟ "") || IsZero (IssuedAt a) || After (IssuedAt a) now
     || negb (is_nil (RevokedAt a))
  then false else
  if match ExpiresAt a with Some e => negb (After e now) | None => false end
  then false else
  SpecRef_valid (mkSpecRef (SubjectVersion a) (SubjectSHA256 a)).

(** What an approval accepted by [validAt] establishes: it is the actor's own,
    unrevoked, unexpired, and bound to exactly this subject and digest. *)
Record approves (a : ApprovalBinding) (now : time)
    (actorID approvalType subjectType subjectID : string) (subjectVersion : Z)
    (subjectSHA256 : string) : Prop := {
  appr_record : RecordID a <> "";
  appr_type : ApprovalType a = approvalType;
  appr_subject : SubjectType a = subjectType /\ SubjectID a = subjectID;
  appr_bound : SubjectVersion a = subjectVersion /\ SubjectSHA256 a = subjectSHA256;
  appr_actor : PrincipalID a = actorID /\ actorID <> "";
  appr_signed : Reason a <> "" /\ Signature a <> "";
  appr_issued : IssuedAt a <> 0 /\ IssuedAt a <= now;
  appr_live : RevokedAt a = None /\ (forall e, ExpiresAt a = Some e -> now < e);
  appr_ref : SpecRef_valid (mkSpecRef subjectVersion subjectSHA256) = true
}.

Lemma validAt_approves a now actor ty sty sid v sha :
  validAt a now actor ty sty sid v sha = true <-> approves a now actor ty sty sid v sha.
Proof.
  unfold validAt, IsZero, After. split.
  - intros H.
    guards H.
    go_bool. subst. destruct (RevokedAt a) eqn:R; [done|].
    split; try done; split; try done; try lia.
    intros e He. rewrite He in G1. go_bool. lia.
  - intros [? ? [? ?] [? ?] [? ?] [? ?] [? ?] [Hr He] Href]. subst.
    rewrite Hr. go_eval. cbn [negb orb is_nil].
    destruct (ExpiresAt a) as [e|]; [|done].
    by rewrite (proj2 (Z.ltb_lt now e) (He e eq_refl)).
Qed.

(** [validDigest] of package [state]. *)
Definition validDigest (value : string) : bool := SpecRef_valid (mkSpecRef 1 value).

(** [aorerrors.New(code, "", nil)]. *)
Definition plain (code : Code) : Error := New code "" ∅.

End Approval.
