(* ===== verification/Task.v ===== *)
(** The module-task aggregate ([internal/state/task.go]): the state of one
    task, the command handlers of [DecideTask] one per command, and
    [ApplyTask].  The properties are in [TaskProps.v]. *)

From S2P Require Import Prelude GoLib Errors Contracts Approval.
Import Approval.

Module Task.

Record ModuleTask : Type := mkModuleTask {
  TenantID : string;
  ProjectID : string;
  ID : string;
  ModuleID : string;
  State : ModuleTaskState;
  Version : Z;
  PlanningSpecRef : SpecRef;
  ModuleSpecRef : SpecRef;
  AttemptSeriesID : string;
  AttemptSeriesIDs : list string;
  Attempt : Z;
  FencingToken : Z;
  DependentTaskIDs : list string;
  FrozenDependentIDs : list string;
  BlockingTaskIDs : list string;
  BlockedFromState : ModuleTaskState;
  ModuleSpecSourceTaskID : string
}.

#[export] Instance eta_ModuleTask : Eta ModuleTask := fun t =>
  mkModuleTask (TenantID t) (ProjectID t) (ID t) (ModuleID t) (State t) (Version t)
    (PlanningSpecRef t) (ModuleSpecRef t) (AttemptSeriesID t) (AttemptSeriesIDs t)
    (Attempt t) (FencingToken t) (DependentTaskIDs t) (FrozenDependentIDs t)
    (BlockingTaskIDs t) (BlockedFromState t) (ModuleSpecSourceTaskID t).

(** [ModuleTask{}]. *)
Definition zeroModuleTask : ModuleTask :=
  mkModuleTask "" "" "" "" TaskStateZero 0 zeroSpecRef zeroSpecRef "" [] 0 0 [] [] []
    TaskStateZero "".

Inductive TaskCommandType : Type :=
| TaskCommandDefine
| TaskCommandQueuePlanning
| TaskCommandStartPlanning
| TaskCommandAttachModuleSpec
| TaskCommandReadyExecution
| TaskCommandLeaseExecution
| TaskCommandSubmit
| TaskCommandStartAudit
| TaskCommandDeterministicSuccess
| TaskCommandDeterministicFailure
| TaskCommandLLMSuccess
| TaskCommandLLMFailure
| TaskCommandQueueRework
| TaskCommandIntegrate
| TaskCommandBlockDependency
| TaskCommandUnblockDependency
| TaskCommandAuthorizeNewSeries
| TaskCommandSupersede
| TaskCommandRaw (raw : string).

#[export] Instance TaskCommandType_eq_dec : EqDecision TaskCommandType.
Proof. solve_decision. Defined.

Definition TaskCommandType_string (c : TaskCommandType) : string :=
  match c with
  | TaskCommandDefine => "DEFINE_TASK"
  | TaskCommandQueuePlanning => "QUEUE_PLANNING"
  | TaskCommandStartPlanning => "START_PLANNING"
  | TaskCommandAttachModuleSpec => "ATTACH_MODULE_SPEC"
  | TaskCommandReadyExecution => "READY_EXECUTION"
  | TaskCommandLeaseExecution => "LEASE_EXECUTION"
  | TaskCommandSubmit => "SUBMIT_IMPLEMENTATION"
  | TaskCommandStartAudit => "START_AUDIT"
  | TaskCommandDeterministicSuccess => "DETERMINISTIC_SUCCESS"
  | TaskCommandDeterministicFailure => "DETERMINISTIC_FAILURE"
  | TaskCommandLLMSuccess => "LLM_SUCCESS"
  | TaskCommandLLMFailure => "LLM_FAILURE"
  | TaskCommandQueueRework => "QUEUE_REWORK"
  | TaskCommandIntegrate => "INTEGRATE"
  | TaskCommandBlockDependency => "BLOCK_DEPENDENCY"
  | TaskCommandUnblockDependency => "UNBLOCK_DEPENDENCY"
  | TaskCommandAuthorizeNewSeries => "AUTHORIZE_NEW_ATTEMPT_SERIES"
  | TaskCommandSupersede => "SUPERSEDE"
  | TaskCommandRaw raw => raw
  end.

Module Cmd.
(** [TaskCommand]; its fields are qualified by [Cmd]. *)
Record TaskCommand : Type := mkTaskCommand {
  Type_ : TaskCommandType;
  TenantID : string;
  ProjectID : string;
  TaskID : string;
  ModuleID : string;
  PlanningSpecRef : SpecRef;
  ModuleSpecRef : SpecRef;
  AttemptSeriesID : string;
  FencingToken : Z;
  Recover : bool;
  DependentTaskIDs : list string;
  FrozenDependentIDs : list string;
  BlockingTaskIDs : list string;
  BlockedFromState : ModuleTaskState;
  ModuleSpecSourceTaskID : string;
  BlockingTaskID : string;
  ActorID : string;
  Decision : string;
  DecisionRecordID : string;
  DecisionReportSHA256 : string;
  NewAttemptSeriesID : string;
  Approval : option ApprovalBinding;
  SubmissionValidated : bool;
  AuditEvidenceSHA256 : string;
  FreshAuditor : bool;
  BlindAuditContext : bool;
  NoBlockingFindings : bool;
  DependenciesSatisfied : bool;
  MergeGatePassed : bool;
  At : time
}.

#[global] Instance eta_TaskCommand : Eta TaskCommand := fun c =>
  mkTaskCommand (Type_ c) (TenantID c) (ProjectID c) (TaskID c) (ModuleID c)
    (PlanningSpecRef c) (ModuleSpecRef c) (AttemptSeriesID c) (FencingToken c) (Recover c)
    (DependentTaskIDs c) (FrozenDependentIDs c) (BlockingTaskIDs c) (BlockedFromState c)
    (ModuleSpecSourceTaskID c) (BlockingTaskID c) (ActorID c) (Decision c)
    (DecisionRecordID c) (DecisionReportSHA256 c) (NewAttemptSeriesID c) (Approval c)
    (SubmissionValidated c) (AuditEvidenceSHA256 c) (FreshAuditor c) (BlindAuditContext c)
    (NoBlockingFindings c) (DependenciesSatisfied c) (MergeGatePassed c) (At c).

(** [TaskCommand{Type: ty}]: every other field zero. *)
Definition blank (ty : TaskCommandType) : TaskCommand :=
  mkTaskCommand ty "" "" "" "" zeroSpecRef zeroSpecRef "" 0 false [] [] [] TaskStateZero
    "" "" "" "" "" "" "" None false "" false false false false false 0.
End Cmd.
Abbreviation TaskCommand := Cmd.TaskCommand.

Record TaskEvent : Type := mkTaskEvent {
  EventType : string;
  AggregateVersion : Z;
  OccurredAt : time;
  Projection : ModuleTask
}.

(** ** Helpers *)

Definition cloneTask (task : ModuleTask) : ModuleTask :=
  task ⟦ AttemptSeriesIDs := copy_slice (AttemptSeriesIDs task) ⟧
       ⟦ DependentTaskIDs := copy_slice (DependentTaskIDs task) ⟧
       ⟦ FrozenDependentIDs := copy_slice (FrozenDependentIDs task) ⟧
       ⟦ BlockingTaskIDs := copy_slice (BlockingTaskIDs task) ⟧.

(** The loop of [invalidDependents], with the set [seen] so far. *)
Fixpoint invalidDependents_from (seen : gset string) (taskID : string)
    (values : list string) : bool :=
  match values with
  | [] => false
  | value :: rest =>
      if (value ≟ "") || (value ≟ taskID) || bool_decide (value ∈ seen) then true
      else invalidDependents_from ({[value]} ∪ seen) taskID rest
  end.
Definition invalidDependents (taskID : string) (values : list string) : bool :=
  invalidDependents_from ∅ taskID values.

Definition invalidTaskMetadata (taskID : string) (values : list string) : bool :=
  (negb (Nat.eqb (length values) 0)) && invalidDependents taskID values.

Definition optionalSpecRefInvalid (ref : SpecRef) : bool :=
  (ref ≠? zeroSpecRef) && negb (SpecRef_valid ref).

Fixpoint containsString (values : list string) (wanted : string) : bool :=
  match values with
  | [] => false
  | value :: rest => if value ≟ wanted then true else containsString rest wanted
  end.

(** [removeString]; the capacity hint [len(values)-1] is non-negative at its
    one call site, which is guarded by [containsString]. *)
Fixpoint removeString (values : list string) (removed : string) : list string :=
  match values with
  | [] => []
  | value :: rest =>
      if value ≠? removed then value :: removeString rest removed
      else removeString rest removed
  end.

Definition invalidTask (command : TaskCommand) (reason : string) : Error :=
  scoped CodeInvalidArgument
    (TaskCommandType_string (Cmd.Type_ command) +:+ ": " +:+ reason).

Definition transitionTask (command : TaskCommand) (current : ModuleTaskState) : Error :=
  New CodeInvalidStateTransition ""
    {["scope" := AnyString (TaskCommandType_string (Cmd.Type_ command));
      "actualVersion" := AnyString (ModuleTaskState_string current)]}.

(** ** Command handlers

    A handler is one [case] of the switch in [DecideTask]: it gets the current
    task, its clone [next] and the command, and returns the updated [next]
    with the event type, or the error of the guard that failed. *)
Definition handler : Type :=
  ModuleTask -> ModuleTask -> TaskCommand -> result (ModuleTask * string) Error.

Definition decideDefine : handler := fun current next command =>
  reject invalidTask command "task definition guard" when
    (Version current ≠? 0) || (ID current ≠? "") || (Cmd.TenantID command ≟ "")
    || (Cmd.ProjectID command ≟ "") || (Cmd.TaskID command ≟ "")
    || (Cmd.AttemptSeriesID command ≟ "") || negb (SpecRef_valid (Cmd.ModuleSpecRef command))
    || optionalSpecRefInvalid (Cmd.PlanningSpecRef command)
    || invalidDependents (Cmd.TaskID command) (Cmd.DependentTaskIDs command)
    || invalidTaskMetadata (Cmd.TaskID command) (Cmd.FrozenDependentIDs command)
    || invalidTaskMetadata (Cmd.TaskID command) (Cmd.BlockingTaskIDs command)
    || (Cmd.ModuleSpecSourceTaskID command ≟ Cmd.TaskID command)
    || ((Cmd.ModuleSpecSourceTaskID command ≠? "")
        && (Cmd.PlanningSpecRef command ≟ zeroSpecRef)) ;;
  Ok (mkModuleTask (Cmd.TenantID command) (Cmd.ProjectID command) (Cmd.TaskID command)
        (Cmd.ModuleID command) TaskDefined 0 (Cmd.PlanningSpecRef command)
        (Cmd.ModuleSpecRef command) (Cmd.AttemptSeriesID command)
        [Cmd.AttemptSeriesID command] 0 0
        (copy_slice (Cmd.DependentTaskIDs command))
        (copy_slice (Cmd.FrozenDependentIDs command))
        (copy_slice (Cmd.BlockingTaskIDs command)) (Cmd.BlockedFromState command)
        (Cmd.ModuleSpecSourceTaskID command),
      "io.aor.module.defined.v1").

Definition decideQueuePlanning : handler := fun current next command =>
  reject invalidTask command "planning task guard" when
    (Version current ≠? 0) || (ID current ≠? "") || (Cmd.TenantID command ≟ "")
    || (Cmd.ProjectID command ≟ "") || (Cmd.TaskID command ≟ "")
    || (Cmd.ModuleID command ≟ "") || negb (SpecRef_valid (Cmd.PlanningSpecRef command))
    || invalidDependents (Cmd.TaskID command) (Cmd.DependentTaskIDs command) ;;
  Ok (zeroModuleTask
        ⟦ TenantID := Cmd.TenantID command ⟧ ⟦ ProjectID := Cmd.ProjectID command ⟧
        ⟦ ID := Cmd.TaskID command ⟧ ⟦ ModuleID := Cmd.ModuleID command ⟧
        ⟦ State := TaskQueuedPlanning ⟧ ⟦ PlanningSpecRef := Cmd.PlanningSpecRef command ⟧
        ⟦ DependentTaskIDs := copy_slice (Cmd.DependentTaskIDs command) ⟧,
      "io.aor.module.planning-queued.v1").

Definition decideStartPlanning : handler := fun current next command =>
  reject transitionTask command (State current) when
    (State current ≠? TaskQueuedPlanning) || (ModuleID current ≟ "")
    || negb (SpecRef_valid (PlanningSpecRef current))
    || (ModuleSpecRef current ≠? zeroSpecRef) || (AttemptSeriesID current ≠? "")
    || negb (Nat.eqb (length (AttemptSeriesIDs current)) 0) ;;
  Ok (next ⟦ State := TaskPlanning ⟧, "io.aor.module.planning-started.v1").

Definition decideAttachModuleSpec : handler := fun current next command =>
  reject transitionTask command (State current) when
    (State current ≠? TaskPlanning) || (ModuleID current ≟ "")
    || negb (SpecRef_valid (PlanningSpecRef current))
    || (ModuleSpecRef current ≠? zeroSpecRef)
    || negb (SpecRef_valid (Cmd.ModuleSpecRef command))
    || (Cmd.AttemptSeriesID command ≟ "") ;;
  Ok (next ⟦ ModuleSpecRef := Cmd.ModuleSpecRef command ⟧
           ⟦ AttemptSeriesID := Cmd.AttemptSeriesID command ⟧
           ⟦ AttemptSeriesIDs := [Cmd.AttemptSeriesID command] ⟧
           ⟦ State := TaskDefined ⟧,
      "io.aor.module.spec-attached.v1").

Definition decideReadyExecution : handler := fun current next command =>
  reject (if State current ≟ TaskBlockedUserDecision then plain CodeAttemptLimitReached
          else transitionTask command (State current)) when
    (State current ≠? TaskDefined) && (State current ≠? TaskReworkRequired) ;;
  reject plain CodeAttemptLimitReached when 3 <=? Attempt current ;;
  Ok (next ⟦ State := TaskReadyExecution ⟧, "io.aor.module.execution-ready.v1").

Definition decideLeaseExecution : handler := fun current next command =>
  reject plain CodeLeaseExpired when
    (State current ≟ TaskReadyExecution)
    && (Cmd.Recover command || (Cmd.FencingToken command <=? FencingToken current)) ;;
  reject plain CodeLeaseExpired when
    (State current ≟ TaskExecuting)
    && (negb (Cmd.Recover command) || (Cmd.FencingToken command <=? FencingToken current)) ;;
  reject transitionTask command (State current) when
    (State current ≠? TaskReadyExecution) && (State current ≠? TaskExecuting) ;;
  Ok (next ⟦ FencingToken := Cmd.FencingToken command ⟧ ⟦ State := TaskExecuting ⟧,
      if Cmd.Recover command then "io.aor.module.execution-recovered.v1"
      else "io.aor.module.execution-leased.v1").

Definition decideSubmit : handler := fun current next command =>
  reject transitionTask command (State current) when State current ≠? TaskExecuting ;;
  reject plain CodeLeaseExpired when Cmd.FencingToken command ≠? FencingToken current ;;
  reject plain CodeSpecSuperseded when
    (Cmd.ModuleSpecRef command ≠? ModuleSpecRef current)
    || (Cmd.AttemptSeriesID command ≠? AttemptSeriesID current) ;;
  reject plain CodeAttemptLimitReached when 3 <=? Attempt current ;;
  Ok (next ⟦ Attempt := wrap64 (Attempt next + 1) ⟧ ⟦ State := TaskSubmitted ⟧,
      "io.aor.module.implementation-submitted.v1").

Definition decideStartAudit : handler := fun current next command =>
  reject transitionTask command (State current) when
    (State current ≠? TaskSubmitted) || negb (Cmd.SubmissionValidated command)
    || negb (validDigest (Cmd.AuditEvidenceSHA256 command)) ;;
  Ok (next ⟦ State := TaskDeterministicAudit ⟧,
      "io.aor.module.deterministic-audit-started.v1").

Definition decideDeterministicSuccess : handler := fun current next command =>
  reject transitionTask command (State current) when
    (State current ≠? TaskDeterministicAudit)
    || negb (validDigest (Cmd.AuditEvidenceSHA256 command)) ;;
  Ok (next ⟦ State := TaskLLMAudit ⟧, "io.aor.module.deterministic-audit-passed.v1").

(** The common tail of both audit failures: the third one goes to the user. *)
Definition auditFailed (current next : ModuleTask) (failed : string) : ModuleTask * string :=
  if Attempt current ≟ 3 then
    (next ⟦ State := TaskBlockedUserDecision ⟧
          ⟦ FrozenDependentIDs := copy_slice (DependentTaskIDs current) ⟧,
     "io.aor.module.blocked-user-decision.v1")
  else (next ⟦ State := TaskReworkRequired ⟧, failed).

Definition decideDeterministicFailure : handler := fun current next command =>
  reject transitionTask command (State current) when
    (State current ≠? TaskDeterministicAudit)
    || negb (validDigest (Cmd.AuditEvidenceSHA256 command)) ;;
  Ok (auditFailed current next "io.aor.module.deterministic-audit-failed.v1").

Definition decideLLMSuccess : handler := fun current next command =>
  reject transitionTask command (State current) when
    (State current ≠? TaskLLMAudit) || negb (Cmd.FreshAuditor command)
    || negb (Cmd.BlindAuditContext command) || negb (Cmd.NoBlockingFindings command)
    || negb (validDigest (Cmd.AuditEvidenceSHA256 command)) ;;
  Ok (next ⟦ State := TaskPassed ⟧, "io.aor.module.llm-audit-passed.v1").

Definition decideLLMFailure : handler := fun current next command =>
  reject transitionTask command (State current) when
    (State current ≠? TaskLLMAudit) || negb (Cmd.FreshAuditor command)
    || negb (Cmd.BlindAuditContext command)
    || negb (validDigest (Cmd.AuditEvidenceSHA256 command)) ;;
  Ok (auditFailed current next "io.aor.module.llm-audit-failed.v1").

Definition decideQueueRework : handler := fun current next command =>
  reject plain CodeAttemptLimitReached when
    (State current ≟ TaskBlockedUserDecision) || (3 <=? Attempt current) ;;
  reject transitionTask command (State current) when State current ≠? TaskReworkRequired ;;
  Ok (next ⟦ State := TaskReadyExecution ⟧, "io.aor.module.rework-queued.v1").

Definition decideIntegrate : handler := fun current next command =>
  reject transitionTask command (State current) when
    (State current ≠? TaskPassed) || negb (Cmd.DependenciesSatisfied command)
    || negb (Cmd.MergeGatePassed command)
    || negb (validDigest (Cmd.AuditEvidenceSHA256 command)) ;;
  Ok (next ⟦ State := TaskIntegrated ⟧, "io.aor.module.integrated.v1").

Definition decideBlockDependency : handler := fun current next command =>
  reject transitionTask command (State current) when
    (Cmd.BlockingTaskID command ≟ "") || (Cmd.BlockingTaskID command ≟ ID current)
    || containsString (BlockingTaskIDs current) (Cmd.BlockingTaskID command)
    || (State current ≟ TaskIntegrated) || (State current ≟ TaskCanceled)
    || (State current ≟ TaskSuperseded) || (State current ≟ TaskBlockedUserDecision) ;;
  let next := if State current ≠? TaskBlockedDependency
              then next ⟦ BlockedFromState := State current ⟧ else next in
  Ok (next ⟦ BlockingTaskIDs := BlockingTaskIDs next ++ [Cmd.BlockingTaskID command] ⟧
           ⟦ State := TaskBlockedDependency ⟧,
      "io.aor.module.blocked-dependency.v1").

Definition decideUnblockDependency : handler := fun current next command =>
  reject transitionTask command (State current) when
    (State current ≠? TaskBlockedDependency) || (Cmd.BlockingTaskID command ≟ "")
    || negb (containsString (BlockingTaskIDs current) (Cmd.BlockingTaskID command)) ;;
  let next := next ⟦ BlockingTaskIDs :=
                removeString (BlockingTaskIDs next) (Cmd.BlockingTaskID command) ⟧ in
  let next := if Nat.eqb (length (BlockingTaskIDs next)) 0
              then next ⟦ State := BlockedFromState current ⟧
                        ⟦ BlockedFromState := TaskStateZero ⟧
              else next in
  Ok (next, "io.aor.module.unblocked-dependency.v1").

Definition decideAuthorizeNewSeries : handler := fun current next command =>
  reject (if is_nil (Cmd.Approval command) then plain CodeApprovalRequired
          else transitionTask command (State current)) when
    (State current ≠? TaskBlockedUserDecision)
    || (Cmd.Decision command ≠? DecisionAuthorizeNewAttemptSeries)
    || (Cmd.ActorID command ≟ "") || is_nil (Cmd.Approval command)
    || (Cmd.DecisionRecordID command ≟ "")
    || negb (validDigest (Cmd.DecisionReportSHA256 command))
    || (Cmd.NewAttemptSeriesID command ≟ "")
    || containsString (AttemptSeriesIDs current) (Cmd.NewAttemptSeriesID command) ;;
  reject invalidTask command "new ModuleSpec reference" when
    negb (SpecRef_valid (Cmd.ModuleSpecRef command)) ;;
  reject plain CodeApprovalRequired when
    match Cmd.Approval command with
    | None => true
    | Some approval =>
        negb (validAt approval (Cmd.At command) (Cmd.ActorID command)
                "AUTHORIZE_NEW_ATTEMPT_SERIES" "MODULE_TASK" (ID current)
                (RefVersion (ModuleSpecRef current)) (RefSHA256 (ModuleSpecRef current)))
    end ;;
  Ok (next ⟦ AttemptSeriesID := Cmd.NewAttemptSeriesID command ⟧
           ⟦ AttemptSeriesIDs := AttemptSeriesIDs next ++ [Cmd.NewAttemptSeriesID command] ⟧
           ⟦ ModuleSpecRef := Cmd.ModuleSpecRef command ⟧
           ⟦ Attempt := 0 ⟧ ⟦ State := TaskReadyExecution ⟧ ⟦ FrozenDependentIDs := [] ⟧,
      "io.aor.module.attempt-series-authorized.v1").

Definition decideSupersede : handler := fun current next command =>
  reject transitionTask command (State current) when
    (State current ≟ TaskCanceled) || (State current ≟ TaskSuperseded) ;;
  Ok (next ⟦ State := TaskSuperseded ⟧, "io.aor.module.superseded.v1").

(** The switch. *)
Definition decideCommand : handler := fun current next command =>
  match Cmd.Type_ command with
  | TaskCommandDefine => decideDefine current next command
  | TaskCommandQueuePlanning => decideQueuePlanning current next command
  | TaskCommandStartPlanning => decideStartPlanning current next command
  | TaskCommandAttachModuleSpec => decideAttachModuleSpec current next command
  | TaskCommandReadyExecution => decideReadyExecution current next command
  | TaskCommandLeaseExecution => decideLeaseExecution current next command
  | TaskCommandSubmit => decideSubmit current next command
  | TaskCommandStartAudit => decideStartAudit current next command
  | TaskCommandDeterministicSuccess => decideDeterministicSuccess current next command
  | TaskCommandDeterministicFailure => decideDeterministicFailure current next command
  | TaskCommandLLMSuccess => decideLLMSuccess current next command
  | TaskCommandLLMFailure => decideLLMFailure current next command
  | TaskCommandQueueRework => decideQueueRework current next command
  | TaskCommandIntegrate => decideIntegrate current next command
  | TaskCommandBlockDependency => decideBlockDependency current next command
  | TaskCommandUnblockDependency => decideUnblockDependency current next command
  | TaskCommandAuthorizeNewSeries => decideAuthorizeNewSeries current next command
  | TaskCommandSupersede => decideSupersede current next command
  | TaskCommandRaw _ => Err (invalidTask command "unknown command")
  end.

Definition DecideTask (current : ModuleTask) (command : TaskCommand)
    : result TaskEvent Error :=
  reject invalidTask command "trusted time is required" when IsZero (Cmd.At command) ;;
  decided <-! decideCommand current (cloneTask current) command ;;
  let next := decided.1 ⟦ Version := wrap64 (Version current + 1) ⟧ in
  Ok (mkTaskEvent decided.2 (Version next) (UTC (Cmd.At command)) next).

Definition ApplyTask (current : ModuleTask) (event : TaskEvent) : result ModuleTask string :=
  reject "task event version or projection is invalid" when
    (AggregateVersion event ≠? wrap64 (Version current + 1))
    || (Version (Projection event) ≠? AggregateVersion event)
    || (ID (Projection event) ≟ "") || IsZero (OccurredAt event) ;;
  Ok (cloneTask (Projection event)).

(** [conformanceTaskStep] without its error log: decide, then apply. *)
Definition step (current : ModuleTask) (command : TaskCommand) : option ModuleTask :=
  match DecideTask current command with
  | Err _ => None
  | Ok event => match ApplyTask current event with Ok next => Some next | Err _ => None end
  end.

End Task.
