(* ===== verification/TaskProps.v ===== *)
(** Properties of the module-task aggregate: the attempt discipline, fencing,
    the path to integration, versions, and blocking. *)

From S2P Require Import Prelude GoLib Runs Errors Contracts Approval Task.
Import Approval Task.

Module TaskProps.

(** ** Accepted steps *)

Lemma cloneTask_id t : cloneTask t = t.
Proof. by destruct t. Qed.

(** Everything an accepted step says, in one place. *)
Lemma task_step_inv t c t' :
  step t c = Some t' ->
  exists next ty,
    Cmd.At c <> 0 /\ decideCommand t t c = Ok (next, ty) /\
    t' = next ⟦ Version := wrap64 (Version t + 1) ⟧ /\ ID next <> "".
Proof.
  unfold step, DecideTask, ApplyTask, IsZero, UTC. rewrite cloneTask_id. intros H.
  destruct (Cmd.At c =? 0) eqn:HAt; [done|].
  destruct (decideCommand t t c) as [[next ty]|e] eqn:D; cbn [rbind] in H; [|done].
  cbn [fst snd AggregateVersion Projection OccurredAt] in H.
  destruct (_ || _) eqn:G in H; [done|]. injection H as <-. go_bool.
  exists next, ty. by repeat split.
Qed.

Abbreviation steps_to := (Runs.steps_to step).
Abbreviation run := (Runs.run step).
Abbreviation exec := (Runs.exec step).
Definition reachable (t : ModuleTask) : Prop := rtc steps_to zeroModuleTask t.

(** The state the task is really in: a dependency block remembers it. *)
Definition effective (t : ModuleTask) : ModuleTaskState :=
  if State t ≟ TaskBlockedDependency then BlockedFromState t else State t.

(** ** The attempt discipline *)

(** Which attempt counts each (effective) state admits; [False] marks the
    states no command leads to. *)
Definition attempt_window (s : ModuleTaskState) (n : Z) : Prop :=
  match s with
  | TaskDefined | TaskQueuedPlanning | TaskPlanning => n = 0
  | TaskReadyExecution | TaskExecuting => 0 <= n < 3
  | TaskSubmitted | TaskDeterministicAudit | TaskLLMAudit | TaskPassed | TaskIntegrated =>
      1 <= n <= 3
  | TaskReworkRequired => 1 <= n < 3
  | TaskBlockedUserDecision => n = 3
  | TaskSuperseded => 0 <= n <= 3
  | TaskQueuedExecution | TaskBlockedDependency | TaskCanceled | TaskStateRaw _ => False
  end.

(** The attempt-series record: none while planning, afterwards the current
    series is the last one and no identifier was ever used twice. *)
Definition series_ok (s : ModuleTaskState) (t : ModuleTask) : Prop :=
  match s with
  | TaskQueuedPlanning | TaskPlanning =>
      AttemptSeriesIDs t = [] /\ AttemptSeriesID t = "" /\ ModuleSpecRef t = zeroSpecRef
  | TaskSuperseded => True
  | _ => last (AttemptSeriesIDs t) = Some (AttemptSeriesID t) /\ AttemptSeriesID t <> ""
         /\ SpecRef_valid (ModuleSpecRef t) = true
  end.

Record wf (t : ModuleTask) : Prop := {
  wf_id : ID t <> "";
  wf_attempt : attempt_window (effective t) (Attempt t);
  wf_series : series_ok (effective t) t;
  wf_nodup : NoDup (AttemptSeriesIDs t);
  wf_frozen : effective t = TaskBlockedUserDecision -> FrozenDependentIDs t = DependentTaskIDs t;
  wf_token : 0 <= FencingToken t
}.

Lemma containsString_spec l x : containsString l x = bool_decide (x ∈ l).
Proof.
  induction l as [|y l IH]; cbn [containsString].
  - by rewrite bool_decide_eq_false_2 by apply not_elem_of_nil.
  - rewrite IH. destruct (decide (y = x)) as [->|Hne].
    + by rewrite !bool_decide_eq_true_2 by (done || by left).
    + rewrite (bool_decide_eq_false_2 (y = x)) by done.
      apply bool_decide_ext. rewrite elem_of_cons. naive_solver.
Qed.

Lemma containsString_false l x : containsString l x = false -> x ∉ l.
Proof. rewrite containsString_spec. apply bool_decide_eq_false. Qed.

Lemma removeString_filter l x : removeString l x = filter (fun y => y <> x) l.
Proof.
  induction l as [|y l IH]; [done|]. cbn [removeString].
  rewrite filter_cons, IH. destruct (decide (y = x)) as [->|Hne].
  - by rewrite bool_decide_eq_true_2, decide_False by naive_solver.
  - by rewrite bool_decide_eq_false_2, decide_True by done.
Qed.

Lemma NoDup_snoc {A} (l : list A) x : NoDup l -> x ∉ l -> NoDup (l ++ [x]).
Proof.
  intros. apply NoDup_app. split; [done|]. split; [set_solver|]. apply NoDup_singleton.
Qed.

Lemma last_snoc_eq (l : list string) x : last (l ++ [x]) = Some x.
Proof. apply last_snoc. Qed.

#[local] Hint Resolve last_snoc_eq containsString_false NoDup_snoc NoDup_singleton : aor.
#[local] Hint Extern 1 (NoDup []) => constructor : aor.

Lemma effective_open t :
  State t <> TaskBlockedDependency -> effective t = State t.
Proof. intros. unfold effective. by rewrite bool_decide_eq_false_2. Qed.

(** The accepted outcomes of the handlers whose guards or results branch. *)
Lemma lease_accepted t c next ty :
  decideLeaseExecution t t c = Ok (next, ty) ->
  (State t = TaskReadyExecution /\ Cmd.Recover c = false
   \/ State t = TaskExecuting /\ Cmd.Recover c = true) /\
  FencingToken t < Cmd.FencingToken c /\
  next = t ⟦ FencingToken := Cmd.FencingToken c ⟧ ⟦ State := TaskExecuting ⟧.
Proof.
  unfold decideLeaseExecution. intros D. accepted D.
  apply andb_false_iff in G1 as [G1|G1]; go_bool; rewrite G1 in G, G0.
  - rewrite bool_decide_eq_true_2 in G by done. cbn in G. go_bool. auto.
  - rewrite (bool_decide_eq_true_2 (TaskExecuting = _)) in G0 by done. cbn in G0. go_bool. auto.
Qed.

Lemma ready_accepted t c next ty :
  decideReadyExecution t t c = Ok (next, ty) ->
  (State t = TaskDefined \/ State t = TaskReworkRequired) /\ Attempt t < 3 /\
  next = t ⟦ State := TaskReadyExecution ⟧.
Proof.
  unfold decideReadyExecution. intros D. accepted D.
  apply andb_false_iff in G as [G|G]; go_bool; auto.
Qed.

Lemma auditFailed_cases t failed next ty :
  auditFailed t t failed = (next, ty) ->
  (Attempt t = 3 /\ next = t ⟦ State := TaskBlockedUserDecision ⟧
                             ⟦ FrozenDependentIDs := DependentTaskIDs t ⟧)
  \/ (Attempt t <> 3 /\ next = t ⟦ State := TaskReworkRequired ⟧).
Proof.
  unfold auditFailed. destruct (Attempt t ≟ 3) eqn:E; go_bool; intros [= <- <-]; auto.
Qed.

Lemma block_accepted t c next ty :
  decideBlockDependency t t c = Ok (next, ty) ->
  let ids := BlockingTaskIDs t ++ [Cmd.BlockingTaskID c] in
  Cmd.BlockingTaskID c <> "" /\ (Cmd.BlockingTaskID c ∉ BlockingTaskIDs t) /\
  (State t ∉ [TaskIntegrated; TaskCanceled; TaskSuperseded; TaskBlockedUserDecision]) /\
  next = t ⟦ BlockedFromState := effective t ⟧ ⟦ BlockingTaskIDs := ids ⟧
           ⟦ State := TaskBlockedDependency ⟧.
Proof.
  unfold decideBlockDependency, effective. intros D. accepted D. go_bool.
  repeat split; auto using containsString_false.
  - rewrite !elem_of_cons, elem_of_nil. naive_solver.
  - destruct (State t ≟ TaskBlockedDependency) eqn:E; cbn [negb]; [|done]. by destruct t.
Qed.

Lemma unblock_accepted t c next ty :
  decideUnblockDependency t t c = Ok (next, ty) ->
  let ids := removeString (BlockingTaskIDs t) (Cmd.BlockingTaskID c) in
  State t = TaskBlockedDependency /\ Cmd.BlockingTaskID c ∈ BlockingTaskIDs t /\
  (ids <> [] /\ next = t ⟦ BlockingTaskIDs := ids ⟧
   \/ ids = [] /\ next = t ⟦ BlockingTaskIDs := [] ⟧ ⟦ State := BlockedFromState t ⟧
                         ⟦ BlockedFromState := TaskStateZero ⟧).
Proof.
  unfold decideUnblockDependency. intros D. accepted D. go_bool.
  rewrite containsString_spec in *. go_bool. repeat split; auto.
  cbn. destruct (removeString _ _) eqn:E; cbn; [right|left]; auto.
Qed.

(** Split an accepted command into the commands, with the passed guards as
    propositions and the successor substituted. *)
Ltac task_cases D :=
  unfold decideCommand in D;
  let Ty := fresh "Ty" in
  destruct (Cmd.Type_ _) eqn:Ty in D;
  [ unfold decideDefine in D | unfold decideQueuePlanning in D
  | unfold decideStartPlanning in D | unfold decideAttachModuleSpec in D
  | apply ready_accepted in D as ([? | ?] & ? & ?)
  | apply lease_accepted in D as ([[? ?] | [? ?]] & ? & ?)
  | unfold decideSubmit in D | unfold decideStartAudit in D
  | unfold decideDeterministicSuccess in D | unfold decideDeterministicFailure in D
  | unfold decideLLMSuccess in D | unfold decideLLMFailure in D
  | unfold decideQueueRework in D | unfold decideIntegrate in D
  | apply block_accepted in D as (? & ? & ? & ?)
  | apply unblock_accepted in D as (? & ? & [[? ?] | [? ?]])
  | unfold decideAuthorizeNewSeries in D | unfold decideSupersede in D
  | discriminate D ];
  try (accepted D);
  try match goal with E : auditFailed _ _ _ = _ |- _ =>
    apply auditFailed_cases in E as [[? ?] | [? ?]] end;
  subst; go_bool.
Ltac task_step H :=
  let next := fresh "next" in let ty := fresh "ty" in let D := fresh "D" in
  apply task_step_inv in H as (next & ty & ? & D & -> & ?); task_cases D.

(** The commands that create a task. *)
Definition creates (ty : TaskCommandType) : bool :=
  match ty with TaskCommandDefine | TaskCommandQueuePlanning => true | _ => false end.

(** What an event says of the task it was decided for: its version is the next
    one, and the identity is the task's own, or a new task's given by the
    command. *)
Lemma decide_facts t c e :
  DecideTask t c = Ok e ->
  AggregateVersion e = wrap64 (Version t + 1) /\ Version (Projection e) = AggregateVersion e /\
  ID (Projection e) = (if creates (Cmd.Type_ c) then Cmd.TaskID c else ID t).
Proof.
  unfold DecideTask, UTC. rewrite cloneTask_id. intros H.
  destruct (IsZero _) in H; [done|]. apply rbind_ok in H as ([next ty] & D & H%Ok_inj).
  subst e. split; [done|]. split; [done|]. cbn [Projection fst snd].
  task_cases D; rewrite ?Ty; cbn; auto.
Qed.

(** A passed or integrated task is not one that waits for its dependencies. *)
Lemma decide_audited t c e :
  DecideTask t c = Ok e ->
  Cmd.Type_ c = TaskCommandLLMSuccess \/ Cmd.Type_ c = TaskCommandIntegrate ->
  State (Projection e) = TaskPassed \/ State (Projection e) = TaskIntegrated.
Proof.
  unfold DecideTask, UTC. rewrite cloneTask_id. intros H Hc.
  destruct (IsZero _) in H; [done|]. apply rbind_ok in H as ([next ty] & D & H%Ok_inj).
  subst e. cbn [Projection fst snd]. destruct Hc as [Hc|Hc]; unfold decideCommand in D; rewrite Hc in D;
    [unfold decideLLMSuccess in D|unfold decideIntegrate in D]; accepted D; subst; cbn; auto.
Qed.

Lemma effective_blocked t :
  State t = TaskBlockedDependency -> effective t = BlockedFromState t.
Proof. intros. unfold effective. by rewrite bool_decide_eq_true_2. Qed.

Lemma window_bounds s n : attempt_window s n -> 0 <= n <= 3.
Proof. destruct s; cbn; lia. Qed.

(** The obligations of [wf] that follow from the guards alone. *)
Ltac known_state :=
  match goal with
  | HS : State ?t = TaskBlockedDependency, Ha : attempt_window (effective ?t) _ |- _ =>
      rewrite (effective_blocked t HS) in *
  | HS : State ?t = _, Ha : attempt_window (effective ?t) _ |- _ =>
      rewrite (effective_open t), HS in * by congruence
  end.
Ltac wf_done :=
  constructor; unfold effective; cbn; go_eval; cbn;
  intuition (try congruence; try lia; eauto with aor).

Lemma task_step_wf t c t' : wf t -> step t c = Some t' -> wf t'.
Proof.
  intros [Hid Hatt Hser Hnd Hfr Htok] H.
  pose proof (window_bounds _ _ Hatt) as Hb.
  task_step H; try congruence; try known_state; cbn in Hatt, Hser.
  all: try match goal with |- context [wrap64 (Attempt ?u + 1)] =>
    rewrite (wrap64_id (Attempt u + 1)) by (unfold in_int64, two63; lia) end.
  all: try solve [wf_done].
  destruct (BlockedFromState t) eqn:E; cbn in Hatt, Hser; solve [done | wf_done].
Qed.

(** Only a definition or a planning request starts a task. *)
Lemma task_step_zero_wf c t' : step zeroModuleTask c = Some t' -> wf t'.
Proof. intros H. task_step H; try done; wf_done. Qed.

#[local] Hint Resolve task_step_wf task_step_zero_wf : aor.

Lemma task_reachable_wf_or t : reachable t -> t = zeroModuleTask \/ wf t.
Proof.
  apply (rtc_ind_r (fun u => u = zeroModuleTask \/ wf u)); [by left|].
  intros u v _ [c Hc] [-> | Hwf]; right; eauto with aor.
Qed.

Lemma step_id t c t' : step t c = Some t' -> ID t' <> "" /\ (ID t <> "" -> ID t' = ID t).
Proof. intros H. task_step H; cbn in *; done. Qed.

Lemma run_id t cs t' : run t cs t' -> ID t <> "" -> ID t' = ID t.
Proof.
  induction 1 as [|t cs t1 c t2 _ IH Hs]; intros Hid; [done|].
  rewrite <- IH by done. apply step_id in Hs as [_ ->]; [done|]. by rewrite IH.
Qed.

(** ** Fencing *)
Lemma step_token t c t' : step t c = Some t' -> ID t <> "" -> FencingToken t <= FencingToken t'.
Proof. intros H ?. task_step H; cbn; congruence || lia. Qed.

Lemma run_token t cs t' : run t cs t' -> ID t <> "" -> FencingToken t <= FencingToken t'.
Proof.
  induction 1 as [|t cs t1 c t2 Hr IH Hs]; intros Hid; [lia|].
  apply step_token in Hs; [|by rewrite (run_id _ _ _ Hr Hid)]. specialize (IH Hid). lia.
Qed.

(** ** Entering a state

    A dependency block does not change the effective state, so the last
    command that did is followed by blocks and unblocks only. *)
Definition blocking (c : TaskCommand) : Prop :=
  Cmd.Type_ c = TaskCommandBlockDependency \/ Cmd.Type_ c = TaskCommandUnblockDependency.

#[export] Instance blocking_dec c : Decision (blocking c).
Proof. unfold blocking. apply _. Defined.

Lemma step_blocking t c t' :
  wf t -> step t c = Some t' -> blocking c -> effective t' = effective t.
Proof.
  intros [_ Hatt _ _ _ _] H Hb. unfold blocking in Hb.
  task_step H; try (destruct Hb; congruence); unfold effective at 1; cbn; go_eval; try done.
  - by rewrite effective_blocked.
  - rewrite (effective_blocked t) in * by done.
    destruct (BlockedFromState t); cbn in Hatt; done.
Qed.

(** The run up to the command that last set the effective state. *)
Lemma run_entered cs t :
  run zeroModuleTask cs t -> t <> zeroModuleTask ->
  exists cs1 u c v bs,
    cs = cs1 ++ c :: bs /\ run zeroModuleTask cs1 u /\ step u c = Some v /\
    effective v = effective t /\ ~ blocking c /\ Forall blocking bs.
Proof.
  intros H. remember zeroModuleTask as z eqn:Hz.
  induction H as [|z cs t1 c t2 Hr IH Hs]; intros Hne; [done|]. subst z.
  pose proof (task_reachable_wf_or _ (run_reachable step _ _ _ Hr)) as Hw.
  destruct (decide (blocking c)) as [Hb|Hb].
  - destruct Hw as [->|Hw].
    { exfalso. apply task_step_zero_wf in Hs as Hw2. unfold blocking in Hb.
      task_step Hs; try (destruct Hb; congruence); done. }
    destruct IH as (cs1 & u & c1 & v & bs & -> & Hu & Hv & He & Hn & Hbs);
      [done | by intros ->; destruct (wf_id _ Hw) |].
    exists cs1, u, c1, v, (bs ++ [c]). rewrite <- app_assoc. cbn.
    repeat split; auto.
    + rewrite He. symmetry. by eapply step_blocking.
    + apply Forall_app_2; [done|]. by apply Forall_singleton.
  - exists cs, t1, c, t2, []. repeat split; auto.
Qed.

(** ** The properties *)

Definition digest0 : string :=
  "sha256:0000000000000000000000000000000000000000000000000000000000000000".
Definition spec1 : SpecRef := mkSpecRef 1 digest0.

(** A command of the given type, at a fixed trusted time, for witnesses. *)
Definition at1 (ty : TaskCommandType) : TaskCommand := (Cmd.blank ty) ⟦ Cmd.At := 1 ⟧.
Definition define1 : TaskCommand :=
  (at1 TaskCommandDefine) ⟦ Cmd.TenantID := "tenant" ⟧ ⟦ Cmd.ProjectID := "project" ⟧
    ⟦ Cmd.TaskID := "task" ⟧ ⟦ Cmd.ModuleSpecRef := spec1 ⟧
    ⟦ Cmd.AttemptSeriesID := "series" ⟧ ⟦ Cmd.DependentTaskIDs := ["dependent"] ⟧.
Definition lease1 (token : Z) : TaskCommand :=
  (at1 TaskCommandLeaseExecution) ⟦ Cmd.FencingToken := token ⟧.
Definition recover1 (token : Z) : TaskCommand := (lease1 token) ⟦ Cmd.Recover := true ⟧.
Definition submit1 (token : Z) : TaskCommand :=
  (at1 TaskCommandSubmit) ⟦ Cmd.FencingToken := token ⟧ ⟦ Cmd.ModuleSpecRef := spec1 ⟧
    ⟦ Cmd.AttemptSeriesID := "series" ⟧.
Definition start1 : TaskCommand :=
  (at1 TaskCommandStartAudit) ⟦ Cmd.SubmissionValidated := true ⟧
    ⟦ Cmd.AuditEvidenceSHA256 := digest0 ⟧.
Definition detok1 : TaskCommand :=
  (at1 TaskCommandDeterministicSuccess) ⟦ Cmd.AuditEvidenceSHA256 := digest0 ⟧.
Definition detfail1 : TaskCommand :=
  (at1 TaskCommandDeterministicFailure) ⟦ Cmd.AuditEvidenceSHA256 := digest0 ⟧.
Definition llmok1 : TaskCommand :=
  (at1 TaskCommandLLMSuccess) ⟦ Cmd.FreshAuditor := true ⟧ ⟦ Cmd.BlindAuditContext := true ⟧
    ⟦ Cmd.NoBlockingFindings := true ⟧ ⟦ Cmd.AuditEvidenceSHA256 := digest0 ⟧.
Definition integrate1 : TaskCommand :=
  (at1 TaskCommandIntegrate) ⟦ Cmd.DependenciesSatisfied := true ⟧
    ⟦ Cmd.MergeGatePassed := true ⟧ ⟦ Cmd.AuditEvidenceSHA256 := digest0 ⟧.
Definition rework1 : TaskCommand := at1 TaskCommandQueueRework.

(** The task of the conformance run after three failed attempts. *)
Definition round (n : Z) : list TaskCommand := [lease1 n; submit1 n; start1; detfail1].
Definition ready1 : TaskCommand := at1 TaskCommandReadyExecution.
Definition three_failures : list TaskCommand :=
  [define1; ready1] ++ round 1 ++ [rework1] ++ round 2 ++ [rework1] ++ round 3.
Definition blocked_task : ModuleTask :=
  Eval vm_compute in default zeroModuleTask (exec zeroModuleTask three_failures).

Lemma blocked_run : run zeroModuleTask three_failures blocked_task.
Proof. apply exec_run. vm_compute. reflexivity. Qed.

(** C13: every task reachable from the empty one by accepted commands is well
    formed: it has at most three attempts, the attempt count fits its state
    (exactly three when the user must decide, at least one once an
    implementation was submitted, none before), the current attempt series is
    the last of a duplicate-free list, frozen dependents are the dependents,
    and QUEUED_EXECUTION and CANCELED are never reached. *)
Theorem reachable_wf t : reachable t -> t <> zeroModuleTask -> wf t.
Proof. intros H Hne. by destruct (task_reachable_wf_or _ H). Qed.

Lemma reachable_wf_witness :
  reachable blocked_task /\ State blocked_task = TaskBlockedUserDecision /\ wf blocked_task.
Proof.
  assert (H : reachable blocked_task) by exact (run_reachable step _ _ _ blocked_run).
  split; [exact H|]. split; [reflexivity|].
  apply (reachable_wf blocked_task H). discriminate.
Defined.

(** ** Third failure *)
Record user_series (t t' : ModuleTask) (c : TaskCommand) : Prop := {
  us_type : Cmd.Type_ c = TaskCommandAuthorizeNewSeries;
  us_decision : Cmd.Decision c = DecisionAuthorizeNewAttemptSeries;
  us_approved : exists a, Cmd.Approval c = Some a /\
    approves a (Cmd.At c) (Cmd.ActorID c) "AUTHORIZE_NEW_ATTEMPT_SERIES" "MODULE_TASK"
      (ID t) (RefVersion (ModuleSpecRef t)) (RefSHA256 (ModuleSpecRef t));
  us_fresh : Cmd.NewAttemptSeriesID c ∉ AttemptSeriesIDs t;
  us_result : State t' = TaskReadyExecution /\ Attempt t' = 0 /\
    AttemptSeriesID t' = Cmd.NewAttemptSeriesID c
}.

(** The steps accepted from BLOCKED_USER_DECISION. *)
Lemma user_decision_steps t c t' :
  State t = TaskBlockedUserDecision -> step t c = Some t' ->
  user_series t t' c \/ (Cmd.Type_ c = TaskCommandSupersede /\ State t' = TaskSuperseded)
  \/ ID t = "".
Proof.
  intros HS H. task_step H; try congruence; auto.
  - set_solver.
  - destruct (Cmd.Approval c) as [a|] eqn:HA; [|done]. go_bool.
    left. split; cbn; auto using containsString_false.
    exists a. split; [done|]. by apply validAt_approves.
Qed.

(** The commands the runtime issues on its own. *)
Definition automatic_rework (c : TaskCommand) : Prop :=
  Cmd.Type_ c = TaskCommandQueueRework \/ Cmd.Type_ c = TaskCommandReadyExecution.

(** C2: the third audit failure belongs to the user.  A deterministic or LLM
    audit failure at attempt three moves the task to BLOCKED_USER_DECISION and
    freezes all its dependents; from there automatic rework is refused with
    AOR_ATTEMPT_LIMIT_REACHED, and the only accepted commands are a new attempt
    series under a valid approval of this task and ModuleSpec, and SUPERSEDE. *)
Theorem third_failure_needs_user t c t' :
  wf t -> Attempt t = 3 -> step t c = Some t' ->
  Cmd.Type_ c = TaskCommandDeterministicFailure \/ Cmd.Type_ c = TaskCommandLLMFailure ->
  State t' = TaskBlockedUserDecision /\ FrozenDependentIDs t' = DependentTaskIDs t /\
  (forall r, automatic_rework r -> Cmd.At r <> 0 ->
     DecideTask t' r = Err (plain CodeAttemptLimitReached)) /\
  (forall r t'', step t' r = Some t'' ->
     user_series t' t'' r \/ (Cmd.Type_ r = TaskCommandSupersede /\ State t'' = TaskSuperseded)).
Proof.
  intros Hwf H3 H Hty.
  assert (Hw' : wf t') by eauto with aor.
  assert (HS : State t' = TaskBlockedUserDecision /\ FrozenDependentIDs t' = DependentTaskIDs t).
  { task_step H; try (destruct Hty; congruence); done. }
  destruct HS as [HS Hfr]. repeat split; auto.
  - intros r Hr Hat. unfold DecideTask, IsZero. rewrite cloneTask_id, (proj2 (Z.eqb_neq _ _) Hat).
    unfold decideCommand, decideQueueRework, decideReadyExecution.
    destruct Hr as [-> | ->]; rewrite HS; go_eval; done.
  - intros r t'' Hr. destruct (user_decision_steps _ _ _ HS Hr) as [?|[?|Hid]]; auto.
    by destruct (wf_id _ Hw').
Qed.

(** Attempt three of [blocked_task]'s history, before its audit fails. *)
Definition audited_task : ModuleTask :=
  Eval vm_compute in default zeroModuleTask (exec zeroModuleTask (removelast three_failures)).
Lemma audited_task_wf : wf audited_task.
Proof.
  assert (Hr : run zeroModuleTask (removelast three_failures) audited_task)
    by (apply exec_run; vm_compute; reflexivity).
  by destruct (task_reachable_wf_or _ (run_reachable step _ _ _ Hr)).
Qed.

Lemma third_failure_needs_user_witness :
  step audited_task detfail1 = Some blocked_task /\
  DecideTask blocked_task rework1 = Err (plain CodeAttemptLimitReached).
Proof.
  assert (Hs : step audited_task detfail1 = Some blocked_task) by (vm_compute; reflexivity).
  split; [exact Hs|].
  destruct (third_failure_needs_user audited_task detfail1 blocked_task audited_task_wf
              eq_refl Hs (or_introl eq_refl)) as (_ & _ & Hrework & _).
  apply Hrework; [left; reflexivity | discriminate].
Defined.

(** ** Fencing *)

(** Fencing excludes stale executors.  Once a lease (or a recovery) has
    been accepted, no later submission under a token issued before it is
    accepted, whatever commands ran in between. *)
Theorem stale_submit_refused t lease t1 cs t2 sub :
  Cmd.Type_ lease = TaskCommandLeaseExecution -> step t lease = Some t1 ->
  run t1 cs t2 ->
  Cmd.Type_ sub = TaskCommandSubmit -> Cmd.FencingToken sub <= FencingToken t ->
  step t2 sub = None.
Proof.
  intros Hl Hs Hr Hsub Hold. destruct (step t2 sub) as [t3|] eqn:H; [exfalso|done].
  apply step_id in Hs as Hid. destruct Hid as [Hid _].
  apply run_token in Hr; [|done].
  assert (FencingToken t < FencingToken t1) by (task_step Hs; cbn in *; congruence || lia).
  task_step H; congruence || lia.
Qed.

(** A lease at token 1, its recovery at token 2, and a later generation. *)
Definition leased_task : ModuleTask :=
  Eval vm_compute in default zeroModuleTask (exec zeroModuleTask [define1; ready1; lease1 1]).
Definition recovered_task : ModuleTask :=
  Eval vm_compute in default zeroModuleTask (step leased_task (recover1 2)).
Definition later_commands : list TaskCommand :=
  [submit1 2; start1; detfail1; rework1; lease1 3].
Definition later_task : ModuleTask :=
  Eval vm_compute in default zeroModuleTask (exec recovered_task later_commands).
Lemma later_run : run recovered_task later_commands later_task.
Proof. apply exec_run. vm_compute. reflexivity. Qed.

Lemma stale_submit_refused_witness :
  step leased_task (recover1 2) = Some recovered_task /\ step later_task (submit1 1) = None.
Proof.
  assert (Hs : step leased_task (recover1 2) = Some recovered_task) by (vm_compute; reflexivity).
  split; [exact Hs|].
  apply (stale_submit_refused leased_task (recover1 2) recovered_task later_commands later_task
           (submit1 1)); [reflexivity | exact Hs | exact later_run | reflexivity | discriminate].
Defined.

(** ** The path to integration *)

(** The one command that enters each pipeline state, and from where. *)
Definition enters (s : ModuleTaskState) (c : TaskCommand) (u : ModuleTask) : Prop :=
  match s with
  | TaskIntegrated =>
      Cmd.Type_ c = TaskCommandIntegrate /\ State u = TaskPassed /\
      Cmd.DependenciesSatisfied c = true /\ Cmd.MergeGatePassed c = true
  | TaskPassed =>
      Cmd.Type_ c = TaskCommandLLMSuccess /\ State u = TaskLLMAudit /\
      Cmd.FreshAuditor c = true /\ Cmd.BlindAuditContext c = true /\
      Cmd.NoBlockingFindings c = true
  | TaskLLMAudit =>
      Cmd.Type_ c = TaskCommandDeterministicSuccess /\ State u = TaskDeterministicAudit
  | TaskDeterministicAudit =>
      Cmd.Type_ c = TaskCommandStartAudit /\ State u = TaskSubmitted /\
      Cmd.SubmissionValidated c = true
  | TaskSubmitted =>
      Cmd.Type_ c = TaskCommandSubmit /\ State u = TaskExecuting /\
      Cmd.FencingToken c = FencingToken u
  | _ => True
  end.

Lemma step_enters u c v :
  step u c = Some v -> ~ blocking c -> enters (effective v) c u.
Proof.
  intros H Hb. unfold blocking in Hb.
  task_step H; try (exfalso; tauto); unfold effective; cbn; go_eval; cbn; auto 6.
Qed.

Lemma run_back cs t s :
  run zeroModuleTask cs t -> effective t = s -> s <> TaskStateZero ->
  exists cs1 u c bs, cs = cs1 ++ c :: bs /\ run zeroModuleTask cs1 u /\ enters s c u /\
    Forall blocking bs.
Proof.
  intros Hr He Hs. assert (t <> zeroModuleTask) by (intros ->; by destruct Hs).
  destruct (run_entered _ _ Hr H) as (cs1 & u & c & v & bs & -> & Hu & Hv & Hev & Hn & Hbs).
  exists cs1, u, c, bs. repeat split; auto. rewrite <- He, <- Hev. by apply step_enters.
Qed.

(** C14: the only way to INTEGRATED.  The history of every integrated task ends
    in submission, validated deterministic audit start, its success, a fresh
    blind LLM audit without blocking findings, and the gated integration, with
    nothing but dependency blocks and unblocks in between. *)
Theorem integrated_history cs t :
  run zeroModuleTask cs t -> effective t = TaskIntegrated ->
  exists cs0 submit b1 start b2 det b3 llm b4 integrate b5,
    cs = cs0 ++ submit :: b1 ++ start :: b2 ++ det :: b3 ++ llm :: b4 ++ integrate :: b5 /\
    Cmd.Type_ submit = TaskCommandSubmit /\
    Cmd.Type_ start = TaskCommandStartAudit /\ Cmd.SubmissionValidated start = true /\
    Cmd.Type_ det = TaskCommandDeterministicSuccess /\
    Cmd.Type_ llm = TaskCommandLLMSuccess /\ Cmd.FreshAuditor llm = true /\
    Cmd.BlindAuditContext llm = true /\ Cmd.NoBlockingFindings llm = true /\
    Cmd.Type_ integrate = TaskCommandIntegrate /\
    Cmd.DependenciesSatisfied integrate = true /\ Cmd.MergeGatePassed integrate = true /\
    Forall blocking b1 /\ Forall blocking b2 /\ Forall blocking b3 /\ Forall blocking b4 /\
    Forall blocking b5.
Proof.
  intros Hr He.
  destruct (run_back _ _ _ Hr He) as (cs4 & u4 & c5 & b5 & -> & Hr4 & (?&HS4&?&?) & ?); [done|].
  rewrite <- effective_open in HS4 by congruence.
  destruct (run_back _ _ _ Hr4 HS4) as (cs3 & u3 & c4 & b4 & -> & Hr3 & (?&HS3&?&?&?) & ?); [done|].
  rewrite <- effective_open in HS3 by congruence.
  destruct (run_back _ _ _ Hr3 HS3) as (cs2 & u2 & c3 & b3 & -> & Hr2 & (?&HS2) & ?); [done|].
  rewrite <- effective_open in HS2 by congruence.
  destruct (run_back _ _ _ Hr2 HS2) as (cs1 & u1 & c2 & b2 & -> & Hr1 & (?&HS1&?) & ?); [done|].
  rewrite <- effective_open in HS1 by congruence.
  destruct (run_back _ _ _ Hr1 HS1) as (cs0 & u0 & c1 & b1 & -> & _ & (?&_&_) & ?); [done|].
  exists cs0, c1, b1, c2, b2, c3, b3, c4, b4, c5, b5. repeat split; auto.
  rewrite <- !app_assoc. done.
Qed.

Definition integration_run : list TaskCommand :=
  [define1; ready1; lease1 1; submit1 1; start1; detok1; llmok1; integrate1].

Definition integrated_task : ModuleTask :=
  Eval vm_compute in default zeroModuleTask (exec zeroModuleTask integration_run).
Lemma integrated_run : run zeroModuleTask integration_run integrated_task.
Proof. apply exec_run. vm_compute. reflexivity. Qed.

Lemma integrated_history_witness :
  State integrated_task = TaskIntegrated /\
  exists c, c ∈ integration_run /\ Cmd.Type_ c = TaskCommandLLMSuccess /\
            Cmd.FreshAuditor c = true.
Proof.
  split; [reflexivity|].
  destruct (integrated_history integration_run integrated_task integrated_run eq_refl) as
    (cs0 & submit & b1 & start & b2 & det & b3 & llm & b4 & int & b5 & E & H).
  exists llm. split; [rewrite E; repeat rewrite ?elem_of_app, ?elem_of_cons; tauto|].
  destruct H as (_ & _ & _ & _ & Hty & Hf & _). split; [exact Hty | exact Hf].
Defined.

(** ** Events and versions *)

(** An accepted decision applies to the task it was made for, with exactly
    its projection, and to no task at another version: a duplicated, skipped or
    reordered event is refused. *)
Theorem decided_event_applies t c e :
  DecideTask t c = Ok e -> ID (Projection e) <> "" ->
  ApplyTask t e = Ok (Projection e) /\
  (forall u v, in_int64 (Version t) -> in_int64 (Version u) ->
     ApplyTask u e = Ok v -> Version u = Version t).
Proof.
  unfold DecideTask, ApplyTask, IsZero, UTC. rewrite cloneTask_id. intros H Hid.
  accepted H. cbn in Hid |- *. go_bool. split.
  - go_eval. by rewrite cloneTask_id.
  - intros u v Ht Hu Ha. accepted Ha. go_bool. symmetry. by apply wrap64_succ_inj.
Qed.

Lemma decided_event_applies_witness :
  exists e, DecideTask zeroModuleTask define1 = Ok e /\
            ApplyTask zeroModuleTask e = Ok (Projection e).
Proof.
  destruct (DecideTask zeroModuleTask define1) as [e|err] eqn:E;
    [|vm_compute in E; discriminate E].
  exists e. split; [reflexivity|].
  apply (decided_event_applies zeroModuleTask define1 e E).
  vm_compute in E. injection E as <-. discriminate.
Defined.

Lemma run_version t cs u :
  run t cs u -> 0 <= Version t -> Version t + Z.of_nat (length cs) < two63 ->
  Version u = Version t + Z.of_nat (length cs).
Proof.
  induction 1 as [|t cs t1 c t2 Hr IH Hs]; cbn [length]; [lia|].
  rewrite length_app. cbn [length]. intros H0 Hlt.
  apply task_step_inv in Hs as (next & ty & _ & _ & -> & _). cbn.
  rewrite IH, wrap64_id by (unfold in_int64, two63 in *; lia). lia.
Qed.

Lemma step_identity t c u :
  step t c = Some u -> ID t <> "" ->
  TenantID u = TenantID t /\ ProjectID u = ProjectID t /\ ID u = ID t /\
  ModuleID u = ModuleID t /\ PlanningSpecRef u = PlanningSpecRef t /\
  DependentTaskIDs u = DependentTaskIDs t /\
  ModuleSpecSourceTaskID u = ModuleSpecSourceTaskID t.
Proof. intros H ?. task_step H; try congruence; cbn; auto 8. Qed.

(** Versions count commands, and identity is immutable.  After [n] accepted
    commands the version has grown by exactly [n], and tenant, project, task,
    module, planning spec, dependents and spec source are those the task was
    created with. *)
Theorem version_counts_commands t cs u :
  run t cs u -> ID t <> "" -> 0 <= Version t ->
  Version t + Z.of_nat (length cs) < two63 ->
  Version u = Version t + Z.of_nat (length cs) /\
  TenantID u = TenantID t /\ ProjectID u = ProjectID t /\ ID u = ID t /\
  ModuleID u = ModuleID t /\ PlanningSpecRef u = PlanningSpecRef t /\
  DependentTaskIDs u = DependentTaskIDs t /\
  ModuleSpecSourceTaskID u = ModuleSpecSourceTaskID t.
Proof.
  intros Hr Hid H0 Hlt. split; [by apply run_version|]. clear H0 Hlt.
  induction Hr as [|t cs t1 c t2 Hr IH Hs]; [auto 8|].
  specialize (IH Hid). apply step_identity in Hs; [|by rewrite (run_id _ _ _ Hr Hid)].
  intuition congruence.
Qed.

Lemma version_counts_commands_witness :
  run recovered_task later_commands later_task /\ Version later_task = 9.
Proof.
  split; [exact later_run|].
  destruct (version_counts_commands recovered_task later_commands later_task later_run)
    as [H _]; [discriminate | discriminate | reflexivity |].
  rewrite H. reflexivity.
Defined.

(** ** Blocking *)
Definition block1 (b : string) : TaskCommand :=
  (at1 TaskCommandBlockDependency) ⟦ Cmd.BlockingTaskID := b ⟧.
Definition unblock1 (b : string) : TaskCommand :=
  (at1 TaskCommandUnblockDependency) ⟦ Cmd.BlockingTaskID := b ⟧.

(** [t] blocked by the tasks [ids], at some version. *)
Definition blocked_by (t : ModuleTask) (ids : list string) (v : Z) : ModuleTask :=
  t ⟦ BlockedFromState := State t ⟧ ⟦ BlockingTaskIDs := ids ⟧
    ⟦ State := TaskBlockedDependency ⟧ ⟦ Version := v ⟧.

Definition blockable (t : ModuleTask) : Prop :=
  ID t <> "" /\
  State t ∉ [TaskIntegrated; TaskCanceled; TaskSuperseded; TaskBlockedUserDecision;
             TaskBlockedDependency].

Lemma step_block t ids b v :
  blockable t -> b <> "" -> b <> ID t -> b ∉ ids ->
  step (blocked_by t ids v) (block1 b) = Some (blocked_by t (ids ++ [b]) (wrap64 (v + 1))).
Proof.
  intros [Hid Hs] Hb Hbid Hni. unfold step, DecideTask, decideCommand, blocked_by. cbn.
  unfold decideBlockDependency. cbn. rewrite containsString_spec. go_eval. cbn.
  unfold ApplyTask. cbn. go_eval. done.
Qed.

Lemma step_first_block t b :
  blockable t -> BlockingTaskIDs t = [] -> b <> "" -> b <> ID t ->
  step t (block1 b) = Some (blocked_by t [b] (wrap64 (Version t + 1))).
Proof.
  intros [Hid Hs] Hids Hb Hbid. rewrite !not_elem_of_cons in Hs.
  destruct Hs as (? & ? & ? & ? & ? & _).
  unfold step, DecideTask, decideCommand. rewrite cloneTask_id. cbn.
  unfold decideBlockDependency. rewrite Hids. cbn. go_eval. cbn.
  unfold ApplyTask. cbn. rewrite Hids. go_eval. done.
Qed.

(** The end of a block: everything back, the version aside. *)
Definition unblocked (t : ModuleTask) (v : Z) : ModuleTask :=
  t ⟦ BlockedFromState := TaskStateZero ⟧ ⟦ BlockingTaskIDs := [] ⟧ ⟦ Version := v ⟧.

Lemma step_unblock t ids b v :
  blockable t -> b <> "" -> b ∈ ids ->
  step (blocked_by t ids v) (unblock1 b)
  = Some (match removeString ids b with
          | [] => unblocked t (wrap64 (v + 1))
          | rest => blocked_by t rest (wrap64 (v + 1))
          end).
Proof.
  intros [Hid _] Hb Hin. unfold step, DecideTask, decideCommand, blocked_by. cbn.
  unfold decideUnblockDependency. cbn. rewrite containsString_spec. go_eval. cbn.
  destruct (removeString ids b) as [|x rest] eqn:E; cbn;
    unfold ApplyTask; cbn; rewrite ?E; go_eval; done.
Qed.

Lemma exec_blocks t bs : forall ids v,
  blockable t -> NoDup (ids ++ bs) -> Forall (fun b => b <> "" /\ b <> ID t) bs ->
  exists v', exec (blocked_by t ids v) (map block1 bs) = Some (blocked_by t (ids ++ bs) v').
Proof.
  induction bs as [|b bs IH]; intros ids v Ht Hnd Hbs; cbn [map exec].
  - exists v. by rewrite app_nil_r.
  - apply Forall_cons in Hbs as [[??] Hbs].
    rewrite step_block; [| done.. |].
    + replace (ids ++ b :: bs) with ((ids ++ [b]) ++ bs) in * by (by rewrite <- app_assoc).
      by apply IH.
    + apply NoDup_app in Hnd as (_ & Hd & _). intros Hb. apply (Hd b Hb). by left.
Qed.

Lemma removeString_perm ids b bs :
  NoDup ids -> ids ≡ₚ b :: bs -> removeString ids b ≡ₚ bs.
Proof.
  intros Hnd Hp. rewrite removeString_filter.
  assert (Hb : b ∉ bs) by (apply NoDup_cons; by rewrite <- Hp).
  rewrite Hp, filter_cons_False by naive_solver.
  assert (Hall : Forall (fun y => y <> b) bs) by (apply Forall_forall; by intros x Hx ->).
  clear -Hall. induction Hall; [done|]. by rewrite filter_cons_True by done; constructor.
Qed.

Lemma exec_unblocks t bs : forall ids v,
  blockable t -> NoDup ids -> bs <> [] -> ids ≡ₚ bs -> Forall (fun b => b <> "") bs ->
  exists v', exec (blocked_by t ids v) (map unblock1 bs) = Some (unblocked t v').
Proof.
  induction bs as [|b bs IH]; intros ids v Ht Hnd Hne Hp Hbs; [done|].
  apply Forall_cons in Hbs as [? Hbs]. cbn [map exec].
  rewrite step_unblock; [| done | done | rewrite Hp; by left].
  pose proof (removeString_perm _ _ _ Hnd Hp) as Hr.
  destruct (removeString ids b) as [|x rest] eqn:E.
  - apply Permutation_nil in Hr. subst. eauto.
  - apply IH; auto.
    + rewrite <- E, removeString_filter. by apply NoDup_filter.
    + intros ->. by apply Permutation_nil_r in Hr.
Qed.

(** A dependency block is undone exactly by its unblocks.  A live task
    blocked by any set of other tasks, then unblocked by the same tasks in any
    order, is the task it was, apart from its version: the state it was blocked
    in is restored and nothing else has changed. *)
Theorem block_unblock_roundtrip t bs bs' :
  blockable t -> BlockingTaskIDs t = [] -> BlockedFromState t = TaskStateZero ->
  bs <> [] -> NoDup bs -> Forall (fun b => b <> "" /\ b <> ID t) bs -> bs' ≡ₚ bs ->
  exists v, exec t (map block1 bs ++ map unblock1 bs') = Some (t ⟦ Version := v ⟧).
Proof.
  intros Ht Hids Hfrom Hne Hnd Hbs Hp. rewrite exec_app.
  destruct bs as [|b bs]; [done|]. apply Forall_cons in Hbs as Hbs'. destruct Hbs' as [[??] Hbs'].
  cbn [map exec]. rewrite step_first_block by done.
  destruct (exec_blocks t bs [b] (wrap64 (Version t + 1)) Ht Hnd Hbs') as [v ->].
  destruct (exec_unblocks t bs' ([b] ++ bs) v) as [v' ->]; auto.
  - intros ->. by apply Permutation_nil_l in Hp.
  - by rewrite Hp.
  - rewrite Hp. eapply Forall_impl; [exact Hbs|]. by intros ? [? _].
  - exists v'. destruct t; cbn in *. by subst.
Qed.

Lemma block_unblock_roundtrip_witness :
  exists v, exec leased_task (map block1 ["a"; "b"] ++ map unblock1 ["b"; "a"])
            = Some (leased_task ⟦ Version := v ⟧).
Proof.
  apply (block_unblock_roundtrip leased_task ["a"; "b"] ["b"; "a"]).
  - split; [discriminate|]. rewrite !not_elem_of_cons, elem_of_nil. cbn. repeat split; try discriminate. intros [].
  - reflexivity.
  - reflexivity.
  - discriminate.
  - repeat constructor; rewrite ?elem_of_cons, ?elem_of_nil; intros H;
      repeat destruct H as [H|H]; discriminate || contradiction.
  - repeat constructor; discriminate.
  - apply Permutation_swap.
Defined.

End TaskProps.
