(* ===== verification/Dag.v ===== *)
(** [ValidateDAG] of [internal/state/project.go]: the plan dependency graph
    check (Kahn's algorithm), for every iteration order of Go's maps. *)

From S2P Require Import Prelude GoLib.

Module Dag.

(** [map[string][]string]: a node to the nodes it depends on. *)
Abbreviation graph := (gmap string (list string)).
Abbreviation degrees := (gmap string Z).
Abbreviation adjacency := (gmap string (list string)).

(** A read of an absent key yields the zero value. *)
Definition degree_of (m : degrees) (n : string) : Z := default 0 (m !! n).
Definition nodes_of (m : adjacency) (n : string) : list string := default [] (m !! n).

(** ** The algorithm *)

(** The inner loop over the dependencies of [node]; [None] is [return false]. *)
Fixpoint scan_dependencies (g : graph) (node : string) (seen : gset string)
    (dependencies : list string) (indegree : degrees) (reverse : adjacency)
    : option (degrees * adjacency) :=
  match dependencies with
  | [] => Some (indegree, reverse)
  | dependency :: rest =>
      if (dependency ≟ node) || bool_decide (dependency ∈ seen) then None else
      if is_nil (g !! dependency) then None else
      scan_dependencies g node ({[dependency]} ∪ seen) rest
        (<[node := degree_of indegree node + 1]> indegree)
        (<[dependency := nodes_of reverse dependency ++ [node]]> reverse)
  end.

(** The outer loop, in the iteration order [order] of the map. *)
Fixpoint scan_nodes (g : graph) (order : list string) (indegree : degrees)
    (reverse : adjacency) : option (degrees * adjacency) :=
  match order with
  | [] => Some (indegree, reverse)
  | node :: rest =>
      match scan_dependencies g node ∅ (nodes_of g node) indegree reverse with
      | None => None
      | Some (indegree, reverse) => scan_nodes g rest indegree reverse
      end
  end.

(** The loop over [reverse[node]]: decrement, and enqueue what became ready. *)
Fixpoint relax (dependents : list string) (indegree : degrees) (queue : list string)
    : degrees * list string :=
  match dependents with
  | [] => (indegree, queue)
  | dependent :: rest =>
      let degree := degree_of indegree dependent - 1 in
      relax rest (<[dependent := degree]> indegree)
        (if degree =? 0 then queue ++ [dependent] else queue)
  end.

(** The queue loop; [None] when the fuel runs out. *)
Fixpoint drain (fuel : nat) (reverse : adjacency) (queue : list string)
    (indegree : degrees) (visited : Z) : option Z :=
  match queue with
  | [] => Some visited
  | node :: queue =>
      match fuel with
      | O => None
      | S fuel =>
          let '(indegree, queue) := relax (nodes_of reverse node) indegree queue in
          drain fuel reverse queue indegree (visited + 1)
      end
  end.

(** [ValidateDAG].  Go iterates maps in an unspecified order: [order1] and
    [order2] are the orders of its second and third [range] loops.  One unit of
    fuel per node is enough ([drain_total] below). *)
Definition ValidateDAG (order1 order2 : list string) (g : graph) : option bool :=
  if Nat.eqb (size g) 0 then Some false else
  match scan_nodes g order1 ((fun _ => 0) <$> g) ∅ with
  | None => Some false
  | Some (indegree, reverse) =>
      let queue := filter (fun n => degree_of indegree n = 0) order2 in
      match drain (size g) reverse queue indegree 0 with
      | None => None
      | Some visited => Some (visited =? Z.of_nat (size g))
      end
  end.

(** An order in which a [range] loop may visit the keys of [g]. *)
Definition iteration_order (order : list string) (g : graph) : Prop :=
  order ≡ₚ (map_to_list g).*1.

#[export] Instance iteration_order_dec order g : Decision (iteration_order order g).
Proof. unfold iteration_order. apply _. Defined.

(** ** The specification *)

(** [n] depends on [d]. *)
Definition edge (g : graph) (n d : string) : Prop := d ∈ nodes_of g n.

#[export] Instance edge_dec g n d : Decision (edge g n d).
Proof. unfold edge. apply _. Defined.
#[global] Typeclasses Opaque edge.

Record well_formed (g : graph) : Prop := {
  dag_nonempty : g <> ∅;
  dag_distinct : forall n, NoDup (nodes_of g n);
  dag_closed : forall n d, edge g n d -> is_Some (g !! d)
}.

Definition acyclic (g : graph) : Prop := forall n, ~ tc (edge g) n n.

(** ** Building the degrees and the reverse edges *)
Section Scan.
Context (g : graph).

Definition local_ok (node : string) (seen : gset string) (deps : list string) : Prop :=
  NoDup deps /\ node ∉ deps /\ (forall d, d ∈ deps -> d ∉ seen /\ is_Some (g !! d)).

Lemma scan_dependencies_spec node deps : forall seen ind rev,
  match scan_dependencies g node seen deps ind rev with
  | None => ~ local_ok node seen deps
  | Some (ind', rev') =>
      local_ok node seen deps /\
      (forall n, degree_of ind' n
         = degree_of ind n + if decide (n = node) then Z.of_nat (length deps) else 0) /\
      (forall d, nodes_of rev' d = nodes_of rev d ++ if decide (d ∈ deps) then [node] else [])
  end.
Proof.
  induction deps as [|x deps IH]; intros seen ind rev; cbn [scan_dependencies].
  - repeat split; try (constructor || set_solver).
    + intros n. cbn. destruct (decide (n = node)); lia.
    + intros d. rewrite decide_False by set_solver. by rewrite app_nil_r.
  - destruct (_ || _) eqn:G1.
    { intros (Hnd & Hn & Hd). apply orb_true_iff in G1 as [G1|G1]; go_bool.
      - subst. apply Hn. by left.
      - destruct (Hd x) as [Hx _]; [by left|done]. }
    destruct (is_nil (g !! x)) eqn:G2.
    { intros (_ & _ & Hd). destruct (Hd x) as [_ [y Hy]]; [by left|]. by rewrite Hy in G2. }
    go_bool. apply is_nil_false in G2.
    specialize (IH ({[x]} ∪ seen) (<[node := degree_of ind node + 1]> ind)
                  (<[x := nodes_of rev x ++ [node]]> rev)).
    destruct (scan_dependencies _ _ _ _ _ _) as [[ind' rev']|].
    + destruct IH as ((Hnd & Hn & Hd) & Hi & Hr). split; [|split].
      * split; [|split].
        -- constructor; [|done]. intros Hx. destruct (Hd x Hx). set_solver.
        -- set_solver.
        -- intros d [->|Hdd]%elem_of_cons; [done|]. destruct (Hd d Hdd). set_solver.
      * intros n. rewrite Hi. unfold degree_of at 1. destruct (decide (n = node)) as [->|].
        -- rewrite lookup_insert_eq. cbn. lia.
        -- by rewrite lookup_insert_ne by done.
      * intros d. rewrite Hr. unfold nodes_of at 1. destruct (decide (d = x)) as [->|].
        -- rewrite lookup_insert_eq. cbn. rewrite decide_False.
           ++ rewrite decide_True by (by left). by rewrite app_nil_r.
           ++ intros Hx. destruct (Hd x Hx). set_solver.
        -- rewrite lookup_insert_ne by done. fold (nodes_of rev d). f_equal.
           destruct (decide (d ∈ deps)); [rewrite decide_True by (by right)
             | rewrite decide_False by set_solver]; done.
    + intros (Hnd & Hn & Hd). apply IH. apply NoDup_cons in Hnd as [Hx Hnd].
      split; [done|]. split; [set_solver|]. intros d Hdd.
      destruct (Hd d); [by right|]. split; [|done]. set_solver.
Qed.

Lemma scan_nodes_spec order : forall seen ind rev,
  NoDup (seen ++ order) ->
  (forall n, degree_of ind n = if decide (n ∈ seen) then Z.of_nat (length (nodes_of g n)) else 0) ->
  (forall d, nodes_of rev d = filter (fun n => edge g n d) seen) ->
  match scan_nodes g order ind rev with
  | None => exists n, n ∈ order /\ ~ local_ok n ∅ (nodes_of g n)
  | Some (ind', rev') =>
      (forall n, n ∈ order -> local_ok n ∅ (nodes_of g n)) /\
      (forall n, n ∈ seen ++ order -> degree_of ind' n = Z.of_nat (length (nodes_of g n))) /\
      (forall d, nodes_of rev' d = filter (fun n => edge g n d) (seen ++ order))
  end.
Proof.
  induction order as [|x order IH]; intros seen ind rev Hnd Hi Hr; cbn [scan_nodes].
  - rewrite app_nil_r. split; [set_solver|]. split; [|done].
    intros n Hn. by rewrite Hi, decide_True.
  - pose proof (scan_dependencies_spec x (nodes_of g x) ∅ ind rev) as Hs.
    destruct (scan_dependencies _ _ _ _ _ _) as [[ind' rev']|].
    + destruct Hs as (Hok & Hi' & Hr').
      assert (Hx : x ∉ seen) by (apply NoDup_app in Hnd as (_ & Hd & _); intros Hx;
        apply (Hd x Hx); by left).
      specialize (IH (seen ++ [x]) ind' rev'). rewrite <- app_assoc in IH. cbn in IH.
      specialize (IH Hnd).
      assert (IH1 : forall n, degree_of ind' n
                = if decide (n ∈ seen ++ [x]) then Z.of_nat (length (nodes_of g n)) else 0).
      { intros n. rewrite Hi', Hi. destruct (decide (n = x)) as [->|].
        - rewrite decide_False, decide_True by set_solver. lia.
        - destruct (decide (n ∈ seen)); [rewrite decide_True by set_solver
            | rewrite decide_False by set_solver]; lia. }
      specialize (IH IH1). clear IH1.
      assert (IH2 : forall d, nodes_of rev' d = filter (fun n => edge g n d) (seen ++ [x])).
      { intros d. by rewrite Hr', Hr, filter_app. }
      specialize (IH IH2). destruct (scan_nodes g order ind' rev') as [[ind2 rev2]|].
      * destruct IH as (Hok2 & Hi2 & Hr2). split; [|done].
        intros n [->|Hn]%elem_of_cons; auto.
      * destruct IH as (n & Hn & Hno). exists n. split; [by right|done].
    + exists x. split; [by left|done].
Qed.

End Scan.

(** ** The queue *)
Lemma relax_spec deps : forall ind q,
  NoDup deps ->
  let '(ind', q') := relax deps ind q in
  (forall n, degree_of ind' n = degree_of ind n - if decide (n ∈ deps) then 1 else 0) /\
  q' = q ++ filter (fun n => degree_of ind n = 1) deps.
Proof.
  induction deps as [|x deps IH]; intros ind q Hnd; cbn [relax].
  - split; [|by rewrite app_nil_r]. intros n. rewrite decide_False by set_solver. lia.
  - apply NoDup_cons in Hnd as [Hx Hnd].
    specialize (IH (<[x := degree_of ind x - 1]> ind)
      (if degree_of ind x - 1 =? 0 then q ++ [x] else q) Hnd).
    destruct (relax _ _ _) as [ind' q']. destruct IH as [Hi ->]. split.
    + intros n. rewrite Hi. unfold degree_of at 1. destruct (decide (n = x)) as [->|].
      * rewrite lookup_insert_eq, decide_False, decide_True by (done || by left). cbn. lia.
      * rewrite lookup_insert_ne by done. fold (degree_of ind n).
        destruct (decide (n ∈ deps)); [rewrite decide_True by (by right)
          | rewrite decide_False by set_solver]; done.
    + rewrite filter_cons.
      replace (filter (fun n => degree_of (<[x := degree_of ind x - 1]> ind) n = 1) deps)
        with (filter (fun n => degree_of ind n = 1) deps).
      * destruct (decide (degree_of ind x = 1)) as [E|E].
        -- rewrite (proj2 (Z.eqb_eq (degree_of ind x - 1) 0)) by lia. by rewrite <- app_assoc.
        -- by rewrite (proj2 (Z.eqb_neq (degree_of ind x - 1) 0)) by lia.
      * apply filter_ext_in. intros n Hn. unfold degree_of.
        rewrite lookup_insert_ne; [done|]. by intros ->.
Qed.

Section Kahn.
Context (g : graph) (order : list string) (rev : adjacency).
Hypothesis Hnodes : forall n, n ∈ order <-> is_Some (g !! n).
Hypothesis Hdistinct : forall n, NoDup (nodes_of g n).
Hypothesis Hclosed : forall n d, edge g n d -> d ∈ order.
Hypothesis Hirrefl : forall n, ~ edge g n n.
Hypothesis Hnodup : NoDup order.
Hypothesis Hrev : forall d, nodes_of rev d ≡ₚ filter (fun n => edge g n d) order.

(** The dependencies of [n] not yet visited. *)
Definition pending (visited : list string) (n : string) : list string :=
  filter (fun d => d ∉ visited) (nodes_of g n).

Record kahn (visited queue : list string) (ind : degrees) : Prop := {
  kahn_nodup : NoDup (visited ++ queue);
  kahn_nodes : forall n, n ∈ visited ++ queue -> n ∈ order;
  kahn_degree : forall n, n ∈ order -> degree_of ind n = Z.of_nat (length (pending visited n));
  kahn_ready : forall n, n ∈ order -> n ∈ visited ++ queue <-> pending visited n = [];
  kahn_sn : forall n, n ∈ visited -> sn (edge g) n
}.

Lemma edge_node n d : edge g n d -> n ∈ order.
Proof.
  intros He. apply Hnodes. unfold edge, nodes_of in He.
  destruct (g !! n); [by eexists|]. cbn in He. by apply not_elem_of_nil in He.
Qed.

Lemma length_pending_snoc visited x n :
  x ∉ visited ->
  length (pending visited n)
  = (length (pending (visited ++ [x]) n) + if decide (edge g n x) then 1 else 0)%nat.
Proof.
  intros Hx. rewrite (decide_ext (edge g n x) (x ∈ nodes_of g n)) by done.
  unfold pending. pose proof (Hdistinct n) as Hnd. revert Hnd.
  induction (nodes_of g n) as [|d ds IH]; intros Hnd.
  - cbn. rewrite decide_False by set_solver. done.
  - apply NoDup_cons in Hnd as [Hd Hnd]. specialize (IH Hnd). rewrite !filter_cons.
    destruct (decide (d = x)) as [->|Hne].
    + rewrite decide_True by done. rewrite decide_False by set_solver.
      rewrite decide_True by (by left). rewrite decide_False in IH by done. cbn. lia.
    + rewrite (decide_ext (d ∉ visited ++ [x]) (d ∉ visited)) by set_solver.
      rewrite (decide_ext (x ∈ d :: ds) (x ∈ ds)) by set_solver.
      destruct (decide (d ∉ visited)); cbn; lia.
Qed.

Lemma kahn_step visited x queue ind :
  kahn visited (x :: queue) ind ->
  let '(ind', queue') := relax (nodes_of rev x) ind queue in
  kahn (visited ++ [x]) queue' ind'.
Proof.
  intros [Hnd Hin Hdeg Hready Hsn].
  assert (Hrx : NoDup (nodes_of rev x)) by (rewrite Hrev; by apply NoDup_filter).
  assert (Hmem : forall n, n ∈ nodes_of rev x <-> edge g n x).
  { intros n. rewrite Hrev, list_elem_of_filter. split; [by intros [? _]|].
    intros He. split; [done|by eapply edge_node]. }
  assert (Hxv : x ∉ visited) by (apply NoDup_app in Hnd as (_ & Hd & _); intros Hx;
    apply (Hd x Hx); by left).
  pose proof (relax_spec (nodes_of rev x) ind queue Hrx) as Hrel.
  destruct (relax _ _ _) as [ind' queue']. destruct Hrel as [Hi ->].
  set (fresh := filter (fun n => degree_of ind n = 1) (nodes_of rev x)).
  assert (Hfresh : forall n, n ∈ fresh <->
            edge g n x /\ length (pending visited n) = 1%nat).
  { intros n. unfold fresh. rewrite list_elem_of_filter, Hmem. split; intros [H1 H2].
    - rewrite Hdeg in H1 by (by eapply edge_node). split; [done|lia].
    - rewrite Hdeg by (by eapply edge_node). split; [lia|done]. }
  split.
  - rewrite <- app_assoc. cbn. rewrite app_comm_cons, app_assoc. apply NoDup_app.
    split; [done|]. split; [|by apply NoDup_filter].
    intros n Hn Hf. apply Hfresh in Hf as [He Hl].
    apply Hready in Hn; [|by eapply edge_node]. by rewrite Hn in Hl.
  - intros n. rewrite <- app_assoc, app_assoc, (cons_middle x). rewrite !elem_of_app.
    intros Hn. destruct (decide (n ∈ fresh)) as [Hf|Hf].
    + apply Hfresh in Hf as [He _]. by eapply edge_node.
    + apply Hin. set_solver.
  - intros n Hn. rewrite Hi, Hdeg, (length_pending_snoc visited x n) by done.
    rewrite (decide_ext (n ∈ nodes_of rev x) (edge g n x)) by apply Hmem. destruct (decide (edge g n x)); lia.
  - intros n Hn. pose proof (length_pending_snoc visited x n Hxv) as Hl.
    assert (Hsplit : n ∈ (visited ++ [x]) ++ queue ++ fresh
              <-> n ∈ visited ++ x :: queue \/ n ∈ fresh) by set_solver.
    rewrite Hsplit, Hready, Hfresh by done. rewrite <- !length_zero_iff_nil.
    destruct (decide (edge g n x)) as [He|He].
    + split; [intros [H0|[_ H1]]; lia|]. intros. right. split; [done|lia].
    + split; [intros [H0|[H1 _]]; [lia|done]|]. intros. left. lia.
  - intros n [Hn| ->%list_elem_of_singleton]%elem_of_app; [by apply Hsn|].
    constructor. intros d Hd. apply Hsn.
    assert (Hp : pending visited x = []).
    { apply Hready; [|set_solver]. apply Hin. set_solver. }
    destruct (decide (d ∈ visited)) as [|Hdv]; [done|exfalso].
    assert (Hdp : d ∈ pending visited x) by (by apply list_elem_of_filter).
    rewrite Hp in Hdp. by apply not_elem_of_nil in Hdp.
Qed.

Lemma drain_spec fuel : forall visited queue ind count,
  kahn visited queue ind -> count = Z.of_nat (length visited) ->
  (length order <= length visited + fuel)%nat ->
  exists visited' ind', kahn visited' [] ind' /\
    drain fuel rev queue ind count = Some (Z.of_nat (length visited')).
Proof.
  induction fuel as [|fuel IH]; intros visited [|x queue] ind count Hk Hc Hf.
  - exists visited, ind. by subst.
  - exfalso. destruct Hk as [Hnd Hin _ _ _].
    pose proof (submseteq_length _ _ (NoDup_submseteq _ _ Hnd Hin)) as Hle.
    rewrite length_app in Hle. cbn in Hle. lia.
  - exists visited, ind. by subst.
  - cbn [drain]. pose proof (kahn_step _ _ _ _ Hk) as Hk'.
    destruct (relax _ _ _) as [ind' queue'].
    apply (IH _ _ _ (count + 1) Hk'); rewrite length_app; cbn; lia.
Qed.
Lemma sn_irrefl n : sn (edge g) n -> ~ tc (edge g) n n.
Proof.
  induction 1 as [n _ IH]. intros Hc. inversion Hc as [? ? He|? m ? He Hm]; subst.
  - by apply (IH n).
  - apply (IH m He). eapply tc_r; eassumption.
Qed.

Lemma tc_node n d : tc (edge g) n d -> d ∈ order.
Proof. induction 1; [by eapply Hclosed|done]. Qed.

(** The nodes are all visited exactly when the graph has no cycle. *)
Lemma kahn_end visited ind :
  kahn visited [] ind -> length visited = length order <-> acyclic g.
Proof.
  intros [Hnd Hin _ Hready Hsn]. rewrite app_nil_r in Hnd, Hin. split.
  - intros Hl n Hc.
    assert (Hp : visited ≡ₚ order).
    { apply submseteq_length_Permutation; [by apply NoDup_submseteq|lia]. }
    apply (sn_irrefl n); [|done]. apply Hsn. rewrite Hp.
    by eapply tc_node.
  - intros Hac. apply Permutation_length, NoDup_Permutation; [done..|].
    intros n. split; [apply Hin|]. intros Hn.
    assert (Hs : sn (edge g) n).
    { apply tc_finite_sn; [exact Hac|]. exists order. intros d. apply tc_node. }
    induction Hs as [n _ IH].
    rewrite <- (app_nil_r visited). apply Hready; [done|].
    apply filter_in_none. intros d Hd Hv. apply Hv, IH; [done|by eapply Hclosed].
Qed.
End Kahn.

Lemma iteration_order_spec g o :
  iteration_order o g ->
  NoDup o /\ (forall n, n ∈ o <-> is_Some (g !! n)) /\ length o = size g.
Proof.
  intros Ho. unfold iteration_order in Ho. split; [|split].
  - rewrite Ho. apply NoDup_fst_map_to_list.
  - intros n. rewrite Ho, list_elem_of_fmap. split.
    + intros ([k v] & -> & Hk). apply elem_of_map_to_list in Hk. by eexists.
    + intros [v Hv]. exists (n, v). split; [done|by apply elem_of_map_to_list].
  - rewrite Ho, length_fmap. apply length_map_to_list.
Qed.

(** A graph whose nodes all pass the scan. *)
Lemma local_ok_graph g o :
  iteration_order o g -> g <> ∅ ->
  (forall n, n ∈ o -> local_ok g n ∅ (nodes_of g n)) <->
  well_formed g /\ (forall n, ~ edge g n n).
Proof.
  intros Ho Hne. apply iteration_order_spec in Ho as (_ & Hin & _). split.
  - intros Hok. assert (Hall : forall n, local_ok g n ∅ (nodes_of g n)).
    { intros n. destruct (g !! n) as [ds|] eqn:E; [apply Hok, Hin; by rewrite E|].
      unfold nodes_of. rewrite E. repeat split; try constructor; set_solver. }
    split; [split; [done| |]|].
    + intros n. apply Hall.
    + intros n d Hd. by apply (Hall n).
    + intros n. apply Hall.
  - intros [[_ Hd Hc] Hi] n _. split; [apply Hd|]. split; [apply Hi|].
    intros d Hdd. split; [set_solver|by eapply Hc].
Qed.

(** The queue as it is filled before the loop. *)
Lemma kahn_start g o1 o2 ind :
  NoDup o2 -> (forall n, n ∈ o2 <-> n ∈ o1) ->
  (forall n, n ∈ o1 -> degree_of ind n = Z.of_nat (length (nodes_of g n))) ->
  kahn g o1 [] (filter (fun n => degree_of ind n = 0) o2) ind.
Proof.
  intros Hnd2 Hin Hdeg.
  assert (Hp : forall n, pending g [] n = nodes_of g n).
  { intros n. apply filter_in_all. intros d _. apply not_elem_of_nil. }
  assert (Hq : forall n, n ∈ filter (fun n => degree_of ind n = 0) o2
            <-> n ∈ o1 /\ nodes_of g n = []).
  { intros n. rewrite list_elem_of_filter, Hin. split.
    - intros [Hd Hn]. rewrite Hdeg in Hd by done. split; [done|].
      apply length_zero_iff_nil. lia.
    - intros [Hn He]. by rewrite Hdeg, He. }
  split; cbn [app].
  - by apply NoDup_filter.
  - intros n Hn. by apply Hq.
  - intros n Hn. by rewrite Hp, Hdeg.
  - intros n Hn. rewrite Hq, Hp. by split; [intros [_ ?]|].
  - intros n Hn. by apply not_elem_of_nil in Hn.
Qed.

(** The scan and the queue loop, from degrees that are all 0. *)
Lemma kahn_spec g o1 o2 ind0 :
  iteration_order o1 g -> iteration_order o2 g -> g <> ∅ -> (forall n, degree_of ind0 n = 0) ->
  match scan_nodes g o1 ind0 ∅ with
  | None => ~ (well_formed g /\ acyclic g)
  | Some (ind, rev) =>
      well_formed g /\ exists visited : Z,
        drain (size g) rev (filter (fun n => degree_of ind n = 0) o2) ind 0 = Some visited /\
        (visited = Z.of_nat (size g) <-> acyclic g)
  end.
Proof.
  intros Ho1 Ho2 Hne H0.
  pose proof (iteration_order_spec _ _ Ho1) as (Hnd & Hin & Hlen).
  pose proof (iteration_order_spec _ _ Ho2) as (Hnd2 & Hin2 & _).
  pose proof (scan_nodes_spec g o1 [] ind0 ∅ Hnd) as Hs.
  assert (Hd0 : forall n, degree_of ind0 n
             = if decide (n ∈ []) then Z.of_nat (length (nodes_of g n)) else 0)
    by (intros n; by rewrite decide_False by apply not_elem_of_nil).
  specialize (Hs Hd0 (fun d => eq_refl)).
  destruct (scan_nodes _ _ _ _) as [[ind rev]|].
  - destruct Hs as (Hok & Hdeg & Hrev). apply (local_ok_graph _ _ Ho1 Hne) in Hok as [Hwf Hirr].
    cbn [app] in Hdeg, Hrev. split; [done|].
    assert (Hclosed : forall n d, edge g n d -> d ∈ o1).
    { intros n d Hd. apply Hin. by eapply dag_closed. }
    assert (Hk : kahn g o1 [] (filter (fun n => degree_of ind n = 0) o2) ind)
      by (apply kahn_start; [done| |done]; intros n; by rewrite Hin2, Hin).
    pose proof (drain_spec g o1 rev Hin (dag_distinct g Hwf)) as Hd.
    assert (Hp : forall d, nodes_of rev d ≡ₚ filter (fun n => edge g n d) o1)
      by (intros d; by rewrite Hrev).
    destruct (Hd Hclosed Hirr Hnd Hp (size g) [] _ ind 0 Hk eq_refl)
      as (v & ind' & Hk' & ->); [cbn; lia|].
    eexists. split; [done|].
    pose proof (kahn_end g o1 Hclosed Hnd v ind' Hk') as He. rewrite <- He. lia.
  - intros [Hwf Hac]. destruct Hs as (n & Hn & Hno). destruct Hno.
    apply (local_ok_graph _ _ Ho1 Hne); [|done]. split; [done|].
    intros m Hm. apply (Hac m). by constructor.
Qed.

Lemma ValidateDAG_spec o1 o2 g :
  iteration_order o1 g -> iteration_order o2 g ->
  exists b, ValidateDAG o1 o2 g = Some b /\ (b = true <-> well_formed g /\ acyclic g).
Proof.
  intros Ho1 Ho2. unfold ValidateDAG. destruct (Nat.eqb (size g) 0) eqn:Hsz.
  { exists false. split; [done|]. split; [done|]. intros [[Hne _ _] _].
    by apply Nat.eqb_eq, map_size_empty_inv in Hsz. }
  assert (Hne : g <> ∅) by (intros ->; by rewrite map_size_empty in Hsz).
  pose proof (kahn_spec g o1 o2 ((fun _ => 0) <$> g) Ho1 Ho2 Hne) as Hk.
  assert (H0 : forall n, degree_of ((fun _ => 0) <$> g) n = 0)
    by (intros n; unfold degree_of; rewrite lookup_fmap; by destruct (g !! n)).
  specialize (Hk H0). destruct (scan_nodes _ _ _ _) as [[ind rev]|].
  - destruct Hk as (Hwf & v & -> & Hv). eexists. split; [done|]. rewrite Z.eqb_eq, Hv. tauto.
  - exists false. split; [done|]. by split; [|intros ?].
Qed.

(** C17: For every order in which Go may iterate the maps, [ValidateDAG]
    terminates within its fuel and accepts exactly the dependency graphs that
    are non-empty, list each dependency once, name only existing nodes, and
    have no cycle. *)
Theorem ValidateDAG_correct o1 o2 g :
  iteration_order o1 g -> iteration_order o2 g ->
  exists b, ValidateDAG o1 o2 g = Some b /\ (b = true <-> well_formed g /\ acyclic g).
Proof. apply ValidateDAG_spec. Qed.

Definition sample_graph : graph :=
  {["api" := ["core"; "store"]; "core" := []; "store" := ["core"]]}.

Lemma ValidateDAG_correct_witness :
  iteration_order ["api"; "core"; "store"] sample_graph /\
  exists b, ValidateDAG ["api"; "core"; "store"] ["store"; "api"; "core"] sample_graph = Some b
    /\ (b = true <-> well_formed sample_graph /\ acyclic sample_graph).
Proof.
  assert (H1 : iteration_order ["api"; "core"; "store"] sample_graph)
    by (apply (bool_decide_eq_true_1 _); vm_compute; reflexivity).
  split; [exact H1|]. apply ValidateDAG_correct; [exact H1|].
  apply (bool_decide_eq_true_1 _). vm_compute. reflexivity.
Defined.
End Dag.
