(* ===== verification/Project.v ===== *)
(** The project aggregate ([internal/state/project.go]): its records, the
    validators, the command handlers of [DecideProject] one per command, and
    [ApplyProject].  The properties are in [ProjectProps.v]. *)

From Stdlib Require Export SpecFloat.
From S2P Require Import Prelude GoLib Errors Contracts Approval Dag.
Import Approval.

Module Project.

(** ** Data

    Several Go structs share field names; each record but the aggregate itself
    has a module of its own that qualifies its fields. *)

Module Route.
(** [ProjectModelRoute]; the [float64] temperature is an IEEE 754 value. *)
Record ProjectModelRoute : Type := mk {
  Provider : string;
  Model : string;
  ReasoningEffort : string;
  ContextWindowTokens : Z;
  CompactionThresholdTokens : Z;
  MaxOutputTokens : Z;
  ThinkingBudget : Z;
  Temperature : spec_float;
  Seed : option Z;
  ProviderPolicy : string;
  CachePolicy : string;
  WorstCaseCostMicros : Z;
  MaxAttempts : Z
}.
#[global] Instance eta_route : Eta ProjectModelRoute := fun r =>
  mk (Provider r) (Model r) (ReasoningEffort r) (ContextWindowTokens r)
    (CompactionThresholdTokens r) (MaxOutputTokens r) (ThinkingBudget r) (Temperature r)
    (Seed r) (ProviderPolicy r) (CachePolicy r) (WorstCaseCostMicros r) (MaxAttempts r).
End Route.
Abbreviation ProjectModelRoute := Route.ProjectModelRoute.
(** [map[string]ProjectModelRoute]: a nil map is [None]. *)
Abbreviation model_routes := (option (gmap string ProjectModelRoute)).

Module Outcome.
Record CoreModuleOutcome : Type := mk {
  TaskID : string;
  ModuleID : string;
  State : ModuleTaskState;
  Version : Z;
  ModuleSpecRef : SpecRef;
  Attempt : Z;
  AttemptSeriesID : string
}.
End Outcome.

Module Summary.
Record CoreSummary : Type := mk {
  SummaryVersion : Z;
  TenantID : string;
  ProjectID : string;
  Status : string;
  GoalSpecRef : SpecRef;
  PlanSpecRef : SpecRef;
  Modules : list Outcome.CoreModuleOutcome;
  SummarySHA256 : string;
  CreatedAt : time
}.
#[global] Instance eta_summary : Eta CoreSummary := fun s =>
  mk (SummaryVersion s) (TenantID s) (ProjectID s) (Status s) (GoalSpecRef s)
    (PlanSpecRef s) (Modules s) (SummarySHA256 s) (CreatedAt s).
End Summary.
Abbreviation CoreSummary := Summary.CoreSummary.

Inductive ProjectDeletionStatus : Type :=
| ProjectDeletionBlocked
| ProjectDeletionReady
| ProjectDeletionErasing
| ProjectDeletionCompleted
| ProjectDeletionRaw (raw : string).

#[export] Instance ProjectDeletionStatus_eq_dec : EqDecision ProjectDeletionStatus.
Proof. solve_decision. Defined.

Module Del.
Record ProjectDeletion : Type := mk {
  ID : string;
  Status : ProjectDeletionStatus;
  RequestedBy : string;
  RequestedAt : time;
  EarliestExecutionAt : time;
  StartedAt : option time;
  CompletedAt : option time;
  ProofSHA256 : string;
  ProofArtifactURI : string;
  BackupExpiresAt : option time
}.
#[global] Instance eta_deletion : Eta ProjectDeletion := fun d =>
  mk (ID d) (Status d) (RequestedBy d) (RequestedAt d) (EarliestExecutionAt d)
    (StartedAt d) (CompletedAt d) (ProofSHA256 d) (ProofArtifactURI d) (BackupExpiresAt d).
End Del.
Abbreviation ProjectDeletion := Del.ProjectDeletion.

Module Hold.
Record ProjectLegalHold : Type := mk {
  ID : string;
  Reason : string;
  PlacedBy : string;
  PlacedAt : time;
  ReleasedBy : string;
  ReleasedAt : option time;
  ReleaseReason : string
}.
#[global] Instance eta_hold : Eta ProjectLegalHold := fun h =>
  mk (ID h) (Reason h) (PlacedBy h) (PlacedAt h) (ReleasedBy h) (ReleasedAt h)
    (ReleaseReason h).
End Hold.
Abbreviation ProjectLegalHold := Hold.ProjectLegalHold.

Module Goal_.
(** [GoalRecord]; its fields are qualified by [Goal_]. *)
Record GoalRecord : Type := mk {
  ID : string;
  Version : Z;
  SHA256 : string;
  UnresolvedItems : list string;
  Status : GoalStatus;
  ApprovedBy : string;
  ApprovalRecordID : string
}.
#[global] Instance eta_goal : Eta GoalRecord := fun g =>
  mk (ID g) (Version g) (SHA256 g) (UnresolvedItems g) (Status g) (ApprovedBy g)
    (ApprovalRecordID g).
End Goal_.
Abbreviation GoalRecord := Goal_.GoalRecord.

Inductive GoalMessageKind : Type :=
| GoalMessageUser
| GoalMessageRejection
| GoalMessageChangeRequest
| GoalMessageRaw (raw : string).

Module Msg.
Record GoalMessage : Type := mk {
  ID : string;
  TenantID : string;
  ProjectID : string;
  Kind : GoalMessageKind;
  Message : string;
  ContentSHA256 : string;
  ArtifactURI : string;
  CreatedAt : time;
  CreatedBy : string
}.
End Msg.
Abbreviation GoalMessage := Msg.GoalMessage.

Module Facts.
Record CompletionFacts : Type := mk {
  AllTasksIntegrated : bool;
  AllIntegrationTasksDone : bool;
  IntegrationAuditPassed : bool;
  GoalCriteriaSatisfied : bool;
  GlobalAuditPassed : bool;
  ReleaseGatesPassed : bool;
  ReleaseArtifactsSigned : bool;
  SBOMGenerated : bool;
  ProvenanceGenerated : bool;
  NoBlockedOrRework : bool;
  NoBlockingFindings : bool;
  RiskAcceptancesValid : bool;
  OperationalSummariesGenerated : bool;
  PlanSupervisorSummaryGenerated : bool;
  GoalSummaryVerified : bool;
  FinalResultDelivered : bool;
  EvidenceSHA256 : string
}.

(** [CompletionFacts.allSatisfied]. *)
Definition allSatisfied (f : CompletionFacts) : bool :=
  AllTasksIntegrated f && AllIntegrationTasksDone f && IntegrationAuditPassed f
  && GoalCriteriaSatisfied f && GlobalAuditPassed f && ReleaseGatesPassed f
  && ReleaseArtifactsSigned f && SBOMGenerated f && ProvenanceGenerated f
  && NoBlockedOrRework f && (NoBlockingFindings f || RiskAcceptancesValid f)
  && OperationalSummariesGenerated f && PlanSupervisorSummaryGenerated f
  && GoalSummaryVerified f && FinalResultDelivered f && validDigest (EvidenceSHA256 f).
End Facts.
Abbreviation CompletionFacts := Facts.CompletionFacts.

Module Guard.
Record ProjectGuardFacts : Type := mk {
  AllTasksPassed : bool;
  AllTasksIntegrated : bool;
  IntegrationAuditPassed : bool;
  EvidenceSHA256 : string
}.
End Guard.
Abbreviation ProjectGuardFacts := Guard.ProjectGuardFacts.

Record Project : Type := mkProject {
  TenantID : string;
  ID : string;
  Name : string;
  CreatedBy : string;
  DataClassification : string;
  DeploymentTargets : list string;
  BudgetCurrency : string;
  BudgetHardLimitMinor : Z;
  BudgetSoftLimitMinor : Z;
  PromptBundleVersion : string;
  RiskTolerance : string;
  State : ProjectState;
  Version : Z;
  GoalAgentCount : Z;
  GoalProcessing : bool;
  ModelRoutes : model_routes;
  Goal : option GoalRecord;
  Plan : option SpecRef;
  CoreSummary_ : option CoreSummary;
  ReleaseApprovalRecordID : string;
  PausedFromState : ProjectState;
  Deletion : option ProjectDeletion;
  LegalHolds : list ProjectLegalHold
}.

#[export] Instance eta_Project : Eta Project := fun p =>
  mkProject (TenantID p) (ID p) (Name p) (CreatedBy p) (DataClassification p)
    (DeploymentTargets p) (BudgetCurrency p) (BudgetHardLimitMinor p)
    (BudgetSoftLimitMinor p) (PromptBundleVersion p) (RiskTolerance p) (State p)
    (Version p) (GoalAgentCount p) (GoalProcessing p) (ModelRoutes p) (Goal p) (Plan p)
    (CoreSummary_ p) (ReleaseApprovalRecordID p) (PausedFromState p) (Deletion p)
    (LegalHolds p).

(** [Project{}]. *)
Definition zeroProject : Project :=
  mkProject "" "" "" "" "" [] "" 0 0 "" "" ProjectStateZero 0 0 false None None None None
    "" ProjectStateZero None [].

Inductive ProjectCommandType : Type :=
| ProjectCommandCreate
| ProjectCommandStartGoalNegotiation
| ProjectCommandResumeToolchainGoal
| ProjectCommandSubmitGoalMessage
| ProjectCommandProposeGoal
| ProjectCommandApproveGoal
| ProjectCommandRejectGoal
| ProjectCommandRequestGoalChange
| ProjectCommandSupersedeGoal
| ProjectCommandPublishPlan
| ProjectCommandRecordCoreProgress
| ProjectCommandPublishCoreSummary
| ProjectCommandBeginIntegration
| ProjectCommandBeginGlobalAudit
| ProjectCommandReopenExecution
| ProjectCommandReopenIntegration
| ProjectCommandApproveRelease
| ProjectCommandComplete
| ProjectCommandPause
| ProjectCommandResume
| ProjectCommandAbort
| ProjectCommandArchive
| ProjectCommandRequestDeletion
| ProjectCommandPlaceLegalHold
| ProjectCommandReleaseLegalHold
| ProjectCommandBeginDeletion
| ProjectCommandCompleteDeletion
| ProjectCommandRaw (raw : string).

#[export] Instance ProjectCommandType_eq_dec : EqDecision ProjectCommandType.
Proof. solve_decision. Defined.

Definition ProjectCommandType_string (c : ProjectCommandType) : string :=
  match c with
  | ProjectCommandCreate => "CREATE_PROJECT"
  | ProjectCommandStartGoalNegotiation => "START_GOAL_NEGOTIATION"
  | ProjectCommandResumeToolchainGoal => "RESUME_TOOLCHAIN_GOAL"
  | ProjectCommandSubmitGoalMessage => "SUBMIT_GOAL_MESSAGE"
  | ProjectCommandProposeGoal => "PROPOSE_GOAL"
  | ProjectCommandApproveGoal => "APPROVE_GOAL"
  | ProjectCommandRejectGoal => "REJECT_GOAL"
  | ProjectCommandRequestGoalChange => "REQUEST_GOAL_CHANGE"
  | ProjectCommandSupersedeGoal => "SUPERSEDE_GOAL"
  | ProjectCommandPublishPlan => "PUBLISH_PLAN"
  | ProjectCommandRecordCoreProgress => "RECORD_CORE_PROGRESS"
  | ProjectCommandPublishCoreSummary => "PUBLISH_CORE_SUMMARY"
  | ProjectCommandBeginIntegration => "BEGIN_INTEGRATION"
  | ProjectCommandBeginGlobalAudit => "BEGIN_GLOBAL_AUDIT"
  | ProjectCommandReopenExecution => "REOPEN_EXECUTION"
  | ProjectCommandReopenIntegration => "REOPEN_INTEGRATION"
  | ProjectCommandApproveRelease => "APPROVE_RELEASE"
  | ProjectCommandComplete => "COMPLETE_PROJECT"
  | ProjectCommandPause => "PAUSE_PROJECT"
  | ProjectCommandResume => "RESUME_PROJECT"
  | ProjectCommandAbort => "ABORT_PROJECT"
  | ProjectCommandArchive => "ARCHIVE_PROJECT"
  | ProjectCommandRequestDeletion => "REQUEST_PROJECT_DELETION"
  | ProjectCommandPlaceLegalHold => "PLACE_PROJECT_LEGAL_HOLD"
  | ProjectCommandReleaseLegalHold => "RELEASE_PROJECT_LEGAL_HOLD"
  | ProjectCommandBeginDeletion => "BEGIN_PROJECT_DELETION"
  | ProjectCommandCompleteDeletion => "COMPLETE_PROJECT_DELETION"
  | ProjectCommandRaw raw => raw
  end.

Module Cmd.
(** [ProjectCommand], less its field [GoalSpec], which the aggregate does not
    read. *)
Record ProjectCommand : Type := mk {
  Type_ : ProjectCommandType;
  TenantID : string;
  ProjectID : string;
  ActorID : string;
  GoalAgentCount : Z;
  AsyncGoalProcessing : bool;
  StartGoalNegotiation : bool;
  Goal : option GoalRecord;
  GoalMessage : option Msg.GoalMessage;
  Plan : option SpecRef;
  CoreSummary : option Summary.CoreSummary;
  GoalSpecRef : option SpecRef;
  DAG : Dag.graph;
  Approval : option ApprovalBinding;
  Completion : option CompletionFacts;
  Guard : option ProjectGuardFacts;
  ImpactedTaskIDs : list string;
  Name : string;
  DataClassification : string;
  DeploymentTargets : list string;
  BudgetCurrency : string;
  BudgetHardLimitMinor : Z;
  BudgetSoftLimitMinor : Z;
  PromptBundleVersion : string;
  RiskTolerance : string;
  ModelRoutes : model_routes;
  Deletion : option ProjectDeletion;
  LegalHold : option ProjectLegalHold;
  LegalHoldID : string;
  ReleaseReason : string;
  At : time
}.
#[global] Instance eta_ProjectCommand : Eta ProjectCommand := fun c =>
  mk (Type_ c) (TenantID c) (ProjectID c) (ActorID c) (GoalAgentCount c)
    (AsyncGoalProcessing c) (StartGoalNegotiation c) (Goal c) (GoalMessage c) (Plan c)
    (CoreSummary c) (GoalSpecRef c) (DAG c) (Approval c) (Completion c) (Guard c)
    (ImpactedTaskIDs c) (Name c) (DataClassification c) (DeploymentTargets c)
    (BudgetCurrency c) (BudgetHardLimitMinor c) (BudgetSoftLimitMinor c)
    (PromptBundleVersion c) (RiskTolerance c) (ModelRoutes c) (Deletion c) (LegalHold c)
    (LegalHoldID c) (ReleaseReason c) (At c).

(** [ProjectCommand{Type: ty, ActorID: actor, At: at}]. *)
Definition blank (ty : ProjectCommandType) (actor : string) (t : time) : ProjectCommand :=
  mk ty "" "" actor 0 false false None None None None None ∅ None None None [] "" "" []
    "" 0 0 "" "" None None None "" "" t.
End Cmd.
Abbreviation ProjectCommand := Cmd.ProjectCommand.

Record ProjectEvent : Type := mkProjectEvent {
  EventType : string;
  AggregateVersion : Z;
  OccurredAt : time;
  Projection : Project
}.

(** ** Validators *)

(** [validProjectModelIdentity] and [safeLifecycleText], which have one body. *)
Definition validProjectModelIdentity (value : string) (maximum : Z) : bool :=
  (value ≠? "") && (len value <=? maximum) && (TrimSpace value ≟ value)
  && negb (has_control value).
Definition safeLifecycleText (value : string) (limit : Z) : bool :=
  (value ≠? "") && (len value <=? limit) && (TrimSpace value ≟ value)
  && negb (has_control value).

(** [effort] is one of the listed literals. *)
Definition one_of (effort : string) (literals : list string) : bool :=
  existsb (fun literal => effort ≟ literal) literals.

Definition ValidModelReasoningEffort (provider effort : string) : bool :=
  let p := ToLower provider in
  if one_of p ["openai"; "openai-primary"] then
    one_of effort ["none"; "low"; "medium"; "high"; "xhigh"; "max"]
  else if one_of p ["claude"] then one_of effort ["low"; "medium"; "high"; "xhigh"; "max"]
  else if one_of p ["deepseek"; "deepseek-audit"] then one_of effort ["high"; "max"]
  else if one_of p ["grok"] then one_of effort [""]
  else one_of effort [""; "none"; "low"; "medium"; "high"; "xhigh"; "max"].

Definition DefaultModelReasoningEffort (provider : string) : string :=
  let p := ToLower provider in
  if one_of p ["openai"; "openai-primary"; "claude"] then "medium"
  else if one_of p ["deepseek"; "deepseek-audit"] then "high"
  else "".

(** The [float64] constants [0] and [2]. *)
Definition float_zero : spec_float := S754_zero false.
Definition float_two : spec_float := S754_finite false 4503599627370496 (-51).

(** [!math.IsNaN(t) && !math.IsInf(t, 0) && t >= 0 && t <= 2]. *)
Definition valid_temperature (t : spec_float) : bool :=
  match t with
  | S754_nan | S754_infinity _ => false
  | _ => SFleb float_zero t && SFleb t float_two
  end.

Definition validProjectModelRoute (route : ProjectModelRoute) : bool :=
  validProjectModelIdentity (Route.Provider route) 128
  && validProjectModelIdentity (Route.Model route) 256 && (Route.Model route ≠? "*")
  && ValidModelReasoningEffort (Route.Provider route) (Route.ReasoningEffort route)
  && ((Route.ContextWindowTokens route =? 0)
      || (wrap64 (Route.MaxOutputTokens route + 1) <=? Route.ContextWindowTokens route)
         && (Route.ContextWindowTokens route <=? 64000000))
  && ((Route.CompactionThresholdTokens route =? 0)
      || (0 <? Route.ContextWindowTokens route)
         && (wrap64 (Route.MaxOutputTokens route + 1) <=? Route.CompactionThresholdTokens route)
         && (Route.CompactionThresholdTokens route
               <=? Z.quot (wrap64 (Route.ContextWindowTokens route * 9)) 10))
  && (1 <=? Route.MaxOutputTokens route) && (Route.MaxOutputTokens route <=? 1000000)
  && (0 <=? Route.ThinkingBudget route)
  && (Route.ThinkingBudget route <? Route.MaxOutputTokens route)
  && valid_temperature (Route.Temperature route)
  && validProjectModelIdentity (Route.ProviderPolicy route) 256
  && validProjectModelIdentity (Route.CachePolicy route) 128
  && (0 <=? Route.WorstCaseCostMicros route) && (1 <=? Route.MaxAttempts route)
  && (Route.MaxAttempts route <=? 5).

Definition requiredProjectModelRoles : list string :=
  ["GOAL_PROPOSER"; "GOAL_CHALLENGER"; "PLAN_SUPERVISOR"; "MODULE_PLANNER"; "EXECUTOR";
   "MODULE_AUDITOR"; "GLOBAL_AUDITOR"; "KNOWLEDGE_CURATOR"].

(** [ValidateProjectModelRoutes]; the loop returns at the first bad role. *)
Fixpoint bad_role (routes : gmap string ProjectModelRoute) (roles : list string)
    : option string :=
  match roles with
  | [] => None
  | role :: rest =>
      match routes !! role with
      | None => Some ("invalid project model route for " +:+ role)
      | Some route =>
          if negb (validProjectModelRoute route)
          then Some ("invalid project model route for " +:+ role)
          else bad_role routes rest
      end
  end.
Definition ValidateProjectModelRoutes (routes : gmap string ProjectModelRoute)
    : option string :=
  if negb (Nat.eqb (size routes) (length requiredProjectModelRoles))
  then Some "project model routes must define all roles"
  else bad_role routes requiredProjectModelRoles.

(** [validProjectCurrency]: the loop ranges over the code points; a non-ASCII
    byte belongs to a code point above [Z]. *)
Definition validProjectCurrency (value : string) : bool :=
  if negb (len value =? 3) then false else forallb (byte_in 65 90) (bytes value).

(** The loop over the deployment targets; [true] when one of them is bad. *)
Fixpoint bad_target (seen : gset string) (targets : list string) : bool :=
  match targets with
  | [] => false
  | target :: rest =>
      if (target ≟ "") || (128 <? len target) || (TrimSpace target ≠? target)
         || has_control target || bool_decide (target ∈ seen)
      then true else bad_target ({[target]} ∪ seen) rest
  end.

(** [hasDuplicateStrings]; the empty string counts as a duplicate. *)
Fixpoint hasDuplicateStrings_from (seen : gset string) (values : list string) : bool :=
  match values with
  | [] => false
  | value :: rest =>
      if (value ≟ "") || bool_decide (value ∈ seen) then true
      else hasDuplicateStrings_from ({[value]} ∪ seen) rest
  end.
Definition hasDuplicateStrings (values : list string) : bool :=
  hasDuplicateStrings_from ∅ values.

(** The loop of [CoreSummary.validFor]. *)
Fixpoint valid_outcomes (seen : gset string) (modules : list Outcome.CoreModuleOutcome)
    : bool :=
  match modules with
  | [] => true
  | m :: rest =>
      if (Outcome.TaskID m ≟ "") || (Outcome.ModuleID m ≟ "")
         || (Outcome.State m ≠? TaskPassed) || (Outcome.Version m <? 1)
         || (Outcome.Attempt m <? 1) || (3 <? Outcome.Attempt m)
         || (Outcome.AttemptSeriesID m ≟ "")
         || negb (SpecRef_valid (Outcome.ModuleSpecRef m))
      then false else
      if bool_decide (Outcome.TaskID m ∈ seen) then false
      else valid_outcomes ({[Outcome.TaskID m]} ∪ seen) rest
  end.

(** [CoreSummary.validFor]. *)
Definition validFor (summary : CoreSummary) (project : Project) : bool :=
  match Goal project, Plan project with
  | Some goal, Some plan =>
      if (Summary.SummaryVersion summary ≠? 1)
         || (Summary.TenantID summary ≠? TenantID project)
         || (Summary.ProjectID summary ≠? ID project)
         || (Summary.Status summary ≠? "COMPLETED")
         || (Summary.GoalSpecRef summary ≠? mkSpecRef (Goal_.Version goal) (Goal_.SHA256 goal))
         || (Summary.PlanSpecRef summary ≠? plan)
         || negb (validDigest (Summary.SummarySHA256 summary))
         || IsZero (Summary.CreatedAt summary)
         || Nat.eqb (length (Summary.Modules summary)) 0
      then false
      else valid_outcomes ∅ (Summary.Modules summary)
  | _, _ => false
  end.

Definition validGoalMessage (message : option GoalMessage) (current : Project)
    (command : ProjectCommand) : bool :=
  match message with
  | None => false
  | Some m =>
      if (Msg.ID m ≟ "") || (Msg.TenantID m ≠? TenantID current)
         || (Msg.ProjectID m ≠? ID current) || (Msg.CreatedBy m ≠? Cmd.ActorID command)
         || IsZero (Msg.CreatedAt m) || negb (Equal (Msg.CreatedAt m) (Cmd.At command))
         || (Msg.Message m ≟ "") || (Msg.ContentSHA256 m ≟ "") || (Msg.ArtifactURI m ≟ "")
      then false else
      match Msg.Kind m with
      | GoalMessageUser | GoalMessageRejection | GoalMessageChangeRequest =>
          validDigest (Msg.ContentSHA256 m)
          && (Msg.ArtifactURI m
                ≟ ("artifact://sha256/" +:+ slice_from 7 (Msg.ContentSHA256 m)))
      | GoalMessageRaw _ => false
      end
  end.

Definition projectLifecycleCommand (command : ProjectCommandType) : bool :=
  match command with
  | ProjectCommandPlaceLegalHold | ProjectCommandReleaseLegalHold
  | ProjectCommandBeginDeletion | ProjectCommandCompleteDeletion => true
  | _ => false
  end.

Definition validDeletionRequest (d : ProjectDeletion) (command : ProjectCommand) : bool :=
  safeLifecycleText (Del.ID d) 128 && (Del.RequestedBy d ≟ Cmd.ActorID command)
  && Equal (Del.RequestedAt d) (Cmd.At command)
  && negb (IsZero (Del.EarliestExecutionAt d))
  && negb (Before (Del.EarliestExecutionAt d) (Cmd.At command))
  && (Del.Status d ≟ ProjectDeletionRaw "") && is_nil (Del.StartedAt d)
  && is_nil (Del.CompletedAt d) && (Del.ProofSHA256 d ≟ "")
  && (Del.ProofArtifactURI d ≟ "").

Definition validDeletionCompletion (d : ProjectDeletion) (at_ : time) : bool :=
  if negb (validDigest (Del.ProofSHA256 d))
     || (Del.ProofArtifactURI d
           ≠? ("artifact://sha256/" +:+ TrimPrefix (Del.ProofSHA256 d) "sha256:"))
  then false else
  match Del.BackupExpiresAt d with None => true | Some e => negb (Before e at_) end.

Definition validLegalHold (h : ProjectLegalHold) (command : ProjectCommand) : bool :=
  safeLifecycleText (Hold.ID h) 128 && safeLifecycleText (Hold.Reason h) 1024
  && (Hold.PlacedBy h ≟ Cmd.ActorID command) && Equal (Hold.PlacedAt h) (Cmd.At command)
  && (Hold.ReleasedBy h ≟ "") && is_nil (Hold.ReleasedAt h)
  && (Hold.ReleaseReason h ≟ "").

(** [legalHoldIndex]; the index [-1] is [None]. *)
Fixpoint legalHoldIndex (holds : list ProjectLegalHold) (id : string) : option nat :=
  match holds with
  | [] => None
  | h :: rest => if Hold.ID h ≟ id then Some O else S <$> legalHoldIndex rest id
  end.

Definition hasActiveLegalHold (holds : list ProjectLegalHold) : bool :=
  existsb (fun h => is_nil (Hold.ReleasedAt h)) holds.

Definition terminalProjectState (s : ProjectState) : bool :=
  (s ≟ ProjectCompleted) || (s ≟ ProjectAborted) || (s ≟ ProjectArchived).

Definition goalChangeAllowedState (s : ProjectState) : bool :=
  match s with
  | ProjectPlanning | ProjectExecuting | ProjectIntegrating | ProjectGlobalAudit
  | ProjectBlockedUserDecision => true
  | _ => false
  end.

(** [ValidateDAG(command.DAG)]: the result does not depend on the iteration
    orders ([Dag.ValidateDAG_correct]); here both are the order of the map. *)
Definition validDAG (g : Dag.graph) : bool :=
  default false (Dag.ValidateDAG (map_to_list g).*1 (map_to_list g).*1 g).

(** ** Copies and errors *)
Definition cloneTimePointer (value : option time) : option time := UTC <$> value.

Definition cloneProjectModelRoutes (routes : model_routes) : model_routes := routes.

Definition cloneCoreSummary (value : option CoreSummary) : option CoreSummary :=
  (fun s => s ⟦ Summary.Modules := copy_slice (Summary.Modules s) ⟧) <$> value.

Definition cloneGoal (g : GoalRecord) : GoalRecord :=
  g ⟦ Goal_.UnresolvedItems := copy_slice (Goal_.UnresolvedItems g) ⟧.

Definition cloneDeletion (d : ProjectDeletion) : ProjectDeletion :=
  d ⟦ Del.StartedAt := cloneTimePointer (Del.StartedAt d) ⟧
    ⟦ Del.CompletedAt := cloneTimePointer (Del.CompletedAt d) ⟧
    ⟦ Del.BackupExpiresAt := cloneTimePointer (Del.BackupExpiresAt d) ⟧.

Definition cloneProject (project : Project) : Project :=
  project
    ⟦ DeploymentTargets := copy_slice (DeploymentTargets project) ⟧
    ⟦ ModelRoutes := cloneProjectModelRoutes (ModelRoutes project) ⟧
    ⟦ Goal := cloneGoal <$> Goal project ⟧
    ⟦ CoreSummary_ := cloneCoreSummary (CoreSummary_ project) ⟧
    ⟦ Deletion := cloneDeletion <$> Deletion project ⟧
    ⟦ LegalHolds := (fun h => h ⟦ Hold.ReleasedAt := cloneTimePointer (Hold.ReleasedAt h) ⟧)
                      <$> LegalHolds project ⟧.

Definition invalidProject (command : ProjectCommand) (reason : string) : Error :=
  scoped CodeInvalidArgument
    (ProjectCommandType_string (Cmd.Type_ command) +:+ ": " +:+ reason).

Definition transitionProject (command : ProjectCommand) (current : ProjectState) : Error :=
  New CodeInvalidStateTransition ""
    {["scope" := AnyString (ProjectCommandType_string (Cmd.Type_ command));
      "actualVersion" := AnyString (ProjectState_string current)]}.

(** ** Command handlers

    A handler is one [case] of the switch in [DecideProject]: it gets the
    current project, its clone [next] and the command, and returns the updated
    [next] with the event type, or the error of the guard that failed. *)
Definition handler : Type :=
  Project -> Project -> ProjectCommand -> result (Project * string) Error.

(** The guards of [ProjectCommandCreate] on the budget and start options. *)
Definition bad_budget (command : ProjectCommand) (currency : string) : bool :=
  (Cmd.BudgetHardLimitMinor command <? 0) || (Cmd.BudgetSoftLimitMinor command <? 0)
  || (Cmd.BudgetHardLimitMinor command <? Cmd.BudgetSoftLimitMinor command)
  || negb (validProjectCurrency currency)
  || (Cmd.StartGoalNegotiation command && (Cmd.PromptBundleVersion command ≟ "")).

Definition bad_routes (routes : model_routes) : bool :=
  match routes with
  | None => false
  | Some m => negb (is_nil (ValidateProjectModelRoutes m))
  end.

(** [value], or [fallback] when it is empty. *)
Definition or_default (value fallback : string) : string :=
  if value ≟ "" then fallback else value.

Definition decideCreate : handler := fun current next command =>
  reject invalidProject command "project creation guard" when
    (Version current ≠? 0) || (ID current ≠? "") || (Cmd.TenantID command ≟ "")
    || (Cmd.ProjectID command ≟ "") || (Cmd.GoalAgentCount command <? 1)
    || (2 <? Cmd.GoalAgentCount command) || bad_routes (Cmd.ModelRoutes command) ;;
  let name := or_default (Cmd.Name command) (Cmd.ProjectID command) in
  let dataClassification := or_default (Cmd.DataClassification command) "INTERNAL" in
  let riskTolerance := or_default (Cmd.RiskTolerance command) "MEDIUM" in
  let currency := or_default (Cmd.BudgetCurrency command) "USD" in
  reject invalidProject command "project budget" when bad_budget command currency ;;
  let deploymentTargets := copy_slice (Cmd.DeploymentTargets command) in
  reject invalidProject command "deployment target" when bad_target ∅ deploymentTargets ;;
  let '(stateValue, eventType) :=
    if Cmd.StartGoalNegotiation command
    then (ProjectGoalNegotiating, "io.aor.goal.negotiation-started.v1")
    else (ProjectCreated, "io.aor.project.created.v1") in
  Ok (mkProject (Cmd.TenantID command) (Cmd.ProjectID command) name (Cmd.ActorID command)
        dataClassification deploymentTargets currency (Cmd.BudgetHardLimitMinor command)
        (Cmd.BudgetSoftLimitMinor command) (Cmd.PromptBundleVersion command) riskTolerance
        stateValue 0 (Cmd.GoalAgentCount command) false
        (cloneProjectModelRoutes (Cmd.ModelRoutes command)) None None None ""
        ProjectStateZero None [],
      eventType).

Definition decideStartGoalNegotiation : handler := fun current next command =>
  reject transitionProject command (State current) when State current ≠? ProjectCreated ;;
  Ok (next ⟦ State := ProjectGoalNegotiating ⟧, "io.aor.goal.negotiation-started.v1").

(** The three comparisons that identify the goal a command refers to. *)
Definition other_goal (goal commanded : GoalRecord) : bool :=
  (Goal_.ID goal ≠? Goal_.ID commanded) || (Goal_.Version goal ≠? Goal_.Version commanded)
  || (Goal_.SHA256 goal ≠? Goal_.SHA256 commanded).

Definition decideResumeToolchainGoal : handler := fun current next command =>
  let refused := transitionProject command (State current) in
  reject refused when (State current ≠? ProjectGoalNegotiating) || GoalProcessing current ;;
  goal <-? Goal current else refused ;;
  commanded <-? Cmd.Goal command else refused ;;
  reject refused when other_goal goal commanded || (Goal_.ApprovedBy goal ≠? "") ;;
  Ok (next ⟦ GoalProcessing := true ⟧, "io.aor.goal.toolchain-ready.v1").

Definition decideSubmitGoalMessage : handler := fun current next command =>
  reject transitionProject command (State current) when
    (State current ≠? ProjectCreated) && (State current ≠? ProjectGoalNegotiating)
    && (State current ≠? ProjectGoalSuspended) ;;
  reject scoped CodeConflict "goal processing" when GoalProcessing current ;;
  reject invalidProject command "goal message artifact" when
    negb (validGoalMessage (Cmd.GoalMessage command) current command) ;;
  Ok (next ⟦ State := ProjectGoalNegotiating ⟧
           ⟦ GoalProcessing := Cmd.AsyncGoalProcessing command ⟧,
      "io.aor.goal.message-received.v1").

(** A copy of the commanded goal as an unapproved draft. *)
Definition draft (commanded : GoalRecord) : GoalRecord :=
  (cloneGoal commanded) ⟦ Goal_.Status := GoalDraft ⟧ ⟦ Goal_.ApprovedBy := "" ⟧
                        ⟦ Goal_.ApprovalRecordID := "" ⟧.

Definition decideProposeGoal : handler := fun current next command =>
  let refused := transitionProject command (State current) in
  reject refused when State current ≠? ProjectGoalNegotiating ;;
  commanded <-? Cmd.Goal command else refused ;;
  reject refused when
    (Goal_.ID commanded ≟ "") || (Goal_.Version commanded <? 1)
    || (Goal_.SHA256 commanded ≟ "") ;;
  reject plain CodeSpecSuperseded when
    match Goal current with
    | None => false
    | Some goal => Goal_.Version commanded <=? Goal_.Version goal
    end ;;
  Ok (next ⟦ Goal := Some (draft commanded) ⟧ ⟦ GoalProcessing := false ⟧,
      "io.aor.goal.proposed.v1").

Definition decideApproveGoal : handler := fun current next command =>
  let refused := transitionProject command (State current) in
  reject refused when State current ≠? ProjectGoalNegotiating ;;
  goal <-? Goal current else refused ;;
  commanded <-? Cmd.Goal command else refused ;;
  approval <-? Cmd.Approval command else refused ;;
  reject plain CodeGoalHashMismatch when other_goal goal commanded ;;
  reject plain CodeGoalNotApproved when
    negb (Nat.eqb (length (Goal_.UnresolvedItems goal)) 0)
    || negb (Nat.eqb (length (Goal_.UnresolvedItems commanded)) 0) ;;
  reject plain CodeApprovalRequired when
    negb (validAt approval (Cmd.At command) (Cmd.ActorID command) "GOAL_APPROVAL"
            "GOAL_SPEC" (Goal_.ID goal) (Goal_.Version goal) (Goal_.SHA256 goal)) ;;
  Ok (next ⟦ Goal := (fun g => g ⟦ Goal_.ApprovedBy := Cmd.ActorID command ⟧
                                 ⟦ Goal_.ApprovalRecordID := RecordID approval ⟧
                                 ⟦ Goal_.Status := GoalApproved ⟧) <$> Goal next ⟧
           ⟦ State := ProjectPlanning ⟧,
      "io.aor.goal.approved.v1").

Definition decideRejectGoal : handler := fun current next command =>
  let refused := transitionProject command (State current) in
  reject refused when State current ≠? ProjectGoalNegotiating ;;
  goal <-? Goal current else refused ;;
  commanded <-? Cmd.Goal command else refused ;;
  reject refused when Goal_.ApprovedBy goal ≠? "" ;;
  reject plain CodeGoalHashMismatch when other_goal goal commanded ;;
  reject invalidProject command "goal rejection message artifact" when
    negb (is_nil (Cmd.GoalMessage command))
    && negb (validGoalMessage (Cmd.GoalMessage command) current command) ;;
  Ok (next ⟦ Goal := (fun g => g ⟦ Goal_.Status := GoalRejected ⟧) <$> Goal next ⟧,
      "io.aor.goal.rejected.v1").

Definition decideRequestGoalChange : handler := fun current next command =>
  let refused := transitionProject command (State current) in
  reject refused when negb (goalChangeAllowedState (State current)) ;;
  goal <-? Goal current else refused ;;
  reject refused when Goal_.ApprovedBy goal ≟ "" ;;
  commanded <-? Cmd.Goal command else refused ;;
  reject plain CodeGoalHashMismatch when other_goal goal commanded ;;
  reject invalidProject command "goal change request" when
    hasDuplicateStrings (Cmd.ImpactedTaskIDs command)
    || negb (validGoalMessage (Cmd.GoalMessage command) current command) ;;
  Ok (next ⟦ Goal := (fun g => g ⟦ Goal_.Status := GoalSuperseded ⟧) <$> Goal next ⟧
           ⟦ Plan := None ⟧ ⟦ CoreSummary_ := None ⟧ ⟦ ReleaseApprovalRecordID := "" ⟧
           ⟦ State := ProjectGoalNegotiating ⟧,
      "io.aor.goal.change-requested.v1").

Definition decideSupersedeGoal : handler := fun current next command =>
  let refused := transitionProject command (State current) in
  reject refused when terminalProjectState (State current) ;;
  goal <-? Goal current else refused ;;
  reject refused when Goal_.ApprovedBy goal ≟ "" ;;
  commanded <-? Cmd.Goal command else refused ;;
  reject refused when
    (Goal_.Version commanded <=? Goal_.Version goal) || (Goal_.SHA256 commanded ≟ "") ;;
  reject invalidProject command "duplicate impacted task" when
    hasDuplicateStrings (Cmd.ImpactedTaskIDs command) ;;
  Ok (next ⟦ Goal := Some (draft commanded) ⟧ ⟦ GoalProcessing := false ⟧
           ⟦ Plan := None ⟧ ⟦ CoreSummary_ := None ⟧ ⟦ ReleaseApprovalRecordID := "" ⟧
           ⟦ State := ProjectGoalNegotiating ⟧,
      "io.aor.goal.superseded.v1").

Definition decidePublishPlan : handler := fun current next command =>
  let refused := transitionProject command (State current) in
  reject refused when State current ≠? ProjectPlanning ;;
  goal <-? Goal current else refused ;;
  reject refused when Goal_.ApprovedBy goal ≟ "" ;;
  plan <-? Cmd.Plan command else refused ;;
  goalRef <-? Cmd.GoalSpecRef command else refused ;;
  reject invalidProject command "plan dependency graph is not a DAG" when
    negb (validDAG (Cmd.DAG command)) ;;
  reject plain CodeGoalHashMismatch when
    (RefVersion goalRef ≠? Goal_.Version goal) || (RefSHA256 goalRef ≠? Goal_.SHA256 goal) ;;
  match SpecRef_Validate plan with
  | Some err => Err (invalidProject command err)
  | None =>
      Ok (next ⟦ Plan := Some plan ⟧ ⟦ CoreSummary_ := None ⟧ ⟦ State := ProjectExecuting ⟧,
          "io.aor.plan.published.v1")
  end.

Definition decideRecordCoreProgress : handler := fun current next command =>
  reject transitionProject command (State current) when
    (State current ≠? ProjectExecuting) || negb (is_nil (CoreSummary_ current)) ;;
  Ok (next, "io.aor.plan.core-progress-recorded.v1").

Definition decidePublishCoreSummary : handler := fun current next command =>
  let refused := transitionProject command (State current) in
  reject refused when
    (State current ≠? ProjectExecuting) || negb (is_nil (CoreSummary_ current)) ;;
  summary <-? Cmd.CoreSummary command else refused ;;
  reject refused when negb (validFor summary current) ;;
  Ok (next ⟦ CoreSummary_ := cloneCoreSummary (Cmd.CoreSummary command) ⟧,
      "io.aor.plan.core-summary-published.v1").

Definition decideBeginIntegration : handler := fun current next command =>
  let refused := transitionProject command (State current) in
  reject refused when State current ≠? ProjectExecuting ;;
  guard <-? Cmd.Guard command else refused ;;
  reject refused when
    negb (Guard.AllTasksPassed guard) || negb (validDigest (Guard.EvidenceSHA256 guard)) ;;
  Ok (next ⟦ State := ProjectIntegrating ⟧, "io.aor.project.integration-started.v1").

Definition decideBeginGlobalAudit : handler := fun current next command =>
  let refused := transitionProject command (State current) in
  reject refused when State current ≠? ProjectIntegrating ;;
  guard <-? Cmd.Guard command else refused ;;
  reject refused when
    negb (Guard.AllTasksIntegrated guard) || negb (Guard.IntegrationAuditPassed guard)
    || negb (validDigest (Guard.EvidenceSHA256 guard)) ;;
  Ok (next ⟦ State := ProjectGlobalAudit ⟧, "io.aor.project.global-audit-started.v1").

Definition decideReopenExecution : handler := fun current next command =>
  let refused := transitionProject command (State current) in
  reject refused when State current ≠? ProjectGlobalAudit ;;
  guard <-? Cmd.Guard command else refused ;;
  reject refused when negb (validDigest (Guard.EvidenceSHA256 guard)) ;;
  Ok (next ⟦ State := ProjectExecuting ⟧ ⟦ ReleaseApprovalRecordID := "" ⟧,
      "io.aor.project.global-audit-remediation-started.v1").

Definition decideReopenIntegration : handler := fun current next command =>
  let refused := transitionProject command (State current) in
  reject refused when State current ≠? ProjectGlobalAudit ;;
  guard <-? Cmd.Guard command else refused ;;
  reject refused when negb (validDigest (Guard.EvidenceSHA256 guard)) ;;
  Ok (next ⟦ State := ProjectIntegrating ⟧ ⟦ ReleaseApprovalRecordID := "" ⟧,
      "io.aor.project.global-audit-remediation-started.v1").

Definition decideApproveRelease : handler := fun current next command =>
  let refused := transitionProject command (State current) in
  reject refused when State current ≠? ProjectGlobalAudit ;;
  plan <-? Plan current else refused ;;
  approval <-? Cmd.Approval command else refused ;;
  reject refused when
    negb (validAt approval (Cmd.At command) (Cmd.ActorID command) "RELEASE_APPROVAL"
            "PROJECT" (ID current) (Version current) (RefSHA256 plan)) ;;
  Ok (next ⟦ ReleaseApprovalRecordID := RecordID approval ⟧,
      "io.aor.approval.committed.v1").

Definition decideComplete : handler := fun current next command =>
  let refused := transitionProject command (State current) in
  reject refused when State current ≠? ProjectGlobalAudit ;;
  goal <-? Goal current else refused ;;
  reject refused when
    (Goal_.Status goal ≠? GoalApproved) || (Goal_.ApprovedBy goal ≟ "")
    || (Goal_.ApprovalRecordID goal ≟ "") ;;
  plan <-? Plan current else refused ;;
  reject refused when ReleaseApprovalRecordID current ≟ "" ;;
  completion <-? Cmd.Completion command else refused ;;
  reject refused when negb (Facts.allSatisfied completion) ;;
  Ok (next ⟦ State := ProjectCompleted ⟧, "io.aor.project.completed.v1").

Definition decidePause : handler := fun current next command =>
  reject transitionProject command (State current) when
    terminalProjectState (State current) || (State current ≟ ProjectPaused) ;;
  Ok (next ⟦ PausedFromState := State current ⟧
           ⟦ State := if State current ≟ ProjectGoalNegotiating then ProjectGoalSuspended
                      else ProjectPaused ⟧
           ⟦ GoalProcessing := false ⟧,
      "io.aor.project.paused.v1").

(** The state [ProjectCommandResume] returns to. *)
Definition resumed (current : Project) : ProjectState :=
  if State current ≟ ProjectGoalSuspended then ProjectGoalNegotiating
  else if PausedFromState current ≠? ProjectStateZero then PausedFromState current
  else if match Goal current with None => true | Some g => Goal_.ApprovedBy g ≟ "" end
  then ProjectGoalNegotiating
  else if is_nil (Plan current) then ProjectPlanning
  else ProjectExecuting.

Definition decideResume : handler := fun current next command =>
  reject transitionProject command (State current) when
    (State current ≠? ProjectPaused) && (State current ≠? ProjectGoalSuspended) ;;
  Ok (next ⟦ State := resumed current ⟧ ⟦ PausedFromState := ProjectStateZero ⟧,
      "io.aor.project.resumed.v1").

Definition decideAbort : handler := fun current next command =>
  reject transitionProject command (State current) when
    terminalProjectState (State current) ;;
  Ok (next ⟦ State := ProjectAborted ⟧, "io.aor.project.aborted.v1").

Definition decideArchive : handler := fun current next command =>
  reject transitionProject command (State current) when
    (State current ≠? ProjectCompleted) && (State current ≠? ProjectAborted) ;;
  Ok (next ⟦ State := ProjectArchived ⟧, "io.aor.project.archived.v1").

(** [State] and [PausedFromState] after a deletion request. *)
Definition stop_for_deletion (current next : Project) : Project :=
  if negb (terminalProjectState (State current)) then
    next ⟦ PausedFromState := State current ⟧ ⟦ State := ProjectPaused ⟧
  else if State current ≠? ProjectArchived then next ⟦ State := ProjectArchived ⟧
  else next.

Definition decideRequestDeletion : handler := fun current next command =>
  let refused := invalidProject command "deletion request" in
  reject refused when (ID current ≟ "") || negb (is_nil (Deletion current)) ;;
  requested <-? Cmd.Deletion command else refused ;;
  reject refused when negb (validDeletionRequest requested command) ;;
  let status := if hasActiveLegalHold (LegalHolds current) then ProjectDeletionBlocked
                else ProjectDeletionReady in
  Ok (stop_for_deletion current
        (next ⟦ Deletion := Some (requested ⟦ Del.Status := status ⟧) ⟧),
      "io.aor.project.deletion-requested.v1").

(** The deletion record with its status changed from [from] to [to]. *)
Definition move_deletion (from to : ProjectDeletionStatus) (d : option ProjectDeletion)
    : option ProjectDeletion :=
  (fun d => if Del.Status d ≟ from then d ⟦ Del.Status := to ⟧ else d) <$> d.

Definition decidePlaceLegalHold : handler := fun current next command =>
  let refused := invalidProject command "legal hold" in
  reject refused when ID current ≟ "" ;;
  hold <-? Cmd.LegalHold command else refused ;;
  reject refused when
    negb (validLegalHold hold command)
    || negb (is_nil (legalHoldIndex (LegalHolds current) (Hold.ID hold))) ;;
  Ok (next ⟦ LegalHolds := LegalHolds next ++ [hold] ⟧
           ⟦ Deletion := move_deletion ProjectDeletionReady ProjectDeletionBlocked
                           (Deletion next) ⟧,
      "io.aor.project.legal-hold-placed.v1").

Definition release_hold (command : ProjectCommand) (h : ProjectLegalHold)
    : ProjectLegalHold :=
  h ⟦ Hold.ReleasedAt := Some (UTC (Cmd.At command)) ⟧
    ⟦ Hold.ReleasedBy := Cmd.ActorID command ⟧
    ⟦ Hold.ReleaseReason := Cmd.ReleaseReason command ⟧.

Definition decideReleaseLegalHold : handler := fun current next command =>
  let refused := invalidProject command "legal hold release" in
  index <-? legalHoldIndex (LegalHolds current) (Cmd.LegalHoldID command) else refused ;;
  hold <-? LegalHolds current !! index else refused ;;
  reject refused when
    negb (is_nil (Hold.ReleasedAt hold))
    || negb (safeLifecycleText (Cmd.ReleaseReason command) 1024) ;;
  let holds := alter (release_hold command) index (LegalHolds next) in
  Ok (next ⟦ LegalHolds := holds ⟧
           ⟦ Deletion := if hasActiveLegalHold holds then Deletion next else
                         move_deletion ProjectDeletionBlocked ProjectDeletionReady
                           (Deletion next) ⟧,
      "io.aor.project.legal-hold-released.v1").

Definition decideBeginDeletion : handler := fun current next command =>
  let refused := transitionProject command (State current) in
  deletion <-? Deletion current else refused ;;
  reject refused when
    (Del.Status deletion ≠? ProjectDeletionReady) || hasActiveLegalHold (LegalHolds current)
    || Before (Cmd.At command) (Del.EarliestExecutionAt deletion) ;;
  Ok (next ⟦ Deletion := (fun d => d ⟦ Del.Status := ProjectDeletionErasing ⟧
                                     ⟦ Del.StartedAt := Some (UTC (Cmd.At command)) ⟧)
                           <$> Deletion next ⟧,
      "io.aor.project.deletion-started.v1").

Definition decideCompleteDeletion : handler := fun current next command =>
  let refused := transitionProject command (State current) in
  deletion <-? Deletion current else refused ;;
  reject refused when Del.Status deletion ≠? ProjectDeletionErasing ;;
  proof <-? Cmd.Deletion command else refused ;;
  reject refused when negb (validDeletionCompletion proof (Cmd.At command)) ;;
  Ok (next
        ⟦ Deletion := (fun d =>
            d ⟦ Del.Status := ProjectDeletionCompleted ⟧
              ⟦ Del.CompletedAt := Some (UTC (Cmd.At command)) ⟧
              ⟦ Del.ProofSHA256 := Del.ProofSHA256 proof ⟧
              ⟦ Del.ProofArtifactURI := Del.ProofArtifactURI proof ⟧
              ⟦ Del.BackupExpiresAt :=
                  match Del.BackupExpiresAt proof with
                  | Some e => Some (UTC e)
                  | None => Del.BackupExpiresAt d
                  end ⟧) <$> Deletion next ⟧
        ⟦ State := ProjectArchived ⟧ ⟦ PausedFromState := ProjectStateZero ⟧
        ⟦ Goal := None ⟧ ⟦ Plan := None ⟧ ⟦ DeploymentTargets := [] ⟧
        ⟦ ModelRoutes := None ⟧ ⟦ PromptBundleVersion := "" ⟧
        ⟦ ReleaseApprovalRecordID := "" ⟧,
      "io.aor.project.deletion-completed.v1").

(** The switch of [DecideProject]. *)
Definition decideProjectCommand (current next : Project) (command : ProjectCommand)
    : result (Project * string) Error :=
  match Cmd.Type_ command with
  | ProjectCommandCreate => decideCreate current next command
  | ProjectCommandStartGoalNegotiation => decideStartGoalNegotiation current next command
  | ProjectCommandResumeToolchainGoal => decideResumeToolchainGoal current next command
  | ProjectCommandSubmitGoalMessage => decideSubmitGoalMessage current next command
  | ProjectCommandProposeGoal => decideProposeGoal current next command
  | ProjectCommandApproveGoal => decideApproveGoal current next command
  | ProjectCommandRejectGoal => decideRejectGoal current next command
  | ProjectCommandRequestGoalChange => decideRequestGoalChange current next command
  | ProjectCommandSupersedeGoal => decideSupersedeGoal current next command
  | ProjectCommandPublishPlan => decidePublishPlan current next command
  | ProjectCommandRecordCoreProgress => decideRecordCoreProgress current next command
  | ProjectCommandPublishCoreSummary => decidePublishCoreSummary current next command
  | ProjectCommandBeginIntegration => decideBeginIntegration current next command
  | ProjectCommandBeginGlobalAudit => decideBeginGlobalAudit current next command
  | ProjectCommandReopenExecution => decideReopenExecution current next command
  | ProjectCommandReopenIntegration => decideReopenIntegration current next command
  | ProjectCommandApproveRelease => decideApproveRelease current next command
  | ProjectCommandComplete => decideComplete current next command
  | ProjectCommandPause => decidePause current next command
  | ProjectCommandResume => decideResume current next command
  | ProjectCommandAbort => decideAbort current next command
  | ProjectCommandArchive => decideArchive current next command
  | ProjectCommandRequestDeletion => decideRequestDeletion current next command
  | ProjectCommandPlaceLegalHold => decidePlaceLegalHold current next command
  | ProjectCommandReleaseLegalHold => decideReleaseLegalHold current next command
  | ProjectCommandBeginDeletion => decideBeginDeletion current next command
  | ProjectCommandCompleteDeletion => decideCompleteDeletion current next command
  | ProjectCommandRaw _ => Err (invalidProject command "unknown command")
  end.

(** A deletion was requested and is not yet completed. *)
Definition deletion_pending (p : Project) : bool :=
  match Deletion p with
  | None => false
  | Some d => Del.Status d ≠? ProjectDeletionCompleted
  end.

Definition DecideProject (current : Project) (command : ProjectCommand)
    : result ProjectEvent Error :=
  reject invalidProject command "actor and trusted time are required" when
    IsZero (Cmd.At command) || (Cmd.ActorID command ≟ "") ;;
  reject transitionProject command (State current) when
    deletion_pending current && negb (projectLifecycleCommand (Cmd.Type_ command)) ;;
  decided <-! decideProjectCommand current (cloneProject current) command ;;
  let next := decided.1 ⟦ Version := wrap64 (Version current + 1) ⟧ in
  Ok (mkProjectEvent decided.2 (Version next) (UTC (Cmd.At command)) next).

Definition ApplyProject (current : Project) (event : ProjectEvent)
    : result Project string :=
  reject "project event version or projection is invalid" when
    (AggregateVersion event ≠? wrap64 (Version current + 1))
    || (Version (Projection event) ≠? AggregateVersion event)
    || (ID (Projection event) ≟ "") || IsZero (OccurredAt event) ;;
  Ok (cloneProject (Projection event)).

(** [conformanceProjectStep] without its error log: decide, then apply. *)
Definition projectStep (current : Project) (command : ProjectCommand) : option Project :=
  match DecideProject current command with
  | Err _ => None
  | Ok event =>
      match ApplyProject current event with Ok next => Some next | Err _ => None end
  end.

End Project.
