(* ===== verification/ProjectWf.v ===== *)
(** The well-formedness invariant of the project aggregate and its
    preservation by every command of [DecideProject]. *)

From S2P Require Import Prelude GoLib Runs Errors Contracts Approval Dag Project.
Import Approval Project.

Module ProjectWf.

(** ** Accepted steps *)
Lemma cloneTimePointer_id (t : option time) : cloneTimePointer t = t.
Proof. by destruct t. Qed.

Lemma cloneProject_id p : cloneProject p = p.
Proof.
  assert (Hg : cloneGoal <$> Goal p = Goal p) by (destruct (Goal p) as [[]|]; done).
  assert (Hs : cloneCoreSummary (CoreSummary_ p) = CoreSummary_ p)
    by (destruct (CoreSummary_ p) as [[]|]; done).
  assert (Hd : cloneDeletion <$> Deletion p = Deletion p).
  { destruct (Deletion p) as [[]|]; [|done]. unfold cloneDeletion. cbn.
    by rewrite !cloneTimePointer_id. }
  assert (Hh : (fun h => h ⟦ Hold.ReleasedAt := cloneTimePointer (Hold.ReleasedAt h) ⟧)
                 <$> LegalHolds p = LegalHolds p).
  { induction (LegalHolds p) as [|[] l IH]; [done|]. cbn in *. by rewrite IH, cloneTimePointer_id. }
  unfold cloneProject. rewrite Hg, Hs, Hd, Hh. by destruct p.
Qed.

Lemma step_inv p c p' :
  projectStep p c = Some p' ->
  exists next ty,
    Cmd.At c <> 0 /\ Cmd.ActorID c <> "" /\
    (deletion_pending p = true -> projectLifecycleCommand (Cmd.Type_ c) = true) /\
    decideProjectCommand p p c = Ok (next, ty) /\
    p' = next ⟦ Version := wrap64 (Version p + 1) ⟧ /\ ID next <> "".
Proof.
  unfold projectStep, DecideProject, ApplyProject, IsZero, UTC.
  rewrite cloneProject_id. intros H.
  destruct (_ || _) eqn:G1 in H; [done|]. destruct (_ && _) eqn:G2 in H; [done|].
  destruct (decideProjectCommand p p c) as [[next ty]|e] eqn:D; cbn [rbind] in H; [|done].
  cbn [fst snd AggregateVersion Projection OccurredAt] in H.
  destruct (_ || _) eqn:G in H; [done|]. injection H as <-. rewrite cloneProject_id. go_bool.
  exists next, ty. repeat split; auto.
  intros Hp. rewrite Hp in G2. by destruct (projectLifecycleCommand _).
Qed.

Abbreviation run := (Runs.run projectStep).
Abbreviation exec := (Runs.exec projectStep).
Definition reachable (p : Project) : Prop := rtc (Runs.steps_to projectStep) zeroProject p.

(** ** Stages *)

(** The state a paused project was paused in. *)
Definition effective (p : Project) : ProjectState :=
  match State p with ProjectPaused => PausedFromState p | s => s end.

(** The goal is approved from planning on. *)
Definition approved_stage (s : ProjectState) : bool :=
  match s with
  | ProjectPlanning | ProjectExecuting | ProjectIntegrating | ProjectGlobalAudit
  | ProjectCompleted => true
  | _ => false
  end.

(** A plan is published from execution on. *)
Definition planned_stage (s : ProjectState) : bool :=
  match s with
  | ProjectExecuting | ProjectIntegrating | ProjectGlobalAudit | ProjectCompleted => true
  | _ => false
  end.

(** Where a core summary may be kept, and where a release approval may be. *)
Definition summary_stage (s : ProjectState) : bool :=
  match s with
  | ProjectExecuting | ProjectIntegrating | ProjectGlobalAudit | ProjectCompleted
  | ProjectAborted | ProjectArchived | ProjectPaused => true
  | _ => false
  end.
Definition release_stage (s : ProjectState) : bool :=
  match s with
  | ProjectGlobalAudit | ProjectCompleted | ProjectAborted | ProjectArchived
  | ProjectPaused => true
  | _ => false
  end.

(** The states some command leads to. *)
Definition used_state (s : ProjectState) : bool :=
  match s with
  | ProjectBlockedUserDecision | ProjectFailedSystem | ProjectStateRaw _ => false
  | _ => true
  end.

Definition goal_ref (g : GoalRecord) : SpecRef := mkSpecRef (Goal_.Version g) (Goal_.SHA256 g).

Record approved_goal (g : GoalRecord) : Prop := {
  ag_status : Goal_.Status g = GoalApproved;
  ag_by : Goal_.ApprovedBy g <> "";
  ag_record : Goal_.ApprovalRecordID g <> "";
  ag_resolved : Goal_.UnresolvedItems g = [];
  ag_ref : SpecRef_valid (goal_ref g) = true
}.

(** A deletion record agrees with the holds and with the project's state. *)
Definition deletion_ok (p : Project) (d : ProjectDeletion) : Prop :=
  match Del.Status d with
  | ProjectDeletionReady => hasActiveLegalHold (LegalHolds p) = false
  | ProjectDeletionBlocked => hasActiveLegalHold (LegalHolds p) = true
  | ProjectDeletionErasing =>
      exists t, Del.StartedAt d = Some t /\ Del.EarliestExecutionAt d <= t
  | ProjectDeletionCompleted =>
      State p = ProjectArchived /\ Goal p = None /\ Plan p = None /\ ModelRoutes p = None /\
      (exists t, Del.StartedAt d = Some t /\ Del.EarliestExecutionAt d <= t) /\
      is_Some (Del.CompletedAt d) /\ validDigest (Del.ProofSHA256 d) = true
  | ProjectDeletionRaw _ => False
  end.

Record wf (p : Project) : Prop := {
  wf_id : ID p <> "" /\ TenantID p <> "";
  wf_state : used_state (effective p) = true;
  wf_paused : State p = ProjectPaused -> terminalProjectState (PausedFromState p) = false /\
    (PausedFromState p = ProjectPaused -> deletion_pending p = true);
  wf_goal : approved_stage (effective p) = true ->
    from_option approved_goal False (Goal p);
  wf_plan : planned_stage (effective p) = true ->
    from_option (fun plan => SpecRef_valid plan = true) False (Plan p);
  wf_summary : from_option (fun s => summary_stage (effective p) = true /\
    (Goal p <> None -> validFor s p = true)) True (CoreSummary_ p);
  wf_release : ReleaseApprovalRecordID p <> "" -> release_stage (effective p) = true;
  wf_released : effective p = ProjectCompleted -> ReleaseApprovalRecordID p <> "";
  wf_deletion : from_option (fun d => (State p = ProjectPaused \/ State p = ProjectArchived) /\
    deletion_ok p d) True (Deletion p);
  wf_holds : NoDup (Hold.ID <$> LegalHolds p)
}.

(** Split an accepted step into the commands, with the passed guards as
    propositions and the successor substituted. *)
Ltac handler_guards D :=
  match type of D with ?h _ _ _ = _ => unfold h in D end; cbv zeta in D; accepted D.
Ltac project_step H :=
  let next := fresh "next" in let ty := fresh "ty" in let D := fresh "D" in
  let Hpend := fresh "Hpend" in
  apply step_inv in H as (next & ty & ? & ? & Hpend & D & -> & ?);
  unfold decideProjectCommand in D;
  let Ty := fresh "Ty" in
  destruct (Cmd.Type_ _) eqn:Ty in D, Hpend; [..|discriminate D];
  handler_guards D;
  try match type of D with context [if Cmd.StartGoalNegotiation ?c then _ else _] =>
    destruct (Cmd.StartGoalNegotiation c); accepted D end;
  subst; go_bool.

(** ** Preservation of the invariant *)

(** A command that is not a lifecycle command finds no deletion record, unless
    the project is archived. *)
Lemma no_deletion p :
  from_option (fun d => (State p = ProjectPaused \/ State p = ProjectArchived) /\
    deletion_ok p d) True (Deletion p) ->
  (deletion_pending p = true -> false = true) ->
  Deletion p = None \/ State p = ProjectArchived.
Proof.
  unfold deletion_pending. destruct (Deletion p) as [d|]; [|by left].
  intros [_ Hok] Hp. unfold deletion_ok in Hok. right.
  destruct (Del.Status d); try tauto; discriminate (Hp eq_refl).
Qed.

Lemma effective_known p s : State p = s -> s <> ProjectPaused -> effective p = s.
Proof. unfold effective. intros -> ?. by destruct s. Qed.

(** [validFor] reads the identity, the goal and the plan only. *)
Lemma validFor_ext s p q :
  TenantID p = TenantID q -> ID p = ID q -> Goal p = Goal q -> Plan p = Plan q ->
  validFor s p = validFor s q.
Proof. unfold validFor. by intros -> -> -> ->. Qed.

Ltac known_state :=
  match goal with
  | HS : State ?p = ?s, Hst : used_state (effective ?p) = true |- _ =>
      rewrite (effective_known p s HS) in * by congruence; cbn in Hst
  end.

Lemma release_none p : (ReleaseApprovalRecordID p <> "" -> false = true) ->
  ReleaseApprovalRecordID p = "".
Proof. intros H. destruct (decide (ReleaseApprovalRecordID p = "")); [done|by discriminate H]. Qed.

Arguments validFor : simpl never.
Arguments deletion_ok : simpl never.

(** Rewrite with what is known of the fields of [p], then evaluate. *)
Ltac known_fields :=
  repeat match goal with
  | HS : State _ = _ |- _ => rewrite HS
  | HS : CoreSummary_ _ = _ |- _ => rewrite HS
  | HS : ReleaseApprovalRecordID _ = "" |- _ => rewrite HS
  | HS : Deletion _ = None |- _ => rewrite HS
  | HS : Goal _ = _ |- _ => rewrite HS
  | HS : Plan _ = _ |- _ => rewrite HS
  end; cbn; go_eval; cbn.
Ltac wf_done :=
  solve [ constructor; unfold effective; cbn; known_fields; intuition congruence ].

Lemma approve_goal_wf g c a :
  (length (Goal_.UnresolvedItems g) =? 0)%nat = true ->
  validAt a (Cmd.At c) (Cmd.ActorID c) "GOAL_APPROVAL" "GOAL_SPEC" (Goal_.ID g)
    (Goal_.Version g) (Goal_.SHA256 g) = true ->
  approved_goal (g ⟦ Goal_.ApprovedBy := Cmd.ActorID c ⟧
                   ⟦ Goal_.ApprovalRecordID := RecordID a ⟧
                   ⟦ Goal_.Status := GoalApproved ⟧).
Proof.
  intros Hu Hv. apply validAt_approves in Hv as [? _ _ _ [_ ?] _ _ _ ?].
  apply Nat.eqb_eq, length_zero_iff_nil in Hu. by split.
Qed.

Lemma resumed_suspended p : State p = ProjectGoalSuspended -> resumed p = ProjectGoalNegotiating.
Proof. unfold resumed. intros ->. by go_eval. Qed.

Lemma resumed_paused p :
  State p = ProjectPaused -> used_state (PausedFromState p) = true ->
  resumed p = PausedFromState p.
Proof. unfold resumed. intros -> H. go_eval. by destruct (PausedFromState p). Qed.

Lemma resume_wf p v :
  wf p -> (deletion_pending p = true -> false = true) ->
  State p = ProjectPaused \/ State p = ProjectGoalSuspended ->
  wf (p ⟦ State := resumed p ⟧ ⟦ PausedFromState := ProjectStateZero ⟧ ⟦ Version := v ⟧).
Proof.
  intros [[Hid Hten] Hst Hpa Hgo Hpl Hsu Hre Hred Hdel Hho] Hpend HS.
  destruct (no_deletion p Hdel Hpend) as [Hnd|Hnd]; [|intuition congruence].
  unfold effective in *. destruct HS as [HS|HS]; rewrite HS in *.
  - rewrite (resumed_paused p HS Hst).
    destruct Hpa as [_ Hpa]; [done|].
    destruct (PausedFromState p) eqn:HP; try discriminate Hst;
      try discriminate (Hpend (Hpa eq_refl));
      cbn in *; try (apply release_none in Hre);
      destruct (CoreSummary_ p) as [sm|] eqn:ES; cbn in Hsu;
      try (destruct Hsu as [Hss Hsv]); try discriminate Hss; wf_done.
  - rewrite (resumed_suspended p HS). cbn in *. apply release_none in Hre.
    destruct (CoreSummary_ p) as [sm|] eqn:ES; [by destruct Hsu|]. wf_done.
Qed.

(** The commands that neither touch the deletion record nor the holds. *)
Definition working_command (ty : ProjectCommandType) : bool :=
  negb (projectLifecycleCommand ty) && (ty ≠? ProjectCommandRequestDeletion).

#[local] Hint Resolve approve_goal_wf : aor.

Lemma working_wf p c p' :
  wf p -> projectStep p c = Some p' -> working_command (Cmd.Type_ c) = true -> wf p'.
Proof.
  intros Hwf H Hw. pose proof Hwf as [[Hid Hten] Hst Hpa Hgo Hpl Hsu Hre Hred Hdel Hho].
  project_step H; try congruence; try known_state;
    try (rewrite Ty in Hw; discriminate Hw); clear Hw; cbn in *.
  all: try (destruct (no_deletion p Hdel Hpend) as [Hnd|Hnd]; [|congruence]).
  all: try (apply release_none in Hre).
  all: destruct (CoreSummary_ p) as [sm|] eqn:ES; cbn in Hsu;
    try (destruct Hsu as [Hss Hsv]); try discriminate Hss.
  all: try wf_done.
  all: match type of Ty with
    | _ = ProjectCommandApproveGoal => idtac
    | _ = ProjectCommandPublishPlan => idtac
    | _ = ProjectCommandApproveRelease => idtac
    | _ = ProjectCommandComplete => idtac
    | _ = ProjectCommandResume => idtac
    | _ =>
      destruct (no_deletion p Hdel Hpend) as [Hnd|Hnd]; unfold effective in *;
      destruct (State _) eqn:HS; try discriminate; cbn in *;
      try (apply release_none in Hre); try discriminate; try wf_done
    end.
  1-4: constructor; unfold effective; cbn; known_fields; try solve [intuition congruence].
  - intros _. eapply approve_goal_wf; eassumption.
  - intros _. unfold SpecRef_valid.
    match goal with E : SpecRef_Validate _ = None |- _ => by rewrite E end.
  - split; [done|]. intros Hg. rewrite (validFor_ext sm _ p) by (cbn; congruence).
    apply Hsv; congruence.
  - split; [done|]. intros Hg. rewrite (validFor_ext sm _ p) by (cbn; congruence).
    apply Hsv; congruence.
  - rewrite <- ES. apply (resume_wf p); [done|done|].
    apply andb_false_iff in G as [G|G]; go_bool; auto.
  - rewrite <- ES. apply (resume_wf p); [done|done|].
    apply andb_false_iff in G as [G|G]; go_bool; auto.
Qed.
(** ** Deletion and legal holds *)
Lemma hasActiveLegalHold_spec holds :
  hasActiveLegalHold holds = true <-> exists h, h ∈ holds /\ Hold.ReleasedAt h = None.
Proof.
  unfold hasActiveLegalHold. rewrite existsb_exists. split; intros (h & Hin & Hr).
  - exists h. split; [by apply list_elem_of_In|]. by destruct (Hold.ReleasedAt h).
  - exists h. split; [by apply list_elem_of_In|]. by rewrite Hr.
Qed.

Lemma legalHoldIndex_Some holds id i :
  legalHoldIndex holds id = Some i ->
  exists h, holds !! i = Some h /\ Hold.ID h = id.
Proof.
  revert i. induction holds as [|h holds IH]; intros i; cbn [legalHoldIndex]; [done|].
  destruct (Hold.ID h ≟ id) eqn:E.
  - intros [= <-]. go_bool. by exists h.
  - destruct (legalHoldIndex holds id) as [j|]; [|done]. intros [= <-]. by apply IH.
Qed.

Lemma legalHoldIndex_None holds id :
  legalHoldIndex holds id = None <-> id ∉ (Hold.ID <$> holds).
Proof.
  induction holds as [|h holds IH]; cbn;
    [split; [intros _; apply not_elem_of_nil|done]|].
  rewrite not_elem_of_cons. destruct (Hold.ID h ≟ id) eqn:E; go_bool.
  - split; [done|]. by intros [? _].
  - rewrite <- IH. destruct (legalHoldIndex holds id); cbn; naive_solver.
Qed.

Lemma release_holds_ids c (holds : list ProjectLegalHold) (i : nat) :
  Hold.ID <$> alter (release_hold c) i holds = Hold.ID <$> holds.
Proof.
  revert i. induction holds as [|h holds IH]; intros [|i]; try done. cbn. by f_equal.
Qed.

(** Only the holds and the deletion record change. *)
Lemma lifecycle_wf p holds d v :
  wf p -> NoDup (Hold.ID <$> holds) ->
  from_option (fun d => (State p = ProjectPaused \/ State p = ProjectArchived) /\
    deletion_ok (p ⟦ LegalHolds := holds ⟧) d) True d ->
  (deletion_pending p = true -> deletion_pending (p ⟦ Deletion := d ⟧) = true) ->
  wf (p ⟦ LegalHolds := holds ⟧ ⟦ Deletion := d ⟧ ⟦ Version := v ⟧).
Proof.
  intros [Hid Hst Hpa Hgo Hpl Hsu Hre Hred _ _] Hnd Hd Hpend.
  constructor; unfold effective in *; cbn; try done.
  intros HS. destruct (Hpa HS) as [H1 H2]. split; [done|]. auto.
Qed.

Lemma place_hold_wf p h v :
  wf p -> Hold.ID h ∉ (Hold.ID <$> LegalHolds p) -> Hold.ReleasedAt h = None ->
  wf (p ⟦ LegalHolds := LegalHolds p ++ [h] ⟧
        ⟦ Deletion := move_deletion ProjectDeletionReady ProjectDeletionBlocked (Deletion p) ⟧
        ⟦ Version := v ⟧).
Proof.
  intros Hwf Hid Hact. pose proof (wf_deletion _ Hwf) as Hd. pose proof (wf_holds _ Hwf) as Hh.
  assert (Ha : hasActiveLegalHold (LegalHolds p ++ [h]) = true).
  { apply hasActiveLegalHold_spec. exists h. split; [|done]. set_solver. }
  apply lifecycle_wf; [done| | |].
  - rewrite fmap_app. apply NoDup_app. split; [done|]. split; [set_solver|].
    apply NoDup_singleton.
  - unfold move_deletion. destruct (Deletion p) as [d|]; [|done]. cbn in *.
    destruct Hd as [HS Hok]. split; [done|]. unfold deletion_ok in *.
    destruct (Del.Status d) eqn:Es; cbn; go_eval; cbn; rewrite ?Es; done.
  - unfold deletion_pending, move_deletion. destruct (Deletion p) as [d|]; [|done]. cbn.
    destruct (Del.Status d) eqn:Es; cbn; go_eval; cbn; rewrite ?Es; by go_eval.
Qed.

Lemma release_hold_wf p c i h v :
  wf p -> LegalHolds p !! i = Some h -> Hold.ReleasedAt h = None ->
  let holds := alter (release_hold c) i (LegalHolds p) in
  wf (p ⟦ LegalHolds := holds ⟧
        ⟦ Deletion := if hasActiveLegalHold holds then Deletion p else
            move_deletion ProjectDeletionBlocked ProjectDeletionReady (Deletion p) ⟧
        ⟦ Version := v ⟧).
Proof.
  intros Hwf Hi Hact holds. pose proof (wf_deletion _ Hwf) as Hd.
  pose proof (wf_holds _ Hwf) as Hh.
  assert (Ha : hasActiveLegalHold (LegalHolds p) = true).
  { apply hasActiveLegalHold_spec. exists h. split; [|done]. by eapply list_elem_of_lookup_2. }
  apply lifecycle_wf; [done| | |].
  - unfold holds. by rewrite release_holds_ids.
  - unfold move_deletion. destruct (Deletion p) as [d|]; [|by destruct (hasActiveLegalHold holds)].
    cbn in Hd. destruct Hd as [HS Hok]. unfold deletion_ok in *.
    destruct (hasActiveLegalHold holds) eqn:E; cbn; (split; [done|]);
      destruct (Del.Status d) eqn:Es; cbn; go_eval; cbn; rewrite ?Es; done || congruence.
  - unfold deletion_pending, move_deletion. destruct (Deletion p) as [d|]; [|done].
    destruct (hasActiveLegalHold holds); [done|]. cbn.
    destruct (Del.Status d) eqn:Es; cbn; go_eval; cbn; rewrite ?Es; by go_eval.
Qed.

Lemma begin_deletion_wf p d t v :
  wf p -> Deletion p = Some d -> Del.Status d = ProjectDeletionReady ->
  Before t (Del.EarliestExecutionAt d) = false ->
  wf (p ⟦ Deletion := Some (d ⟦ Del.Status := ProjectDeletionErasing ⟧
                             ⟦ Del.StartedAt := Some t ⟧) ⟧ ⟦ Version := v ⟧).
Proof.
  intros Hwf Hd Hs Ht. pose proof (wf_deletion _ Hwf) as Hdel. rewrite Hd in Hdel.
  destruct Hdel as [HS _].
  apply (lifecycle_wf p (LegalHolds p)); [done|apply Hwf| |].
  - cbn. split; [done|]. exists t. split; [done|]. unfold Before in Ht. cbn. go_bool. lia.
  - intros _. unfold deletion_pending. cbn. by go_eval.
Qed.

Lemma request_deletion_wf p d v :
  wf p -> Deletion p = None -> Del.StartedAt d = None ->
  Del.Status d = (if hasActiveLegalHold (LegalHolds p) then ProjectDeletionBlocked
                  else ProjectDeletionReady) ->
  wf ((stop_for_deletion p (p ⟦ Deletion := Some d ⟧)) ⟦ Version := v ⟧).
Proof.
  intros [[Hid Hten] Hst Hpa Hgo Hpl Hsu Hre Hred Hdel Hho] Hd Hsa Hs.
  assert (Hok : forall q, LegalHolds q = LegalHolds p -> deletion_ok q d).
  { intros q Hq. unfold deletion_ok. rewrite Hs, Hq.
    by destruct (hasActiveLegalHold (LegalHolds p)). }
  assert (Hpend : Del.Status d <> ProjectDeletionCompleted).
  { rewrite Hs. by destruct (hasActiveLegalHold (LegalHolds p)). }
  unfold stop_for_deletion, terminalProjectState, effective in *.
  destruct (State p) eqn:HS; cbn in *; try discriminate Hst; go_eval; cbn;
    try apply release_none in Hre;
    destruct (CoreSummary_ p) as [sm|] eqn:ES; cbn in Hsu;
    try (destruct Hsu as [Hss Hsv]; try discriminate Hss);
    constructor; unfold effective, terminalProjectState; cbn; rewrite ?ES, ?Hre, ?HS; cbn;
    try (intuition congruence); auto.
  all: intros _; by go_eval.
Qed.

Lemma complete_deletion_wf p d q :
  wf p -> Deletion p = Some d -> Del.Status d = ProjectDeletionErasing ->
  ID q = ID p -> TenantID q = TenantID p -> State q = ProjectArchived ->
  Goal q = None -> Plan q = None -> ModelRoutes q = None -> ReleaseApprovalRecordID q = "" ->
  LegalHolds q = LegalHolds p ->
  from_option (fun d' => Del.Status d' = ProjectDeletionCompleted /\
    Del.StartedAt d' = Del.StartedAt d /\
    Del.EarliestExecutionAt d' = Del.EarliestExecutionAt d /\
    is_Some (Del.CompletedAt d') /\ validDigest (Del.ProofSHA256 d') = true) False (Deletion q) ->
  wf q.
Proof.
  intros [[Hid Hten] Hst Hpa Hgo Hpl Hsu Hre Hred Hdel Hho] Hd Hs Hi Ht HS Hg Hp Hm Hr Hh Hd'.
  rewrite Hd in Hdel. destruct Hdel as [_ Hok]. unfold deletion_ok in Hok. rewrite Hs in Hok.
  constructor; unfold effective; rewrite ?HS, ?Hi, ?Ht, ?Hh; try (cbn; congruence || done).
  - destruct (CoreSummary_ q); [|done]. cbn. split; [done|]. congruence.
  - destruct (Deletion q) as [d'|]; [|done]. destruct Hd' as (Hs' & Hst' & He' & Hc & Hv).
    split; [by right|]. unfold deletion_ok. rewrite Hs', Hst', He'. auto 8.
Qed.

Lemma step_wf p c p' : wf p -> projectStep p c = Some p' -> wf p'.
Proof.
  intros Hwf H. destruct (working_command (Cmd.Type_ c)) eqn:Hw; [by eapply working_wf|].
  project_step H; rewrite Ty in Hw; try discriminate Hw; clear Hw.
  - (* request deletion *)
    unfold validDeletionRequest in *. go_bool. apply request_deletion_wf; cbn; try done.
    + by destruct (Deletion p).
    + by destruct (Del.StartedAt _).
  - unfold validLegalHold in *. go_bool. apply place_hold_wf; [done| |].
    + apply legalHoldIndex_None. by destruct (legalHoldIndex _ _).
    + by destruct (Hold.ReleasedAt _).
  - eapply release_hold_wf; [done|eassumption|]. by destruct (Hold.ReleasedAt _).
  - by apply begin_deletion_wf.
  - eapply complete_deletion_wf; try eassumption; try reflexivity.
    unfold validDeletionCompletion in *. cbn. repeat split; try done.
    destruct (negb (validDigest _)) eqn:E; [done|]. by apply negb_false_iff in E.
Qed.
(** Only a creation starts a project. *)
Lemma step_zero_wf c p' : projectStep zeroProject c = Some p' -> wf p'.
Proof.
  intros H. project_step H; try done.
  all: constructor; unfold effective; cbn; try done; try constructor; by try intros [].
Qed.

Lemma reachable_wf_or p : reachable p -> p = zeroProject \/ wf p.
Proof.
  apply (rtc_ind_r (fun u => u = zeroProject \/ wf u)); [by left|].
  intros u v _ [c Hc] [-> | Hwf]; right; [by eapply step_zero_wf | by eapply step_wf].
Qed.

Lemma run_wf p cs p' : run p cs p' -> wf p -> wf p'.
Proof. apply run_preserves. intros t c t' Ht Hs. by eapply step_wf. Qed.

Lemma run_zero_wf cs p : run zeroProject cs p -> p = zeroProject \/ wf p.
Proof. intros H. by eapply reachable_wf_or, run_reachable. Qed.

End ProjectWf.
