(* ===== verification/ProjectProps.v ===== *)
(** Properties of the project aggregate: reachable projects, completion, legal
    holds and deletion, goal approval, suspension, and events. *)

From S2P Require Import Prelude GoLib Runs Errors Contracts Approval Dag Project ProjectWf.
Import Approval Project ProjectWf.

Module ProjectProps.

(** ** The path to completion *)

(** The command approves the goal [g] with the user's own valid approval. *)
Definition approves_goal (g : GoalRecord) (c : ProjectCommand) : Prop :=
  Cmd.Type_ c = ProjectCommandApproveGoal /\
  exists a, Cmd.Approval c = Some a /\
    approves a (Cmd.At c) (Cmd.ActorID c) "GOAL_APPROVAL" "GOAL_SPEC" (Goal_.ID g)
      (Goal_.Version g) (Goal_.SHA256 g) /\
    Goal_.ApprovedBy g = Cmd.ActorID c /\ Goal_.ApprovalRecordID g = RecordID a.

(** The command publishes [plan], bound to [g], with an acyclic task graph. *)
Definition publishes_plan (g : GoalRecord) (plan : SpecRef) (c : ProjectCommand) : Prop :=
  Cmd.Type_ c = ProjectCommandPublishPlan /\ Cmd.Plan c = Some plan /\
  Cmd.GoalSpecRef c = Some (goal_ref g) /\
  Dag.well_formed (Cmd.DAG c) /\ Dag.acyclic (Cmd.DAG c).

Definition begins_integration (c : ProjectCommand) : Prop :=
  Cmd.Type_ c = ProjectCommandBeginIntegration /\
  exists f, Cmd.Guard c = Some f /\ Guard.AllTasksPassed f = true /\
    validDigest (Guard.EvidenceSHA256 f) = true.

Definition begins_global_audit (c : ProjectCommand) : Prop :=
  Cmd.Type_ c = ProjectCommandBeginGlobalAudit /\
  exists f, Cmd.Guard c = Some f /\ Guard.AllTasksIntegrated f = true /\
    Guard.IntegrationAuditPassed f = true /\ validDigest (Guard.EvidenceSHA256 f) = true.

(** The command carries the release approval [record] of the project [id] with
    the plan digest of [plan]. *)
Definition approves_release (id record : string) (plan : SpecRef) (c : ProjectCommand) : Prop :=
  Cmd.Type_ c = ProjectCommandApproveRelease /\
  exists a v, Cmd.Approval c = Some a /\ RecordID a = record /\
    approves a (Cmd.At c) (Cmd.ActorID c) "RELEASE_APPROVAL" "PROJECT" id v (RefSHA256 plan).

Definition completes (c : ProjectCommand) : Prop :=
  Cmd.Type_ c = ProjectCommandComplete /\
  exists f, Cmd.Completion c = Some f /\ Facts.allSatisfied f = true.

(** The histories that justify each stage, each one continuing the one before. *)
Definition goal_history (g : GoalRecord) : list ProjectCommand -> Prop :=
  since (fun _ => True) (approves_goal g).
Definition plan_history g plan := since (goal_history g) (publishes_plan g plan).
Definition integration_history g plan := since (plan_history g plan) begins_integration.
Definition audit_history g plan := since (integration_history g plan) begins_global_audit.
Definition release_history id record g plan :=
  since (audit_history g plan) (approves_release id record plan).
Definition completion_history id record g plan :=
  since (release_history id record g plan) completes.

(** What the history [cs] must contain for [p] to be where it is. *)
Definition justified (cs : list ProjectCommand) (p : Project) : Prop :=
  forall g plan, approved_stage (effective p) = true -> Goal p = Some g ->
  goal_history g cs /\
  (planned_stage (effective p) = true -> Plan p = Some plan ->
   plan_history g plan cs /\
   match effective p with
   | ProjectIntegrating => integration_history g plan cs
   | ProjectGlobalAudit =>
       audit_history g plan cs /\
       (ReleaseApprovalRecordID p <> "" ->
        release_history (ID p) (ReleaseApprovalRecordID p) g plan cs)
   | ProjectCompleted =>
       completion_history (ID p) (ReleaseApprovalRecordID p) g plan cs
   | _ => True
   end).

Lemma validDAG_spec g : validDAG g = true -> Dag.well_formed g /\ Dag.acyclic g.
Proof.
  unfold validDAG. destruct (Dag.ValidateDAG_spec (map_to_list g).*1 (map_to_list g).*1 g)
    as (b & -> & Hb); [apply Permutation_refl..|]. cbn. by rewrite Hb.
Qed.

(** A step that enters or stays in an approved stage. *)
Inductive stage_step (p : Project) (c : ProjectCommand) (p' : Project) : Prop :=
| stage_stays :
    effective p' = effective p -> Goal p' = Goal p -> Plan p' = Plan p ->
    ReleaseApprovalRecordID p' = ReleaseApprovalRecordID p -> stage_step p c p'
| stage_approved g :
    effective p' = ProjectPlanning -> Goal p' = Some g -> approves_goal g c -> stage_step p c p'
| stage_published g plan :
    effective p = ProjectPlanning -> effective p' = ProjectExecuting ->
    Goal p = Some g -> Goal p' = Some g -> Plan p' = Some plan -> publishes_plan g plan c ->
    stage_step p c p'
| stage_integrates :
    effective p = ProjectExecuting -> effective p' = ProjectIntegrating ->
    Goal p' = Goal p -> Plan p' = Plan p -> begins_integration c -> stage_step p c p'
| stage_audits :
    effective p = ProjectIntegrating -> effective p' = ProjectGlobalAudit ->
    Goal p' = Goal p -> Plan p' = Plan p -> begins_global_audit c ->
    ReleaseApprovalRecordID p' = "" -> stage_step p c p'
| stage_reopens :
    effective p = ProjectGlobalAudit ->
    effective p' = ProjectExecuting \/ effective p' = ProjectIntegrating ->
    Goal p' = Goal p -> Plan p' = Plan p -> stage_step p c p'
| stage_releases plan :
    effective p = ProjectGlobalAudit -> effective p' = ProjectGlobalAudit ->
    Goal p' = Goal p -> Plan p = Some plan -> Plan p' = Some plan ->
    approves_release (ID p) (ReleaseApprovalRecordID p') plan c -> stage_step p c p'
| stage_completes :
    effective p = ProjectGlobalAudit -> effective p' = ProjectCompleted ->
    Goal p' = Goal p -> Plan p' = Plan p ->
    ReleaseApprovalRecordID p' = ReleaseApprovalRecordID p ->
    ReleaseApprovalRecordID p <> "" -> completes c -> stage_step p c p'.

Lemma step_project_id p c p' : projectStep p c = Some p' -> ID p <> "" -> ID p' = ID p.
Proof.
  intros H Hid. project_step H; try congruence; try reflexivity.
  unfold stop_for_deletion. by repeat case_match.
Qed.

Lemma other_goal_false g c :
  other_goal g c = false -> Goal_.ID g = Goal_.ID c /\ goal_ref g = goal_ref c.
Proof. unfold other_goal, goal_ref. intros H. go_bool. split; congruence. Qed.

Lemma resumed_cases p :
  wf p -> (deletion_pending p = true -> false = true) ->
  (State p ≠? ProjectPaused) && (State p ≠? ProjectGoalSuspended) = false ->
  resumed p = ProjectGoalNegotiating /\ State p = ProjectGoalSuspended \/
  resumed p = effective p /\ effective p <> ProjectPaused.
Proof.
  intros [_ Hst Hpa _ _ _ _ _ _ _] Hpend G. unfold effective in *.
  apply andb_false_iff in G as [G|G]; go_bool; rewrite G in *.
  - right. split; [by apply resumed_paused|]. intros HP.
    destruct Hpa as [_ Hpa]; [done|]. discriminate (Hpend (Hpa HP)).
  - left. split; [by apply resumed_suspended|done].
Qed.

Lemma step_stage p c p' :
  wf p -> projectStep p c = Some p' -> approved_stage (effective p') = true ->
  stage_step p c p'.
Proof.
  intros Hwf H Hap. pose proof (wf_id _ Hwf) as [Hid _].
  project_step H; try congruence; unfold effective in Hap; cbn in Hap; try discriminate Hap;
    try (apply stage_stays; reflexivity);
    try match goal with HS : State p = ?s |- _ =>
      try rewrite HS in Hap; cbn in Hap; try discriminate Hap;
      pose proof (effective_known p s HS) as He; specialize (He ltac:(discriminate)) end.
  - eapply stage_approved; [reflexivity..|]. split; [done|]. exists a.
    split; [done|]. split; [by apply validAt_approves|done].
  - eapply stage_published; try eassumption; try reflexivity.
    split; [done|]. split; [done|]. split.
    + unfold goal_ref. rewrite G3. destruct s0. cbn in *. by subst.
    + by apply validDAG_spec.
  - apply stage_integrates; try reflexivity; [done|]. split; [done|]. by eexists.
  - apply stage_audits; try reflexivity; [done|by split; [|eexists]|].
    apply release_none. pose proof (wf_release _ Hwf) as Hre. by rewrite He in Hre.
  - apply stage_reopens; auto; reflexivity.
  - apply stage_reopens; auto; reflexivity.
  - eapply stage_releases; try eassumption; try reflexivity.
    split; [done|]. exists a, (Version p). split; [done|]. split; [done|].
    by apply validAt_approves.
  - apply stage_completes; try reflexivity; [done|done|]. split; [done|]. by eexists.
  - destruct (State p ≟ ProjectGoalNegotiating) eqn:HN; [discriminate Hap|].
    apply stage_stays; try reflexivity. unfold effective at 1. cbn. go_bool.
    symmetry. by apply effective_known.
  - destruct (resumed_cases p Hwf Hpend G) as [[HR _]|[HR Hne]]; rewrite HR in *;
      [discriminate Hap|].
    apply stage_stays; try reflexivity. unfold effective at 1. cbn.
    by destruct (effective p).
  - unfold stop_for_deletion in *. destruct (negb (terminalProjectState _)); cbn in Hap.
    + apply stage_stays; try reflexivity. symmetry. apply (effective_known p (State p)); [done|].
      intros HS. by rewrite HS in Hap.
    + destruct (State p ≠? ProjectArchived) eqn:HA; cbn in Hap; [discriminate Hap|].
      go_bool. by rewrite HA in Hap.
Qed.

Lemma justified_step cs p c p' :
  wf p -> projectStep p c = Some p' -> justified cs p -> justified (cs ++ [c]) p'.
Proof.
  intros Hwf H Hj g plan Hap Hg.
  pose proof (step_project_id _ _ _ H (proj1 (wf_id _ Hwf))) as Hid.
  destruct (step_stage _ _ _ Hwf H Hap) as
    [He Hg' Hp Hr | g' He Hg' Hc | g' pl He He' Hg' Hg2 Hp Hc | He He' Hg' Hp Hc
    | He He' Hg' Hp Hc Hr | He He' Hg' Hp | pl He He' Hg' Hp Hp' Hc
    | He He' Hg' Hp Hr Hrel Hc].
  2: { rewrite He. assert (g' = g) as -> by congruence. split; [|done].
       by apply (since_now (fun _ => True)). }
  all: unfold justified in Hj; rewrite ?He, ?He', ?Hid, ?Hr in *.
  all: try match type of Hg' with Goal _ = Goal _ => rewrite Hg' in Hg end.
  all: destruct (Hj g plan) as [H1 H2]; try (by rewrite ?He in *); try congruence.
  all: split; [by apply since_later|].
  all: intros Hps Hpl; try rewrite Hp in Hpl.
  - destruct (H2 Hps Hpl) as [H3 H4]. split; [by apply since_later|].
    destruct (effective p); try done; try (by apply since_later).
    destruct H4 as [H4 H5]. split; [by apply since_later|].
    intros Hn. by apply since_later, H5.
  - split; [|done]. assert (g' = g) as -> by congruence.
    assert (pl = plan) as -> by congruence. by apply since_now.
  - destruct (H2 Hps Hpl) as [H3 H4].
    split; [by apply since_later|by apply since_now].
  - destruct (H2 Hps Hpl) as [H3 H4].
    split; [by apply since_later|]. split; [by apply since_now|done].
  - destruct (H2 eq_refl Hpl) as (H3 & H4 & _). split; [by apply since_later|].
    destruct He' as [-> | ->]; [done|]. by eapply since_later, since_since.
  - rewrite Hp' in Hpl. injection Hpl as ->. destruct (H2 Hps Hp) as (H3 & H4 & H5).
    split; [by apply since_later|]. split; [by apply since_later|]. intros _.
    by apply since_now.
  - destruct (H2 eq_refl Hpl) as (H3 & H4 & H5).
    split; [by apply since_later|]. apply since_now; auto.
Qed.
Lemma run_justified cs p : run zeroProject cs p -> justified cs p.
Proof.
  intros H. remember zeroProject as z eqn:Hz. induction H as [|z cs p c p' Hr IH Hs]; subst.
  - by intros g plan Hap.
  - destruct (run_zero_wf _ _ Hr) as [->|Hwf]; [|eauto using justified_step].
    intros g plan Hap. exfalso. project_step Hs; try done.
Qed.

(** ** A complete history *)
Definition digest0 : string :=
  "sha256:0000000000000000000000000000000000000000000000000000000000000000".
Definition digest1 : string :=
  "sha256:1111111111111111111111111111111111111111111111111111111111111111".

(** Commands of the user ["user"] at time [t], for witnesses. *)
Definition by_user (ty : ProjectCommandType) (t : time) : ProjectCommand :=
  Cmd.blank ty "user" t.
Definition approval (ty sty sid : string) (v : Z) (sha : string) : ApprovalBinding :=
  mkApprovalBinding "record" ty sty sid v sha "user" "reason" 1 None None "signature".

Definition goal1 : GoalRecord := Goal_.mk "goal" 1 digest0 [] GoalDraft "" "".
Definition plan1 : SpecRef := mkSpecRef 1 digest1.
Definition guard1 : ProjectGuardFacts := Guard.mk true true true digest0.
Definition facts1 : CompletionFacts :=
  Facts.mk true true true true true true true true true true true false true true true
    true digest0.

Definition create1 : ProjectCommand :=
  (by_user ProjectCommandCreate 10) ⟦ Cmd.TenantID := "tenant" ⟧
    ⟦ Cmd.ProjectID := "project" ⟧ ⟦ Cmd.GoalAgentCount := 2 ⟧.
Definition negotiate1 : ProjectCommand := by_user ProjectCommandStartGoalNegotiation 11.
Definition propose1 : ProjectCommand :=
  (by_user ProjectCommandProposeGoal 12) ⟦ Cmd.Goal := Some goal1 ⟧.
Definition approve1 : ProjectCommand :=
  (by_user ProjectCommandApproveGoal 13) ⟦ Cmd.Goal := Some goal1 ⟧
    ⟦ Cmd.Approval := Some (approval "GOAL_APPROVAL" "GOAL_SPEC" "goal" 1 digest0) ⟧.
Definition publish1 : ProjectCommand :=
  (by_user ProjectCommandPublishPlan 14) ⟦ Cmd.Plan := Some plan1 ⟧
    ⟦ Cmd.GoalSpecRef := Some (mkSpecRef 1 digest0) ⟧
    ⟦ Cmd.DAG := {["core" := []; "api" := ["core"]]} ⟧.
Definition integrate1 : ProjectCommand :=
  (by_user ProjectCommandBeginIntegration 15) ⟦ Cmd.Guard := Some guard1 ⟧.
Definition audit1 : ProjectCommand :=
  (by_user ProjectCommandBeginGlobalAudit 16) ⟦ Cmd.Guard := Some guard1 ⟧.
Definition pause1 : ProjectCommand := by_user ProjectCommandPause 17.
Definition resume1 : ProjectCommand := by_user ProjectCommandResume 18.
Definition release1 : ProjectCommand :=
  (by_user ProjectCommandApproveRelease 19)
    ⟦ Cmd.Approval := Some (approval "RELEASE_APPROVAL" "PROJECT" "project" 9 digest1) ⟧.
Definition complete1 : ProjectCommand :=
  (by_user ProjectCommandComplete 20) ⟦ Cmd.Completion := Some facts1 ⟧.

Definition audited_commands : list ProjectCommand :=
  [create1; negotiate1; propose1; approve1; publish1; integrate1; audit1].
Definition completion_commands : list ProjectCommand :=
  audited_commands ++ [pause1; resume1; release1; complete1].
Definition audited_project : Project :=
  Eval vm_compute in default zeroProject (exec zeroProject audited_commands).
Definition completed_project : Project :=
  Eval vm_compute in default zeroProject (exec zeroProject completion_commands).

Lemma audited_run : run zeroProject audited_commands audited_project.
Proof. apply exec_run. vm_compute. reflexivity. Qed.
Lemma completed_run : run zeroProject completion_commands completed_project.
Proof. apply exec_run. vm_compute. reflexivity. Qed.

Lemma audited_wf : wf audited_project.
Proof. by destruct (run_zero_wf _ _ audited_run). Qed.

Example completed_state : State completed_project = ProjectCompleted.
Proof. reflexivity. Qed.

(** ** The properties *)

(** C15: every project reachable from the empty one is well formed: from
    planning on its goal is approved, resolved and digest-bound; from execution
    on a valid plan is published; a core summary describes the current goal and
    plan; a release approval exists only at or after the global audit; the
    deletion record agrees with the legal holds; and BLOCKED_USER_DECISION and
    FAILED_SYSTEM are never reached. *)
Theorem reachable_project_wf p : reachable p -> p <> zeroProject -> wf p.
Proof. intros H Hne. by destruct (reachable_wf_or _ H). Qed.

Lemma reachable_project_wf_witness :
  reachable completed_project /\ wf completed_project.
Proof.
  assert (H : reachable completed_project) by exact (run_reachable _ _ _ _ completed_run).
  split; [exact H|]. apply (reachable_project_wf completed_project H). discriminate.
Defined.

(** The only way to COMPLETED.  The history of a completed project contains,
    in this order, the user's valid approval of exactly its goal, the
    publication of exactly its plan for that goal with an acyclic task graph,
    the start of integration with all tasks passed, the start of the global
    audit with all tasks integrated, the valid release approval of that plan,
    and a completion whose facts all hold. *)
Theorem completed_history cs p :
  run zeroProject cs p -> State p = ProjectCompleted ->
  exists g plan, Goal p = Some g /\ Plan p = Some plan /\ approved_goal g /\
    completion_history (ID p) (ReleaseApprovalRecordID p) g plan cs.
Proof.
  intros Hr HS. assert (Hwf : wf p) by (destruct (run_zero_wf _ _ Hr) as [->|]; done).
  assert (He : effective p = ProjectCompleted) by (by apply effective_known).
  pose proof (wf_goal _ Hwf) as Hg. pose proof (wf_plan _ Hwf) as Hp. rewrite He in Hg, Hp.
  destruct (Goal p) as [g|] eqn:Eg; [|by destruct Hg].
  destruct (Plan p) as [plan|] eqn:Ep; [|by destruct Hp].
  exists g, plan. repeat split; try apply Hg; try done.
  destruct (run_justified _ _ Hr g plan) as [_ Hj]; rewrite ?He; try done.
  rewrite He in Hj. by apply Hj.
Qed.

Lemma completed_history_witness :
  exists g plan, Goal completed_project = Some g /\ Plan completed_project = Some plan /\
    completion_history "project" "record" g plan completion_commands.
Proof.
  destruct (completed_history completion_commands completed_project completed_run eq_refl)
    as (g & plan & Hg & Hp & _ & H).
  exists g, plan. split; [exact Hg|]. split; [exact Hp|]. exact H.
Defined.

(** ** Legal holds *)

(** Erasure has started. *)
Definition erasing (p : Project) : Prop :=
  exists d, Deletion p = Some d /\
    (Del.Status d = ProjectDeletionErasing \/ Del.Status d = ProjectDeletionCompleted).

Definition releases (h : ProjectLegalHold) (c : ProjectCommand) : Prop :=
  Cmd.Type_ c = ProjectCommandReleaseLegalHold /\ Cmd.LegalHoldID c = Hold.ID h.

Lemma other_hold_stays c (holds : list ProjectLegalHold) i h h' :
  h ∈ holds -> holds !! i = Some h' -> Hold.ID h' <> Hold.ID h ->
  h ∈ alter (release_hold c) i holds.
Proof.
  intros Hin Hi Hne. apply list_elem_of_lookup in Hin as [j Hj].
  apply list_elem_of_lookup. exists j. rewrite list_lookup_alter_ne; [done|].
  intros ->. congruence.
Qed.

Lemma step_hold p c p' h :
  wf p -> h ∈ LegalHolds p -> Hold.ReleasedAt h = None -> ~ erasing p ->
  projectStep p c = Some p' -> ~ releases h c -> h ∈ LegalHolds p' /\ ~ erasing p'.
Proof.
  intros Hwf Hin Hact Hne H Hnr. pose proof (wf_id _ Hwf) as [Hid _].
  assert (Ha : hasActiveLegalHold (LegalHolds p) = true)
    by (apply hasActiveLegalHold_spec; by exists h).
  project_step H; try congruence; try (split; [exact Hin|exact Hne]); cbn.
  - split.
    + unfold stop_for_deletion. destruct (negb _); [|destruct (_ ≠? _)]; exact Hin.
    + unfold erasing, stop_for_deletion. intros (d & Hd & Hs).
      destruct (negb _) in Hd; [|destruct (_ ≠? _) in Hd]; injection Hd as <-;
        cbn in Hs; rewrite Ha in Hs; naive_solver.
  - split; [by apply elem_of_app; left|].
    unfold erasing, move_deletion. cbn. intros (d & Hd & Hs). apply Hne.
    destruct (Deletion p) as [d0|] eqn:E; [|done]. injection Hd as <-.
    exists d0. split; [done|]. destruct (Del.Status d0 ≟ ProjectDeletionReady); naive_solver.
  - split.
    + destruct (legalHoldIndex_Some _ _ _ G) as (h' & Hh' & Hi).
      eapply other_hold_stays; [done..|]. rewrite Hi. intros Heq. by apply Hnr.
    + unfold erasing, move_deletion. cbn. intros (d & Hd & Hs). apply Hne.
      destruct (hasActiveLegalHold _); [by exists d|].
      destruct (Deletion p) as [d0|] eqn:E; [|done]. injection Hd as <-.
      exists d0. split; [done|].
      destruct (Del.Status d0 ≟ ProjectDeletionBlocked); naive_solver.
  - exfalso. apply Hne. exists p0. auto.
Qed.

(** C16: an active legal hold prevents erasure.  While a hold placed before
    erasure started is not released, no run of accepted commands, whatever the
    requests, other holds and releases, starts or completes the deletion. *)
Theorem hold_prevents_erasure p cs p' h :
  wf p -> h ∈ LegalHolds p -> Hold.ReleasedAt h = None -> ~ erasing p ->
  run p cs p' -> Forall (fun c => ~ releases h c) cs -> h ∈ LegalHolds p' /\ ~ erasing p'.
Proof.
  intros Hwf Hin Hact Hne Hr. induction Hr as [|p cs p1 c p2 Hr IH Hs]; intros Hall; [done|].
  apply Forall_app in Hall as [Hall Hc]. apply Forall_cons in Hc as [Hc _].
  destruct (IH Hwf Hin Hne Hall) as [H1 H2]. apply (step_hold p1 c p2); try done.
  by eapply run_wf.
Qed.

Definition hold1 : ProjectLegalHold := Hold.mk "hold" "litigation" "user" 30 "" None "".
Definition deletion1 : ProjectDeletion :=
  Del.mk "deletion" (ProjectDeletionRaw "") "user" 31 40 None None "" "" None.
Definition place1 : ProjectCommand :=
  (by_user ProjectCommandPlaceLegalHold 30) ⟦ Cmd.LegalHold := Some hold1 ⟧.
Definition request1 : ProjectCommand :=
  (by_user ProjectCommandRequestDeletion 31) ⟦ Cmd.Deletion := Some deletion1 ⟧.
Definition unhold1 : ProjectCommand :=
  (by_user ProjectCommandReleaseLegalHold 32) ⟦ Cmd.LegalHoldID := "hold" ⟧
    ⟦ Cmd.ReleaseReason := "settled" ⟧.
Definition held_project : Project :=
  Eval vm_compute in default zeroProject (exec audited_project [place1]).
Definition requested_project : Project :=
  Eval vm_compute in default zeroProject (exec held_project [request1]).
Lemma held_run : run audited_project [place1] held_project.
Proof. apply exec_run. vm_compute. reflexivity. Qed.
Lemma requested_run : run held_project [request1] requested_project.
Proof. apply exec_run. vm_compute. reflexivity. Qed.
Lemma held_wf : wf held_project.
Proof. exact (run_wf _ _ _ held_run audited_wf). Qed.

Lemma hold_prevents_erasure_witness :
  deletion_pending requested_project = true /\ ~ erasing requested_project.
Proof.
  split; [reflexivity|].
  apply (hold_prevents_erasure held_project [request1] requested_project hold1 held_wf).
  - left.
  - reflexivity.
  - intros (d & Hd & _). discriminate Hd.
  - exact requested_run.
  - constructor; [intros [Hty _]; discriminate Hty | constructor].
Defined.

(** ** Deletion *)

(** The fields a pending deletion freezes. *)
Definition content (p : Project) :=
  (TenantID p, ID p, Name p, State p, Goal p, Plan p, CoreSummary_ p,
   ReleaseApprovalRecordID p, PausedFromState p).

Lemma step_frozen p c p' :
  wf p -> deletion_pending p = true -> projectStep p c = Some p' ->
  projectLifecycleCommand (Cmd.Type_ c) = true /\
  (deletion_pending p' = true /\ content p' = content p
   \/ Cmd.Type_ c = ProjectCommandCompleteDeletion /\ erasing p' /\
      State p' = ProjectArchived /\ Goal p' = None /\ Plan p' = None /\
      DeploymentTargets p' = [] /\ ModelRoutes p' = None).
Proof.
  intros Hwf Hp H. unfold content. project_step H; specialize (Hpend Hp); try discriminate Hpend;
    rewrite Ty; (split; [done|]).
  - left. split; [|done]. unfold deletion_pending, move_deletion in *. cbn.
    destruct (Deletion p) as [d|]; [|done]. cbn.
    destruct (Del.Status d ≟ ProjectDeletionReady); [cbn; by go_eval|done].
  - left. split; [|done]. unfold deletion_pending, move_deletion in *. cbn.
    destruct (hasActiveLegalHold _); [done|]. destruct (Deletion p) as [d|]; [|done]. cbn.
    destruct (Del.Status d ≟ ProjectDeletionBlocked); [cbn; by go_eval|done].
  - left. split; [|done]. unfold deletion_pending. cbn. by go_eval.
  - right. cbn. repeat split; auto. eexists. split; [reflexivity|]. by right.
Qed.

(** A requested deletion freezes the project.  Until it is completed every
    accepted command is a hold, a release, or the start of the erasure, and the
    state, goal, plan, summary and release approval stay as they were; any other
    command is refused with AOR_INVALID_STATE_TRANSITION. *)
Theorem deletion_freezes p cs p' :
  wf p -> deletion_pending p = true -> run p cs p' ->
  Forall (fun c => Cmd.Type_ c <> ProjectCommandCompleteDeletion) cs ->
  deletion_pending p' = true /\ content p' = content p /\
  Forall (fun c => projectLifecycleCommand (Cmd.Type_ c) = true) cs /\
  (forall c, Cmd.At c <> 0 -> Cmd.ActorID c <> "" ->
     projectLifecycleCommand (Cmd.Type_ c) = false ->
     DecideProject p' c = Err (transitionProject c (State p'))).
Proof.
  intros Hwf Hp Hr Hall.
  assert (Hrefuse : forall q, deletion_pending q = true -> forall c, Cmd.At c <> 0 ->
    Cmd.ActorID c <> "" -> projectLifecycleCommand (Cmd.Type_ c) = false ->
    DecideProject q c = Err (transitionProject c (State q))).
  { intros q Hq c Ht Ha Hl. unfold DecideProject, IsZero. rewrite Hq, Hl. by go_eval. }
  induction Hr as [p|p cs p1 c p2 Hr IH Hs]; [by auto|].
  apply Forall_app in Hall as [Hall Hc]. apply Forall_cons in Hc as [Hc _].
  destruct (IH Hwf Hp Hall) as (H1 & H2 & H3 & _).
  destruct (step_frozen p1 c p2) as (Hl & [[Hp2 Hcont] | [Hty _]]); try done;
    [by eapply run_wf|].
  repeat split; auto; [congruence|]. apply Forall_app_2; [done|]. by apply Forall_singleton.
Qed.

Definition released_project : Project :=
  Eval vm_compute in default zeroProject (exec requested_project [unhold1]).
Lemma released_run : run requested_project [unhold1] released_project.
Proof. apply exec_run. vm_compute. reflexivity. Qed.
Lemma requested_wf : wf requested_project.
Proof. exact (run_wf _ _ _ requested_run held_wf). Qed.

Lemma deletion_freezes_witness :
  content released_project = content requested_project /\
  DecideProject released_project pause1 = Err (transitionProject pause1 ProjectPaused).
Proof.
  destruct (deletion_freezes requested_project [unhold1] released_project requested_wf
              eq_refl released_run) as (_ & Hc & _ & Hr).
  - constructor; [discriminate | constructor].
  - split; [exact Hc|]. apply Hr; [discriminate | discriminate | reflexivity].
Defined.

(** ** Deletion runs to its end *)

(** The commands that begin and complete the deletion at times [t1] and [t2]. *)
Definition begin_at (actor : string) (t : time) : ProjectCommand :=
  Cmd.blank ProjectCommandBeginDeletion actor t.
Definition complete_at (actor : string) (t : time) (proof : ProjectDeletion) : ProjectCommand :=
  (Cmd.blank ProjectCommandCompleteDeletion actor t) ⟦ Cmd.Deletion := Some proof ⟧.

Lemma apply_decided p c next ty :
  Cmd.At c <> 0 -> Cmd.ActorID c <> "" ->
  (deletion_pending p = true -> projectLifecycleCommand (Cmd.Type_ c) = true) ->
  decideProjectCommand p p c = Ok (next, ty) -> ID next <> "" ->
  projectStep p c = Some (next ⟦ Version := wrap64 (Version p + 1) ⟧).
Proof.
  intros Ht Ha Hp D Hid. unfold projectStep, DecideProject, IsZero, UTC.
  rewrite cloneProject_id, D.
  assert (Hg : deletion_pending p && negb (projectLifecycleCommand (Cmd.Type_ c)) = false).
  { destruct (deletion_pending p); [|done]. by rewrite Hp. }
  rewrite Hg. go_eval. cbn [rbind fst snd].
  unfold ApplyProject, IsZero. cbn [AggregateVersion Projection OccurredAt].
  assert (HV : Version (next ⟦ Version := wrap64 (Version p + 1) ⟧) = wrap64 (Version p + 1))
    by reflexivity.
  assert (HI : ID (next ⟦ Version := wrap64 (Version p + 1) ⟧) = ID next) by reflexivity.
  rewrite HV, HI. go_eval. by rewrite cloneProject_id.
Qed.

Lemma begin_accepted p d a t :
  ID p <> "" -> Deletion p = Some d -> Del.Status d = ProjectDeletionReady ->
  hasActiveLegalHold (LegalHolds p) = false -> a <> "" -> t <> 0 ->
  Del.EarliestExecutionAt d <= t ->
  projectStep p (begin_at a t)
  = Some (p ⟦ Deletion := Some (d ⟦ Del.Status := ProjectDeletionErasing ⟧
                                  ⟦ Del.StartedAt := Some t ⟧) ⟧
            ⟦ Version := wrap64 (Version p + 1) ⟧).
Proof.
  intros Hid Hd Hs Hh Ha Ht He.
  apply (apply_decided p (begin_at a t) (p ⟦ Deletion := Some
    (d ⟦ Del.Status := ProjectDeletionErasing ⟧ ⟦ Del.StartedAt := Some t ⟧) ⟧)
    "io.aor.project.deletion-started.v1"); try done.
  cbn. unfold decideBeginDeletion, Before. rewrite Hd, Hh, Hs. cbn. by go_eval.
Qed.

(** A deletion that no hold blocks runs to its end.  When the record is
    READY, beginning at or after the earliest execution time and completing with
    a valid proof are both accepted, and leave an archived project without goal,
    plan, targets or model routes whose record is COMPLETED with that proof. *)
Theorem deletion_completes p d a1 t1 a2 t2 proof :
  wf p -> Deletion p = Some d -> Del.Status d = ProjectDeletionReady ->
  a1 <> "" -> a2 <> "" -> t1 <> 0 -> t2 <> 0 -> Del.EarliestExecutionAt d <= t1 ->
  validDeletionCompletion proof t2 = true ->
  exists p' d', exec p [begin_at a1 t1; complete_at a2 t2 proof] = Some p' /\
    State p' = ProjectArchived /\ Goal p' = None /\ Plan p' = None /\
    DeploymentTargets p' = [] /\ ModelRoutes p' = None /\
    Deletion p' = Some d' /\ Del.Status d' = ProjectDeletionCompleted /\
    Del.StartedAt d' = Some t1 /\ Del.CompletedAt d' = Some t2 /\
    Del.ProofSHA256 d' = Del.ProofSHA256 proof /\ LegalHolds p' = LegalHolds p.
Proof.
  intros Hwf Hd Hs Ha1 Ha2 Ht1 Ht2 He Hv. pose proof (wf_id _ Hwf) as [Hid _].
  pose proof (wf_deletion _ Hwf) as Hok. rewrite Hd in Hok. destruct Hok as [_ Hok].
  unfold deletion_ok in Hok. rewrite Hs in Hok. cbn [Runs.exec].
  rewrite (begin_accepted p d a1 t1) by done.
  erewrite apply_decided; cycle 1; [done|done|done| | |].
  { cbn. unfold decideCompleteDeletion. cbn. go_eval. cbn. by rewrite Hv. }
  { exact Hid. }
  eexists _, _. cbn. repeat split.
Qed.

Definition proof1 : ProjectDeletion :=
  Del.mk "" (ProjectDeletionRaw "") "" 0 0 None None digest0
    ("artifact://sha256/" +:+ slice_from 7 digest0) None.

Lemma released_wf : wf released_project.
Proof. exact (run_wf _ _ _ released_run requested_wf). Qed.

Lemma deletion_completes_witness :
  exists p', exec released_project [begin_at "user" 41; complete_at "user" 42 proof1] = Some p'
    /\ State p' = ProjectArchived /\ Goal p' = None.
Proof.
  destruct (Deletion released_project) as [d|] eqn:E; [|discriminate E].
  destruct (deletion_completes released_project d "user" 41 "user" 42 proof1 released_wf E)
    as (p' & d' & H & HS & HG & _);
    try (vm_compute in E; injection E as <-; vm_compute; reflexivity || discriminate).
  exists p'. split; [exact H|]. split; [exact HS | exact HG].
Defined.

(** ** Archived projects *)
Definition record_command (ty : ProjectCommandType) : bool :=
  projectLifecycleCommand ty || (ty ≟ ProjectCommandRequestDeletion).

Lemma step_archived p c p' :
  wf p -> State p = ProjectArchived -> projectStep p c = Some p' ->
  State p' = ProjectArchived /\ record_command (Cmd.Type_ c) = true /\
  (Goal p' = Goal p \/ Goal p' = None) /\ (Plan p' = Plan p \/ Plan p' = None).
Proof.
  intros Hwf HS H. pose proof (wf_id _ Hwf) as [Hid _].
  project_step H; try congruence; rewrite ?HS in *; try discriminate; rewrite Ty;
    try (split; [done|]; split; [done|]; auto; fail).
  all: try (rewrite HS in *; discriminate).
  all: unfold stop_for_deletion; rewrite HS; cbn; auto.
Qed.

(** ARCHIVED is final.  From an archived project only legal holds and
    deletion records are accepted; it stays archived, and its goal and plan are
    kept or erased, never replaced. *)
Theorem archived_final p cs p' :
  wf p -> State p = ProjectArchived -> run p cs p' ->
  State p' = ProjectArchived /\
  Forall (fun c => record_command (Cmd.Type_ c) = true) cs /\
  (Goal p' = Goal p \/ Goal p' = None) /\ (Plan p' = Plan p \/ Plan p' = None).
Proof.
  intros Hwf HS Hr. induction Hr as [p|p cs p1 c p2 Hr IH Hs]; [by auto|].
  destruct (IH Hwf HS) as (H1 & H2 & H3 & H4).
  destruct (step_archived p1 c p2) as (H5 & H6 & H7 & H8); try done; [by eapply run_wf|].
  repeat split; auto; [|intuition congruence..].
  apply Forall_app_2; [done|]. by apply Forall_cons.
Qed.

Definition archived_project : Project :=
  Eval vm_compute in default zeroProject
    (exec released_project [begin_at "user" 41; complete_at "user" 42 proof1]).
Lemma archived_run :
  run released_project [begin_at "user" 41; complete_at "user" 42 proof1] archived_project.
Proof. apply exec_run. vm_compute. reflexivity. Qed.
Lemma archived_wf : wf archived_project.
Proof. exact (run_wf _ _ _ archived_run released_wf). Qed.
Definition place2 : ProjectCommand :=
  (by_user ProjectCommandPlaceLegalHold 50) ⟦ Cmd.LegalHold := Some
    (Hold.mk "second" "audit" "user" 50 "" None "") ⟧.
Definition archived_later : Project :=
  Eval vm_compute in default zeroProject (exec archived_project [place2]).
Lemma archived_later_run : run archived_project [place2] archived_later.
Proof. apply exec_run. vm_compute. reflexivity. Qed.

Lemma archived_final_witness :
  length (LegalHolds archived_later) = 2%nat /\ State archived_later = ProjectArchived.
Proof.
  split; [reflexivity|].
  destruct (archived_final archived_project [place2] archived_later archived_wf eq_refl
              archived_later_run) as [H _].
  exact H.
Defined.

(** ** Suspension *)
Definition pausable (s : ProjectState) : bool :=
  negb (terminalProjectState s) && (s ≠? ProjectPaused).

Lemma live_no_deletion p : wf p -> pausable (State p) = true -> Deletion p = None.
Proof.
  intros Hwf Hs. pose proof (wf_deletion _ Hwf) as Hd.
  destruct (Deletion p) as [d|]; [|done]. destruct Hd as [[HS|HS] _]; by rewrite HS in Hs.
Qed.

Lemma step_pause p a t :
  ID p <> "" -> Deletion p = None -> pausable (State p) = true -> a <> "" -> t <> 0 ->
  projectStep p (Cmd.blank ProjectCommandPause a t)
  = Some (p ⟦ PausedFromState := State p ⟧
            ⟦ State := if State p ≟ ProjectGoalNegotiating then ProjectGoalSuspended
                       else ProjectPaused ⟧
            ⟦ GoalProcessing := false ⟧ ⟦ Version := wrap64 (Version p + 1) ⟧).
Proof.
  intros Hid Hd Hs Ha Ht. unfold pausable in Hs. apply andb_true_iff in Hs as [Hs1 Hs2].
  apply negb_true_iff in Hs1, Hs2.
  eapply (apply_decided p (Cmd.blank ProjectCommandPause a t)); [done|done| | |exact Hid].
  - unfold deletion_pending. by rewrite Hd.
  - cbn. unfold decidePause. rewrite Hs1, Hs2. reflexivity.
Qed.

Lemma step_resume p a t :
  ID p <> "" -> Deletion p = None -> a <> "" -> t <> 0 ->
  State p = ProjectPaused \/ State p = ProjectGoalSuspended ->
  projectStep p (Cmd.blank ProjectCommandResume a t)
  = Some (p ⟦ State := resumed p ⟧ ⟦ PausedFromState := ProjectStateZero ⟧
            ⟦ Version := wrap64 (Version p + 1) ⟧).
Proof.
  intros Hid Hd Ha Ht Hs.
  eapply (apply_decided p (Cmd.blank ProjectCommandResume a t)); [done|done| | |exact Hid].
  - unfold deletion_pending. by rewrite Hd.
  - cbn. unfold decideResume. destruct Hs as [-> | ->]; by go_eval.
Qed.

(** Suspension loses nothing.  Pausing a project in any live state and
    resuming it gives back the project as it was, apart from its version, the
    stale paused-from mark and an interrupted goal processing. *)
Theorem pause_resume_roundtrip p a t a' t' :
  wf p -> pausable (State p) = true -> a <> "" -> a' <> "" -> t <> 0 -> t' <> 0 ->
  exists v, exec p [Cmd.blank ProjectCommandPause a t; Cmd.blank ProjectCommandResume a' t']
    = Some (p ⟦ GoalProcessing := false ⟧ ⟦ PausedFromState := ProjectStateZero ⟧
              ⟦ Version := v ⟧).
Proof.
  intros Hwf Hs Ha Ha' Ht Ht'. pose proof (wf_id _ Hwf) as [Hid _].
  pose proof (live_no_deletion _ Hwf Hs) as Hd. pose proof (wf_state _ Hwf) as Hst.
  cbn [Runs.exec]. rewrite step_pause by done.
  set (q := p ⟦ PausedFromState := State p ⟧ ⟦ State := _ ⟧ ⟦ GoalProcessing := false ⟧
              ⟦ Version := _ ⟧).
  assert (Hq : State q = ProjectPaused /\ resumed q = State p
            \/ State q = ProjectGoalSuspended /\ resumed q = State p).
  { unfold q. destruct (State p ≟ ProjectGoalNegotiating) eqn:HN; go_bool.
    - right. split; [done|]. rewrite resumed_suspended by done. done.
    - left. split; [done|]. apply resumed_paused; [done|].
      unfold effective in Hst. cbn. by destruct (State p). }
  rewrite step_resume by (done || naive_solver).
  replace (resumed q) with (State p) by naive_solver.
  eexists. unfold q. reflexivity.
Qed.

Lemma pause_resume_roundtrip_witness :
  exists v, exec audited_project [pause1; resume1]
    = Some (audited_project ⟦ GoalProcessing := false ⟧
              ⟦ PausedFromState := ProjectStateZero ⟧ ⟦ Version := v ⟧).
Proof.
  apply (pause_resume_roundtrip audited_project "user" 17 "user" 18 audited_wf eq_refl);
    discriminate.
Defined.

(** ** Goal versions *)

(** The goal is the same document or a strictly newer one. *)
Definition goal_le (g g' : GoalRecord) : Prop :=
  Goal_.Version g < Goal_.Version g' \/
  (Goal_.ID g' = Goal_.ID g /\ goal_ref g' = goal_ref g).

Lemma goal_le_trans g g1 g2 : goal_le g g1 -> goal_le g1 g2 -> goal_le g g2.
Proof.
  unfold goal_le, goal_ref. intros [H1|[H1 H1']] [H2|[H2 H2']];
    try injection H1' as ? ?; try injection H2' as ? ?; try (left; lia).
  right. split; congruence.
Qed.

Definition keeps_goal (g : GoalRecord) (p : Project) : Prop :=
  (exists g', Goal p = Some g' /\ goal_le g g') \/ (State p = ProjectArchived /\ Goal p = None).

Lemma step_goal g p c p' :
  wf p -> keeps_goal g p -> projectStep p c = Some p' -> keeps_goal g p'.
Proof.
  intros Hwf [(g1 & Hg & Hle) | [HS Hn]] H.
  2: { right. destruct (step_archived _ _ _ Hwf HS H) as (? & _ & [HG|HG] & _);
       by rewrite HG. }
  pose proof (wf_id _ Hwf) as [Hid _].
  assert (Hsame : forall g2, Goal_.ID g2 = Goal_.ID g1 -> goal_ref g2 = goal_ref g1 ->
            goal_le g g2) by (intros; eapply goal_le_trans; [exact Hle|by right]).
  assert (Hnew : forall g2, Goal_.Version g1 < Goal_.Version g2 -> goal_le g (draft g2))
    by (intros; eapply goal_le_trans; [exact Hle|by left]).
  project_step H; try congruence; try (left; exists g1; done).
  all: try (injection Hg as ->).
  all: try (left; eexists; split; [reflexivity|]; auto; fail).
  all: try (left; exists g1; split; [assumption|exact Hle]).
  - left. eexists. split; [reflexivity|]. apply Hnew.
    match goal with G : context [match Goal p with _ => _ end] |- _ => rewrite Hg in G end.
    go_bool. lia.
  - left. exists g1. split; [|done]. unfold stop_for_deletion.
    destruct (negb _); [|destruct (_ ≠? _)]; exact Hg.
  - by right.
Qed.

(** Goals only move forward.  Along every run the goal of a project is the
    same document (identifier, version and digest) or one of a strictly higher
    version, unless the project was erased: an approved goal is never replaced
    by an older or a different document under the same version. *)
Theorem goal_moves_forward p cs p' g :
  wf p -> run p cs p' -> Goal p = Some g ->
  (exists g', Goal p' = Some g' /\ goal_le g g') \/ (State p' = ProjectArchived /\ Goal p' = None).
Proof.
  intros Hwf Hr Hg.
  assert (H : wf p' /\ keeps_goal g p').
  { apply (run_preserves projectStep (fun q => wf q /\ keeps_goal g q)) with p cs; [|done|].
    - intros q c q' [Hq Hk] Hs. split; [by eapply step_wf | by eapply step_goal].
    - split; [done|]. left. exists g. split; [done|]. by right. }
  apply H.
Qed.

Definition supersede1 : ProjectCommand :=
  (by_user ProjectCommandSupersedeGoal 21)
    ⟦ Cmd.Goal := Some (Goal_.mk "goal" 2 digest1 [] GoalDraft "" "") ⟧.
Definition superseded_project : Project :=
  Eval vm_compute in default zeroProject (exec audited_project [supersede1]).
Lemma superseded_run : run audited_project [supersede1] superseded_project.
Proof. apply exec_run. vm_compute. reflexivity. Qed.

Lemma goal_moves_forward_witness :
  exists g g', Goal audited_project = Some g /\ Goal superseded_project = Some g' /\
    goal_le g g'.
Proof.
  destruct (Goal audited_project) as [g|] eqn:E; [|discriminate E].
  destruct (goal_moves_forward audited_project [supersede1] superseded_project g audited_wf
              superseded_run E) as [(g' & Hg' & Hle) | [HS _]].
  - exists g, g'. split; [reflexivity|]. split; [exact Hg' | exact Hle].
  - discriminate HS.
Defined.

(** ** Goal approval *)

(** What a goal approval asks of the project and of the command: the project
    negotiates the goal [g], the command comes from someone at some time, names
    that document as [cg], neither has unresolved items, and it brings the
    actor's own live approval [a] of the document. *)
Record approval_asks (p : Project) (c : ProjectCommand) (g cg : GoalRecord) (a : ApprovalBinding) : Prop := {
  ask_sender : Cmd.At c <> 0 /\ Cmd.ActorID c <> "";
  ask_state : State p = ProjectGoalNegotiating /\ Goal p = Some g;
  ask_document : Cmd.Goal c = Some cg /\ Goal_.ID cg = Goal_.ID g /\ goal_ref cg = goal_ref g;
  ask_resolved : Goal_.UnresolvedItems g = [] /\ Goal_.UnresolvedItems cg = [];
  ask_approval : Cmd.Approval c = Some a /\
    approves a (Cmd.At c) (Cmd.ActorID c) "GOAL_APPROVAL" "GOAL_SPEC" (Goal_.ID g)
      (Goal_.Version g) (Goal_.SHA256 g)
}.

(** The project with its goal approved. *)
Definition approved (p : Project) (c : ProjectCommand) (g : GoalRecord) (a : ApprovalBinding) : Project :=
  p ⟦ Goal := Some (g ⟦ Goal_.ApprovedBy := Cmd.ActorID c ⟧ ⟦ Goal_.ApprovalRecordID := RecordID a ⟧
                      ⟦ Goal_.Status := GoalApproved ⟧) ⟧
    ⟦ State := ProjectPlanning ⟧ ⟦ Version := wrap64 (Version p + 1) ⟧.

Lemma approve_accepts p c g cg a :
  wf p -> Cmd.Type_ c = ProjectCommandApproveGoal -> approval_asks p c g cg a ->
  exists e, DecideProject p c = Ok e /\ Projection e = approved p c g a.
Proof.
  intros Hwf Hty [[Ht Hac] [HS Hg] (Hcg & Hi & Hr) [Hu Hu'] [Ha Hap]].
  assert (Hd : deletion_pending p = false).
  { unfold deletion_pending. rewrite live_no_deletion; [done|done|by rewrite HS]. }
  unfold goal_ref in Hr. injection Hr as Hr1 Hr2. apply validAt_approves in Hap.
  unfold DecideProject, IsZero, decideProjectCommand, decideApproveGoal.
  rewrite cloneProject_id, Hd, Hty, HS, Hg, Hcg, Ha, Hu, Hu'. unfold other_goal. rewrite Hi, Hr1, Hr2. go_eval.
  rewrite Hap. cbn [negb rbind]. eexists. split; [reflexivity|]. unfold approved. cbn. done.
Qed.

Lemma approve_asks_of p c e :
  Cmd.Type_ c = ProjectCommandApproveGoal -> DecideProject p c = Ok e -> exists g cg a, approval_asks p c g cg a.
Proof.
  intros Hty H. unfold DecideProject, IsZero, decideProjectCommand in H. rewrite Hty in H.
  destruct (_ || _) eqn:G0 in H; [discriminate|]. destruct (_ && _) in H; [discriminate|].
  apply rbind_ok in H as (d & D & _). unfold decideApproveGoal in D. accepted D. go_bool.
  apply other_goal_false in G4 as [Hi Hr]. apply Nat.eqb_eq, length_zero_iff_nil in H, H0.
  apply validAt_approves in G6. exists g, g0, a. by split.
Qed.

Lemma approve_refusals p c g :
  wf p -> Cmd.Type_ c = ProjectCommandApproveGoal -> Cmd.At c <> 0 -> Cmd.ActorID c <> "" ->
  State p = ProjectGoalNegotiating -> Goal p = Some g ->
  (Cmd.Goal c = None \/ Cmd.Approval c = None ->
     DecideProject p c = Err (transitionProject c ProjectGoalNegotiating)) /\
  (forall cg, Cmd.Goal c = Some cg -> Cmd.Approval c <> None ->
     Goal_.ID cg <> Goal_.ID g \/ goal_ref cg <> goal_ref g ->
     DecideProject p c = Err (plain CodeGoalHashMismatch)).
Proof.
  intros Hwf Hty Ht Hac HS Hg.
  assert (Hd : deletion_pending p = false).
  { unfold deletion_pending. rewrite live_no_deletion; [done|done|by rewrite HS]. }
  unfold DecideProject, IsZero, decideProjectCommand, decideApproveGoal.
  rewrite Hd, Hty, HS, Hg. go_eval. split.
  - intros [->| ->]; [done|]. by destruct (Cmd.Goal c).
  - intros cg -> Ha Hother. destruct (Cmd.Approval c) as [a|]; [|done]. cbn.
    destruct (other_goal g cg) eqn:Hog; [done|]. apply other_goal_false in Hog as [? ?].
    by destruct Hother.
Qed.

(** C18: A goal is approved exactly on demand, in every state of a project.  The
    approval command is accepted if and only if the project is negotiating a
    goal and the command - with an actor and a time - names that goal by
    identifier, version and digest, neither side has unresolved items, and it
    carries the actor's own live approval of that digest; what is then
    projected is the project in planning, its goal approved by the actor on
    that approval, and nothing else changed.  While a goal is negotiated, a
    command without a goal or without an approval is refused as an invalid
    transition, and one that names another document with
    AOR_GOAL_HASH_MISMATCH. *)
Theorem approve_goal_exact p c :
  wf p -> Cmd.Type_ c = ProjectCommandApproveGoal ->
  (is_ok (DecideProject p c) = true <-> exists g cg a, approval_asks p c g cg a) /\
  (forall e g cg a, DecideProject p c = Ok e -> approval_asks p c g cg a -> Projection e = approved p c g a) /\
  (Cmd.At c <> 0 -> Cmd.ActorID c <> "" -> forall g, State p = ProjectGoalNegotiating -> Goal p = Some g ->
   (Cmd.Goal c = None \/ Cmd.Approval c = None ->
      DecideProject p c = Err (transitionProject c ProjectGoalNegotiating)) /\
   (forall cg, Cmd.Goal c = Some cg -> Cmd.Approval c <> None ->
      Goal_.ID cg <> Goal_.ID g \/ goal_ref cg <> goal_ref g ->
      DecideProject p c = Err (plain CodeGoalHashMismatch))).
Proof.
  intros Hwf Hty. split_and!.
  - split.
    + destruct (DecideProject p c) as [e|] eqn:E; [|done]. intros _. by eapply approve_asks_of.
    + intros (g & cg & a & H). by destruct (approve_accepts p c g cg a Hwf Hty H) as (e & -> & _).
  - intros e g cg a He H. destruct (approve_accepts p c g cg a Hwf Hty H) as (e' & He' & <-). congruence.
  - intros Ht Hac g HS Hg. by apply approve_refusals.
Qed.

Definition proposed_project : Project :=
  Eval vm_compute in default zeroProject (exec zeroProject [create1; negotiate1; propose1]).
Lemma proposed_wf : wf proposed_project.
Proof.
  assert (H : run zeroProject [create1; negotiate1; propose1] proposed_project)
    by (apply exec_run; vm_compute; reflexivity).
  by destruct (run_zero_wf _ _ H).
Qed.
Definition wrong1 : ProjectCommand :=
  approve1 ⟦ Cmd.Goal := Some (goal1 ⟦ Goal_.SHA256 := digest1 ⟧) ⟧.

Definition unapproved1 : ProjectCommand := approve1 ⟦ Cmd.Approval := None ⟧.

Lemma approve_goal_exact_witness :
  (exists g cg a, approval_asks proposed_project approve1 g cg a) /\
  DecideProject proposed_project wrong1 = Err (plain CodeGoalHashMismatch) /\
  is_ok (DecideProject proposed_project unapproved1) = false.
Proof.
  split; [|split].
  - apply (approve_goal_exact proposed_project approve1 proposed_wf); vm_compute; reflexivity.
  - destruct (approve_goal_exact proposed_project wrong1 proposed_wf eq_refl) as (_ & _ & H).
    destruct (H ltac:(discriminate) ltac:(discriminate) goal1 eq_refl eq_refl) as [_ Hm].
    apply (Hm (goal1 ⟦ Goal_.SHA256 := digest1 ⟧) eq_refl); [discriminate|]. right. discriminate.
  - destruct (approve_goal_exact proposed_project unapproved1 proposed_wf eq_refl)
      as (_ & _ & H).
    destruct (H ltac:(discriminate) ltac:(discriminate) goal1 eq_refl eq_refl) as [Hm _].
    rewrite Hm; [reflexivity|]. right. reflexivity.
Defined.

(** ** Events, versions and the charter *)

(** An accepted decision applies to the project it was made for, with
    exactly its projection, and to no project at another version. *)
Theorem project_event_applies p c e :
  DecideProject p c = Ok e -> ID (Projection e) <> "" ->
  ApplyProject p e = Ok (Projection e) /\
  (forall q v, in_int64 (Version p) -> in_int64 (Version q) ->
     ApplyProject q e = Ok v -> Version q = Version p).
Proof.
  unfold DecideProject, ApplyProject, IsZero, UTC. rewrite cloneProject_id. intros H Hid.
  accepted H. cbn in Hid |- *. go_bool. split.
  - go_eval. by rewrite cloneProject_id.
  - intros q v Ht Hu Ha. accepted Ha. go_bool. symmetry. by apply wrap64_succ_inj.
Qed.

Lemma project_event_applies_witness :
  exists e, DecideProject zeroProject create1 = Ok e /\
            ApplyProject zeroProject e = Ok (Projection e).
Proof.
  destruct (DecideProject zeroProject create1) as [e|err] eqn:E;
    [|vm_compute in E; discriminate E].
  exists e. split; [reflexivity|].
  apply (project_event_applies zeroProject create1 e E).
  vm_compute in E. injection E as <-. discriminate.
Defined.

(** What the creation fixes for good. *)
Definition charter (p : Project) :=
  (TenantID p, ID p, Name p, CreatedBy p, DataClassification p, BudgetCurrency p,
   (BudgetHardLimitMinor p, BudgetSoftLimitMinor p), RiskTolerance p, GoalAgentCount p).

Lemma step_charter p c p' : projectStep p c = Some p' -> ID p <> "" -> charter p' = charter p.
Proof.
  intros H Hid. unfold charter. project_step H; try congruence; try reflexivity.
  unfold stop_for_deletion. destruct (negb _); [|destruct (_ ≠? _)]; reflexivity.
Qed.

(** Versions count commands, and the charter is immutable.  After [n]
    accepted commands the version has grown by exactly [n], and tenant,
    identifier, name, creator, classification, budget limits, risk tolerance and
    goal-agent count are those the project was created with. *)
Theorem charter_immutable p cs p' :
  run p cs p' -> ID p <> "" -> 0 <= Version p ->
  Version p + Z.of_nat (length cs) < two63 ->
  Version p' = Version p + Z.of_nat (length cs) /\ charter p' = charter p.
Proof.
  induction 1 as [|p cs p1 c p2 Hr IH Hs]; cbn [length]; [split; [lia|done]|].
  rewrite length_app. cbn [length]. intros Hid H0 Hlt.
  destruct IH as [IHv IHc]; [done|done|lia|]. split.
  - apply step_inv in Hs as (next & ty & _ & _ & _ & _ & -> & _). cbn.
    rewrite IHv, wrap64_id by (unfold in_int64, two63 in *; lia). lia.
  - rewrite <- IHc. apply (step_charter _ c); [done|]. unfold charter in IHc. congruence.
Qed.

Lemma charter_immutable_witness :
  Version completed_project = 11 /\
  Version archived_later = 13 /\ charter archived_later = charter archived_project.
Proof.
  split; [reflexivity|].
  destruct (charter_immutable archived_project [place2] archived_later archived_later_run)
    as [Hv Hc]; [discriminate | discriminate | reflexivity |].
  split; [exact Hv | exact Hc].
Defined.

(** ** Model routes *)

(** The bounds a valid route keeps, free of machine arithmetic. *)
Record route_bounds (r : ProjectModelRoute) : Prop := {
  rb_provider : validProjectModelIdentity (Route.Provider r) 128 = true;
  rb_model : validProjectModelIdentity (Route.Model r) 256 = true /\ Route.Model r <> "*";
  rb_effort : ValidModelReasoningEffort (Route.Provider r) (Route.ReasoningEffort r) = true;
  rb_output : 1 <= Route.MaxOutputTokens r <= 1000000;
  rb_thinking : 0 <= Route.ThinkingBudget r < Route.MaxOutputTokens r;
  rb_context : Route.ContextWindowTokens r = 0 \/
    Route.MaxOutputTokens r < Route.ContextWindowTokens r <= 64000000;
  rb_compaction : Route.CompactionThresholdTokens r = 0 \/
    0 < Route.ContextWindowTokens r /\
    Route.MaxOutputTokens r < Route.CompactionThresholdTokens r /\
    10 * Route.CompactionThresholdTokens r <= 9 * Route.ContextWindowTokens r;
  rb_temperature : valid_temperature (Route.Temperature r) = true;
  rb_policies : validProjectModelIdentity (Route.ProviderPolicy r) 256 = true /\
    validProjectModelIdentity (Route.CachePolicy r) 128 = true;
  rb_cost : 0 <= Route.WorstCaseCostMicros r /\ 1 <= Route.MaxAttempts r <= 5
}.

Lemma nine_tenths t c : 0 < c -> t <= Z.quot (c * 9) 10 <-> 10 * t <= 9 * c.
Proof. intros Hc. rewrite Z.quot_div_nonneg by lia. Z.div_mod_to_equations. lia. Qed.

Lemma validProjectModelRoute_spec r : validProjectModelRoute r = true <-> route_bounds r.
Proof.
  unfold validProjectModelRoute. rewrite !andb_true_iff, !orb_true_iff, !andb_true_iff.
  rewrite negb_true_iff, bool_decide_eq_false, !Z.leb_le, !Z.ltb_lt, !Z.eqb_eq.
  split.
  - intros ((((((((((((((( ? & ?) & ?) & ?) & Hc) & Hk) & ?) & ?) & ?) & ?) & ?) & ?) & ?) & ?) & ?) & ?).
    rewrite wrap64_id in Hc, Hk by (unfold in_int64, two63; lia).
    split; auto; try lia.
    destruct Hk as [Hk|((Hk1 & Hk2) & Hk3)]; [by left|right].
    rewrite wrap64_id in Hk3 by (unfold in_int64, two63; lia).
    apply nine_tenths in Hk3; lia.
  - intros [? [? ?] ? ? ? Hc Hk ? [? ?] ?].
    rewrite wrap64_id by (unfold in_int64, two63; lia).
    repeat split; auto; try lia.
    destruct Hk as [Hk|(Hk1 & Hk2 & Hk3)]; [by left|right].
    rewrite wrap64_id by (unfold in_int64, two63; lia).
    rewrite nine_tenths by lia. lia.
Qed.

Lemma bad_role_None m roles :
  bad_role m roles = None <->
  forall role, role ∈ roles -> exists r, m !! role = Some r /\ validProjectModelRoute r = true.
Proof.
  induction roles as [|role roles IH]; cbn [bad_role].
  - split; [|done]. intros _ role Hr. by apply not_elem_of_nil in Hr.
  - destruct (m !! role) as [r|] eqn:E.
    + destruct (validProjectModelRoute r) eqn:V; cbn [negb].
      * rewrite IH. split.
        -- intros H role' [->|Hr]%elem_of_cons; [by exists r|by apply H].
        -- intros H role' Hr. apply H. by right.
      * split; [done|]. intros H. destruct (H role) as (r' & Hr & Hv); [by left|]. congruence.
    + split; [done|]. intros H. destruct (H role) as (r' & Hr & _); [by left|]. congruence.
Qed.

(** Model routing is complete and bounded.  The validator accepts exactly
    the maps that define each of the eight roles and nothing else, with every
    route within its bounds; the bounds hold as integers, so no accepted route
    owes its acceptance to 64-bit wrap-around. *)
Theorem routes_valid m :
  ValidateProjectModelRoutes m = None <->
  dom m = (list_to_set requiredProjectModelRoles : gset string) /\
  forall role r, m !! role = Some r -> route_bounds r.
Proof.
  unfold ValidateProjectModelRoutes.
  set (roles := list_to_set requiredProjectModelRoles : gset string).
  assert (Hsize : size roles = 8%nat) by reflexivity.
  assert (Hroles : forall role, role ∈ roles <-> role ∈ requiredProjectModelRoles)
    by (intros role; apply elem_of_list_to_set).
  destruct (Nat.eqb (size m) (length requiredProjectModelRoles)) eqn:E; cbn [negb].
  - apply Nat.eqb_eq in E. rewrite bad_role_None. split.
    + intros H.
      assert (Hdom : dom m = roles).
      { symmetry. apply set_subseteq_size_eq.
        - intros role Hr. apply Hroles in Hr. destruct (H role Hr) as (r & Hm & _).
          by eapply elem_of_dom_2.
        - rewrite size_dom, E, Hsize. done. }
      split; [done|]. intros role r Hr. apply validProjectModelRoute_spec.
      destruct (H role) as (r' & Hr' & Hv); [|congruence].
      rewrite <- Hroles, <- Hdom. by eapply elem_of_dom_2.
    + intros [Hdom H] role Hr. rewrite <- Hroles, <- Hdom in Hr.
      apply elem_of_dom in Hr as [r Hr]. exists r. split; [done|].
      apply validProjectModelRoute_spec. by eapply H.
  - split; [done|]. intros [Hdom _]. apply Nat.eqb_neq in E. destruct E.
    by rewrite <- size_dom, Hdom.
Qed.

End ProjectProps.
