(* ===== verification/Conformance.v ===== *)
(** The deterministic state check of the standalone runner
    ([internal/state/conformance.go]), evaluated. *)

From S2P Require Import Prelude GoLib Errors Contracts Approval Task Project.
Import Approval.

Module Conformance.

(** A finding: an error value of a decision, or a formatted message. *)
Inductive finding : Type :=
| FindingError (e : Error)
| FindingMessage (s : string).

(** [time.Date(2030, 1, 1, 0, 0, 0, 0, time.UTC)]: 741,077 days after the zero
    time. *)
Definition testConformanceTime : time := 741077 * 24 * Hour.

Definition conformanceDigest : string :=
  "sha256:0000000000000000000000000000000000000000000000000000000000000000".
Definition wrongDigest : string :=
  "sha256:1111111111111111111111111111111111111111111111111111111111111111".

Definition conformanceTaskStep (current : Task.ModuleTask) (command : Task.TaskCommand)
    (findings : list finding) : Task.ModuleTask * list finding :=
  match Task.DecideTask current command with
  | Err err => (current, findings ++ [FindingError err])
  | Ok event =>
      match Task.ApplyTask current event with
      | Err applyErr => (current, findings ++ [FindingMessage applyErr])
      | Ok next => (next, findings)
      end
  end.

Definition conformanceProjectStep (current : Project.Project)
    (command : Project.ProjectCommand) (findings : list finding)
    : Project.Project * list finding :=
  match Project.DecideProject current command with
  | Err err => (current, findings ++ [FindingError err])
  | Ok event =>
      match Project.ApplyProject current event with
      | Err applyErr => (current, findings ++ [FindingMessage applyErr])
      | Ok next => (next, findings)
      end
  end.

Definition conformanceApproval (goal : Project.GoalRecord) : ApprovalBinding :=
  mkApprovalBinding "approval_conformance" "GOAL_APPROVAL" "GOAL_SPEC"
    (Project.Goal_.ID goal) (Project.Goal_.Version goal) (Project.Goal_.SHA256 goal)
    "user_conformance" "conformance approval" testConformanceTime None None
    "conformance-signature".

(** ** The commands of the run *)
Definition projectCommand (ty : Project.ProjectCommandType) (actor : string)
    : Project.ProjectCommand := Project.Cmd.blank ty actor testConformanceTime.
Definition taskCommand (ty : Task.TaskCommandType) : Task.TaskCommand :=
  (Task.Cmd.blank ty) ⟦ Task.Cmd.At := testConformanceTime ⟧.

Definition createCommand : Project.ProjectCommand :=
  (projectCommand Project.ProjectCommandCreate "user_conformance")
    ⟦ Project.Cmd.TenantID := "tenant_conformance" ⟧
    ⟦ Project.Cmd.ProjectID := "project_conformance" ⟧
    ⟦ Project.Cmd.GoalAgentCount := 2 ⟧.
Definition goal : Project.GoalRecord :=
  Project.Goal_.mk "goal_conformance" 1 conformanceDigest [] (GoalStatusRaw "") "" "".
Definition wrongGoal : Project.GoalRecord := goal ⟦ Project.Goal_.SHA256 := wrongDigest ⟧.
Definition approveCommand (g : Project.GoalRecord) : Project.ProjectCommand :=
  (projectCommand Project.ProjectCommandApproveGoal "user_conformance")
    ⟦ Project.Cmd.Goal := Some g ⟧
    ⟦ Project.Cmd.Approval := Some (conformanceApproval goal) ⟧.

Definition ref : SpecRef := mkSpecRef 1 conformanceDigest.
Definition defineCommand (task series : string) (dependents : list string) : Task.TaskCommand :=
  (taskCommand Task.TaskCommandDefine)
    ⟦ Task.Cmd.TenantID := "tenant_conformance" ⟧
    ⟦ Task.Cmd.ProjectID := "project_conformance" ⟧ ⟦ Task.Cmd.TaskID := task ⟧
    ⟦ Task.Cmd.ModuleSpecRef := ref ⟧ ⟦ Task.Cmd.AttemptSeriesID := series ⟧
    ⟦ Task.Cmd.DependentTaskIDs := dependents ⟧.

(** ** The project part *)
Definition runProject (project : Project.Project) : list finding :=
  let (project, findings) := conformanceProjectStep project
    (projectCommand Project.ProjectCommandStartGoalNegotiation "service_orchestrator") [] in
  let (project, findings) := conformanceProjectStep project
    ((projectCommand Project.ProjectCommandProposeGoal "agent_goal")
       ⟦ Project.Cmd.Goal := Some goal ⟧) findings in
  let findings :=
    match Project.DecideProject project (approveCommand wrongGoal) with
    | Err e => if ErrCode e ≟ CodeGoalHashMismatch then findings
               else findings ++ [FindingMessage "wrong goal digest was not rejected"]
    | Ok _ => findings ++ [FindingMessage "wrong goal digest was not rejected"]
    end in
  let (project, findings) := conformanceProjectStep project (approveCommand goal) findings in
  if Project.State project ≠? ProjectPlanning
  then findings ++ [FindingMessage "approved goal state"] else findings.

(** ** The task part *)

(** One attempt; the loop of the run has [attempt] 1, 2 and 3. *)
Definition runAttempt (attempt : Z) (task : Task.ModuleTask) (findings : list finding)
    : Task.ModuleTask * list finding :=
  let (task, findings) := conformanceTaskStep task
    ((taskCommand Task.TaskCommandLeaseExecution) ⟦ Task.Cmd.FencingToken := attempt ⟧)
    findings in
  let (task, findings) := conformanceTaskStep task
    ((taskCommand Task.TaskCommandSubmit) ⟦ Task.Cmd.FencingToken := attempt ⟧
       ⟦ Task.Cmd.ModuleSpecRef := ref ⟧
       ⟦ Task.Cmd.AttemptSeriesID := Task.AttemptSeriesID task ⟧) findings in
  let (task, findings) := conformanceTaskStep task
    ((taskCommand Task.TaskCommandStartAudit) ⟦ Task.Cmd.SubmissionValidated := true ⟧
       ⟦ Task.Cmd.AuditEvidenceSHA256 := conformanceDigest ⟧) findings in
  let (task, findings) := conformanceTaskStep task
    ((taskCommand Task.TaskCommandDeterministicFailure)
       ⟦ Task.Cmd.AuditEvidenceSHA256 := conformanceDigest ⟧) findings in
  if attempt <? 3
  then conformanceTaskStep task (taskCommand Task.TaskCommandQueueRework) findings
  else (task, findings).

(** The checks after the third failure. *)
Definition checkBlocked (task dependent : Task.ModuleTask) (findings : list finding)
    : list finding :=
  let findings :=
    if (Task.State task ≠? TaskBlockedUserDecision) || (Task.Attempt task ≠? 3)
    then findings ++ [FindingMessage "third failure state"] else findings in
  let findings :=
    if is_ok (Task.DecideTask task (taskCommand Task.TaskCommandQueueRework))
    then findings ++ [FindingMessage "blocked task accepted automatic rework"]
    else findings in
  match Task.DecideTask dependent
          ((taskCommand Task.TaskCommandBlockDependency)
             ⟦ Task.Cmd.BlockingTaskID := Task.ID task ⟧) with
  | Err blockErr => findings ++ [FindingError blockErr]
  | Ok blockedEvent =>
      match Task.ApplyTask dependent blockedEvent with
      | Ok blocked =>
          if Task.State blocked ≠? TaskBlockedDependency
          then findings ++ [FindingMessage "dependent freeze failed"] else findings
      | Err _ => findings ++ [FindingMessage "dependent freeze failed"]
      end
  end.

(** The zero [TaskEvent], which a failed decision returns. *)
Definition zeroTaskEvent : Task.TaskEvent := Task.mkTaskEvent "" 0 0 Task.zeroModuleTask.

Definition runTask (findings : list finding) : list finding :=
  let (dependentEvent, findings) :=
    match Task.DecideTask Task.zeroModuleTask
            (defineCommand "dependent_conformance" "series_dependent" []) with
    | Ok event => (event, findings)
    | Err e => (zeroTaskEvent, findings ++ [FindingError e])
    end in
  let (dependent, findings) :=
    match Task.ApplyTask Task.zeroModuleTask dependentEvent with
    | Ok task => (task, findings)
    | Err e => (Task.zeroModuleTask, findings ++ [FindingMessage e])
    end in
  match Task.DecideTask Task.zeroModuleTask
          (defineCommand "task_conformance" "series_conformance" ["dependent_conformance"]) with
  | Err taskErr => findings ++ [FindingError taskErr]
  | Ok taskEvent =>
      match Task.ApplyTask Task.zeroModuleTask taskEvent with
      | Err applyTaskErr => findings ++ [FindingMessage applyTaskErr]
      | Ok task =>
          if Task.State task ≠? TaskDefined
          then findings ++ [FindingMessage "defined task state"] else
          let (task, findings) := conformanceTaskStep task
            (taskCommand Task.TaskCommandReadyExecution) findings in
          let (task, findings) := runAttempt 1 task findings in
          let (task, findings) := runAttempt 2 task findings in
          let (task, findings) := runAttempt 3 task findings in
          checkBlocked task dependent findings
      end
  end.

(** [Conformance]; the texts of the formatted messages are abridged. *)
Definition Conformance : list finding :=
  match Project.DecideProject Project.zeroProject createCommand with
  | Err err => [FindingError err]
  | Ok projectEvent =>
      match Project.ApplyProject Project.zeroProject projectEvent with
      | Err applyErr => [FindingMessage applyErr]
      | Ok project => runTask (runProject project)
      end
  end.

(** The conformance run of the standalone checker reports no finding. *)
Theorem conformance_clean : Conformance = [].
Proof. vm_compute. reflexivity. Qed.

End Conformance.
