(* ===== verification/Budget.v ===== *)
(** The model gateway's in-memory budget ledger
    ([internal/modelgateway/budget.go], and the ledger's half of
    [model_call.go] and [reconcile.go]): accounts, reservations, settlement,
    expiry, limit adjustments and model-call finalisation.

    Every operation is one critical section of the ledger's mutex, so it is a
    function from the ledger to the ledger.  An operation that leaves the
    ledger alone on every error returns [result (BudgetLedger * A)]; [reserve],
    which may move an expired reservation on its way to an error, returns the
    ledger beside its [result].  The readings of [l.clock], the generated
    UUIDs, the random bytes and the iteration order of the one loop over a Go
    map whose outcome depends on it are arguments. *)

From S2P Require Import Prelude GoLib Trace.

Module Budget.

(** ** Errors ([errors.go]) and contexts *)
Inductive budget_error : Type :=
| ErrBudgetExceeded | ErrReservationConflict | ErrReservationNotFound
| ErrReconciliationRequired | ErrBudgetAccountNotFound | ErrBudgetAccountConflict
| ErrBudgetVersionConflict | ErrBudgetCurrencyConflict | ErrBudgetLimitConflict
| ErrBudgetPeriodClosed | ErrBudgetIdempotencyConflict | ErrRequestConflict
| ErrInvalidRequest
| ErrFrom (err : string).

#[export] Instance budget_error_eq_dec : EqDecision budget_error.
Proof. solve_decision. Defined.

(** A [context.Context]: nil, or with the error its [Err] reports now. *)
Inductive context : Type :=
| NilContext
| Context (Err : option string).

Definition contextError (ctx : context) : option budget_error :=
  match ctx with
  | NilContext => Some ErrInvalidRequest
  | Context None => None
  | Context (Some err) => Some (ErrFrom err)
  end.

(** ** Data *)
Record BudgetAccount : Type := mkBudgetAccount {
  a_ID : string;
  a_TenantID : string;
  a_ScopeType : string;
  a_ScopeID : string;
  a_Currency : string;
  a_LimitMicros : Z;
  a_SoftLimitMicros : Z;
  a_ReservedMicros : Z;
  a_SpentMicros : Z;
  a_PeriodStart : time;
  a_PeriodEnd : option time;
  a_Version : Z
}.

#[global] Instance eta_account : Eta BudgetAccount := fun a => mkBudgetAccount
  (a_ID a) (a_TenantID a) (a_ScopeType a) (a_ScopeID a) (a_Currency a) (a_LimitMicros a)
  (a_SoftLimitMicros a) (a_ReservedMicros a) (a_SpentMicros a) (a_PeriodStart a)
  (a_PeriodEnd a) (a_Version a).

Record BudgetUsage : Type := mkBudgetUsage {
  u_AccountID : string;
  u_Currency : string;
  u_HardLimitMicros : Z;
  u_SoftLimitMicros : Z;
  u_SpentMicros : Z;
  u_ReservedMicros : Z;
  u_RemainingMicros : Z;
  u_Version : Z;
  u_ReservationCount : Z;
  u_CallCount : Z;
  u_InputTokens : Z;
  u_OutputTokens : Z;
  u_CostMicros : Z
}.

#[global] Instance eta_usage : Eta BudgetUsage := fun u => mkBudgetUsage
  (u_AccountID u) (u_Currency u) (u_HardLimitMicros u) (u_SoftLimitMicros u)
  (u_SpentMicros u) (u_ReservedMicros u) (u_RemainingMicros u) (u_Version u)
  (u_ReservationCount u) (u_CallCount u) (u_InputTokens u) (u_OutputTokens u)
  (u_CostMicros u).

Record BudgetAdjustment : Type := mkBudgetAdjustment {
  j_TenantID : string;
  j_ProjectID : string;
  j_PrincipalID : string;
  j_IdempotencyKey : string;
  j_Traceparent : string;
  j_Tracestate : string;
  j_PolicyVersion : string;
  j_PolicyRuleID : string;
  j_PolicyDecision : string;
  j_PolicyReasons : list string;
  j_ParameterDigest : string;
  j_ProjectState : string;
  j_ProjectVersion : Z;
  j_ExpectedVersion : Z;
  j_HardLimitMicros : Z;
  j_SoftLimitMicros : Z;
  j_Currency : string;
  j_Reason : string
}.

#[global] Instance eta_adjustment : Eta BudgetAdjustment := fun j => mkBudgetAdjustment
  (j_TenantID j) (j_ProjectID j) (j_PrincipalID j) (j_IdempotencyKey j) (j_Traceparent j)
  (j_Tracestate j) (j_PolicyVersion j) (j_PolicyRuleID j) (j_PolicyDecision j)
  (j_PolicyReasons j) (j_ParameterDigest j) (j_ProjectState j) (j_ProjectVersion j)
  (j_ExpectedVersion j) (j_HardLimitMicros j) (j_SoftLimitMicros j) (j_Currency j)
  (j_Reason j).

Record BudgetAdjustmentResult : Type := mkBudgetAdjustmentResult {
  Account : BudgetAccount;
  Usage : BudgetUsage;
  Duplicate : bool
}.

#[global] Instance eta_adjustment_result : Eta BudgetAdjustmentResult := fun r =>
  mkBudgetAdjustmentResult (Account r) (Usage r) (Duplicate r).

Inductive ReservationState : Type :=
| ReservationOpen | ReservationSettled | ReservationReleased | ReservationReconcile.

#[export] Instance ReservationState_eq_dec : EqDecision ReservationState.
Proof. solve_decision. Defined.

Record Reservation : Type := mkReservation {
  r_ID : string;
  r_TenantID : string;
  r_AccountID : string;
  r_RequestID : string;
  r_ReservedMicros : Z;
  r_SettledMicros : Z;
  r_State : ReservationState;
  r_CreatedAt : time;
  r_ExpiresAt : time
}.

#[global] Instance eta_reservation : Eta Reservation := fun r => mkReservation
  (r_ID r) (r_TenantID r) (r_AccountID r) (r_RequestID r) (r_ReservedMicros r)
  (r_SettledMicros r) (r_State r) (r_CreatedAt r) (r_ExpiresAt r).

#[export] Instance Reservation_eq_dec : EqDecision Reservation.
Proof. solve_decision. Defined.

(** *** Model calls ([model_call.go], [reconcile.go], [types.go]) *)
Inductive ModelCallStatus : Type :=
| ModelCallSucceeded | ModelCallFailedProvider | ModelCallFailedOutputSchema
| ModelCallFailedOutputSize | ModelCallFailedCredential | ModelCallReconcile
| ModelCallReconciled
| ModelCallStatusOther (value : string).

#[export] Instance ModelCallStatus_eq_dec : EqDecision ModelCallStatus.
Proof. solve_decision. Defined.

Inductive ReservationDisposition : Type :=
| ReservationDispositionSettle | ReservationDispositionRelease
| ReservationDispositionReconcile
| ReservationDispositionOther (value : string).

#[export] Instance ReservationDisposition_eq_dec : EqDecision ReservationDisposition.
Proof. solve_decision. Defined.

Record ModelCall : Type := mkModelCall {
  c_ID : string;
  c_TenantID : string;
  c_RequestID : string;
  c_ProjectID : string;
  c_TaskID : string;
  c_AgentInstanceID : string;
  c_Provider : string;
  c_LogicalModel : string;
  c_ActualModelVersion : string;
  c_PromptBundleVersion : string;
  c_InputSHA256 : string;
  c_OutputSHA256 : string;
  c_InputTokens : Z;
  c_OutputTokens : Z;
  c_CacheReadTokens : option Z;
  c_CacheWriteTokens : option Z;
  c_CostMicros : Z;
  c_LatencyMilliseconds : Z;
  c_Status : ModelCallStatus;
  c_ProviderRequestID : string;
  c_ReconciliationReceiptSHA256 : string;
  c_ReconciledAt : option time;
  c_CreatedAt : time
}.

#[global] Instance eta_call : Eta ModelCall := fun c => mkModelCall
  (c_ID c) (c_TenantID c) (c_RequestID c) (c_ProjectID c) (c_TaskID c) (c_AgentInstanceID c)
  (c_Provider c) (c_LogicalModel c) (c_ActualModelVersion c) (c_PromptBundleVersion c)
  (c_InputSHA256 c) (c_OutputSHA256 c) (c_InputTokens c) (c_OutputTokens c)
  (c_CacheReadTokens c) (c_CacheWriteTokens c) (c_CostMicros c) (c_LatencyMilliseconds c)
  (c_Status c) (c_ProviderRequestID c) (c_ReconciliationReceiptSHA256 c)
  (c_ReconciledAt c) (c_CreatedAt c).

Record ModelCallFinalization : Type := mkModelCallFinalization {
  f_ReservationID : string;
  f_Disposition : ReservationDisposition;
  f_ActualMicros : Z;
  f_Call : ModelCall
}.

#[global] Instance eta_finalization : Eta ModelCallFinalization := fun f =>
  mkModelCallFinalization (f_ReservationID f) (f_Disposition f) (f_ActualMicros f) (f_Call f).

Record Tokens : Type := mkTokens {
  t_InputTokens : Z;
  t_OutputTokens : Z;
  t_CacheReadTokens : option Z;
  t_CacheWriteTokens : option Z;
  t_CostMicros : Z;
  t_ProviderRequestID : string;
  t_ModelVersion : string
}.

Record ModelCallReconciliation : Type := mkModelCallReconciliation {
  n_TenantID : string;
  n_RequestID : string;
  n_ReservationID : string;
  n_Provider : string;
  n_Model : string;
  n_Usage : Tokens;
  n_ActualMicros : Z;
  n_ReceiptSHA256 : string;
  n_ReconciledAt : time
}.

(** *** The ledger *)
Record memoryBudgetAdjustment : Type := mkMemoryBudgetAdjustment {
  request : BudgetAdjustment;
  adjusted : BudgetAdjustmentResult
}.

Record BudgetLedger : Type := mkBudgetLedger {
  accounts : gmap string BudgetAccount;
  reservations : gmap string Reservation;
  reservationIDs : gmap string string;
  adjustments : gmap string memoryBudgetAdjustment;
  modelCalls : gmap string ModelCall;
  reservationTTL : duration
}.

#[global] Instance eta_ledger : Eta BudgetLedger := fun l => mkBudgetLedger
  (accounts l) (reservations l) (reservationIDs l) (adjustments l) (modelCalls l)
  (reservationTTL l).

Definition defaultReservationTTL : duration := 24 * Hour.

Definition NewBudgetLedger : BudgetLedger :=
  mkBudgetLedger ∅ ∅ ∅ ∅ ∅ defaultReservationTTL.

Definition budgetKey (tenantID id : string) : string := tenantID +:+ nul +:+ id.

(** ** Validation *)
Definition safeBudgetText (value : string) (maximum : Z) : bool :=
  (value ≠? "") && (len value <=? maximum) && (TrimSpace value ≟ value)
  && negb (has_control value).

Definition validCurrency (value : string) : bool :=
  match bytes value with
  | [a; b; c] => byte_in 65 90 a && byte_in 65 90 b && byte_in 65 90 c
  | _ => false
  end.

Definition inBudgetPeriod (at_ start : time) (end_ : option time) : bool :=
  if negb (IsZero start) && Before at_ start then false else
  match end_ with None => true | Some e => Before at_ e end.

Definition budgetPeriodOpen (at_ : time) (account : BudgetAccount) : bool :=
  if negb (IsZero (a_PeriodStart account)) && Before at_ (a_PeriodStart account) then false else
  match a_PeriodEnd account with None => true | Some e => Before at_ e end.

(** [x == ""] on optional metadata: absent or a safe text. *)
Definition optional_text (value : string) (maximum : Z) : bool :=
  (value ≟ "") || safeBudgetText value maximum.

(** [trace.TraceParent()] mapped into the ledger's errors. *)
Definition trace_error_as (e : Trace.trace_error) : budget_error :=
  match e with
  | Trace.ErrInvalidTraceContext => ErrFrom "trace context is invalid"
  | Trace.ErrRandom err => ErrFrom err
  end.

(** [prepareBudgetAdjustment]: validation, then the trace fields are filled in
    or normalised; [random16] and [random8] are what [crypto/rand] returns. *)
Definition prepareBudgetAdjustment (random16 random8 : result (list Z) string)
    (adjustment : BudgetAdjustment) : result BudgetAdjustment budget_error :=
  reject ErrInvalidRequest when
    (j_TenantID adjustment ≟ "") || (j_ProjectID adjustment ≟ "")
    || negb (safeBudgetText (j_PrincipalID adjustment) 512)
    || negb (safeBudgetText (j_IdempotencyKey adjustment) 256)
    || negb (safeBudgetText (j_Reason adjustment) 2048)
    || (j_ProjectVersion adjustment <? 0)
    || ((0 <? j_ProjectVersion adjustment) && negb (safeBudgetText (j_ProjectState adjustment) 64))
    || (j_ExpectedVersion adjustment <? 1)
    || (j_HardLimitMicros adjustment <? 0) || (j_SoftLimitMicros adjustment <? 0)
    || (j_HardLimitMicros adjustment <? j_SoftLimitMicros adjustment)
    || negb (validCurrency (j_Currency adjustment)) ;;
  reject ErrInvalidRequest when
    ((j_PolicyVersion adjustment ≠? "") && negb (safeBudgetText (j_PolicyVersion adjustment) 256))
    || ((j_PolicyRuleID adjustment ≠? "") && negb (safeBudgetText (j_PolicyRuleID adjustment) 128))
    || ((j_PolicyDecision adjustment ≠? "") && (j_PolicyDecision adjustment ≠? "ALLOW"))
    || ((j_ParameterDigest adjustment ≠? "") && negb (safeBudgetText (j_ParameterDigest adjustment) 128)) ;;
  reject ErrInvalidRequest when Nat.ltb 32 (length (j_PolicyReasons adjustment)) ;;
  reject ErrInvalidRequest when
    existsb (fun reason => negb (safeBudgetText reason 128)) (j_PolicyReasons adjustment) ;;
  if j_Traceparent adjustment ≟ "" then
    reject ErrInvalidRequest when j_Tracestate adjustment ≠? "" ;;
    match Trace.NewRootTraceContext random16 random8 false with
    | Err e => Err (trace_error_as e)
    | Ok trace =>
        match Trace.TraceParent trace with
        | Err e => Err (trace_error_as e)
        | Ok parent => Ok (adjustment ⟦ j_Traceparent := parent ⟧)
        end
    end
  else
    match Trace.ParseTraceParent (j_Traceparent adjustment) (j_Tracestate adjustment) with
    | Err _ => Err ErrInvalidRequest
    | Ok trace =>
        match Trace.TraceParent trace with
        | Err _ => Err ErrInvalidRequest
        | Ok parent =>
            Ok (adjustment ⟦ j_Traceparent := parent ⟧ ⟦ j_Tracestate := Trace.TraceState trace ⟧)
        end
    end.

Definition sameBudgetAdjustment (left right : BudgetAdjustment) : bool :=
  (j_TenantID left ≟ j_TenantID right) && (j_ProjectID left ≟ j_ProjectID right)
  && (j_PrincipalID left ≟ j_PrincipalID right)
  && (j_IdempotencyKey left ≟ j_IdempotencyKey right)
  && (j_ExpectedVersion left =? j_ExpectedVersion right)
  && (j_HardLimitMicros left =? j_HardLimitMicros right)
  && (j_SoftLimitMicros left =? j_SoftLimitMicros right)
  && (j_Currency left ≟ j_Currency right) && (j_Reason left ≟ j_Reason right).

(** ** Accounts *)

(** The defaults [CreateAccount] fills in, one statement each. *)
Definition default_scope_type (account : BudgetAccount) : BudgetAccount :=
  if a_ScopeType account ≟ "" then account ⟦ a_ScopeType := "PROJECT" ⟧ else account.
Definition default_scope_id (account : BudgetAccount) : BudgetAccount :=
  if a_ScopeID account ≟ "" then account ⟦ a_ScopeID := a_ID account ⟧ else account.
Definition default_currency (account : BudgetAccount) : BudgetAccount :=
  if a_Currency account ≟ "" then account ⟦ a_Currency := "USD" ⟧ else account.
Definition default_period_start (now : time) (account : BudgetAccount) : BudgetAccount :=
  if IsZero (a_PeriodStart account) then account ⟦ a_PeriodStart := UTC now ⟧ else account.
Definition default_version (account : BudgetAccount) : BudgetAccount :=
  if a_Version account =? 0 then account ⟦ a_Version := 1 ⟧ else account.

Definition with_defaults (now : time) (account : BudgetAccount) : BudgetAccount :=
  default_version (default_period_start now (default_currency
    (default_scope_id (default_scope_type account)))).

(** [CreateAccount]; [now] is the clock's reading. *)
Definition CreateAccount (ctx : context) (now : time) (account : BudgetAccount)
    (l : BudgetLedger) : result BudgetLedger budget_error :=
  match contextError ctx with Some e => Err e | None =>
  reject ErrInvalidRequest when
    (a_ID account ≟ "") || (a_TenantID account ≟ "") || (a_LimitMicros account <? 0)
    || (a_SoftLimitMicros account <? 0)
    || (a_LimitMicros account <? a_SoftLimitMicros account)
    || (a_ReservedMicros account <? 0) || (a_SpentMicros account <? 0)
    || (wrap64 (a_LimitMicros account - a_SpentMicros account) <? a_ReservedMicros account) ;;
  let account := with_defaults now account in
  let key := budgetKey (a_TenantID account) (a_ID account) in
  match accounts l !! key with
  | Some _ => Err ErrReservationConflict
  | None => Ok (l ⟦ accounts := <[key := account]> (accounts l) ⟧)
  end
  end.

Definition cloneBudgetAccount (account : BudgetAccount) : BudgetAccount :=
  match a_PeriodEnd account with
  | Some periodEnd => account ⟦ a_PeriodEnd := Some periodEnd ⟧
  | None => account
  end.

(** The account a reservation draws on: [l.accounts[key]], the zero account
    when it is missing. *)
Definition zero_account : BudgetAccount :=
  mkBudgetAccount "" "" "" "" "" 0 0 0 0 0 None 0.
Definition account_at (l : BudgetLedger) (key : string) : BudgetAccount :=
  default zero_account (accounts l !! key).

(** ** Reservations *)

Definition lookupReservationLocked (tenantID id : string) (l : BudgetLedger)
    : option (string * Reservation) :=
  let key := budgetKey tenantID id in
  match reservations l !! key with
  | Some reservation => Some (key, reservation)
  | None =>
      match reservationIDs l !! key with
      | None => None
      | Some generatedID =>
          let key := budgetKey tenantID generatedID in
          match reservations l !! key with
          | Some reservation => Some (key, reservation)
          | None => None
          end
      end
  end.

(** The readings of [l.clock()] inside [reserve]. *)
Inductive reading : Type := AtLookup | AtScan (key : string) | AtPeriod | AtCreated.

(** The loop over [l.reservations]: the error it returns, if any, when it meets
    the entries in the given order. *)
Fixpoint reserve_scan (tenantID accountID requestID : string) (claim : bool)
    (clock : reading -> time) (order : list (string * Reservation)) : option budget_error :=
  match order with
  | [] => None
  | (key, existing) :: rest =>
      if (r_TenantID existing ≠? tenantID) || (r_RequestID existing ≠? requestID)
      then reserve_scan tenantID accountID requestID claim clock rest else
      if (r_State existing ≟ ReservationReconcile)
         || ((r_State existing ≟ ReservationOpen)
             && negb (Before (clock (AtScan key)) (r_ExpiresAt existing)))
      then Some ErrReconciliationRequired else
      if claim then Some ErrRequestConflict else
      if r_AccountID existing ≟ accountID then Some ErrReservationConflict else
      reserve_scan tenantID accountID requestID claim clock rest
  end.

(** [reserve].  [order] lists the entries of [l.reservations] as the loop meets
    them; [generated] is what [newReservationID] returns. *)
Definition reserve (ctx : context) (clock : reading -> time)
    (order : list (string * Reservation)) (generated : result string string)
    (tenantID accountID reservationID requestID : string) (amountMicros : Z) (claim : bool)
    (l : BudgetLedger) : BudgetLedger * result (Reservation * bool) budget_error :=
  match contextError ctx with Some e => (l, Err e) | None =>
  if (tenantID ≟ "") || (accountID ≟ "") || (reservationID ≟ "") || (requestID ≟ "")
     || (amountMicros <? 0)
  then (l, Err ErrInvalidRequest) else
  match lookupReservationLocked tenantID reservationID l with
  | Some (reservationKey, existing) =>
      if (r_State existing ≟ ReservationOpen)
         && negb (Before (clock AtLookup) (r_ExpiresAt existing))
      then (l ⟦ reservations := <[reservationKey := existing ⟦ r_State := ReservationReconcile ⟧]>
                                 (reservations l) ⟧,
            Err ErrReconciliationRequired) else
      if (r_AccountID existing ≟ accountID) && (r_RequestID existing ≟ requestID)
         && (r_ReservedMicros existing =? amountMicros) && (r_State existing ≟ ReservationOpen)
      then (l, Ok (existing, negb claim)) else
      if r_State existing ≟ ReservationReconcile then (l, Err ErrReconciliationRequired)
      else (l, Err ErrReservationConflict)
  | None =>
      match reserve_scan tenantID accountID requestID claim clock order with
      | Some e => (l, Err e)
      | None =>
      let accountKey := budgetKey tenantID accountID in
      match accounts l !! accountKey with
      | None => (l, Err ErrBudgetExceeded)
      | Some account =>
      if negb (budgetPeriodOpen (UTC (clock AtPeriod)) account)
         || (wrap64 (wrap64 (a_LimitMicros account - a_ReservedMicros account)
                     - a_SpentMicros account) <? amountMicros)
      then (l, Err ErrBudgetExceeded) else
      match generated with
      | Err err => (l, Err (ErrFrom err))
      | Ok generatedID =>
      let account := account
        ⟦ a_ReservedMicros := wrap64 (a_ReservedMicros account + amountMicros) ⟧
        ⟦ a_Version := wrap64 (a_Version account + 1) ⟧ in
      let createdAt := UTC (clock AtCreated) in
      let reservation := mkReservation generatedID tenantID accountID requestID amountMicros 0
        ReservationOpen createdAt (Add createdAt (reservationTTL l)) in
      (l ⟦ accounts := <[accountKey := account]> (accounts l) ⟧
         ⟦ reservations := <[budgetKey tenantID generatedID := reservation]> (reservations l) ⟧
         ⟦ reservationIDs := <[budgetKey tenantID reservationID := generatedID]> (reservationIDs l) ⟧,
       Ok (reservation, true))
      end end end
  end
  end.

Definition Reserve ctx clock order generated tenantID accountID reservationID requestID
    amountMicros (l : BudgetLedger) : BudgetLedger * result Reservation budget_error :=
  let '(l, r) := reserve ctx clock order generated tenantID accountID reservationID requestID
                   amountMicros false l in
  (l, reservation <-! r ;; Ok (fst reservation)).

Definition ClaimReservation ctx clock order generated tenantID accountID reservationID requestID
    amountMicros (l : BudgetLedger) : BudgetLedger * result (Reservation * bool) budget_error :=
  reserve ctx clock order generated tenantID accountID reservationID requestID amountMicros true l.

(** The statements [Settle], [Reconcile], [finalizeModelCall] and
    [ReconcileModelCall] share: the account pays, the reservation is settled. *)
Definition settle_reservation (accountKey : string) (account : BudgetAccount)
    (reservationKey : string) (reservation : Reservation) (actualMicros : Z)
    (l : BudgetLedger) : BudgetLedger * Reservation :=
  let account := account
    ⟦ a_ReservedMicros := wrap64 (a_ReservedMicros account - r_ReservedMicros reservation) ⟧
    ⟦ a_SpentMicros := wrap64 (a_SpentMicros account + actualMicros) ⟧
    ⟦ a_Version := wrap64 (a_Version account + 1) ⟧ in
  let reservation := reservation ⟦ r_SettledMicros := actualMicros ⟧
                                 ⟦ r_State := ReservationSettled ⟧ in
  (l ⟦ accounts := <[accountKey := account]> (accounts l) ⟧
     ⟦ reservations := <[reservationKey := reservation]> (reservations l) ⟧, reservation).

(** The statements [Release] and [finalizeModelCall] share. *)
Definition release_reservation (accountKey : string) (account : BudgetAccount)
    (reservationKey : string) (reservation : Reservation)
    (l : BudgetLedger) : BudgetLedger * Reservation :=
  let account := account
    ⟦ a_ReservedMicros := wrap64 (a_ReservedMicros account - r_ReservedMicros reservation) ⟧
    ⟦ a_Version := wrap64 (a_Version account + 1) ⟧ in
  let reservation := reservation ⟦ r_State := ReservationReleased ⟧ in
  (l ⟦ accounts := <[accountKey := account]> (accounts l) ⟧
     ⟦ reservations := <[reservationKey := reservation]> (reservations l) ⟧, reservation).

(** The account cannot cover the settlement. *)
Definition cannot_settle (account : BudgetAccount) (reservation : Reservation)
    (actualMicros : Z) : bool :=
  (a_ReservedMicros account <? r_ReservedMicros reservation)
  || (wrap64 (a_LimitMicros account - a_SpentMicros account) <? actualMicros).

Definition Settle (ctx : context) (tenantID reservationID : string) (actualMicros : Z)
    (l : BudgetLedger) : result (BudgetLedger * Reservation) budget_error :=
  match contextError ctx with Some e => Err e | None =>
  reject ErrInvalidRequest when
    (tenantID ≟ "") || (reservationID ≟ "") || (actualMicros <? 0) ;;
  match lookupReservationLocked tenantID reservationID l with
  | None => Err ErrReservationNotFound
  | Some (reservationKey, reservation) =>
  if r_State reservation ≟ ReservationSettled then
    if r_SettledMicros reservation =? actualMicros then Ok (l, reservation)
    else Err ErrReservationConflict
  else
  reject ErrReservationConflict when r_State reservation ≠? ReservationOpen ;;
  let accountKey := budgetKey tenantID (r_AccountID reservation) in
  let account := account_at l accountKey in
  reject ErrBudgetExceeded when cannot_settle account reservation actualMicros ;;
  Ok (settle_reservation accountKey account reservationKey reservation actualMicros l)
  end
  end.

Definition Release (ctx : context) (tenantID reservationID : string)
    (l : BudgetLedger) : result BudgetLedger budget_error :=
  match contextError ctx with Some e => Err e | None =>
  reject ErrInvalidRequest when (tenantID ≟ "") || (reservationID ≟ "") ;;
  match lookupReservationLocked tenantID reservationID l with
  | None => Err ErrReservationNotFound
  | Some (reservationKey, reservation) =>
  if r_State reservation ≟ ReservationReleased then Ok l else
  reject ErrReservationConflict when r_State reservation ≠? ReservationOpen ;;
  let accountKey := budgetKey tenantID (r_AccountID reservation) in
  let account := account_at l accountKey in
  reject ErrReservationConflict when a_ReservedMicros account <? r_ReservedMicros reservation ;;
  Ok (fst (release_reservation accountKey account reservationKey reservation l))
  end
  end.

Definition Reconcile (ctx : context) (tenantID reservationID : string) (actualMicros : Z)
    (l : BudgetLedger) : result (BudgetLedger * Reservation) budget_error :=
  match contextError ctx with Some e => Err e | None =>
  reject ErrInvalidRequest when
    (tenantID ≟ "") || (reservationID ≟ "") || (actualMicros <? 0) ;;
  match lookupReservationLocked tenantID reservationID l with
  | None => Err ErrReservationNotFound
  | Some (reservationKey, reservation) =>
  if r_State reservation ≟ ReservationSettled then
    if r_SettledMicros reservation =? actualMicros then Ok (l, reservation)
    else Err ErrReservationConflict
  else
  reject ErrReservationConflict when
    (r_State reservation ≠? ReservationOpen) && (r_State reservation ≠? ReservationReconcile) ;;
  let accountKey := budgetKey tenantID (r_AccountID reservation) in
  let account := account_at l accountKey in
  reject ErrBudgetExceeded when cannot_settle account reservation actualMicros ;;
  Ok (settle_reservation accountKey account reservationKey reservation actualMicros l)
  end
  end.

(** [reservation.State = ReservationReconcile], stored back. *)
Definition park_reservation (key : string) (reservation : Reservation) (l : BudgetLedger)
    : BudgetLedger * Reservation :=
  let reservation := reservation ⟦ r_State := ReservationReconcile ⟧ in
  (l ⟦ reservations := <[key := reservation]> (reservations l) ⟧, reservation).

Definition RequireReconciliation (ctx : context) (tenantID reservationID : string)
    (l : BudgetLedger) : result (BudgetLedger * Reservation) budget_error :=
  match contextError ctx with Some e => Err e | None =>
  reject ErrInvalidRequest when (tenantID ≟ "") || (reservationID ≟ "") ;;
  match lookupReservationLocked tenantID reservationID l with
  | None => Err ErrReservationNotFound
  | Some (key, reservation) =>
  if r_State reservation ≟ ReservationReconcile then Ok (l, reservation) else
  reject ErrReservationConflict when r_State reservation ≠? ReservationOpen ;;
  Ok (park_reservation key reservation l)
  end
  end.

Definition Reservation_lookup (tenantID id : string) (l : BudgetLedger) : option Reservation :=
  match lookupReservationLocked tenantID id l with
  | Some (_, reservation) => Some reservation
  | None => None
  end.

(** The comparison [ExpireReservations] sorts its candidates with. *)
Definition expires_first (left right : Reservation) : bool :=
  if Equal (r_ExpiresAt left) (r_ExpiresAt right) then String.ltb (r_ID left) (r_ID right)
  else Before (r_ExpiresAt left) (r_ExpiresAt right).

Definition expired_open (tenantID : string) (now : time) (reservation : Reservation) : bool :=
  (r_TenantID reservation ≟ tenantID) && (r_State reservation ≟ ReservationOpen)
  && negb (Before now (r_ExpiresAt reservation)).

Definition ExpireReservations (ctx : context) (now : time) (tenantID : string) (limit : Z)
    (l : BudgetLedger) : result (BudgetLedger * list Reservation) budget_error :=
  match contextError ctx with Some e => Err e | None =>
  reject ErrInvalidRequest when (tenantID ≟ "") || (limit <=? 0) ;;
  let candidates := List.filter (expired_open tenantID (UTC now))
                      (map snd (map_to_list (reservations l))) in
  let candidates := sort_slice expires_first candidates in
  let candidates := if limit <? Z.of_nat (length candidates)
                    then take (Z.to_nat limit) candidates else candidates in
  let candidates := map (fun c => c ⟦ r_State := ReservationReconcile ⟧) candidates in
  Ok (l ⟦ reservations := foldl (fun m c => <[budgetKey tenantID (r_ID c) := c]> m)
                            (reservations l) candidates ⟧, candidates)
  end.

(** ** Administration *)
Definition Account_lookup (tenantID id : string) (l : BudgetLedger) : option BudgetAccount :=
  accounts l !! budgetKey tenantID id.

Definition project_account (tenantID projectID : string) (account : BudgetAccount) : bool :=
  (a_TenantID account ≟ tenantID) && (a_ScopeType account ≟ "PROJECT")
  && (a_ScopeID account ≟ projectID).

Definition ListAccounts (ctx : context) (tenantID projectID : string) (l : BudgetLedger)
    : result (list BudgetAccount) budget_error :=
  match contextError ctx with Some e => Err e | None =>
  reject ErrInvalidRequest when (tenantID ≟ "") || (projectID ≟ "") ;;
  let accounts := map cloneBudgetAccount
    (List.filter (project_account tenantID projectID) (map snd (map_to_list (accounts l)))) in
  Ok (sort_slice (fun left right => String.ltb (a_ID left) (a_ID right)) accounts)
  end.

(** The loop of [projectAccountLocked]: the account found so far. *)
Fixpoint find_project_account (tenantID projectID : string) (found : option BudgetAccount)
    (candidates : list BudgetAccount) : result (option BudgetAccount) budget_error :=
  match candidates with
  | [] => Ok found
  | candidate :: rest =>
      if negb (project_account tenantID projectID candidate)
      then find_project_account tenantID projectID found rest else
      match found with
      | Some _ => Err ErrBudgetAccountConflict
      | None => find_project_account tenantID projectID (Some candidate) rest
      end
  end.

Definition projectAccountLocked (tenantID projectID : string) (l : BudgetLedger)
    : result (option BudgetAccount) budget_error :=
  find_project_account tenantID projectID None (map snd (map_to_list (accounts l))).

Definition usageFromAccount (account : BudgetAccount) : BudgetUsage :=
  let remaining := wrap64 (wrap64 (a_LimitMicros account - a_SpentMicros account)
                           - a_ReservedMicros account) in
  let remaining := if remaining <? 0 then 0 else remaining in
  mkBudgetUsage (a_ID account) (a_Currency account) (a_LimitMicros account)
    (a_SoftLimitMicros account) (a_SpentMicros account) (a_ReservedMicros account) remaining
    (a_Version account) 0 0 0 0 0.

Definition count_reservation (account : BudgetAccount) (_ : string) (reservation : Reservation)
    (usage : BudgetUsage) : BudgetUsage :=
  if (r_TenantID reservation ≟ a_TenantID account) && (r_AccountID reservation ≟ a_ID account)
     && inBudgetPeriod (r_CreatedAt reservation) (a_PeriodStart account) (a_PeriodEnd account)
  then usage ⟦ u_ReservationCount := wrap64 (u_ReservationCount usage + 1) ⟧
  else usage.

Definition count_call (account : BudgetAccount) (_ : string) (call : ModelCall)
    (usage : BudgetUsage) : BudgetUsage :=
  if (c_TenantID call ≟ a_TenantID account) && (c_ProjectID call ≟ a_ScopeID account)
     && inBudgetPeriod (c_CreatedAt call) (a_PeriodStart account) (a_PeriodEnd account)
  then usage ⟦ u_CallCount := wrap64 (u_CallCount usage + 1) ⟧
             ⟦ u_InputTokens := wrap64 (u_InputTokens usage + c_InputTokens call) ⟧
             ⟦ u_OutputTokens := wrap64 (u_OutputTokens usage + c_OutputTokens call) ⟧
             ⟦ u_CostMicros := wrap64 (u_CostMicros usage + c_CostMicros call) ⟧
  else usage.

(** The two loops only count and add, so their order does not matter. *)
Definition usageFromAccountLocked (account : BudgetAccount) (l : BudgetLedger) : BudgetUsage :=
  map_fold (count_call account)
    (map_fold (count_reservation account) (usageFromAccount account) (reservations l))
    (modelCalls l).

Definition Usage_of (ctx : context) (tenantID projectID : string) (l : BudgetLedger)
    : result BudgetUsage budget_error :=
  match contextError ctx with Some e => Err e | None =>
  reject ErrInvalidRequest when (tenantID ≟ "") || (projectID ≟ "") ;;
  found <-! projectAccountLocked tenantID projectID l ;;
  account <-? found else ErrBudgetAccountNotFound ;;
  Ok (usageFromAccountLocked account l)
  end.

Definition adjustmentKey (adjustment : BudgetAdjustment) : string :=
  budgetKey (j_TenantID adjustment)
    (j_PrincipalID adjustment +:+ nul +:+ j_IdempotencyKey adjustment).

Definition Adjust (ctx : context) (random16 random8 : result (list Z) string) (now : time)
    (adjustment : BudgetAdjustment) (l : BudgetLedger)
    : result (BudgetLedger * BudgetAdjustmentResult) budget_error :=
  match contextError ctx with Some e => Err e | None =>
  adjustment <-! prepareBudgetAdjustment random16 random8 adjustment ;;
  match adjustments l !! adjustmentKey adjustment with
  | Some prior =>
      reject ErrBudgetIdempotencyConflict when
        negb (sameBudgetAdjustment (request prior) adjustment) ;;
      let result := adjusted prior in
      Ok (l, result ⟦ Account := cloneBudgetAccount (Account result) ⟧ ⟦ Duplicate := true ⟧)
  | None =>
      found <-! projectAccountLocked (j_TenantID adjustment) (j_ProjectID adjustment) l ;;
      account <-? found else ErrBudgetAccountNotFound ;;
      reject ErrBudgetVersionConflict when
        negb (a_Version account =? j_ExpectedVersion adjustment) ;;
      reject ErrBudgetCurrencyConflict when j_Currency adjustment ≠? a_Currency account ;;
      reject ErrBudgetPeriodClosed when negb (budgetPeriodOpen (UTC now) account) ;;
      reject ErrBudgetLimitConflict when
        (j_HardLimitMicros adjustment <? j_SoftLimitMicros adjustment)
        || (j_HardLimitMicros adjustment
            <? wrap64 (a_SpentMicros account + a_ReservedMicros account)) ;;
      let account := account
        ⟦ a_LimitMicros := j_HardLimitMicros adjustment ⟧
        ⟦ a_SoftLimitMicros := j_SoftLimitMicros adjustment ⟧
        ⟦ a_Version := wrap64 (a_Version account + 1) ⟧ in
      let l := l ⟦ accounts := <[budgetKey (j_TenantID adjustment) (a_ID account) := account]>
                                 (accounts l) ⟧ in
      let result := mkBudgetAdjustmentResult (cloneBudgetAccount account)
                      (usageFromAccountLocked account l) false in
      Ok (l ⟦ adjustments := <[adjustmentKey adjustment :=
                mkMemoryBudgetAdjustment adjustment result]> (adjustments l) ⟧, result)
  end
  end.

(** ** Model calls *)
Definition validDisposition (value : ReservationDisposition) : bool :=
  match value with ReservationDispositionOther _ => false | _ => true end.

Definition validModelCallStatus (value : ModelCallStatus) : bool :=
  match value with ModelCallStatusOther _ => false | _ => true end.

(** [strings.Trim(hex, "0123456789abcdef") == ""]: only such bytes. *)
Definition validModelDigest (value : string) : bool :=
  (len value =? 71) && HasPrefix value "sha256:"
  && forallb (fun c => byte_in 48 57 c || byte_in 97 102 c) (bytes (slice_from 7 value)).

Definition negative (o : option Z) : bool :=
  match o with Some v => v <? 0 | None => false end.

Definition unsafe_text (value : string) : bool := (512 <? len value) || has_control value.

(** [ModelCallFinalization.validate() == nil]. *)
Definition finalization_valid (finalization : ModelCallFinalization) : bool :=
  if (f_ReservationID finalization ≟ "") || (f_ActualMicros finalization <? 0)
     || negb (validDisposition (f_Disposition finalization)) then false else
  let call := f_Call finalization in
  if (c_TenantID call ≟ "") || (c_RequestID call ≟ "") || (c_ProjectID call ≟ "")
     || (c_AgentInstanceID call ≟ "") || (c_Provider call ≟ "") || (c_LogicalModel call ≟ "")
     || (c_ActualModelVersion call ≟ "") || (c_PromptBundleVersion call ≟ "")
     || negb (validModelDigest (c_InputSHA256 call))
     || ((c_OutputSHA256 call ≠? "") && negb (validModelDigest (c_OutputSHA256 call)))
     || (c_InputTokens call <? 0) || (c_OutputTokens call <? 0) || (c_CostMicros call <? 0)
     || (c_LatencyMilliseconds call <? 0) || negb (validModelCallStatus (c_Status call))
     || IsZero (c_CreatedAt call) || (c_ReconciliationReceiptSHA256 call ≠? "")
     || negb (is_nil (c_ReconciledAt call)) then false else
  if existsb unsafe_text
       [c_TenantID call; c_RequestID call; c_ProjectID call; c_TaskID call;
        c_AgentInstanceID call; c_Provider call; c_LogicalModel call; c_ActualModelVersion call;
        c_PromptBundleVersion call; c_ProviderRequestID call] then false else
  if negative (c_CacheReadTokens call) || negative (c_CacheWriteTokens call) then false else
  match f_Disposition finalization with
  | ReservationDispositionSettle =>
      negb ((c_Status call ≟ ModelCallReconcile) || (c_Status call ≟ ModelCallReconciled)
            || negb (c_CostMicros call =? f_ActualMicros finalization))
  | ReservationDispositionRelease =>
      negb (negb (f_ActualMicros finalization =? 0) || negb (c_CostMicros call =? 0)
            || (c_Status call ≠? ModelCallFailedProvider))
  | ReservationDispositionReconcile => c_Status call ≟ ModelCallReconcile
  | ReservationDispositionOther _ => true
  end.

Definition equalOptionalInt64 (left right : option Z) : bool :=
  match left, right with
  | Some l, Some r => l =? r
  | None, None => true
  | _, _ => false
  end.

Definition equalOptionalTime (left right : option time) : bool :=
  match left, right with
  | Some l, Some r => Equal l r
  | None, None => true
  | _, _ => false
  end.

Definition sameModelCall (left right : ModelCall) : bool :=
  (c_TenantID left ≟ c_TenantID right) && (c_RequestID left ≟ c_RequestID right)
  && (c_ProjectID left ≟ c_ProjectID right) && (c_TaskID left ≟ c_TaskID right)
  && (c_AgentInstanceID left ≟ c_AgentInstanceID right) && (c_Provider left ≟ c_Provider right)
  && (c_LogicalModel left ≟ c_LogicalModel right)
  && (c_ActualModelVersion left ≟ c_ActualModelVersion right)
  && (c_PromptBundleVersion left ≟ c_PromptBundleVersion right)
  && (c_InputSHA256 left ≟ c_InputSHA256 right) && (c_OutputSHA256 left ≟ c_OutputSHA256 right)
  && (c_InputTokens left =? c_InputTokens right) && (c_OutputTokens left =? c_OutputTokens right)
  && equalOptionalInt64 (c_CacheReadTokens left) (c_CacheReadTokens right)
  && equalOptionalInt64 (c_CacheWriteTokens left) (c_CacheWriteTokens right)
  && (c_CostMicros left =? c_CostMicros right)
  && (c_LatencyMilliseconds left =? c_LatencyMilliseconds right)
  && (c_Status left ≟ c_Status right) && (c_ProviderRequestID left ≟ c_ProviderRequestID right)
  && (c_ReconciliationReceiptSHA256 left ≟ c_ReconciliationReceiptSHA256 right)
  && equalOptionalTime (c_ReconciledAt left) (c_ReconciledAt right)
  && Equal (c_CreatedAt left) (c_CreatedAt right).

(** The call as recorded: the given one, with the generated identifier when it
    has none. *)
Definition with_id (generated : result string string) (call : ModelCall) : result ModelCall budget_error :=
  if c_ID call ≟ "" then
    match generated with
    | Err err => Err (ErrFrom err)
    | Ok id => Ok (call ⟦ c_ID := id ⟧)
    end
  else Ok call.

(** [FinalizeModelCall], that is [finalizeModelCall] without a replay;
    [generated] is what [newModelCallID] returns. *)
Definition FinalizeModelCall (ctx : context) (generated : result string string)
    (finalization : ModelCallFinalization) (l : BudgetLedger)
    : result (BudgetLedger * Reservation) budget_error :=
  match contextError ctx with Some e => Err e | None =>
  reject ErrInvalidRequest when negb (finalization_valid finalization) ;;
  call <-! with_id generated (f_Call finalization) ;;
  let callKey := budgetKey (c_TenantID call) (c_RequestID call) in
  match modelCalls l !! callKey with
  | Some existing =>
      reject ErrReservationConflict when negb (sameModelCall existing call) ;;
      match lookupReservationLocked (c_TenantID call) (f_ReservationID finalization) l with
      | None => Err ErrReservationNotFound
      | Some (_, reservation) => Ok (l, reservation)
      end
  | None =>
  match lookupReservationLocked (c_TenantID call) (f_ReservationID finalization) l with
  | None => Err ErrReservationNotFound
  | Some (reservationKey, reservation) =>
  reject ErrReservationConflict when r_RequestID reservation ≠? c_RequestID call ;;
  let accountKey := budgetKey (c_TenantID call) (r_AccountID reservation) in
  account <-? accounts l !! accountKey else ErrBudgetExceeded ;;
  moved <-! match f_Disposition finalization with
    | ReservationDispositionSettle =>
        if r_State reservation ≟ ReservationSettled then
          reject ErrReservationConflict when
            negb (r_SettledMicros reservation =? f_ActualMicros finalization) ;;
          Ok (l, reservation)
        else
          reject ErrReservationConflict when
            (r_State reservation ≠? ReservationOpen)
            || cannot_settle account reservation (f_ActualMicros finalization) ;;
          Ok (settle_reservation accountKey account reservationKey reservation
                (f_ActualMicros finalization) l)
    | ReservationDispositionRelease =>
        if r_State reservation ≟ ReservationReleased then Ok (l, reservation) else
        reject ErrReservationConflict when
          (r_State reservation ≠? ReservationOpen)
          || (a_ReservedMicros account <? r_ReservedMicros reservation) ;;
        Ok (release_reservation accountKey account reservationKey reservation l)
    | ReservationDispositionReconcile =>
        if r_State reservation ≠? ReservationReconcile then
          reject ErrReservationConflict when r_State reservation ≠? ReservationOpen ;;
          Ok (park_reservation reservationKey reservation l)
        else Ok (l, reservation)
    | ReservationDispositionOther _ => Ok (l, reservation)
    end ;;
  let '(l, reservation) := moved in
  Ok (l ⟦ modelCalls := <[callKey := call]> (modelCalls l) ⟧, reservation)
  end
  end
  end.

Definition ModelCall_lookup (tenantID requestID : string) (l : BudgetLedger) : option ModelCall :=
  modelCalls l !! budgetKey tenantID requestID.

(** [ModelCallReconciliation.validate() == nil]. *)
Definition reconciliation_valid (reconciliation : ModelCallReconciliation) : bool :=
  let usage := n_Usage reconciliation in
  if (n_TenantID reconciliation ≟ "") || (n_RequestID reconciliation ≟ "")
     || (n_ReservationID reconciliation ≟ "") || (n_Provider reconciliation ≟ "")
     || (n_Model reconciliation ≟ "") || (t_ProviderRequestID usage ≟ "")
     || (t_ModelVersion usage ≟ "") || (t_InputTokens usage <? 0) || (t_OutputTokens usage <? 0)
     || (t_CostMicros usage <? 0) || negative (t_CacheReadTokens usage)
     || negative (t_CacheWriteTokens usage) || (n_ActualMicros reconciliation <? 0)
     || negb (validModelDigest (n_ReceiptSHA256 reconciliation))
     || IsZero (n_ReconciledAt reconciliation) then false else
  negb (existsb unsafe_text
    [n_TenantID reconciliation; n_RequestID reconciliation; n_ReservationID reconciliation;
     n_Provider reconciliation; n_Model reconciliation; t_ProviderRequestID usage;
     t_ModelVersion usage]).

Definition sameReconciliation (call : ModelCall) (reconciliation : ModelCallReconciliation)
    : bool :=
  let usage := n_Usage reconciliation in
  (c_Status call ≟ ModelCallReconciled) && (c_InputTokens call =? t_InputTokens usage)
  && (c_OutputTokens call =? t_OutputTokens usage)
  && equalOptionalInt64 (c_CacheReadTokens call) (t_CacheReadTokens usage)
  && equalOptionalInt64 (c_CacheWriteTokens call) (t_CacheWriteTokens usage)
  && (c_CostMicros call =? n_ActualMicros reconciliation)
  && (c_ProviderRequestID call ≟ t_ProviderRequestID usage)
  && (c_ActualModelVersion call ≟ t_ModelVersion usage)
  && (c_ReconciliationReceiptSHA256 call ≟ n_ReceiptSHA256 reconciliation).

(** A pointer to a copy: the same value. *)
Definition cloneOptionalInt64 (value : option Z) : option Z :=
  match value with None => None | Some v => Some v end.

Definition applyReconciliation (call : ModelCall) (reconciliation : ModelCallReconciliation)
    : ModelCall :=
  let usage := n_Usage reconciliation in
  call ⟦ c_InputTokens := t_InputTokens usage ⟧
       ⟦ c_OutputTokens := t_OutputTokens usage ⟧
       ⟦ c_CacheReadTokens := cloneOptionalInt64 (t_CacheReadTokens usage) ⟧
       ⟦ c_CacheWriteTokens := cloneOptionalInt64 (t_CacheWriteTokens usage) ⟧
       ⟦ c_CostMicros := n_ActualMicros reconciliation ⟧
       ⟦ c_ProviderRequestID := t_ProviderRequestID usage ⟧
       ⟦ c_ActualModelVersion := t_ModelVersion usage ⟧
       ⟦ c_Status := ModelCallReconciled ⟧
       ⟦ c_ReconciliationReceiptSHA256 := n_ReceiptSHA256 reconciliation ⟧
       ⟦ c_ReconciledAt := Some (UTC (n_ReconciledAt reconciliation)) ⟧.

Definition ReconcileModelCall (ctx : context) (reconciliation : ModelCallReconciliation)
    (l : BudgetLedger) : result (BudgetLedger * Reservation) budget_error :=
  match contextError ctx with Some e => Err e | None =>
  reject ErrInvalidRequest when negb (reconciliation_valid reconciliation) ;;
  let callKey := budgetKey (n_TenantID reconciliation) (n_RequestID reconciliation) in
  call <-? modelCalls l !! callKey else ErrRequestConflict ;;
  reject ErrRequestConflict when
    (c_Provider call ≠? n_Provider reconciliation)
    || (c_LogicalModel call ≠? n_Model reconciliation) ;;
  match lookupReservationLocked (n_TenantID reconciliation) (n_ReservationID reconciliation) l with
  | None => Err ErrReservationNotFound
  | Some (reservationKey, reservation) =>
  reject ErrReservationConflict when r_RequestID reservation ≠? n_RequestID reconciliation ;;
  if c_Status call ≟ ModelCallReconciled then
    reject ErrReservationConflict when
      (r_State reservation ≠? ReservationSettled)
      || negb (r_SettledMicros reservation =? n_ActualMicros reconciliation)
      || negb (sameReconciliation call reconciliation) ;;
    Ok (l, reservation)
  else
  reject ErrReservationConflict when
    (c_Status call ≠? ModelCallReconcile) || (r_State reservation ≠? ReservationReconcile) ;;
  let accountKey := budgetKey (n_TenantID reconciliation) (r_AccountID reservation) in
  account <-? accounts l !! accountKey else ErrBudgetExceeded ;;
  reject ErrBudgetExceeded when
    cannot_settle account reservation (n_ActualMicros reconciliation) ;;
  let '(l, reservation) := settle_reservation accountKey account reservationKey reservation
                             (n_ActualMicros reconciliation) l in
  Ok (l ⟦ modelCalls := <[callKey := applyReconciliation call reconciliation]> (modelCalls l) ⟧,
      reservation)
  end
  end.
End Budget.
