(* ===== verification/BudgetBooks.v ===== *)
(** The abstract specification of the budget ledger: the books (accounts and
    reservations) and the six moves a ledger may make on them, with their
    invariant; and the refinement of every ledger operation to those moves. *)

From S2P Require Import Prelude GoLib Trace Runs Budget.

Module BudgetBooks.
Import Budget.

(** ** Sums over a map *)
Definition map_total {A} (f : A -> Z) (m : gmap string A) : Z :=
  map_fold (fun _ x acc => f x + acc) 0 m.

Lemma map_total_empty {A} (f : A -> Z) : map_total f ∅ = 0.
Proof. apply map_fold_empty. Qed.

Lemma map_total_insert {A} (f : A -> Z) m k x :
  m !! k = None -> map_total f (<[k := x]> m) = f x + map_total f m.
Proof.
  intros Hk. unfold map_total. rewrite map_fold_insert_L; [done | intros; lia | done].
Qed.

Lemma map_total_delete {A} (f : A -> Z) m k x :
  m !! k = Some x -> map_total f m = f x + map_total f (delete k m).
Proof.
  intros Hk. unfold map_total.
  rewrite (map_fold_delete_L _ _ k x m); [done | intros; lia | done].
Qed.

Lemma map_total_update {A} (f : A -> Z) m k x y :
  m !! k = Some x -> map_total f (<[k := y]> m) = map_total f m - f x + f y.
Proof.
  intros Hk. rewrite (map_total_delete f m k x Hk), <- insert_delete_eq.
  rewrite map_total_insert by apply lookup_delete_eq. lia.
Qed.

Lemma map_total_ext {A} (f g : A -> Z) m :
  (forall k x, m !! k = Some x -> f x = g x) -> map_total f m = map_total g m.
Proof.
  induction m as [|k x m Hk IH] using map_ind; intros Hfg; [by rewrite !map_total_empty|].
  rewrite !map_total_insert by done. rewrite (Hfg k x) by apply lookup_insert_eq.
  f_equal. apply IH. intros k' x' Hk'. apply (Hfg k'). rewrite lookup_insert_ne; [done|congruence].
Qed.

Lemma map_total_zero {A} (f : A -> Z) m :
  (forall k x, m !! k = Some x -> f x = 0) -> map_total f m = 0.
Proof.
  intros H. rewrite (map_total_ext f (fun _ => 0)) by done.
  unfold map_total. clear H. induction m as [|k x m Hk IH] using map_ind; [apply map_fold_empty|].
  rewrite map_fold_insert_L by (done || intros; lia). lia.
Qed.

Lemma map_total_nonneg {A} (f : A -> Z) m :
  (forall k x, m !! k = Some x -> 0 <= f x) -> 0 <= map_total f m.
Proof.
  induction m as [|k x m Hk IH] using map_ind; intros Hf; [by rewrite map_total_empty|].
  rewrite map_total_insert by done.
  assert (0 <= f x) by (apply (Hf k); apply lookup_insert_eq).
  assert (0 <= map_total f m); [|lia]. apply IH. intros k' x' Hk'.
  apply (Hf k'). rewrite lookup_insert_ne; [done|congruence].
Qed.

(** One entry is at most the sum. *)
Lemma map_total_le {A} (f : A -> Z) m k x :
  (forall k x, m !! k = Some x -> 0 <= f x) -> m !! k = Some x -> f x <= map_total f m.
Proof.
  intros Hf Hk. rewrite (map_total_delete f m k x Hk).
  assert (0 <= map_total f (delete k m)); [|lia]. apply map_total_nonneg.
  intros k' x' [_ Hk']%lookup_delete_Some. by apply (Hf k').
Qed.

(** ** Composite keys *)
Lemma budgetKey_inj t i t' i' :
  no_nul t = true -> no_nul t' = true -> budgetKey t i = budgetKey t' i' -> t = t' /\ i = i'.
Proof. apply nul_prefix_inj. Qed.

(** ** The books *)
Record books : Type := mkBooks {
  accs : gmap string BudgetAccount;
  ress : gmap string Reservation
}.

Definition books_of (l : BudgetLedger) : books := mkBooks (accounts l) (reservations l).

(** Where a reservation is booked, and what it holds of its account or cost. *)
Definition account_key (r : Reservation) : string := budgetKey (r_TenantID r) (r_AccountID r).

Definition holds (r : Reservation) : bool :=
  (r_State r ≟ ReservationOpen) || (r_State r ≟ ReservationReconcile).

Definition held_by (k : string) (r : Reservation) : Z :=
  if (account_key r ≟ k) && holds r then r_ReservedMicros r else 0.
Definition settled_by (k : string) (r : Reservation) : Z :=
  if (account_key r ≟ k) && (r_State r ≟ ReservationSettled) then r_SettledMicros r else 0.

Definition held (b : books) (k : string) : Z := map_total (held_by k) (ress b).
Definition settled (b : books) (k : string) : Z := map_total (settled_by k) (ress b).

(** Amounts below this bound never overflow when two of them are added. *)
Definition limit_bound : Z := 4611686018427387904.

Definition account_ok (k : string) (a : BudgetAccount) : Prop :=
  k = budgetKey (a_TenantID a) (a_ID a) /\ no_nul (a_TenantID a) = true /\
  0 <= a_ReservedMicros a <= a_LimitMicros a /\ 0 <= a_SpentMicros a <= a_LimitMicros a /\
  a_LimitMicros a < limit_bound.

Definition reservation_ok (k : string) (r : Reservation) : Prop :=
  k = budgetKey (r_TenantID r) (r_ID r) /\ no_nul (r_TenantID r) = true /\
  0 <= r_ReservedMicros r /\ 0 <= r_SettledMicros r.

Record wf (b : books) : Prop := {
  wf_account : forall k a, accs b !! k = Some a -> account_ok k a;
  wf_reservation : forall k r, ress b !! k = Some r -> reservation_ok k r;
  wf_booked : forall k r, ress b !! k = Some r -> is_Some (accs b !! account_key r);
  wf_held : forall k a, accs b !! k = Some a -> held b k <= a_ReservedMicros a
}.

(** ** The moves *)
Definition charge (reserved spent : Z) (a : BudgetAccount) : BudgetAccount :=
  a ⟦ a_ReservedMicros := reserved ⟧ ⟦ a_SpentMicros := spent ⟧
    ⟦ a_Version := wrap64 (a_Version a + 1) ⟧.

Inductive move (b : books) : books -> Prop :=
| move_create k a :
    accs b !! k = None -> account_ok k a ->
    a_ReservedMicros a + a_SpentMicros a <= a_LimitMicros a ->
    move b (mkBooks (<[k := a]> (accs b)) (ress b))
| move_open a k r :
    accs b !! account_key r = Some a -> ress b !! k = None -> reservation_ok k r ->
    r_State r = ReservationOpen ->
    a_ReservedMicros a + a_SpentMicros a + r_ReservedMicros r <= a_LimitMicros a ->
    move b (mkBooks (<[account_key r :=
                       charge (a_ReservedMicros a + r_ReservedMicros r) (a_SpentMicros a) a]> (accs b))
                    (<[k := r]> (ress b)))
| move_settle a k r actual :
    ress b !! k = Some r -> accs b !! account_key r = Some a -> holds r = true ->
    0 <= actual -> a_SpentMicros a + actual <= a_LimitMicros a ->
    move b (mkBooks (<[account_key r :=
                       charge (a_ReservedMicros a - r_ReservedMicros r)
                              (a_SpentMicros a + actual) a]> (accs b))
                    (<[k := r ⟦ r_SettledMicros := actual ⟧ ⟦ r_State := ReservationSettled ⟧]> (ress b)))
| move_release a k r :
    ress b !! k = Some r -> accs b !! account_key r = Some a -> r_State r = ReservationOpen ->
    move b (mkBooks (<[account_key r :=
                       charge (a_ReservedMicros a - r_ReservedMicros r) (a_SpentMicros a) a]> (accs b))
                    (<[k := r ⟦ r_State := ReservationReleased ⟧]> (ress b)))
| move_park k r :
    ress b !! k = Some r -> r_State r = ReservationOpen ->
    move b (mkBooks (accs b) (<[k := r ⟦ r_State := ReservationReconcile ⟧]> (ress b)))
| move_adjust k a hard soft :
    accs b !! k = Some a -> 0 <= soft <= hard -> hard < limit_bound ->
    a_SpentMicros a + a_ReservedMicros a <= hard ->
    move b (mkBooks (<[k := a ⟦ a_LimitMicros := hard ⟧ ⟦ a_SoftLimitMicros := soft ⟧
                              ⟦ a_Version := wrap64 (a_Version a + 1) ⟧]> (accs b)) (ress b)).

(** What is held of an account covers each of its holding reservations. *)
Lemma held_by_nonneg b k : wf b -> forall k' r, ress b !! k' = Some r -> 0 <= held_by k r.
Proof.
  intros W k' r Hr. destruct (wf_reservation _ W _ _ Hr) as (_ & _ & H & _).
  unfold held_by. by case_match.
Qed.

Lemma held_covers b k r a :
  wf b -> ress b !! k = Some r -> holds r = true -> accs b !! account_key r = Some a ->
  r_ReservedMicros r <= held b (account_key r) <= a_ReservedMicros a.
Proof.
  intros W Hr Hh Ha. split; [|by apply wf_held].
  replace (r_ReservedMicros r) with (held_by (account_key r) r)
    by (unfold held_by; rewrite Hh; by rewrite bool_decide_eq_true_2).
  apply (map_total_le _ _ k); [|done]. by apply held_by_nonneg.
Qed.

(** The effect of a move on the sums. *)
Lemma held_update b k r r' A k' :
  ress b !! k = Some r ->
  held (mkBooks A (<[k := r']> (ress b))) k' = held b k' - held_by k' r + held_by k' r'.
Proof. apply map_total_update. Qed.

Lemma settled_update b k r r' A k' :
  ress b !! k = Some r ->
  settled (mkBooks A (<[k := r']> (ress b))) k' = settled b k' - settled_by k' r + settled_by k' r'.
Proof. apply map_total_update. Qed.

(** ** The invariant *)

Ltac sums :=
  rewrite ?held_update, ?settled_update by eassumption;
  unfold held_by, settled_by, holds, charge, account_key in *; cbn in *.

(** Replacing an account by one with the same key keeps reservations booked. *)
Lemma booked_insert (A : gmap string BudgetAccount) k a r :
  is_Some (A !! account_key r) -> is_Some (<[k := a]> A !! account_key r).
Proof.
  destruct (decide (k = account_key r)) as [->|Hne].
  - by rewrite lookup_insert_eq.
  - by rewrite lookup_insert_ne.
Qed.

Lemma insert_case {A} (m : gmap string A) k x k' y :
  <[k := x]> m !! k' = Some y -> (k' = k /\ y = x) \/ (k' <> k /\ m !! k' = Some y).
Proof. rewrite lookup_insert_Some. naive_solver. Qed.

(** The update of one account and one of its reservations keeps the books in
    order when the account stays within its limit and what it holds changes as
    the reservation does. *)
Lemma wf_update b k r r' a a' :
  wf b -> ress b !! k = Some r -> accs b !! account_key r = Some a ->
  r_TenantID r' = r_TenantID r -> r_AccountID r' = r_AccountID r -> reservation_ok k r' ->
  account_ok (account_key r) a' ->
  a_ReservedMicros a' - a_ReservedMicros a
    = held_by (account_key r) r' - held_by (account_key r) r ->
  wf (mkBooks (<[account_key r := a']> (accs b)) (<[k := r']> (ress b))).
Proof.
  intros W Hr Ha Ht Hi Hr' Ha' Hd.
  assert (Hk : account_key r' = account_key r) by (unfold account_key; congruence).
  split; cbn.
  - intros k1 a1 [[-> ->]|[_ H]]%insert_case; [done|by apply wf_account in H].
  - intros k1 r1 [[-> ->]|[_ H]]%insert_case; [done|by apply wf_reservation in H].
  - intros k1 r1 [[-> ->]|[_ H]]%insert_case; apply booked_insert.
    + rewrite Hk. by eapply wf_booked.
    + by eapply wf_booked.
  - intros k1 a1 [[-> ->]|[Hne H]]%insert_case; rewrite (held_update _ _ r) by done.
    + pose proof (wf_held _ W _ _ Ha). lia.
    + pose proof (wf_held _ W _ _ H).
      assert (held_by k1 r = 0 /\ held_by k1 r' = 0) as [-> ->]; [|lia].
      unfold held_by. rewrite Hk, bool_decide_eq_false_2 by congruence. done.
Qed.

Lemma held_none b k :
  wf b -> accs b !! k = None -> held b k = 0 /\ settled b k = 0.
Proof.
  intros W Hk. split; apply map_total_zero; intros k' r Hr;
    destruct (wf_booked _ W _ _ Hr) as [a Ha]; unfold held_by, settled_by;
    rewrite bool_decide_eq_false_2 by congruence; done.
Qed.

Lemma move_wf b b' : wf b -> move b b' -> wf b'.
Proof.
  intros W. destruct 1 as [k a Hk Ha Hc|a k r Ha Hk Hr Hs Hl|a k r actual Hr Ha Hs Hn Hl
    |a k r Hr Ha Hs|k r Hr Hs|k a hard soft Ha Hs Hb Hl].
  - destruct (held_none b k W Hk) as [H0 _]. split; cbn.
    + intros k1 a1 [[-> ->]|[_ H]]%insert_case; [done|by apply wf_account in H].
    + apply W.
    + intros k1 r1 H. apply booked_insert. by eapply wf_booked.
    + intros k1 a1 [[-> ->]|[_ H]]%insert_case; [|by apply wf_held in H].
      unfold held in *. cbn. destruct Ha as (_ & _ & ? & _). lia.
  - destruct (wf_account _ W _ _ Ha) as (Hka & Hta & ? & ? & ?).
    destruct (Hr) as (Hkr & Htr & ? & ?). split; cbn.
    + intros k1 a1 [[-> ->]|[_ H']]%insert_case; [|by apply wf_account in H'].
      unfold account_ok, charge. cbn. repeat split; done || lia.
    + intros k1 r1 [[-> ->]|[_ H']]%insert_case; [done|by apply wf_reservation in H'].
    + intros k1 r1 [[-> ->]|[_ H']]%insert_case; apply booked_insert; [by eexists|].
      by eapply wf_booked.
    + intros k1 a1 Hk1. unfold held. cbn. rewrite map_total_insert by done.
      apply insert_case in Hk1 as [[-> ->]|[Hne H']].
      * pose proof (wf_held _ W _ _ Ha) as Hh. unfold held in Hh. unfold charge. cbn.
        unfold held_by at 1. case_match; lia.
      * pose proof (wf_held _ W _ _ H') as Hh. unfold held in Hh.
        unfold held_by at 1. rewrite bool_decide_eq_false_2 by congruence. cbn. lia.
  - destruct (wf_account _ W _ _ Ha) as (Hka & Hta & ? & ? & ?).
    destruct (wf_reservation _ W _ _ Hr) as (Hkr & Htr & ? & ?).
    pose proof (held_covers _ _ _ _ W Hr Hs Ha).
    eapply wf_update; try done; cbn.
    + unfold account_ok, charge. cbn. repeat split; done || lia.
    + unfold held_by. rewrite Hs. unfold account_key, holds. cbn.
      rewrite bool_decide_eq_true_2, andb_false_r by done. cbn. lia.
  - assert (Hh : holds r = true) by (unfold holds; by rewrite Hs).
    destruct (wf_account _ W _ _ Ha) as (Hka & Hta & ? & ? & ?).
    destruct (wf_reservation _ W _ _ Hr) as (Hkr & Htr & ? & ?).
    pose proof (held_covers _ _ _ _ W Hr Hh Ha).
    eapply wf_update; try done; cbn.
    + unfold account_ok, charge. cbn. repeat split; done || lia.
    + unfold held_by. rewrite Hh. unfold account_key, holds. cbn.
      rewrite bool_decide_eq_true_2, andb_false_r by done. cbn. lia.
  - destruct (wf_booked _ W _ _ Hr) as [a Ha].
    rewrite <- (insert_id (accs b) (account_key r) a) by done.
    eapply wf_update; try done; cbn.
    + by apply (wf_reservation _ W) in Hr.
    + by apply (wf_account _ W) in Ha.
    + unfold held_by, holds. cbn. rewrite Hs. cbn. unfold account_key. cbn. go_eval. lia.
  - destruct (wf_account _ W _ _ Ha) as (Hka & Hta & ? & ? & ?). split; cbn.
    + intros k1 a1 [[-> ->]|[_ H']]%insert_case; [|by apply wf_account in H'].
      unfold account_ok. cbn. repeat split; done || lia.
    + apply W.
    + intros k1 r1 H'. apply booked_insert. by eapply wf_booked.
    + intros k1 a1 [[-> ->]|[_ H']]%insert_case; [|by apply (wf_held _ W) in H'].
      cbn. by apply (wf_held _ W) in Ha.
Qed.

Lemma moves_wf b b' : wf b -> rtc move b b' -> wf b'.
Proof. intros W. induction 1; eauto using move_wf. Qed.

(** ** What the moves conserve *)

(** The life of a reservation: open, parked for reconciliation, then settled;
    or settled or released directly.  Its booking never changes. *)
Definition same_booking (r r' : Reservation) : Prop :=
  r_ID r' = r_ID r /\ r_TenantID r' = r_TenantID r /\ r_AccountID r' = r_AccountID r /\
  r_RequestID r' = r_RequestID r /\ r_ReservedMicros r' = r_ReservedMicros r /\
  r_CreatedAt r' = r_CreatedAt r /\ r_ExpiresAt r' = r_ExpiresAt r.

Definition follows (r r' : Reservation) : Prop :=
  r' = r \/
  (same_booking r r' /\
   (r_State r = ReservationOpen /\ r_State r' <> ReservationOpen
    \/ r_State r = ReservationReconcile /\ r_State r' = ReservationSettled)).

Lemma follows_trans r r' r'' : follows r r' -> follows r' r'' -> follows r r''.
Proof. unfold follows, same_booking. naive_solver congruence. Qed.

(** The identity of an account, and the balance of its books. *)
Definition same_account (a a' : BudgetAccount) : Prop :=
  a_ID a' = a_ID a /\ a_TenantID a' = a_TenantID a /\ a_ScopeType a' = a_ScopeType a /\
  a_ScopeID a' = a_ScopeID a /\ a_Currency a' = a_Currency a /\
  a_PeriodStart a' = a_PeriodStart a /\ a_PeriodEnd a' = a_PeriodEnd a.

Record evolves (b b' : books) : Prop := {
  ev_account : forall k a, accs b !! k = Some a -> exists a',
    accs b' !! k = Some a' /\ same_account a a' /\
    a_ReservedMicros a' - held b' k = a_ReservedMicros a - held b k /\
    a_SpentMicros a' - settled b' k = a_SpentMicros a - settled b k;
  ev_reservation : forall k r, ress b !! k = Some r -> exists r',
    ress b' !! k = Some r' /\ follows r r'
}.

#[export] Instance evolves_refl : Reflexive evolves.
Proof.
  intros b. split.
  - intros k a Ha. exists a. unfold same_account. auto 10.
  - intros k r Hr. exists r. by split; [|left].
Qed.

#[export] Instance evolves_trans : Transitive evolves.
Proof.
  intros b1 b2 b3 H12 H23. split.
  - intros k a Ha. destruct (ev_account _ _ H12 _ _ Ha) as (a2 & Ha2 & Hs2 & Hr2 & Hp2).
    destruct (ev_account _ _ H23 _ _ Ha2) as (a3 & Ha3 & Hs3 & Hr3 & Hp3).
    exists a3. split; [done|]. split; [unfold same_account in *; intuition congruence | lia].
  - intros k r Hr. destruct (ev_reservation _ _ H12 _ _ Hr) as (r2 & Hr2 & Hf2).
    destruct (ev_reservation _ _ H23 _ _ Hr2) as (r3 & Hr3 & Hf3).
    exists r3. eauto using follows_trans.
Qed.

(** The effect of one update on both sums of every account. *)
Lemma evolves_update b k r r' a a' :
  ress b !! k = Some r -> accs b !! account_key r = Some a ->
  follows r r' -> same_account a a' ->
  a_ReservedMicros a' - a_ReservedMicros a
    = held_by (account_key r) r' - held_by (account_key r) r ->
  a_SpentMicros a' - a_SpentMicros a
    = settled_by (account_key r) r' - settled_by (account_key r) r ->
  evolves b (mkBooks (<[account_key r := a']> (accs b)) (<[k := r']> (ress b))).
Proof.
  intros Hr Ha Hf Hs Hd1 Hd2.
  assert (Hk : account_key r' = account_key r).
  { destruct Hf as [->|[Hb _]]; [done|]. unfold same_booking in Hb. unfold account_key.
    intuition congruence. }
  split; cbn.
  - intros k1 a1 Ha1. rewrite (held_update _ _ r), (settled_update _ _ r) by done.
    destruct (decide (k1 = account_key r)) as [->|Hne].
    + exists a'. rewrite lookup_insert_eq. simplify_eq. repeat split; try apply Hs; lia.
    + exists a1. rewrite lookup_insert_ne by congruence. split; [done|].
      split; [unfold same_account; auto 10|]. unfold held_by, settled_by.
      rewrite Hk, bool_decide_eq_false_2 by congruence. cbn. lia.
  - intros k1 r1 Hr1. destruct (decide (k1 = k)) as [->|Hne].
    + exists r'. rewrite lookup_insert_eq. by simplify_eq.
    + exists r1. rewrite lookup_insert_ne by congruence. split; [done|]. by left.
Qed.

Ltac update_sums :=
  unfold held_by, settled_by, holds, account_key; cbn; go_eval; try lia.

Lemma move_evolves b b' : wf b -> move b b' -> evolves b b'.
Proof.
  intros W. destruct 1 as [k a Hk Ha Hc|a k r Ha Hk Hr Hs Hl|a k r actual Hr Ha Hs Hn Hl
    |a k r Hr Ha Hs|k r Hr Hs|k a hard soft Ha Hs Hb Hl].
  - split; cbn.
    + intros k1 a1 Ha1. exists a1. rewrite lookup_insert_ne by congruence.
      unfold same_account. auto 10.
    + intros k1 r1 Hr1. exists r1. by split; [|left].
  - split; cbn.
    + intros k1 a1 Ha1. unfold held, settled. cbn. rewrite !map_total_insert by done.
      destruct (decide (k1 = account_key r)) as [->|Hne].
      * rewrite lookup_insert_eq. simplify_eq. eexists. split; [done|].
        split; [by unfold same_account|]. unfold held_by at 1, settled_by at 1, holds.
        rewrite Hs. cbn. go_eval. lia.
      * exists a1. rewrite lookup_insert_ne by congruence. split; [done|].
        split; [by unfold same_account|]. unfold held_by at 1, settled_by at 1.
        rewrite bool_decide_eq_false_2 by congruence. cbn. lia.
    + intros k1 r1 Hr1. exists r1. rewrite lookup_insert_ne by congruence. by split; [|left].
  - apply orb_true_iff in Hs as [Hs|Hs]; go_bool; apply (evolves_update _ _ r _ a);
      try done; try (update_sums; rewrite Hs; go_eval; lia).
    + right. split; [done|]. cbn. left. split; [done|discriminate].
    + right. split; [done|]. cbn. by right.
  - apply (evolves_update _ _ r _ a); try done; try (update_sums; rewrite Hs; go_eval; lia).
    right. split; [done|]. cbn. left. split; [done|discriminate].
  - destruct (wf_booked _ W _ _ Hr) as [a Ha].
    rewrite <- (insert_id (accs b) (account_key r) a) by done.
    apply (evolves_update _ _ r _ a); try done; try (update_sums; rewrite Hs; go_eval; lia).
    right. split; [done|]. cbn. left. split; [done|discriminate].
  - split; cbn.
    + intros k1 a1 Ha1. destruct (decide (k1 = k)) as [->|Hne].
      * rewrite lookup_insert_eq. simplify_eq. eexists. split; [done|]. by unfold same_account.
      * exists a1. rewrite lookup_insert_ne by congruence. by unfold same_account.
    + intros k1 r1 Hr1. exists r1. by split; [|left].
Qed.

Lemma moves_evolve b b' : wf b -> rtc move b b' -> wf b' /\ evolves b b'.
Proof.
  intros W H. revert W. induction H as [b|b b1 b' Hm _ IH]; intros W; [by split|].
  destruct (IH (move_wf _ _ W Hm)) as [W' He]. split; [done|].
  transitivity b1; [by apply move_evolves|done].
Qed.

(** ** Accounts that cover their reservations *)

(** No reservation was settled above its amount. *)
Definition frugal (b : books) : Prop :=
  forall k r, ress b !! k = Some r -> r_State r = ReservationSettled ->
    r_SettledMicros r <= r_ReservedMicros r.

Definition covered (b : books) : Prop :=
  forall k a, accs b !! k = Some a ->
    a_ReservedMicros a + a_SpentMicros a <= a_LimitMicros a.

Lemma frugal_back b b' : evolves b b' -> frugal b' -> frugal b.
Proof.
  intros He Hf k r Hr Hs. destruct (ev_reservation _ _ He _ _ Hr) as (r' & Hr' & [->|[_ Hst]]).
  - by apply (Hf k).
  - naive_solver congruence.
Qed.

Lemma move_covered b b' : wf b -> move b b' -> covered b -> frugal b' -> covered b'.
Proof.
  intros W Hm Hc Hf. destruct Hm as [k a Hk Ha Hl|a k r Ha Hk Hr Hs Hl|a k r actual Hr Ha Hs Hn Hl
    |a k r Hr Ha Hs|k r Hr Hs|k a hard soft Ha Hs Hb Hl]; intros k1 a1; cbn; try apply Hc;
    intros [[-> ->]|[_ H]]%insert_case; try (by apply Hc in H); cbn; try lia.
  - pose proof (Hc _ _ Ha).
    assert (actual <= r_ReservedMicros r); [|lia].
    specialize (Hf k (r ⟦ r_SettledMicros := actual ⟧ ⟦ r_State := ReservationSettled ⟧)).
    cbn in Hf. apply Hf; [|done]. apply lookup_insert_eq.
  - pose proof (Hc _ _ Ha). destruct (wf_reservation _ W _ _ Hr) as (_ & _ & ? & _). lia.
Qed.

Lemma moves_covered b b' : wf b -> rtc move b b' -> covered b -> frugal b' -> covered b'.
Proof.
  intros W H. revert W. induction H as [b|b b1 b' Hm Hr IH]; intros W Hc Hf; [done|].
  pose proof (move_wf _ _ W Hm) as W1. destruct (moves_evolve _ _ W1 Hr) as [_ He].
  apply IH; [done| |done]. apply (move_covered b b1); try done.
  by apply (frugal_back b1 b').
Qed.
End BudgetBooks.
