(* ===== verification/BudgetProps.v ===== *)
(** The budget ledger's theorems: every operation is a sequence of moves on the
    books, so runs keep the ledger's invariant and balance; claims are
    exclusive; repeated calls are idempotent; expiry is exact. *)

From S2P Require Import Prelude GoLib Trace Runs Budget BudgetBooks.

Module BudgetProps.
Import Budget BudgetBooks.

(** ** Runs of the ledger *)
Inductive command : Type :=
| CmdCreateAccount (ctx : context) (now : time) (account : BudgetAccount)
| CmdReserve (ctx : context) (clock : reading -> time) (order : list (string * Reservation))
    (generated : result string string)
    (tenantID accountID reservationID requestID : string) (amountMicros : Z) (claim : bool)
| CmdSettle (ctx : context) (tenantID reservationID : string) (actualMicros : Z)
| CmdRelease (ctx : context) (tenantID reservationID : string)
| CmdReconcile (ctx : context) (tenantID reservationID : string) (actualMicros : Z)
| CmdRequireReconciliation (ctx : context) (tenantID reservationID : string)
| CmdExpire (ctx : context) (now : time) (tenantID : string) (limit : Z)
| CmdAdjust (ctx : context) (random16 random8 : result (list Z) string) (now : time)
    (adjustment : BudgetAdjustment)
| CmdFinalize (ctx : context) (generated : result string string)
    (finalization : ModelCallFinalization)
| CmdReconcileModelCall (ctx : context) (reconciliation : ModelCallReconciliation).

(** The ledger after a call; what is kept when the call fails is the ledger. *)
Definition kept {A} (l : BudgetLedger) (r : result (BudgetLedger * A) budget_error) : BudgetLedger :=
  match r with Ok (l', _) => l' | Err _ => l end.
Definition kept' (l : BudgetLedger) (r : result BudgetLedger budget_error) : BudgetLedger :=
  match r with Ok l' => l' | Err _ => l end.

Definition apply (l : BudgetLedger) (c : command) : BudgetLedger :=
  match c with
  | CmdCreateAccount ctx now account => kept' l (CreateAccount ctx now account l)
  | CmdReserve ctx clock order generated t a r q amount claim =>
      fst (reserve ctx clock order generated t a r q amount claim l)
  | CmdSettle ctx t r actual => kept l (Settle ctx t r actual l)
  | CmdRelease ctx t r => kept' l (Release ctx t r l)
  | CmdReconcile ctx t r actual => kept l (Reconcile ctx t r actual l)
  | CmdRequireReconciliation ctx t r => kept l (RequireReconciliation ctx t r l)
  | CmdExpire ctx now t limit => kept l (ExpireReservations ctx now t limit l)
  | CmdAdjust ctx r16 r8 now j => kept l (Adjust ctx r16 r8 now j l)
  | CmdFinalize ctx generated f => kept l (FinalizeModelCall ctx generated f l)
  | CmdReconcileModelCall ctx n => kept l (ReconcileModelCall ctx n l)
  end.

(** What the environment guarantees of a call: tenant identifiers hold no NUL
    byte, hard limits stay below 2^62 (and an [int64] below 2^63), a generated UUID is new to the tenant,
    and the loop over the map meets each entry once. *)
Definition env_ok (l : BudgetLedger) (c : command) : Prop :=
  match c with
  | CmdCreateAccount _ _ account =>
      no_nul (a_TenantID account) = true /\ a_LimitMicros account < limit_bound /\
      a_SpentMicros account < two63
  | CmdReserve _ _ order generated t _ _ _ _ _ =>
      no_nul t = true /\ order ≡ₚ map_to_list (reservations l) /\
      match generated with
      | Ok id => reservations l !! budgetKey t id = None
      | Err _ => True
      end
  | CmdSettle _ t _ _ | CmdRelease _ t _ | CmdReconcile _ t _ _
  | CmdRequireReconciliation _ t _ | CmdExpire _ _ t _ => no_nul t = true
  | CmdAdjust _ _ _ _ j => j_HardLimitMicros j < limit_bound
  | CmdFinalize _ _ _ | CmdReconcileModelCall _ _ => True
  end.

#[export] Instance env_ok_dec l c : Decision (env_ok l c).
Proof. destruct c as [| ? ? ? [id|] | | | | | | | |]; cbn; apply _. Defined.

Definition ledger_step (l : BudgetLedger) (c : command) : option BudgetLedger :=
  if decide (env_ok l c) then Some (apply l c) else None.

(** Within the bound of the books the 64-bit arithmetic is exact. *)
Ltac exact_int :=
  repeat match goal with
  | |- context [wrap64 ?x] => rewrite (wrap64_id x) by (unfold in_int64, two63, limit_bound in *; lia)
  end.

(** ** Refinement: every operation makes moves on the books *)
Section Refinement.
Context (l : BudgetLedger) (W : wf (books_of l)).

Lemma lookup_spec t id k r :
  no_nul t = true -> lookupReservationLocked t id l = Some (k, r) ->
  reservations l !! k = Some r /\ r_TenantID r = t /\ k = budgetKey t (r_ID r) /\
  account_key r = budgetKey t (r_AccountID r).
Proof.
  intros Ht H.
  assert (Hk : reservations l !! k = Some r /\ exists i, k = budgetKey t i).
  { unfold lookupReservationLocked in H. repeat case_match; simplify_eq; eauto. }
  destruct Hk as [Hk [i Hi]]. split; [done|].
  destruct (wf_reservation _ W k r Hk) as (Hk' & Ht' & _).
  destruct (budgetKey_inj t i (r_TenantID r) (r_ID r)) as [-> ->]; [done..|by rewrite <- Hi|].
  by unfold account_key.
Qed.

Lemma account_at_spec k r :
  reservations l !! k = Some r ->
  accounts l !! account_key r = Some (account_at l (account_key r)).
Proof.
  intros Hr. destruct (wf_booked _ W k r Hr) as [a Ha]. unfold account_at. cbn in Ha.
  by rewrite Ha.
Qed.

Lemma settle_moves a k r actual :
  reservations l !! k = Some r -> accounts l !! account_key r = Some a ->
  holds r = true -> 0 <= actual -> cannot_settle a r actual = false ->
  move (books_of l) (books_of (fst (settle_reservation (account_key r) a k r actual l))).
Proof.
  intros Hr Ha Hh Hn Hc. destruct (wf_account _ W _ _ Ha) as (_ & _ & ? & ? & ?).
  pose proof (held_covers _ _ _ _ W Hr Hh Ha). unfold cannot_settle in Hc. go_bool.
  destruct (wf_reservation _ W k r Hr) as (_ & _ & ? & _).
  revert H4. exact_int. intros H4.
  pose proof (move_settle (books_of l) a k r actual Hr Ha Hh Hn) as Hm.
  unfold settle_reservation, books_of. cbn. exact_int. apply Hm. lia.
Qed.

Lemma release_moves a k r :
  reservations l !! k = Some r -> accounts l !! account_key r = Some a ->
  r_State r = ReservationOpen ->
  move (books_of l) (books_of (fst (release_reservation (account_key r) a k r l))).
Proof.
  intros Hr Ha Hs. assert (Hh : holds r = true) by (unfold holds; by rewrite Hs).
  destruct (wf_account _ W _ _ Ha) as (_ & _ & ? & ? & ?).
  pose proof (held_covers _ _ _ _ W Hr Hh Ha).
  destruct (wf_reservation _ W k r Hr) as (_ & _ & ? & _).
  pose proof (move_release (books_of l) a k r Hr Ha Hs) as Hm.
  unfold release_reservation, books_of. cbn. exact_int. by destruct a.
Qed.

Lemma park_moves k r :
  reservations l !! k = Some r -> r_State r = ReservationOpen ->
  move (books_of l) (books_of (fst (park_reservation k r l))).
Proof. intros Hr Hs. by apply move_park. Qed.

Definition same_money (a b : BudgetAccount) : Prop :=
  a_ID a = a_ID b /\ a_TenantID a = a_TenantID b /\ a_LimitMicros a = a_LimitMicros b /\
  a_ReservedMicros a = a_ReservedMicros b /\ a_SpentMicros a = a_SpentMicros b.

Lemma with_defaults_money now a : same_money (with_defaults now a) a.
Proof.
  assert (Htrans : Transitive same_money) by (intros ? ? ?; unfold same_money; intuition congruence).
  unfold with_defaults.
  etransitivity; [by unfold default_version; case_match|].
  etransitivity; [by unfold default_period_start; case_match|].
  etransitivity; [by unfold default_currency; case_match|].
  etransitivity; [by unfold default_scope_id; case_match|].
  by unfold default_scope_type; case_match.
Qed.

Lemma create_moves ctx now account l' :
  env_ok l (CmdCreateAccount ctx now account) -> CreateAccount ctx now account l = Ok l' ->
  rtc move (books_of l) (books_of l').
Proof.
  intros (Ht & Hb & Hi64) H. unfold CreateAccount in H. destruct (contextError ctx); [discriminate|].
  accepted H. go_bool. destruct (with_defaults_money now account) as (Hi & Ht' & Hl & Hr & Hs).
  match goal with G : _ <= wrap64 _ |- _ => revert G end. exact_int. intros.
  apply rtc_once. apply (move_create (books_of l)); [done| |lia].
  unfold account_ok. rewrite Hl, Hr, Hs, Ht'. repeat split; done || lia.
Qed.

Lemma reserve_moves ctx clock order generated t a r q amount claim :
  env_ok l (CmdReserve ctx clock order generated t a r q amount claim) ->
  rtc move (books_of l)
    (books_of (fst (reserve ctx clock order generated t a r q amount claim l))).
Proof.
  intros (Ht & _ & Hg). unfold reserve.
  destruct (contextError ctx); [apply rtc_refl|].
  destruct (_ || _) eqn:G; [apply rtc_refl|]. go_bool.
  destruct (lookupReservationLocked t r l) as [[k e]|] eqn:Hl.
  { apply lookup_spec in Hl as (Hr & _); [|done].
    destruct (_ && _) eqn:E; [|repeat case_match; apply rtc_refl]. go_bool.
    apply rtc_once. by apply (park_moves k e). }
  destruct (reserve_scan t a q claim clock order); [apply rtc_refl|].
  destruct (accounts l !! budgetKey t a) as [acc|] eqn:Ha; [|apply rtc_refl].
  destruct (wf_account _ W _ _ Ha) as (_ & _ & ? & ? & ?). exact_int.
  destruct (_ || _) eqn:E; [apply rtc_refl|]. go_bool.
  destruct generated as [id|]; [|apply rtc_refl]. apply rtc_once.
  match goal with |- context [mkReservation id t a q amount 0 ReservationOpen ?c ?x] =>
    pose proof (move_open (books_of l) acc (budgetKey t id)
      (mkReservation id t a q amount 0 ReservationOpen c x) Ha Hg) as Hm end.
  cbn in Hm |- *. exact_int. unfold books_of. cbn. unfold charge in Hm. cbn in Hm.
  unfold account_key in Hm. cbn in Hm. destruct acc. apply Hm; [|done|cbn in *; lia].
  unfold reservation_ok. cbn. repeat split; done || lia.
Qed.

Lemma settle_op_moves ctx t r actual x :
  no_nul t = true -> Settle ctx t r actual l = Ok x ->
  rtc move (books_of l) (books_of (fst x)).
Proof.
  intros Ht H. unfold Settle in H. destruct (contextError ctx); [discriminate|].
  destruct (_ || _) eqn:G; [discriminate|].
  destruct (lookupReservationLocked t r l) as [[k e]|] eqn:Hl; [|discriminate].
  apply lookup_spec in Hl as (Hr & _ & _ & Hk); [|done]. rewrite <- Hk in H. go_bool.
  destruct (bool_decide (r_State e = ReservationSettled)).
  { repeat case_match; simplify_eq; apply rtc_refl. }
  accepted H. go_bool. apply rtc_once. cbn.
  apply settle_moves; try done; [by eapply account_at_spec|]. unfold holds.
  by go_eval.
Qed.

Lemma reconcile_op_moves ctx t r actual x :
  no_nul t = true -> Reconcile ctx t r actual l = Ok x ->
  rtc move (books_of l) (books_of (fst x)).
Proof.
  intros Ht H. unfold Reconcile in H. destruct (contextError ctx); [discriminate|].
  destruct (_ || _) eqn:G; [discriminate|].
  destruct (lookupReservationLocked t r l) as [[k e]|] eqn:Hl; [|discriminate].
  apply lookup_spec in Hl as (Hr & _ & _ & Hk); [|done]. rewrite <- Hk in H. go_bool.
  destruct (bool_decide (r_State e = ReservationSettled)).
  { repeat case_match; simplify_eq; apply rtc_refl. }
  accepted H. apply rtc_once. cbn.
  apply settle_moves; try done; [by eapply account_at_spec|]. unfold holds.
  match goal with E : _ && _ = false |- _ => apply andb_false_iff in E as [E|E] end;
    go_bool; go_eval; done.
Qed.

Lemma release_op_moves ctx t r l' :
  no_nul t = true -> Release ctx t r l = Ok l' ->
  rtc move (books_of l) (books_of l').
Proof.
  intros Ht H. unfold Release in H. destruct (contextError ctx); [discriminate|].
  destruct (_ || _) eqn:G; [discriminate|].
  destruct (lookupReservationLocked t r l) as [[k e]|] eqn:Hl; [|discriminate].
  apply lookup_spec in Hl as (Hr & _ & _ & Hk); [|done]. rewrite <- Hk in H. go_bool.
  destruct (bool_decide (r_State e = ReservationReleased)).
  { simplify_eq. apply rtc_refl. }
  accepted H. go_bool. apply rtc_once. apply release_moves; try done.
  by eapply account_at_spec.
Qed.

Lemma require_op_moves ctx t r x :
  no_nul t = true -> RequireReconciliation ctx t r l = Ok x ->
  rtc move (books_of l) (books_of (fst x)).
Proof.
  intros Ht H. unfold RequireReconciliation in H. destruct (contextError ctx); [discriminate|].
  destruct (_ || _) eqn:G; [discriminate|].
  destruct (lookupReservationLocked t r l) as [[k e]|] eqn:Hl; [|discriminate].
  apply lookup_spec in Hl as (Hr & _); [|done]. go_bool.
  destruct (bool_decide (r_State e = ReservationReconcile)).
  { simplify_eq. apply rtc_refl. }
  accepted H. go_bool. apply rtc_once. by apply park_moves.
Qed.

Lemma has_control_no_nul s : has_control s = false -> no_nul s = true.
Proof.
  unfold has_control, no_nul. intros H. apply negb_true_iff.
  induction (bytes s) as [|c cs IH]; [done|]. cbn in *. go_bool.
  apply orb_false_iff. auto.
Qed.

Lemma unsafe_texts_no_nul t ts : existsb unsafe_text (t :: ts) = false -> no_nul t = true.
Proof. cbn. unfold unsafe_text. intros H. go_bool. by apply has_control_no_nul. Qed.

(** *** Expiry *)
Lemma expired_candidates t now ts :
  no_nul t = true ->
  ts ≡ₚ List.filter (expired_open t now) (map snd (map_to_list (reservations l))) ->
  NoDup ts /\
  forall r, r ∈ ts <-> reservations l !! budgetKey t (r_ID r) = Some r /\ expired_open t now r = true.
Proof.
  intros Ht Hp.
  assert (Hin : forall k r, (k, r) ∈ map_to_list (reservations l) -> k = budgetKey (r_TenantID r) (r_ID r)).
  { intros k r Hk%elem_of_map_to_list. by apply (wf_reservation _ W k r). }
  split.
  - rewrite Hp. apply NoDup_ListNoDup, List.NoDup_filter, NoDup_ListNoDup.
    apply (NoDup_fmap_2_strong snd); [|apply NoDup_map_to_list].
    intros [k r] [k' r'] Hk Hk' Heq. cbn in Heq. subst r'.
    by rewrite (Hin _ _ Hk), (Hin _ _ Hk').
  - intros r. rewrite Hp, list_elem_of_In, filter_In, in_map_iff. split.
    + intros [([k r'] & Hr & Hk) He]. cbn in Hr. subst r'. split; [|done].
      apply list_elem_of_In in Hk. pose proof (Hin _ _ Hk) as Hk'.
      apply elem_of_map_to_list in Hk. unfold expired_open in He. go_bool. by subst.
    + intros [Hr He]. split; [|done]. exists (budgetKey t (r_ID r), r). split; [done|].
      by apply list_elem_of_In, elem_of_map_to_list.
Qed.

Lemma park_all_moves t (A : gmap string BudgetAccount) ts (m : gmap string Reservation) :
  NoDup ts ->
  (forall r, r ∈ ts -> m !! budgetKey t (r_ID r) = Some r /\ r_State r = ReservationOpen) ->
  rtc move (mkBooks A m)
    (mkBooks A (foldl (fun m c => <[budgetKey t (r_ID c) := c]> m) m
                  (map (fun c => c ⟦ r_State := ReservationReconcile ⟧) ts))).
Proof.
  revert m. induction ts as [|r ts IH]; intros m Hnd Hts; [apply rtc_refl|].
  apply NoDup_cons in Hnd as [Hni Hnd]. destruct (Hts r) as [Hr Hs]; [by left|].
  eapply rtc_l; [exact (move_park (mkBooks A m) (budgetKey t (r_ID r)) r Hr Hs)|]. cbn.
  apply IH; [done|]. intros r' Hr'. destruct (Hts r') as [Hk' Hs']; [by right|].
  split; [|done]. rewrite lookup_insert_ne; [done|]. intros Heq. rewrite Heq in Hr. congruence.
Qed.

Definition expired_first (now : time) (t : string) (limit : Z) : list Reservation :=
  let candidates := sort_slice expires_first
    (List.filter (expired_open t (UTC now)) (map snd (map_to_list (reservations l)))) in
  if limit <? Z.of_nat (length candidates) then take (Z.to_nat limit) candidates else candidates.

Lemma expired_first_spec now t limit :
  no_nul t = true ->
  NoDup (expired_first now t limit) /\
  forall r, r ∈ expired_first now t limit ->
    reservations l !! budgetKey t (r_ID r) = Some r /\ expired_open t now r = true.
Proof.
  intros Ht. unfold expired_first. set (cs := sort_slice _ _).
  destruct (expired_candidates t now cs Ht) as [Hnd Hin]; [apply sort_slice_Permutation|].
  case_match; [|split; [done|intros r; apply Hin]]. split.
  - eapply sublist_NoDup; [exact Hnd | apply sublist_take].
  - intros r [i [Hi _]]%elem_of_take. apply Hin. by eapply list_elem_of_lookup_2.
Qed.

Lemma expire_moves ctx now t limit x :
  no_nul t = true -> ExpireReservations ctx now t limit l = Ok x ->
  rtc move (books_of l) (books_of (fst x)).
Proof.
  intros Ht H. unfold ExpireReservations in H. destruct (contextError ctx); [discriminate|].
  destruct (_ || _) in H; [discriminate|]. injection H as <-.
  destruct (expired_first_spec now t limit Ht) as [Hnd Hin].
  unfold books_of. cbn. apply park_all_moves; [done|].
  intros r [Hr He]%Hin. split; [done|]. unfold expired_open in He. by go_bool.
Qed.

(** *** Limit adjustments *)
Lemma find_project_account_spec t p found cs a :
  find_project_account t p found cs = Ok (Some a) ->
  found = Some a \/ (a ∈ cs /\ a_TenantID a = t).
Proof.
  revert found. induction cs as [|c cs IH]; intros found; cbn; [intros [= ->]; by left|].
  destruct (project_account t p c) eqn:E; cbn.
  - destruct found; [discriminate|]. intros [[= ->]|[Hin Ht]]%IH; right.
    + split; [by left|]. unfold project_account in E. by go_bool.
    + split; [by right|done].
  - intros [->|[Hin Ht]]%IH; [by left|right]. split; [by right|done].
Qed.

Lemma projectAccount_spec t p a :
  projectAccountLocked t p l = Ok (Some a) ->
  accounts l !! budgetKey t (a_ID a) = Some a.
Proof.
  intros [[=]|[Hin Ht]]%find_project_account_spec.
  apply list_elem_of_In, in_map_iff in Hin as ([k a'] & Ha & Hk). cbn in Ha. subst a'.
  apply list_elem_of_In, elem_of_map_to_list in Hk.
  destruct (wf_account _ W k a Hk) as [Hk' _]. by rewrite <- Ht, <- Hk'.
Qed.

(** Preparing an adjustment changes its trace fields only. *)
Lemma prepare_spec r16 r8 j j' :
  prepareBudgetAdjustment r16 r8 j = Ok j' ->
  j_TenantID j' = j_TenantID j /\ j_ProjectID j' = j_ProjectID j /\
  j_PrincipalID j' = j_PrincipalID j /\ j_IdempotencyKey j' = j_IdempotencyKey j /\
  j_ExpectedVersion j' = j_ExpectedVersion j /\
  j_HardLimitMicros j' = j_HardLimitMicros j /\ j_SoftLimitMicros j' = j_SoftLimitMicros j /\
  j_Currency j' = j_Currency j /\ j_Reason j' = j_Reason j /\
  0 <= j_SoftLimitMicros j <= j_HardLimitMicros j.
Proof.
  unfold prepareBudgetAdjustment. intros H.
  destruct (_ || _) eqn:G1 in H; [discriminate|].
  do 3 (match type of H with (if ?c then _ else _) = _ => destruct c; [discriminate|] end).
  assert (Hl : 0 <= j_SoftLimitMicros j <= j_HardLimitMicros j) by (go_bool; lia). clear G1.
  repeat case_match; simplify_eq; auto 20.
Qed.

Lemma adjust_moves ctx r16 r8 now j x :
  j_HardLimitMicros j < limit_bound -> Adjust ctx r16 r8 now j l = Ok x ->
  rtc move (books_of l) (books_of (fst x)).
Proof.
  intros Hb H. unfold Adjust in H. destruct (contextError ctx); [discriminate|].
  apply rbind_ok in H as (j' & Hj & H).
  apply prepare_spec in Hj as (Ht & _ & _ & _ & _ & Hh & Hs & _ & _ & Hr).
  destruct (adjustments l !! _).
  { accepted H. simplify_eq. apply rtc_refl. }
  apply rbind_ok in H as ([a|] & Ha & H); [|discriminate].
  apply projectAccount_spec in Ha. accepted H. go_bool.
  destruct (wf_account _ W _ _ Ha) as (_ & _ & ? & ? & ?).
  match goal with G : wrap64 _ <= _ |- _ => revert G end. exact_int. intros.
  apply rtc_once. unfold books_of. cbn.
  pose proof (move_adjust (books_of l) _ a (j_HardLimitMicros j') (j_SoftLimitMicros j') Ha) as Hm.
  apply Hm; rewrite ?Hh, ?Hs; lia.
Qed.

(** *** Model calls *)
Lemma finalization_no_nul f : finalization_valid f = true -> no_nul (c_TenantID (f_Call f)) = true.
Proof.
  unfold finalization_valid. intros H. cbv zeta in H. guards H.
  by eapply unsafe_texts_no_nul.
Qed.

Lemma finalize_moves ctx generated f x :
  FinalizeModelCall ctx generated f l = Ok x -> rtc move (books_of l) (books_of (fst x)).
Proof.
  intros H. unfold FinalizeModelCall in H. destruct (contextError ctx); [discriminate|].
  destruct (finalization_valid f) eqn:Hv; [|discriminate]. cbn [negb] in H.
  pose proof (finalization_no_nul f Hv) as Ht.
  assert (Hn : 0 <= f_ActualMicros f).
  { unfold finalization_valid in Hv. guards Hv. go_bool. lia. }
  apply rbind_ok in H as (call & Hcall & H).
  assert (Htc : c_TenantID call = c_TenantID (f_Call f))
    by (unfold with_id in Hcall; repeat case_match; simplify_eq; done).
  rewrite Htc in H. clear Hcall.
  destruct (modelCalls l !! _).
  { accepted H. destruct (lookupReservationLocked _ _ l) as [[? ?]|]; [|discriminate].
    simplify_eq. apply rtc_refl. }
  destruct (lookupReservationLocked _ _ l) as [[k r]|] eqn:Hl; [|discriminate].
  apply lookup_spec in Hl as (Hr & _ & _ & Hk); [|done]. rewrite <- Hk in H.
  match type of H with (if ?c then _ else _) = _ => destruct c; [discriminate|] end.
  destruct (accounts l !! account_key r) as [a|] eqn:Ha; [|discriminate].
  apply rbind_ok in H as ([l1 r1] & Hm & H). injection H as <-.
  change (rtc move (books_of l) (books_of (fst (l1, r1)))).
  destruct (f_Disposition f).
  - case_match; [accepted Hm; simplify_eq; apply rtc_refl|].
    destruct (_ || _) eqn:G in Hm; [discriminate|]. go_bool. apply Ok_inj in Hm.
    rewrite <- Hm. apply rtc_once. apply settle_moves; try done. unfold holds. by go_eval.
  - case_match; [simplify_eq; apply rtc_refl|].
    destruct (_ || _) eqn:G in Hm; [discriminate|]. go_bool. apply Ok_inj in Hm.
    rewrite <- Hm. apply rtc_once. by apply release_moves.
  - case_match; [|simplify_eq; apply rtc_refl].
    destruct (negb _) eqn:G in Hm; [discriminate|]. go_bool. apply Ok_inj in Hm.
    rewrite <- Hm. apply rtc_once. by apply park_moves.
  - simplify_eq. apply rtc_refl.
Qed.

Lemma reconciliation_no_nul n : reconciliation_valid n = true -> no_nul (n_TenantID n) = true.
Proof.
  unfold reconciliation_valid. intros H. cbv zeta in H. guards H.
  eapply unsafe_texts_no_nul. by apply negb_true_iff in H.
Qed.

Lemma reconcile_call_moves ctx n x :
  ReconcileModelCall ctx n l = Ok x -> rtc move (books_of l) (books_of (fst x)).
Proof.
  intros H. unfold ReconcileModelCall in H. destruct (contextError ctx); [discriminate|].
  destruct (reconciliation_valid n) eqn:Hv; [|discriminate]. cbn [negb] in H.
  pose proof (reconciliation_no_nul n Hv) as Ht.
  assert (Hn : 0 <= n_ActualMicros n).
  { unfold reconciliation_valid in Hv. guards Hv. go_bool. lia. }
  destruct (modelCalls l !! _) as [call|]; [|discriminate].
  match type of H with (if ?c then _ else _) = _ => destruct c; [discriminate|] end.
  destruct (lookupReservationLocked _ _ l) as [[k r]|] eqn:Hl; [|discriminate].
  apply lookup_spec in Hl as (Hr & _ & _ & Hk); [|done]. rewrite <- Hk in H.
  match type of H with (if ?c then _ else _) = _ => destruct c; [discriminate|] end.
  destruct (bool_decide (c_Status call = ModelCallReconciled)).
  { accepted H. simplify_eq. apply rtc_refl. }
  match type of H with (if ?c then _ else _) = _ => destruct c eqn:G; [discriminate|] end.
  go_bool. destruct (accounts l !! account_key r) as [a|] eqn:Ha; [|discriminate].
  destruct (cannot_settle _ _ _) eqn:Hc; [discriminate|].
  destruct (settle_reservation _ _ _ _ _ _) as [l1 r1] eqn:Hs. injection H as <-.
  change (rtc move (books_of l) (books_of (fst (l1, r1)))).
  rewrite <- Hs. apply rtc_once. apply settle_moves; try done.
  unfold holds. by go_eval.
Qed.
End Refinement.

Lemma step_moves l c l' :
  wf (books_of l) -> ledger_step l c = Some l' -> rtc move (books_of l) (books_of l').
Proof.
  intros W. unfold ledger_step. destruct (decide _) as [He|]; [|discriminate]. intros [= <-].
  destruct c; cbn [apply kept kept'] in *;
    first [ by eapply reserve_moves
          | match goal with |- context [kept _ ?r] => destruct r as [[l' x]|] eqn:H end
          | match goal with |- context [kept' _ ?r] => destruct r as [l'|] eqn:H end ];
    cbn [kept kept']; try apply rtc_refl.
  - by eapply create_moves.
  - by eapply (settle_op_moves l W _ _ _ _ (l', x)).
  - by eapply release_op_moves.
  - by eapply (reconcile_op_moves l W _ _ _ _ (l', x)).
  - by eapply (require_op_moves l W _ _ _ (l', x)).
  - by eapply (expire_moves l W _ _ _ _ (l', x)).
  - by eapply (adjust_moves l W _ _ _ _ _ (l', x)).
  - by eapply (finalize_moves l W _ _ _ (l', x)).
  - by eapply (reconcile_call_moves l W _ _ (l', x)).
Qed.

Lemma run_moves l cs l' :
  run ledger_step l cs l' -> wf (books_of l) ->
  wf (books_of l') /\ rtc move (books_of l) (books_of l').
Proof.
  intros Hr W.
  destruct (run_relates ledger_step (fun l => wf (books_of l))
    (fun l l' => rtc move (books_of l) (books_of l'))) with l cs l' as [? ?]; try done.
  - intros t u v. intros; by etransitivity.
  - intros t c t' Wt Hs. pose proof (step_moves _ _ _ Wt Hs) as Hm.
    split; [by eapply moves_wf|done].
Qed.

Lemma new_wf : wf (books_of NewBudgetLedger).
Proof.
  split; cbn; try (intros k x H; by rewrite lookup_empty in H).
Qed.

Lemma run_evolves l cs l' :
  run ledger_step l cs l' -> wf (books_of l) -> evolves (books_of l) (books_of l').
Proof.
  intros Hr W. destruct (run_moves _ _ _ Hr W) as [_ Hm]. by apply moves_evolve in Hm as [_ ?].
Qed.

Lemma run_new_wf cs l : run ledger_step NewBudgetLedger cs l -> wf (books_of l).
Proof. intros Hr. by apply (run_moves _ _ _ Hr new_wf). Qed.

(** C20: the ledger refines its books.  The books - accounts and reservations
    alone - are an abstract ledger with six moves: open an account, reserve
    within what is left of its limit, settle within the limit, release, park,
    and change the limits not below what is committed.  Every accepted command
    of a reachable ledger, whichever of the ten it is, carries out a sequence
    of these moves, so the ledger as a whole is a run of them from empty books. *)
Theorem ledger_refines_books cs l c l' :
  run ledger_step NewBudgetLedger cs l -> ledger_step l c = Some l' ->
  rtc move (mkBooks ∅ ∅) (books_of l) /\ rtc move (books_of l) (books_of l').
Proof.
  intros Hr Hs. destruct (run_moves _ _ _ Hr new_wf) as [W Hm]. split; [exact Hm|].
  by eapply step_moves.
Qed.

(** C19: the ledger's invariant.  Whatever calls were made on a new ledger, in
    whatever order and with whatever outcome, each account is stored under its
    own key, has 0 <= reserved <= limit and 0 <= spent <= limit, and its
    reserved amount covers all its open and unreconciled reservations; every
    reservation belongs to an existing account of its tenant. *)
Theorem ledger_invariant cs l :
  run ledger_step NewBudgetLedger cs l ->
  (forall k a, accounts l !! k = Some a ->
     k = budgetKey (a_TenantID a) (a_ID a) /\
     0 <= a_ReservedMicros a <= a_LimitMicros a /\ 0 <= a_SpentMicros a <= a_LimitMicros a /\
     held (books_of l) k <= a_ReservedMicros a) /\
  (forall k r, reservations l !! k = Some r ->
     k = budgetKey (r_TenantID r) (r_ID r) /\ 0 <= r_ReservedMicros r /\
     exists a, accounts l !! budgetKey (r_TenantID r) (r_AccountID r) = Some a /\
       a_TenantID a = r_TenantID r /\ a_ID a = r_AccountID r).
Proof.
  intros W%run_new_wf. split.
  - intros k a Ha. destruct (wf_account _ W _ _ Ha) as (? & _ & ? & ? & _).
    pose proof (wf_held _ W _ _ Ha). done.
  - intros k r Hr. destruct (wf_reservation _ W _ _ Hr) as (? & Ht & ? & _).
    do 2 (split; [done|]). destruct (wf_booked _ W _ _ Hr) as [a Ha]. exists a.
    split; [done|]. destruct (wf_account _ W _ _ Ha) as (Hk & Ht' & _).
    by apply budgetKey_inj in Hk as [-> ->].
Qed.

(** The books balance.  From the moment an account is created, its
    reserved amount is its opening amount plus what its open and unreconciled
    reservations hold, and its spent amount is its opening amount plus what
    its settled reservations cost. *)
Theorem ledger_balance cs l ctx now account l1 cs' l2 :
  run ledger_step NewBudgetLedger cs l ->
  env_ok l (CmdCreateAccount ctx now account) ->
  CreateAccount ctx now account l = Ok l1 ->
  run ledger_step l1 cs' l2 ->
  let k := budgetKey (a_TenantID account) (a_ID account) in
  exists a, accounts l2 !! k = Some a /\
    a_ReservedMicros a = a_ReservedMicros account + held (books_of l2) k /\
    a_SpentMicros a = a_SpentMicros account + settled (books_of l2) k.
Proof.
  intros W%run_new_wf He Hc Hr. cbv zeta.
  assert (W1 : wf (books_of l1)) by (eapply moves_wf; [done|by eapply create_moves]).
  unfold CreateAccount in Hc. destruct (contextError ctx); [discriminate|].
  destruct (with_defaults_money now account) as (Hi & Ht & _ & Hm1 & Hm2).
  accepted Hc. rewrite Hi, Ht in *. set (k := budgetKey _ _) in *.
  match goal with H : accounts l !! k = None |- _ => rename H into Hk end.
  destruct (held_none _ k W Hk) as [Hh Hs].
  match type of W1 with wf (books_of ?x) => set (l1 := x) in * end.
  assert (Ha : accs (books_of l1) !! k = Some (with_defaults now account))
    by apply lookup_insert_eq.
  destruct (ev_account _ _ (run_evolves _ _ _ Hr W1) _ _ Ha) as (a & Ha' & _ & H1 & H2).
  exists a. split; [done|]. change (held (books_of l1) k) with (held (books_of l) k) in H1.
  change (settled (books_of l1) k) with (settled (books_of l) k) in H2. lia.
Qed.

(** A reservation is honoured.  In every reachable ledger where no
    reservation was ever settled above its amount, committed usage stays
    within every hard limit, also across limit adjustments; and settling an
    open reservation for at most its amount always succeeds. *)
Theorem reservation_honoured cs l :
  run ledger_step NewBudgetLedger cs l -> frugal (books_of l) ->
  (forall k a, accounts l !! k = Some a ->
     a_ReservedMicros a + a_SpentMicros a <= a_LimitMicros a) /\
  (forall t id k r actual,
     no_nul t = true -> t <> "" -> id <> "" -> lookupReservationLocked t id l = Some (k, r) ->
     r_State r = ReservationOpen -> 0 <= actual <= r_ReservedMicros r ->
     exists l' r', Settle (Context None) t id actual l = Ok (l', r') /\
       reservations l' !! k = Some r' /\
       r' = r ⟦ r_SettledMicros := actual ⟧ ⟦ r_State := ReservationSettled ⟧).
Proof.
  intros Hr Hf. destruct (run_moves _ _ _ Hr new_wf) as [W Hm].
  assert (Hc : covered (books_of l)).
  { apply (moves_covered _ _ new_wf Hm); [|done]. intros k a H. cbn in H. by rewrite lookup_empty in H. }
  split; [exact Hc|]. intros t id k r actual Ht Ht0 Hi Hl Hs Ha.
  pose proof (lookup_spec l W t id k r Ht Hl) as (Hr' & _ & _ & Hk).
  pose proof (account_at_spec l W k r Hr') as Hacc.
  destruct (wf_account _ W _ _ Hacc) as (_ & _ & ? & ? & ?).
  assert (Hh : holds r = true) by (unfold holds; by rewrite Hs).
  pose proof (held_covers _ _ _ _ W Hr' Hh Hacc). pose proof (Hc _ _ Hacc) as Hcov. cbn in Hcov.
  unfold Settle. cbn [contextError]. rewrite Hl, Hs, <- Hk. unfold cannot_settle. exact_int.
  go_eval. eexists _, _. split; [reflexivity|]. split; [|done]. apply lookup_insert_eq.
Qed.

(** *** Claims *)
Definition booked_for (b : books) (t q : string) : Prop :=
  exists k r, ress b !! k = Some r /\ r_TenantID r = t /\ r_RequestID r = q.

Lemma booked_for_evolves b b' t q : evolves b b' -> booked_for b t q -> booked_for b' t q.
Proof.
  intros He (k & r & Hr & Ht & Hq). destruct (ev_reservation _ _ He _ _ Hr) as (r' & Hr' & Hf).
  exists k, r'. split; [done|]. unfold follows, same_booking in Hf. naive_solver congruence.
Qed.

(** A claiming scan over entries with the request does not come through. *)
Lemma claim_scan_blocked t a q clock order k r :
  (k, r) ∈ order -> r_TenantID r = t -> r_RequestID r = q ->
  reserve_scan t a q true clock order <> None.
Proof.
  intros Hin Ht Hq. induction order as [|[k' e] order IH]; [by apply not_elem_of_nil in Hin|].
  cbn. case_match eqn:E; [|by repeat case_match].
  apply elem_of_cons in Hin as [[= <- <-]|Hin]; [|auto].
  apply orb_true_iff in E as [E|E]; by go_bool.
Qed.

Lemma claim_true ctx clock order generated t a r q amount l l' x :
  env_ok l (CmdReserve ctx clock order generated t a r q amount true) ->
  ClaimReservation ctx clock order generated t a r q amount l = (l', Ok (x, true)) ->
  ~ booked_for (books_of l) t q /\ booked_for (books_of l') t q.
Proof.
  intros (_ & Ho & _) H. unfold ClaimReservation, reserve in H.
  destruct (contextError ctx); [discriminate|].
  destruct (_ || _) in H; [discriminate|].
  destruct (lookupReservationLocked t r l) as [[? ?]|];
    [repeat (case_match; try discriminate)|].
  destruct (reserve_scan t a q true clock order) eqn:Hscan; [discriminate|].
  split.
  - intros (k & e & He & Ht & Hq). revert Hscan. apply (claim_scan_blocked _ _ _ _ _ k e); [|done..].
    rewrite Ho. by apply elem_of_map_to_list.
  - destruct (accounts l !! _); [|discriminate].
    destruct (_ || _) in H; [discriminate|]. destruct generated as [id|]; [|discriminate].
    injection H as <- _. eexists (budgetKey t id), _. split; [apply lookup_insert_eq|done].
Qed.

(** Only one caller starts the external model call.  Once a claim for a
    request of a tenant succeeded, no later claim for that request succeeds,
    whatever account, reservation identifier or amount it names and whatever
    happened to the reservation in between. *)
Theorem claim_exclusive cs l ctx clock order generated t a r q amount x l1 cs' l2
    ctx' clock' order' generated' a' r' amount' :
  run ledger_step NewBudgetLedger cs l ->
  env_ok l (CmdReserve ctx clock order generated t a r q amount true) ->
  ClaimReservation ctx clock order generated t a r q amount l = (l1, Ok (x, true)) ->
  run ledger_step l1 cs' l2 ->
  env_ok l2 (CmdReserve ctx' clock' order' generated' t a' r' q amount' true) ->
  forall y, snd (ClaimReservation ctx' clock' order' generated' t a' r' q amount' l2) <> Ok (y, true).
Proof.
  intros Hr He Hc Hr' He' y Hy.
  assert (W1 : wf (books_of l1)).
  { pose proof (run_new_wf _ _ Hr) as W. eapply moves_wf; [exact W|].
    pose proof (reserve_moves l W ctx clock order generated t a r q amount true He) as Hm.
    unfold ClaimReservation in Hc. by rewrite Hc in Hm. }
  destruct (claim_true _ _ _ _ _ _ _ _ _ _ _ _ He Hc) as [_ Hb].
  pose proof (booked_for_evolves _ _ t q (run_evolves _ _ _ Hr' W1) Hb) as Hb2.
  destruct (ClaimReservation ctx' clock' order' generated' t a' r' q amount' l2) as [l3 res] eqn:Hc'.
  cbn in Hy. subst res. by destruct (claim_true _ _ _ _ _ _ _ _ _ _ _ _ He' Hc') as [[] _].
Qed.

(** The life of a reservation.  In every later ledger a reservation is
    still there under its key with its identity, booking, amount and times; it
    is unchanged, or moved from open to another state, or from reconciliation
    to settled; once settled or released it never changes again. *)
Theorem reservation_lifecycle cs l cs' l' k r :
  run ledger_step NewBudgetLedger cs l -> run ledger_step l cs' l' ->
  reservations l !! k = Some r ->
  exists r', reservations l' !! k = Some r' /\ follows r r' /\
    (r_State r = ReservationSettled \/ r_State r = ReservationReleased -> r' = r).
Proof.
  intros Hr Hr' Hk. pose proof (run_evolves _ _ _ Hr' (run_new_wf _ _ Hr)) as He.
  destruct (ev_reservation _ _ He _ _ Hk) as (r' & Hk' & Hf). exists r'. split; [done|].
  split; [done|]. destruct Hf as [->|[_ Hs]]; [done|]. naive_solver congruence.
Qed.

(** *** Retries *)
Lemma lookup_after t id l l' k r r' :
  lookupReservationLocked t id l = Some (k, r) ->
  reservations l' = <[k := r']> (reservations l) -> reservationIDs l' = reservationIDs l ->
  lookupReservationLocked t id l' = Some (k, r').
Proof.
  unfold lookupReservationLocked. intros H -> ->.
  destruct (reservations l !! budgetKey t id) as [e|] eqn:E.
  - injection H as <- _. by rewrite lookup_insert_eq.
  - destruct (reservationIDs l !! budgetKey t id) as [g|]; [|discriminate].
    destruct (reservations l !! budgetKey t g) as [e'|] eqn:E'; [|discriminate].
    injection H as <- _. rewrite lookup_insert_eq, lookup_insert_ne, E by congruence. done.
Qed.

Lemma settle_retry ctx t id actual l l' r :
  Settle ctx t id actual l = Ok (l', r) ->
  Settle ctx t id actual l' = Ok (l', r) /\
  (forall other, 0 <= other -> other <> actual ->
     Settle ctx t id other l' = Err ErrReservationConflict).
Proof.
  unfold Settle. intros H. destruct (contextError ctx); [discriminate|].
  destruct (_ || _) eqn:G in H; [discriminate|].
  destruct (lookupReservationLocked t id l) as [[k e]|] eqn:Hl; [|discriminate].
  assert (Hs : lookupReservationLocked t id l' = Some (k, r) /\
               r_State r = ReservationSettled /\ r_SettledMicros r = actual).
  { destruct (bool_decide (r_State e = ReservationSettled)) eqn:Es.
    { destruct (_ =? _) eqn:Ea in H; [|discriminate]. go_bool. by simplify_eq. }
    destruct (negb _); [discriminate|]. destruct (cannot_settle _ _ _); [discriminate|].
    injection H as <- <-. split; [|done]. by eapply lookup_after. }
  destruct Hs as (Hl' & Hs & Ha). go_bool. rewrite Hl', Hs, Ha.
  split; [by go_eval|]. intros other Ho Hne. by go_eval.
Qed.

Lemma reconcile_retry ctx t id actual l l' r :
  Reconcile ctx t id actual l = Ok (l', r) -> Reconcile ctx t id actual l' = Ok (l', r).
Proof.
  unfold Reconcile. intros H. destruct (contextError ctx); [discriminate|].
  destruct (_ || _) eqn:G in H |- *; [discriminate|].
  destruct (lookupReservationLocked t id l) as [[k e]|] eqn:Hl; [|discriminate].
  assert (Hs : lookupReservationLocked t id l' = Some (k, r) /\
               r_State r = ReservationSettled /\ r_SettledMicros r = actual).
  { destruct (bool_decide (r_State e = ReservationSettled)) eqn:Es.
    { destruct (_ =? _) eqn:Ea in H; [|discriminate]. go_bool. by simplify_eq. }
    destruct (_ && _) in H; [discriminate|]. destruct (cannot_settle _ _ _); [discriminate|].
    injection H as <- <-. split; [|done]. by eapply lookup_after. }
  destruct Hs as (Hl' & Hs & Ha). rewrite Hl', Hs, Ha. by go_eval.
Qed.

Lemma release_retry ctx t id l l' :
  Release ctx t id l = Ok l' -> Release ctx t id l' = Ok l'.
Proof.
  unfold Release. intros H. destruct (contextError ctx); [discriminate|].
  destruct (_ || _) eqn:G in H |- *; [discriminate|].
  destruct (lookupReservationLocked t id l) as [[k e]|] eqn:Hl; [|discriminate].
  destruct (bool_decide (r_State e = ReservationReleased)) eqn:Es.
  { injection H as <-. by rewrite Hl, Es. }
  destruct (negb _); [discriminate|]. destruct (_ <? _) in H; [discriminate|].
  apply Ok_inj in H. rewrite <- H.
  erewrite lookup_after; [|exact Hl|reflexivity|reflexivity]. done.
Qed.

Lemma require_retry ctx t id l l' r :
  RequireReconciliation ctx t id l = Ok (l', r) -> RequireReconciliation ctx t id l' = Ok (l', r).
Proof.
  unfold RequireReconciliation. intros H. destruct (contextError ctx); [discriminate|].
  destruct (_ || _) eqn:G in H |- *; [discriminate|].
  destruct (lookupReservationLocked t id l) as [[k e]|] eqn:Hl; [|discriminate].
  destruct (bool_decide (r_State e = ReservationReconcile)) eqn:Es.
  { injection H as <- <-. by rewrite Hl, Es. }
  destruct (negb _); [discriminate|]. injection H as <- <-.
  erewrite lookup_after; [|exact Hl|reflexivity|reflexivity]. done.
Qed.

Lemma reserve_retry ctx clock order generated t a id q amount claim l l' x b
    clock' order' generated' claim' :
  reserve ctx clock order generated t a id q amount claim l = (l', Ok (x, b)) ->
  Before (clock' AtLookup) (r_ExpiresAt x) = true ->
  reserve ctx clock' order' generated' t a id q amount claim' l' = (l', Ok (x, negb claim')).
Proof.
  unfold reserve. intros H Hb. destruct (contextError ctx); [discriminate|].
  destruct (_ || _) in H |- *; [discriminate|].
  assert (Hl' : exists k, lookupReservationLocked t id l' = Some (k, x) /\
    r_State x = ReservationOpen /\ r_AccountID x = a /\ r_RequestID x = q /\
    r_ReservedMicros x = amount).
  { destruct (lookupReservationLocked t id l) as [[k e]|] eqn:Hl.
    - destruct (_ && _) in H; [discriminate|].
      destruct (_ && _) eqn:E in H; [|repeat case_match; discriminate].
      injection H as <- <- <-. go_bool. eauto 10.
    - destruct (reserve_scan _ _ _ _ _ _); [discriminate|].
      destruct (accounts l !! _); [|discriminate]. destruct (_ || _) in H; [discriminate|].
      destruct generated as [g|]; [|discriminate]. injection H as <- <- <-.
      exists (budgetKey t g). split; [|done].
      unfold lookupReservationLocked in Hl |- *. cbn.
      destruct (decide (budgetKey t id = budgetKey t g)) as [->|Hne].
      + by rewrite lookup_insert_eq.
      + rewrite (lookup_insert_ne _ _ _ _ (not_eq_sym Hne)).
        destruct (reservations l !! budgetKey t id); [discriminate|].
        by rewrite !lookup_insert_eq. }
  destruct Hl' as (k & -> & Hs & Ha & Hq & Hm). rewrite Hs, Hb, Ha, Hq, Hm. by go_eval.
Qed.

(** Retries are harmless.  Repeating a successful call changes nothing:
    [Reserve] (before the reservation expires) and [ClaimReservation] find the
    same reservation, the claim without handing it out again; [Settle],
    [Release], [Reconcile] and [RequireReconciliation] return the same result
    on the same ledger; and a settlement for another amount is refused. *)
Theorem retries_idempotent ctx t id l l' :
  (forall clock order generated a q amount claim x b clock' order' generated' claim',
     reserve ctx clock order generated t a id q amount claim l = (l', Ok (x, b)) ->
     Before (clock' AtLookup) (r_ExpiresAt x) = true ->
     reserve ctx clock' order' generated' t a id q amount claim' l' = (l', Ok (x, negb claim'))) /\
  (forall actual r, Settle ctx t id actual l = Ok (l', r) ->
     Settle ctx t id actual l' = Ok (l', r) /\
     forall other, 0 <= other -> other <> actual ->
       Settle ctx t id other l' = Err ErrReservationConflict) /\
  (Release ctx t id l = Ok l' -> Release ctx t id l' = Ok l') /\
  (forall actual r, Reconcile ctx t id actual l = Ok (l', r) ->
     Reconcile ctx t id actual l' = Ok (l', r)) /\
  (forall r, RequireReconciliation ctx t id l = Ok (l', r) ->
     RequireReconciliation ctx t id l' = Ok (l', r)).
Proof.
  split_and!; intros;
    [ by eapply reserve_retry | by eapply settle_retry | by eapply release_retry
    | by eapply reconcile_retry | by eapply require_retry ].
Qed.

(** *** Expiry is exact *)
Lemma expires_first_asym x y : expires_first x y = true -> expires_first y x = false.
Proof.
  unfold expires_first, Equal, Before. rewrite (Z.eqb_sym (r_ExpiresAt y)).
  case_match; [apply string_ltb_asym | intros; go_bool; lia].
Qed.

Lemma expires_first_negtrans x y z :
  expires_first y x = false -> expires_first z y = false -> expires_first z x = false.
Proof.
  unfold expires_first, Equal, Before.
  repeat case_match; intros; go_bool; try lia. by eapply string_ltb_negtrans.
Qed.

Definition parked (r : Reservation) : Reservation := r ⟦ r_State := ReservationReconcile ⟧.

Lemma park_all_lookup t ts (m : gmap string Reservation) k :
  (forall r, r ∈ ts -> m !! budgetKey t (r_ID r) = Some r) -> NoDup ts ->
  foldl (fun m c => <[budgetKey t (r_ID c) := c]> m) m (map parked ts) !! k =
  match m !! k with
  | Some r => if decide (r ∈ ts) then if decide (k = budgetKey t (r_ID r))
              then Some (parked r) else Some r else Some r
  | None => None
  end.
Proof.
  revert m. induction ts as [|r ts IH]; intros m Hm Hnd.
  { cbn. destruct (m !! k); [|done]. rewrite decide_False by apply not_elem_of_nil. done. }
  apply NoDup_cons in Hnd as [Hni Hnd]. cbn [map foldl]. change (r_ID (parked r)) with (r_ID r).
  assert (Hr : m !! budgetKey t (r_ID r) = Some r) by (apply Hm; by left).
  rewrite IH; [|intros r' Hr'|done].
  - destruct (decide (k = budgetKey t (r_ID r))) as [->|Hne].
    + assert (Hpi : parked r ∉ ts).
      { intros Hin. pose proof (Hm (parked r) ltac:(by right)) as Hp.
        change (r_ID (parked r)) with (r_ID r) in Hp. rewrite Hr in Hp. injection Hp as Hp.
        apply Hni. by rewrite Hp. }
      rewrite lookup_insert_eq, Hr, (decide_False (P := parked r ∈ ts)) by done.
      rewrite (decide_True (P := r ∈ r :: ts)) by (by left).
      by rewrite decide_True.
    + rewrite lookup_insert_ne by done. destruct (m !! k) as [e|] eqn:He; [|done].
      destruct (decide (e ∈ ts)) as [Hin|Hin].
      * rewrite (decide_True (P := e ∈ r :: ts)) by (by right). done.
      * case_decide as Hin'; [|done]. apply elem_of_cons in Hin' as [->|]; [|done].
        by rewrite decide_False.
  - rewrite lookup_insert_ne; [apply Hm; by right|]. intros Heq.
    pose proof (Hm r' ltac:(by right)) as Hr2. rewrite <- Heq, Hr in Hr2. by simplify_eq.
Qed.

(** An open reservation of the tenant whose expiry has passed. *)
Definition overdue (t : string) (now : time) (r : Reservation) : Prop :=
  r_TenantID r = t /\ r_State r = ReservationOpen /\ r_ExpiresAt r <= now.
#[export] Instance overdue_dec t now r : Decision (overdue t now r).
Proof. unfold overdue. apply _. Defined.

Lemma expired_open_overdue t now r : expired_open t now r = true <-> overdue t now r.
Proof.
  unfold expired_open, overdue, Before. rewrite !andb_true_iff, !bool_decide_eq_true, negb_true_iff, Z.ltb_ge.
  tauto.
Qed.

Lemma filter_overdue t now l : List.filter (expired_open t now) l = filter (overdue t now) l.
Proof.
  induction l as [|r l IH]; [done|]. cbn [List.filter]. rewrite filter_cons, IH.
  destruct (expired_open t now r) eqn:E.
  - rewrite decide_True; [done|by apply expired_open_overdue].
  - rewrite decide_False; [done|]. rewrite <- expired_open_overdue. congruence.
Qed.

Lemma expires_first_le r x : expires_first r x = false -> r_ExpiresAt x <= r_ExpiresAt r.
Proof.
  unfold expires_first, Equal, Before. destruct (r_ExpiresAt r =? r_ExpiresAt x) eqn:E; intros H; lia.
Qed.

(** Expiry is exact.  On every reachable ledger [ExpireReservations]
    succeeds, leaves the accounts alone (the money stays held), and moves to
    reconciliation exactly a choice of the tenant's open reservations whose
    expiry has passed: all of them when they are at most [limit], otherwise
    [limit] of them such that none left behind expires before a chosen one;
    every other reservation is unchanged. *)
Theorem expiry_exact cs l t limit now :
  run ledger_step NewBudgetLedger cs l -> no_nul t = true -> t <> "" -> 0 < limit ->
  exists l' ts, ExpireReservations (Context None) now t limit l = Ok (l', map parked ts) /\
    accounts l' = accounts l /\ NoDup ts /\
    Z.of_nat (length ts) = Z.min limit (Z.of_nat (length
      (filter (overdue t now) (map snd (map_to_list (reservations l)))))) /\
    (forall k r, reservations l !! k = Some r ->
       r ∈ ts -> overdue t now r /\ reservations l' !! k = Some (parked r)) /\
    (forall k r, reservations l !! k = Some r -> r ∉ ts -> reservations l' !! k = Some r) /\
    (forall k r x, reservations l !! k = Some r -> r ∉ ts -> overdue t now r ->
       x ∈ ts -> r_ExpiresAt x <= r_ExpiresAt r).
Proof.
  intros W%run_new_wf Ht Ht0 Hl. unfold ExpireReservations. cbn [contextError].
  go_eval. cbn [orb]. set (cs0 := sort_slice _ _).
  assert (Hp : cs0 ≡ₚ List.filter (expired_open t now) (map snd (map_to_list (reservations l))))
    by apply sort_slice_Permutation.
  assert (Hss : StronglySorted (not_after expires_first) cs0).
  { apply sort_slice_StronglySorted; [apply expires_first_asym|apply expires_first_negtrans]. }
  destruct (expired_candidates l W t now cs0 Ht Hp) as [Hnd Hin].
  set (ts := if limit <? _ then _ else _). eexists _, ts. split; [reflexivity|].
  assert (Hts : ts = take (Z.to_nat limit) cs0).
  { unfold ts. case_match; [done|]. go_bool. rewrite take_ge; [done|lia]. }
  assert (Hsub : forall r, r ∈ ts -> r ∈ cs0).
  { intros r. rewrite Hts. intros [i [Hi _]]%elem_of_take. by eapply list_elem_of_lookup_2. }
  assert (Hnd' : NoDup ts) by (rewrite Hts; eapply sublist_NoDup; [exact Hnd|apply sublist_take]).
  assert (Hlook : forall k r, reservations l !! k = Some r -> r ∈ cs0 -> k = budgetKey t (r_ID r)).
  { intros k r Hr [_ He]%Hin. destruct (wf_reservation _ W k r Hr) as [-> _].
    unfold expired_open in He. go_bool. by subst. }
  split; [done|]. split; [done|]. split.
  { rewrite Hts, length_take, Hp, filter_overdue. lia. }
  assert (Hlk : forall k r, reservations l !! k = Some r ->
    foldl (fun m c => <[budgetKey t (r_ID c) := c]> m) (reservations l) (map parked ts) !! k
    = if decide (r ∈ ts) then if decide (k = budgetKey t (r_ID r)) then Some (parked r)
      else Some r else Some r).
  { intros k r Hr. rewrite park_all_lookup; [by rewrite Hr| |done].
    intros r' Hr'. by apply Hin, Hsub. }
  split; [|split].
  - intros k r Hr Hrts. pose proof (Hsub _ Hrts) as Hc. split; [by apply expired_open_overdue, Hin|].
    etransitivity; [by apply Hlk|]. rewrite decide_True by done.
    by rewrite decide_True by by apply Hlook.
  - intros k r Hr Hrts. etransitivity; [by apply Hlk|]. by rewrite decide_False.
  - intros k r x Hr Hrts He%expired_open_overdue Hx. apply expires_first_le.
    assert (Hrc : r ∈ cs0).
    { apply Hin. split; [|done]. destruct (wf_reservation _ W k r Hr) as [Hk _].
      unfold expired_open in He. go_bool. subst t. by rewrite <- Hk. }
    rewrite <- (take_drop (Z.to_nat limit) cs0) in Hss, Hrc. rewrite <- Hts in Hss, Hrc.
    apply elem_of_app in Hrc as [|Hrd]; [done|].
    change (not_after expires_first x r). by eapply StronglySorted_app_1_elem_of.
Qed.

(** *** Model calls *)
Lemma equalOptionalInt64_refl o : equalOptionalInt64 o o = true.
Proof. destruct o; [apply Z.eqb_refl|done]. Qed.
Lemma equalOptionalTime_refl o : equalOptionalTime o o = true.
Proof. destruct o; [apply Z.eqb_refl|done]. Qed.

Lemma sameModelCall_ids c id id' : sameModelCall (c ⟦ c_ID := id ⟧) (c ⟦ c_ID := id' ⟧) = true.
Proof.
  unfold sameModelCall, Equal. cbn.
  rewrite !equalOptionalInt64_refl, ?equalOptionalTime_refl. by go_eval.
Qed.

Lemma with_id_same g c c' : with_id g c = Ok c' -> exists id, c' = c ⟦ c_ID := id ⟧.
Proof.
  unfold with_id. repeat case_match; intros [= <-]; [by eexists|]. exists (c_ID c). by destruct c.
Qed.

Lemma finalize_inv ctx g f l l' r :
  FinalizeModelCall ctx g f l = Ok (l', r) ->
  contextError ctx = None /\ finalization_valid f = true /\
  exists call, with_id g (f_Call f) = Ok call /\
  let key := budgetKey (c_TenantID call) (c_RequestID call) in
  (exists old, modelCalls l !! key = Some old /\ sameModelCall old call = true /\ l' = l) \/
  (modelCalls l !! key = None /\ modelCalls l' = <[key := call]> (modelCalls l) /\
   (exists k, lookupReservationLocked (c_TenantID call) (f_ReservationID f) l' = Some (k, r)) /\
   r_RequestID r = c_RequestID call /\
   match f_Disposition f with
   | ReservationDispositionSettle =>
       r_State r = ReservationSettled /\ r_SettledMicros r = f_ActualMicros f
   | ReservationDispositionRelease => r_State r = ReservationReleased
   | _ => r_State r = ReservationReconcile
   end).
Proof.
  unfold FinalizeModelCall. intros H. destruct (contextError ctx); [discriminate|].
  destruct (finalization_valid f) eqn:Hv; [|discriminate]. cbn [negb] in H.
  split; [done|]. split; [done|]. apply rbind_ok in H as (call & Hc & H). exists call. split; [done|]. cbv zeta.
  destruct (modelCalls l !! _) as [old|].
  { left. exists old. destruct (sameModelCall old call) eqn:Hs; [|discriminate].
    cbn [negb] in H. destruct (lookupReservationLocked _ _ l) as [[? ?]|]; [|discriminate].
    by injection H as <- _. }
  right. split; [done|].
  destruct (lookupReservationLocked _ _ l) as [[k e]|] eqn:Hl; [|discriminate].
  destruct (negb _) eqn:Hq in H; [discriminate|]. go_bool.
  destruct (accounts l !! _) as [a|]; [|discriminate].
  apply rbind_ok in H as ([l1 r1] & Hm & H). injection H as <- <-.
  assert (Hdisp : forall d, f_Disposition f <> ReservationDispositionOther d).
  { intros d Hd. unfold finalization_valid in Hv. rewrite Hd in Hv. cbn in Hv.
    by rewrite !orb_true_r in Hv. }
  assert (Hl1 : modelCalls l1 = modelCalls l /\ reservationIDs l1 = reservationIDs l /\
    (reservations l1 = reservations l /\ r1 = e \/ reservations l1 = <[k := r1]> (reservations l)) /\
    r_RequestID r1 = r_RequestID e /\
    match f_Disposition f with
    | ReservationDispositionSettle =>
        r_State r1 = ReservationSettled /\ r_SettledMicros r1 = f_ActualMicros f
    | ReservationDispositionRelease => r_State r1 = ReservationReleased
    | _ => r_State r1 = ReservationReconcile
    end).
  { destruct (f_Disposition f) as [| | |d]; [| | |by destruct (Hdisp d)];
      repeat (case_match; try discriminate); go_bool; injection Hm as <- <-; auto 10. }
  destruct Hl1 as (-> & Hids & Hres & Hrq & Hst). split; [done|]. split; [|by rewrite Hrq].
  exists k. destruct Hres as [[Hres ->]|Hres].
  - unfold lookupReservationLocked in *. cbn. by rewrite Hres, Hids.
  - by eapply lookup_after.
Qed.

(** Finalisation records a call once and settles its reservation with it.
    A first finalisation leaves the reservation settled at the recorded cost,
    released at no cost, or in reconciliation, as its disposition says; the
    same finalisation again, with any fresh identifier, returns the same
    reservation and changes nothing; a different call for the same request is
    refused. *)
Theorem finalize_once ctx g f l l' r :
  FinalizeModelCall ctx g f l = Ok (l', r) ->
  ModelCall_lookup (c_TenantID (f_Call f)) (c_RequestID (f_Call f)) l = None ->
  (exists call, with_id g (f_Call f) = Ok call /\
     ModelCall_lookup (c_TenantID (f_Call f)) (c_RequestID (f_Call f)) l' = Some call /\
     r_RequestID r = c_RequestID call /\
     match f_Disposition f with
     | ReservationDispositionSettle =>
         r_State r = ReservationSettled /\ r_SettledMicros r = c_CostMicros call
     | ReservationDispositionRelease => r_State r = ReservationReleased /\ c_CostMicros call = 0
     | _ => r_State r = ReservationReconcile /\ c_Status call = ModelCallReconcile
     end) /\
  (forall id, FinalizeModelCall ctx (Ok id) f l' = Ok (l', r)) /\
  (forall g' f' call', with_id g' (f_Call f') = Ok call' -> finalization_valid f' = true ->
     c_TenantID call' = c_TenantID (f_Call f) -> c_RequestID call' = c_RequestID (f_Call f) ->
     (forall id, sameModelCall ((f_Call f) ⟦ c_ID := id ⟧) call' = false) ->
     FinalizeModelCall ctx g' f' l' = Err ErrReservationConflict).
Proof.
  intros H Hn. destruct (finalize_inv _ _ _ _ _ _ H) as (Hctx & Hv & call & Hc & Hcase).
  destruct (with_id_same _ _ _ Hc) as [id0 Hid]. cbv zeta in Hcase.
  assert (Ht : c_TenantID call = c_TenantID (f_Call f)) by by rewrite Hid.
  assert (Hq : c_RequestID call = c_RequestID (f_Call f)) by by rewrite Hid.
  rewrite Ht, Hq in Hcase. unfold ModelCall_lookup in *.
  destruct Hcase as [(old & Ho & _)|(_ & Hm & (k & Hl) & Hrq & Hst)]; [congruence|].
  assert (Hrec : modelCalls l' !! budgetKey (c_TenantID (f_Call f)) (c_RequestID (f_Call f)) = Some call)
    by (rewrite Hm; apply lookup_insert_eq).
  split_and!.
  - exists call. rewrite Hq. split_and!; try done.
    assert (Hcost : c_CostMicros call = c_CostMicros (f_Call f)
              /\ c_Status call = c_Status (f_Call f)) by (by rewrite Hid).
    destruct Hcost as [-> ->]. unfold finalization_valid in Hv. cbv zeta in Hv. guards Hv.
    destruct (f_Disposition f); go_bool; try done. destruct Hst as [-> ->].
    split; [done|]. by symmetry.
  - intros id. unfold FinalizeModelCall. rewrite Hctx, Hv. cbn [negb].
    destruct (with_id (Ok id) (f_Call f)) as [c2|] eqn:Hc2;
      [|unfold with_id in Hc2; by case_match].
    destruct (with_id_same _ _ _ Hc2) as [id2 ->]. cbn [rbind].
    change (c_TenantID ((f_Call f) ⟦ c_ID := id2 ⟧)) with (c_TenantID (f_Call f)).
    change (c_RequestID ((f_Call f) ⟦ c_ID := id2 ⟧)) with (c_RequestID (f_Call f)).
    rewrite Hrec, Hid, sameModelCall_ids. cbn [negb]. by rewrite Hl.
  - intros g' f' call' Hc' Hv' Ht' Hq' Hd. unfold FinalizeModelCall. rewrite Hctx, Hv'. cbn [negb].
    rewrite Hc'. cbn [rbind]. by rewrite Ht', Hq', Hrec, Hid, Hd.
Qed.

(** What may happen to a recorded call. *)
Definition call_follows (c c' : ModelCall) : Prop :=
  c' = c \/
  (c_Status c = ModelCallReconcile /\ c_Status c' = ModelCallReconciled /\
   validModelDigest (c_ReconciliationReceiptSHA256 c') = true /\
   exists n, c' = applyReconciliation c n).

Lemma reconcile_call_inv ctx n l l' r :
  ReconcileModelCall ctx n l = Ok (l', r) ->
  let key := budgetKey (n_TenantID n) (n_RequestID n) in
  contextError ctx = None /\ reconciliation_valid n = true /\
  exists k call, modelCalls l !! key = Some call /\
    lookupReservationLocked (n_TenantID n) (n_ReservationID n) l' = Some (k, r) /\
    r_RequestID r = n_RequestID n /\ r_State r = ReservationSettled /\
    r_SettledMicros r = n_ActualMicros n /\
    c_Provider call = n_Provider n /\ c_LogicalModel call = n_Model n /\
    ((l' = l /\ sameReconciliation call n = true /\ c_Status call = ModelCallReconciled) \/
     (c_Status call = ModelCallReconcile /\
      modelCalls l' = <[key := applyReconciliation call n]> (modelCalls l))).
Proof.
  unfold ReconcileModelCall. intros H. destruct (contextError ctx); [discriminate|].
  destruct (reconciliation_valid n) eqn:Hv; [|discriminate]. cbn [negb] in H.
  do 2 (split; [done|]). destruct (modelCalls l !! _) as [call|]; [|discriminate].
  destruct (_ || _) eqn:G1 in H; [discriminate|].
  destruct (lookupReservationLocked _ _ l) as [[k e]|] eqn:Hl; [|discriminate].
  destruct (negb _) eqn:G2 in H; [discriminate|]. exists k, call. split; [done|].
  destruct (bool_decide (c_Status call = ModelCallReconciled)) eqn:Hs.
  { destruct (_ || _) eqn:G3 in H; [discriminate|]. injection H as <- <-. go_bool. auto 10. }
  destruct (_ || _) eqn:G3 in H; [discriminate|]. destruct (accounts l !! _); [|discriminate].
  destruct (cannot_settle _ _ _); [discriminate|]. injection H as <- <-. go_bool.
  split; [by eapply lookup_after|]. auto 10.
Qed.

Lemma kept_calls {A} (x : result (BudgetLedger * A) budget_error) l :
  (forall l' y, x = Ok (l', y) -> modelCalls l' = modelCalls l) ->
  modelCalls (kept l x) = modelCalls l.
Proof. intros H. destruct x as [[l' y]|]; [by apply (H l' y)|done]. Qed.

Ltac same_calls H :=
  repeat match type of H with
  | (match ?x with _ => _ end) = _ => destruct x; try discriminate H
  end; try (injection H as <- <-; reflexivity).

Lemma step_calls l c k call :
  modelCalls l !! k = Some call ->
  exists call', modelCalls (apply l c) !! k = Some call' /\ call_follows call call'.
Proof.
  intros Hk.
  assert (Hsame : modelCalls (apply l c) = modelCalls l ->
    exists call', modelCalls (apply l c) !! k = Some call' /\ call_follows call call').
  { intros ->. exists call. split; [done|]. by left. }
  destruct c as [ctx now acc|ctx clock order g t a r q amount claim|ctx t r x|ctx t r|ctx t r x
    |ctx t r|ctx now t lim|ctx r16 r8 now j|ctx g f|ctx n]; cbn [apply] in *.
  - apply Hsame. unfold kept', CreateAccount. cbv zeta. by repeat case_match; simplify_eq.
  - apply Hsame. unfold reserve. by repeat case_match.
  - apply Hsame, kept_calls. intros l' y H. unfold Settle in H. same_calls H.
  - apply Hsame. unfold kept', Release. by repeat case_match; simplify_eq.
  - apply Hsame, kept_calls. intros l' y H. unfold Reconcile in H. same_calls H.
  - apply Hsame, kept_calls. intros l' y H. unfold RequireReconciliation in H. same_calls H.
  - apply Hsame, kept_calls. intros l' y H. unfold ExpireReservations in H. same_calls H.
  - apply Hsame, kept_calls. intros l' y H. unfold Adjust in H.
    destruct (contextError ctx); [discriminate|]. apply rbind_ok in H as (j' & _ & H).
    destruct (adjustments l !! _).
    { destruct (negb _); [discriminate|]. by injection H as <- _. }
    apply rbind_ok in H as ([a|] & _ & H); [|discriminate]. by accepted H.
  - destruct (FinalizeModelCall ctx g f l) as [[l' r]|] eqn:H; [|by apply Hsame].
    destruct (finalize_inv _ _ _ _ _ _ H) as (_ & _ & c & _ & [(old & _ & _ & ->)|(Hn & Hm & _)]).
    { by apply Hsame. }
    exists call. split; [|by left]. cbn [kept]. rewrite Hm, lookup_insert_ne; [done|congruence].
  - destruct (ReconcileModelCall ctx n l) as [[l' r]|] eqn:H; [|by apply Hsame].
    destruct (reconcile_call_inv _ _ _ _ _ H) as (_ & Hv & k' & c & Hc & _ & _ & _ & _ & _ & _
      & [(-> & _)|(Hs & Hm)]); [by apply Hsame|].
    cbn [kept]. rewrite Hm. destruct (decide (budgetKey (n_TenantID n) (n_RequestID n) = k)) as [Heq|Hne].
    + rewrite Heq in *. simplify_eq. eexists. split; [apply lookup_insert_eq|]. right.
      unfold reconciliation_valid in Hv. cbv zeta in Hv. guards Hv. go_bool. eauto 10.
    + exists call. split; [|by left]. by rewrite lookup_insert_ne.
Qed.

Lemma call_follows_trans c c' c'' : call_follows c c' -> call_follows c' c'' -> call_follows c c''.
Proof. unfold call_follows. intros [->|(? & ? & ?)] [->|(? & ? & ?)]; auto; congruence. Qed.

(** The model-call record is append-only.  A recorded call is kept for
    good; the only change it ever sees is one reconciliation, from RECONCILE
    to RECONCILED with a receipt digest, which keeps who called what and when
    and fixes tokens, cost, provider identifiers and the receipt. *)
Theorem model_calls_append_only l cs l' k call :
  run ledger_step l cs l' -> modelCalls l !! k = Some call ->
  exists call', modelCalls l' !! k = Some call' /\ call_follows call call' /\
    c_ID call' = c_ID call /\ c_TenantID call' = c_TenantID call /\
    c_RequestID call' = c_RequestID call /\ c_ProjectID call' = c_ProjectID call /\
    c_AgentInstanceID call' = c_AgentInstanceID call /\ c_InputSHA256 call' = c_InputSHA256 call /\
    c_OutputSHA256 call' = c_OutputSHA256 call /\ c_CreatedAt call' = c_CreatedAt call /\
    (c_Status call <> ModelCallReconcile -> call' = call).
Proof.
  intros Hr Hk.
  assert (H : exists call', modelCalls l' !! k = Some call' /\ call_follows call call').
  { induction Hr as [l|l cs l1 c l2 _ IH Hs]; [exists call; split; [done|by left]|].
    destruct (IH Hk) as (c1 & Hc1 & Hf1). unfold ledger_step in Hs.
    destruct (decide _); [|discriminate]. injection Hs as <-.
    destruct (step_calls l1 c k c1 Hc1) as (c2 & Hc2 & Hf2). eauto using call_follows_trans. }
  destruct H as (call' & Hk' & Hf). exists call'. split; [done|]. split; [done|].
  destruct Hf as [->|(Hs & _ & _ & n & ->)]; [auto 12|].
  cbn. by split_and!.
Qed.

Lemma cloneOptionalInt64_id o : cloneOptionalInt64 o = o.
Proof. by destruct o. Qed.

Lemma sameReconciliation_apply c n : sameReconciliation (applyReconciliation c n) n = true.
Proof.
  unfold sameReconciliation. cbn. rewrite !cloneOptionalInt64_id, !equalOptionalInt64_refl.
  by go_eval.
Qed.

(** Reconciliation happens once, for one receipt.  After a successful
    [ReconcileModelCall] the call is RECONCILED at the settled amount under
    that receipt; the same reconciliation again returns the same reservation
    and changes nothing; one with another amount, receipt, provider request or
    model version for that request is refused. *)
Theorem reconcile_once ctx n l l' r :
  ReconcileModelCall ctx n l = Ok (l', r) ->
  (exists call, ModelCall_lookup (n_TenantID n) (n_RequestID n) l' = Some call /\
     c_Status call = ModelCallReconciled /\ c_CostMicros call = n_ActualMicros n /\
     c_ReconciliationReceiptSHA256 call = n_ReceiptSHA256 n /\
     r_State r = ReservationSettled /\ r_SettledMicros r = c_CostMicros call) /\
  ReconcileModelCall ctx n l' = Ok (l', r) /\
  (forall n', n_TenantID n' = n_TenantID n -> n_RequestID n' = n_RequestID n ->
     n_ActualMicros n' <> n_ActualMicros n \/ n_ReceiptSHA256 n' <> n_ReceiptSHA256 n \/
     t_ProviderRequestID (n_Usage n') <> t_ProviderRequestID (n_Usage n) \/
     t_ModelVersion (n_Usage n') <> t_ModelVersion (n_Usage n) ->
     is_ok (ReconcileModelCall ctx n' l') = false).
Proof.
  intros H. destruct (reconcile_call_inv _ _ _ _ _ H) as (Hctx & Hv & k & call & Hc & Hl & Hrq
    & Hs & Hset & Hp & Hm & Hcase). unfold ModelCall_lookup.
  set (key := budgetKey _ _) in *.
  assert (Hrec : exists call', modelCalls l' !! key = Some call' /\
    c_Status call' = ModelCallReconciled /\ sameReconciliation call' n = true /\
    c_Provider call' = n_Provider n /\ c_LogicalModel call' = n_Model n).
  { destruct Hcase as [(-> & Hsame & Hst)|(Hst & ->)]; [exists call; auto|].
    eexists. split; [apply lookup_insert_eq|]. split; [done|].
    split; [apply sameReconciliation_apply|done]. }
  destruct Hrec as (call' & Hc' & Hst' & Hsame & Hp' & Hm').
  pose proof Hsame as Hsame'. unfold sameReconciliation in Hsame'. go_bool. split_and!.
  - exists call'. split_and!; try done; lia.
  - unfold ReconcileModelCall. rewrite Hctx, Hv. cbn [negb]. fold key.
    rewrite Hc', Hp', Hm', Hl, Hrq, Hst', Hs, Hset, Hsame. by go_eval.
  - intros n' Ht' Hq' Hd. unfold ReconcileModelCall. rewrite Hctx.
    destruct (negb _); [done|]. rewrite Ht', Hq'. fold key. rewrite Hc'.
    rewrite Hst', (bool_decide_eq_true_2 (ModelCallReconciled = _)) by done.
    cbv iota.
    destruct (lookupReservationLocked _ (n_ReservationID n') l') as [[k' e]|]; [|by case_match].
    destruct (_ || _); [done|]. destruct (bool_decide (r_RequestID e = _)); [|done].
    cbn [negb]. destruct (_ || _) eqn:G; [done|]. exfalso. apply orb_false_iff in G as [_ G].
    apply negb_false_iff in G. unfold sameReconciliation in G. go_bool. destruct Hd as [Hd|[Hd|[Hd|Hd]]]; apply Hd; congruence.
Qed.

(** *** Limit adjustments *)
Lemma sameBudgetAdjustment_spec j j' :
  sameBudgetAdjustment j j' = true <->
  (j_TenantID j = j_TenantID j' /\ j_ProjectID j = j_ProjectID j' /\
   j_PrincipalID j = j_PrincipalID j' /\ j_IdempotencyKey j = j_IdempotencyKey j' /\
   j_ExpectedVersion j = j_ExpectedVersion j' /\ j_HardLimitMicros j = j_HardLimitMicros j' /\
   j_SoftLimitMicros j = j_SoftLimitMicros j' /\ j_Currency j = j_Currency j' /\
   j_Reason j = j_Reason j').
Proof.
  unfold sameBudgetAdjustment.
  rewrite !andb_true_iff, !bool_decide_eq_true, !Z.eqb_eq. tauto.
Qed.

Lemma prepare_same r16 r8 r16' r8' j j1 j2 :
  prepareBudgetAdjustment r16 r8 j = Ok j1 -> prepareBudgetAdjustment r16' r8' j = Ok j2 ->
  sameBudgetAdjustment j1 j2 = true /\ adjustmentKey j1 = adjustmentKey j2.
Proof.
  intros H1%prepare_spec H2%prepare_spec. rewrite sameBudgetAdjustment_spec.
  unfold adjustmentKey. intuition congruence.
Qed.

(** A limit adjustment is applied once.  A fresh successful [Adjust] found
    the project's account at the expected version and set its hard and soft
    limits with the next version; the same adjustment again, with new random
    trace identifiers at any time, returns the same result marked duplicate
    and changes nothing; another limit, reason or version under the same
    idempotency key is refused as a conflict. *)
Theorem adjust_once cs l ctx r16 r8 now j l' res :
  run ledger_step NewBudgetLedger cs l -> Adjust ctx r16 r8 now j l = Ok (l', res) ->
  (Duplicate res = false -> exists a,
     accounts l !! budgetKey (j_TenantID j) (a_ID a) = Some a /\
     a_Version a = j_ExpectedVersion j /\ a_Currency a = j_Currency j /\
     Account res = a ⟦ a_LimitMicros := j_HardLimitMicros j ⟧
                     ⟦ a_SoftLimitMicros := j_SoftLimitMicros j ⟧
                     ⟦ a_Version := wrap64 (a_Version a + 1) ⟧ /\
     accounts l' = <[budgetKey (j_TenantID j) (a_ID a) := Account res]> (accounts l)) /\
  (forall r16' r8' now', is_ok (prepareBudgetAdjustment r16' r8' j) = true ->
     Adjust ctx r16' r8' now' j l' = Ok (l', res ⟦ Duplicate := true ⟧)) /\
  (forall r16' r8' now' j', is_ok (prepareBudgetAdjustment r16' r8' j') = true ->
     j_TenantID j' = j_TenantID j -> j_PrincipalID j' = j_PrincipalID j ->
     j_IdempotencyKey j' = j_IdempotencyKey j ->
     j_HardLimitMicros j' <> j_HardLimitMicros j \/ j_SoftLimitMicros j' <> j_SoftLimitMicros j \/
     j_ExpectedVersion j' <> j_ExpectedVersion j \/ j_Reason j' <> j_Reason j ->
     Adjust ctx r16' r8' now' j' l' = Err ErrBudgetIdempotencyConflict).
Proof.
  intros W%run_new_wf H. pose proof H as H0. unfold Adjust in H0.
  destruct (contextError ctx) eqn:Hctx; [discriminate|].
  apply rbind_ok in H0 as (j1 & Hj & H0). pose proof (prepare_spec _ _ _ _ Hj) as Hspec.
  assert (Hclone : forall a, cloneBudgetAccount a = a) by (by intros [? ? ? ? ? ? ? ? ? ? [] ?]).
  assert (Hstored : exists prior, adjustments l' !! adjustmentKey j1 = Some prior /\
    sameBudgetAdjustment (request prior) j1 = true /\
    (adjusted prior) ⟦ Duplicate := true ⟧ = res ⟦ Duplicate := true ⟧ /\
    (Duplicate res = false -> exists a,
     accounts l !! budgetKey (j_TenantID j) (a_ID a) = Some a /\
     a_Version a = j_ExpectedVersion j /\ a_Currency a = j_Currency j /\
     Account res = a ⟦ a_LimitMicros := j_HardLimitMicros j ⟧
                     ⟦ a_SoftLimitMicros := j_SoftLimitMicros j ⟧
                     ⟦ a_Version := wrap64 (a_Version a + 1) ⟧ /\
     accounts l' = <[budgetKey (j_TenantID j) (a_ID a) := Account res]> (accounts l))).
  { destruct (adjustments l !! adjustmentKey j1) as [prior|] eqn:Hk.
    - destruct (sameBudgetAdjustment _ _) eqn:Hs; [|discriminate]. injection H0 as <- <-.
      exists prior. rewrite Hclone. by destruct (adjusted prior).
    - apply rbind_ok in H0 as ([a|] & Ha & H0); [|discriminate].
      apply projectAccount_spec in Ha; [|done]. accepted H0. go_bool.
      eexists. split; [apply lookup_insert_eq|]. split; [by apply sameBudgetAdjustment_spec|].
      split; [done|]. intros _. exists a. rewrite Hclone. cbn.
      destruct Hspec as (<- & _ & _ & _ & <- & <- & <- & <- & _ & _). by split_and!. }
  destruct Hstored as (prior & Hk & Hs & Hres & Heff). split_and!; [done| |].
  - intros r16' r8' now' Hp. destruct (prepareBudgetAdjustment r16' r8' j) as [j2|] eqn:Hj2; [|done].
    destruct (prepare_same _ _ _ _ _ _ _ Hj Hj2) as [Hs2 Hkey].
    unfold Adjust. rewrite Hctx, Hj2. cbn [rbind]. rewrite <- Hkey, Hk.
    assert (Hs3 : sameBudgetAdjustment (request prior) j2 = true)
      by (rewrite sameBudgetAdjustment_spec in *; intuition congruence).
    rewrite Hs3. cbn [negb]. rewrite Hclone, <- Hres. by destruct (adjusted prior).
  - intros r16' r8' now' j' Hp Ht Hpr Hi Hd.
    destruct (prepareBudgetAdjustment r16' r8' j') as [j2|] eqn:Hj2; [|done].
    apply prepare_spec in Hj2 as Hspec2. unfold Adjust. rewrite Hctx, Hj2. cbn [rbind].
    assert (Hkey : adjustmentKey j2 = adjustmentKey j1)
      by (unfold adjustmentKey; intuition congruence).
    rewrite Hkey, Hk. destruct (sameBudgetAdjustment _ j2) eqn:Hs2; [|done]. exfalso.
    rewrite sameBudgetAdjustment_spec in *. intuition congruence.
Qed.

(** ** A concrete ledger *)
Definition ctx1 : context := Context None.
Definition account1 : BudgetAccount :=
  mkBudgetAccount "acct" "t1" "PROJECT" "p1" "USD" 1000 800 0 0 1 None 1.
Definition clock1 : reading -> time := fun _ => 100.
Definition claim1 (id generated request : string) (order : list (string * Reservation))
    (amount : Z) : command :=
  CmdReserve ctx1 clock1 order (Ok generated) "t1" "acct" id request amount true.

Definition ledger1 : BudgetLedger := Eval vm_compute in
  default NewBudgetLedger (exec ledger_step NewBudgetLedger [CmdCreateAccount ctx1 5 account1]).
Definition ledger2 : BudgetLedger := Eval vm_compute in
  default NewBudgetLedger (exec ledger_step ledger1 [claim1 "r1" "g1" "q1" [] 300]).
Definition reservation1 : Reservation := Eval vm_compute in
  default (mkReservation "" "" "" "" 0 0 ReservationOpen 0 0) (Reservation_lookup "t1" "r1" ledger2).
Definition entries2 : list (string * Reservation) := [(budgetKey "t1" "g1", reservation1)].
Definition ledger3 : BudgetLedger := Eval vm_compute in
  default NewBudgetLedger (exec ledger_step ledger2 [claim1 "r2" "g2" "q2" entries2 200]).

Lemma run1 : run ledger_step NewBudgetLedger [CmdCreateAccount ctx1 5 account1] ledger1.
Proof. apply exec_run. vm_compute. reflexivity. Defined.
Lemma run12 : run ledger_step ledger1 [claim1 "r1" "g1" "q1" [] 300] ledger2.
Proof. apply exec_run. vm_compute. reflexivity. Defined.
Lemma run2 :
  run ledger_step NewBudgetLedger
    [CmdCreateAccount ctx1 5 account1; claim1 "r1" "g1" "q1" [] 300] ledger2.
Proof. apply exec_run. vm_compute. reflexivity. Defined.
Lemma run23 : run ledger_step ledger2 [claim1 "r2" "g2" "q2" entries2 200] ledger3.
Proof. apply exec_run. vm_compute. reflexivity. Defined.
Lemma run3 :
  run ledger_step NewBudgetLedger
    [CmdCreateAccount ctx1 5 account1; claim1 "r1" "g1" "q1" [] 300;
     claim1 "r2" "g2" "q2" entries2 200] ledger3.
Proof. apply exec_run. vm_compute. reflexivity. Defined.

Definition key1 : string := budgetKey "t1" "acct".
Definition account3 : BudgetAccount := Eval vm_compute in account_at ledger3 key1.

Lemma ledger_invariant_witness :
  accounts ledger3 !! key1 = Some account3 /\ a_ReservedMicros account3 = 500 /\
  held (books_of ledger3) key1 <= a_ReservedMicros account3.
Proof.
  assert (Ha : accounts ledger3 !! key1 = Some account3) by (vm_compute; reflexivity).
  split; [exact Ha|]. split; [reflexivity|].
  exact (proj2 (proj2 (proj2 (proj1 (ledger_invariant _ _ run3) _ _ Ha)))).
Defined.

Lemma ledger_refines_books_witness :
  rtc move (mkBooks ∅ ∅) (books_of ledger2) /\ rtc move (books_of ledger2) (books_of ledger3).
Proof.
  refine (ledger_refines_books _ ledger2 (claim1 "r2" "g2" "q2" entries2 200) ledger3
    run2 _).
  vm_compute. reflexivity.
Defined.

Lemma ledger_balance_witness :
  exists a, accounts ledger3 !! key1 = Some a /\ a_ReservedMicros a = 0 + held (books_of ledger3) key1.
Proof.
  destruct (ledger_balance [] NewBudgetLedger ctx1 5 account1 ledger1
    [claim1 "r1" "g1" "q1" [] 300; claim1 "r2" "g2" "q2" entries2 200] ledger3
    (run_nil _ _)) as (a & Ha & Hr & _).
  - vm_compute. repeat split.
  - vm_compute. reflexivity.
  - apply exec_run. vm_compute. reflexivity.
  - exists a. split; [exact Ha | exact Hr].
Defined.

(** Decide [frugal] on a concrete ledger. *)
Lemma frugal_check b :
  forallb (fun kr => negb (r_State (snd kr) ≟ ReservationSettled)
             || (r_SettledMicros (snd kr) <=? r_ReservedMicros (snd kr)))
    (map_to_list (ress b)) = true -> frugal b.
Proof.
  intros H k r Hr Hs. rewrite forallb_forall in H.
  specialize (H (k, r) ltac:(by apply list_elem_of_In, elem_of_map_to_list)). cbn in H.
  rewrite Hs in H. apply orb_true_iff in H as [H|H]; go_bool; [done|lia].
Qed.

Lemma reservation_honoured_witness :
  exists l' r', Settle ctx1 "t1" "r1" 250 ledger3 = Ok (l', r') /\ r_SettledMicros r' = 250.
Proof.
  destruct (reservation_honoured _ _ run3 (frugal_check (books_of ledger3) eq_refl)) as [_ H].
  destruct (H "t1" "r1" (budgetKey "t1" "g1") reservation1 250) as (l' & r' & Hs & _ & ->).
  - reflexivity.
  - discriminate.
  - discriminate.
  - vm_compute. reflexivity.
  - reflexivity.
  - split; vm_compute; discriminate.
  - exists l', (reservation1 ⟦ r_SettledMicros := 250 ⟧ ⟦ r_State := ReservationSettled ⟧).
    split; [exact Hs | reflexivity].
Defined.

Lemma claim_exclusive_witness :
  snd (ClaimReservation ctx1 clock1 (map_to_list (reservations ledger3)) (Ok "g3")
         "t1" "acct" "r3" "q1" 10 ledger3) <> Ok (reservation1, true).
Proof.
  apply (claim_exclusive [CmdCreateAccount ctx1 5 account1] ledger1 ctx1 clock1 [] (Ok "g1")
    "t1" "acct" "r1" "q1" 300 reservation1 ledger2 [claim1 "r2" "g2" "q2" entries2 200] ledger3
    ctx1 clock1 (map_to_list (reservations ledger3)) (Ok "g3") "acct" "r3" 10 run1).
  - apply (bool_decide_eq_true_1 (env_ok _ _)). vm_compute. reflexivity.
  - vm_compute. reflexivity.
  - exact run23.
  - apply (bool_decide_eq_true_1 (env_ok _ _)). vm_compute. reflexivity.
Defined.

Definition ledger4 : BudgetLedger := Eval vm_compute in
  apply ledger3 (CmdSettle ctx1 "t1" "r1" 250).
Definition settled1 : Reservation := Eval vm_compute in
  default reservation1 (Reservation_lookup "t1" "r1" ledger4).

Lemma reservation_lifecycle_witness :
  exists r', reservations ledger4 !! budgetKey "t1" "g1" = Some r' /\ follows reservation1 r' /\
    r_State r' = ReservationSettled.
Proof.
  destruct (reservation_lifecycle _ ledger3 [CmdSettle ctx1 "t1" "r1" 250] ledger4
    (budgetKey "t1" "g1") reservation1 run3) as (r' & Hr & Hf & _).
  - apply exec_run. vm_compute. reflexivity.
  - vm_compute. reflexivity.
  - exists r'. split; [exact Hr|]. split; [exact Hf|]. vm_compute in Hr. injection Hr as <-.
    reflexivity.
Defined.

Lemma retries_idempotent_witness :
  Settle ctx1 "t1" "r1" 250 ledger4 = Ok (ledger4, settled1) /\
  Settle ctx1 "t1" "r1" 251 ledger4 = Err ErrReservationConflict.
Proof.
  destruct (retries_idempotent ctx1 "t1" "r1" ledger3 ledger4) as (_ & Hs & _).
  destruct (Hs 250 settled1) as [Hr Hd]; [vm_compute; reflexivity|].
  split; [exact Hr|]. apply Hd; discriminate.
Defined.

Lemma expiry_exact_witness :
  exists l' ts, ExpireReservations ctx1 86400000000200 "t1" 1 ledger3 = Ok (l', map parked ts) /\
    accounts l' = accounts ledger3 /\ Z.of_nat (length ts) = 1.
Proof.
  destruct (expiry_exact _ ledger3 "t1" 1 86400000000200 run3) as (l' & ts & He & Ha & _ & Hn & _).
  - reflexivity.
  - discriminate.
  - reflexivity.
  - exists l', ts. split; [exact He|]. split; [exact Ha|]. rewrite Hn. vm_compute. reflexivity.
Defined.

(** *** A model call, parked and reconciled *)
Definition digest1 : string :=
  "sha256:0123456789abcdef0123456789abcdef0123456789abcdef0123456789abcdef".
Definition call1 (status : ModelCallStatus) (cost : Z) : ModelCall :=
  mkModelCall "" "t1" "q1" "p1" "" "agent" "provider" "model" "v1" "prompt1" digest1 "" 10 20
    None None cost 5 status "" "" None 100.
Definition settle1 : ModelCallFinalization :=
  mkModelCallFinalization "r1" ReservationDispositionSettle 250 (call1 ModelCallSucceeded 250).
Definition park1 : ModelCallFinalization :=
  mkModelCallFinalization "r1" ReservationDispositionReconcile 0 (call1 ModelCallReconcile 0).
Definition reconcile1 : ModelCallReconciliation :=
  mkModelCallReconciliation "t1" "q1" "r1" "provider" "model"
    (mkTokens 11 22 None None 240 "preq" "v1") 240 digest1 200.

Definition unwrap {A} (zero : A) (r : result A budget_error) : A :=
  match r with Ok a => a | Err _ => zero end.
Definition finalized1 : BudgetLedger * Reservation := Eval vm_compute in
  unwrap (NewBudgetLedger, reservation1) (FinalizeModelCall ctx1 (Ok "c1") settle1 ledger2).
Definition parked1 : BudgetLedger * Reservation := Eval vm_compute in
  unwrap (NewBudgetLedger, reservation1) (FinalizeModelCall ctx1 (Ok "c1") park1 ledger2).
Definition reconciled1 : BudgetLedger * Reservation := Eval vm_compute in
  unwrap (NewBudgetLedger, reservation1) (ReconcileModelCall ctx1 reconcile1 (fst parked1)).

Lemma finalize_once_witness :
  FinalizeModelCall ctx1 (Ok "c2") settle1 (fst finalized1) = Ok finalized1 /\
  r_State (snd finalized1) = ReservationSettled.
Proof.
  destruct (finalize_once ctx1 (Ok "c1") settle1 ledger2 (fst finalized1) (snd finalized1))
    as (_ & Hr & _).
  - vm_compute. reflexivity.
  - vm_compute. reflexivity.
  - split; [exact (Hr "c2") | reflexivity].
Defined.

Lemma reconcile_once_witness :
  ReconcileModelCall ctx1 reconcile1 (fst reconciled1) = Ok reconciled1.
Proof.
  destruct (reconcile_once ctx1 reconcile1 (fst parked1) (fst reconciled1) (snd reconciled1))
    as (_ & Hr & _).
  - vm_compute. reflexivity.
  - exact Hr.
Defined.

Lemma model_calls_append_only_witness :
  exists call', ModelCall_lookup "t1" "q1" (fst reconciled1) = Some call' /\
    c_InputSHA256 call' = digest1 /\ c_Status call' = ModelCallReconciled.
Proof.
  destruct (model_calls_append_only (fst parked1) [CmdReconcileModelCall ctx1 reconcile1]
    (fst reconciled1) (budgetKey "t1" "q1") ((call1 ModelCallReconcile 0) ⟦ c_ID := "c1" ⟧))
    as (call' & Hc & _ & _ & _ & _ & _ & _ & Hi & _).
  - apply exec_run. vm_compute. reflexivity.
  - vm_compute. reflexivity.
  - exists call'. split; [exact Hc|]. split; [exact Hi|].
    vm_compute in Hc. injection Hc as <-. reflexivity.
Defined.

(** *** A limit adjustment *)
Definition adjustment1 : BudgetAdjustment :=
  mkBudgetAdjustment "t1" "p1" "admin" "key-1" "" "" "" "" "" [] "" "" 0 3 2000 1500 "USD" "more work".
Definition random1 (n : nat) : result (list Z) string := Ok (repeat 171 n).
Definition adjusted1 : BudgetLedger * BudgetAdjustmentResult := Eval vm_compute in
  unwrap (NewBudgetLedger, mkBudgetAdjustmentResult account1 (usageFromAccount account1) true)
    (Adjust ctx1 (random1 16) (random1 8) 150 adjustment1 ledger3).

(** The committed amount [Spent + Reserved] may wrap around: with limits near
    2^63 an adjustment below the amount already spent is accepted. *)
Definition huge : Z := 9223372036854775807.
Definition huge_account : BudgetAccount :=
  mkBudgetAccount "acct" "t1" "PROJECT" "p1" "USD" huge 0 0 0 1 None 1.
Definition huge_ledger : BudgetLedger := Eval vm_compute in
  fold_left apply
    [CmdCreateAccount ctx1 5 huge_account; claim1 "r1" "g1" "q1" [] 1;
     claim1 "r2" "g2" "q2" [] (huge - 1); CmdSettle ctx1 "t1" "r1" huge] NewBudgetLedger.

Lemma adjust_wraps :
  exists l' res,
    Adjust ctx1 (random1 16) (random1 8) 150
      (adjustment1 ⟦ j_ExpectedVersion := 4 ⟧ ⟦ j_HardLimitMicros := 0 ⟧ ⟦ j_SoftLimitMicros := 0 ⟧)
      huge_ledger = Ok (l', res) /\
    a_LimitMicros (Account res) = 0 /\ a_SpentMicros (Account res) = huge.
Proof. eexists _, _. vm_compute. repeat split. Qed.

Lemma adjust_once_witness :
  Adjust ctx1 (random1 16) (random1 8) 999 adjustment1 (fst adjusted1)
    = Ok (fst adjusted1, (snd adjusted1) ⟦ Duplicate := true ⟧) /\
  a_LimitMicros (Account (snd adjusted1)) = 2000.
Proof.
  destruct (adjust_once _ ledger3 ctx1 (random1 16) (random1 8) 150 adjustment1
    (fst adjusted1) (snd adjusted1) run3) as (_ & Hr & _).
  - vm_compute. reflexivity.
  - split; [|reflexivity]. apply Hr. vm_compute. reflexivity.
Defined.
End BudgetProps.
