(* ===== verification/Json.v ===== *)
(** The parts of [encoding/json] the modelled packages rely on: the syntax
    check [json.Valid] as the byte-driven automaton of the library's scanner,
    and the test that a text decodes to a JSON object. *)

From S2P Require Import Prelude GoLib.

Module Json.

(** What the scanner is inside of, innermost first. *)
Inductive nesting : Type := InKey | InValue | InArray.

(** The scanner's scan_step functions. *)
Inductive scan_step : Type :=
| BeginValueOrEmpty | BeginValue | BeginStringOrEmpty | BeginString | EndValue | EndTop
| InString | InEsc | InEscU (digits_left : nat)
| AfterMinus | Digits1 | Digit0 | Dot | Dot0 | Exp | ExpSign | Exp0
| Literal (rest : list ascii).

Record scanner : Type := mkScanner {
  at_step : scan_step;
  stack : list nesting;
  depth : Z
}.

Definition maxNestingDepth : Z := 10000.

Definition space (c : ascii) : bool :=
  byte_is 32 c || byte_is 9 c || byte_is 13 c || byte_is 10 c.
Definition digit (c : ascii) : bool := byte_in 48 57 c.
Definition hex (c : ascii) : bool := digit c || byte_in 97 102 c || byte_in 65 70 c.

Definition goto (s : scanner) (st : scan_step) : option scanner :=
  Some (mkScanner st (stack s) (depth s)).

Definition push (s : scanner) (n : nesting) (st : scan_step) : option scanner :=
  if depth s + 1 <=? maxNestingDepth
  then Some (mkScanner st (n :: stack s) (depth s + 1)) else None.

Definition pop (s : scanner) : option scanner :=
  match stack s with
  | [] => None
  | _ :: outer =>
      Some (mkScanner (match outer with [] => EndTop | _ => EndValue end) outer (depth s - 1))
  end.

(** [stateEndValue]: a value has just ended before [c]. *)
Definition end_value (s : scanner) (c : ascii) : option scanner :=
  match stack s with
  | [] => if space c then goto s EndTop else None
  | top :: outer =>
      if space c then goto s EndValue else
      match top with
      | InKey => if byte_is 58 c then Some (mkScanner BeginValue (InValue :: outer) (depth s)) else None
      | InValue =>
          if byte_is 44 c then Some (mkScanner BeginString (InKey :: outer) (depth s))
          else if byte_is 125 c then pop s else None
      | InArray =>
          if byte_is 44 c then goto s BeginValue else if byte_is 93 c then pop s else None
      end
  end.

Definition begin_string (s : scanner) (c : ascii) : option scanner :=
  if space c then goto s BeginString else if byte_is 34 c then goto s InString else None.

Definition begin_value (s : scanner) (c : ascii) : option scanner :=
  if space c then goto s BeginValue
  else if byte_is 123 c then push s InKey BeginStringOrEmpty
  else if byte_is 91 c then push s InArray BeginValueOrEmpty
  else if byte_is 34 c then goto s InString
  else if byte_is 45 c then goto s AfterMinus
  else if byte_is 48 c then goto s Digit0
  else if byte_is 116 c then goto s (Literal (bytes "rue"))
  else if byte_is 102 c then goto s (Literal (bytes "alse"))
  else if byte_is 110 c then goto s (Literal (bytes "ull"))
  else if byte_in 49 57 c then goto s Digits1
  else None.

Definition after_digit0 (s : scanner) (c : ascii) : option scanner :=
  if byte_is 46 c then goto s Dot
  else if byte_is 101 c || byte_is 69 c then goto s Exp
  else end_value s c.

(** One byte. *)
Definition advance (s : scanner) (c : ascii) : option scanner :=
  match at_step s with
  | BeginValueOrEmpty =>
      if space c then goto s BeginValueOrEmpty
      else if byte_is 93 c then end_value s c else begin_value s c
  | BeginValue => begin_value s c
  | BeginStringOrEmpty =>
      if space c then goto s BeginStringOrEmpty
      else if byte_is 125 c then
        match stack s with
        | _ :: outer => end_value (mkScanner EndValue (InValue :: outer) (depth s)) c
        | [] => None
        end
      else begin_string s c
  | BeginString => begin_string s c
  | EndValue => end_value s c
  | EndTop => if space c then goto s EndTop else None
  | InString =>
      if byte_is 34 c then goto s EndValue
      else if byte_is 92 c then goto s InEsc
      else if byte_in 0 31 c then None else goto s InString
  | InEsc =>
      if existsb (fun e => byte_is e c) [98; 102; 110; 114; 116; 92; 47; 34] then goto s InString
      else if byte_is 117 c then goto s (InEscU 3) else None
  | InEscU n =>
      if hex c then goto s (match n with O => InString | S n => InEscU n end) else None
  | AfterMinus =>
      if byte_is 48 c then goto s Digit0 else if byte_in 49 57 c then goto s Digits1 else None
  | Digits1 => if digit c then goto s Digits1 else after_digit0 s c
  | Digit0 => after_digit0 s c
  | Dot => if digit c then goto s Dot0 else None
  | Dot0 =>
      if digit c then goto s Dot0
      else if byte_is 101 c || byte_is 69 c then goto s Exp else end_value s c
  | Exp =>
      if byte_is 43 c || byte_is 45 c then goto s ExpSign
      else if digit c then goto s Exp0 else None
  | ExpSign => if digit c then goto s Exp0 else None
  | Exp0 => if digit c then goto s Exp0 else end_value s c
  | Literal [] => None
  | Literal (e :: rest) =>
      if e ≟ c then goto s (match rest with [] => EndValue | _ => Literal rest end) else None
  end.

Fixpoint scan (s : scanner) (data : list ascii) : option scanner :=
  match data with
  | [] => Some s
  | c :: data => match advance s c with Some s => scan s data | None => None end
  end.

(** [json.Valid]: at the end of input a blank must complete the value. *)
Definition Valid (data : string) : bool :=
  match scan (mkScanner BeginValue [] 0) (bytes data) with
  | None => false
  | Some s =>
      match advance s " "%char with
      | Some (mkScanner EndTop _ _) => true
      | _ => false
      end
  end.

Fixpoint skip_space (l : list ascii) : list ascii :=
  match l with
  | [] => []
  | c :: l' => if space c then skip_space l' else l
  end.

(** [json.Unmarshal] into a [map[string]json.RawMessage] succeeds with a
    non-nil map: the text is a valid JSON object. *)
Definition is_object (data : string) : bool :=
  Valid data && match skip_space (bytes data) with c :: _ => byte_is 123 c | [] => false end.

Example valid_ex : map Valid ["{}"; " [1, -2.5e+3, true]"; "null"; "{1}"; "01"; "[1,]"; ""]
  = [true; true; true; false; false; false; false].
Proof. vm_compute. reflexivity. Qed.
Example valid_string : Valid (of_bytes (bytes "{" ++ [ascii_of_nat 34] ++ bytes "a\u00e9"
  ++ [ascii_of_nat 34] ++ bytes ": [{}, []]} ")) = true.
Proof. vm_compute. reflexivity. Qed.
End Json.
