(* ===== verification/EventStore.v ===== *)
(** The in-memory transactional event store ([internal/eventing]: [store.go],
    [memory.go], [bindReplayStates] of [replay_state.go]): projections, the
    event history, the outbox and command results, committed together.

    Every method is one critical section of the store's mutex.  [jcs_Transform]
    is the third-party RFC 8785 canonicaliser and [sha256_Sum256] the digest;
    a [json.RawMessage] is its bytes. *)

From S2P Require Import Prelude GoLib Trace Json Errors.

(** ** Package [canonicaljson] *)
Module CanonicalJson.
Section Digest.
Context (jcs_Transform : string -> option string) (sha256_Sum256 : string -> list Z).

Definition Canonicalize (input : string) : option string :=
  if len input =? 0 then None else jcs_Transform input.

Definition Digest (input : string) : option string :=
  match Canonicalize input with
  | None => None
  | Some canonical =>
      Some ("sha256:" +:+ of_bytes (Trace.hex_encode (sha256_Sum256 canonical)))
  end.
End Digest.
End CanonicalJson.

Module EventStore.

(** ** Data ([store.go]) *)
Inductive store_error : Type :=
| Coded (err : Error)
| ErrInjectedFailure
| ErrCommitResultUnknown
| ErrReplayStateUnavailable (eventID : string)
| ErrResultNotJSON
| ErrOutboxClaimLost
| ErrContext (err : string).

Record Projection : Type := mkProjection {
  p_TenantID : string;
  p_ProjectID : string;
  p_AggregateType : string;
  p_AggregateID : string;
  p_Version : Z;
  p_State : string
}.

Record ProjectionUpdate : Type := mkProjectionUpdate {
  u_TenantID : string;
  u_ProjectID : string;
  u_AggregateType : string;
  u_AggregateID : string;
  u_ExpectedVersion : Z;
  u_NextVersion : Z;
  u_State : string
}.

Record DomainEvent : Type := mkDomainEvent {
  e_EventID : string;
  e_TenantID : string;
  e_ProjectID : string;
  e_AggregateType : string;
  e_AggregateID : string;
  e_AggregateVersion : Z;
  e_Type : string;
  e_Payload : string;
  e_PayloadSHA256 : string;
  e_OccurredAt : time;
  e_CorrelationID : string;
  e_CausationID : string;
  e_Traceparent : string;
  e_Tracestate : string;
  e_TaskID : string;
  e_TaskIDReason : string;
  e_AgentRunID : string;
  e_AgentRunReason : string;
  e_ReplayState : string;
  e_ReplayStateSHA256 : string
}.

#[global] Instance eta_event : Eta DomainEvent := fun e => mkDomainEvent
  (e_EventID e) (e_TenantID e) (e_ProjectID e) (e_AggregateType e) (e_AggregateID e)
  (e_AggregateVersion e) (e_Type e) (e_Payload e) (e_PayloadSHA256 e) (e_OccurredAt e)
  (e_CorrelationID e) (e_CausationID e) (e_Traceparent e) (e_Tracestate e) (e_TaskID e)
  (e_TaskIDReason e) (e_AgentRunID e) (e_AgentRunReason e) (e_ReplayState e)
  (e_ReplayStateSHA256 e).

Record OutboxRecord : Type := mkOutboxRecord {
  o_ID : string;
  o_Event : DomainEvent;
  o_PublishedAt : option time;
  o_Attempts : Z;
  o_NextAttempt : time
}.

#[global] Instance eta_outbox : Eta OutboxRecord := fun o => mkOutboxRecord
  (o_ID o) (o_Event o) (o_PublishedAt o) (o_Attempts o) (o_NextAttempt o).

#[export] Instance DomainEvent_eq_dec : EqDecision DomainEvent.
Proof. solve_decision. Defined.
#[export] Instance OutboxRecord_eq_dec : EqDecision OutboxRecord.
Proof. solve_decision. Defined.

Record ApprovalRecord : Type := mkApprovalRecord {
  a_ID : string;
  a_TenantID : string;
  a_ProjectID : string;
  a_ApprovalType : string;
  a_SubjectType : string;
  a_SubjectID : string;
  a_SubjectVersion : Z;
  a_SubjectSHA256 : string;
  a_PrincipalID : string;
  a_Reason : string;
  a_IssuedAt : time;
  a_ExpiresAt : option time;
  a_RevokedAt : option time;
  a_Signature : string
}.

Record UserDecisionRecord : Type := mkUserDecisionRecord {
  d_ID : string;
  d_TenantID : string;
  d_ProjectID : string;
  d_ModuleTaskID : string;
  d_AttemptSeriesID : string;
  d_Decision : string;
  d_ReportSHA256 : string;
  d_PrincipalID : string;
  d_ApprovalID : string;
  d_CreatedAt : time
}.

Record TransactionRequest : Type := mkTransactionRequest {
  q_TenantID : string;
  q_PrincipalID : string;
  q_IdempotencyKey : string;
  q_RequestSHA256 : string;
  q_Updates : list ProjectionUpdate;
  q_Events : list DomainEvent;
  q_Approvals : list ApprovalRecord;
  q_UserDecisions : list UserDecisionRecord;
  q_Result : string;
  q_ResultSHA256 : string
}.

Record TransactionResult : Type := mkTransactionResult {
  t_Result : string;
  t_Events : list DomainEvent;
  t_Duplicate : bool
}.

#[global] Instance eta_result : Eta TransactionResult := fun t =>
  mkTransactionResult (t_Result t) (t_Events t) (t_Duplicate t).

Inductive FailurePoint : Type := FailureNone | FailureBeforeCommit | FailureAfterCommit.

#[export] Instance FailurePoint_eq_dec : EqDecision FailurePoint.
Proof. solve_decision. Defined.

Record commandRecord : Type := mkCommandRecord {
  r_RequestSHA256 : string;
  r_Result : TransactionResult
}.

Record MemoryStore : Type := mkMemoryStore {
  projections : gmap string Projection;
  events : gmap string DomainEvent;
  versions : gmap string string;
  outbox : gmap string OutboxRecord;
  commands : gmap string commandRecord;
  approvals : gmap string ApprovalRecord;
  decisions : gmap string UserDecisionRecord;
  failure : FailurePoint
}.

#[global] Instance eta_store : Eta MemoryStore := fun s => mkMemoryStore
  (projections s) (events s) (versions s) (outbox s) (commands s) (approvals s) (decisions s)
  (failure s).

Definition NewMemoryStore : MemoryStore := mkMemoryStore ∅ ∅ ∅ ∅ ∅ ∅ ∅ FailureNone.

(** ** Keys and copies *)
Definition aggregateKey (tenantID aggregateType aggregateID : string) : string :=
  tenantID +:+ nul +:+ aggregateType +:+ nul +:+ aggregateID.
Definition commandKey (tenantID principalID key : string) : string :=
  tenantID +:+ nul +:+ principalID +:+ nul +:+ key.
Definition versionKey (tenantID aggregateType aggregateID : string) (version : Z) : string :=
  tenantID +:+ nul +:+ aggregateType +:+ nul +:+ aggregateID +:+ nul +:+ pretty version.

Definition event_key (tenantID : string) (e : DomainEvent) : string :=
  aggregateKey tenantID (e_AggregateType e) (e_AggregateID e).
Definition update_key (tenantID : string) (u : ProjectionUpdate) : string :=
  aggregateKey tenantID (u_AggregateType u) (u_AggregateID u).

(** The clones copy byte slices and pointed-to times: the same values. *)
Definition cloneJSON (value : string) : string := of_bytes (copy_slice (bytes value)).
#[global] Arguments cloneJSON : simpl never.
Definition cloneProjection (value : Projection) : Projection :=
  mkProjection (p_TenantID value) (p_ProjectID value) (p_AggregateType value)
    (p_AggregateID value) (p_Version value) (cloneJSON (p_State value)).
Definition cloneEvent (value : DomainEvent) : DomainEvent :=
  value ⟦ e_Payload := cloneJSON (e_Payload value) ⟧
        ⟦ e_ReplayState := cloneJSON (e_ReplayState value) ⟧.
Definition cloneApproval (value : ApprovalRecord) : ApprovalRecord :=
  mkApprovalRecord (a_ID value) (a_TenantID value) (a_ProjectID value) (a_ApprovalType value)
    (a_SubjectType value) (a_SubjectID value) (a_SubjectVersion value) (a_SubjectSHA256 value)
    (a_PrincipalID value) (a_Reason value) (a_IssuedAt value)
    (t ← a_ExpiresAt value; Some t) (t ← a_RevokedAt value; Some t) (a_Signature value).
Definition cloneOutboxRecord (value : OutboxRecord) : OutboxRecord :=
  value ⟦ o_Event := cloneEvent (o_Event value) ⟧.
Definition cloneResult (value : TransactionResult) : TransactionResult :=
  value ⟦ t_Result := cloneJSON (t_Result value) ⟧
        ⟦ t_Events := map cloneEvent (t_Events value) ⟧.

(** [DomainEvent] without the internal replay state, as it leaves the store. *)
Definition without_replay (value : DomainEvent) : DomainEvent :=
  value ⟦ e_ReplayState := "" ⟧ ⟦ e_ReplayStateSHA256 := "" ⟧.

Definition invalid (scope : string) : store_error := Coded (scoped CodeInvalidArgument scope).

Section Store.
Context (jcs_Transform : string -> option string) (sha256_Sum256 : string -> list Z).
Notation Digest := (CanonicalJson.Digest jcs_Transform sha256_Sum256).

(** ** Validation *)
Fixpoint validate_updates (tenantID : string) (updates : gmap string ProjectionUpdate)
    (us : list ProjectionUpdate) : result (gmap string ProjectionUpdate) store_error :=
  match us with
  | [] => Ok updates
  | u :: us =>
      let key := update_key tenantID u in
      reject (invalid "projection update") when
        (u_TenantID u ≠? tenantID) || (u_ProjectID u ≟ "") || (u_AggregateType u ≟ "")
        || (u_AggregateID u ≟ "") || (u_ExpectedVersion u <? 0)
        || negb (u_NextVersion u =? wrap64 (u_ExpectedVersion u + 1))
        || (len (u_State u) =? 0) ;;
      match updates !! key with
      | Some _ => Err (invalid "duplicate aggregate update")
      | None => validate_updates tenantID (<[key := u]> updates) us
      end
  end.

Definition domain_event_error (e : DomainEvent) : store_error :=
  Coded (New CodeInvalidArgument (e_CorrelationID e) {["scope" := AnyString "domain event"]}).

Fixpoint validate_events (tenantID : string) (updates : gmap string ProjectionUpdate)
    (seenEvents seenAggregates : gset string) (es : list DomainEvent)
    : result (gset string) store_error :=
  match es with
  | [] => Ok seenAggregates
  | e :: es =>
      let key := event_key tenantID e in
      match updates !! key with
      | None => Err (domain_event_error e)
      | Some u =>
          reject (domain_event_error e) when
            (e_EventID e ≟ "") || bool_decide (e_EventID e ∈ seenEvents)
            || bool_decide (key ∈ seenAggregates) || (e_TenantID e ≠? u_TenantID u)
            || (e_ProjectID e ≠? u_ProjectID u)
            || negb (e_AggregateVersion e =? u_NextVersion u) || (e_Type e ≟ "")
            || (e_PayloadSHA256 e ≟ "") || IsZero (e_OccurredAt e)
            || negb (Json.Valid (e_Payload e)) ;;
          validate_events tenantID updates ({[e_EventID e]} ∪ seenEvents)
            ({[key]} ∪ seenAggregates) es
      end
  end.

Fixpoint validate_digests (es : list DomainEvent) : result unit store_error :=
  match es with
  | [] => Ok tt
  | e :: es =>
      reject Coded (New CodeArtifactHashMismatch (e_CorrelationID e)
                      {["scope" := AnyString "event payload"]}) when
        Digest (e_Payload e) ≠? Some (e_PayloadSHA256 e) ;;
      validate_digests es
  end.

Fixpoint validate_approvals (tenantID : string) (seen : gset string) (l : list ApprovalRecord)
    : result (gset string) store_error :=
  match l with
  | [] => Ok seen
  | a :: l =>
      reject (invalid "approval record") when
        (a_ID a ≟ "") || bool_decide (a_ID a ∈ seen) || (a_TenantID a ≠? tenantID)
        || (a_ProjectID a ≟ "") || (a_ApprovalType a ≟ "") || (a_SubjectType a ≟ "")
        || (a_SubjectID a ≟ "") || (a_SubjectVersion a <? 1) || (a_SubjectSHA256 a ≟ "")
        || (a_PrincipalID a ≟ "") || (a_Reason a ≟ "") || IsZero (a_IssuedAt a)
        || (a_Signature a ≟ "") ;;
      reject (invalid "approval expiry") when
        match a_ExpiresAt a with Some t => negb (After t (a_IssuedAt a)) | None => false end ;;
      reject Coded (scoped CodeApprovalRequired "revoked approval") when
        negb (is_nil (a_RevokedAt a)) ;;
      validate_approvals tenantID ({[a_ID a]} ∪ seen) l
  end.

Fixpoint validate_decisions (tenantID principalID : string) (seenApprovals seen : gset string)
    (l : list UserDecisionRecord) : result unit store_error :=
  match l with
  | [] => Ok tt
  | d :: l =>
      reject (invalid "user decision record") when
        (d_ID d ≟ "") || bool_decide (d_ID d ∈ seen) || (d_TenantID d ≠? tenantID)
        || (d_ProjectID d ≟ "") || (d_ModuleTaskID d ≟ "") || (d_AttemptSeriesID d ≟ "")
        || (d_Decision d ≟ "") || (d_ReportSHA256 d ≟ "") || (d_PrincipalID d ≠? principalID)
        || (d_ApprovalID d ≟ "") || IsZero (d_CreatedAt d) ;;
      reject Coded (scoped CodeApprovalRequired "user decision approval") when
        negb (bool_decide (d_ApprovalID d ∈ seenApprovals)) ;;
      validate_decisions tenantID principalID seenApprovals ({[d_ID d]} ∪ seen) l
  end.

Definition validateTransaction (request : TransactionRequest) : result unit store_error :=
  reject (invalid "transaction") when
    (q_TenantID request ≟ "") || (q_PrincipalID request ≟ "") || (q_IdempotencyKey request ≟ "")
    || (q_RequestSHA256 request ≟ "") || (q_ResultSHA256 request ≟ "")
    || Nat.eqb (length (q_Updates request)) 0 || Nat.eqb (length (q_Events request)) 0 ;;
  updates <-! validate_updates (q_TenantID request) ∅ (q_Updates request) ;;
  seenAggregates <-! validate_events (q_TenantID request) updates ∅ ∅ (q_Events request) ;;
  reject (invalid "projection event coverage") when
    negb (Nat.eqb (size seenAggregates) (size updates)) ;;
  reject ErrResultNotJSON when negb (Json.Valid (q_Result request)) ;;
  reject Coded (scoped CodeArtifactHashMismatch "transaction result") when
    Digest (q_Result request) ≠? Some (q_ResultSHA256 request) ;;
  _ <-! validate_digests (q_Events request) ;;
  seenApprovals <-! validate_approvals (q_TenantID request) ∅ (q_Approvals request) ;;
  validate_decisions (q_TenantID request) (q_PrincipalID request) seenApprovals ∅
    (q_UserDecisions request).

(** ** Replay states ([replay_state.go]) *)
Definition bindReplayState (event : DomainEvent) (state : string)
    : result DomainEvent store_error :=
  reject (ErrReplayStateUnavailable (e_EventID event)) when negb (Json.is_object state) ;;
  match Digest state with
  | None => Err (ErrReplayStateUnavailable (e_EventID event))
  | Some digest =>
      Ok (event ⟦ e_ReplayState := cloneJSON state ⟧ ⟦ e_ReplayStateSHA256 := digest ⟧)
  end.

Definition update_states (updates : list ProjectionUpdate) : gmap string string :=
  foldl (fun states u => <[update_key (u_TenantID u) u := u_State u]> states) ∅ updates.

Fixpoint bind_events (states : gmap string string) (es : list DomainEvent)
    : result (list DomainEvent) store_error :=
  match es with
  | [] => Ok []
  | e :: es =>
      match states !! event_key (e_TenantID e) e with
      | None => Err (ErrReplayStateUnavailable (e_EventID e))
      | Some state =>
          bound <-! bindReplayState e state ;;
          rest <-! bind_events states es ;;
          Ok (bound :: rest)
      end
  end.

Definition bindReplayStates (es : list DomainEvent) (updates : list ProjectionUpdate)
    : result (list DomainEvent) store_error :=
  bind_events (update_states updates) es.

(** ** Transactions *)
Definition lookupLocked (tenantID principalID idempotencyKey requestSHA256 : string)
    (s : MemoryStore) : result (option TransactionResult) store_error :=
  match commands s !! commandKey tenantID principalID idempotencyKey with
  | None => Ok None
  | Some record =>
      reject Coded (New CodeIdempotencyConflict "" ∅) when
        r_RequestSHA256 record ≠? requestSHA256 ;;
      Ok (Some ((cloneResult (r_Result record)) ⟦ t_Duplicate := true ⟧))
  end.

(** The zero projection has version 0. *)
Definition current_version (s : MemoryStore) (key : string) : Z :=
  match projections s !! key with Some p => p_Version p | None => 0 end.

Fixpoint check_versions (tenantID : string) (s : MemoryStore) (us : list ProjectionUpdate)
    : result unit store_error :=
  match us with
  | [] => Ok tt
  | u :: us =>
      let actual := current_version s (update_key tenantID u) in
      reject Coded (New CodeStateVersionConflict ""
          {["expectedVersion" := AnyInt (u_ExpectedVersion u); "actualVersion" := AnyInt actual]})
        when negb (actual =? u_ExpectedVersion u) ;;
      check_versions tenantID s us
  end.

Definition event_version_key (tenantID : string) (e : DomainEvent) : string :=
  versionKey tenantID (e_AggregateType e) (e_AggregateID e) (e_AggregateVersion e).

Fixpoint check_events (tenantID : string) (s : MemoryStore) (es : list DomainEvent)
    : result unit store_error :=
  match es with
  | [] => Ok tt
  | e :: es =>
      reject Coded (New CodeConflict (e_CorrelationID e) {["scope" := AnyString "eventId"]}) when
        negb (is_nil (events s !! e_EventID e)) ;;
      reject Coded (New CodeStateVersionConflict (e_CorrelationID e) ∅) when
        negb (is_nil (versions s !! event_version_key tenantID e)) ;;
      check_events tenantID s es
  end.

Definition check_approvals (s : MemoryStore) (l : list ApprovalRecord) : result unit store_error :=
  reject Coded (scoped CodeConflict "approvalId") when
    existsb (fun a => negb (is_nil (approvals s !! a_ID a))) l ;;
  Ok tt.

Definition check_decisions (s : MemoryStore) (l : list UserDecisionRecord) : result unit store_error :=
  reject Coded (scoped CodeConflict "userDecisionId") when
    existsb (fun d => negb (is_nil (decisions s !! d_ID d))) l ;;
  Ok tt.

Definition consumeFailure (point : FailurePoint) (s : MemoryStore) : bool * MemoryStore :=
  if failure s ≠? point then (false, s) else (true, s ⟦ failure := FailureNone ⟧).

Definition commit_update (tenantID : string) (s : MemoryStore) (u : ProjectionUpdate) : MemoryStore :=
  s ⟦ projections := <[update_key tenantID u :=
        mkProjection (u_TenantID u) (u_ProjectID u) (u_AggregateType u) (u_AggregateID u)
          (u_NextVersion u) (cloneJSON (u_State u))]> (projections s) ⟧.

Definition outbox_id (e : DomainEvent) : string := "outbox_" +:+ e_EventID e.

Definition commit_event (tenantID : string) (s : MemoryStore) (e : DomainEvent) : MemoryStore :=
  let e := cloneEvent e in
  s ⟦ events := <[e_EventID e := e]> (events s) ⟧
    ⟦ versions := <[event_version_key tenantID e := e_EventID e]> (versions s) ⟧
    ⟦ outbox := <[outbox_id e := mkOutboxRecord (outbox_id e) e None 0 (e_OccurredAt e)]>
                  (outbox s) ⟧.

(** The writes of a transaction, after all its checks. *)
Definition commit (request : TransactionRequest) (s : MemoryStore)
    : MemoryStore * TransactionResult :=
  let tenantID := q_TenantID request in
  let s := foldl (commit_update tenantID) s (q_Updates request) in
  let s := foldl (commit_event tenantID) s (q_Events request) in
  let s := s ⟦ approvals := foldl (fun m a => <[a_ID a := cloneApproval a]> m) (approvals s) (q_Approvals request) ⟧ in
  let s := s ⟦ decisions := foldl (fun m d => <[d_ID d := d]> m) (decisions s) (q_UserDecisions request) ⟧ in
  let result := mkTransactionResult (cloneJSON (q_Result request)) (map cloneEvent (q_Events request)) false in
  (s ⟦ commands := <[commandKey tenantID (q_PrincipalID request) (q_IdempotencyKey request) :=
         mkCommandRecord (q_RequestSHA256 request) result]> (commands s) ⟧, result).

(** The checks of [Execute], ending with the request whose events are bound to
    their replay states. *)
Definition prepare (request : TransactionRequest) (s : MemoryStore)
    : result TransactionRequest store_error :=
  _ <-! validateTransaction request ;;
  boundEvents <-! bindReplayStates (q_Events request) (q_Updates request) ;;
  let request := mkTransactionRequest (q_TenantID request) (q_PrincipalID request)
    (q_IdempotencyKey request) (q_RequestSHA256 request) (q_Updates request) boundEvents
    (q_Approvals request) (q_UserDecisions request) (q_Result request) (q_ResultSHA256 request) in
  _ <-! check_versions (q_TenantID request) s (q_Updates request) ;;
  _ <-! check_events (q_TenantID request) s (q_Events request) ;;
  _ <-! check_approvals s (q_Approvals request) ;;
  _ <-! check_decisions s (q_UserDecisions request) ;;
  Ok request.

Definition Execute (request : TransactionRequest) (s : MemoryStore)
    : MemoryStore * result TransactionResult store_error :=
  match lookupLocked (q_TenantID request) (q_PrincipalID request) (q_IdempotencyKey request)
          (q_RequestSHA256 request) s with
  | Err e => (s, Err e)
  | Ok (Some result) => (s, Ok result)
  | Ok None =>
      match prepare request s with
      | Err e => (s, Err e)
      | Ok request =>
          let '(fails, s) := consumeFailure FailureBeforeCommit s in
          if fails then (s, Err ErrInjectedFailure) else
          let '(s, result) := commit request s in
          let '(fails, s) := consumeFailure FailureAfterCommit s in
          if fails then (s, Err ErrCommitResultUnknown) else (s, Ok (cloneResult result))
      end
  end.

Definition FailNext (point : FailurePoint) (s : MemoryStore) : MemoryStore :=
  s ⟦ failure := point ⟧.

Record StoreStats : Type := mkStoreStats {
  Projections : nat;
  Events : nat;
  Outbox : nat;
  CommandResults : nat;
  Approvals : nat;
  UserDecisions : nat
}.

Definition Stats (s : MemoryStore) : StoreStats :=
  mkStoreStats (size (projections s)) (size (events s)) (size (outbox s)) (size (commands s))
    (size (approvals s)) (size (decisions s)).

(** ** Queries *)
Definition Load (tenantID aggregateType aggregateID : string) (s : MemoryStore) : option Projection :=
  cloneProjection <$> projections s !! aggregateKey tenantID aggregateType aggregateID.

Definition Lookup := lookupLocked.

(** The comparisons the queries sort with. *)
Definition projection_before (left right : Projection) : bool :=
  if p_AggregateType left ≠? p_AggregateType right
  then String.ltb (p_AggregateType left) (p_AggregateType right)
  else String.ltb (p_AggregateID left) (p_AggregateID right).

Definition event_before (left right : DomainEvent) : bool :=
  if e_AggregateType left ≠? e_AggregateType right
  then String.ltb (e_AggregateType left) (e_AggregateType right) else
  if e_AggregateID left ≠? e_AggregateID right
  then String.ltb (e_AggregateID left) (e_AggregateID right) else
  if negb (e_AggregateVersion left =? e_AggregateVersion right)
  then e_AggregateVersion left <? e_AggregateVersion right
  else String.ltb (e_EventID left) (e_EventID right).

Definition values {A} (m : gmap string A) : list A := map snd (map_to_list m).

Definition ListProjections (tenantID projectID aggregateType : string) (s : MemoryStore)
    : result (list Projection) store_error :=
  reject (invalid "projection list") when
    (tenantID ≟ "") || (projectID ≟ "") || (aggregateType ≟ "") ;;
  Ok (sort_slice (fun left right => String.ltb (p_AggregateID left) (p_AggregateID right))
        (map cloneProjection (List.filter (fun p => (p_TenantID p ≟ tenantID)
           && (p_ProjectID p ≟ projectID) && (p_AggregateType p ≟ aggregateType))
           (values (projections s))))).

(** [ctx]: [None] for a nil context, otherwise what [ctx.Err()] returns. *)
Definition ListTenantProjections (ctx : option (option string)) (tenantID : string)
    (s : MemoryStore) : result (list Projection) store_error :=
  match ctx with
  | None => Err (invalid "tenant projection catalog")
  | Some err =>
      reject (invalid "tenant projection catalog") when tenantID ≟ "" ;;
      match err with
      | Some e => Err (ErrContext e)
      | None => Ok (sort_slice projection_before
          (map cloneProjection (List.filter (fun p => p_TenantID p ≟ tenantID) (values (projections s)))))
      end
  end.

Definition LoadReconciliationSnapshot (ctx : option (option string)) (tenantID : string)
    (s : MemoryStore) : result (list DomainEvent * list Projection) store_error :=
  match ctx with
  | None => Err (invalid "reconciliation snapshot")
  | Some err =>
      reject (invalid "reconciliation snapshot") when tenantID ≟ "" ;;
      match err with
      | Some e => Err (ErrContext e)
      | None => Ok (
          sort_slice event_before
            (map cloneEvent (List.filter (fun e => e_TenantID e ≟ tenantID) (values (events s)))),
          sort_slice projection_before
            (map cloneProjection (List.filter (fun p => p_TenantID p ≟ tenantID) (values (projections s)))))
      end
  end.

Definition ListEvents (ctx_Err : option string) (tenantID : string) (s : MemoryStore)
    : result (list DomainEvent) store_error :=
  match ctx_Err with Some e => Err (ErrContext e) | None =>
  reject (invalid "event log tenant") when tenantID ≟ "" ;;
  Ok (sort_slice event_before
        (map (fun e => without_replay (cloneEvent e))
           (List.filter (fun e => e_TenantID e ≟ tenantID) (values (events s)))))
  end.

(** ** The outbox *)
Definition claimable (tenantID : string) (now : time) (record : OutboxRecord) : bool :=
  (e_TenantID (o_Event record) ≟ tenantID) && is_nil (o_PublishedAt record)
  && negb (After (o_NextAttempt record) now).

Definition outbox_before (left right : OutboxRecord) : bool :=
  if Equal (o_NextAttempt left) (o_NextAttempt right) then String.ltb (o_ID left) (o_ID right)
  else Before (o_NextAttempt left) (o_NextAttempt right).

(** [OutboxClaim]: the record as handed out and its attempt number. *)
Definition claim (now : time) (lease : duration) (record : OutboxRecord) : OutboxRecord :=
  record ⟦ o_Attempts := wrap64 (o_Attempts record + 1) ⟧ ⟦ o_NextAttempt := Add now lease ⟧.

Definition ClaimOutbox (ctx_Err : option string) (tenantID : string) (now : time) (limit : Z)
    (lease : duration) (s : MemoryStore)
    : result (MemoryStore * list (OutboxRecord * Z)) store_error :=
  match ctx_Err with Some e => Err (ErrContext e) | None =>
  reject (invalid "outbox claim") when
    (tenantID ≟ "") || IsZero now || (limit <=? 0) || (lease <=? 0) ;;
  let ready := sort_slice outbox_before
    (map cloneOutboxRecord (List.filter (claimable tenantID now) (values (outbox s)))) in
  let ready := if limit <? Z.of_nat (length ready) then take (Z.to_nat limit) ready else ready in
  let ready := map (claim now lease) ready in
  Ok (s ⟦ outbox := foldl (fun m record => <[o_ID record := cloneOutboxRecord record]> m)
                      (outbox s) ready ⟧,
      map (fun record => ((cloneOutboxRecord record)
             ⟦ o_Event := without_replay (o_Event (cloneOutboxRecord record)) ⟧,
             o_Attempts record)) ready)
  end.

(** The claim the caller holds is the current one of an unpublished record. *)
Definition holds_claim (tenantID : string) (attempt : Z) (record : OutboxRecord) : bool :=
  (e_TenantID (o_Event record) ≟ tenantID) && is_nil (o_PublishedAt record)
  && (o_Attempts record =? attempt).

Definition MarkOutboxPublished (ctx_Err : option string) (tenantID outboxID : string) (attempt : Z)
    (publishedAt : time) (s : MemoryStore) : result MemoryStore store_error :=
  match ctx_Err with Some e => Err (ErrContext e) | None =>
  reject (invalid "outbox publish") when
    (tenantID ≟ "") || (outboxID ≟ "") || (attempt <=? 0) || IsZero publishedAt ;;
  record <-? outbox s !! outboxID else ErrOutboxClaimLost ;;
  reject ErrOutboxClaimLost when negb (holds_claim tenantID attempt record) ;;
  let record := record ⟦ o_PublishedAt := Some publishedAt ⟧ in
  Ok (s ⟦ outbox := <[outboxID := cloneOutboxRecord record]> (outbox s) ⟧)
  end.

Definition RetryOutbox (ctx_Err : option string) (tenantID outboxID : string) (attempt : Z)
    (nextAttempt : time) (s : MemoryStore) : result MemoryStore store_error :=
  match ctx_Err with Some e => Err (ErrContext e) | None =>
  reject (invalid "outbox retry") when
    (tenantID ≟ "") || (outboxID ≟ "") || (attempt <=? 0) || IsZero nextAttempt ;;
  record <-? outbox s !! outboxID else ErrOutboxClaimLost ;;
  reject ErrOutboxClaimLost when negb (holds_claim tenantID attempt record) ;;
  let record := record ⟦ o_NextAttempt := nextAttempt ⟧ in
  Ok (s ⟦ outbox := <[outboxID := cloneOutboxRecord record]> (outbox s) ⟧)
  end.
End Store.
End EventStore.
