(* ===== verification/EventStoreProps.v ===== *)
(** The event store's theorems: committed histories are contiguous and
    projections are their last states; commands are idempotent and atomic; the
    outbox publishes every committed event under fenced claims. *)

From S2P Require Import Prelude GoLib Runs Json Errors EventStore.

Module EventStoreProps.
Import EventStore.

Lemma cloneJSON_id s : cloneJSON s = s.
Proof. unfold cloneJSON. rewrite copy_slice_id. apply String.string_of_list_ascii_of_string. Qed.
Lemma cloneEvent_id e : cloneEvent e = e.
Proof. unfold cloneEvent. rewrite !cloneJSON_id. by destruct e. Qed.
Lemma cloneEvents_id es : map cloneEvent es = es.
Proof. induction es as [|e es IH]; [done|]. cbn [map]. by rewrite cloneEvent_id, IH. Qed.
Lemma cloneOutboxRecord_id o : cloneOutboxRecord o = o.
Proof. unfold cloneOutboxRecord. rewrite cloneEvent_id. by destruct o. Qed.
Lemma cloneResult_id t : cloneResult t = t.
Proof. unfold cloneResult. rewrite cloneJSON_id, cloneEvents_id. by destruct t. Qed.

Section Store.
Context (jcs_Transform : string -> option string) (sha256_Sum256 : string -> list Z).
Notation prepare := (prepare jcs_Transform sha256_Sum256).
Notation Execute := (Execute jcs_Transform sha256_Sum256).
Notation validateTransaction := (validateTransaction jcs_Transform sha256_Sum256).
Notation bindReplayStates := (bindReplayStates jcs_Transform sha256_Sum256).

(** ** What the checks establish *)
Record prepared (T : string) (us : list ProjectionUpdate) (es : list DomainEvent)
    (s : MemoryStore) : Prop := {
  pr_update : forall u, u ∈ us -> u_TenantID u = T /\ 0 <= u_ExpectedVersion u /\
    u_NextVersion u = wrap64 (u_ExpectedVersion u + 1) /\
    current_version s (update_key T u) = u_ExpectedVersion u;
  pr_update_keys : NoDup (map (update_key T) us);
  pr_event : forall e, e ∈ es -> e_TenantID e = T /\ events s !! e_EventID e = None /\
    versions s !! event_version_key T e = None /\
    exists u, u ∈ us /\ update_key T u = event_key T e /\
      e_AggregateVersion e = u_NextVersion u /\ e_ReplayState e = u_State u;
  pr_event_ids : NoDup (map e_EventID es);
  pr_event_keys : NoDup (map (event_key T) es);
  pr_cover : forall u, u ∈ us -> exists e, e ∈ es /\ event_key T e = update_key T u
}.

Lemma validate_updates_spec T us m m' :
  validate_updates T m us = Ok m' ->
  (forall u, u ∈ us -> u_TenantID u = T /\ 0 <= u_ExpectedVersion u /\
     u_NextVersion u = wrap64 (u_ExpectedVersion u + 1)) /\
  NoDup (map (update_key T) us) /\ (forall k, is_Some (m !! k) -> k ∉ map (update_key T) us) /\
  (forall k u, m' !! k = Some u <-> m !! k = Some u \/ (u ∈ us /\ k = update_key T u)).
Proof.
  revert m. induction us as [|u us IH]; intros m H; cbn in H.
  { injection H as <-. split_and!; [by intros u Hu%not_elem_of_nil|constructor| |].
    - intros k _. apply not_elem_of_nil.
    - intros k u. split; [by left|]. intros [?|[Hu%not_elem_of_nil _]]; done. }
  destruct (_ || _) eqn:G in H; [discriminate|].
  destruct (m !! update_key T u) eqn:Hk; [discriminate|].
  apply IH in H as (Hall & Hnd & Hfresh & Hm'). go_bool. split_and!.
  - intros v [->|Hv]%elem_of_cons; [|by apply Hall]. done.
  - cbn. constructor; [|done]. apply Hfresh. rewrite lookup_insert_eq. eauto.
  - intros k [v Hv]. cbn. apply not_elem_of_cons. split; [congruence|]. apply Hfresh.
    rewrite lookup_insert_ne by congruence. eauto.
  - intros k v. rewrite Hm', elem_of_cons. destruct (decide (k = update_key T u)) as [->|Hne].
    + rewrite lookup_insert_eq, Hk. split; [intros [[= <-]|[Hv ->]]; auto|].
      intros [[=]|[[->|Hv] Hkv]]; [by left|by right].
    + rewrite lookup_insert_ne by done. split; [intros [?|[? ->]]; auto|].
      intros [?|[[->|?] ?]]; auto. done.
Qed.

Lemma validate_events_spec T updates es se sa sa' :
  validate_events T updates se sa es = Ok sa' ->
  (forall e, e ∈ es -> exists u, updates !! event_key T e = Some u /\
     e_TenantID e = u_TenantID u /\ e_AggregateVersion e = u_NextVersion u) /\
  NoDup (map e_EventID es) /\ (forall i, i ∈ se -> i ∉ map e_EventID es) /\
  NoDup (map (event_key T) es) /\ (forall k, k ∈ sa -> k ∉ map (event_key T) es) /\
  (forall k, k ∈ sa' <-> k ∈ sa \/ k ∈ map (event_key T) es).
Proof.
  revert se sa. induction es as [|e es IH]; intros se sa H; cbn in H.
  { injection H as <-. split_and!; try constructor; try (intros; apply not_elem_of_nil).
    - by intros e He%not_elem_of_nil.
    - by left.
    - intros [?|Hk%not_elem_of_nil]; done. }
  destruct (updates !! event_key T e) as [u|] eqn:Hu; [|discriminate].
  destruct (_ || _) eqn:G in H; [discriminate|]. apply IH in H as (Hall & Hid & Hfi & Hk & Hfk & Hsa).
  go_bool. split_and!.
  - intros e' [->|He']%elem_of_cons; [eauto|by apply Hall].
  - cbn. constructor; [apply Hfi; set_solver|done].
  - intros i Hi. cbn. apply not_elem_of_cons. split; [congruence|apply Hfi; set_solver].
  - cbn. constructor; [apply Hfk; set_solver|done].
  - intros k Hk'. cbn. apply not_elem_of_cons. split; [congruence|apply Hfk; set_solver].
  - intros k. rewrite Hsa. cbn. rewrite elem_of_cons. set_solver.
Qed.

Lemma update_states_lookup T us u :
  NoDup (map (update_key T) us) -> (forall u, u ∈ us -> u_TenantID u = T) -> u ∈ us ->
  update_states us !! update_key T u = Some (u_State u).
Proof.
  intros Hnd HT Hu. unfold update_states.
  assert (Heq : map (fun u => update_key (u_TenantID u) u) us = map (update_key T) us).
  { apply map_ext_in. intros v Hv%list_elem_of_In. by rewrite (HT v Hv). }
  pose proof (foldl_insert_in (fun u => update_key (u_TenantID u) u) u_State us ∅ u) as H.
  cbn beta in H. rewrite (HT u Hu) in H. apply H; [by rewrite Heq|done].
Qed.

(** Binding keeps an event but for its replay state. *)
Definition bound_to (states : gmap string string) (e e' : DomainEvent) : Prop :=
  exists state digest, states !! event_key (e_TenantID e) e = Some state /\
    e' = e ⟦ e_ReplayState := cloneJSON state ⟧ ⟦ e_ReplayStateSHA256 := digest ⟧.

Lemma bind_events_spec states es es' :
  bind_events jcs_Transform sha256_Sum256 states es = Ok es' -> Forall2 (bound_to states) es es'.
Proof.
  revert es'. induction es as [|e es IH]; intros es' H; cbn in H; [injection H as <-; constructor|].
  destruct (states !! _) as [state|] eqn:Hs; [|discriminate].
  apply rbind_ok in H as (b & Hb & H). apply rbind_ok in H as (rest & Hrest & H).
  injection H as <-. constructor; [|by apply IH]. unfold bindReplayState in Hb.
  destruct (negb _); [discriminate|].
  destruct (CanonicalJson.Digest _ _ state) as [digest|]; [|discriminate].
  injection Hb as <-. by exists state, digest.
Qed.

Lemma check_versions_spec T s us x :
  check_versions T s us = Ok x ->
  forall u, u ∈ us -> current_version s (update_key T u) = u_ExpectedVersion u.
Proof.
  induction us as [|v us IH]; intros H u Hu; [by apply not_elem_of_nil in Hu|]. cbn in H.
  destruct (negb _) eqn:G in H; [discriminate|]. go_bool.
  apply elem_of_cons in Hu as [->|Hu]; auto.
Qed.

Lemma check_events_spec T s es x :
  check_events T s es = Ok x ->
  forall e, e ∈ es -> events s !! e_EventID e = None /\ versions s !! event_version_key T e = None.
Proof.
  induction es as [|v es IH]; intros H e He; [by apply not_elem_of_nil in He|]. cbn in H.
  destruct (negb _) eqn:G1 in H; [discriminate|]. destruct (negb _) eqn:G2 in H; [discriminate|].
  apply elem_of_cons in He as [->|He]; [|auto]. unfold is_nil in *. by repeat case_match.
Qed.

(** A prepared request is the given one with its events bound. *)
Lemma prepared_request request s request' :
  prepare request s = Ok request' ->
  q_TenantID request' = q_TenantID request /\ q_PrincipalID request' = q_PrincipalID request /\
  q_IdempotencyKey request' = q_IdempotencyKey request /\
  q_RequestSHA256 request' = q_RequestSHA256 request /\ q_Updates request' = q_Updates request /\
  q_Result request' = q_Result request /\
  Forall2 (bound_to (update_states (q_Updates request))) (q_Events request) (q_Events request') /\
  prepared (q_TenantID request') (q_Updates request') (q_Events request') s.
Proof.
  unfold EventStore.prepare. intros H. apply rbind_ok in H as ([] & Hv & H).
  apply rbind_ok in H as (es & Hb & H). cbn in H.
  apply rbind_ok in H as ([] & Hcv & H). apply rbind_ok in H as ([] & Hce & H).
  apply rbind_ok in H as ([] & _ & H). apply rbind_ok in H as ([] & _ & H).
  injection H as <-. cbn. do 6 (split; [done|]). apply bind_events_spec in Hb.
  split; [done|]. set (us := q_Updates request) in *.
  unfold EventStore.validateTransaction in Hv. destruct (_ || _) in Hv; [discriminate|].
  apply rbind_ok in Hv as (m & Hu & Hv). apply rbind_ok in Hv as (sa & He & Hv).
  destruct (negb _) eqn:Hsize in Hv; [discriminate|]. clear Hv. go_bool.
  apply validate_updates_spec in Hu as (Hu1 & Hu2 & _ & Hm).
  apply validate_events_spec in He as (He1 & He2 & _ & He3 & _ & Hsa).
  assert (Hids : map e_EventID es = map e_EventID (q_Events request) /\
                 map (event_key (q_TenantID request)) es = map (event_key (q_TenantID request)) (q_Events request)).
  { clear - Hb. induction Hb as [|e e' es es' (? & ? & _ & ->) _ [IH1 IH2]]; [done|].
    cbn. by rewrite IH1, IH2. }
  destruct Hids as [Hids Hkeys].
  assert (Hmu : forall k u, m !! k = Some u <-> u ∈ us /\ k = update_key (q_TenantID request) u).
  { intros k u. rewrite Hm, lookup_empty. naive_solver. }
  split.
  - intros u Hu. destruct (Hu1 u Hu) as (? & ? & ?). split_and!; try done.
    by eapply check_versions_spec.
  - done.
  - intros e' He'. destruct (check_events_spec _ _ _ _ Hce e' He') as [Hf1 Hf2].
    apply list_elem_of_lookup in He' as [i Hi].
    destruct (Forall2_lookup_r _ _ _ _ _ Hb Hi) as (e & Hei & state & digest & Hst & ->).
    apply list_elem_of_lookup_2 in Hei. destruct (He1 e Hei) as (u & Hku & Htu & Hvu).
    apply Hmu in Hku as [Huin Hku]. destruct (Hu1 u Huin) as (HuT & _). cbn.
    split; [congruence|]. do 2 (split; [done|]). exists u. split; [done|]. split; [done|].
    split; [done|]. rewrite cloneJSON_id.
    assert (Hst' : update_states us !! update_key (q_TenantID request) u = Some (u_State u)).
    { apply update_states_lookup; [done| |done]. intros v Hv. by apply Hu1. }
    rewrite <- Hku in Hst'. assert (e_TenantID e = q_TenantID request) as HeT by congruence.
    rewrite HeT in Hst. rewrite Hst in Hst'. by injection Hst'.
  - by rewrite Hids.
  - by rewrite Hkeys.
  - intros u Hu. assert (Hin : update_key (q_TenantID request) u ∈ sa).
    { assert (Hsub : sa ⊆ dom m).
      { intros k Hk. apply Hsa in Hk as [Hk|Hk]; [set_solver|].
        apply list_elem_of_In, in_map_iff in Hk as (e & <- & He%list_elem_of_In).
        destruct (He1 e He) as (v & Hv & _). by apply elem_of_dom_2 in Hv. }
      assert (Heq : sa = dom m).
      { apply set_subseteq_size_eq; [done|]. rewrite size_dom.
        apply Nat.eqb_eq in Hsize. lia. }
      rewrite Heq. eapply elem_of_dom_2, Hmu. eauto. }
    apply Hsa in Hin as [Hin|Hin]; [set_solver|]. rewrite <- Hkeys in Hin.
    apply list_elem_of_In, in_map_iff in Hin as (e & <- & He%list_elem_of_In). eauto.
Qed.

(** ** What a commit writes *)
Lemma commit_updates_spec T us s :
  let s' := foldl (commit_update T) s us in
  events s' = events s /\ versions s' = versions s /\ outbox s' = outbox s /\
  commands s' = commands s /\ approvals s' = approvals s /\ decisions s' = decisions s /\
  failure s' = failure s /\
  projections s' = foldl (fun m u => <[update_key T u :=
    mkProjection (u_TenantID u) (u_ProjectID u) (u_AggregateType u) (u_AggregateID u)
      (u_NextVersion u) (u_State u)]> m) (projections s) us.
Proof.
  cbv zeta. revert s. induction us as [|u us IH]; intros s; [done|].
  cbn [foldl]. destruct (IH (commit_update T s u)) as (-> & -> & -> & -> & -> & -> & -> & ->).
  unfold commit_update. cbn. by rewrite cloneJSON_id.
Qed.

Lemma commit_events_spec T es s :
  let s' := foldl (commit_event T) s es in
  projections s' = projections s /\ commands s' = commands s /\
  approvals s' = approvals s /\ decisions s' = decisions s /\ failure s' = failure s /\
  events s' = foldl (fun m e => <[e_EventID e := e]> m) (events s) es /\
  versions s' = foldl (fun m e => <[event_version_key T e := e_EventID e]> m) (versions s) es /\
  outbox s' = foldl (fun m e => <[outbox_id e := mkOutboxRecord (outbox_id e) e None 0 (e_OccurredAt e)]> m)
                (outbox s) es.
Proof.
  cbv zeta. revert s. induction es as [|e es IH]; intros s; [done|].
  cbn [foldl]. destruct (IH (commit_event T s e)) as (-> & -> & -> & -> & -> & -> & -> & ->).
  unfold commit_event. rewrite !cloneEvent_id. done.
Qed.

Lemma values_elem {A} (m : gmap string A) x : x ∈ values m <-> exists k, m !! k = Some x.
Proof.
  unfold values. rewrite list_elem_of_In, in_map_iff. split.
  - intros ([k y] & <- & H%list_elem_of_In). exists k. by apply elem_of_map_to_list.
  - intros [k H]. exists (k, x). split; [done|]. by apply list_elem_of_In, elem_of_map_to_list.
Qed.

(** ** The invariant *)
Definition stored (s : MemoryStore) (e : DomainEvent) : Prop := events s !! e_EventID e = Some e.

Definition key_of (e : DomainEvent) : string := event_key (e_TenantID e) e.

Record wf (s : MemoryStore) : Prop := {
  wf_event : forall id e, events s !! id = Some e -> e_EventID e = id /\
    versions s !! event_version_key (e_TenantID e) e = Some id /\
    exists p, projections s !! key_of e = Some p /\ 1 <= e_AggregateVersion e <= p_Version p;
  wf_projection : forall k p, projections s !! k = Some p -> 1 <= p_Version p < two63 /\
    forall v, 1 <= v <= p_Version p -> exists e, stored s e /\ key_of e = k /\
      e_AggregateVersion e = v /\ (v = p_Version p -> e_ReplayState e = p_State p);
  wf_outbox : forall id o, outbox s !! id = Some o ->
    id = o_ID o /\ id = outbox_id (o_Event o) /\ stored s (o_Event o) /\ 0 <= o_Attempts o;
  wf_dispatched : forall e, stored s e -> is_Some (outbox s !! outbox_id e)
}.

Lemma outbox_id_inj e e' : outbox_id e = outbox_id e' -> e_EventID e = e_EventID e'.
Proof. unfold outbox_id. apply (inj _). Qed.

Lemma outbox_ids_NoDup es : NoDup (map e_EventID es) -> NoDup (map outbox_id es).
Proof.
  intros H. induction es as [|e es IH]; [constructor|]. cbn in *.
  apply NoDup_cons in H as [Hni H]. constructor; [|by apply IH].
  intros (e' & He & He'%list_elem_of_In)%list_elem_of_In%in_map_iff. apply Hni.
  apply list_elem_of_In, in_map_iff. exists e'. split; [by apply outbox_id_inj|by apply list_elem_of_In].
Qed.

Lemma NoDup_map_inv {A} (f : A -> string) l x y :
  NoDup (map f l) -> x ∈ l -> y ∈ l -> f x = f y -> x = y.
Proof.
  induction l as [|z l IH]; intros Hnd Hx Hy Hf; [by apply not_elem_of_nil in Hx|].
  cbn in Hnd. apply NoDup_cons in Hnd as [Hni Hnd].
  assert (Hin : forall w, w ∈ l -> f w <> f z).
  { intros w Hw Heq. apply Hni. rewrite <- Heq. by apply list_elem_of_In, in_map, list_elem_of_In. }
  apply elem_of_cons in Hx as [->|Hx], Hy as [->|Hy]; auto; [|]; exfalso; by eapply Hin; eauto.
Qed.

Lemma append_assoc a b c : (a +:+ b) +:+ c = a +:+ b +:+ c.
Proof. apply bytes_inj. by rewrite !bytes_concat, (assoc_L (++)). Qed.

(** Version keys identify the aggregate and the version. *)
Lemma aggregateKey_inj T T' ty ty' id id' :
  no_nul T = true -> no_nul T' = true -> no_nul ty = true -> no_nul ty' = true ->
  aggregateKey T ty id = aggregateKey T' ty' id' -> T = T' /\ ty = ty' /\ id = id'.
Proof.
  unfold aggregateKey. intros ? ? ? ? H. apply nul_prefix_inj in H as [-> H]; [|done..].
  by apply nul_prefix_inj in H as [-> ->].
Qed.

Lemma event_version_key_inj T e e' :
  event_version_key T e = event_version_key T e' ->
  event_key T e = event_key T e' /\ e_AggregateVersion e = e_AggregateVersion e'.
Proof.
  unfold event_version_key, versionKey, event_key, aggregateKey. intros H.
  assert (Hsplit : forall a b c v : string,
    a +:+ nul +:+ b +:+ nul +:+ c +:+ nul +:+ v = (a +:+ nul +:+ b +:+ nul +:+ c) +:+ nul +:+ v)
    by (intros; by rewrite !append_assoc).
  rewrite !Hsplit in H.
  apply nul_suffix_inj in H as [Hk Hv]; [|apply pretty_no_nul..].
  split; [done|]. by apply (inj pretty) in Hv.
Qed.


Lemma version_keys_NoDup T es :
  NoDup (map (event_key T) es) -> NoDup (map (event_version_key T) es).
Proof.
  intros H. induction es as [|e es IH]; [constructor|]. cbn in *.
  apply NoDup_cons in H as [Hni H]. constructor; [|by apply IH].
  intros (e' & He & He'%list_elem_of_In)%list_elem_of_In%in_map_iff. apply Hni.
  apply event_version_key_inj in He as [He _]. rewrite <- He.
  by apply list_elem_of_In, in_map, list_elem_of_In.
Qed.

(** The new contents of the store, map by map. *)
Section Commit.
Context (request : TransactionRequest) (s : MemoryStore).
Notation T := (q_TenantID request).
Notation us := (q_Updates request).
Notation es := (q_Events request).
Context (P : prepared T us es s).
Notation s' := (fst (commit request s)).

Lemma commit_fields :
  projections s' = foldl (fun m u => <[update_key T u :=
    mkProjection (u_TenantID u) (u_ProjectID u) (u_AggregateType u) (u_AggregateID u)
      (u_NextVersion u) (u_State u)]> m) (projections s) us /\
  events s' = foldl (fun m e => <[e_EventID e := e]> m) (events s) es /\
  versions s' = foldl (fun m e => <[event_version_key T e := e_EventID e]> m) (versions s) es /\
  outbox s' = foldl (fun m e => <[outbox_id e := mkOutboxRecord (outbox_id e) e None 0 (e_OccurredAt e)]> m)
                (outbox s) es /\
  commands s' = <[commandKey T (q_PrincipalID request) (q_IdempotencyKey request) :=
    mkCommandRecord (q_RequestSHA256 request) (mkTransactionResult (q_Result request) es false)]>
    (commands s) /\
  failure s' = failure s /\
  snd (commit request s) = mkTransactionResult (q_Result request) es false.
Proof.
  unfold commit. set (s1 := foldl (commit_update T) s us).
  set (s2 := foldl (commit_event T) s1 es).
  pose proof (commit_updates_spec T us s) as H1. fold s1 in H1. cbv zeta in H1.
  pose proof (commit_events_spec T es s1) as H2. fold s2 in H2. cbv zeta in H2.
  destruct H1 as (He & Hv & Ho & Hc & _ & _ & Hf & Hp).
  destruct H2 as (Hp2 & Hc2 & _ & _ & Hf2 & He2 & Hv2 & Ho2).
  cbn. rewrite Hp2, Hp, He2, He, Hv2, Hv, Ho2, Ho, Hc2, Hc, Hf2, Hf, cloneJSON_id, cloneEvents_id.
  auto 10.
Qed.

Lemma event_committed e : e ∈ es -> events s' !! e_EventID e = Some e.
Proof.
  destruct commit_fields as (_ & -> & _). intros He.
  exact (foldl_insert_in e_EventID (fun e => e) es (events s) e (pr_event_ids _ _ _ _ P) He).
Qed.

Lemma event_kept id e : events s !! id = Some e -> events s' !! id = Some e.
Proof.
  intros He. destruct commit_fields as (_ & -> & _).
  rewrite (foldl_insert_notin e_EventID (fun e => e)); [done|].
  intros (e' & <- & He'%list_elem_of_In)%list_elem_of_In%in_map_iff.
  destruct (pr_event _ _ _ _ P e' He') as (_ & Hn & _). congruence.
Qed.

Lemma event_origin id e :
  events s' !! id = Some e -> (e ∈ es /\ id = e_EventID e) \/ events s !! id = Some e.
Proof.
  destruct commit_fields as (_ & -> & _). intros H.
  apply (foldl_insert_inv e_EventID (fun e => e)) in H as [(x & Hx & -> & ->)|[_ H]];
    [by left|by right|apply (pr_event_ids _ _ _ _ P)].
Qed.

Lemma version_committed e : e ∈ es -> versions s' !! event_version_key T e = Some (e_EventID e).
Proof.
  destruct commit_fields as (_ & _ & -> & _). intros He.
  apply (foldl_insert_in (event_version_key T) e_EventID); [|done].
  apply version_keys_NoDup, (pr_event_keys _ _ _ _ P).
Qed.

Lemma version_kept k id : versions s !! k = Some id -> versions s' !! k = Some id.
Proof.
  intros Hk. destruct commit_fields as (_ & _ & -> & _).
  rewrite (foldl_insert_notin (event_version_key T) e_EventID); [done|].
  intros (e' & <- & He'%list_elem_of_In)%list_elem_of_In%in_map_iff.
  destruct (pr_event _ _ _ _ P e' He') as (_ & _ & Hn & _). congruence.
Qed.

Lemma projection_committed u :
  u ∈ us -> projections s' !! update_key T u = Some (mkProjection (u_TenantID u) (u_ProjectID u)
    (u_AggregateType u) (u_AggregateID u) (u_NextVersion u) (u_State u)).
Proof.
  destruct commit_fields as (-> & _). intros Hu.
  exact (foldl_insert_in (update_key T) _ us (projections s) u (pr_update_keys _ _ _ _ P) Hu).
Qed.

Lemma projection_origin k p :
  projections s' !! k = Some p ->
  (exists u, u ∈ us /\ k = update_key T u /\ p_Version p = u_NextVersion u /\ p_State p = u_State u)
  \/ (k ∉ map (update_key T) us /\ projections s !! k = Some p).
Proof.
  destruct commit_fields as (-> & _). intros H.
  apply foldl_insert_inv in H as [(x & Hx & -> & ->)|[Hni H]];
    [left; by exists x|by right|apply (pr_update_keys _ _ _ _ P)].
Qed.

Lemma outbox_origin id o :
  outbox s' !! id = Some o ->
  (exists e, e ∈ es /\ id = outbox_id e /\ o = mkOutboxRecord (outbox_id e) e None 0 (e_OccurredAt e))
  \/ outbox s !! id = Some o.
Proof.
  destruct commit_fields as (_ & _ & _ & -> & _). intros H.
  apply foldl_insert_inv in H as [H|[_ H]]; [by left|by right|].
  apply outbox_ids_NoDup, (pr_event_ids _ _ _ _ P).
Qed.

Lemma outbox_committed e : e ∈ es -> is_Some (outbox s' !! outbox_id e).
Proof.
  destruct commit_fields as (_ & _ & _ & -> & _). intros He. eexists.
  apply (foldl_insert_in outbox_id); [|done]. apply outbox_ids_NoDup, (pr_event_ids _ _ _ _ P).
Qed.

(** A new event never shares its outbox identifier with an old record. *)
Lemma outbox_kept id o : wf s -> outbox s !! id = Some o -> outbox s' !! id = Some o.
Proof.
  intros W Ho. destruct commit_fields as (_ & _ & _ & -> & _).
  rewrite (foldl_insert_notin outbox_id); [done|].
  intros (e' & Hid & He'%list_elem_of_In)%list_elem_of_In%in_map_iff.
  destruct (wf_outbox _ W _ _ Ho) as (_ & Hid' & Hst & _). rewrite Hid' in Hid.
  apply outbox_id_inj in Hid. destruct (pr_event _ _ _ _ P e' He') as (_ & Hn & _).
  unfold stored in Hst. congruence.
Qed.

(** The version an update moves an aggregate to. *)
Lemma update_version u :
  wf s -> u ∈ us -> u_ExpectedVersion u < two63 - 1 ->
  u_NextVersion u = current_version s (update_key T u) + 1 /\ 1 <= u_NextVersion u < two63.
Proof.
  intros W Hu Hb. destruct (pr_update _ _ _ _ P u Hu) as (_ & Hn & Hv & ->). rewrite Hv.
  rewrite wrap64_id by (unfold in_int64, two63 in *; lia). unfold two63 in *. lia.
Qed.

Lemma commit_wf :
  wf s -> (forall u, u ∈ us -> u_ExpectedVersion u < two63 - 1) -> wf s'.
Proof.
  intros W Hb. split.
  - intros id e [[He ->]|He]%event_origin.
    + destruct (pr_event _ _ _ _ P e He) as (Ht & _ & _ & u & Hu & Hk & Hv & _).
      split; [done|]. rewrite Ht. split; [by apply version_committed|].
      unfold key_of. rewrite Ht, <- Hk. eexists. split; [by apply projection_committed|]. cbn.
      destruct (update_version u W Hu (Hb u Hu)). lia.
    + destruct (wf_event _ W id e He) as (Hid & Hver & p & Hp & Hle). split; [done|].
      split; [by apply version_kept|].
      destruct (decide (key_of e ∈ map (update_key T) us)) as [Hin|Hni].
      * apply list_elem_of_In, in_map_iff in Hin as (u & Hk & Hu%list_elem_of_In).
        rewrite <- Hk. eexists. split; [by apply projection_committed|]. cbn.
        destruct (update_version u W Hu (Hb u Hu)) as [Hnext _].
        unfold current_version in Hnext. rewrite Hk, Hp in Hnext. lia.
      * exists p. split; [|done]. destruct commit_fields as (-> & _).
        by rewrite foldl_insert_notin.
  - intros k p [(u & Hu & -> & Hv & Hs)|[Hni Hp]]%projection_origin.
    + destruct (update_version u W Hu (Hb u Hu)) as [Hnext Hrange]. rewrite Hv, Hs.
      split; [done|]. intros v Hle. destruct (decide (v = u_NextVersion u)) as [->|Hne].
      * destruct (pr_cover _ _ _ _ P u Hu) as (e & He & Hke). exists e.
        destruct (pr_event _ _ _ _ P e He) as (Ht & _ & _ & u' & Hu' & Hk' & Hv' & Hs').
        assert (u' = u) as -> by (eapply NoDup_map_inv; [apply P|done..|congruence]).
        split; [by apply event_committed|]. split; [unfold key_of; by rewrite Ht|]. auto.
      * unfold current_version in Hnext.
        destruct (projections s !! update_key T u) as [q|] eqn:Hq; [|lia].
        destruct (wf_projection _ W _ _ Hq) as [_ Hall].
        destruct (Hall v) as (e & He & Hke & Hve & _); [lia|].
        exists e. split; [by apply event_kept|]. split_and!; [done|done|lia].
    + destruct (wf_projection _ W _ _ Hp) as [Hr Hall]. split; [done|]. intros v Hv.
      destruct (Hall v Hv) as (e & He & Hrest). exists e. split; [by apply event_kept|done].
  - intros id o [(e & He & -> & ->)|Ho]%outbox_origin; cbn.
    + split_and!; [done|done|by apply event_committed|lia].
    + destruct (wf_outbox _ W _ _ Ho) as (? & ? & Hst & ?).
      split_and!; [done|done|by apply event_kept|done].
  - intros e [[He _]|He]%event_origin; [by apply outbox_committed|].
    destruct (wf_dispatched _ W e He) as [o Ho]. eexists. by apply outbox_kept.
Qed.
End Commit.

(** ** Runs of the store *)
Inductive command : Type :=
| CmdExecute (request : TransactionRequest)
| CmdFailNext (point : FailurePoint)
| CmdClaimOutbox (ctx_Err : option string) (tenantID : string) (now : time) (limit : Z) (lease : duration)
| CmdMarkPublished (ctx_Err : option string) (tenantID outboxID : string) (attempt : Z) (at_ : time)
| CmdRetry (ctx_Err : option string) (tenantID outboxID : string) (attempt : Z) (at_ : time).

Definition kept (s : MemoryStore) (r : result MemoryStore store_error) : MemoryStore :=
  match r with Ok s' => s' | Err _ => s end.

Definition apply (s : MemoryStore) (c : command) : MemoryStore :=
  match c with
  | CmdExecute request => fst (Execute request s)
  | CmdFailNext point => FailNext point s
  | CmdClaimOutbox ctx t now limit lease =>
      match ClaimOutbox ctx t now limit lease s with Ok (s', _) => s' | Err _ => s end
  | CmdMarkPublished ctx t id n at_ => kept s (MarkOutboxPublished ctx t id n at_ s)
  | CmdRetry ctx t id n at_ => kept s (RetryOutbox ctx t id n at_ s)
  end.

(** Versions and delivery attempts stay below 2^63 - 1. *)
Definition env_ok (s : MemoryStore) (c : command) : bool :=
  match c with
  | CmdExecute request => forallb (fun u => u_ExpectedVersion u <? two63 - 1) (q_Updates request)
  | CmdClaimOutbox _ _ _ _ _ =>
      forallb (fun o => o_Attempts o <? two63 - 1) (values (outbox s))
  | _ => true
  end.

Definition store_step (s : MemoryStore) (c : command) : option MemoryStore :=
  if env_ok s c then Some (apply s c) else None.

(** *** No check reports an unknown commit result *)
Definition definite {A} (r : result A store_error) : Prop := r <> Err ErrCommitResultUnknown.

Lemma definite_rbind {A B} (r : result A store_error) (k : A -> result B store_error) :
  definite r -> (forall a, definite (k a)) -> definite (rbind r k).
Proof. unfold definite. destruct r as [a|e]; cbn; [auto|intros H _ [= ->]; done]. Qed.

Lemma definite_reject {A} (c : bool) (e : store_error) (k : result A store_error) :
  e <> ErrCommitResultUnknown -> definite k -> definite (if c then Err e else k).
Proof. unfold definite. destruct c; congruence. Qed.

Ltac definite :=
  repeat first
    [ done
    | apply definite_reject
    | apply definite_rbind; [|intros ?]
    | match goal with |- definite (match ?x with _ => _ end) => destruct x end ].

Lemma prepare_definite request s : definite (prepare request s).
Proof.
  assert (H1 : forall T us m, definite (validate_updates T m us)).
  { intros T us. induction us as [|u us IH]; intros m; cbn [validate_updates]; definite; apply IH. }
  assert (H2 : forall T m es se sa, definite (validate_events T m se sa es)).
  { intros T m es. induction es as [|e es IH]; intros se sa; cbn [validate_events]; definite; apply IH. }
  assert (H3 : forall es, definite (validate_digests jcs_Transform sha256_Sum256 es)).
  { induction es as [|e es IH]; cbn [validate_digests]; definite; apply IH. }
  assert (H4 : forall T l seen, definite (validate_approvals T seen l)).
  { intros T l. induction l as [|x l IH]; intros seen; cbn [validate_approvals]; definite; apply IH. }
  assert (H5 : forall T p sa l seen, definite (validate_decisions T p sa seen l)).
  { intros T p sa l. induction l as [|x l IH]; intros seen; cbn [validate_decisions]; definite; apply IH. }
  assert (H6 : forall st es, definite (bind_events jcs_Transform sha256_Sum256 st es)).
  { intros st es. induction es as [|e es IH]; cbn [bind_events]; definite;
      first [apply IH | unfold bindReplayState; definite]. }
  assert (H7 : forall T us, definite (check_versions T s us)).
  { intros T us. induction us as [|u us IH]; cbn [check_versions]; definite; apply IH. }
  assert (H8 : forall T es, definite (check_events T s es)).
  { intros T es. induction es as [|e es IH]; cbn [check_events]; definite; apply IH. }
  unfold EventStore.prepare, EventStore.validateTransaction, EventStore.bindReplayStates,
    check_approvals, check_decisions. definite; auto.
Qed.

Lemma lookup_definite T p k d s : definite (lookupLocked T p k d s).
Proof. unfold lookupLocked. definite. Qed.

(** *** What [Execute] does, by outcome *)
Lemma lookup_repeat T p k d s t :
  lookupLocked T p k d s = Ok (Some t) ->
  exists t0, commands s !! commandKey T p k = Some (mkCommandRecord d t0) /\
    t = t0 ⟦ t_Duplicate := true ⟧.
Proof.
  unfold lookupLocked. destruct (commands s !! _) as [[d' t0]|]; [|discriminate].
  destruct (negb _) eqn:G; [discriminate|]. go_bool. intros H%Ok_inj. exists t0.
  rewrite cloneResult_id in H. cbn in *. split; congruence.
Qed.

(** A repeat answers with the recorded result. *)
Definition repeats (request : TransactionRequest) (s : MemoryStore) (t : TransactionResult) : Prop :=
  exists t0, commands s !! commandKey (q_TenantID request) (q_PrincipalID request)
               (q_IdempotencyKey request) = Some (mkCommandRecord (q_RequestSHA256 request) t0) /\
    t = t0 ⟦ t_Duplicate := true ⟧.

Lemma repeats_duplicate request s t : repeats request s t -> t_Duplicate t = true.
Proof. by intros (t0 & _ & ->). Qed.

Lemma Execute_cases request s :
  (exists r, Execute request s = (s, r) /\ definite r /\
     (forall t, r = Ok t -> repeats request s t)) \/
  (exists request', prepare request s = Ok request' /\
     commands s !! commandKey (q_TenantID request) (q_PrincipalID request)
                  (q_IdempotencyKey request) = None /\
     let committed := commit request' s in
     (failure s = FailureBeforeCommit /\
        Execute request s = (s ⟦ failure := FailureNone ⟧, Err ErrInjectedFailure)) \/
     (failure s = FailureAfterCommit /\
        Execute request s = ((fst committed) ⟦ failure := FailureNone ⟧, Err ErrCommitResultUnknown)) \/
     (failure s = FailureNone /\ Execute request s = (fst committed, Ok (snd committed)))).
Proof.
  unfold EventStore.Execute.
  pose proof (lookup_definite (q_TenantID request) (q_PrincipalID request)
    (q_IdempotencyKey request) (q_RequestSHA256 request) s) as Hld.
  destruct (lookupLocked _ _ _ _ s) as [[t|]|e] eqn:Hl.
  - left. eexists. split; [done|]. split; [done|]. intros t' <-%Ok_inj.
    by apply lookup_repeat in Hl.
  - destruct (prepare request s) as [request'|e] eqn:Hp.
    + right. exists request'. split; [done|].
      split; [by unfold lookupLocked in Hl; repeat case_match|]. cbv zeta.
      destruct (commit_fields request' s) as (_ & _ & _ & _ & _ & Hf & _).
      unfold consumeFailure. destruct (failure s) eqn:Hfs.
      * right. right. rewrite (bool_decide_eq_false_2 (FailureNone = FailureBeforeCommit)) by done.
        cbn [negb]. destruct (commit request' s) as [s' t]. cbn [fst snd] in *.
        rewrite Hf, cloneResult_id.
        rewrite (bool_decide_eq_false_2 (FailureNone = FailureAfterCommit)) by done. done.
      * left. rewrite bool_decide_eq_true_2 by done. done.
      * right. left. rewrite (bool_decide_eq_false_2 (FailureAfterCommit = FailureBeforeCommit)) by done.
        cbn [negb]. destruct (commit request' s) as [s' t]. cbn [fst snd] in *.
        rewrite Hf, bool_decide_eq_true_2 by done. done.
    + left. eexists. split; [done|]. split; [|done].
      pose proof (prepare_definite request s) as Hd. rewrite Hp in Hd. intros [= ->]. by apply Hd.
  - left. eexists. split; [done|]. split; [|done]. intros [= ->]. by apply Hld.
Qed.

(** The store but for its pending injected failure. *)
Definition same_contents (s s' : MemoryStore) : Prop := s' = s ⟦ failure := failure s' ⟧.

Lemma with_failure_wf s f : wf s -> wf (s ⟦ failure := f ⟧).
Proof. by intros [H1 H2 H3 H4]. Qed.

Lemma execute_wf request s :
  wf s -> env_ok s (CmdExecute request) = true -> wf (fst (Execute request s)).
Proof.
  intros W He. cbn in He. rewrite forallb_forall in He.
  destruct (Execute_cases request s) as [(r & -> & _)|(request' & Hp & _ & Hc)]; [done|].
  apply prepared_request in Hp as (_ & _ & _ & _ & Hu & _ & _ & P). cbv zeta in Hc.
  assert (Wc : wf (fst (commit request' s))).
  { apply commit_wf; [done|done|]. intros u Hin%list_elem_of_In. rewrite Hu in Hin.
    apply He in Hin. by go_bool. }
  destruct Hc as [(_ & ->)|[(_ & ->)|(_ & ->)]]; cbn [fst]; auto using with_failure_wf.
Qed.

(** A change of one outbox record that keeps its identity and event. *)
Lemma outbox_update_wf s id o o' :
  wf s -> outbox s !! id = Some o -> o_ID o' = o_ID o -> o_Event o' = o_Event o ->
  0 <= o_Attempts o' -> wf (s ⟦ outbox := <[id := o']> (outbox s) ⟧).
Proof.
  intros W Ho Hid He Ha. split; cbn; try apply W.
  - intros id' x Hx. apply lookup_insert_Some in Hx as [[<- <-]|[_ Hx]]; [|by apply (wf_outbox _ W)].
    destruct (wf_outbox _ W _ _ Ho) as (? & ? & ? & _). rewrite Hid, He. done.
  - intros e He'. destruct (wf_dispatched _ W e He') as [x Hx].
    destruct (decide (id = outbox_id e)) as [->|Hne].
    + rewrite lookup_insert_eq. eauto.
    + rewrite lookup_insert_ne by done. eauto.
Qed.

(** *** Claims *)
Definition ready (tenantID : string) (now : time) (limit : Z) (s : MemoryStore) : list OutboxRecord :=
  let ready := sort_slice outbox_before
    (map cloneOutboxRecord (List.filter (claimable tenantID now) (values (outbox s)))) in
  if limit <? Z.of_nat (length ready) then take (Z.to_nat limit) ready else ready.

Lemma map_clone l : map cloneOutboxRecord l = l.
Proof. induction l as [|o l IH]; [done|]. cbn [map]. by rewrite cloneOutboxRecord_id, IH. Qed.

Lemma claimable_spec tenantID now s l :
  wf s -> l ≡ₚ List.filter (claimable tenantID now) (values (outbox s)) ->
  NoDup (map o_ID l) /\
  forall o, o ∈ l <-> outbox s !! o_ID o = Some o /\ claimable tenantID now o = true.
Proof.
  intros W Hp.
  assert (Hin : forall o, o ∈ values (outbox s) <-> outbox s !! o_ID o = Some o).
  { intros o. unfold values. rewrite list_elem_of_In, in_map_iff. split.
    - intros ([k o'] & Ho & Hk%list_elem_of_In%elem_of_map_to_list). cbn in Ho. subst o'.
      by destruct (wf_outbox _ W _ _ Hk) as (-> & _).
    - intros Ho. exists (o_ID o, o). split; [done|]. by apply list_elem_of_In, elem_of_map_to_list. }
  assert (Hkeys : map o_ID (values (outbox s)) = map fst (map_to_list (outbox s))).
  { unfold values. rewrite map_map. apply map_ext_in. intros [k o] Hk%list_elem_of_In%elem_of_map_to_list.
    by destruct (wf_outbox _ W _ _ Hk) as (-> & _). }
  split.
  - rewrite Hp.
    assert (Hsub : sublist (map o_ID (List.filter (claimable tenantID now) (values (outbox s))))
                     (map o_ID (values (outbox s)))).
    { generalize (values (outbox s)) as os. clear. intros os.
      induction os as [|o os IH]; [constructor|]. cbn.
      destruct (claimable tenantID now o); cbn; [by apply sublist_skip|by apply sublist_cons]. }
    eapply sublist_NoDup; [|exact Hsub]. rewrite Hkeys. apply NoDup_fst_map_to_list.
  - intros o. rewrite Hp, list_elem_of_In, filter_In, <- list_elem_of_In, Hin. done.
Qed.

Lemma ready_spec tenantID now limit s :
  wf s -> NoDup (map o_ID (ready tenantID now limit s)) /\
  forall o, o ∈ ready tenantID now limit s ->
    outbox s !! o_ID o = Some o /\ claimable tenantID now o = true.
Proof.
  intros W. unfold ready. rewrite map_clone. set (l := sort_slice _ _).
  destruct (claimable_spec tenantID now s l W) as [Hnd Hin]; [apply sort_slice_Permutation|].
  case_match; [|split; [done|intros o; apply Hin]]. split.
  - eapply sublist_NoDup; [exact Hnd|]. rewrite <- firstn_map. apply sublist_take.
  - intros o [i [Hi _]]%elem_of_take. apply Hin. by eapply list_elem_of_lookup_2.
Qed.

(** [ClaimOutbox] on the ready records. *)
Lemma ClaimOutbox_eq ctx t now limit lease s s' claims :
  ClaimOutbox ctx t now limit lease s = Ok (s', claims) ->
  s' = s ⟦ outbox := foldl (fun m o => <[o_ID o := claim now lease o]> m) (outbox s)
                       (ready t now limit s) ⟧ /\
  claims = map (fun o => ((claim now lease o) ⟦ o_Event := without_replay (o_Event o) ⟧,
                          wrap64 (o_Attempts o + 1))) (ready t now limit s).
Proof.
  unfold ClaimOutbox. destruct ctx; [discriminate|]. destruct (_ || _) in |- *; [discriminate|].
  change (if limit <? _ then _ else _) with (ready t now limit s).
  intros [<- <-]%Ok_inj%pair_equal_spec. split.
  - do 2 f_equal. generalize (outbox s) as m. induction (ready t now limit s) as [|o os IH]; [done|].
    intros m. cbn [map foldl]. rewrite cloneOutboxRecord_id. apply IH.
  - rewrite map_map. apply map_ext. intros o. by rewrite cloneOutboxRecord_id.
Qed.

Lemma claim_lookup ctx t now limit lease s s' claims id o :
  wf s -> ClaimOutbox ctx t now limit lease s = Ok (s', claims) -> outbox s !! id = Some o ->
  outbox s' !! id = Some (if decide (o ∈ ready t now limit s) then claim now lease o else o).
Proof.
  intros W [-> _]%ClaimOutbox_eq Ho. cbn. destruct (ready_spec t now limit s W) as [Hnd Hin].
  destruct (wf_outbox _ W _ _ Ho) as (Hid & _). case_decide as Hr.
  - rewrite Hid. exact (foldl_insert_in o_ID (claim now lease) _ (outbox s) o Hnd Hr).
  - rewrite (foldl_insert_notin o_ID (claim now lease)); [done|].
    intros (o' & Hid' & Hr'%list_elem_of_In)%list_elem_of_In%in_map_iff.
    destruct (Hin o' Hr') as [Ho' _]. rewrite Hid', Ho in Ho'. by injection Ho' as ->.
Qed.

Lemma claim_back ctx t now limit lease s s' claims id o' :
  wf s -> ClaimOutbox ctx t now limit lease s = Ok (s', claims) ->
  outbox s' !! id = Some o' -> is_Some (outbox s !! id).
Proof.
  intros W Hc Ho'. destruct (outbox s !! id) as [o|] eqn:Ho; [eauto|]. exfalso.
  destruct (ready_spec t now limit s W) as [_ Hin].
  apply ClaimOutbox_eq in Hc as [-> _]. cbn in Ho'.
  rewrite (foldl_insert_notin o_ID (claim now lease)) in Ho'; [congruence|].
  intros (x & <- & Hx%list_elem_of_In)%list_elem_of_In%in_map_iff.
  destruct (Hin x Hx). congruence.
Qed.

Lemma claim_wf ctx t now limit lease s s' claims :
  wf s -> env_ok s (CmdClaimOutbox ctx t now limit lease) = true ->
  ClaimOutbox ctx t now limit lease s = Ok (s', claims) -> wf s'.
Proof.
  intros W He Hc. 
  pose proof (fun id o => claim_lookup ctx t now limit lease s s' claims id o W Hc) as Hl'.
  cbn in He. rewrite forallb_forall in He.
  assert (Hother : projections s' = projections s /\ events s' = events s /\ versions s' = versions s)
    by (apply ClaimOutbox_eq in Hc as [-> _]; done).
  destruct Hother as (Hp & Hev & Hv).
  assert (Hback : forall id o', outbox s' !! id = Some o' -> is_Some (outbox s !! id)).
  { intros id o'. by eapply claim_back. }
  unfold stored in *. split; rewrite ?Hp, ?Hev, ?Hv; try apply W.
  - unfold stored. rewrite Hev. apply W.
  - unfold stored. rewrite Hev. intros id o' Ho'. destruct (Hback id o' Ho') as [o Ho].
    destruct (wf_outbox _ W _ _ Ho) as (? & ? & ? & ?). rewrite (Hl' id o Ho) in Ho'.
    injection Ho' as <-. case_decide; [|done]. cbn.
    assert (Hb : o ∈ values (outbox s)).
    { unfold values. apply list_elem_of_In, in_map_iff. exists (id, o).
      split; [done|]. by apply list_elem_of_In, elem_of_map_to_list. }
    apply list_elem_of_In, He in Hb. go_bool.
    rewrite wrap64_id by (unfold in_int64, two63 in *; lia). split_and!; try done. lia.
  - unfold stored. rewrite Hev. intros e Hs. destruct (wf_dispatched _ W e Hs) as [o Ho].
    rewrite (Hl' _ _ Ho). eauto.
Qed.

(** [MarkOutboxPublished] and [RetryOutbox] rewrite one record they hold. *)
Lemma mark_inv ctx t id n at_ s s' :
  MarkOutboxPublished ctx t id n at_ s = Ok s' ->
  exists o, outbox s !! id = Some o /\ holds_claim t n o = true /\
    s' = s ⟦ outbox := <[id := o ⟦ o_PublishedAt := Some at_ ⟧]> (outbox s) ⟧.
Proof.
  unfold MarkOutboxPublished. destruct ctx; [discriminate|]. intros H.
  destruct (_ || _) in H; [discriminate|]. destruct (outbox s !! id) as [o|]; [|discriminate].
  destruct (holds_claim t n o) eqn:Hh; [|discriminate]. apply Ok_inj in H. exists o.
  rewrite cloneOutboxRecord_id in H. auto.
Qed.

Lemma retry_inv ctx t id n at_ s s' :
  RetryOutbox ctx t id n at_ s = Ok s' ->
  exists o, outbox s !! id = Some o /\ holds_claim t n o = true /\
    s' = s ⟦ outbox := <[id := o ⟦ o_NextAttempt := at_ ⟧]> (outbox s) ⟧.
Proof.
  unfold RetryOutbox. destruct ctx; [discriminate|]. intros H.
  destruct (_ || _) in H; [discriminate|]. destruct (outbox s !! id) as [o|]; [|discriminate].
  destruct (holds_claim t n o) eqn:Hh; [|discriminate]. apply Ok_inj in H. exists o.
  rewrite cloneOutboxRecord_id in H. auto.
Qed.

Lemma store_step_wf s c s' : wf s -> store_step s c = Some s' -> wf s'.
Proof.
  intros W. unfold store_step. destruct (env_ok s c) eqn:He; [|discriminate]. intros [= <-].
  destruct c as [request|point|ctx t now limit lease|ctx t id n at_|ctx t id n at_]; cbn [apply].
  - by apply execute_wf.
  - by apply with_failure_wf.
  - destruct (ClaimOutbox _ _ _ _ _ s) as [[s' claims]|] eqn:Hc; [|done]. by eapply claim_wf.
  - destruct (MarkOutboxPublished _ _ _ _ _ s) as [s'|] eqn:Hm; [|done]. cbn.
    apply mark_inv in Hm as (o & Ho & _ & ->). destruct (wf_outbox _ W _ _ Ho) as (_ & _ & _ & ?).
    by apply (outbox_update_wf s id o).
  - destruct (RetryOutbox _ _ _ _ _ s) as [s'|] eqn:Hm; [|done]. cbn.
    apply retry_inv in Hm as (o & Ho & _ & ->). destruct (wf_outbox _ W _ _ Ho) as (_ & _ & _ & ?).
    by apply (outbox_update_wf s id o).
Qed.

Lemma empty_store_wf : wf NewMemoryStore.
Proof. split; cbn; unfold stored; cbn; intros *; rewrite lookup_empty; done. Qed.

Lemma store_run_wf cs s : run store_step NewMemoryStore cs s -> wf s.
Proof. intros Hr. exact (run_preserves store_step wf store_step_wf _ _ _ Hr empty_store_wf). Qed.

(** C21: projections are the fold of their history.  In every reachable store,
    each aggregate has exactly one event for each version from 1 to its
    projection's version and none beyond, and the projection's state is the
    replay state of its last event. *)
Theorem history_contiguous cs s k p :
  run store_step NewMemoryStore cs s -> projections s !! k = Some p ->
  (forall v, 1 <= v <= p_Version p -> exists! id, exists e,
     events s !! id = Some e /\ key_of e = k /\ e_AggregateVersion e = v) /\
  (forall id e, events s !! id = Some e -> key_of e = k ->
     1 <= e_AggregateVersion e <= p_Version p /\
     (e_AggregateVersion e = p_Version p -> e_ReplayState e = p_State p)) /\
  1 <= p_Version p.
Proof.
  intros W%store_run_wf Hp. destruct (wf_projection _ W _ _ Hp) as [Hr Hall].
  assert (Huniq : forall id e id' e', events s !! id = Some e -> events s !! id' = Some e' ->
    key_of e = k -> key_of e' = k -> e_AggregateVersion e = e_AggregateVersion e' -> id = id').
  { intros id e id' e' He He' Hk Hk' Hv.
    destruct (wf_event _ W _ _ He) as (_ & Hver & _).
    destruct (wf_event _ W _ _ He') as (_ & Hver' & _).
    assert (Hsame : event_version_key (e_TenantID e) e = event_version_key (e_TenantID e') e').
    { unfold key_of, event_key, aggregateKey in Hk, Hk'. rewrite <- Hk' in Hk.
      unfold event_version_key, versionKey. rewrite Hv.
      apply (f_equal (fun x => x +:+ nul +:+ pretty (e_AggregateVersion e'))) in Hk.
      by rewrite !append_assoc in Hk. }
    rewrite Hsame in Hver. congruence. }
  split_and!; [| |lia].
  - intros v Hv. destruct (Hall v Hv) as (e & He & Hk & Hve & _). exists (e_EventID e).
    split; [by exists e|]. intros id' (e' & He' & Hk' & Hv').
    by apply (Huniq _ e _ e'); [..|congruence].
  - intros id e He Hk. destruct (wf_event _ W _ _ He) as (Hid & _ & p' & Hp' & Hle).
    rewrite Hk, Hp in Hp'. injection Hp' as <-. split; [done|]. intros Hv.
    destruct (Hall (p_Version p)) as (e' & He' & Hk' & Hve' & Hst); [lia|].
    rewrite <- (Hst eq_refl) || rewrite <- Hst by done.
    assert (Heq : id = e_EventID e') by (apply (Huniq _ e _ e'); [..|congruence]; done).
    unfold stored in He'. rewrite <- Heq, He in He'. by injection He' as ->.
Qed.

(** *** Idempotency *)
Lemma step_commands s c s' k record :
  store_step s c = Some s' -> commands s !! k = Some record -> commands s' !! k = Some record.
Proof.
  unfold store_step. destruct (env_ok s c); [|discriminate]. intros [= <-] Hk.
  destruct c as [request|point|ctx t now limit lease|ctx t id n at_|ctx t id n at_]; cbn [apply].
  - destruct (Execute_cases request s) as [(r & -> & _)|(request' & Hp & Hn & Hc)]; [done|].
    apply prepared_request in Hp as (Ht & Hpr & Hi & _).
    assert (Hcm : commands (fst (commit request' s)) !! k = Some record).
    { destruct (commit_fields request' s) as (_ & _ & _ & _ & -> & _).
      rewrite Ht, Hpr, Hi. rewrite lookup_insert_ne; [done|congruence]. }
    cbv zeta in Hc. by destruct Hc as [(_ & ->)|[(_ & ->)|(_ & ->)]].
  - done.
  - destruct (ClaimOutbox _ _ _ _ _ s) as [[s' claims]|] eqn:Hc; [|done].
    by apply ClaimOutbox_eq in Hc as [-> _].
  - destruct (MarkOutboxPublished _ _ _ _ _ s) as [s'|] eqn:Hm; [|done].
    by apply mark_inv in Hm as (o & _ & _ & ->).
  - destruct (RetryOutbox _ _ _ _ _ s) as [s'|] eqn:Hm; [|done].
    by apply retry_inv in Hm as (o & _ & _ & ->).
Qed.

Lemma run_commands s cs s' k record :
  run store_step s cs s' -> commands s !! k = Some record -> commands s' !! k = Some record.
Proof. intros Hr. apply (run_preserves store_step (fun s => commands s !! k = Some record)
  (fun t c t' H Hs => step_commands t c t' k record Hs H) _ _ _ Hr). Qed.

Lemma with_failure_commands s f : commands (s ⟦ failure := f ⟧) = commands s.
Proof. done. Qed.

(** What a command left behind when it succeeded, or when its result was lost. *)
Lemma execute_records request s :
  let '(s', r) := Execute request s in
  (exists t, r = Ok t) \/ r = Err ErrCommitResultUnknown ->
  exists t0, commands s' !! commandKey (q_TenantID request) (q_PrincipalID request)
               (q_IdempotencyKey request) = Some (mkCommandRecord (q_RequestSHA256 request) t0) /\
    forall t, r = Ok t -> t_Result t = t_Result t0 /\ t_Events t = t_Events t0.
Proof.
  destruct (Execute_cases request s) as [(r & HE & Hd & Ht)|(request' & Hp & _ & Hc)].
  - rewrite HE. intros [[t ->]| ->]; [|by destruct Hd].
    destruct (Ht t eq_refl) as (t0 & Hk & ->).
    exists t0. split; [done|]. by intros t' <-%Ok_inj.
  - destruct (commit_fields request' s) as (_ & _ & _ & _ & Hcmd & _ & Hres).
    apply prepared_request in Hp as (Ht & Hpr & Hi & Hdg & _). rewrite Ht, Hpr, Hi, Hdg in Hcmd.
    cbv zeta in Hc. destruct Hc as [(_ & ->)|[(_ & ->)|(_ & ->)]].
    + by intros [[t [=]]|[=]].
    + intros _. eexists. split; [|by intros t [=]].
      rewrite with_failure_commands, Hcmd. apply lookup_insert_eq.
    + intros _. eexists. rewrite Hcmd, lookup_insert_eq. split; [done|].
      intros t <-%Ok_inj. by rewrite Hres.
Qed.

(** Commands are idempotent.  Once a command succeeded - or committed and
    its result was lost on the way back - then, whatever happened since, the
    same command is answered with its recorded result, marked duplicate, and a
    different request under its key is refused as an idempotency conflict;
    neither changes the store. *)
Theorem execute_idempotent request s s1 r cs s2 :
  Execute request s = (s1, r) -> (exists t, r = Ok t) \/ r = Err ErrCommitResultUnknown ->
  run store_step s1 cs s2 ->
  exists t0, (forall t, r = Ok t -> t_Result t = t_Result t0 /\ t_Events t = t_Events t0) /\
  forall again, q_TenantID again = q_TenantID request ->
    q_PrincipalID again = q_PrincipalID request ->
    q_IdempotencyKey again = q_IdempotencyKey request ->
    Execute again s2 =
      (s2, if q_RequestSHA256 again ≟ q_RequestSHA256 request
           then Ok (t0 ⟦ t_Duplicate := true ⟧)
           else Err (Coded (New CodeIdempotencyConflict "" ∅))).
Proof.
  intros HE Hr Hrun. pose proof (execute_records request s) as Hrec. rewrite HE in Hrec.
  destruct (Hrec Hr) as (t0 & Hk & Ht0). exists t0. split; [done|].
  intros again Ht Hp Hi. pose proof (run_commands _ _ _ _ _ Hrun Hk) as Hk2.
  unfold EventStore.Execute, lookupLocked. rewrite Ht, Hp, Hi, Hk2. cbn [r_RequestSHA256 r_Result].
  rewrite cloneResult_id. destruct (decide (q_RequestSHA256 again = q_RequestSHA256 request)) as [->|Hne].
  - by rewrite !bool_decide_eq_true_2.
  - by rewrite !bool_decide_eq_false_2 by congruence.
Qed.

(** *** Atomicity *)
(** The transaction is in the store, and was due: the aggregates moved from
    the expected versions, and nothing of it was there before. *)
Definition fully_committed (request : TransactionRequest) (s s' : MemoryStore) : Prop :=
  let T := q_TenantID request in
  (forall u, u ∈ q_Updates request ->
     current_version s (update_key T u) = u_ExpectedVersion u /\
     exists p, projections s' !! update_key T u = Some p /\
       p_Version p = wrap64 (u_ExpectedVersion u + 1) /\ p_State p = u_State u) /\
  (forall e, e ∈ q_Events request -> events s !! e_EventID e = None /\
     exists e', events s' !! e_EventID e = Some e' /\ without_replay e' = without_replay e /\
       is_Some (outbox s' !! outbox_id e)) /\
  (forall k, k ∉ map (update_key T) (q_Updates request) -> projections s' !! k = projections s !! k) /\
  (forall id, id ∉ map e_EventID (q_Events request) -> events s' !! id = events s !! id).

Lemma fully_committed_failure request s s' f :
  fully_committed request s s' -> fully_committed request s (s' ⟦ failure := f ⟧).
Proof. done. Qed.

Lemma commit_fully request s request' :
  prepare request s = Ok request' -> fully_committed request s (fst (commit request' s)).
Proof.
  intros Hp. apply prepared_request in Hp as (Ht & _ & _ & _ & Hu & _ & Hb & P).
  unfold fully_committed. rewrite <- Ht, <- Hu.
  destruct (commit_fields request' s) as (Hcp & Hce & _).
  split_and!.
  - intros u Hin. destruct (pr_update _ _ _ _ P u Hin) as (_ & _ & Hn & ->). split; [done|].
    eexists. rewrite (projection_committed _ _ P u Hin). by rewrite <- Hn.
  - intros e He. apply list_elem_of_lookup in He as [i Hi].
    destruct (Forall2_lookup_l _ _ _ _ _ Hb Hi) as (e' & Hi' & state & digest & _ & ->).
    apply list_elem_of_lookup_2 in Hi'. destruct (pr_event _ _ _ _ P _ Hi') as (_ & Hn & _).
    split; [exact Hn|]. eexists. split; [exact (event_committed _ _ P _ Hi')|].
    split; [done|]. exact (outbox_committed _ _ P _ Hi').
  - intros k Hk. rewrite Hcp. by rewrite foldl_insert_notin.
  - intros id Hid. rewrite Hce. apply (foldl_insert_notin e_EventID (fun e => e)).
    assert (Hids : map e_EventID (q_Events request') = map e_EventID (q_Events request)).
    { clear - Hb. induction Hb as [|e e' es es' (? & ? & _ & ->) _ IH]; [done|]. cbn. by rewrite IH. }
    by rewrite Hids.
Qed.

Lemma execute_outcome request s :
  let '(s', r) := Execute request s in
  match r with
  | Ok t => if t_Duplicate t then s' = s else fully_committed request s s'
  | Err ErrCommitResultUnknown => fully_committed request s s'
  | Err _ => same_contents s s'
  end.
Proof.
  assert (Hsame : same_contents s s) by (by destruct s).
  destruct (Execute_cases request s) as [(r & -> & Hd & Ht)|(request' & Hp & _ & Hc)].
  - destruct r as [t|[]]; try done. by rewrite (repeats_duplicate _ _ _ (Ht t eq_refl)).
  - pose proof (commit_fully request s request' Hp) as Hfull.
    destruct (commit_fields request' s) as (_ & _ & _ & _ & _ & Hf & Hres). cbv zeta in Hc.
    destruct Hc as [(Hf0 & ->)|[(Hf0 & ->)|(Hf0 & ->)]]; [done|exact Hfull|].
    by rewrite Hres.
Qed.

(** The records a transaction carries are new and stored as given. *)
Lemma validate_approvals_spec T l : forall seen seen',
  validate_approvals T seen l = Ok seen' ->
  NoDup (map a_ID l) /\ (forall a, a ∈ seen -> a ∉ map a_ID l) /\ forall a, a ∈ l -> a_TenantID a = T.
Proof.
  induction l as [|a l IH]; intros seen seen' H; cbn in H.
  { split_and!; [constructor|set_solver|by intros a Ha%not_elem_of_nil]. }
  destruct (_ || _) eqn:G in H; [discriminate|]. match type of H with (if ?c then _ else _) = _ => destruct c; [discriminate|] end.
  destruct (negb _) in H; [discriminate|]. apply IH in H as (Hnd & Hf & HT). go_bool. cbn. split_and!.
  - constructor; [|done]. apply Hf. set_solver.
  - intros x Hx [->|Hin]%elem_of_cons; [done|]. apply (Hf x); set_solver.
  - intros b [->|Hb]%elem_of_cons; auto.
Qed.

Lemma validate_decisions_spec T P approved l : forall seen,
  validate_decisions T P approved seen l = Ok tt ->
  NoDup (map d_ID l) /\ (forall d, d ∈ seen -> d ∉ map d_ID l) /\
  forall d, d ∈ l -> d_TenantID d = T /\ d_PrincipalID d = P.
Proof.
  induction l as [|d l IH]; intros seen H; cbn in H.
  { split_and!; [constructor|set_solver|by intros a Ha%not_elem_of_nil]. }
  destruct (_ || _) eqn:G in H; [discriminate|]. destruct (negb _) in H; [discriminate|].
  apply IH in H as (Hnd & Hf & HT). go_bool. cbn. split_and!.
  - constructor; [|done]. apply Hf. set_solver.
  - intros x Hx [->|Hin]%elem_of_cons; [done|]. apply (Hf x); set_solver.
  - intros b [->|Hb]%elem_of_cons; auto.
Qed.

Lemma prepared_records request s request' :
  prepare request s = Ok request' ->
  q_Approvals request' = q_Approvals request /\ q_UserDecisions request' = q_UserDecisions request /\
  NoDup (map a_ID (q_Approvals request)) /\ NoDup (map d_ID (q_UserDecisions request)) /\
  (forall a, a ∈ q_Approvals request -> approvals s !! a_ID a = None) /\
  (forall d, d ∈ q_UserDecisions request -> decisions s !! d_ID d = None).
Proof.
  unfold EventStore.prepare. intros H. apply rbind_ok in H as ([] & Hv & H).
  apply rbind_ok in H as (es & _ & H). cbn in H.
  apply rbind_ok in H as (_ & _ & H). apply rbind_ok in H as (_ & _ & H).
  apply rbind_ok in H as ([] & Ha & H). apply rbind_ok in H as ([] & Hd & H). injection H as <-.
  unfold EventStore.validateTransaction in Hv. destruct (_ || _) in Hv; [discriminate|].
  apply rbind_ok in Hv as (m & _ & Hv). apply rbind_ok in Hv as (sa & _ & Hv).
  do 3 (destruct (negb _) in Hv; [discriminate|]). apply rbind_ok in Hv as (_ & _ & Hv).
  apply rbind_ok in Hv as (seen & Hva & Hvd). cbn.
  apply validate_approvals_spec in Hva as (Hna & _). apply validate_decisions_spec in Hvd as (Hnd & _).
  split_and!; try done.
  - intros a Hin. unfold check_approvals in Ha. destruct (existsb _ _) eqn:E in Ha; [discriminate|].
    destruct (approvals s !! a_ID a) eqn:Hl; [|done]. exfalso. apply not_false_iff_true in E; [done|].
    apply existsb_exists. exists a. split; [by apply list_elem_of_In|]. by rewrite Hl.
  - intros d Hin. unfold check_decisions in Hd. destruct (existsb _ _) eqn:E in Hd; [discriminate|].
    destruct (decisions s !! d_ID d) eqn:Hl; [|done]. exfalso. apply not_false_iff_true in E; [done|].
    apply existsb_exists. exists d. split; [by apply list_elem_of_In|]. by rewrite Hl.
Qed.

Lemma commit_records request s :
  approvals (fst (commit request s)) =
    foldl (fun m a => <[a_ID a := cloneApproval a]> m) (approvals s) (q_Approvals request) /\
  decisions (fst (commit request s)) =
    foldl (fun m d => <[d_ID d := d]> m) (decisions s) (q_UserDecisions request).
Proof.
  unfold commit. cbn.
  pose proof (commit_updates_spec (q_TenantID request) (q_Updates request) s) as H1.
  pose proof (commit_events_spec (q_TenantID request) (q_Events request)
    (foldl (commit_update (q_TenantID request)) s (q_Updates request))) as H2. cbv zeta in H1, H2.
  destruct H1 as (_ & _ & _ & _ & Ha & Hd & _). destruct H2 as (_ & _ & Ha2 & Hd2 & _).
  by rewrite Ha2, Hd2, Ha, Hd.
Qed.

(** The whole transaction is in the store, and was due: [fully_committed], each
    event once under its version and in the outbox, due at once; each approval
    and decision record new and as given; and the record of the command, with
    the result that is answered.  Nothing else of the store changed. *)
Record stored_whole (request : TransactionRequest) (s s' : MemoryStore) (t : TransactionResult) : Prop := {
  sw_contents : fully_committed request s s';
  sw_events : Forall2 (fun e e' => without_replay e' = without_replay e /\ events s' !! e_EventID e = Some e' /\
    versions s' !! event_version_key (q_TenantID request) e = Some (e_EventID e) /\
    outbox s' !! outbox_id e = Some (mkOutboxRecord (outbox_id e) e' None 0 (e_OccurredAt e)))
    (q_Events request) (t_Events t);
  sw_other_events : forall k,
    (k ∉ map (event_version_key (q_TenantID request)) (q_Events request) -> versions s' !! k = versions s !! k) /\
    (k ∉ map outbox_id (q_Events request) -> outbox s' !! k = outbox s !! k);
  sw_approvals : forall a, a ∈ q_Approvals request ->
    approvals s !! a_ID a = None /\ approvals s' !! a_ID a = Some a;
  sw_decisions : forall d, d ∈ q_UserDecisions request ->
    decisions s !! d_ID d = None /\ decisions s' !! d_ID d = Some d;
  sw_other_records : forall k,
    (k ∉ map a_ID (q_Approvals request) -> approvals s' !! k = approvals s !! k) /\
    (k ∉ map d_ID (q_UserDecisions request) -> decisions s' !! k = decisions s !! k);
  sw_command : let k := commandKey (q_TenantID request) (q_PrincipalID request) (q_IdempotencyKey request) in
    commands s !! k = None /\
    commands s' = <[k := mkCommandRecord (q_RequestSHA256 request) t]> (commands s);
  sw_result : t_Result t = q_Result request /\ t_Duplicate t = false
}.

Lemma cloneApproval_id a : cloneApproval a = a.
Proof. destruct a as [? ? ? ? ? ? ? ? ? ? ? [] [] ?]; done. Qed.

Lemma commit_whole request s request' :
  prepare request s = Ok request' ->
  commands s !! commandKey (q_TenantID request) (q_PrincipalID request) (q_IdempotencyKey request) = None ->
  stored_whole request s (fst (commit request' s)) (snd (commit request' s)).
Proof.
  intros Hp Hnew. pose proof (commit_fully request s request' Hp) as Hfull.
  destruct (prepared_records request s request' Hp) as (Ha & Hd & Hna & Hnd & Hfa & Hfd).
  destruct (commit_records request' s) as [Hca Hcd]. rewrite Ha in Hca. rewrite Hd in Hcd.
  apply prepared_request in Hp as (Ht & Hpr & Hk & Hdg & Hu & Hres & Hb & P).
  destruct (commit_fields request' s) as (_ & Hce & Hcv & Hco & Hcc & _ & Hans).
  assert (Hsame : Forall2 (fun e e' => without_replay e' = without_replay e /\ e_EventID e' = e_EventID e /\
    event_version_key (q_TenantID request') e' = event_version_key (q_TenantID request') e /\
    e_OccurredAt e' = e_OccurredAt e) (q_Events request) (q_Events request')).
  { eapply Forall2_impl; [exact Hb|]. intros e e' (st & dg & _ & ->). done. }
  assert (Hmaps : map (event_version_key (q_TenantID request')) (q_Events request') =
      map (event_version_key (q_TenantID request')) (q_Events request) /\
    map outbox_id (q_Events request') = map outbox_id (q_Events request)).
  { clear -Hsame. induction Hsame as [|e e' l l' (_ & Hi & Hv & _) _ [IH1 IH2]]; [done|].
    cbn. unfold outbox_id at 1 3. by rewrite Hi, Hv, IH1, IH2. }
  destruct Hmaps as [Hmv Hmo]. rewrite Hans. split; cbn [t_Events t_Result t_Duplicate].
  - done.
  - apply Forall2_same_length_lookup_2; [by eapply Forall2_length|]. intros i e e' Hi Hi'.
    destruct (Forall2_lookup_lr _ _ _ _ _ _ Hsame Hi Hi') as (Hw & Hid & Hv & Ho).
    apply list_elem_of_lookup_2 in Hi'. split; [done|].
    pose proof (event_committed _ _ P _ Hi') as H1.
    assert (H2 : versions (fst (commit request' s)) !! event_version_key (q_TenantID request') e' = Some (e_EventID e')).
    { rewrite Hcv. apply (foldl_insert_in (event_version_key (q_TenantID request')) e_EventID); [|done].
      apply version_keys_NoDup, (pr_event_keys _ _ _ _ P). }
    assert (H3 : outbox (fst (commit request' s)) !! outbox_id e' =
      Some (mkOutboxRecord (outbox_id e') e' None 0 (e_OccurredAt e'))).
    { rewrite Hco. apply (foldl_insert_in outbox_id (fun e => mkOutboxRecord (outbox_id e) e None 0 (e_OccurredAt e)));
        [|done]. apply outbox_ids_NoDup, (pr_event_ids _ _ _ _ P). }
    unfold outbox_id in *. rewrite Hid in *. rewrite Hv, Ht in H2. by rewrite Ho in H3.
  - intros k. rewrite <- Ht, <- Hmv, <- Hmo, Hcv, Hco. split; intros Hni; by apply foldl_insert_notin.
  - intros a Hin. split; [by apply Hfa|]. rewrite Hca.
    rewrite (foldl_insert_in a_ID cloneApproval); [by rewrite cloneApproval_id|done..].
  - intros d Hin. split; [by apply Hfd|]. rewrite Hcd. by apply (foldl_insert_in d_ID (fun d => d)).
  - intros k. rewrite Hca, Hcd. split; intros Hni; by apply foldl_insert_notin.
  - cbv zeta. split; [done|]. by rewrite Hcc, Ht, Hpr, Hk, Hdg.
  - done.
Qed.

(** C4: a transaction is all or nothing.  [Execute] either reports a new
    success or an unknown commit result, and then the whole transaction is in
    the store - projections on top of the expected versions, events, outbox,
    approvals, decisions and the record of the command with the result - and
    nothing else is touched; or it reports a repeat, and answers what the record
    of the same request holds, or any other error, and then nothing in the
    store has changed (but for the injected failure it consumed). *)
Theorem execute_atomic request s :
  let '(s', r) := Execute request s in
  match r with
  | Ok t => if t_Duplicate t then s' = s /\ repeats request s t else stored_whole request s s' t
  | Err ErrCommitResultUnknown => exists t, stored_whole request s s' t
  | Err _ => same_contents s s'
  end.
Proof.
  assert (Hsame : same_contents s s) by (by destruct s).
  destruct (Execute_cases request s) as [(r & -> & Hd & Ht)|(request' & Hp & Hnew & Hc)].
  - destruct r as [t|[]]; try done. rewrite (repeats_duplicate _ _ _ (Ht t eq_refl)). auto.
  - pose proof (commit_whole request s request' Hp Hnew) as Hfull.
    destruct (commit_fields request' s) as (_ & _ & _ & _ & _ & Hf & Hres). cbv zeta in Hc.
    destruct Hc as [(Hf0 & ->)|[(Hf0 & ->)|(Hf0 & ->)]]; [done| |by rewrite Hres in *].
    eexists. destruct Hfull. by split.
Qed.

(** *** The outbox, record by record *)
(** The life of one record: while it is unpublished it is claimed, put off or
    published; then it is final. *)
Inductive record_step : OutboxRecord -> OutboxRecord -> Prop :=
| record_claimed now lease o :
    o_PublishedAt o = None -> 0 <= o_Attempts o < two63 - 1 ->
    After (o_NextAttempt o) now = false -> record_step o (claim now lease o)
| record_published at_ o :
    o_PublishedAt o = None -> 0 < o_Attempts o ->
    record_step o (o ⟦ o_PublishedAt := Some at_ ⟧)
| record_retried at_ o :
    o_PublishedAt o = None -> 0 < o_Attempts o ->
    record_step o (o ⟦ o_NextAttempt := at_ ⟧).

Definition record_stays_or_steps (o o' : OutboxRecord) : Prop := o' = o \/ record_step o o'.

Lemma holds_claim_spec t n o :
  holds_claim t n o = true -> o_PublishedAt o = None /\ o_Attempts o = n.
Proof.
  unfold holds_claim. intros H. go_bool. split; [|done]. by destruct (o_PublishedAt o).
Qed.

Lemma claimable_unpublished t now o :
  claimable t now o = true -> o_PublishedAt o = None /\ After (o_NextAttempt o) now = false.
Proof.
  unfold claimable. intros H. go_bool. split; [|done]. by destruct (o_PublishedAt o).
Qed.

Lemma mark_positive ctx t id n at_ s s' : MarkOutboxPublished ctx t id n at_ s = Ok s' -> 0 < n.
Proof.
  unfold MarkOutboxPublished. destruct ctx; [discriminate|]. intros H.
  destruct (_ || _) eqn:G in H; [discriminate|]. go_bool. lia.
Qed.

Lemma retry_positive ctx t id n at_ s s' : RetryOutbox ctx t id n at_ s = Ok s' -> 0 < n.
Proof.
  unfold RetryOutbox. destruct ctx; [discriminate|]. intros H.
  destruct (_ || _) eqn:G in H; [discriminate|]. go_bool. lia.
Qed.

(** One record changed by an outbox method, seen from any record. *)
Lemma one_record s id o o' id0 o0 :
  outbox s !! id = Some o -> (record_step o o') -> outbox s !! id0 = Some o0 ->
  exists o1, (<[id := o']> (outbox s)) !! id0 = Some o1 /\ record_stays_or_steps o0 o1.
Proof.
  intros Ho Hs H0. destruct (decide (id = id0)) as [->|Hne].
  - rewrite lookup_insert_eq. exists o'. split; [done|]. rewrite Ho in H0. injection H0 as ->.
    by right.
  - rewrite lookup_insert_ne by done. exists o0. split; [done|]. by left.
Qed.

Lemma execute_record request s id o :
  wf s -> outbox s !! id = Some o -> outbox (fst (Execute request s)) !! id = Some o.
Proof.
  intros W Ho. destruct (Execute_cases request s) as [(r & -> & _)|(request' & Hp & _ & Hc)]; [done|].
  apply prepared_request in Hp as (_ & _ & _ & _ & _ & _ & _ & P).
  pose proof (outbox_kept request' s P id o W Ho) as Hk.
  cbv zeta in Hc. destruct Hc as [(_ & ->)|[(_ & ->)|(_ & ->)]]; [exact Ho|exact Hk|exact Hk].
Qed.

Lemma step_record s c s' id o :
  wf s -> store_step s c = Some s' -> outbox s !! id = Some o ->
  exists o', outbox s' !! id = Some o' /\ record_stays_or_steps o o'.
Proof.
  intros W. unfold store_step. destruct (env_ok s c) eqn:He; [|discriminate]. intros [= <-] Ho.
  destruct c as [request|point|ctx t now limit lease|ctx t id' n at_|ctx t id' n at_]; cbn [apply].
  - exists o. split; [by apply execute_record|]. by left.
  - exists o. split; [done|]. by left.
  - destruct (ClaimOutbox _ _ _ _ _ s) as [[s' claims]|] eqn:Hc; [|exists o; split; [done|by left]].
    rewrite (claim_lookup _ _ _ _ _ _ _ _ _ _ W Hc Ho). eexists. split; [done|].
    case_decide as Hr; [|by left]. right.
    destruct (ready_spec t now limit s W) as [_ Hin]. destruct (Hin o Hr) as [_ Hcl].
    apply claimable_unpublished in Hcl as [Hp Ha].
    destruct (wf_outbox _ W _ _ Ho) as (_ & _ & _ & H0).
    cbn in He. rewrite forallb_forall in He.
    assert (Hb : o ∈ values (outbox s)).
    { unfold values. apply list_elem_of_In, in_map_iff. exists (id, o).
      split; [done|]. by apply list_elem_of_In, elem_of_map_to_list. }
    apply list_elem_of_In, He in Hb. go_bool. by apply record_claimed.
  - destruct (MarkOutboxPublished _ _ _ _ _ s) as [s'|] eqn:Hm;
      [|exists o; split; [done|by left]].
    pose proof (mark_positive _ _ _ _ _ _ _ Hm) as Hn. apply mark_inv in Hm as (x & Hx & Hh & ->).
    apply holds_claim_spec in Hh as [Hp Ha].
    apply (one_record s id' x); [done| |done]. apply record_published; [done|lia].
  - destruct (RetryOutbox _ _ _ _ _ s) as [s'|] eqn:Hm;
      [|exists o; split; [done|by left]].
    pose proof (retry_positive _ _ _ _ _ _ _ Hm) as Hn. apply retry_inv in Hm as (x & Hx & Hh & ->).
    apply holds_claim_spec in Hh as [Hp Ha].
    apply (one_record s id' x); [done| |done]. apply record_retried; [done|lia].
Qed.

Lemma run_record s cs s' id o :
  wf s -> run store_step s cs s' -> outbox s !! id = Some o ->
  exists o', outbox s' !! id = Some o' /\ rtc record_step o o'.
Proof.
  intros W Hr. induction Hr as [s|s cs s1 c s2 Hr IH Hs]; intros Ho.
  - exists o. split; [done|apply rtc_refl].
  - destruct (IH W Ho) as (o1 & Ho1 & H1).
    assert (W1 : wf s1) by exact (run_preserves store_step wf store_step_wf _ _ _ Hr W).
    destruct (step_record _ _ _ _ _ W1 Hs Ho1) as (o2 & Ho2 & H2). exists o2. split; [done|].
    destruct H2 as [->|H2]; [done|by eapply rtc_r].
Qed.

Lemma rtc_attempts o o' : rtc record_step o o' -> o_Attempts o <= o_Attempts o'.
Proof.
  induction 1 as [|o o1 o2 Hs _ IH]; [done|]. destruct Hs as [now lease o Hp Hr _|at_ o Hp Ha|at_ o Hp Ha]; cbn in *;
    [|done|done]. rewrite wrap64_id in IH by (unfold in_int64, two63 in *; lia). lia.
Qed.

Lemma rtc_published o o' :
  rtc record_step o o' -> o_PublishedAt o <> None -> o' = o.
Proof. intros Hr Hp. destruct Hr as [|o o1 o2 Hs _]; [done|]. by destruct Hs. Qed.

Lemma rtc_event o o' : rtc record_step o o' -> o_Event o' = o_Event o.
Proof. induction 1 as [|o o1 o2 Hs _ ->]; [done|]. by destruct Hs. Qed.

(** The record [commit] writes for an event. *)
Definition fresh (e : DomainEvent) : OutboxRecord :=
  mkOutboxRecord (outbox_id e) e None 0 (e_OccurredAt e).

Lemma step_origin s c s' id o' :
  wf s -> store_step s c = Some s' -> outbox s' !! id = Some o' ->
  is_Some (outbox s !! id) \/ o' = fresh (o_Event o').
Proof.
  assert (Hone : forall (m : gmap string OutboxRecord) k x y, m !! k = Some x ->
    <[k := y]> m !! id = Some o' -> is_Some (m !! id)).
  { intros m k x y Hx Hl. apply lookup_insert_Some in Hl as [[<- _]|[_ Hl]]; eauto. }
  intros W. unfold store_step. destruct (env_ok s c) eqn:He; [|discriminate]. intros [= <-] Ho.
  destruct c as [request|point|ctx t now limit lease|ctx t id' n at_|ctx t id' n at_]; cbn [apply] in Ho.
  - destruct (Execute_cases request s) as [(r & HE & _)|(request' & Hp & _ & Hc)];
      [rewrite HE in Ho; left; eauto|].
    apply prepared_request in Hp as (_ & _ & _ & _ & _ & _ & _ & P).
    assert (Hnew : outbox (fst (commit request' s)) !! id = Some o' ->
      is_Some (outbox s !! id) \/ o' = fresh (o_Event o')).
    { intros H. apply (outbox_origin request' s P) in H as [(e & _ & -> & ->)|H];
        [by right|left; eauto]. }
    cbv zeta in Hc. destruct Hc as [(_ & HE)|[(_ & HE)|(_ & HE)]]; rewrite HE in Ho;
      [left; eauto|exact (Hnew Ho)|exact (Hnew Ho)].
  - left. eauto.
  - destruct (ClaimOutbox _ _ _ _ _ s) as [[s' claims]|] eqn:Hc; [|left; eauto].
    left. by eapply claim_back.
  - destruct (MarkOutboxPublished _ _ _ _ _ s) as [s'|] eqn:Hm; [|left; eauto].
    apply mark_inv in Hm as (x & Hx & _ & ->). left.
    exact (Hone _ _ _ _ Hx Ho).
  - destruct (RetryOutbox _ _ _ _ _ s) as [s'|] eqn:Hm; [|left; eauto].
    apply retry_inv in Hm as (x & Hx & _ & ->). left.
    exact (Hone _ _ _ _ Hx Ho).
Qed.

Lemma run_fresh cs s id o :
  run store_step NewMemoryStore cs s -> outbox s !! id = Some o ->
  rtc record_step (fresh (o_Event o)) o.
Proof.
  intros Hr. remember NewMemoryStore as s0 eqn:H0.
  revert o. induction Hr as [t|t cs s1 c s2 Hr IH Hs]; intros o Ho; subst t.
  { cbn in Ho. by rewrite lookup_empty in Ho. }
  pose proof (store_run_wf _ _ Hr) as W.
  destruct (step_origin _ _ _ _ _ W Hs Ho) as [[o1 Ho1]| ->]; [|by apply rtc_refl].
  destruct (step_record _ _ _ _ _ W Hs Ho1) as (o2 & Ho2 & H2). rewrite Ho in Ho2.
  injection Ho2 as <-. pose proof (IH eq_refl o1 Ho1) as H1.
  destruct H2 as [->|H2]; [done|].
  assert (He : o_Event o = o_Event o1) by (apply rtc_event, rtc_once, H2).
  rewrite He. by eapply rtc_r.
Qed.

(** C22: the outbox refines the life of its records.  In every reachable store
    each committed event has its record, each record belongs to a committed
    event and came from the fresh record its transaction wrote by claims,
    retries and one publication at most, and every later store has it further
    along that life. *)
Theorem outbox_refines_records cs s :
  run store_step NewMemoryStore cs s ->
  (forall e, stored s e -> exists o, outbox s !! outbox_id e = Some o /\ o_Event o = e) /\
  (forall id o, outbox s !! id = Some o -> id = outbox_id (o_Event o) /\ stored s (o_Event o) /\
     rtc record_step (fresh (o_Event o)) o) /\
  forall cs' s', run store_step s cs' s' -> forall id o, outbox s !! id = Some o ->
    exists o', outbox s' !! id = Some o' /\ rtc record_step o o'.
Proof.
  intros Hr. pose proof (store_run_wf _ _ Hr) as W. split_and!.
  - intros e He. destruct (wf_dispatched _ W e He) as [o Ho]. exists o. split; [done|].
    destruct (wf_outbox _ W _ _ Ho) as (_ & Hid & Hst & _). apply outbox_id_inj in Hid.
    unfold stored in *. congruence.
  - intros id o Ho. destruct (wf_outbox _ W _ _ Ho) as (_ & Hid & Hst & _).
    split_and!; [done|done|]. exact (run_fresh _ _ _ _ Hr Ho).
  - intros cs' s' Hr' id o. exact (run_record _ _ _ _ _ W Hr').
Qed.

(** An event is published once.  A record marked published is final: in
    every later store it is the same, no claim hands it out, and it cannot be
    marked or put off again. *)
Theorem outbox_published_once cs s cs' s' id o :
  run store_step NewMemoryStore cs s -> outbox s !! id = Some o -> o_PublishedAt o <> None ->
  run store_step s cs' s' ->
  outbox s' !! id = Some o /\
  (forall ctx t n at_ s'', MarkOutboxPublished ctx t id n at_ s' <> Ok s'' /\
     RetryOutbox ctx t id n at_ s' <> Ok s'') /\
  (forall ctx t now limit lease s'' claims, ClaimOutbox ctx t now limit lease s' = Ok (s'', claims) ->
     forall c, c ∈ claims -> o_ID (fst c) <> id).
Proof.
  intros Hr Ho Hp Hr'. pose proof (store_run_wf _ _ Hr) as W.
  destruct (run_record _ _ _ _ _ W Hr' Ho) as (o' & Ho' & H'). apply rtc_published in H' as ->; [|done].
  assert (W' : wf s') by exact (run_preserves store_step wf store_step_wf _ _ _ Hr' W).
  split_and!; [done| |].
  - intros ctx t n at_ s''. split; intros H; [apply mark_inv in H|apply retry_inv in H];
      destruct H as (x & Hx & [Hn _]%holds_claim_spec & _); congruence.
  - intros ctx t now limit lease s'' claims [_ ->]%ClaimOutbox_eq c Hc Hid.
    apply list_elem_of_In, in_map_iff in Hc as (x & <- & Hx%list_elem_of_In).
    destruct (ready_spec t now limit s' W') as [_ Hin].
    destruct (Hin x Hx) as [Hx' [Hn _]%claimable_unpublished]. cbn in Hid. congruence.
Qed.

(** A record handed out by a claim, before and after. *)
Lemma claimed_record ctx t now limit lease s s' claims c :
  wf s -> ClaimOutbox ctx t now limit lease s = Ok (s', claims) -> c ∈ claims ->
  exists o, outbox s !! o_ID (fst c) = Some o /\ claimable t now o = true /\
    o_Event (fst c) = without_replay (o_Event o) /\
    snd c = wrap64 (o_Attempts o + 1) /\
    outbox s' !! o_ID (fst c) = Some (claim now lease o).
Proof.
  intros W Hc Hin. pose proof (ClaimOutbox_eq _ _ _ _ _ _ _ _ Hc) as [_ ->].
  apply list_elem_of_In, in_map_iff in Hin as (o & <- & Hr%list_elem_of_In).
  destruct (ready_spec t now limit s W) as [_ Hin]. destruct (Hin o Hr) as [Ho Hcl].
  exists o. split_and!; try done. cbn. rewrite (claim_lookup _ _ _ _ _ _ _ _ _ _ W Hc Ho).
  by rewrite decide_True.
Qed.

Lemma claim_step ctx t now limit lease s s' claims :
  env_ok s (CmdClaimOutbox ctx t now limit lease) = true ->
  ClaimOutbox ctx t now limit lease s = Ok (s', claims) ->
  store_step s (CmdClaimOutbox ctx t now limit lease) = Some s'.
Proof. intros He Hc. unfold store_step. rewrite He. cbn [apply]. by rewrite Hc. Qed.

Lemma attempts_bounded ctx t now limit lease s id o :
  env_ok s (CmdClaimOutbox ctx t now limit lease) = true -> outbox s !! id = Some o ->
  o_Attempts o < two63 - 1.
Proof.
  cbn. rewrite forallb_forall. intros He Ho.
  assert (Hb : o ∈ values (outbox s)).
  { unfold values. apply list_elem_of_In, in_map_iff. exists (id, o).
    split; [done|]. by apply list_elem_of_In, elem_of_map_to_list. }
  apply list_elem_of_In, He in Hb. go_bool. lia.
Qed.

Lemma claimed_attempts ctx t now limit lease s s' claims c :
  wf s -> env_ok s (CmdClaimOutbox ctx t now limit lease) = true ->
  ClaimOutbox ctx t now limit lease s = Ok (s', claims) -> c ∈ claims ->
  exists o, outbox s !! o_ID (fst c) = Some o /\ snd c = o_Attempts o + 1 /\
    exists o', outbox s' !! o_ID (fst c) = Some o' /\ o_Attempts o' = snd c.
Proof.
  intros W He Hc Hin.
  destruct (claimed_record _ _ _ _ _ _ _ _ _ W Hc Hin) as (o & Ho & _ & _ & Hn & Ho').
  pose proof (attempts_bounded _ _ _ _ _ _ _ _ He Ho).
  destruct (wf_outbox _ W _ _ Ho) as (_ & _ & _ & H0).
  rewrite Hn, wrap64_id by (unfold in_int64, two63 in *; lia). exists o. split_and!; [done|done|].
  eexists. split; [exact Ho'|]. cbn. by rewrite wrap64_id by (unfold in_int64, two63 in *; lia).
Qed.

(** Claims fence their predecessors.  When a record is claimed again, the
    new claim carries a larger attempt number, and from then on nobody can
    mark or put off the record under the older number. *)
Theorem outbox_fenced cs s c1 s1 claims1 cs' s' c2 s2 claims2 cs'' s''
    ctx1 t1 now1 limit1 lease1 ctx2 t2 now2 limit2 lease2 :
  run store_step NewMemoryStore cs s ->
  env_ok s (CmdClaimOutbox ctx1 t1 now1 limit1 lease1) = true ->
  ClaimOutbox ctx1 t1 now1 limit1 lease1 s = Ok (s1, claims1) -> c1 ∈ claims1 ->
  run store_step s1 cs' s' ->
  env_ok s' (CmdClaimOutbox ctx2 t2 now2 limit2 lease2) = true ->
  ClaimOutbox ctx2 t2 now2 limit2 lease2 s' = Ok (s2, claims2) -> c2 ∈ claims2 ->
  o_ID (fst c2) = o_ID (fst c1) -> run store_step s2 cs'' s'' ->
  snd c1 < snd c2 /\
  forall ctx t at_ s3, MarkOutboxPublished ctx t (o_ID (fst c1)) (snd c1) at_ s'' <> Ok s3 /\
    RetryOutbox ctx t (o_ID (fst c1)) (snd c1) at_ s'' <> Ok s3.
Proof.
  intros Hr He1 Hc1 Hin1 Hr' He2 Hc2 Hin2 Hid Hr''. pose proof (store_run_wf _ _ Hr) as W.
  pose proof (store_step_wf _ _ _ W (claim_step _ _ _ _ _ _ _ _ He1 Hc1)) as W1.
  assert (W' : wf s') by exact (run_preserves store_step wf store_step_wf _ _ _ Hr' W1).
  pose proof (store_step_wf _ _ _ W' (claim_step _ _ _ _ _ _ _ _ He2 Hc2)) as W2.
  destruct (claimed_attempts _ _ _ _ _ _ _ _ _ W He1 Hc1 Hin1) as (o & Ho & Hn1 & o1 & Ho1 & Ha1).
  destruct (claimed_attempts _ _ _ _ _ _ _ _ _ W' He2 Hc2 Hin2) as (o' & Ho' & Hn2 & o2 & Ho2 & Ha2).
  rewrite Hid in *.
  destruct (run_record _ _ _ _ _ W1 Hr' Ho1) as (x & Hx & Hle%rtc_attempts).
  assert (x = o') as -> by congruence.
  destruct (run_record _ _ _ _ _ W2 Hr'' Ho2) as (y & Hy & Hle'%rtc_attempts).
  split; [lia|]. intros ctx t at_ s3.
  split; intros H; [apply mark_inv in H|apply retry_inv in H];
    destruct H as (z & Hz & [_ Hn]%holds_claim_spec & _); rewrite Hy in Hz; injection Hz as <-; lia.
Qed.

Lemma ready_all tenantID now limit s o :
  wf s -> Z.of_nat (size (outbox s)) <= limit -> outbox s !! o_ID o = Some o ->
  claimable tenantID now o = true -> o ∈ ready tenantID now limit s.
Proof.
  intros W Hlim Ho Hc. unfold ready. rewrite map_clone. set (l := sort_slice _ _).
  assert (Hp : l ≡ₚ List.filter (claimable tenantID now) (values (outbox s)))
    by apply sort_slice_Permutation.
  destruct (claimable_spec tenantID now s l W Hp) as [_ Hin].
  assert (Hlen : (length l <= size (outbox s))%nat).
  { rewrite Hp. etransitivity; [apply List.filter_length_le|].
    unfold values. by rewrite length_map, length_map_to_list. }
  rewrite (proj2 (Z.ltb_ge _ _)) by lia. by apply Hin.
Qed.

(** Every committed event can be delivered.  As long as an event of a
    reachable store is unpublished, a claim that is due, large enough and made
    by the event's tenant hands it out (without its internal replay state), and
    the attempt number handed out publishes it. *)
Theorem outbox_delivers cs s e now limit lease at_ :
  run store_step NewMemoryStore cs s ->
  env_ok s (CmdClaimOutbox None (e_TenantID e) now limit lease) = true ->
  stored s e ->
  (forall o, outbox s !! outbox_id e = Some o ->
     o_PublishedAt o = None /\ After (o_NextAttempt o) now = false) ->
  e_TenantID e <> "" -> IsZero now = false -> 0 < limit -> Z.of_nat (size (outbox s)) <= limit ->
  0 < lease -> IsZero at_ = false ->
  exists s1 claims c s2, ClaimOutbox None (e_TenantID e) now limit lease s = Ok (s1, claims) /\
    c ∈ claims /\ o_Event (fst c) = without_replay e /\
    MarkOutboxPublished None (e_TenantID e) (o_ID (fst c)) (snd c) at_ s1 = Ok s2 /\
    exists o, outbox s2 !! outbox_id e = Some o /\ o_Event o = e /\ o_PublishedAt o = Some at_.
Proof.
  intros Hr Henv He Hdue HT Hnow Hl Hlim Hlease Hat. pose proof (store_run_wf _ _ Hr) as W.
  destruct (wf_dispatched _ W e He) as [o Ho]. destruct (Hdue o Ho) as [Hp Ha].
  destruct (wf_outbox _ W _ _ Ho) as (Hid & Hid' & Hst & H0).
  assert (o_Event o = e) as Hev.
  { apply outbox_id_inj in Hid'. unfold stored in *. congruence. }
  assert (Hc : claimable (e_TenantID e) now o = true).
  { unfold claimable. by rewrite Hev, bool_decide_eq_true_2, Hp, Ha. }
  assert (Hready : o ∈ ready (e_TenantID e) now limit s).
  { apply ready_all; [done|done|by rewrite <- Hid|done]. }
  destruct (ClaimOutbox None (e_TenantID e) now limit lease s) as [[s1 claims]|err] eqn:HC.
  2:{ unfold ClaimOutbox in HC. rewrite (proj2 (Z.leb_gt limit 0)), (proj2 (Z.leb_gt lease 0)), Hnow,
      bool_decide_eq_false_2 in HC by done. discriminate. }
  pose proof (ClaimOutbox_eq _ _ _ _ _ _ _ _ HC) as [_ Hcl].
  pose proof (claim_lookup _ _ _ _ _ _ _ _ _ _ W HC Ho) as Ho1. rewrite decide_True in Ho1 by done.
  pose proof (attempts_bounded _ _ _ _ _ _ _ _ Henv Ho) as Hb.
  set (c := ((claim now lease o) ⟦ o_Event := without_replay (o_Event o) ⟧, wrap64 (o_Attempts o + 1))).
  assert (Hn : snd c = o_Attempts o + 1) by (apply wrap64_id; unfold in_int64, two63 in *; lia).
  exists s1, claims, c. unfold MarkOutboxPublished.
  assert (o_ID (fst c) = outbox_id e) as -> by (symmetry; exact Hid).
  rewrite (bool_decide_eq_false_2 (e_TenantID e = "")), (bool_decide_eq_false_2 (outbox_id e = "")),
    (proj2 (Z.leb_gt (snd c) 0)), Hat, Ho1 by (done || lia). cbn [orb].
  assert (Hh : holds_claim (e_TenantID e) (snd c) (claim now lease o) = true).
  { unfold holds_claim. cbn. by rewrite Hev, bool_decide_eq_true_2, Hp, Z.eqb_refl. }
  rewrite Hh. cbn [negb]. eexists. split_and!; [done| |by cbn; rewrite Hev|done|].
  - rewrite Hcl. apply list_elem_of_In, in_map_iff. exists o. split; [done|].
    by apply list_elem_of_In.
  - cbn [outbox]. rewrite cloneOutboxRecord_id. eexists. split; [apply lookup_insert_eq|].
    split; [exact Hev|done].
Qed.

End Store.

(** ** A small history for the concrete instances *)
Definition demo_jcs (input : string) : option string := Some input.
Definition demo_sha256 (_ : string) : list Z := repeat 0 32.
Definition demo_digest : string := default "" (CanonicalJson.Digest demo_jcs demo_sha256 "{}").

Definition demo_update (expected : Z) : ProjectionUpdate :=
  mkProjectionUpdate "t" "p" "project" "p" expected (expected + 1) "{}".
Definition demo_event (id : string) (version : Z) : DomainEvent :=
  mkDomainEvent id "t" "p" "project" "p" version "project.created" "{}" demo_digest 5
    "" "" "" "" "" "" "" "" "" "".
Definition demo_request (key : string) (expected : Z) : TransactionRequest :=
  mkTransactionRequest "t" "u" key "digest" [demo_update expected]
    [demo_event ("e" +:+ key) (expected + 1)] [] [] "{}" demo_digest.

Notation demo_step := (store_step demo_jcs demo_sha256).
Definition demo_history : list command := [CmdExecute (demo_request "1" 0); CmdExecute (demo_request "2" 1)].
Definition demo_state (cs : list command) : MemoryStore :=
  default NewMemoryStore (exec demo_step NewMemoryStore cs).

Lemma history_contiguous_witness :
  exists p, projections (demo_state demo_history) !! aggregateKey "t" "project" "p" = Some p /\ p_Version p = 2 /\
  (forall v, 1 <= v <= p_Version p -> exists! id, exists e,
     events (demo_state demo_history) !! id = Some e /\ key_of e = aggregateKey "t" "project" "p" /\ e_AggregateVersion e = v) /\
  (forall id e, events (demo_state demo_history) !! id = Some e -> key_of e = aggregateKey "t" "project" "p" ->
     1 <= e_AggregateVersion e <= p_Version p /\
     (e_AggregateVersion e = p_Version p -> e_ReplayState e = p_State p)) /\
  1 <= p_Version p.
Proof.
  eexists. split; [vm_compute; reflexivity|]. split; [reflexivity|].
  apply (history_contiguous demo_jcs demo_sha256 demo_history).
  - apply exec_run. vm_compute. reflexivity.
  - vm_compute. reflexivity.
Defined.

Lemma execute_idempotent_witness :
  exists t0, t_Result t0 = "{}" /\
    Execute demo_jcs demo_sha256 (demo_request "1" 0) (demo_state demo_history) =
      (demo_state demo_history, Ok (t0 ⟦ t_Duplicate := true ⟧)).
Proof.
  destruct (execute_idempotent demo_jcs demo_sha256 (demo_request "1" 0) NewMemoryStore
    (fst (Execute demo_jcs demo_sha256 (demo_request "1" 0) NewMemoryStore))
    (snd (Execute demo_jcs demo_sha256 (demo_request "1" 0) NewMemoryStore))
    [CmdExecute (demo_request "2" 1)] (demo_state demo_history)) as (t0 & Ht0 & Hagain).
  - apply surjective_pairing.
  - left. eexists. vm_compute. reflexivity.
  - apply exec_run. vm_compute. reflexivity.
  - exists t0. split; [|exact (Hagain (demo_request "1" 0) eq_refl eq_refl eq_refl)].
    edestruct Ht0 as [Heq _]; [vm_compute; reflexivity|]. symmetry. exact Heq.
Defined.

(** The first event is claimed, put off, claimed again and published. *)
Definition demo_outbox : list command :=
  demo_history ++ [CmdClaimOutbox None "t" 10 1 100; CmdRetry None "t" "outbox_e1" 1 20;
    CmdClaimOutbox None "t" 30 5 100; CmdMarkPublished None "t" "outbox_e1" 2 40].

Lemma outbox_refines_records_witness :
  exists o, outbox (demo_state demo_outbox) !! "outbox_e1" = Some o /\ o_Attempts o = 2 /\
    o_PublishedAt o = Some 40 /\ rtc record_step (fresh (o_Event o)) o.
Proof.
  eexists. split; [vm_compute; reflexivity|]. do 2 (split; [reflexivity|]).
  refine (proj2 (proj2 (proj1 (proj2 (outbox_refines_records demo_jcs demo_sha256 demo_outbox
    (demo_state demo_outbox) _)) "outbox_e1" _ _))).
  - apply exec_run. vm_compute. reflexivity.
  - vm_compute. reflexivity.
Defined.

Lemma outbox_published_once_witness :
  MarkOutboxPublished None "t" "outbox_e1" 2 50 (demo_state demo_outbox) <> Ok NewMemoryStore.
Proof.
  pose (o := default (fresh (demo_event "" 0)) (outbox (demo_state demo_outbox) !! "outbox_e1")).
  refine (proj1 (proj1 (proj2 (outbox_published_once demo_jcs demo_sha256 demo_outbox
    (demo_state demo_outbox) [] (demo_state demo_outbox) "outbox_e1" o _ _ _ _)) None "t" 2 50 NewMemoryStore)).
  - apply exec_run. vm_compute. reflexivity.
  - vm_compute. reflexivity.
  - vm_compute. discriminate.
  - apply run_nil.
Defined.

Definition demo_claim (now limit : Z) (s : MemoryStore) : MemoryStore * list (OutboxRecord * Z) :=
  match ClaimOutbox None "t" now limit 100 s with Ok r => r | Err _ => (s, []) end.
Definition demo_claimed (n : nat) (now limit : Z) (s : MemoryStore) : OutboxRecord * Z :=
  nth n (snd (demo_claim now limit s)) (fresh (demo_event "" 0), 0).
Definition demo_second : MemoryStore := default NewMemoryStore
  (exec demo_step (fst (demo_claim 10 1 (demo_state demo_history))) [CmdFailNext FailureNone]).

Lemma outbox_fenced_witness :
  snd (demo_claimed 0 10 1 (demo_state demo_history)) < snd (demo_claimed 1 200 5 demo_second).
Proof.
  refine (proj1 (outbox_fenced demo_jcs demo_sha256 demo_history (demo_state demo_history)
    (demo_claimed 0 10 1 (demo_state demo_history)) (fst (demo_claim 10 1 (demo_state demo_history)))
    (snd (demo_claim 10 1 (demo_state demo_history))) [CmdFailNext FailureNone] demo_second
    (demo_claimed 1 200 5 demo_second) (fst (demo_claim 200 5 demo_second))
    (snd (demo_claim 200 5 demo_second)) [] (fst (demo_claim 200 5 demo_second))
    None "t" 10 1 100 None "t" 200 5 100 _ _ _ _ _ _ _ _ _ _)).
  - apply exec_run. vm_compute. reflexivity.
  - vm_compute. reflexivity.
  - vm_compute. reflexivity.
  - apply (bool_decide_eq_true_1 _). vm_compute. reflexivity.
  - apply exec_run. vm_compute. reflexivity.
  - vm_compute. reflexivity.
  - vm_compute. reflexivity.
  - apply (bool_decide_eq_true_1 _). vm_compute. reflexivity.
  - vm_compute. reflexivity.
  - apply run_nil.
Defined.

Lemma outbox_delivers_witness :
  exists s1 claims c s2, ClaimOutbox None "t" 10 5 100 (demo_state demo_history) = Ok (s1, claims) /\
    c ∈ claims /\ o_Event (fst c) = without_replay (demo_event "e1" 1) /\
    MarkOutboxPublished None "t" (o_ID (fst c)) (snd c) 20 s1 = Ok s2.
Proof.
  pose (e := default (demo_event "" 0) (events (demo_state demo_history) !! "e1")).
  assert (HT : e_TenantID e = "t") by (vm_compute; reflexivity).
  assert (Hw : without_replay e = without_replay (demo_event "e1" 1)) by (vm_compute; reflexivity).
  destruct (outbox_delivers demo_jcs demo_sha256 demo_history (demo_state demo_history) e 10 5 100 20)
    as (s1 & claims & c & s2 & Hc & Hin & He & Hm & _).
  - apply exec_run. vm_compute. reflexivity.
  - vm_compute. reflexivity.
  - vm_compute. reflexivity.
  - assert (Hf : outbox (demo_state demo_history) !! outbox_id e = Some (fresh e))
      by (vm_compute; reflexivity).
    intros o Ho. rewrite Hf in Ho. apply (inj Some) in Ho as <-. split; vm_compute; reflexivity.
  - rewrite HT. discriminate.
  - reflexivity.
  - reflexivity.
  - vm_compute. discriminate.
  - reflexivity.
  - reflexivity.
  - rewrite HT in Hc, Hm. rewrite Hw in He. exists s1, claims, c, s2.
    split; [exact Hc|]. split; [exact Hin|]. split; [exact He|exact Hm].
Defined.
End EventStoreProps.
