(* ===== verification/Projector.v ===== *)
(** The projector of stored events ([internal/projection]: [projector.go],
    [reducers.go]): streams that apply their events in version order, keep what
    comes early, and answer repeats.

    Every method is one critical section of the projector's mutex.  The pointer
    [p.streams[key]] that [Apply] mutates is written back at the end of each
    path.  Decoding into the structs of the package is a parameter. *)

From S2P Require Import Prelude GoLib Json Errors EventStore.

Module Projector.
Import EventStore.

Inductive projection_error : Type :=
| Coded (err : Error)
| ErrDigest
| ErrNoReducer (aggregateType : string)
| ErrApply (key : string) (version : Z) (cause : projection_error)
| ErrReducerJSON
| ErrBudgetNoSnapshot
| ErrBudgetSnapshot
| ErrDecodePayload
| ErrPayloadEnvelope
| ErrPayloadVersion
| ErrNoReplayState
| ErrReplayDigest
| ErrIncomplete.

Definition maxPendingPerAggregate : Z := 10000.

(** [Reducer]: the current state, empty before the first event. *)
Definition Reducer : Type := string -> DomainEvent -> result string projection_error.

Record Snapshot : Type := mkSnapshot { s_Version : Z; s_State : string }.

Record eventFingerprint : Type := mkFingerprint {
  f_EventID : string;
  f_TenantID : string;
  f_ProjectID : string;
  f_AggregateType : string;
  f_AggregateID : string;
  f_AggregateVersion : Z;
  f_Type : string;
  f_PayloadSHA256 : string;
  f_ReplayStateSHA256 : string
}.
#[export] Instance eventFingerprint_eq_dec : EqDecision eventFingerprint.
Proof. solve_decision. Defined.

Record stream : Type := mkStream {
  version : Z;
  state : string;
  pending : gmap Z DomainEvent;
  applied : gmap Z eventFingerprint
}.
#[global] Instance eta_stream : Eta stream := fun s =>
  mkStream (version s) (state s) (pending s) (applied s).

Record Projector : Type := mkProjector {
  reducers : gmap string Reducer;
  streams : gmap string stream;
  eventIDs : gmap string eventFingerprint
}.
#[global] Instance eta_projector : Eta Projector := fun p =>
  mkProjector (reducers p) (streams p) (eventIDs p).

Definition New (reducers : gmap string Reducer) : Projector := mkProjector reducers ∅ ∅.
Definition new_stream : stream := mkStream 0 "" ∅ ∅.

(** What [encoding/json] decodes: the envelope of a state event, the version of
    a projection and the snapshot of a budget account. *)
Record statePayload : Type := mkPayload {
  pl_TenantID : string;
  pl_ProjectID : string;
  pl_AggregateVersion : Z;
  pl_Projection : string
}.
Record budgetSnapshot : Type := mkBudgetSnapshot {
  b_TenantID : string;
  b_ProjectID : string;
  b_AccountID : string;
  b_PrincipalID : string;
  b_PreviousVersion : Z;
  b_AggregateVersion : Z;
  b_Version : Z;
  b_HardLimit : Z;
  b_SoftLimit : Z;
  b_Currency : string;
  b_Reason : string
}.
Class Decoders : Type := {
  unmarshal_payload : string -> option statePayload;
  unmarshal_version : string -> option Z;
  unmarshal_budget : string -> option budgetSnapshot
}.

Section Projector.
Context (jcs_Transform : string -> option string) (sha256_Sum256 : string -> list Z).
Context `{decoders : Decoders}.
Notation Digest := (CanonicalJson.Digest jcs_Transform sha256_Sum256).

(** ** Reducers ([reducers.go]) *)
Definition AuthoritativeStateReducer : Reducer := fun _ event =>
  reject ErrNoReplayState when
    negb (Json.is_object (e_ReplayState event)) || (e_ReplayStateSHA256 event ≟ "") ;;
  reject ErrReplayDigest when
    Digest (e_ReplayState event) ≠? Some (e_ReplayStateSHA256 event) ;;
  Ok (cloneJSON (e_ReplayState event)).

Definition StateReducer : Reducer := fun _ event =>
  if negb (len (e_ReplayState event) =? 0) || (e_ReplayStateSHA256 event ≠? "")
  then AuthoritativeStateReducer "" event else
  payload <-? unmarshal_payload (e_Payload event) else ErrDecodePayload ;;
  reject ErrPayloadEnvelope when
    (pl_TenantID payload ≠? e_TenantID event) || (pl_ProjectID payload ≠? e_ProjectID event)
    || negb (pl_AggregateVersion payload =? e_AggregateVersion event)
    || negb (Json.Valid (pl_Projection payload)) ;;
  reject ErrPayloadVersion when
    unmarshal_version (pl_Projection payload) ≠? Some (e_AggregateVersion event) ;;
  Ok (cloneJSON (pl_Projection payload)).

(** ** One event *)
Definition validateEvent (event : DomainEvent) : result eventFingerprint projection_error :=
  reject Coded (Errors.New CodeInvalidArgument (e_CorrelationID event)
                  {["scope" := AnyString "projection event"]}) when
    (e_EventID event ≟ "") || (e_TenantID event ≟ "") || (e_ProjectID event ≟ "")
    || (e_AggregateType event ≟ "") || (e_AggregateID event ≟ "")
    || (e_AggregateVersion event <? 1) || (e_Type event ≟ "") || (len (e_Payload event) =? 0) ;;
  reject Coded (Errors.New CodeArtifactHashMismatch (e_CorrelationID event)
                  {["scope" := AnyString "event payload"]}) when
    Digest (e_Payload event) ≠? Some (e_PayloadSHA256 event) ;;
  reject Coded (Errors.New CodeArtifactHashMismatch (e_CorrelationID event)
                  {["scope" := AnyString "event replay state"]}) when
    negb (Bool.eqb (len (e_ReplayState event) =? 0) (e_ReplayStateSHA256 event ≟ "")) ;;
  reject Coded (Errors.New CodeArtifactHashMismatch (e_CorrelationID event)
                  {["scope" := AnyString "event replay state"]}) when
    negb (len (e_ReplayState event) =? 0)
    && (Digest (e_ReplayState event) ≠? Some (e_ReplayStateSHA256 event)) ;;
  Ok (mkFingerprint (e_EventID event) (e_TenantID event) (e_ProjectID event)
        (e_AggregateType event) (e_AggregateID event) (e_AggregateVersion event) (e_Type event)
        (e_PayloadSHA256 event) (e_ReplayStateSHA256 event)).

(** A budget event without a replay state carries its snapshot as payload. *)
Definition with_snapshot (event : DomainEvent) : result DomainEvent projection_error :=
  if (e_AggregateType event ≟ "budget") && (len (e_ReplayState event) =? 0) then
    digest <-? Digest (e_Payload event) else ErrDigest ;;
    Ok (event ⟦ e_ReplayState := cloneJSON (e_Payload event) ⟧ ⟦ e_ReplayStateSHA256 := digest ⟧)
  else Ok event.

Definition conflict (event : DomainEvent) (scope : string) : projection_error :=
  Coded (Errors.New CodeConflict (e_CorrelationID event) {["scope" := AnyString scope]}).

Definition remember (fingerprint : eventFingerprint) (p : Projector) : Projector :=
  p ⟦ eventIDs := <[f_EventID fingerprint := fingerprint]> (eventIDs p) ⟧.
Definition put (key : string) (s : stream) (p : Projector) : Projector :=
  p ⟦ streams := <[key := s]> (streams p) ⟧.
Definition forget (event : DomainEvent) (p : Projector) : Projector :=
  p ⟦ eventIDs := delete (e_EventID event) (eventIDs p) ⟧.

(** The loop over the pending events of a stream: each round takes one, so the
    number of pending events bounds the rounds. *)
Fixpoint drain (rounds : nat) (reducer : Reducer) (key : string) (s : stream) (p : Projector)
    (done : list DomainEvent) : Projector * result (list DomainEvent) projection_error :=
  match rounds with
  | O => (put key s p, Ok done)
  | S rounds =>
      match pending s !! wrap64 (version s + 1) with
      | None => (put key s p, Ok done)
      | Some next =>
          let dropped := s ⟦ pending := delete (e_AggregateVersion next) (pending s) ⟧ in
          match reducer (cloneJSON (state s)) (cloneEvent next) with
          | Err e =>
              (put key dropped (forget next p), Err (ErrApply key (e_AggregateVersion next) e))
          | Ok nextState =>
              if negb (Json.Valid nextState)
              then (put key dropped (forget next p), Err ErrReducerJSON) else
              let fingerprint := match validateEvent next with
                                 | Ok f => f | Err _ => mkFingerprint "" "" "" "" "" 0 "" "" "" end in
              drain rounds reducer key
                (dropped ⟦ version := e_AggregateVersion next ⟧ ⟦ state := cloneJSON nextState ⟧
                         ⟦ applied := <[e_AggregateVersion next := fingerprint]> (applied s) ⟧)
                p (done ++ [cloneEvent next])
          end
      end
  end.

(** The capital letters of the currency code, byte by byte. *)
Definition currency_ok (currency : string) : bool :=
  (len currency =? 3) && forallb (byte_in 65 90) (bytes currency).

Definition snapshot_bad (event : DomainEvent) (b : budgetSnapshot) : bool :=
  (b_TenantID b ≠? e_TenantID event) || (b_ProjectID b ≠? e_ProjectID event)
  || (b_AccountID b ≠? e_AggregateID event) || (b_PrincipalID b ≟ "")
  || (b_PreviousVersion b <? 1) || negb (b_AggregateVersion b =? e_AggregateVersion event)
  || negb (b_Version b =? e_AggregateVersion event)
  || negb (wrap64 (b_PreviousVersion b + 1) =? b_Version b)
  || (b_HardLimit b <? 0) || (b_SoftLimit b <? 0) || (b_HardLimit b <? b_SoftLimit b)
  || negb (currency_ok (b_Currency b)) || (b_Reason b ≟ "").

Definition stream_of (p : Projector) (key : string) : stream := default new_stream (streams p !! key).

Definition applyBudgetSnapshotLocked (event : DomainEvent) (fingerprint : eventFingerprint)
    (p : Projector) : Projector * result (list DomainEvent) projection_error :=
  if (e_Type event ≠? "io.aor.budget.adjusted.v1") || (len (e_ReplayState event) =? 0)
  then (p, Err ErrBudgetNoSnapshot) else
  match AuthoritativeStateReducer "" event with
  | Err e => (p, Err e)
  | Ok _ =>
      if match unmarshal_budget (e_ReplayState event) with
         | None => true | Some b => snapshot_bad event b end
      then (p, Err ErrBudgetSnapshot) else
      let key := aggregateKey (e_TenantID event) (e_AggregateType event) (e_AggregateID event) in
      let current := stream_of p key in
      let p := put key current p in
      match applied current !! e_AggregateVersion event with
      | Some prior =>
          if prior ≟ fingerprint then (remember fingerprint p, Ok [])
          else (p, Err (conflict event "aggregateVersion"))
      | None =>
          let p := remember fingerprint p in
          let current := current ⟦ applied := <[e_AggregateVersion event := fingerprint]> (applied current) ⟧ in
          if e_AggregateVersion event <=? version current then (put key current p, Ok []) else
          (put key (current ⟦ version := e_AggregateVersion event ⟧
                            ⟦ state := cloneJSON (e_ReplayState event) ⟧) p,
           Ok [cloneEvent event])
      end
  end.

(** A state event: early, late or next. *)
Definition applyVersion (reducer : Reducer) (event : DomainEvent) (fingerprint : eventFingerprint)
    (p : Projector) : Projector * result (list DomainEvent) projection_error :=
  let key := aggregateKey (e_TenantID event) (e_AggregateType event) (e_AggregateID event) in
  let current := stream_of p key in
  let p := put key current p in
  if e_AggregateVersion event <=? version current then
    if applied current !! e_AggregateVersion event ≟ Some fingerprint
    then (remember fingerprint p, Ok [])
    else (p, Err (conflict event "aggregateVersion"))
  else
    match pending current !! e_AggregateVersion event with
    | Some prior =>
        match validateEvent prior with
        | Ok priorFingerprint =>
            if priorFingerprint ≟ fingerprint then (remember fingerprint p, Ok [])
            else (p, Err (conflict event "pending aggregateVersion"))
        | Err _ => (p, Err (conflict event "pending aggregateVersion"))
        end
    | None =>
        if (maxPendingPerAggregate <=? Z.of_nat (size (pending current)))
           && negb (e_AggregateVersion event =? wrap64 (version current + 1))
        then (p, Err (Coded (Errors.New CodeRateLimited (e_CorrelationID event)
                {["limit" := AnyInt maxPendingPerAggregate; "scope" := AnyString "projection gap"]})))
        else
          let current := current ⟦ pending := <[e_AggregateVersion event := cloneEvent event]>
                                               (pending current) ⟧ in
          drain (size (pending current)) reducer key current (remember fingerprint p) []
    end.

Definition Apply (event : DomainEvent) (p : Projector)
    : Projector * result (list DomainEvent) projection_error :=
  match with_snapshot event with
  | Err e => (p, Err e)
  | Ok event =>
  match validateEvent event with
  | Err e => (p, Err e)
  | Ok fingerprint =>
  match eventIDs p !! e_EventID event with
  | Some prior =>
      if prior ≟ fingerprint then (p, Ok []) else (p, Err (conflict event "eventId"))
  | None =>
      if e_AggregateType event ≟ "budget" then applyBudgetSnapshotLocked event fingerprint p else
      match reducers p !! e_AggregateType event with
      | None => (p, Err (ErrNoReducer (e_AggregateType event)))
      | Some reducer => applyVersion reducer event fingerprint p
      end
  end end end.

(** [Projector.Snapshot]. *)
Definition Snapshot_of (tenantID aggregateType aggregateID : string) (p : Projector) : option Snapshot :=
  match streams p !! aggregateKey tenantID aggregateType aggregateID with
  | None => None
  | Some current =>
      if version current =? 0 then None
      else Some (mkSnapshot (version current) (cloneJSON (state current)))
  end.

(** Whichever incomplete stream the loop over the map meets first, there is an
    error. *)
Definition ensureComplete (p : Projector) : result unit projection_error :=
  reject ErrIncomplete when
    existsb (fun s => negb (Nat.eqb (size (pending s)) 0)) (values (streams p)) ;;
  Ok tt.
End Projector.
End Projector.
