(* ===== verification/ProjectorProps.v ===== *)
(** What a projector holds does not depend on how its events arrived: out of
    order, repeated or in order, a stream is the replay of its versions from the
    first on, and a budget account its newest snapshot. *)

From S2P Require Import Prelude GoLib Json Errors EventStore EventStoreProps Projector.

Module ProjectorProps.
Import EventStore Projector.

Section Props.
Context (jcs_Transform : string -> option string) (sha256_Sum256 : string -> list Z).
Context `{decoders : Decoders}.
Context (rs : gmap string Reducer).
Notation Apply := (Apply jcs_Transform sha256_Sum256).
Notation validateEvent := (validateEvent jcs_Transform sha256_Sum256).
Notation with_snapshot := (with_snapshot jcs_Transform sha256_Sum256).
Notation drain := (drain jcs_Transform sha256_Sum256).
Notation applyVersion := (applyVersion jcs_Transform sha256_Sum256).

(** Deliver events one after the other, until one is refused. *)
Fixpoint deliver (es : list DomainEvent) (p : Projector) : result Projector projection_error :=
  match es with
  | [] => Ok p
  | e :: es => match Apply e p with (p', Ok _) => deliver es p' | (_, Err err) => Err err end
  end.

Definition key (e : DomainEvent) : string :=
  aggregateKey (e_TenantID e) (e_AggregateType e) (e_AggregateID e).
Definition is_budget (e : DomainEvent) : bool := e_AggregateType e ≟ "budget".
Definition norm (e : DomainEvent) : DomainEvent :=
  match with_snapshot e with Ok e' => e' | Err _ => e end.

(** Events as a log holds them: one per identifier and one per version of an
    aggregate, whose type its key names. *)
Record consistent (E : list DomainEvent) : Prop := {
  same_id e e' : e ∈ E -> e' ∈ E -> e_EventID e = e_EventID e' -> e = e';
  same_version e e' : e ∈ E -> e' ∈ E -> key e = key e' ->
    e_AggregateVersion e = e_AggregateVersion e' -> e = e';
  same_type e e' : e ∈ E -> e' ∈ E -> key e = key e' -> e_AggregateType e = e_AggregateType e';
  in_range e : e ∈ E -> e_AggregateVersion e < two63
}.

(** The replay of the versions of an aggregate, in order. *)
Inductive replays (E : list DomainEvent) (k : string) : Z -> string -> Prop :=
| replays_start : replays E k 0 ""
| replays_next v st e r st' :
    replays E k v st -> e ∈ E -> key e = k -> e_AggregateVersion e = v + 1 ->
    rs !! e_AggregateType e = Some r -> r st e = Ok st' -> Json.Valid st' = true ->
    replays E k (v + 1) st'.

Lemma replays_range E k v st : replays E k v st -> 0 <= v.
Proof. induction 1; lia. Qed.

Lemma replays_mono E E' k v st : E ⊆ E' -> replays E k v st -> replays E' k v st.
Proof. intros Hs. induction 1; [constructor|]. eapply replays_next; eauto. Qed.

Lemma replays_event E k v st : replays E k v st ->
  forall w, 1 <= w <= v -> exists e, e ∈ E /\ key e = k /\ e_AggregateVersion e = w.
Proof.
  induction 1 as [|v st e r st' Hr IH He Hk Hv]; intros w Hw; [lia|].
  destruct (decide (w = v + 1)) as [->|]; [by exists e|]. apply IH. lia.
Qed.

Lemma replays_det E k v st v' st' :
  consistent E -> replays E k v st -> replays E k v' st' -> v = v' -> st = st'.
Proof.
  intros C H. revert v' st'.
  induction H as [|v st e r st1 Hr IH He Hk Hv Hred Hst Hj]; intros v' st' H' Heq.
  { destruct H' as [|v' ? ? ? ? H']; [done|]. pose proof (replays_range _ _ _ _ H'). lia. }
  destruct H' as [|v' st' e' r' st1' Hr' He' Hk' Hv' Hred' Hst' Hj'].
  { pose proof (replays_range _ _ _ _ Hr). lia. }
  assert (v = v') as <- by lia. assert (e = e') as <- by (eapply same_version; eauto; congruence).
  assert (st = st') as <- by by eapply IH. congruence.
Qed.

(** ** The streams *)
Definition of_key (E : list DomainEvent) (k : string) (v : Z) (e : DomainEvent) : Prop :=
  e ∈ E /\ key e = k /\ e_AggregateVersion e = v.

(** A stream, but for a next event that may still be pending. *)
Record stream_at (E : list DomainEvent) (k : string) (s : stream) : Prop := {
  at_range : 0 <= version s < two63;
  at_pending v e : pending s !! v = Some e <-> version s < v /\ of_key E k v e;
  at_state : replays E k (version s) (state s)
}.
Definition stream_ok (E : list DomainEvent) (k : string) (s : stream) : Prop :=
  stream_at E k s /\ forall e, ~ of_key E k (version s + 1) e.

(** A budget account: its newest snapshot. *)
Record budget_ok (E : list DomainEvent) (k : string) (s : stream) : Prop := {
  bd_applied v : is_Some (applied s !! v) <-> exists e, of_key E k v e;
  bd_pending : pending s = ∅;
  bd_newest : exists e, of_key E k (version s) e /\ state s = e_ReplayState (norm e);
  bd_all v e : of_key E k v e -> v <= version s
}.

Record built (E : list DomainEvent) (p : Projector) : Prop := {
  bt_reducers : reducers p = rs;
  bt_seen e : e ∈ E -> is_Some (eventIDs p !! e_EventID e) /\ 1 <= e_AggregateVersion e;
  bt_ids id : is_Some (eventIDs p !! id) -> exists e, e ∈ E /\ e_EventID e = id;
  bt_fresh k : (forall e, e ∈ E -> key e <> k) -> streams p !! k = None;
  bt_stream k : (forall e, e ∈ E -> key e = k -> is_budget e = false) -> stream_ok E k (stream_of p k);
  bt_budget e : e ∈ E -> is_budget e = true -> budget_ok E (key e) (stream_of p (key e))
}.

Lemma stream_of_put p k s k' : stream_of (put k s p) k' = if k' ≟ k then s else stream_of p k'.
Proof.
  unfold stream_of, put. change (streams (p ⟦ streams := <[k:=s]> (streams p) ⟧)) with (<[k:=s]> (streams p)).
  case_bool_decide as H; [subst; by rewrite lookup_insert_eq|by rewrite lookup_insert_ne].
Qed.
Lemma stream_of_remember f p k : stream_of (remember f p) k = stream_of p k.
Proof. done. Qed.

Lemma validate_fields e f :
  validateEvent e = Ok f -> f_EventID f = e_EventID e /\ 1 <= e_AggregateVersion e.
Proof. unfold Projector.validateEvent. intros H. accepted H. cbn. go_bool. split; [done|lia]. Qed.

Lemma with_snapshot_fields e e' : with_snapshot e = Ok e' ->
  e_EventID e' = e_EventID e /\ key e' = key e /\ e_AggregateVersion e' = e_AggregateVersion e /\
  e_AggregateType e' = e_AggregateType e /\ norm e = e' /\ (is_budget e = false -> e' = e).
Proof.
  intros H. unfold norm. rewrite H. unfold Projector.with_snapshot in H. unfold is_budget.
  destruct (e_AggregateType e ≟ "budget"); cbn [andb] in H.
  - destruct (_ =? _); [accepted H|apply Ok_inj in H as <-]; done.
  - apply Ok_inj in H as <-. done.
Qed.

(** ** The loop over the pending events *)
Lemma next_pending E k s : stream_at E k s -> consistent E ->
  pending s !! wrap64 (version s + 1) = pending s !! (version s + 1).
Proof.
  intros [Hr Hp _] C. destruct (decide (version s + 1 < two63)) as [Hlt|Hge].
  { by rewrite wrap64_id by (unfold in_int64, two63 in *; lia). }
  assert (Hv : version s = two63 - 1) by lia. rewrite Hv. change (wrap64 (two63 - 1 + 1)) with (- two63).
  destruct (pending s !! - two63) as [e|] eqn:E1.
  { apply Hp in E1 as [Hlt _]. unfold two63 in *. lia. }
  destruct (pending s !! (two63 - 1 + 1)) as [e|] eqn:E2; [|done].
  apply Hp in E2 as (_ & He & _ & Hve). pose proof (in_range _ C e He). lia.
Qed.

Lemma no_next E k s : stream_at E k s -> pending s !! (version s + 1) = None -> stream_ok E k s.
Proof.
  intros H Hn. split; [done|]. intros e He.
  assert (pending s !! (version s + 1) = Some e) by (apply (at_pending _ _ _ H); split; [lia|done]). congruence.
Qed.

Lemma advance_at E k r s e st :
  consistent E -> stream_at E k s -> pending s !! (version s + 1) = Some e ->
  rs !! e_AggregateType e = Some r -> r (state s) e = Ok st -> Json.Valid st = true ->
  forall f, stream_at E k (s ⟦ pending := delete (e_AggregateVersion e) (pending s) ⟧
    ⟦ version := e_AggregateVersion e ⟧ ⟦ state := st ⟧ ⟦ applied := <[e_AggregateVersion e := f]> (applied s) ⟧).
Proof.
  intros C [Hr Hp Hst] He Hrs Hred Hj f. pose proof (proj1 (Hp _ _) He) as [_ (Hin & Hk & Hv)]. split; cbn.
  - rewrite Hv. pose proof (in_range _ C e Hin). lia.
  - intros v e'. rewrite lookup_delete_Some, Hp, Hv. split; [intros (? & ? & ?); split; [lia|done]|].
    intros [? ?]. split_and!; [lia|lia|done].
  - rewrite Hv. by eapply replays_next.
Qed.

Lemma drain_ok E k r rounds s p acc p' out :
  consistent E -> (forall e, e ∈ E -> key e = k -> rs !! e_AggregateType e = Some r) ->
  stream_at E k s -> (size (pending s) <= rounds)%nat ->
  drain rounds r k s p acc = (p', Ok out) ->
  exists s', p' = put k s' p /\ stream_ok E k s'.
Proof.
  intros C Hrs. revert s acc. induction rounds as [|n IH]; intros s acc Hs Hn H; cbn in H.
  { injection H as <- _. exists s. split; [done|]. apply no_next; [done|].
    assert (Hz : size (pending s) = 0%nat) by lia. apply map_size_empty_inv in Hz. by rewrite Hz, lookup_empty. }
  rewrite (next_pending E k) in H by done.
  destruct (pending s !! (version s + 1)) as [e|] eqn:He.
  2: { injection H as <- _. exists s. split; [done|]. by apply no_next. }
  pose proof (proj1 (at_pending _ _ _ Hs _ _) He) as [_ (Hin & Hk & Hv)].
  rewrite EventStoreProps.cloneEvent_id, EventStoreProps.cloneJSON_id in H.
  destruct (r (state s) e) as [st|] eqn:Hred; [|discriminate].
  destruct (negb (Json.Valid st)) eqn:Hj; [discriminate|]. go_bool. rewrite EventStoreProps.cloneJSON_id in H.
  eapply IH; [| |exact H].
  - eapply advance_at; eauto.
  - cbn. rewrite map_size_delete_Some by (eexists; rewrite Hv; exact He). lia.
Qed.

(** ** One event *)
Lemma of_key_new E k v e e' : e ∉ E -> consistent (e :: E) -> of_key E k v e' -> key e = k -> e_AggregateVersion e <> v.
Proof.
  intros Hni C (Hin & Hk & Hv) Hke Heq. apply Hni.
  assert (e = e') as ->; [|done]. eapply (same_version _ C); [left|by right|congruence..].
Qed.

Lemma of_key_cons E k v e e' : of_key (e :: E) k v e' <-> of_key E k v e' \/ (e' = e /\ key e = k /\ e_AggregateVersion e = v).
Proof. unfold of_key. rewrite elem_of_cons. naive_solver. Qed.

Lemma stream_ok_other E k s e : key e <> k -> stream_ok E k s -> stream_ok (e :: E) k s.
Proof.
  intros Hk [[Hr Hp Hst] Hn]. split; [split|].
  - done.
  - intros v e'. rewrite of_key_cons, Hp. naive_solver.
  - eapply replays_mono; [|done]. set_solver.
  - intros e' [He|(_ & ? & _)]%of_key_cons; [by eapply Hn|done].
Qed.
Lemma budget_ok_other E k s e : key e <> k -> budget_ok E k s -> budget_ok (e :: E) k s.
Proof.
  intros Hk [Ha Hp Hn Hall]. split.
  - intros v. rewrite Ha. setoid_rewrite of_key_cons. naive_solver.
  - done.
  - destruct Hn as (e' & ? & ?). exists e'. split; [|done]. apply of_key_cons. by left.
  - intros v e' [?|(_ & ? & _)]%of_key_cons; [by eapply Hall|done].
Qed.

Lemma built_ext E E' p : (forall e, e ∈ E <-> e ∈ E') -> built E p -> built E' p.
Proof.
  intros Hx [Hr Hs Hi Hf Hst Hb].
  assert (Hok : forall k v e, of_key E k v e <-> of_key E' k v e) by (intros; unfold of_key; by rewrite Hx).
  split.
  - done.
  - intros e He. apply Hs. by apply Hx.
  - intros id (e & He & ?)%Hi. exists e. by rewrite <- Hx.
  - intros k Hk. apply Hf. intros e He. apply Hk. by apply Hx.
  - intros k Hk. destruct (Hst k) as [[Ha Hp Hre] Hn]; [intros e He; apply Hk; by apply Hx|].
    split; [split|].
    + done.
    + intros v e. by rewrite Hp, Hok.
    + eapply replays_mono; [|done]. intros e. by rewrite Hx.
    + intros e. by rewrite <- Hok.
  - intros e He Hbud. destruct (Hb e) as [Ha Hp (e' & ? & ?) Hall]; [by apply Hx|done|]. split.
    + intros v. rewrite Ha. by setoid_rewrite Hok.
    + done.
    + exists e'. by rewrite <- Hok.
    + intros v e''. rewrite <- Hok. apply Hall.
Qed.

Lemma applyVersion_ok E p e f r p' out :
  built E p -> consistent (e :: E) -> e ∉ E -> is_budget e = false -> validateEvent e = Ok f ->
  rs !! e_AggregateType e = Some r -> applyVersion r e f p = (p', Ok out) ->
  exists s, p' = put (key e) s (remember f (put (key e) (stream_of p (key e)) p)) /\ stream_ok (e :: E) (key e) s.
Proof.
  intros B C Hni Hb Hf Hr H.
  assert (Hst : stream_ok E (key e) (stream_of p (key e))).
  { apply (bt_stream _ _ B). intros e' He' Hk. unfold is_budget in *.
    rewrite (same_type _ C e' e); [done|by right|by left|done]. }
  unfold Projector.applyVersion in H. cbv zeta in H.
  change (aggregateKey (e_TenantID e) (e_AggregateType e) (e_AggregateID e)) with (key e) in H.
  set (s := stream_of p (key e)) in *. destruct Hst as [[Hrg Hp Hre] Hn].
  pose proof (validate_fields _ _ Hf) as [_ Hpos].
  destruct (Z.leb_spec (e_AggregateVersion e) (version s)) as [Hle|Hgt].
  { exfalso. destruct (replays_event _ _ _ _ Hre (e_AggregateVersion e)) as (e0 & ?); [lia|].
    by eapply of_key_new. }
  destruct (pending s !! e_AggregateVersion e) as [prior|] eqn:Hpr.
  { exfalso. apply Hp in Hpr as [_ Hpr]. by eapply of_key_new. }
  destruct (_ && _) in H; [discriminate|].
  apply (drain_ok (e :: E)) in H as (s' & -> & Hs'); [by exists s'|done| | |cbn; done].
  - intros e' He' Hk. rewrite (same_type _ C e' e); [done|done|by left|done].
  - split; cbn.
    + done.
    + intros v e'. rewrite EventStoreProps.cloneEvent_id, lookup_insert_Some, Hp, of_key_cons.
      split; [intros [(<- & <-)|(? & ? & ?)]; auto|].
      intros [Hv [?|(-> & ? & <-)]]; [right|by left]. split; [|done]. intros Heq. by eapply of_key_new.
    + eapply replays_mono; [|done]. set_solver.
Qed.

Lemma applyBudget_ok E p e e' f p' out :
  built E p -> consistent (e :: E) -> e ∉ E -> is_budget e = true -> 1 <= e_AggregateVersion e ->
  with_snapshot e = Ok e' ->
  applyBudgetSnapshotLocked jcs_Transform sha256_Sum256 e' f p = (p', Ok out) ->
  exists s, p' = put (key e) s (remember f (put (key e) (stream_of p (key e)) p)) /\
    budget_ok (e :: E) (key e) s.
Proof.
  intros B C Hni Hb Hpos He H. apply with_snapshot_fields in He as (_ & Hk & Hv & _ & Hnorm & _).
  unfold applyBudgetSnapshotLocked in H. destruct (_ || _) in H; [discriminate|].
  destruct (AuthoritativeStateReducer _ _ "" e') as [st|err] in H; [|discriminate].
  match type of H with (if ?c then _ else _) = _ => destruct c in H; [discriminate|] end. cbv zeta in H.
  change (aggregateKey (e_TenantID e') (e_AggregateType e') (e_AggregateID e')) with (key e') in H.
  rewrite Hk, Hv in H. set (s := stream_of p (key e)) in *.
  assert (Hs : budget_ok E (key e) s \/ s = new_stream /\ forall v x, ~ of_key E (key e) v x).
  { destruct (decide (Exists (fun x => key x = key e) E)) as [Hx|Hx].
    - left. apply Exists_exists in Hx as (x & Hx & Hkx). unfold s. rewrite <- Hkx.
      apply (bt_budget _ _ B); [done|]. unfold is_budget in *.
      rewrite (same_type _ C x e); [done|by right|by left|done].
    - right. assert (Hno : forall x, x ∈ E -> key x <> key e).
      { intros x Hin Heq. apply Hx, Exists_exists. eauto. }
      split; [|intros v x (Hin & Heq & _); by eapply Hno].
      unfold s, stream_of. by rewrite (bt_fresh _ _ B). }
  assert (Happ : forall v, is_Some (applied s !! v) <-> exists x, of_key E (key e) v x).
  { destruct Hs as [[Ha _ _ _]|[-> Hno]]; [done|]. intros v. cbn. rewrite lookup_empty.
    split; [by intros [? ?]|intros (x & Hx); by destruct (Hno v x)]. }
  destruct (applied s !! e_AggregateVersion e) as [prior|] eqn:Hap.
  { destruct (Happ (e_AggregateVersion e)) as [Hx _].
    destruct Hx as (x & Hx); [by eexists|]. exfalso. by eapply of_key_new. }
  assert (Hpend : pending s = ∅) by (destruct Hs as [[_ ? _ _]|[-> _]]; done).
  assert (Hnew : forall v, is_Some (<[e_AggregateVersion e := f]> (applied s) !! v) <->
                 exists x, of_key (e :: E) (key e) v x).
  { intros v. setoid_rewrite of_key_cons. destruct (decide (e_AggregateVersion e = v)) as [Heq|Hne].
    - rewrite Heq, lookup_insert_eq. split; [intros _; exists e; right; done|by eexists].
    - rewrite lookup_insert_ne, Happ by done. naive_solver. }
  change (version s ⟦ applied := _ ⟧) with (version s) in H.
  destruct (Z.leb_spec (e_AggregateVersion e) (version s)) as [Hle|Hgt]; injection H as <- _;
    eexists; (split; [reflexivity|]); split; cbn; try done.
  - destruct Hs as [[_ _ (x & Hx & Hst) _]|[-> Hno]]; [|cbn in Hle; lia].
    exists x. split; [|done]. apply of_key_cons. by left.
  - intros v x [Hx|(_ & _ & <-)]%of_key_cons; [|done].
    destruct Hs as [[_ _ _ Hall]|[_ Hno]]; [by eapply Hall|by destruct (Hno v x)].
  - exists e. rewrite EventStoreProps.cloneJSON_id, Hnorm. split; [|done]. by repeat constructor.
  - intros v x [Hx|(_ & _ & <-)]%of_key_cons; [|lia].
    destruct Hs as [[_ _ _ Hall]|[_ Hno]]; [specialize (Hall _ _ Hx); lia|by destruct (Hno v x)].
Qed.

Lemma built_step E p p' e f s :
  built E p -> consistent (e :: E) -> reducers p' = reducers p ->
  eventIDs p' = <[e_EventID e := f]> (eventIDs p) -> streams p' = <[key e := s]> (streams p) ->
  1 <= e_AggregateVersion e ->
  (is_budget e = false -> stream_ok (e :: E) (key e) s) ->
  (is_budget e = true -> budget_ok (e :: E) (key e) s) -> built (e :: E) p'.
Proof.
  intros B C Hr Hid Hss Hpos Hok Hbud.
  assert (Hst : forall k, stream_of p' k = if k ≟ key e then s else stream_of p k).
  { intros k. unfold stream_of. rewrite Hss. case_bool_decide as Hk; [subst; by rewrite lookup_insert_eq|].
    by rewrite lookup_insert_ne. }
  split.
  - rewrite Hr. apply B.
  - intros x Hx. rewrite Hid. destruct (decide (e_EventID e = e_EventID x)) as [Heq|Hne].
    + assert (e = x) as <- by (eapply (same_id _ C); [by left|done|done]). by rewrite lookup_insert_eq.
    + apply elem_of_cons in Hx as [->|Hx]; [done|]. rewrite lookup_insert_ne by done. by apply B.
  - intros id. rewrite Hid, lookup_insert_is_Some. intros [<-|[_ (x & ? & ?)%(bt_ids _ _ B)]].
    + exists e. split; [by left|done].
    + exists x. split; [by right|done].
  - intros k Hk. rewrite Hss, lookup_insert_ne by (apply Hk; by left). apply (bt_fresh _ _ B).
    intros x Hx. apply Hk. by right.
  - intros k Hk. rewrite Hst. case_bool_decide as Heq; [subst; apply Hok, Hk; [by left|done]|].
    apply stream_ok_other; [done|]. apply (bt_stream _ _ B). intros x Hx. apply Hk. by right.
  - intros x Hx Hb. rewrite Hst. case_bool_decide as Heq.
    + rewrite Heq. apply Hbud. unfold is_budget in *. by rewrite (same_type _ C e x); [|by left|..].
    + apply elem_of_cons in Hx as [->|Hx]; [done|]. apply budget_ok_other; [done|]. by apply (bt_budget _ _ B).
Qed.

Lemma put_put k s s0 f p : streams (put k s (remember f (put k s0 p))) = <[k := s]> (streams p).
Proof. cbn. apply insert_insert_eq. Qed.

Lemma Apply_built E p e p' out :
  built E p -> consistent (e :: E) -> Apply e p = (p', Ok out) -> built (e :: E) p'.
Proof.
  intros B C H. unfold Projector.Apply in H.
  destruct (with_snapshot e) as [e'|] eqn:He; [|discriminate].
  destruct (with_snapshot_fields _ _ He) as (Hid & Hk & Hv & Hty & Hnorm & Hsame).
  destruct (validateEvent e') as [f|] eqn:Hf; [|discriminate].
  destruct (validate_fields _ _ Hf) as [Hfid Hpos]. rewrite Hid in H, Hfid. rewrite Hv in Hpos.
  destruct (eventIDs p !! e_EventID e) as [prior|] eqn:Hseen.
  { destruct (prior ≟ f); [|discriminate]. injection H as <- _.
    destruct (bt_ids _ _ B (e_EventID e)) as (x & Hx & Hxid); [by eexists|].
    assert (x = e) as -> by (eapply (same_id _ C); [by right|by left|done]).
    eapply built_ext; [|done]. set_solver. }
  assert (Hni : e ∉ E).
  { intros Hin. destruct (bt_seen _ _ B e Hin) as [[? Hx] _]. congruence. }
  rewrite Hty in H. destruct (e_AggregateType e ≟ "budget") eqn:Hb.
  - destruct (applyBudget_ok E p e e' f p' out) as (s & -> & Hs); try done.
    eapply (built_step _ _ _ _ f s); try done; [by rewrite <- Hfid|apply put_put|].
    unfold is_budget. by rewrite Hb.
  - rewrite (bt_reducers _ _ B) in H. destruct (rs !! e_AggregateType e) as [r|] eqn:Hr; [|discriminate].
    rewrite Hsame in * by done.
    destruct (applyVersion_ok E p e f r p' out) as (s & -> & Hs); try done.
    eapply (built_step _ _ _ _ f s); try done; [by rewrite <- Hfid|apply put_put|].
    unfold is_budget. by rewrite Hb.
Qed.

Lemma built_new : built [] (New rs).
Proof.
  split; cbn.
  - done.
  - by intros e He%not_elem_of_nil.
  - intros id. rewrite lookup_empty. by intros [? ?].
  - intros k _. apply lookup_empty.
  - intros k _. unfold stream_of. cbn. rewrite lookup_empty. split; [split|]; cbn.
    + done.
    + intros v e. rewrite lookup_empty. split; [done|]. by intros (_ & Hin%not_elem_of_nil & _).
    + constructor.
    + by intros e (Hin%not_elem_of_nil & _).
  - by intros e He%not_elem_of_nil.
Qed.

Lemma consistent_mono E E' : (forall e, e ∈ E' -> e ∈ E) -> consistent E -> consistent E'.
Proof.
  intros H [H1 H2 H3 H4]. split.
  - intros e e' He He'. apply H1; by apply H.
  - intros e e' He He'. apply H2; by apply H.
  - intros e e' He He'. apply H3; by apply H.
  - intros e He. by apply H4, H.
Qed.

Lemma deliver_built es E p p' :
  built E p -> consistent (es ++ E) -> deliver es p = Ok p' -> built (es ++ E) p'.
Proof.
  revert E p. induction es as [|e es IH]; intros E p B C H; cbn in H; [by injection H as <-|].
  destruct (Apply e p) as [p1 [out|err]] eqn:Ha; [|discriminate].
  assert (B1 : built (e :: E) p1).
  { eapply Apply_built; [done| |done]. eapply consistent_mono; [|exact C]. set_solver. }
  eapply built_ext; [|apply (IH (e :: E) p1 B1); [|done]].
  - set_solver.
  - eapply consistent_mono; [|exact C]. set_solver.
Qed.

Lemma delivered es p : consistent es -> deliver es (New rs) = Ok p -> built es p.
Proof.
  intros C H. rewrite <- (app_nil_r es). eapply deliver_built; [apply built_new|by rewrite app_nil_r|done].
Qed.

(** ** What is read from a projector *)
(** The value the events of an aggregate stand for: for a budget account its
    newest snapshot, otherwise the replay of the versions from the first to the
    last one before a gap. *)
Definition stands_for (es : list DomainEvent) (k : string) (v : Z) (st : string) : Prop :=
  1 <= v /\
  ((exists e, of_key es k v e /\ is_budget e = true /\ st = e_ReplayState (norm e) /\
      forall w x, of_key es k w x -> w <= v) \/
   ((forall e, e ∈ es -> key e = k -> is_budget e = false) /\ replays es k v st /\
      forall x, ~ of_key es k (v + 1) x)).

Lemma snapshot_eq T ty id p :
  Snapshot_of T ty id p =
    let s := stream_of p (aggregateKey T ty id) in
    if version s =? 0 then None else Some (mkSnapshot (version s) (state s)).
Proof.
  unfold Snapshot_of, stream_of. destruct (streams p !! _) as [x|]; cbn; [|done].
  by rewrite EventStoreProps.cloneJSON_id.
Qed.

Lemma replays_end es k v st w st' :
  consistent es -> replays es k v st -> (forall x, ~ of_key es k (v + 1) x) ->
  replays es k w st' -> (forall x, ~ of_key es k (w + 1) x) -> v = w /\ st = st'.
Proof.
  intros C Hv Hnv Hw Hnw. assert (v = w) as <-.
  { destruct (Z.lt_trichotomy v w) as [Hlt|[->|Hlt]]; [|done|].
    - destruct (replays_event _ _ _ _ Hw (v + 1)) as (x & Hx);
        [pose proof (replays_range _ _ _ _ Hv); lia|by destruct (Hnv x)].
    - destruct (replays_event _ _ _ _ Hv (w + 1)) as (x & Hx);
        [pose proof (replays_range _ _ _ _ Hw); lia|by destruct (Hnw x)]. }
  split; [done|]. by eapply replays_det.
Qed.

Lemma snapshot_of_built es p T ty id v st :
  consistent es -> built es p ->
  Snapshot_of T ty id p = Some (mkSnapshot v st) <-> stands_for es (aggregateKey T ty id) v st.
Proof.
  intros C B. rewrite snapshot_eq. cbv zeta. set (k := aggregateKey T ty id). set (s := stream_of p k).
  destruct (decide (Exists (fun e => key e = k /\ is_budget e = true) es)) as [Hx|Hx].
  - apply Exists_exists in Hx as (e & He & Hk & Hb).
    pose proof (bt_budget _ _ B e He Hb) as [Happ _ (x & Hx & Hst) Hall]. rewrite Hk in *. fold s in Happ, Hx, Hst, Hall.
    assert (Hpos : 1 <= version s).
    { destruct Hx as (Hin & _ & <-). by apply (bt_seen _ _ B). }
    rewrite (proj2 (Z.eqb_neq _ _)) by lia. split.
    + intros [= <- <-]. split; [done|]. left. exists x. split_and!; try done.
      unfold is_budget in *. destruct Hx as (Hin & Hkx & _). by rewrite (same_type _ C x e); [|done|done|congruence].
    + intros [_ [(y & Hy & Hby & -> & Hmax)|(Hno & _)]].
      2: { rewrite (Hno e He Hk) in Hb. done. }
      assert (version s = v) as Hv by (pose proof (Hall _ _ Hy); pose proof (Hmax _ _ Hx); lia).
      rewrite Hst, Hv. repeat f_equal. eapply (same_version _ C); [apply Hx|apply Hy|..].
      * destruct Hx as (_ & -> & _), Hy as (_ & -> & _). done.
      * destruct Hx as (_ & _ & ->), Hy as (_ & _ & ->). done.
  - assert (Hno : forall e, e ∈ es -> key e = k -> is_budget e = false).
    { intros e He Hk. apply not_true_iff_false. intros Hb. apply Hx, Exists_exists. eauto. }
    pose proof (bt_stream _ _ B k Hno) as [[Hr _ Hre] Hn]. fold s in Hr, Hre, Hn. split.
    + destruct (Z.eqb_spec (version s) 0) as [|Hz]; [done|]. intros [= <- <-]. split; [lia|]. by right.
    + intros [Hpos [(y & Hy & Hby & _)|(_ & Hre' & Hn')]].
      { destruct Hy as (Hin & Hky & _). rewrite (Hno y Hin Hky) in Hby. done. }
      destruct (replays_end es k (version s) (state s) v st) as [-> ->]; try done.
      by rewrite (proj2 (Z.eqb_neq _ _)) by lia.
Qed.

(** C38: A projector does not depend on the order of delivery.  Events of one
    log, delivered in any order and with any repetitions, leave - if none is
    refused - for each aggregate exactly what they stand for: for a budget
    account the newest snapshot, for any other the replay of its versions in
    order, up to the last one before a gap.  So two deliveries of the same
    events cannot be told apart. *)
Theorem projector_order_free es p :
  consistent es -> deliver es (New rs) = Ok p ->
  (forall T ty id v st, Snapshot_of T ty id p = Some (mkSnapshot v st) <->
     stands_for es (aggregateKey T ty id) v st) /\
  (forall es' p', (forall e, e ∈ es' <-> e ∈ es) -> deliver es' (New rs) = Ok p' ->
     forall T ty id, Snapshot_of T ty id p' = Snapshot_of T ty id p).
Proof.
  intros C Hd. pose proof (delivered _ _ C Hd) as B.
  split; [intros T ty id v st; by apply snapshot_of_built|].
  intros es' p' Hsame Hd' T ty id.
  assert (C' : consistent es') by (eapply consistent_mono; [|exact C]; intros e; apply Hsame).
  assert (B' : built es p') by (eapply built_ext; [exact Hsame|by apply delivered]).
  apply option_eq. intros [v st]. rewrite !(snapshot_of_built es); done.
Qed.
End Props.

(** ** Example: the second event first *)
#[local] Instance sample_decoders : Decoders := {|
  unmarshal_payload _ := None; unmarshal_version _ := None; unmarshal_budget _ := None
|}.
Notation sample_jcs := EventStoreProps.demo_jcs.
Notation sample_sha256 := EventStoreProps.demo_sha256.
Definition sample_reducers : gmap string Reducer :=
  {["task" := StateReducer sample_jcs sample_sha256]}.
Definition sample_event (id : string) (v : Z) (st : string) : DomainEvent :=
  mkDomainEvent id "tn" "p" "task" "t" v "changed" "{}" EventStoreProps.demo_digest 5
    "" "" "" "" "" "" "" "" st EventStoreProps.demo_digest.
Definition sample_delivery : list DomainEvent :=
  [sample_event "e2" 2 "{ }"; sample_event "e1" 1 "{}"; sample_event "e2" 2 "{ }"].
Notation sample_result := (deliver sample_jcs sample_sha256 sample_delivery (New sample_reducers)).

Lemma sample_consistent : consistent sample_delivery.
Proof.
  unfold sample_delivery. split; [intros e e' He He'..|intros e He];
    repeat match goal with H : _ ∈ _ :: _ |- _ => apply elem_of_cons in H as [->|H] end;
    try match goal with H : _ ∈ [] |- _ => by apply not_elem_of_nil in H end;
    intros; first [reflexivity | match goal with H : _ = _ |- _ => discriminate H end | vm_compute; reflexivity].
Qed.

Lemma projector_order_free_witness :
  exists p, sample_result = Ok p /\ Snapshot_of "tn" "task" "t" p = Some (mkSnapshot 2 "{ }") /\
    stands_for sample_jcs sample_sha256 sample_reducers sample_delivery
      (aggregateKey "tn" "task" "t") 2 "{ }".
Proof.
  assert (Hs : match sample_result with Ok p => Snapshot_of "tn" "task" "t" p | Err _ => None end
    = Some (mkSnapshot 2 "{ }")) by (vm_compute; reflexivity).
  destruct sample_result as [p|err] eqn:Hd; [|discriminate Hs]. exists p.
  split; [reflexivity|]. split; [exact Hs|].
  apply (proj1 (projector_order_free sample_jcs sample_sha256 sample_reducers sample_delivery p
    sample_consistent Hd)). exact Hs.
Defined.
End ProjectorProps.
