(* ===== verification/Reconcile.v ===== *)
(** Reconciliation of the stored projections with the event log
    ([internal/projection/replay.go]): the log is replayed into a new projector
    and compared with the projections, aggregate by aggregate.

    [encoding/json]'s encoders of snapshots, inventories and reports are
    parameters.  An event log, a catalogue or a reconciliation source is the
    function of its one method; a nil one, or a nil context, is [None]. *)

From S2P Require Import Prelude GoLib Json Errors EventStore Projector.

Module Reconcile.
Import EventStore Projector.

Inductive DriftKind : Type :=
| DriftMissingOnline | DriftOrphanOnline | DriftVersion | DriftState.
Definition DriftKind_string (k : DriftKind) : string :=
  match k with
  | DriftMissingOnline => "MISSING_ONLINE"
  | DriftOrphanOnline => "ORPHAN_ONLINE"
  | DriftVersion => "VERSION_MISMATCH"
  | DriftState => "STATE_MISMATCH"
  end.

Record ProjectionDrift : Type := mkDrift {
  dr_Kind : DriftKind;
  dr_ProjectID : string;
  dr_AggregateType : string;
  dr_AggregateID : string;
  dr_RebuiltVersion : Z;
  dr_OnlineVersion : Z;
  dr_RebuiltSHA256 : string;
  dr_OnlineSHA256 : string
}.

Record ReconciliationReport : Type := mkReport {
  rr_TenantID : string;
  rr_EventCount : Z;
  rr_RebuiltCount : Z;
  rr_OnlineCount : Z;
  rr_RebuiltSHA256 : string;
  rr_OnlineSHA256 : string;
  rr_Converged : bool;
  rr_Drifts : list ProjectionDrift;
  rr_ReportSHA256 : string
}.
#[global] Instance eta_report : Eta ReconciliationReport := fun r =>
  mkReport (rr_TenantID r) (rr_EventCount r) (rr_RebuiltCount r) (rr_OnlineCount r)
    (rr_RebuiltSHA256 r) (rr_OnlineSHA256 r) (rr_Converged r) (rr_Drifts r) (rr_ReportSHA256 r).

Record projectionInventoryItem : Type := mkItem {
  it_ProjectID : string;
  it_AggregateType : string;
  it_AggregateID : string;
  it_Version : Z;
  it_SHA256 : string
}.
#[export] Instance projectionInventoryItem_eq_dec : EqDecision projectionInventoryItem.
Proof. solve_decision. Defined.

(** What a source answers when it fails. *)
Inductive source_error : Type :=
| ErrRelationalProjectionDrift
| ErrSource (cause : store_error).

Inductive reconcile_error : Type :=
| RCoded (err : Error)
| ErrReplayEvent (eventID : string) (cause : projection_error)
| ErrReplayIncomplete (cause : projection_error)
| ErrLoad (cause : source_error)
| ErrProjectionDrift (report : option ReconciliationReport)
| ErrEncoding.

Class Encoders : Type := {
  marshal_snapshot : Z -> string -> option string;
  marshal_inventory : list projectionInventoryItem -> option string;
  marshal_report : ReconciliationReport -> option string
}.

Definition EventLog : Type := string -> result (list DomainEvent) source_error.
Definition ProjectionCatalog : Type := string -> result (list Projection) source_error.
Definition ReconciliationSource : Type :=
  string -> result (list DomainEvent * list Projection) source_error.

(** The memory store as such a source, under a context that is not done. *)
Definition memory_source (s : MemoryStore) : ReconciliationSource := fun tenantID =>
  match LoadReconciliationSnapshot (Some None) tenantID s with
  | Ok snapshot => Ok snapshot
  | Err e => Err (ErrSource e)
  end.

Section Reconcile.
Context (jcs_Transform : string -> option string) (sha256_Sum256 : string -> list Z).
Context `{decoders : Decoders} `{encoders : Encoders}.
Notation Digest := (CanonicalJson.Digest jcs_Transform sha256_Sum256).
Notation Apply := (Apply jcs_Transform sha256_Sum256).

Definition invalid_argument (scope : string) : reconcile_error := RCoded (scoped CodeInvalidArgument scope).

Definition load_from {A} (r : result A source_error) : result A reconcile_error :=
  match r with Ok a => Ok a | Err e => Err (ErrLoad e) end.

(** ** Replay *)
Fixpoint replay_events (tenantID : string) (es : list DomainEvent) (p : Projector)
    : result Projector reconcile_error :=
  match es with
  | [] => Ok p
  | event :: es =>
      reject RCoded (Errors.New CodeConflict (e_CorrelationID event)
                       {["scope" := AnyString "projection rebuild tenant"]}) when
        e_TenantID event ≠? tenantID ;;
      match Apply event p with
      | (_, Err e) => Err (ErrReplayEvent (e_EventID event) e)
      | (p, Ok _) => replay_events tenantID es p
      end
  end.

Definition rebuildEvents (source : list DomainEvent) (tenantID : string)
    (reducers : gmap string Reducer) : result Projector reconcile_error :=
  let events := sort_slice event_before (map cloneEvent source) in
  projector <-! replay_events tenantID events (New reducers) ;;
  match ensureComplete projector with
  | Err e => Err (ErrReplayIncomplete e)
  | Ok _ => Ok projector
  end.

Definition Rebuild (ctx : option unit) (log : option EventLog) (tenantID : string)
    (reducers : gmap string Reducer) : result Projector reconcile_error :=
  match ctx, log with
  | Some _, Some log =>
      reject invalid_argument "projection rebuild" when tenantID ≟ "" ;;
      events <-! load_from (log tenantID) ;;
      rebuildEvents events tenantID reducers
  | _, _ => Err (invalid_argument "projection rebuild")
  end.

(** ** Inventories *)
(** [Snapshot.Digest]. *)
Definition Snapshot_Digest (s : Snapshot) : result string reconcile_error :=
  reject invalid_argument "projection snapshot" when
    (s_Version s <? 1) || negb (Json.Valid (s_State s)) ;;
  payload <-? marshal_snapshot (s_Version s) (s_State s) else ErrEncoding ;;
  digest <-? Digest payload else ErrEncoding ;;
  Ok digest.

Definition inventory_before (left right : projectionInventoryItem) : bool :=
  if it_AggregateType left ≠? it_AggregateType right
  then String.ltb (it_AggregateType left) (it_AggregateType right)
  else String.ltb (it_AggregateID left) (it_AggregateID right).
Definition sortInventory : list projectionInventoryItem -> list projectionInventoryItem :=
  sort_slice inventory_before.

(** The newest event of each aggregate. *)
Definition newest (tenantID : string) (refs : gmap string DomainEvent) (event : DomainEvent)
    : gmap string DomainEvent :=
  let key := aggregateKey tenantID (e_AggregateType event) (e_AggregateID event) in
  match refs !! key with
  | Some prior =>
      if e_AggregateVersion prior <? e_AggregateVersion event then <[key := event]> refs else refs
  | None => <[key := event]> refs
  end.

Definition rebuilt_item (tenantID : string) (projector : Projector) (ref : DomainEvent)
    : result projectionInventoryItem reconcile_error :=
  match Snapshot_of tenantID (e_AggregateType ref) (e_AggregateID ref) projector with
  | None => Err (RCoded (Errors.New CodeConflict (e_CorrelationID ref)
                   {["scope" := AnyString "rebuilt projection missing"]}))
  | Some snapshot =>
      digest <-! Snapshot_Digest snapshot ;;
      Ok (mkItem (e_ProjectID ref) (e_AggregateType ref) (e_AggregateID ref) (s_Version snapshot) digest)
  end.

(** The loop over the map; an error is that of the first bad aggregate it
    meets. *)
Fixpoint rebuilt_items (tenantID : string) (projector : Projector) (refs : list (string * DomainEvent))
    : result (list (string * projectionInventoryItem)) reconcile_error :=
  match refs with
  | [] => Ok []
  | (key, ref) :: refs =>
      item <-! rebuilt_item tenantID projector ref ;;
      items <-! rebuilt_items tenantID projector refs ;;
      Ok ((key, item) :: items)
  end.

Definition inventory : Type := list projectionInventoryItem * gmap string projectionInventoryItem.
Definition rebuiltInventory (events : list DomainEvent) (projector : Projector) (tenantID : string)
    : result inventory reconcile_error :=
  let refs := foldl (newest tenantID) ∅ events in
  items <-! rebuilt_items tenantID projector (map_to_list refs) ;;
  Ok (sortInventory (map snd items), list_to_map items).

Fixpoint online_items (tenantID : string) (byKey : gmap string projectionInventoryItem)
    (projections : list Projection) : result inventory reconcile_error :=
  match projections with
  | [] => Ok ([], byKey)
  | projection :: projections =>
      reject RCoded (scoped CodeConflict "online projection identity") when
        (p_TenantID projection ≠? tenantID) || (p_ProjectID projection ≟ "")
        || (p_AggregateType projection ≟ "") || (p_AggregateID projection ≟ "") ;;
      digest <-! Snapshot_Digest (mkSnapshot (p_Version projection) (p_State projection)) ;;
      let key := aggregateKey tenantID (p_AggregateType projection) (p_AggregateID projection) in
      reject RCoded (scoped CodeConflict "duplicate online projection") when
        negb (is_nil (byKey !! key)) ;;
      let item := mkItem (p_ProjectID projection) (p_AggregateType projection)
        (p_AggregateID projection) (p_Version projection) digest in
      rest <-! online_items tenantID (<[key := item]> byKey) projections ;;
      Ok (item :: rest.1, rest.2)
  end.
Definition onlineInventory (projections : list Projection) (tenantID : string)
    : result inventory reconcile_error :=
  items <-! online_items tenantID ∅ projections ;;
  Ok (sortInventory items.1, items.2).

Definition inventoryDigest (items : list projectionInventoryItem) : result string reconcile_error :=
  payload <-? marshal_inventory items else ErrEncoding ;;
  digest <-? Digest payload else ErrEncoding ;;
  Ok digest.
Definition reconciliationDigest (report : ReconciliationReport) : result string reconcile_error :=
  payload <-? marshal_report (report ⟦ rr_ReportSHA256 := "" ⟧) else ErrEncoding ;;
  digest <-? Digest payload else ErrEncoding ;;
  Ok digest.

(** ** The comparison *)
Definition drift_of (expected actual : option projectionInventoryItem) : option ProjectionDrift :=
  match expected, actual with
  | None, None => None
  | None, Some actual =>
      Some (mkDrift DriftOrphanOnline (it_ProjectID actual) (it_AggregateType actual)
        (it_AggregateID actual) 0 (it_Version actual) "" (it_SHA256 actual))
  | Some expected, None =>
      Some (mkDrift DriftMissingOnline (it_ProjectID expected) (it_AggregateType expected)
        (it_AggregateID expected) (it_Version expected) 0 (it_SHA256 expected) "")
  | Some expected, Some actual =>
      let drift kind := mkDrift kind (it_ProjectID expected) (it_AggregateType expected)
        (it_AggregateID expected) (it_Version expected) (it_Version actual) (it_SHA256 expected)
        (it_SHA256 actual) in
      if negb (it_Version expected =? it_Version actual) then Some (drift DriftVersion) else
      if it_SHA256 expected ≠? it_SHA256 actual then Some (drift DriftState) else None
  end.

Definition all_keys (rebuilt online : gmap string projectionInventoryItem) : list string :=
  sort_slice String.ltb
    (map fst (map_to_list rebuilt)
     ++ List.filter (fun key => is_nil (rebuilt !! key)) (map fst (map_to_list online))).
Definition drifts (rebuilt online : gmap string projectionInventoryItem) : list ProjectionDrift :=
  omap (fun key => drift_of (rebuilt !! key) (online !! key)) (all_keys rebuilt online).

Definition reconcileLoaded (events : list DomainEvent) (online : list Projection)
    (tenantID : string) (reducers : gmap string Reducer)
    : result ReconciliationReport reconcile_error :=
  rebuilt <-! rebuildEvents events tenantID reducers ;;
  rebuiltItems <-! rebuiltInventory events rebuilt tenantID ;;
  onlineItems <-! onlineInventory online tenantID ;;
  rebuiltSHA256 <-! inventoryDigest rebuiltItems.1 ;;
  onlineSHA256 <-! inventoryDigest onlineItems.1 ;;
  let found := drifts rebuiltItems.2 onlineItems.2 in
  let report := mkReport tenantID (Z.of_nat (length events)) (Z.of_nat (length rebuiltItems.1))
    (Z.of_nat (length onlineItems.1)) rebuiltSHA256 onlineSHA256
    (Nat.eqb (length found) 0 && (rebuiltSHA256 ≟ onlineSHA256)) found "" in
  digest <-! reconciliationDigest report ;;
  Ok (report ⟦ rr_ReportSHA256 := digest ⟧).

Definition Reconcile (ctx : option unit) (log : option EventLog) (catalog : option ProjectionCatalog)
    (tenantID : string) (reducers : gmap string Reducer) : result ReconciliationReport reconcile_error :=
  match ctx, log, catalog with
  | Some _, Some log, Some catalog =>
      reject invalid_argument "projection reconciliation" when tenantID ≟ "" ;;
      events <-! load_from (log tenantID) ;;
      online <-! load_from (catalog tenantID) ;;
      reconcileLoaded events online tenantID reducers
  | _, _, _ => Err (invalid_argument "projection reconciliation")
  end.

(** Replay with the state bound to each event. *)
Fixpoint durable_reducers (reducers : gmap string Reducer) (events : list DomainEvent)
    : result (gmap string Reducer) reconcile_error :=
  match events with
  | [] => Ok reducers
  | event :: events =>
      reject RCoded (Errors.New CodeConflict (e_CorrelationID event)
                       {["scope" := AnyString "reconciliation aggregate type"]}) when
        e_AggregateType event ≟ "" ;;
      durable_reducers (<[e_AggregateType event := AuthoritativeStateReducer jcs_Transform sha256_Sum256]> reducers) events
  end.

Definition reconcileDurableSnapshot (snapshot : list DomainEvent * list Projection) (tenantID : string)
    : result ReconciliationReport reconcile_error :=
  reducers <-! durable_reducers ∅ snapshot.1 ;;
  reconcileLoaded snapshot.1 snapshot.2 tenantID reducers.

Definition ReconcileDurable (ctx : option unit) (source : option ReconciliationSource)
    (tenantID : string) : result ReconciliationReport reconcile_error :=
  match ctx, source with
  | Some _, Some source =>
      reject invalid_argument "durable projection reconciliation" when tenantID ≟ "" ;;
      snapshot <-! load_from (source tenantID) ;;
      reconcileDurableSnapshot snapshot tenantID
  | _, _ => Err (invalid_argument "durable projection reconciliation")
  end.

Definition verifyDurableSnapshot (snapshot : list DomainEvent * list Projection) (tenantID : string)
    : result ReconciliationReport reconcile_error :=
  report <-! reconcileDurableSnapshot snapshot tenantID ;;
  reject ErrProjectionDrift (Some report) when negb (rr_Converged report) ;;
  Ok report.

Definition VerifyDurable (ctx : option unit) (source : option ReconciliationSource)
    (tenantID : string) : result ReconciliationReport reconcile_error :=
  match ctx, source with
  | Some _, Some source =>
      reject invalid_argument "durable projection verification" when tenantID ≟ "" ;;
      match source tenantID with
      | Err ErrRelationalProjectionDrift => Err (ErrProjectionDrift None)
      | Err e => Err (ErrLoad e)
      | Ok snapshot => verifyDurableSnapshot snapshot tenantID
      end
  | _, _ => Err (invalid_argument "durable projection verification")
  end.
End Reconcile.
End Reconcile.
