(* ===== verification/ReconcileProps.v ===== *)
(** The event log and the projections of a store agree: reconciling any
    reachable store finds no drift, and a store that passes the verification
    holds, for each aggregate, what its newest event says. *)

From S2P Require Import Prelude GoLib Runs Json Errors EventStore EventStoreProps Projector ProjectorProps Reconcile.

Module ReconcileProps.
Import EventStore Projector ProjectorProps Reconcile.

(** ** The order of the log *)
Lemma lex_eq (a b : string) (c : bool) :
  (if a ≠? b then String.ltb a b else c) = String.ltb a b || (negb (String.ltb b a) && c).
Proof.
  case_bool_decide as H; cbn.
  - subst. by rewrite string_ltb_irrefl.
  - destruct (string_ltb_total a b) as [Hl|[?|Hl]]; [by rewrite Hl|done|].
    rewrite Hl, (string_ltb_asym _ _ Hl). done.
Qed.

Definition by_identity (x y : DomainEvent) : bool :=
  (fun x y => String.ltb (e_AggregateType x) (e_AggregateType y)) x y
  || (negb (String.ltb (e_AggregateType y) (e_AggregateType x))
      && ((fun x y => String.ltb (e_AggregateID x) (e_AggregateID y)) x y
          || (negb (String.ltb (e_AggregateID y) (e_AggregateID x))
              && ((fun x y => e_AggregateVersion x <? e_AggregateVersion y) x y
                  || (negb (e_AggregateVersion y <? e_AggregateVersion x)
                      && String.ltb (e_EventID x) (e_EventID y)))))).

Lemma event_before_eq x y : event_before x y = by_identity x y.
Proof.
  unfold event_before, by_identity. rewrite !lex_eq. do 4 f_equal.
  destruct (Z.eqb_spec (e_AggregateVersion x) (e_AggregateVersion y)) as [->|Hne]; cbn.
  - by rewrite Z.ltb_irrefl.
  - destruct (Z.ltb_spec (e_AggregateVersion x) (e_AggregateVersion y)); [done|].
    by rewrite (proj2 (Z.ltb_lt _ _)) by lia.
Qed.

Lemma event_order : strict_order event_before.
Proof.
  assert (H : strict_order by_identity).
  { unfold by_identity.
    apply (order_lex (fun x y => String.ltb (e_AggregateType x) (e_AggregateType y)));
      [apply (order_by e_AggregateType), string_order|].
    apply (order_lex (fun x y => String.ltb (e_AggregateID x) (e_AggregateID y)));
      [apply (order_by e_AggregateID), string_order|].
    apply (order_lex (fun x y => e_AggregateVersion x <? e_AggregateVersion y));
      [apply (order_by e_AggregateVersion), Z_order|]. apply (order_by e_EventID), string_order. }
  split; intros *; rewrite !event_before_eq; apply H.
Qed.

Lemma inventory_order : strict_order inventory_before.
Proof.
  pose proof (order_lex (fun x y => String.ltb (it_AggregateType x) (it_AggregateType y))
    (fun x y => String.ltb (it_AggregateID x) (it_AggregateID y))
    (order_by it_AggregateType _ string_order) (order_by it_AggregateID _ string_order)) as [Ha Ht].
  split; intros *; unfold inventory_before; rewrite !lex_eq; [apply Ha|apply Ht].
Qed.

Lemma event_before_version x y :
  e_AggregateType x = e_AggregateType y -> e_AggregateID x = e_AggregateID y ->
  e_AggregateVersion x < e_AggregateVersion y -> event_before x y = true.
Proof.
  intros Ht Hi Hv. unfold event_before. rewrite Ht, Hi, !bool_decide_eq_true_2 by done. cbn.
  rewrite (proj2 (Z.eqb_neq _ _)) by lia. cbn. by apply Z.ltb_lt.
Qed.

(** Comparison by identity tells different aggregates apart. *)
Lemma inventory_tie x y :
  inventory_before x y = false -> inventory_before y x = false ->
  it_AggregateType x = it_AggregateType y /\ it_AggregateID x = it_AggregateID y.
Proof.
  unfold inventory_before. case_bool_decide as H; cbn.
  - rewrite (bool_decide_eq_true_2 (it_AggregateType y = _)) by done. cbn. intros H1 H2. split; [done|].
    destruct (string_ltb_total (it_AggregateID x) (it_AggregateID y)) as [?|[?|?]]; congruence.
  - rewrite (bool_decide_eq_false_2 (it_AggregateType y = _)) by congruence. cbn. intros H1 H2.
    destruct (string_ltb_total (it_AggregateType x) (it_AggregateType y)) as [?|[?|?]]; congruence.
Qed.

Lemma elem_snoc {A} (x y : A) l : x ∈ l ++ [y] <-> x ∈ l \/ x = y.
Proof. by rewrite elem_of_app, list_elem_of_singleton. Qed.

(** The newest event of every aggregate. *)
Lemma newest_spec T es : (forall e, e ∈ es -> e_TenantID e = T) ->
  forall k, match foldl (newest T) ∅ es !! k with
            | Some e => e ∈ es /\ key e = k /\ forall x, x ∈ es -> key x = k -> e_AggregateVersion x <= e_AggregateVersion e
            | None => forall x, x ∈ es -> key x <> k
            end.
Proof.
  induction es as [|e es IH] using rev_ind; intros HT k.
  { cbn. rewrite lookup_empty. by intros x Hx%not_elem_of_nil. }
  rewrite foldl_app. cbn [foldl]. assert (He : e_TenantID e = T) by (apply HT; set_solver).
  assert (HI : forall x, x ∈ es -> e_TenantID x = T) by (intros; apply HT; set_solver).
  specialize (IH HI). pose proof (IH k) as IHk. pose proof (IH (key e)) as IHe. unfold newest at 1. cbv zeta.
  rewrite <- He. change (aggregateKey (e_TenantID e) (e_AggregateType e) (e_AggregateID e)) with (key e).
  rewrite He. set (m := foldl (newest T) ∅ es) in *.
  destruct (decide (key e = k)) as [Hk|Hk].
  - rewrite Hk in *. destruct (m !! k) as [x|] eqn:Hm.
    + destruct IHk as (Hx & Hkx & Hmax). destruct (Z.ltb_spec (e_AggregateVersion x) (e_AggregateVersion e)).
      * rewrite lookup_insert_eq. split; [set_solver|split; [done|]].
        intros y [Hy| ->]%elem_snoc Hky; [specialize (Hmax y Hy Hky); lia|lia].
      * rewrite Hm. split; [set_solver|split; [done|]].
        intros y [Hy| ->]%elem_snoc Hky; [by apply Hmax|lia].
    + rewrite lookup_insert_eq. split; [set_solver|split; [done|]].
      intros y [Hy| ->]%elem_snoc Hky; [by destruct (IHk y)|lia].
  - assert (Hsame : (match m !! key e with Some prior => if e_AggregateVersion prior <? e_AggregateVersion e
                       then <[key e:=e]> m else m | None => <[key e:=e]> m end) !! k = m !! k).
    { destruct (m !! key e); [destruct (_ <? _)|]; by rewrite ?lookup_insert_ne. }
    rewrite Hsame. destruct (m !! k) as [x|].
    + destruct IHk as (Hx & Hkx & Hmax). split; [set_solver|split; [done|]].
      intros y [Hy| ->]%elem_snoc Hky; [by apply Hmax|done].
    + intros y [Hy| ->]%elem_snoc; [by apply IHk|done].
Qed.

Lemma no_drift m : drifts m m = [].
Proof.
  unfold drifts. generalize (all_keys m m). induction l as [|k l IH]; [done|]. cbn. rewrite IH.
  destruct (m !! k) as [it|]; cbn; [|done]. by rewrite Z.eqb_refl, bool_decide_eq_true_2 by done.
Qed.

Section Props.
Context (jcs_Transform : string -> option string) (sha256_Sum256 : string -> list Z).
Context `{decoders : Decoders} `{encoders : Encoders}.
Notation Digest := (CanonicalJson.Digest jcs_Transform sha256_Sum256).
Notation validateEvent := (validateEvent jcs_Transform sha256_Sum256).
Notation Authoritative := (AuthoritativeStateReducer jcs_Transform sha256_Sum256).
Notation prepare := (prepare jcs_Transform sha256_Sum256).
Notation Execute := (Execute jcs_Transform sha256_Sum256).
Notation store_step := (EventStoreProps.store_step jcs_Transform sha256_Sum256).
Notation replay_events := (replay_events jcs_Transform sha256_Sum256).
Notation Apply := (Apply jcs_Transform sha256_Sum256).

(** ** What the store keeps about its events *)
(** An event with its state sealed in. *)
Record sealed (e : DomainEvent) : Prop := {
  sl_fields : e_EventID e <> "" /\ e_TenantID e <> "" /\ e_ProjectID e <> "" /\ e_Type e <> "" /\
    len (e_Payload e) <> 0;
  sl_payload : Digest (e_Payload e) = Some (e_PayloadSHA256 e);
  sl_state : Authoritative "" e = Ok (e_ReplayState e)
}.
(** The newest event of a projection. *)
Record projected (s : MemoryStore) (k : string) (p : Projection) : Prop := {
  pj_key : k = aggregateKey (p_TenantID p) (p_AggregateType p) (p_AggregateID p);
  pj_fields : p_ProjectID p <> "" /\ p_AggregateType p <> "" /\ p_AggregateID p <> "";
  pj_event : exists e, EventStoreProps.stored s e /\ EventStoreProps.key_of e = k /\
    e_AggregateVersion e = p_Version p /\ e_ReplayState e = p_State p /\ e_ProjectID e = p_ProjectID p
}.
Record kept (s : MemoryStore) : Prop := {
  kp_event id e : events s !! id = Some e -> sealed e;
  kp_projection k p : projections s !! k = Some p -> projected s k p
}.

Lemma hex_digest_nonempty x d : Digest x = Some d -> d <> "".
Proof.
  unfold CanonicalJson.Digest. destruct (CanonicalJson.Canonicalize _ x); [|done]. by intros [= <-].
Qed.

Lemma is_object_nonempty x : Json.is_object x = true -> (len x =? 0) = false.
Proof. intros H. destruct x; [by vm_compute in H|]. apply Z.eqb_neq. unfold len. cbn [String.length]. lia. Qed.

Lemma valid_nonempty x : Json.Valid x = true -> len x <> 0.
Proof. intros H. destruct x; [by vm_compute in H|]. unfold len. cbn [String.length]. lia. Qed.

Lemma update_fields T us m m' :
  validate_updates T m us = Ok m' ->
  forall u, u ∈ us -> u_ProjectID u <> "" /\ u_AggregateType u <> "" /\ u_AggregateID u <> "".
Proof.
  revert m. induction us as [|u us IH]; intros m H; cbn in H; [by intros u Hu%not_elem_of_nil|].
  destruct (_ || _) eqn:G in H; [discriminate|]. destruct (m !! _) in H; [discriminate|].
  intros v [->|Hv]%elem_of_cons; [by go_bool|by eapply IH].
Qed.

Lemma event_fields T updates es se sa sa' :
  validate_events T updates se sa es = Ok sa' ->
  forall e, e ∈ es -> exists u, updates !! event_key T e = Some u /\
    e_EventID e <> "" /\ e_TenantID e = u_TenantID u /\ e_ProjectID e = u_ProjectID u /\
    e_Type e <> "" /\ Json.Valid (e_Payload e) = true.
Proof.
  revert se sa. induction es as [|e es IH]; intros se sa H; cbn in H; [by intros e He%not_elem_of_nil|].
  destruct (updates !! event_key T e) as [u|] eqn:Hu; [|discriminate].
  destruct (_ || _) eqn:G in H; [discriminate|].
  intros x [->|Hx]%elem_of_cons; [|by eapply IH]. exists u. by go_bool.
Qed.

Lemma digest_fields es x : validate_digests jcs_Transform sha256_Sum256 es = Ok x ->
  forall e, e ∈ es -> Digest (e_Payload e) = Some (e_PayloadSHA256 e).
Proof.
  induction es as [|e es IH]; intros H; cbn in H; [by intros e He%not_elem_of_nil|].
  destruct (negb _) eqn:G in H; [discriminate|].
  intros y [->|Hy]%elem_of_cons; [by go_bool|by apply IH].
Qed.

Lemma bind_sealed states es es' :
  bind_events jcs_Transform sha256_Sum256 states es = Ok es' ->
  forall e', e' ∈ es' -> Authoritative "" e' = Ok (e_ReplayState e') /\
    exists e st d, e ∈ es /\ e' = e ⟦ e_ReplayState := st ⟧ ⟦ e_ReplayStateSHA256 := d ⟧.
Proof.
  revert es'. induction es as [|e es IH]; intros es' H; cbn in H.
  { apply Ok_inj in H as <-. by intros x Hx%not_elem_of_nil. }
  destruct (states !! _) as [st|]; [|discriminate]. apply rbind_ok in H as (b & Hb & H).
  apply rbind_ok in H as (rest & Hrest & H). apply Ok_inj in H as <-.
  intros x [->|Hx]%elem_of_cons.
  - unfold bindReplayState in Hb. destruct (negb _) eqn:Ho in Hb; [discriminate|].
    destruct (Digest st) as [d|] eqn:Hd; [|discriminate]. apply Ok_inj in Hb as <-. go_bool.
    rewrite EventStoreProps.cloneJSON_id. split; [|exists e, st, d; split; [by left|done]].
    unfold AuthoritativeStateReducer. cbn. rewrite Ho, Hd. cbn.
    rewrite bool_decide_eq_false_2 by (by eapply hex_digest_nonempty).
    by rewrite bool_decide_eq_true_2, EventStoreProps.cloneJSON_id.
  - destruct (IH _ Hrest x Hx) as (? & e0 & st0 & d0 & He0 & ->). split; [done|].
    exists e0, st0, d0. split; [by right|done].
Qed.

(** The events of a prepared request are sealed and belong to its updates. *)
Lemma prepared_sealed request s request' :
  prepare request s = Ok request' ->
  (forall u, u ∈ q_Updates request' -> u_ProjectID u <> "" /\ u_AggregateType u <> "" /\ u_AggregateID u <> "") /\
  forall e, e ∈ q_Events request' -> sealed e /\
    exists u, u ∈ q_Updates request' /\ update_key (q_TenantID request') u = event_key (q_TenantID request') e /\
      e_ProjectID e = u_ProjectID u.
Proof.
  unfold EventStore.prepare. intros H. apply rbind_ok in H as ([] & Hv & H).
  apply rbind_ok in H as (es & Hb & H). cbn in H.
  do 4 apply rbind_ok in H as ([] & _ & H). apply Ok_inj in H as <-. cbn.
  unfold EventStore.validateTransaction in Hv. destruct (_ || _) eqn:G0 in Hv; [discriminate|].
  apply rbind_ok in Hv as (m & Hu & Hv). apply rbind_ok in Hv as (sa & He & Hv).
  destruct (negb _) in Hv; [discriminate|]. destruct (negb _) in Hv; [discriminate|].
  destruct (negb _) in Hv; [discriminate|]. apply rbind_ok in Hv as ([] & Hd & _).
  split; [by eapply update_fields|]. intros e' He'.
  destruct (bind_sealed _ _ _ Hb e' He') as (Hst & e & st & d & Hin & ->).
  destruct (event_fields _ _ _ _ _ _ He e Hin) as (u & Hku & Hid & HT & HP & Hty & Hj).
  pose proof (EventStoreProps.validate_updates_spec _ _ _ _ Hu) as (HuT & _ & _ & Hm).
  apply Hm in Hku as [Hku|[Hin' Hku]]; [by rewrite lookup_empty in Hku|].
  destruct (HuT u Hin') as [HuT' _]. destruct (update_fields _ _ _ _ Hu u Hin') as (HuP & _).
  split.
  - split; cbn; [|by eapply digest_fields|done]. split_and!; try done.
    + rewrite HT, HuT'. by go_bool.
    + congruence.
    + by apply valid_nonempty.
  - exists u. split; [done|]. split; [by rewrite <- Hku|]. cbn. congruence.
Qed.

Lemma commit_kept request s :
  EventStoreProps.prepared (q_TenantID request) (q_Updates request) (q_Events request) s ->
  (forall u, u ∈ q_Updates request -> u_ProjectID u <> "" /\ u_AggregateType u <> "" /\ u_AggregateID u <> "") ->
  (forall e, e ∈ q_Events request -> sealed e /\
    exists u, u ∈ q_Updates request /\ update_key (q_TenantID request) u = event_key (q_TenantID request) e /\
      e_ProjectID e = u_ProjectID u) ->
  kept s -> kept (fst (commit request s)).
Proof.
  intros P Hf Hs [He Hp]. destruct (EventStoreProps.commit_fields request s) as (Hproj & _).
  split.
  - intros id e [[Hin _]|Hold]%(EventStoreProps.event_origin _ _ P); [by apply Hs|by eapply He].
  - intros k p Hk. rewrite Hproj in Hk.
    apply foldl_insert_inv in Hk as [(u & Hu & -> & ->)|[Hni Hk]];
      [| |apply (EventStoreProps.pr_update_keys _ _ _ _ P)].
    + destruct (EventStoreProps.pr_update _ _ _ _ P u Hu) as (HuT & _).
      destruct (EventStoreProps.pr_cover _ _ _ _ P u Hu) as (e & Hin & Hke).
      split; cbn; [by unfold update_key; rewrite HuT|by apply Hf|].
      exists e. destruct (EventStoreProps.pr_event _ _ _ _ P e Hin) as (HeT & _ & _ & u' & Hu' & Hk' & Hv' & Hst').
      destruct (Hs e Hin) as (_ & u2 & Hu2 & Hk2 & HP2).
      assert (u' = u) as -> by (eapply EventStoreProps.NoDup_map_inv; [apply P|done..|congruence]).
      assert (u2 = u) as -> by (eapply EventStoreProps.NoDup_map_inv; [apply P|done..|congruence]).
      split_and!; [by eapply EventStoreProps.event_committed|unfold EventStoreProps.key_of; congruence|done..].
    + destruct (Hp _ _ Hk) as [Hkey Hfld (e & Hst & Hke)]. split; [done|done|].
      exists e. split; [by eapply EventStoreProps.event_kept|done].
Qed.

Lemma with_failure_kept s f : kept s -> kept (s ⟦ failure := f ⟧).
Proof. intros [He Hp]. split; [exact He|]. intros k p H. by destruct (Hp k p H). Qed.

Lemma execute_kept request s : kept s -> kept (fst (Execute request s)).
Proof.
  intros K. destruct (EventStoreProps.Execute_cases jcs_Transform sha256_Sum256 request s)
    as [(r & -> & _)|(request' & Hp & _ & Hc)]; [done|].
  destruct (prepared_sealed _ _ _ Hp) as [Hf Hs].
  apply EventStoreProps.prepared_request in Hp as (HT & _ & _ & _ & Hu & _ & _ & P). cbv zeta in Hc.
  assert (Kc : kept (fst (commit request' s))) by (apply commit_kept; done).
  destruct Hc as [(_ & ->)|[(_ & ->)|(_ & ->)]]; cbn [fst]; auto using with_failure_kept.
Qed.

(** No other command touches the events or the projections. *)
Lemma step_contents s c s' : store_step s c = Some s' ->
  (exists request, s' = fst (Execute request s)) \/
  (events s' = events s /\ projections s' = projections s).
Proof.
  unfold EventStoreProps.store_step. destruct (EventStoreProps.env_ok s c); [|discriminate]. intros [= <-].
  destruct c as [request|point|ctx t now limit lease|ctx t id n at_|ctx t id n at_];
    cbn [EventStoreProps.apply]; [left; by eexists|right..].
  - done.
  - unfold ClaimOutbox. destruct ctx; [done|]. by destruct (_ || _).
  - unfold MarkOutboxPublished. destruct ctx; [done|]. repeat case_match; done.
  - unfold RetryOutbox. destruct ctx; [done|]. repeat case_match; done.
Qed.

Lemma step_kept s c s' : kept s -> store_step s c = Some s' -> kept s'.
Proof.
  intros K [(request & ->)|[He Hp]]%step_contents; [by apply execute_kept|].
  destruct K as [K1 K2]. split; [by rewrite He|]. rewrite Hp. intros k p H.
  destruct (K2 k p H) as [? ? (e & Hst & ?)]. split; [done|done|]. exists e.
  unfold EventStoreProps.stored in *. by rewrite He.
Qed.

Lemma store_run_kept cs s : run store_step NewMemoryStore cs s -> kept s.
Proof.
  intros Hr. apply (run_preserves store_step kept step_kept _ _ _ Hr).
  split; cbn; intros *; by rewrite lookup_empty.
Qed.

(** ** The log of a tenant *)
(** Tenants and aggregate types without the NUL byte that separates the parts
    of a key. *)
Record named (s : MemoryStore) : Prop := {
  nm_event id e : events s !! id = Some e ->
    no_nul (e_TenantID e) = true /\ no_nul (e_AggregateType e) = true;
  nm_projection k p : projections s !! k = Some p ->
    no_nul (p_TenantID p) = true /\ no_nul (p_AggregateType p) = true
}.

Definition tenant_events (T : string) (s : MemoryStore) : list DomainEvent :=
  List.filter (fun e => e_TenantID e ≟ T) (values (events s)).
Definition tenant_projections (T : string) (s : MemoryStore) : list Projection :=
  List.filter (fun p => p_TenantID p ≟ T) (values (projections s)).

Lemma filter_elem {A} (f : A -> bool) l x : x ∈ List.filter f l <-> x ∈ l /\ f x = true.
Proof. rewrite !list_elem_of_In. apply filter_In. Qed.

Lemma values_NoDup {A} (f : A -> string) (m : gmap string A) :
  (forall k x, m !! k = Some x -> f x = k) -> NoDup (values m).
Proof.
  intros H. apply (NoDup_fmap_1 f). unfold values.
  assert (Heq : f <$> map snd (map_to_list m) = (map_to_list m).*1).
  { change (map f (map snd (map_to_list m)) = map fst (map_to_list m)). rewrite map_map.
    apply map_ext_in. intros [k x] Hin%list_elem_of_In%elem_of_map_to_list. by apply H. }
  rewrite Heq. apply NoDup_fst_map_to_list.
Qed.

Lemma filter_NoDup {A} (f : A -> bool) l : NoDup l -> NoDup (List.filter f l).
Proof.
  induction 1 as [|x l Hni _ IH]; cbn; [constructor|]. destruct (f x); [|done].
  constructor; [|done]. by intros [? _]%filter_elem.
Qed.

Lemma snapshot_loaded T s : T <> "" ->
  LoadReconciliationSnapshot (Some None) T s =
    Ok (sort_slice event_before (tenant_events T s), sort_slice projection_before (tenant_projections T s)).
Proof.
  intros HT. unfold LoadReconciliationSnapshot. rewrite bool_decide_eq_false_2 by done.
  rewrite EventStoreProps.cloneEvents_id.
  assert (Hc : forall l, map cloneProjection l = l).
  { intros l. rewrite <- (map_id l) at 2. apply map_ext. intros []. unfold cloneProjection. cbn.
    by rewrite EventStoreProps.cloneJSON_id. }
  by rewrite Hc.
Qed.

Section Store.
Context (s : MemoryStore) (T : string).
Context (W : EventStoreProps.wf s) (K : kept s) (P : named s).
Notation E := (tenant_events T s).

Lemma tenant_event e : e ∈ E <-> EventStoreProps.stored s e /\ e_TenantID e = T.
Proof.
  unfold tenant_events, EventStoreProps.stored. rewrite filter_elem, EventStoreProps.values_elem, bool_decide_eq_true. split.
  - intros [[id He] ?]. by destruct (EventStoreProps.wf_event _ W _ _ He) as [<- _].
  - intros [? ?]. eauto.
Qed.

Lemma tenant_projection p : p ∈ tenant_projections T s <->
  projections s !! aggregateKey T (p_AggregateType p) (p_AggregateID p) = Some p /\ p_TenantID p = T.
Proof.
  unfold tenant_projections. rewrite filter_elem, EventStoreProps.values_elem, bool_decide_eq_true. split.
  - intros [[k Hp] <-]. destruct (kp_projection _ K _ _ Hp) as [Hk _ _]. by rewrite <- Hk.
  - intros [? ?]. eauto.
Qed.

(** The projection an event moved. *)
Lemma event_projection e : e ∈ E -> exists p, projections s !! key e = Some p /\
  p_TenantID p = T /\ p_AggregateType p = e_AggregateType e /\ p_AggregateID p = e_AggregateID e /\
  1 <= e_AggregateVersion e <= p_Version p.
Proof.
  intros [Hst HT]%tenant_event. destruct (EventStoreProps.wf_event _ W _ _ Hst) as (_ & _ & p & Hp & Hv).
  change (EventStoreProps.key_of e) with (key e) in Hp. exists p. split; [done|].
  destruct (kp_projection _ K _ _ Hp) as [Hk _ _]. destruct (nm_event _ P _ _ Hst) as [? ?].
  destruct (nm_projection _ P _ _ Hp) as [? ?].
  apply EventStoreProps.aggregateKey_inj in Hk as (? & ? & ?); [|done..]. split_and!; congruence || lia.
Qed.

Lemma same_key e e' : e ∈ E -> e' ∈ E -> key e = key e' ->
  e_AggregateType e = e_AggregateType e' /\ e_AggregateID e = e_AggregateID e'.
Proof.
  intros [Hst _]%tenant_event [Hst' _]%tenant_event Hk.
  destruct (nm_event _ P _ _ Hst) as [? ?], (nm_event _ P _ _ Hst') as [? ?].
  by apply EventStoreProps.aggregateKey_inj in Hk as (_ & ? & ?).
Qed.

Lemma log_consistent : consistent E.
Proof.
  split.
  - intros e e' [Hst _]%tenant_event [Hst' _]%tenant_event Hid.
    unfold EventStoreProps.stored in *. rewrite Hid in Hst. congruence.
  - intros e e' He He' Hk Hv. destruct (same_key e e' He He' Hk) as [Hty Hid].
    apply tenant_event in He as [Hst HT], He' as [Hst' HT'].
    destruct (EventStoreProps.wf_event _ W _ _ Hst) as (_ & Hver & _).
    destruct (EventStoreProps.wf_event _ W _ _ Hst') as (_ & Hver' & _).
    unfold event_version_key in *. rewrite Hty, Hid, Hv, HT in Hver. rewrite HT' in Hver'.
    rewrite Hver in Hver'. injection Hver' as Hids. unfold EventStoreProps.stored in *. congruence.
  - intros e e' He He' Hk. by apply same_key.
  - intros e He. destruct (event_projection e He) as (p & Hp & _ & _ & _ & Hv).
    destruct (EventStoreProps.wf_projection _ W _ _ Hp) as [? _]. lia.
Qed.

Lemma log_NoDup : NoDup E.
Proof.
  apply filter_NoDup, (values_NoDup e_EventID). intros k x H. by apply (EventStoreProps.wf_event _ W).
Qed.

(** All the versions of an aggregate, up to its projection's. *)
Lemma log_versions k p v : projections s !! k = Some p -> p_TenantID p = T -> 1 <= v <= p_Version p ->
  exists e, of_key E k v e /\ (v = p_Version p -> e_ReplayState e = p_State p).
Proof.
  intros Hp HT Hv. destruct (EventStoreProps.wf_projection _ W _ _ Hp) as [_ Hall].
  destruct (Hall v Hv) as (e & Hst & Hk & Hve & Hs). exists e. split; [|done]. split; [|done].
  apply tenant_event. split; [done|]. destruct (kp_projection _ K _ _ Hp) as [Hk' _ _].
  destruct (nm_event _ P _ _ Hst) as [? ?], (nm_projection _ P _ _ Hp) as [? ?].
  rewrite Hk' in Hk. unfold EventStoreProps.key_of, event_key in Hk.
  apply EventStoreProps.aggregateKey_inj in Hk as (? & _); [congruence|done..].
Qed.

Lemma log_valid e : e ∈ E -> exists f, validateEvent e = Ok f.
Proof.
  intros He. destruct (event_projection e He) as (p & Hp & _ & Hty & Hid & Hv).
  destruct (kp_projection _ K _ _ Hp) as [_ (_ & Htn & Hin) _]. apply tenant_event in He as [Hst _].
  destruct (kp_event _ K _ _ Hst) as [(? & ? & ? & ? & ?) Hd Ha]. unfold Projector.validateEvent.
  unfold AuthoritativeStateReducer in Ha. accepted Ha. go_bool.
  rewrite !bool_decide_eq_false_2 by congruence. rewrite (proj2 (Z.ltb_ge _ _)) by lia.
  rewrite (proj2 (Z.eqb_neq _ _)) by done. cbn.
  rewrite (bool_decide_eq_true_2 (Digest (e_Payload e) = _)) by done. cbn.
  rewrite is_object_nonempty by done. cbn.
  rewrite (bool_decide_eq_false_2 (e_ReplayStateSHA256 e = "")) by done. cbn. by eexists.
Qed.

(** *** A tenant with a budget account *)
(** An account's first event is at version 1, which no snapshot has: the
    version before it is at least 1. *)
Lemma budget_refused e p : (forall x b, unmarshal_budget x = Some b -> in_int64 (b_PreviousVersion b)) ->
  e ∈ E -> e_AggregateType e = "budget" -> e_AggregateVersion e = 1 -> eventIDs p !! e_EventID e = None ->
  exists err, Apply e p = (p, Err err).
Proof.
  intros Hint He Hty Hv Hid. destruct (log_valid e He) as [f Hf]. apply tenant_event in He as [Hst _].
  destruct (kp_event _ K _ _ Hst) as [_ _ Ha]. unfold Projector.Apply, with_snapshot.
  assert (Hlen : (len (e_ReplayState e) =? 0) = false).
  { unfold AuthoritativeStateReducer in Ha. accepted Ha. go_bool. by apply is_object_nonempty. }
  rewrite Hlen, andb_false_r, Hf, Hid, Hty. change ("budget" ≟ "budget") with true. cbv iota.
  unfold applyBudgetSnapshotLocked. destruct (_ || _); [by eexists|]. rewrite Ha.
  assert (Hbad : match unmarshal_budget (e_ReplayState e) with Some b => snapshot_bad e b | None => true end = true).
  { destruct (unmarshal_budget (e_ReplayState e)) as [b|] eqn:Hb; [|done]. apply Hint in Hb.
    apply not_false_iff_true. unfold snapshot_bad. intros H. go_bool.
    unfold wrap64, in_int64, two63, two64 in *.
    destruct (decide (b_PreviousVersion b = two63 - 1)) as [Heq|Hne]; unfold two63 in *.
    - match goal with G : _ `mod` _ - _ = b_Version b |- _ =>
        assert (b_Version b = -9223372036854775808) by (rewrite <- G, Heq; reflexivity) end. lia.
    - rewrite Z.mod_small in * by lia. lia. }
  rewrite Hbad. by eexists.
Qed.

Lemma replay_refuses rs l2 l1 p e :
  ProjectorProps.built jcs_Transform sha256_Sum256 rs l1 p -> (forall x, x ∈ l1 ++ l2 -> x ∈ E) -> e ∈ l2 -> e ∉ l1 ->
  (forall p, eventIDs p !! e_EventID e = None -> exists err, Apply e p = (p, Err err)) ->
  exists err, replay_events T l2 p = Err err.
Proof.
  intros B Hsub Hin Hni Href. revert l1 p B Hsub Hni Hin.
  induction l2 as [|x l2 IH]; intros l1 p B Hsub Hni Hin; [by apply not_elem_of_nil in Hin|].
  cbn [Reconcile.replay_events]. destruct (negb _); [by eexists|].
  destruct (Apply x p) as [p' [out|err]] eqn:Ha; [|by eexists].
  assert (C : consistent (x :: l1)).
  { eapply consistent_mono; [|exact log_consistent]. intros y Hy. apply Hsub. set_solver. }
  destruct (decide (e = x)) as [<-|Hne].
  - exfalso. destruct (Href p) as [err Herr]; [|by rewrite Herr in Ha].
    destruct (eventIDs p !! e_EventID e) eqn:Hid; [exfalso|done].
    destruct (bt_ids _ _ _ _ _ B (e_EventID e)) as (y & Hy & Hye); [by eexists|].
    apply Hni. by rewrite (same_id _ C e y); [|by left|by right|].
  - apply (IH (x :: l1)); [by eapply Apply_built|..|set_solver].
    + intros y Hy. apply Hsub. set_solver.
    + set_solver.
Qed.

(** *** Replaying the log in its order *)
Context (NB : forall e, e ∈ E -> e_AggregateType e <> "budget").

Lemma log_state e : e ∈ E -> is_budget e = false.
Proof. intros He. unfold is_budget. by apply bool_decide_eq_false, NB. Qed.

Notation built := (built jcs_Transform sha256_Sum256).
Context (rs : gmap string Reducer).
Context (Hrs : forall e, e ∈ E -> rs !! e_AggregateType e = Some Authoritative).

Lemma authoritative e st : e ∈ E -> Authoritative st e = Ok (e_ReplayState e) /\ Json.Valid (e_ReplayState e) = true.
Proof.
  intros [Hst _]%tenant_event. destruct (kp_event _ K _ _ Hst) as [_ _ Ha]. split; [exact Ha|].
  unfold AuthoritativeStateReducer in Ha. accepted Ha. go_bool.
  unfold Json.is_object in *. by go_bool.
Qed.

(** The next version of an aggregate is applied at once. *)
Lemma apply_next L p e :
  built rs L p -> consistent (e :: L) -> e ∉ L -> e ∈ E ->
  (forall v, 1 <= v < e_AggregateVersion e -> exists x, of_key L (key e) v x) ->
  (forall v x, of_key L (key e) v x -> v < e_AggregateVersion e) ->
  (forall x, x ∈ L -> x ∈ E) -> exists p' out, Apply e p = (p', Ok out).
Proof.
  intros B C Hni He Hbelow Habove Hsub. pose proof (log_state e He) as Hb.
  destruct (log_valid e He) as [f Hf]. unfold Projector.Apply, with_snapshot.
  unfold is_budget in Hb. rewrite Hb. cbn [andb]. rewrite Hf.
  destruct (eventIDs p !! e_EventID e) as [prior|] eqn:Hid.
  { exfalso. destruct (bt_ids _ _ _ _ _ B (e_EventID e)) as (x & Hx & Hxid); [by eexists|].
    apply Hni. by rewrite (same_id _ C e x); [|by left|by right|]. }
  rewrite Hb, (bt_reducers _ _ _ _ _ B), (Hrs e He).
  assert (Hst : stream_ok rs L (key e) (stream_of p (key e))).
  { apply (bt_stream _ _ _ _ _ B). intros x Hx _. by apply log_state, Hsub. }
  destruct Hst as [[Hr Hp Hre] Hn]. unfold applyVersion.
  change (aggregateKey (e_TenantID e) (e_AggregateType e) (e_AggregateID e)) with (key e). cbv zeta.
  set (st := stream_of p (key e)) in *.
  assert (Hv : version st + 1 = e_AggregateVersion e).
  { assert (Hlt : version st < e_AggregateVersion e).
    { destruct (decide (1 <= version st)) as [H1|H1].
      - destruct (replays_event _ _ _ _ _ Hre (version st)) as (x & Hx); [lia|]. by eapply Habove.
      - pose proof (proj2 (validate_fields _ _ _ _ Hf)). lia. }
    destruct (decide (version st + 1 < e_AggregateVersion e)); [|lia].
    destruct (Hbelow (version st + 1)) as (x & Hx); [lia|by destruct (Hn x)]. }
  assert (Hempty : pending st = ∅).
  { apply map_empty. intros v. destruct (pending st !! v) as [x|] eqn:Hx; [|done].
    apply Hp in Hx as [? Hx]. apply Habove in Hx. lia. }
  rewrite (proj2 (Z.leb_gt _ _)) by lia. rewrite Hempty, lookup_empty, map_size_empty.
  change (maxPendingPerAggregate <=? Z.of_nat 0) with false. cbn [andb].
  change (pending (st ⟦ pending := _ ⟧)) with ({[e_AggregateVersion e := cloneEvent e]} : gmap Z DomainEvent).
  rewrite map_size_singleton. cbn [drain].
  change (pending (st ⟦ pending := _ ⟧)) with ({[e_AggregateVersion e := cloneEvent e]} : gmap Z DomainEvent).
  change (version (st ⟦ pending := _ ⟧)) with (version st).
  assert (Hrange : e_AggregateVersion e < two63) by (apply (in_range _ C); by left).
  rewrite wrap64_id by (unfold in_int64, two63 in *; lia). rewrite Hv, lookup_singleton_eq.
  rewrite !EventStoreProps.cloneEvent_id. destruct (authoritative e (cloneJSON (state st)) He) as [Ha Hj].
  change (state (st ⟦ pending := _ ⟧)) with (state st). rewrite Ha, Hj. cbn [negb]. by do 2 eexists.
Qed.

Lemma sorted_before l1 e l2 x :
  StronglySorted (not_after event_before) (l1 ++ e :: l2) -> x ∈ e :: l2 -> x <> e ->
  event_before x e = false.
Proof.
  intros H Hx Hne. apply StronglySorted_app_1_r in H. inversion H as [|? ? _ Hall]; subst.
  apply elem_of_cons in Hx as [->|Hx]; [done|]. rewrite Forall_forall in Hall. by apply Hall.
Qed.
Lemma sorted_after l1 e l2 x :
  StronglySorted (not_after event_before) (l1 ++ e :: l2) -> x ∈ l1 -> event_before e x = false.
Proof.
  intros H Hx. induction l1 as [|y l1 IH]; [by apply not_elem_of_nil in Hx|].
  cbn in H. inversion H as [|? ? Hs Hall]; subst. apply elem_of_cons in Hx as [->|Hx]; [|by apply IH].
  rewrite Forall_forall in Hall. apply Hall. apply elem_of_app. right. by left.
Qed.

Lemma replay_sorted l2 l1 p :
  StronglySorted (not_after event_before) (l1 ++ l2) -> (l1 ++ l2) ≡ₚ E -> built rs l1 p ->
  exists p', replay_events T l2 p = Ok p' /\ built rs (l1 ++ l2) p'.
Proof.
  revert l1 p. induction l2 as [|e l2 IH]; intros l1 p Hs Hp B.
  { exists p. rewrite app_nil_r. done. }
  assert (HinE : forall x, x ∈ l1 ++ e :: l2 <-> x ∈ E) by (intros x; by rewrite Hp).
  assert (He : e ∈ E) by (apply HinE; set_solver).
  assert (Hnd : NoDup (l1 ++ e :: l2)) by (rewrite Hp; apply (log_NoDup)).
  assert (Hni : e ∉ l1).
  { apply NoDup_app in Hnd as (_ & Hd & _). intros Hin. apply (Hd e Hin). by left. }
  assert (C : consistent (e :: l1)).
  { eapply consistent_mono; [|exact log_consistent]. intros x Hx. apply HinE. set_solver. }
  destruct (apply_next l1 p e B C Hni He) as (p1 & out & Ha).
  - intros v Hv. destruct (event_projection e He) as (q & Hq & HqT & _ & _ & Hle).
    destruct (log_versions _ q v Hq HqT) as (x & (Hx & Hkx & Hvx) & _); [lia|].
    exists x. split; [|done]. pose proof Hx as HxE. apply HinE in Hx.
    apply elem_of_app in Hx as [Hx|Hx]; [done|]. exfalso.
    destruct (same_key x e HxE He Hkx) as [Hty Hid].
    assert (Hb : event_before x e = true) by (apply event_before_version; [done|done|lia]).
    rewrite (sorted_before l1 e l2 x) in Hb; [done|done|done|]. intros ->. lia.
  - intros v x (Hx & Hkx & <-). assert (HxE : x ∈ E) by (apply HinE; set_solver).
    destruct (same_key x e HxE He Hkx) as [Hty Hid].
    destruct (Z.lt_trichotomy (e_AggregateVersion x) (e_AggregateVersion e)) as [?|[Heq|Hlt]]; [done| |].
    + exfalso. apply Hni. by rewrite (same_version _ C e x); [|by left|by right|..].
    + pose proof (sorted_after l1 e l2 x Hs Hx) as Hb. rewrite event_before_version in Hb; done.
  - intros x Hx. apply HinE. set_solver.
  - cbn [Reconcile.replay_events]. apply tenant_event in He as [_ HT].
    rewrite bool_decide_eq_true_2 by done. cbn [negb]. rewrite Ha.
    destruct (IH (l1 ++ [e]) p1) as (p' & Hp' & B').
    + by rewrite <- app_assoc.
    + by rewrite <- app_assoc.
    + eapply built_ext; [|by eapply Apply_built]. set_solver.
    + exists p'. split; [done|]. by rewrite <- app_assoc in B'.
Qed.

(** ** The two inventories of a tenant *)
(** Encoding a snapshot whose state has a digest. *)
Context (Hmarshal : forall v st d, Digest st = Some d ->
  exists x d', marshal_snapshot v st = Some x /\ Digest x = Some d').

Lemma replay_complete l p : l ≡ₚ E -> built rs l p -> ensureComplete p = Ok tt.
Proof.
  intros Hl B. unfold ensureComplete. destruct (existsb _ _) eqn:Hex; [exfalso|done].
  apply existsb_exists in Hex as (st & Hin%list_elem_of_In%EventStoreProps.values_elem & Hsz).
  destruct Hin as [k Hk]. destruct (decide (Exists (fun e => key e = k) l)) as [Hx|Hx].
  2: { rewrite (bt_fresh _ _ _ _ _ B) in Hk; [done|]. intros e He Heq. apply Hx, Exists_exists. eauto. }
  assert (Hs : stream_ok rs l k st).
  { replace st with (stream_of p k) by (unfold stream_of; by rewrite Hk).
    apply (bt_stream _ _ _ _ _ B). intros e He _. apply log_state. by rewrite <- Hl. }
  destruct Hs as [[Hr Hp _] Hn].
  destruct (decide (pending st = ∅)) as [He|He]; [rewrite He, map_size_empty in Hsz; done|].
  apply map_choose in He as (v & e & Hve). apply Hp in Hve as (Hlt & Hin & Hke & Hv).
  rewrite Hl in Hin. destruct (event_projection e Hin) as (q & Hq & HqT & _ & _ & Hle).
  destruct (log_versions _ q (version st + 1) Hq HqT) as (x & (Hxin & Hkx & Hvx) & _); [lia|].
  apply (Hn x). split_and!; [by rewrite Hl|congruence|done].
Qed.

Lemma rebuilt : exists p l, rebuildEvents jcs_Transform sha256_Sum256 (sort_slice event_before E) T rs = Ok p /\
  l ≡ₚ E /\ built rs l p.
Proof.
  unfold rebuildEvents. rewrite EventStoreProps.cloneEvents_id.
  set (l := sort_slice event_before (sort_slice event_before E)).
  assert (Hl : l ≡ₚ E) by (unfold l; by rewrite !sort_slice_Permutation).
  destruct (replay_sorted l [] (New rs)) as (p & Hp & B).
  - apply sort_slice_sorted, event_order.
  - exact Hl.
  - apply built_new.
  - rewrite Hp. cbn [rbind]. rewrite (replay_complete l p Hl B). by exists p, l.
Qed.

Notation ps := (tenant_projections T s).
Notation Snapshot_Digest := (Snapshot_Digest jcs_Transform sha256_Sum256).
Definition projection_key (p : Projection) : string :=
  aggregateKey T (p_AggregateType p) (p_AggregateID p).
Definition digest_of (p : Projection) : string :=
  match Snapshot_Digest (mkSnapshot (p_Version p) (p_State p)) with Ok d => d | Err _ => "" end.
Definition item_of (p : Projection) : projectionInventoryItem :=
  mkItem (p_ProjectID p) (p_AggregateType p) (p_AggregateID p) (p_Version p) (digest_of p).

Lemma projection_newest p : p ∈ ps -> exists e, e ∈ E /\ key e = projection_key p /\
  e_AggregateType e = p_AggregateType p /\ e_AggregateID e = p_AggregateID p /\
  e_AggregateVersion e = p_Version p /\ e_ReplayState e = p_State p /\ e_ProjectID e = p_ProjectID p.
Proof.
  intros [Hp HT]%tenant_projection. destruct (kp_projection _ K _ _ Hp) as [_ _ (e & Hst & Hk & Hv & Hs & HP)].
  exists e. change (EventStoreProps.key_of e) with (key e) in Hk.
  destruct (nm_event _ P _ _ Hst) as [? ?], (nm_projection _ P _ _ Hp) as [? ?].
  pose proof Hk as (HeT & ? & ?)%EventStoreProps.aggregateKey_inj; [|congruence|congruence|done|done].
  split_and!; try done. by apply tenant_event.
Qed.

Lemma projection_digest p : p ∈ ps -> Snapshot_Digest (mkSnapshot (p_Version p) (p_State p)) = Ok (digest_of p).
Proof.
  intros Hp. destruct (projection_newest p Hp) as (e & He & _ & _ & _ & Hv & Hs & _).
  apply tenant_projection in Hp as [Hp _]. destruct (EventStoreProps.wf_projection _ W _ _ Hp) as [Hpos _].
  destruct (authoritative e "" He) as [Ha Hj]. unfold AuthoritativeStateReducer in Ha. accepted Ha. go_bool.
  unfold digest_of, Reconcile.Snapshot_Digest. cbn. rewrite (proj2 (Z.ltb_ge _ _)) by lia. rewrite <- Hs, Hj. cbn.
  destruct (Hmarshal (p_Version p) (e_ReplayState e) (e_ReplayStateSHA256 e)) as (x & d & Hx & Hd); [congruence|].
  by rewrite Hx, Hd.
Qed.

Lemma rebuilt_snapshot l q p : l ≡ₚ E -> built rs l q -> p ∈ ps ->
  Snapshot_of T (p_AggregateType p) (p_AggregateID p) q = Some (mkSnapshot (p_Version p) (p_State p)).
Proof.
  intros Hl B Hp. destruct (projection_newest p Hp) as (e & He & Hke & _ & _ & Hve & Hse & _).
  apply tenant_projection in Hp as [Hp HT]. destruct (EventStoreProps.wf_projection _ W _ _ Hp) as [Hpos _].
  fold (projection_key p) in Hp. rewrite snapshot_eq. cbv zeta. fold (projection_key p).
  set (k := projection_key p) in *. set (st := stream_of q k).
  assert (Hs : stream_ok rs l k st).
  { apply (bt_stream _ _ _ _ _ B). intros x Hx _. apply log_state. by rewrite <- Hl. }
  destruct Hs as [[Hr _ Hre] Hn]. assert (Hbound : forall v x, of_key l k v x -> v <= p_Version p).
  { intros v x (Hx & Hkx & <-). rewrite Hl in Hx. destruct (event_projection x Hx) as (p' & Hp' & _ & _ & _ & ?).
    rewrite Hkx in Hp'. assert (p' = p) as -> by congruence. lia. }
  assert (Hv : version st = p_Version p).
  { destruct (Z.lt_trichotomy (version st) (p_Version p)) as [Hlt|[?|Hgt]]; [exfalso|done|exfalso].
    - destruct (log_versions k p (version st + 1) Hp HT) as (x & (Hx & ? & ?) & _); [lia|].
      apply (Hn x). split_and!; [by rewrite Hl|done|done].
    - destruct (replays_event _ _ _ _ _ Hre (version st)) as (x & Hx); [lia|]. specialize (Hbound _ _ Hx). lia. }
  rewrite (proj2 (Z.eqb_neq _ _)) by lia. do 2 f_equal; [done|].
  destruct Hre as [|v st' x r st'' Hre Hx Hkx Hvx Hrx Hred _]; [lia|].
  rewrite Hl in Hx. pose proof (eq_trans (eq_sym (Hrs x Hx)) Hrx) as [= <-].
  destruct (authoritative x st' Hx) as [Ha _]. rewrite Ha in Hred. injection Hred as <-.
  rewrite <- Hse. f_equal. apply (same_version _ log_consistent); [done|done|congruence|lia].
Qed.

(** The two loops list the same items. *)
Definition item_at (k : string) : projectionInventoryItem :=
  match projections s !! k with Some p => item_of p | None => mkItem "" "" "" 0 "" end.

Lemma rebuilt_item_of l q k e : l ≡ₚ E -> built rs l q ->
  foldl (newest T) ∅ (sort_slice event_before E) !! k = Some e ->
  rebuilt_item jcs_Transform sha256_Sum256 T q e = Ok (item_at k) /\
    exists p, p ∈ ps /\ k = projection_key p.
Proof.
  intros Hl B Hk. pose proof (newest_spec T (sort_slice event_before E)) as Hspec.
  specialize (Hspec ltac:(intros x Hx; rewrite sort_slice_Permutation in Hx; by apply tenant_event in Hx as [_ ?]) k).
  rewrite Hk in Hspec. destruct Hspec as (He & Hke & Hmax). rewrite sort_slice_Permutation in He.
  destruct (event_projection e He) as (p & Hp & HpT & Hty & Hid & Hle). rewrite Hke in Hp.
  assert (Hkp : projection_key p = k).
  { unfold projection_key. rewrite Hty, Hid. apply tenant_event in He as [_ HeT]. by rewrite <- Hke, <- HeT. }
  assert (Hin : p ∈ ps).
  { apply tenant_projection. split; [|done]. change (projections s !! projection_key p = Some p). by rewrite Hkp. }
  split; [|eauto]. destruct (projection_newest p Hin) as (e' & He' & Hke' & _ & _ & Hve' & _ & HP').
  assert (e' = e) as <-.
  { apply (same_version _ log_consistent); [done|done|congruence|].
    assert (e_AggregateVersion e' <= e_AggregateVersion e); [|lia].
    apply Hmax; [by rewrite sort_slice_Permutation|congruence]. }
  unfold rebuilt_item, item_at. rewrite <- Hty, <- Hid, (rebuilt_snapshot l q p Hl B Hin).
  rewrite (projection_digest p Hin), Hp, HP'. reflexivity.
Qed.

Lemma rebuilt_items_all q refs :
  (forall k e, (k, e) ∈ refs -> rebuilt_item jcs_Transform sha256_Sum256 T q e = Ok (item_at k)) ->
  rebuilt_items jcs_Transform sha256_Sum256 T q refs = Ok (map (fun k => (k, item_at k)) (map fst refs)).
Proof.
  induction refs as [|[k e] refs IH]; intros H; cbn; [done|].
  rewrite (H k e) by set_solver. cbn. rewrite IH; [done|]. intros k' e' Hin. apply H. set_solver.
Qed.

Lemma online_items_all l byKey :
  (forall p, p ∈ l -> p ∈ ps) -> NoDup (map projection_key l) ->
  (forall p, p ∈ l -> byKey !! projection_key p = None) ->
  exists m, online_items jcs_Transform sha256_Sum256 T byKey l = Ok (map item_of l, m) /\
    forall k it, m !! k = Some it <-> byKey !! k = Some it \/ exists p, p ∈ l /\ projection_key p = k /\ it = item_of p.
Proof.
  revert byKey. induction l as [|p l IH]; intros byKey Hl Hnd Hfree.
  { exists byKey. split; [done|]. intros k it. split; [by left|]. by intros [?|(p & Hp%not_elem_of_nil & _)]. }
  cbn [map] in Hnd. apply NoDup_cons in Hnd as [Hni Hnd]. assert (Hp : p ∈ ps) by (apply Hl; by left).
  pose proof Hp as [Hpr HT]%tenant_projection. destruct (kp_projection _ K _ _ Hpr) as [_ (HP & Hty & Hid) _].
  assert (Hfresh : byKey !! projection_key p = None) by (apply Hfree; by left).
  destruct (IH (<[projection_key p := item_of p]> byKey)) as (m & Hm & Hlook).
  - intros x Hx. apply Hl. by right.
  - done.
  - intros x Hx. rewrite lookup_insert_ne; [apply Hfree; by right|]. intros Heq. apply Hni.
    rewrite Heq. by apply list_elem_of_fmap_2.
  - exists m. split.
    + cbn. rewrite HT, !bool_decide_eq_true_2, !bool_decide_eq_false_2 by done. cbn.
      rewrite (projection_digest p Hp). cbn. fold (projection_key p). rewrite Hfresh. cbn.
      fold (item_of p). by rewrite Hm.
    + intros k it. rewrite Hlook, lookup_insert_Some. setoid_rewrite elem_of_cons. split.
      * intros [[[<- <-]|[_ ?]]|(x & ? & ? & ?)]; [right; exists p; auto|by left|right; exists x; auto].
      * intros [Hk|(x & [->|Hx] & Hkx & ->)].
        -- left. right. split; [|done]. intros Heq. congruence.
        -- left. left. done.
        -- right. by exists x.
Qed.

Lemma projection_keys_NoDup : NoDup (map projection_key (sort_slice projection_before ps)).
Proof.
  assert (Hnd : NoDup (sort_slice projection_before ps)).
  { rewrite sort_slice_Permutation. apply filter_NoDup, (values_NoDup (fun p =>
      aggregateKey (p_TenantID p) (p_AggregateType p) (p_AggregateID p))).
    intros k p Hp. symmetry. apply (kp_projection _ K _ _ Hp). }
  apply NoDup_fmap_2_strong; [|done].
  intros x y Hx Hy Heq. rewrite sort_slice_Permutation in Hx, Hy.
  apply tenant_projection in Hx as [Hx _], Hy as [Hy _]. unfold projection_key in Heq. congruence.
Qed.

Lemma item_at_key p : p ∈ ps -> item_at (projection_key p) = item_of p.
Proof. intros [Hp _]%tenant_projection. unfold item_at. fold (projection_key p) in Hp. by rewrite Hp. Qed.

(** The aggregates with events are those with a projection. *)
Notation refs := (foldl (newest T) ∅ (sort_slice event_before E)).
Notation online := (sort_slice projection_before ps).

Lemma newest_keys l q : l ≡ₚ E -> built rs l q -> map fst (map_to_list refs) ≡ₚ map projection_key online.
Proof.
  intros Hl B. apply NoDup_Permutation; [apply NoDup_fst_map_to_list|apply projection_keys_NoDup|]. intros k.
  rewrite !list_elem_of_fmap. split.
  - intros ([k' e] & -> & He%elem_of_map_to_list). destruct (rebuilt_item_of l q k' e Hl B He) as (_ & p & Hp & ->).
    exists p. by rewrite sort_slice_Permutation.
  - intros (p & -> & Hp). rewrite sort_slice_Permutation in Hp.
    destruct (projection_newest p Hp) as (e & He & Hke & _).
    pose proof (newest_spec T (sort_slice event_before E)) as Hspec.
    specialize (Hspec ltac:(intros x Hx; rewrite sort_slice_Permutation in Hx; by apply tenant_event in Hx as [_ ?])
      (projection_key p)). destruct (refs !! projection_key p) as [x|] eqn:Hx.
    + exists (projection_key p, x). split; [done|]. by apply elem_of_map_to_list.
    + destruct (Hspec e); [by rewrite sort_slice_Permutation|done].
Qed.

Lemma same_items keys : keys ≡ₚ map projection_key online ->
  sortInventory (map item_at keys) = sortInventory (map item_of online).
Proof.
  intros Hkeys. assert (Hitems : map item_at keys ≡ₚ map item_of online).
  { rewrite Hkeys, map_map. apply Permutation_refl', map_ext_in. intros p Hp%list_elem_of_In.
    apply item_at_key. by rewrite sort_slice_Permutation in Hp. }
  unfold sortInventory. apply sort_slice_unique; [apply inventory_order| |exact Hitems].
  intros x y Hx Hy Hxy Hyx. destruct (inventory_tie x y Hxy Hyx) as [Hty Hid].
  rewrite Hitems in Hx, Hy. apply list_elem_of_fmap in Hx as (p & -> & Hp), Hy as (p' & -> & Hp').
  cbn in Hty, Hid. rewrite sort_slice_Permutation in Hp, Hp'.
  apply tenant_projection in Hp as [Hp _], Hp' as [Hp' _]. rewrite Hty, Hid in Hp. congruence.
Qed.

Lemma same_index keys (m : gmap string projectionInventoryItem) :
  NoDup keys -> keys ≡ₚ map projection_key online ->
  (forall k it, m !! k = Some it <-> exists p, p ∈ online /\ projection_key p = k /\ it = item_of p) ->
  list_to_map (map (fun k => (k, item_at k)) keys) = m.
Proof.
  intros Hnd Hkeys Hlook. apply map_eq. intros k. apply option_eq. intros it. rewrite Hlook.
  rewrite <- elem_of_list_to_map by (rewrite <- list_fmap_compose; change (NoDup (map (fun k => k) keys)); by rewrite map_id).
  rewrite list_elem_of_fmap. split.
  - intros (k' & [= <- ->] & Hk). rewrite Hkeys in Hk. apply list_elem_of_fmap in Hk as (p & -> & Hp).
    exists p. split_and!; [done|done|]. apply item_at_key. by rewrite sort_slice_Permutation in Hp.
  - intros (p & Hp & <- & ->). exists (projection_key p).
    rewrite item_at_key by (by rewrite sort_slice_Permutation in Hp). split; [done|]. rewrite Hkeys.
    by apply list_elem_of_fmap_2.
Qed.

(** The inventories are the same. *)
Lemma inventories : exists q items m,
  rebuildEvents jcs_Transform sha256_Sum256 (sort_slice event_before E) T rs = Ok q /\
  rebuiltInventory jcs_Transform sha256_Sum256 (sort_slice event_before E) q T = Ok (items, m) /\
  onlineInventory jcs_Transform sha256_Sum256 online T = Ok (items, m) /\
  length items = length ps.
Proof.
  destruct rebuilt as (q & l & Hq & Hl & B). pose proof (newest_keys l q Hl B) as Hkeys.
  destruct (online_items_all online ∅) as (m & Hm & Hlook).
  { intros p. by rewrite sort_slice_Permutation. }
  { apply projection_keys_NoDup. }
  { intros p _. apply lookup_empty. }
  exists q, (sortInventory (map item_of online)), m. split_and!.
  - exact Hq.
  - unfold rebuiltInventory. rewrite rebuilt_items_all.
    2: { intros k e He%elem_of_map_to_list. by apply (rebuilt_item_of l q k e Hl B He). }
    cbn [rbind]. rewrite (map_map (fun k => (k, item_at k)) snd).
    etransitivity; [|exact (f_equal (fun i => Ok (i, m)) (same_items _ Hkeys))]. do 2 f_equal.
    apply same_index; [apply NoDup_fst_map_to_list|exact Hkeys|]. intros k it. rewrite Hlook, lookup_empty.
    split; [by intros [?|?]|by right].
  - unfold onlineInventory. by rewrite Hm.
  - unfold sortInventory. rewrite sort_slice_Permutation, length_map, sort_slice_Permutation. done.
Qed.

End Store.

Lemma durable_reducers_all es rs0 :
  (forall e, e ∈ es -> e_AggregateType e <> "") ->
  exists rs, durable_reducers jcs_Transform sha256_Sum256 rs0 es = Ok rs /\
    (forall k, rs0 !! k = Some Authoritative -> rs !! k = Some Authoritative) /\
    forall e, e ∈ es -> rs !! e_AggregateType e = Some Authoritative.
Proof.
  revert rs0. induction es as [|e es IH]; intros rs0 H.
  { exists rs0. split_and!; [done|done|]. by intros e He%not_elem_of_nil. }
  destruct (IH (<[e_AggregateType e := Authoritative]> rs0)) as (rs & Hrs & Hold & Hnew).
  { intros x Hx. apply H. by right. }
  exists rs. split_and!.
  - cbn. by rewrite bool_decide_eq_false_2 by (apply H; by left).
  - intros k Hk. apply Hold. destruct (decide (e_AggregateType e = k)) as [->|]; [by rewrite lookup_insert_eq|].
    by rewrite lookup_insert_ne.
  - intros x [->|Hx]%elem_of_cons; [|by apply Hnew]. apply Hold. by rewrite lookup_insert_eq.
Qed.

(** What the encoders do on the values of a reconciliation: an inventory and a
    report always encode, and so does a snapshot whose state is canonical. *)
Record encodes : Prop := {
  en_snapshot v st d : Digest st = Some d -> exists x d', marshal_snapshot v st = Some x /\ Digest x = Some d';
  en_inventory items : exists x d, marshal_inventory items = Some x /\ Digest x = Some d;
  en_report report : exists x d, marshal_report report = Some x /\ Digest x = Some d
}.

Lemma store_converges cs s T :
  encodes -> run store_step NewMemoryStore cs s -> named s -> T <> "" ->
  (forall e, e ∈ tenant_events T s -> e_AggregateType e <> "budget") ->
  exists report,
    VerifyDurable jcs_Transform sha256_Sum256 (Some tt) (Some (memory_source s)) T = Ok report /\
    rr_Converged report = true /\ rr_Drifts report = [] /\
    rr_EventCount report = Z.of_nat (length (tenant_events T s)) /\
    rr_RebuiltCount report = Z.of_nat (length (tenant_projections T s)) /\
    rr_OnlineCount report = rr_RebuiltCount report /\
    rr_OnlineSHA256 report = rr_RebuiltSHA256 report.
Proof.
  intros [Hsnap Hinv Hrep] Hr P HT NB.
  pose proof (EventStoreProps.store_run_wf jcs_Transform sha256_Sum256 _ _ Hr) as W. pose proof (store_run_kept _ _ Hr) as K.
  destruct (durable_reducers_all (sort_slice event_before (tenant_events T s)) ∅) as (rs & Hrs & _ & Hall).
  { intros e He. rewrite sort_slice_Permutation in He. destruct (event_projection s T W K P e He) as (p & Hp & _ & <- & _).
    by destruct (kp_projection _ K _ _ Hp) as [_ (_ & ? & _) _]. }
  assert (Hall' : forall e, e ∈ tenant_events T s -> rs !! e_AggregateType e = Some Authoritative).
  { intros e He. apply Hall. by rewrite sort_slice_Permutation. }
  destruct (inventories s T W K P NB rs Hall' Hsnap) as (q & items & m & Hq & Hre & Hon & Hlen).
  destruct (Hinv items) as (x & d & Hx & Hd).
  unfold VerifyDurable. rewrite bool_decide_eq_false_2 by done. unfold memory_source.
  rewrite snapshot_loaded by done. unfold verifyDurableSnapshot, reconcileDurableSnapshot. cbn [fst snd].
  rewrite Hrs. cbn [rbind]. unfold reconcileLoaded. rewrite Hq. cbn [rbind]. rewrite Hre. cbn [rbind].
  rewrite Hon. cbn [rbind]. unfold inventoryDigest. cbn [fst snd]. rewrite Hx, Hd. cbn [rbind]. cbv zeta.
  rewrite no_drift, (bool_decide_eq_true_2 (d = d)) by done. unfold reconciliationDigest.
  match goal with |- context [marshal_report ?r] => destruct (Hrep r) as (y & d' & Hy & Hd') end.
  rewrite Hy, Hd'. cbn. eexists. split; [reflexivity|]. cbn. rewrite sort_slice_Permutation, Hlen. done.
Qed.
(** A tenant with a budget account in the log never passes. *)
Lemma store_refused cs s T e :
  (forall x b, unmarshal_budget x = Some b -> in_int64 (b_PreviousVersion b)) ->
  run store_step NewMemoryStore cs s -> named s -> T <> "" ->
  e ∈ tenant_events T s -> e_AggregateType e = "budget" ->
  exists err, VerifyDurable jcs_Transform sha256_Sum256 (Some tt) (Some (memory_source s)) T = Err err.
Proof.
  intros Hint Hr P HT He Hty.
  pose proof (EventStoreProps.store_run_wf jcs_Transform sha256_Sum256 _ _ Hr) as W. pose proof (store_run_kept _ _ Hr) as K.
  destruct (event_projection s T W K P e He) as (p & Hp & HpT & _ & _ & Hle).
  destruct (log_versions s T W K P (key e) p 1 Hp HpT) as (e1 & (He1 & Hk1 & Hv1) & _); [lia|].
  destruct (same_key s T W P e1 e He1 He Hk1) as [Hty1 _].
  unfold VerifyDurable. rewrite bool_decide_eq_false_2 by done. unfold memory_source.
  rewrite snapshot_loaded by done. unfold verifyDurableSnapshot, reconcileDurableSnapshot. cbn [fst snd].
  destruct (durable_reducers _ _ _ _) as [rs|]; [|by eexists]. cbn [rbind]. unfold reconcileLoaded, rebuildEvents.
  rewrite EventStoreProps.cloneEvents_id.
  destruct (replay_refuses s T W K P rs (sort_slice event_before (sort_slice event_before (tenant_events T s)))
    [] (New rs) e1) as [err Herr].
  - apply built_new.
  - intros x. by rewrite app_nil_l, !sort_slice_Permutation.
  - by rewrite !sort_slice_Permutation.
  - by apply not_elem_of_nil.
  - intros q Hq. apply (budget_refused s T W K P); [done|done|congruence|done|done].
  - rewrite Herr. by eexists.
Qed.
End Props.
End ReconcileProps.
