(* ===== verification/ReconcileSound.v ===== *)
(** What a reconciliation that reports no drift establishes about the stored
    projections, and, with the theorem on the store's own log, that a store of
    the program always passes it. *)

From S2P Require Import Prelude GoLib Runs Json Errors EventStore EventStoreProps Projector ProjectorProps Reconcile ReconcileProps.

Module ReconcileSound.
Import EventStore Projector ProjectorProps Reconcile ReconcileProps.

Section Sound.
Context (jcs_Transform : string -> option string) (sha256_Sum256 : string -> list Z).
Context `{decoders : Decoders} `{encoders : Encoders}.
Notation Snapshot_Digest := (Snapshot_Digest jcs_Transform sha256_Sum256).
Notation digest_of := (digest_of jcs_Transform sha256_Sum256).
Notation item_of := (item_of jcs_Transform sha256_Sum256).
Notation Authoritative := (AuthoritativeStateReducer jcs_Transform sha256_Sum256).
Notation norm := (norm jcs_Transform sha256_Sum256).
Notation deliver := (deliver jcs_Transform sha256_Sum256).
Notation built := (built jcs_Transform sha256_Sum256).

(** The newest event of an aggregate. *)
Definition newest_event (es : list DomainEvent) (k : string) (e : DomainEvent) : Prop :=
  e ∈ es /\ key e = k /\ forall x, x ∈ es -> key x = k -> e_AggregateVersion x <= e_AggregateVersion e.

(** ** Replay *)
Lemma replay_deliver T es p q :
  replay_events jcs_Transform sha256_Sum256 T es p = Ok q ->
  deliver es p = Ok q /\ forall e, e ∈ es -> e_TenantID e = T.
Proof.
  revert p. induction es as [|e es IH]; intros p H; cbn in H |- *.
  { apply Ok_inj in H as ->. split; [done|]. by intros e He%not_elem_of_nil. }
  destruct (negb _) eqn:G in H; [discriminate|]. go_bool.
  destruct (Projector.Apply _ _ e p) as [p' [out|err]]; [|discriminate].
  destruct (IH _ H) as [Hd HT]. split; [done|]. intros x [->|Hx]%elem_of_cons; [done|by apply HT].
Qed.

Lemma rebuild_inv es T rs q :
  consistent es -> rebuildEvents jcs_Transform sha256_Sum256 es T rs = Ok q ->
  built rs es q /\ ensureComplete q = Ok tt /\ forall e, e ∈ es -> e_TenantID e = T.
Proof.
  intros C H. unfold rebuildEvents in H. rewrite EventStoreProps.cloneEvents_id in H.
  apply rbind_ok in H as (q' & Hr & H). destruct (ensureComplete q') as [[]|] eqn:Hc; [|discriminate].
  apply Ok_inj in H as <-. apply replay_deliver in Hr as [Hd HT].
  assert (Hsort : forall e, e ∈ sort_slice event_before es <-> e ∈ es) by (intros; by rewrite sort_slice_Permutation).
  split; [|split; [done|]].
  - eapply (built_ext _ _ _ (sort_slice event_before es)); [exact Hsort|]. apply (delivered jcs_Transform sha256_Sum256); [|done].
    eapply consistent_mono; [|exact C]. intros e. apply Hsort.
  - intros e He. apply HT. by apply Hsort.
Qed.

Lemma complete_no_pending q k : ensureComplete q = Ok tt -> pending (stream_of q k) = ∅.
Proof.
  unfold ensureComplete. destruct (existsb _ _) eqn:Hex; [discriminate|]. intros _.
  unfold stream_of. destruct (streams q !! k) as [st|] eqn:Hk; [|done]. cbn.
  apply map_size_empty_inv. destruct (Nat.eqb (size (pending st)) 0) eqn:Hz; [by apply Nat.eqb_eq in Hz|].
  exfalso. apply not_true_iff_false in Hex. apply Hex, existsb_exists. exists st.
  rewrite Hz. split; [|done]. apply list_elem_of_In, EventStoreProps.values_elem. eauto.
Qed.

Lemma durable_reducers_inv es rs0 rs :
  durable_reducers jcs_Transform sha256_Sum256 rs0 es = Ok rs ->
  forall k r, rs !! k = Some r -> rs0 !! k = Some r \/ r = Authoritative.
Proof.
  revert rs0. induction es as [|e es IH]; intros rs0 H k r Hk; cbn in H.
  { apply Ok_inj in H as <-. by left. }
  destruct (_ ≟ _) in H; [discriminate|]. destruct (IH _ H k r Hk) as [Hi|?]; [|by right].
  destruct (decide (e_AggregateType e = k)) as [<-|Hne].
  - rewrite lookup_insert_eq in Hi. injection Hi as <-. by right.
  - rewrite lookup_insert_ne in Hi by done. by left.
Qed.

(** The rebuilt state of an aggregate is that of its newest event. *)
Lemma rebuilt_newest rs es q T e snap :
  consistent es -> built rs es q -> ensureComplete q = Ok tt ->
  (forall k r, rs !! k = Some r -> r = Authoritative) -> e_TenantID e = T -> newest_event es (key e) e ->
  Snapshot_of T (e_AggregateType e) (e_AggregateID e) q = Some snap ->
  snap = mkSnapshot (e_AggregateVersion e) (e_ReplayState (norm e)).
Proof.
  intros C B Hc Hrs HT (He & _ & Hmax) Hs. destruct snap as [v st].
  apply (snapshot_of_built jcs_Transform sha256_Sum256 rs es) in Hs; [|exact C|exact B]. rewrite <- HT in Hs.
  change (aggregateKey (e_TenantID e) (e_AggregateType e) (e_AggregateID e)) with (key e) in Hs.
  destruct Hs as [Hpos [(x & (Hx & Hkx & Hvx) & _ & -> & Hall)|(Hno & Hre & Hn)]].
  { assert (x = e) as ->; [|by rewrite Hvx]. apply (same_version _ C); [done..|].
    pose proof (Hmax x Hx Hkx). assert (e_AggregateVersion e <= v) by (by apply (Hall _ e)). lia. }
  pose proof (bt_stream _ _ _ _ _ B (key e) Hno) as [[Hr Hp Hre'] Hn'].
  destruct (replays_end rs es (key e) _ _ _ _ C Hre' Hn' Hre Hn) as [Hv <-].
  rewrite (complete_no_pending q (key e) Hc) in Hp.
  assert (Hle : e_AggregateVersion e <= v).
  { destruct (decide (e_AggregateVersion e <= v)); [done|]. exfalso.
    assert (Hin : (∅ : gmap Z DomainEvent) !! e_AggregateVersion e = Some e) by (apply Hp; split; [lia|done]).
    by rewrite lookup_empty in Hin. }
  rewrite <- Hv in *. clear Hv Hn Hre. remember (version (stream_of q (key e))) as w eqn:Hw.
  destruct Hre' as [|w st x r st' _ Hx Hkx Hvx Hrx Hred _]; [lia|].
  apply Hrs in Hrx as ->. assert (x = e) as ->.
  { apply (same_version _ C); [done..|]. pose proof (Hmax x Hx Hkx). lia. }
  rewrite Hvx. f_equal. unfold AuthoritativeStateReducer in Hred. accepted Hred.
  rewrite EventStoreProps.cloneJSON_id. unfold ProjectorProps.norm, with_snapshot.
  specialize (Hno e He eq_refl). unfold is_budget in Hno. by rewrite Hno.
Qed.

(** ** Inventories *)

Lemma rebuilt_items_inv T q refs items :
  rebuilt_items jcs_Transform sha256_Sum256 T q refs = Ok items ->
  map fst items = map fst refs /\
  (forall k it, (k, it) ∈ items -> exists e, (k, e) ∈ refs /\ rebuilt_item jcs_Transform sha256_Sum256 T q e = Ok it) /\
  (forall k e, (k, e) ∈ refs -> exists it, (k, it) ∈ items).
Proof.
  revert items. induction refs as [|[k e] refs IH]; intros items H; cbn in H.
  { apply Ok_inj in H as <-. split_and!; [done|..]; by intros ? ? ?%not_elem_of_nil. }
  apply rbind_ok in H as (it & Hit & H). apply rbind_ok in H as (rest & Hrest & H). apply Ok_inj in H as <-.
  destruct (IH _ Hrest) as (Hk & Hin & Hout). split_and!.
  - cbn. by rewrite Hk.
  - intros k' it' [[= -> ->]|Hi]%elem_of_cons; [exists e; split; [by left|done]|].
    destruct (Hin _ _ Hi) as (e' & ? & ?). exists e'. split; [by right|done].
  - intros k' e' [[= -> ->]|Hi]%elem_of_cons; [exists it; by left|].
    destruct (Hout _ _ Hi) as (it' & ?). exists it'. by right.
Qed.

Lemma online_items_inv T l byKey items m :
  online_items jcs_Transform sha256_Sum256 T byKey l = Ok (items, m) ->
  NoDup (map (projection_key T) l) /\
  (forall p, p ∈ l -> p_TenantID p = T /\ byKey !! projection_key T p = None /\
     Snapshot_Digest (mkSnapshot (p_Version p) (p_State p)) = Ok (digest_of p)) /\
  (forall k it, m !! k = Some it <->
     byKey !! k = Some it \/ exists p, p ∈ l /\ projection_key T p = k /\ it = item_of p).
Proof.
  revert byKey items m. induction l as [|p l IH]; intros byKey items m H; cbn in H.
  { injection H as <- <-. split_and!; [constructor|by intros p Hp%not_elem_of_nil|].
    intros k it. split; [by left|]. by intros [?|(p & Hp%not_elem_of_nil & _)]. }
  destruct (_ || _) eqn:G in H; [discriminate|]. apply rbind_ok in H as (d & Hd & H).
  destruct (negb _) eqn:Hfree in H; [discriminate|]. apply rbind_ok in H as ([items' m'] & Hr & H).
  injection H as <- <-. fold (projection_key T p) in *. go_bool.
  assert (Hdd : digest_of p = d) by (unfold ReconcileProps.digest_of; by rewrite Hd).
  assert (Hnone : byKey !! projection_key T p = None) by (destruct (byKey !! projection_key T p); done).
  destruct (IH _ _ _ Hr) as (Hnd & Hall & Hlook). split_and!.
  - cbn. constructor; [|done]. intros (x & Hk & Hx)%list_elem_of_fmap.
    destruct (Hall x Hx) as (_ & Hfr & _). rewrite <- Hk, lookup_insert_eq in Hfr. done.
  - intros x [->|Hx]%elem_of_cons; [split_and!; [done|done|congruence]|].
    destruct (Hall x Hx) as (? & Hfr & ?). split_and!; [done| |done]. by apply lookup_insert_None in Hfr as [? _].
  - intros k it. cbn [snd]. rewrite Hlook, lookup_insert_Some. setoid_rewrite elem_of_cons.
    split.
    + intros [[[<- <-]|[_ ?]]|(x & ? & ? & ?)]; [|by left|right; exists x; auto].
      right. exists p. split_and!; [by left|done|]. unfold ReconcileProps.item_of. by rewrite Hdd.
    + intros [Hk|(x & [->|Hx] & Hkx & ->)].
      * left. right. split; [|done]. intros Heq. congruence.
      * left. left. split; [done|]. unfold ReconcileProps.item_of. by rewrite Hdd.
      * right. by exists x.
Qed.

Lemma no_drifts r o k : drifts r o = [] -> drift_of (r !! k) (o !! k) = None.
Proof.
  intros H. destruct (decide (k ∈ all_keys r o)) as [Hin|Hni].
  - unfold drifts in H. destruct (drift_of (r !! k) (o !! k)) as [d|] eqn:Hd; [|done].
    assert (Hx : d ∈ omap (fun k => drift_of (r !! k) (o !! k)) (all_keys r o)) by (apply list_elem_of_omap; eauto).
    rewrite H in Hx. by apply not_elem_of_nil in Hx.
  - assert (Hkey : forall m : gmap string projectionInventoryItem, k ∈ map fst (map_to_list m) <-> is_Some (m !! k)).
    { intros m. rewrite list_elem_of_fmap. split.
      - intros ([? it] & -> & Hi%elem_of_map_to_list). by eexists.
      - intros [it Hi]. exists (k, it). by rewrite elem_of_map_to_list. }
    unfold all_keys in Hni. rewrite sort_slice_Permutation, elem_of_app, filter_elem, !Hkey in Hni.
    destruct (r !! k) as [x|]; [exfalso; apply Hni; left; by eexists|].
    destruct (o !! k) as [x|]; [exfalso; apply Hni; right; split; [by eexists|done]|done].
Qed.

Lemma drift_none x y : drift_of x y = None <->
  match x, y with
  | None, None => True
  | Some x, Some y => it_Version x = it_Version y /\ it_SHA256 x = it_SHA256 y
  | _, _ => False
  end.
Proof.
  destruct x as [x|], y as [y|]; cbn; try (split; done). destruct (Z.eqb_spec (it_Version x) (it_Version y)); cbn.
  - case_bool_decide; cbn; split; naive_solver.
  - split; [done|]. by intros [? _].
Qed.

(** ** Verification *)
Lemma verify_inv events online T report :
  verifyDurableSnapshot jcs_Transform sha256_Sum256 (events, online) T = Ok report ->
  exists rs q items r items' o,
    durable_reducers jcs_Transform sha256_Sum256 ∅ events = Ok rs /\
    rebuildEvents jcs_Transform sha256_Sum256 events T rs = Ok q /\
    rebuilt_items jcs_Transform sha256_Sum256 T q (map_to_list (foldl (newest T) ∅ events)) = Ok items /\
    r = list_to_map items /\
    online_items jcs_Transform sha256_Sum256 T ∅ online = Ok (items', o) /\ drifts r o = [].
Proof.
  unfold verifyDurableSnapshot, reconcileDurableSnapshot, reconcileLoaded. cbn [fst snd]. intros H.
  apply rbind_ok in H as (rep & Hr & H). destruct (negb _) eqn:Hc in H; [discriminate|]. apply Ok_inj in H as <-.
  apply rbind_ok in Hr as (rs & Hrs & Hr). apply rbind_ok in Hr as (q & Hq & Hr).
  apply rbind_ok in Hr as ([sorted r] & Hre & Hr). apply rbind_ok in Hr as ([sorted' o] & Hon & Hr).
  apply rbind_ok in Hr as (d & _ & Hr). apply rbind_ok in Hr as (d' & _ & Hr). cbv zeta in Hr.
  apply rbind_ok in Hr as (d'' & _ & Hr). apply Ok_inj in Hr as <-. cbn in Hc, Hon, Hre.
  unfold rebuiltInventory in Hre. apply rbind_ok in Hre as (items & Hitems & Hre). injection Hre as _ <-.
  unfold onlineInventory in Hon. apply rbind_ok in Hon as ([items' o'] & Hitems' & Hon). injection Hon as _ <-.
  exists rs, q, items, (list_to_map items), items', o'. split_and!; try done.
  apply length_zero_iff_nil. go_bool. by apply Nat.eqb_eq.
Qed.

(** What the index of the rebuilt aggregates holds. *)
Lemma rebuilt_index rs es q T items :
  consistent es -> built rs es q -> ensureComplete q = Ok tt -> (forall e, e ∈ es -> e_TenantID e = T) ->
  (forall k r, rs !! k = Some r -> r = Authoritative) ->
  rebuilt_items jcs_Transform sha256_Sum256 T q (map_to_list (foldl (newest T) ∅ es)) = Ok items ->
  (forall k it, (list_to_map items : gmap string _) !! k = Some it ->
     exists e, newest_event es k e /\ it_Version it = e_AggregateVersion e /\
       Snapshot_Digest (mkSnapshot (e_AggregateVersion e) (e_ReplayState (norm e))) = Ok (it_SHA256 it)) /\
  (forall e, e ∈ es -> is_Some ((list_to_map items : gmap string projectionInventoryItem) !! key e)).
Proof.
  intros C B Hc HT Hrs Hitems. apply rebuilt_items_inv in Hitems as (Hk & Hin & Hout).
  assert (Hnd : NoDup (map fst items)) by (rewrite Hk; apply NoDup_fst_map_to_list).
  split.
  - intros k it Hlook%elem_of_list_to_map_2. destruct (Hin _ _ Hlook) as (e & He%elem_of_map_to_list & Hit).
    pose proof (newest_spec T es HT k) as Hnew. rewrite He in Hnew. exists e. split; [done|].
    destruct Hnew as (Hee & Hke & Hmax). unfold rebuilt_item in Hit.
    destruct (Snapshot_of _ _ _ q) as [snap|] eqn:Hs; [|discriminate].
    apply (rebuilt_newest rs es q T e snap) in Hs as ->; [|try done..].
    2: { by apply HT. }
    2: { split_and!; [done|done|]. intros x Hx Hkx. apply Hmax; congruence. }
    apply rbind_ok in Hit as (d & Hd & Hit). apply Ok_inj in Hit as <-. done.
  - intros e He. pose proof (newest_spec T es HT (key e)) as Hnew.
    destruct (foldl (newest T) ∅ es !! key e) as [x|] eqn:Hx; [|by destruct (Hnew e)].
    apply elem_of_map_to_list in Hx. destruct (Hout _ _ Hx) as (it & Hit). exists it.
    by apply elem_of_list_to_map.
Qed.

Lemma verified_stands events online T report :
  consistent events -> verifyDurableSnapshot jcs_Transform sha256_Sum256 (events, online) T = Ok report ->
  NoDup (map (projection_key T) online) /\
  (forall p, p ∈ online -> exists e d, newest_event events (projection_key T p) e /\
     p_Version p = e_AggregateVersion e /\
     Snapshot_Digest (mkSnapshot (p_Version p) (p_State p)) = Ok d /\
     Snapshot_Digest (mkSnapshot (e_AggregateVersion e) (e_ReplayState (norm e))) = Ok d) /\
  (forall e, e ∈ events -> exists p, p ∈ online /\ projection_key T p = key e).
Proof.
  intros C H. apply verify_inv in H as (rs & q & items & r & items' & o & Hrs & Hq & Hre & -> & Hon & Hd).
  apply rebuild_inv in Hq as (B & Hc & HT); [|done].
  apply (rebuilt_index rs events q T items) in Hre as [Hin Hout]; try done.
  2: { intros k x Hk. destruct (durable_reducers_inv _ _ _ Hrs k x Hk) as [He|?]; [by rewrite lookup_empty in He|done]. }
  apply online_items_inv in Hon as (Hnd & Hall & Hlook). split; [done|].
  assert (Hsame := fun k => proj1 (drift_none _ _) (no_drifts _ _ k Hd)). split.
  - intros p Hp. destruct (Hall p Hp) as (_ & _ & Hdig). specialize (Hsame (projection_key T p)).
    assert (Ho : o !! projection_key T p = Some (item_of p)) by (apply Hlook; right; by exists p).
    rewrite Ho in Hsame. destruct (_ !! projection_key T p) as [it|] eqn:Hr in Hsame; [|done].
    destruct (Hin _ _ Hr) as (e & He & Hv & Hse), Hsame as [Hv' Hs']. cbn in Hv', Hs'.
    exists e, (digest_of p). split_and!; [done|congruence|done|congruence].
  - intros e He. specialize (Hsame (key e)). destruct (Hout e He) as [it Hit]. rewrite Hit in Hsame.
    destruct (o !! key e) as [y|] eqn:Hy; [|done].
    apply Hlook in Hy as [Hy|(p & Hp & Hk & _)]; [by rewrite lookup_empty in Hy|by exists p].
Qed.

(** C7: Verification is sound.  When the durable verification of a tenant's
    events and projections answers a report, whatever the source of the two
    lists, no aggregate has two projections; every projection is at the version
    of the newest event of its aggregate, with a state of the same digest as
    the state bound to that event; and every aggregate of the log has its
    projection.  So no missing, orphan, stale or altered projection passes. *)
Theorem verified_projections events online T report :
  consistent events -> verifyDurableSnapshot jcs_Transform sha256_Sum256 (events, online) T = Ok report ->
  NoDup (map (projection_key T) online) /\
  (forall p, p ∈ online -> exists e d, newest_event events (projection_key T p) e /\
     p_Version p = e_AggregateVersion e /\
     Snapshot_Digest (mkSnapshot (p_Version p) (p_State p)) = Ok d /\
     Snapshot_Digest (mkSnapshot (e_AggregateVersion e) (e_ReplayState (norm e))) = Ok d) /\
  (forall e, e ∈ events -> exists p, p ∈ online /\ projection_key T p = key e).
Proof. intros C H. by apply (verified_stands events online T report). Qed.

(** C8: Reconciling a store of the program.  After whatever commands the memory
    store has executed, with the failures they inject, the durable verification
    of a tenant without a budget account in the log replays the whole log
    without an error, finds every aggregate complete and answers a report
    without drift, whose two inventories have one entry per projection of the
    tenant and the same digest; a tenant with a budget account in the log is
    refused with an error, because a snapshot's version follows another and the
    store starts every aggregate at version 1.  This is for stores whose tenant
    and aggregate type names hold no NUL byte, where the JSON encoders answer on
    what is verified and a decoded version is an int64. *)
Theorem store_reconciles cs s T :
  encodes jcs_Transform sha256_Sum256 ->
  (forall x b, unmarshal_budget x = Some b -> in_int64 (b_PreviousVersion b)) ->
  run (EventStoreProps.store_step jcs_Transform sha256_Sum256) NewMemoryStore cs s -> named s -> T <> "" ->
  (forall e, e ∈ tenant_events T s -> e_AggregateType e = "budget" ->
   exists err, VerifyDurable jcs_Transform sha256_Sum256 (Some tt) (Some (memory_source s)) T = Err err) /\
  ((forall e, e ∈ tenant_events T s -> e_AggregateType e <> "budget") ->
   exists report,
    VerifyDurable jcs_Transform sha256_Sum256 (Some tt) (Some (memory_source s)) T = Ok report /\
    rr_Converged report = true /\ rr_Drifts report = [] /\
    rr_EventCount report = Z.of_nat (length (tenant_events T s)) /\
    rr_RebuiltCount report = Z.of_nat (length (tenant_projections T s)) /\
    rr_OnlineCount report = rr_RebuiltCount report /\
    rr_OnlineSHA256 report = rr_RebuiltSHA256 report).
Proof.
  intros He Hint Hr Hn HT. split; intros.
  - by eapply (store_refused jcs_Transform sha256_Sum256 cs).
  - by apply (store_converges jcs_Transform sha256_Sum256 cs).
Qed.
End Sound.

(** ** Examples *)
#[local] Existing Instance ProjectorProps.sample_decoders.
#[local] Instance sample_encoders : Encoders := {|
  marshal_snapshot _ st := Some st; marshal_inventory _ := Some "{}"; marshal_report _ := Some "{}"
|}.
Notation sample_jcs := EventStoreProps.demo_jcs.
Notation sample_sha256 := EventStoreProps.demo_sha256.
Definition sample_online : list Projection := [mkProjection "tn" "p" "task" "t" 2 "{ }"].

Lemma verified_projections_witness :
  exists report, verifyDurableSnapshot sample_jcs sample_sha256 (sample_delivery, sample_online) "tn" = Ok report /\
  exists p, p ∈ sample_online /\ projection_key "tn" p = key (sample_event "e1" 1 "{}").
Proof.
  assert (Hok : match verifyDurableSnapshot sample_jcs sample_sha256 (sample_delivery, sample_online) "tn" with
                | Ok _ => true | Err _ => false end = true) by (vm_compute; reflexivity).
  destruct (verifyDurableSnapshot _ _ _ _) as [report|] eqn:H; [|discriminate Hok]. exists report.
  split; [reflexivity|].
  apply (proj2 (proj2 (verified_projections sample_jcs sample_sha256 sample_delivery sample_online "tn" report
    sample_consistent H))). right. left.
Defined.

Lemma sample_encodes : encodes sample_jcs sample_sha256.
Proof.
  split.
  - intros v st d H. by exists st, d.
  - intros items. by exists "{}", EventStoreProps.demo_digest.
  - intros report. by exists "{}", EventStoreProps.demo_digest.
Qed.

Notation sample_state := (EventStoreProps.demo_state EventStoreProps.demo_history).
Definition named_entry (tenant type_ : string) : Prop := no_nul tenant = true /\ no_nul type_ = true.
#[local] Instance named_entry_dec tenant type_ : Decision (named_entry tenant type_).
Proof. unfold named_entry. apply _. Defined.
Ltac solve_named :=
  match goal with |- named ?s => split;
    [apply (bool_decide_unpack (map_Forall (fun _ e => named_entry (e_TenantID e) (e_AggregateType e)) (events s)))
    |apply (bool_decide_unpack (map_Forall (fun _ p => named_entry (p_TenantID p) (p_AggregateType p)) (projections s)))];
    vm_compute; exact I
  end.

(** A budget account that the store accepts, as any other aggregate. *)
Definition budget_history : list EventStoreProps.command :=
  [EventStoreProps.CmdExecute (mkTransactionRequest "t" "u" "1" "digest"
     [mkProjectionUpdate "t" "p" "budget" "b" 0 1 "{}"]
     [mkDomainEvent "e1" "t" "p" "budget" "b" 1 "io.aor.budget.adjusted.v1" "{}" EventStoreProps.demo_digest 5
        "" "" "" "" "" "" "" "" "" ""] [] [] "{}" EventStoreProps.demo_digest)].
Notation budget_state := (EventStoreProps.demo_state budget_history).

Lemma store_reconciles_witness :
  (exists report,
     VerifyDurable sample_jcs sample_sha256 (Some tt) (Some (memory_source sample_state)) "t" = Ok report /\
     rr_Converged report = true /\ rr_OnlineCount report = 1) /\
  exists err, VerifyDurable sample_jcs sample_sha256 (Some tt) (Some (memory_source budget_state)) "t" = Err err.
Proof.
  split.
  - destruct (store_reconciles sample_jcs sample_sha256 EventStoreProps.demo_history sample_state "t")
      as [_ Hpass].
    + exact sample_encodes.
    + discriminate.
    + apply exec_run. vm_compute. reflexivity.
    + solve_named.
    + discriminate.
    + destruct Hpass as (report & H & Hc & _ & _ & Hrebuilt & Honline & _).
      * apply (proj1 (Forall_forall _ _)). vm_compute. repeat constructor; discriminate.
      * exists report. split; [exact H|]. split; [exact Hc|]. rewrite Honline, Hrebuilt. vm_compute. reflexivity.
  - destruct (store_reconciles sample_jcs sample_sha256 budget_history budget_state "t") as [Hrefused _].
    + exact sample_encodes.
    + discriminate.
    + apply exec_run. vm_compute. reflexivity.
    + solve_named.
    + discriminate.
    + apply (Hrefused (nth 0 (tenant_events "t" budget_state) (sample_event "" 0 "")));
        [vm_compute; left|vm_compute; reflexivity].
Defined.
End ReconcileSound.
