(* ===== verification/Lifecycle.v ===== *)
(** The project lifecycle workflow ([internal/workflow]: [project_lifecycle.go],
    [lifecycle_snapshot.go], [lifecycle_store.go]): a second copy of a project's
    state, kept by signals that carry the project's committed events.

    A workflow run is a value, [receive] one turn of its loop.  Temporal is a
    parameter where the starter, the history and the store call it: the answers
    of its client, and, between two calls, the world it keeps.  A nil receiver,
    context, client or store is not modelled but for the fields that may be
    nil in a built value. *)

From S2P Require Import Prelude GoLib Contracts EventStore.

Module Lifecycle.

Definition lifecycleHistoryLimit : Z := 500.
Definition lifecycleBufferLimit : Z := 1024.

(** [identifierPattern]: [^[A-Za-z0-9][A-Za-z0-9._:-]{0,255}$]. *)
Definition alnum (c : ascii) : bool := byte_in 65 90 c || byte_in 97 122 c || byte_in 48 57 c.
Definition identifierPattern (value : string) : bool :=
  match bytes value with
  | [] => false
  | c :: rest => alnum c && Nat.leb (length rest) 255
      && forallb (fun c => alnum c || existsb (fun v => byte_is v c) [46; 95; 58; 45]) rest
  end.

Inductive workflow_error : Type :=
| ErrInvalidProjectLifecycle
| ErrStart
| ErrQuery
| ErrDecode
| ErrSynchronization
| ErrStore (cause : EventStore.store_error).

Record ProjectLifecycleRequest : Type := mkRequest {
  rq_TenantID : string;
  rq_ProjectID : string;
  rq_CreatedBy : string;
  rq_GoalAgentCount : Z
}.

Record ProjectLifecycleInput : Type := mkInput {
  in_TenantID : string;
  in_ProjectID : string;
  in_CreatedBy : string;
  in_GoalAgentCount : Z;
  in_State : ProjectState;
  in_ProjectVersion : Z;
  in_PausedFrom : ProjectState;
  in_ProcessedEvents : Z;
  in_RejectedSignals : Z
}.

Record ProjectLifecycleEvent : Type := mkEvent {
  ev_EventID : string;
  ev_Type : string;
  ev_AggregateVersion : Z;
  ev_State : ProjectState;
  ev_PayloadSHA256 : string;
  ev_OccurredAt : time
}.
#[export] Instance ProjectLifecycleEvent_eq_dec : EqDecision ProjectLifecycleEvent.
Proof. solve_decision. Defined.

Record ProjectLifecycleSnapshot : Type := mkSnapshot {
  sn_TenantID : string;
  sn_ProjectID : string;
  sn_State : ProjectState;
  sn_ProjectVersion : Z;
  sn_PausedFrom : ProjectState;
  sn_ProcessedEvents : Z;
  sn_RejectedSignals : Z;
  sn_BufferedEvents : Z
}.
#[global] Instance eta_snapshot : Eta ProjectLifecycleSnapshot := fun s =>
  mkSnapshot (sn_TenantID s) (sn_ProjectID s) (sn_State s) (sn_ProjectVersion s)
    (sn_PausedFrom s) (sn_ProcessedEvents s) (sn_RejectedSignals s) (sn_BufferedEvents s).

Record ProjectLifecycleStartResult : Type := mkStartResult {
  st_WorkflowID : string;
  st_RunID : string;
  st_Duplicate : bool
}.

(** ** Validation *)
Definition validLifecycleState (value : ProjectState) : bool :=
  match value with ProjectStateRaw _ => false | _ => true end.

Definition terminalLifecycleState (value : ProjectState) : bool :=
  (value ≟ ProjectCompleted) || (value ≟ ProjectAborted) || (value ≟ ProjectFailedSystem)
  || (value ≟ ProjectArchived).

(** The rune loop accepts ASCII only, so it reads bytes. *)
Definition validLifecycleDigest (value : string) : bool :=
  (len value =? 71) && HasPrefix value "sha256:"
  && forallb (fun c => byte_in 48 57 c || byte_in 97 102 c) (bytes (slice_from 7 value)).

Definition validProjectLifecycleRequest (request : ProjectLifecycleRequest) : bool :=
  identifierPattern (rq_TenantID request) && identifierPattern (rq_ProjectID request)
  && identifierPattern (rq_CreatedBy request)
  && ((rq_GoalAgentCount request =? 1) || (rq_GoalAgentCount request =? 2)).

Definition paused_from_bad (state : ProjectState) : bool :=
  (state ≠? ProjectStateZero) && negb (validLifecycleState state).

Definition validateProjectLifecycleInput (input : ProjectLifecycleInput) : result unit workflow_error :=
  let request := mkRequest (in_TenantID input) (in_ProjectID input) (in_CreatedBy input)
    (in_GoalAgentCount input) in
  reject ErrInvalidProjectLifecycle when
    negb (validProjectLifecycleRequest request) || (in_ProjectVersion input <? 1)
    || (in_ProcessedEvents input <? 0) || (in_RejectedSignals input <? 0)
    || negb (validLifecycleState (in_State input)) || paused_from_bad (in_PausedFrom input) ;;
  Ok tt.

Definition validateProjectLifecycleEvent (event : ProjectLifecycleEvent)
    (snapshot : ProjectLifecycleSnapshot) : result unit workflow_error :=
  reject ErrInvalidProjectLifecycle when
    negb (identifierPattern (ev_EventID event)) || (ev_AggregateVersion event <? 1)
    || (wrap64 (sn_ProjectVersion snapshot + lifecycleBufferLimit) <? ev_AggregateVersion event)
    || negb (validLifecycleState (ev_State event))
    || negb (validLifecycleDigest (ev_PayloadSHA256 event)) || IsZero (ev_OccurredAt event) ;;
  Ok tt.

(** ** One event *)
(** The state an event leads to from the current one, the zero state when the
    workflow does not expect it, with the new [PausedFrom]. *)
Definition expected_state (snapshot : ProjectLifecycleSnapshot) (event : ProjectLifecycleEvent)
    : ProjectState * ProjectState :=
  let current := sn_State snapshot in
  let paused := sn_PausedFrom snapshot in
  let on (b : bool) (s : ProjectState) := (if b then s else ProjectStateZero, paused) in
  let ty := ev_Type event in
  if (ty ≟ "io.aor.goal.negotiation-started.v1") || (ty ≟ "io.aor.goal.message-received.v1")
  then on ((current ≟ ProjectCreated) || (current ≟ ProjectGoalNegotiating)) ProjectGoalNegotiating else
  if (ty ≟ "io.aor.goal.proposed.v1") || (ty ≟ "io.aor.goal.rejected.v1")
     || (ty ≟ "io.aor.goal.toolchain-ready.v1")
  then on (current ≟ ProjectGoalNegotiating) ProjectGoalNegotiating else
  if ty ≟ "io.aor.goal.approved.v1" then on (current ≟ ProjectGoalNegotiating) ProjectPlanning else
  if (ty ≟ "io.aor.goal.change-requested.v1") || (ty ≟ "io.aor.goal.superseded.v1")
  then on (negb (terminalLifecycleState current) && (current ≠? ProjectCreated)) ProjectGoalNegotiating else
  if ty ≟ "io.aor.plan.published.v1" then on (current ≟ ProjectPlanning) ProjectExecuting else
  if (ty ≟ "io.aor.plan.core-progress-recorded.v1") || (ty ≟ "io.aor.plan.core-summary-published.v1")
  then on (current ≟ ProjectExecuting) ProjectExecuting else
  if ty ≟ "io.aor.project.integration-started.v1"
  then on (current ≟ ProjectExecuting) ProjectIntegrating else
  if ty ≟ "io.aor.project.global-audit-started.v1"
  then on (current ≟ ProjectIntegrating) ProjectGlobalAudit else
  if ty ≟ "io.aor.project.global-audit-remediation-started.v1"
  then on ((current ≟ ProjectGlobalAudit)
             && ((ev_State event ≟ ProjectExecuting) || (ev_State event ≟ ProjectIntegrating))) (ev_State event) else
  if ty ≟ "io.aor.approval.committed.v1" then on (current ≟ ProjectGlobalAudit) ProjectGlobalAudit else
  if ty ≟ "io.aor.project.completed.v1" then on (current ≟ ProjectGlobalAudit) ProjectCompleted else
  if ty ≟ "io.aor.project.paused.v1" then
    if negb (terminalLifecycleState current) && (current ≠? ProjectPaused)
       && (current ≠? ProjectGoalSuspended)
    then (if current ≟ ProjectGoalNegotiating then ProjectGoalSuspended else ProjectPaused, current)
    else (ProjectStateZero, paused) else
  if ty ≟ "io.aor.project.resumed.v1" then
    if (current ≟ ProjectPaused) || (current ≟ ProjectGoalSuspended)
    then (if paused ≟ ProjectStateZero then ev_State event else paused, ProjectStateZero)
    else (ProjectStateZero, paused) else
  if ty ≟ "io.aor.project.aborted.v1" then on (negb (terminalLifecycleState current)) ProjectAborted else
  if ty ≟ "io.aor.project.archived.v1"
  then on ((current ≟ ProjectCompleted) || (current ≟ ProjectAborted)) ProjectArchived else
  (ProjectStateZero, paused).

(** The snapshot is written through its pointer: a refused pause or resume has
    already moved [PausedFrom]. *)
Definition applyProjectLifecycleEvent (snapshot : ProjectLifecycleSnapshot)
    (event : ProjectLifecycleEvent) : ProjectLifecycleSnapshot * result unit workflow_error :=
  let '(expected, paused) := expected_state snapshot event in
  let snapshot := snapshot ⟦ sn_PausedFrom := paused ⟧ in
  if (expected ≟ ProjectStateZero) || (ev_State event ≠? expected)
  then (snapshot, Err ErrInvalidProjectLifecycle) else
  (snapshot ⟦ sn_State := expected ⟧ ⟦ sn_ProjectVersion := ev_AggregateVersion event ⟧, Ok tt).

(** ** The workflow *)
Record workflow : Type := mkWorkflow {
  w_CreatedBy : string;
  w_GoalAgentCount : Z;
  w_snapshot : ProjectLifecycleSnapshot;
  w_buffer : gmap Z ProjectLifecycleEvent;
  w_seen : gmap Z string;
  w_appliedThisRun : Z
}.
#[global] Instance eta_workflow : Eta workflow := fun w =>
  mkWorkflow (w_CreatedBy w) (w_GoalAgentCount w) (w_snapshot w) (w_buffer w) (w_seen w)
    (w_appliedThisRun w).

(** How a turn of the loop ends: the workflow waits for the next signal, is
    complete, or continues as a new run. *)
Inductive turn : Type :=
| Waiting (w : workflow)
| Complete (snapshot : ProjectLifecycleSnapshot)
| ContinueAsNew (input : ProjectLifecycleInput).

Definition buffered (w : workflow) : Z := Z.of_nat (size (w_buffer w)).

(** The query handler. *)
Definition query (w : workflow) : ProjectLifecycleSnapshot :=
  (w_snapshot w) ⟦ sn_BufferedEvents := buffered w ⟧.

Definition start_workflow (input : ProjectLifecycleInput) : result workflow workflow_error :=
  _ <-! validateProjectLifecycleInput input ;;
  Ok (mkWorkflow (in_CreatedBy input) (in_GoalAgentCount input)
        (mkSnapshot (in_TenantID input) (in_ProjectID input) (in_State input) (in_ProjectVersion input)
           (in_PausedFrom input) (in_ProcessedEvents input) (in_RejectedSignals input) 0) ∅ ∅ 0).

Definition reject_signal (w : workflow) : workflow :=
  w ⟦ w_snapshot := (w_snapshot w) ⟦ sn_RejectedSignals := wrap64 (sn_RejectedSignals (w_snapshot w) + 1) ⟧ ⟧.

Definition continuation (w : workflow) : ProjectLifecycleInput :=
  let s := w_snapshot w in
  mkInput (sn_TenantID s) (sn_ProjectID s) (w_CreatedBy w) (w_GoalAgentCount w) (sn_State s)
    (sn_ProjectVersion s) (sn_PausedFrom s) (sn_ProcessedEvents s) (sn_RejectedSignals s).

(** The effects of an applied event, whose snapshot is given. *)
Definition record_applied (next : ProjectLifecycleEvent) (snapshot : ProjectLifecycleSnapshot)
    (w : workflow) : workflow :=
  w ⟦ w_seen := <[ev_AggregateVersion next := ev_PayloadSHA256 next]> (w_seen w) ⟧
    ⟦ w_snapshot := snapshot ⟦ sn_ProcessedEvents := wrap64 (sn_ProcessedEvents snapshot + 1) ⟧ ⟧
    ⟦ w_appliedThisRun := w_appliedThisRun w + 1 ⟧.

(** The inner loop: each round takes one event from the buffer, so its size
    bounds the rounds. *)
Fixpoint drain_buffer (rounds : nat) (w : workflow) : turn :=
  match rounds with
  | O => Waiting w
  | S rounds =>
      let nextVersion := wrap64 (sn_ProjectVersion (w_snapshot w) + 1) in
      match w_buffer w !! nextVersion with
      | None => Waiting w
      | Some next =>
          let w := w ⟦ w_buffer := delete nextVersion (w_buffer w) ⟧ in
          match applyProjectLifecycleEvent (w_snapshot w) next with
          | (snapshot, Err _) => Waiting (reject_signal (w ⟦ w_snapshot := snapshot ⟧))
          | (snapshot, Ok _) =>
              let w := record_applied next snapshot w in
              if sn_State (w_snapshot w) ≟ ProjectArchived then Complete (query w) else
              if (lifecycleHistoryLimit <=? w_appliedThisRun w) && (buffered w =? 0)
              then ContinueAsNew (continuation w)
              else drain_buffer rounds w
          end
      end
  end.

(** One turn: a signal, then the inner loop. *)
Definition receive (event : ProjectLifecycleEvent) (w : workflow) : turn :=
  match validateProjectLifecycleEvent event (w_snapshot w) with
  | Err _ => Waiting (reject_signal w)
  | Ok _ =>
      if ev_AggregateVersion event <=? sn_ProjectVersion (w_snapshot w) then
        if w_seen w !! ev_AggregateVersion event ≠? Some (ev_PayloadSHA256 event)
        then Waiting (reject_signal w) else Waiting w
      else
      match w_buffer w !! ev_AggregateVersion event with
      | Some prior =>
          if (ev_PayloadSHA256 prior ≠? ev_PayloadSHA256 event) || (ev_Type prior ≠? ev_Type event)
             || (ev_State prior ≠? ev_State event)
          then Waiting (reject_signal w) else Waiting w
      | None =>
          if lifecycleBufferLimit <=? buffered w then Waiting (reject_signal w) else
          let w := w ⟦ w_buffer := <[ev_AggregateVersion event := event]> (w_buffer w) ⟧ in
          drain_buffer (size (w_buffer w)) w
      end
  end.

(** The life of a workflow over its runs; signals to a complete one are lost. *)
Inductive lifecycle : Type :=
| Running (w : workflow)
| Completed (snapshot : ProjectLifecycleSnapshot)
| Failed.

Definition begin (input : ProjectLifecycleInput) : lifecycle :=
  match start_workflow input with Ok w => Running w | Err _ => Failed end.
Definition signal (event : ProjectLifecycleEvent) (l : lifecycle) : lifecycle :=
  match l with
  | Running w =>
      match receive event w with
      | Waiting w => Running w
      | Complete snapshot => Completed snapshot
      | ContinueAsNew input => begin input
      end
  | _ => l
  end.
Definition ProjectLifecycleWorkflow (input : ProjectLifecycleInput)
    (signals : list ProjectLifecycleEvent) : lifecycle :=
  foldl (fun l event => signal event l) (begin input) signals.

Definition projectLifecycleWorkflowID (tenantID projectID : string) : string :=
  "aor-project-" +:+ tenantID +:+ "-" +:+ projectID.

(** ** The starter, the history and the store *)
(** What [ExecuteWorkflow] answers. *)
Inductive start_answer : Type :=
| StartedRun (runID : string)
| AlreadyStarted (runID : string)
| StartFailed.

(** The decoded payload of a project event. *)
Record lifecycleProjectProjection : Type := mkProjection {
  lp_TenantID : string;
  lp_ID : string;
  lp_CreatedBy : string;
  lp_GoalAgentCount : Z;
  lp_State : ProjectState;
  lp_Version : Z;
  lp_PausedFromState : ProjectState
}.
Record lifecycle_payload : Type := mkPayload {
  py_TenantID : string;
  py_ProjectID : string;
  py_AggregateVersion : Z;
  py_Projection : lifecycleProjectProjection
}.

Section Client.
Context {world : Type}.
Context (ExecuteWorkflow : string -> ProjectLifecycleInput -> world -> world * start_answer).
Context (SignalWorkflow : string -> ProjectLifecycleEvent -> world -> world * bool).
Context (QueryWorkflow : string -> world -> option (option (option ProjectLifecycleSnapshot))).
Context (unmarshal_event : string -> option lifecycle_payload).

Definition Ensure (input : ProjectLifecycleInput) (t : world)
    : world * result ProjectLifecycleStartResult workflow_error :=
  match validateProjectLifecycleInput input with
  | Err e => (t, Err e)
  | Ok _ =>
      let workflowID := projectLifecycleWorkflowID (in_TenantID input) (in_ProjectID input) in
      match ExecuteWorkflow workflowID input t with
      | (t, StartFailed) => (t, Err ErrStart)
      | (t, AlreadyStarted runID) => (t, Ok (mkStartResult workflowID runID true))
      | (t, StartedRun runID) => (t, Ok (mkStartResult workflowID runID false))
      end
  end.

Definition Start (request : ProjectLifecycleRequest) (t : world)
    : world * result ProjectLifecycleStartResult workflow_error :=
  if negb (validProjectLifecycleRequest request) then (t, Err ErrInvalidProjectLifecycle) else
  Ensure (mkInput (rq_TenantID request) (rq_ProjectID request) (rq_CreatedBy request)
            (rq_GoalAgentCount request) ProjectCreated 1 ProjectStateZero 0 0) t.

(** [TemporalProjectLifecycleHistory.Snapshot]: a failed query is [None], a
    query without a value [Some None], an undecodable one [Some (Some None)]. *)
Definition History_Snapshot (tenantID projectID : string) (t : world)
    : result ProjectLifecycleSnapshot workflow_error :=
  reject ErrInvalidProjectLifecycle when
    negb (identifierPattern tenantID) || negb (identifierPattern projectID) ;;
  encoded <-? QueryWorkflow (projectLifecycleWorkflowID tenantID projectID) t else ErrQuery ;;
  value <-? encoded else ErrInvalidProjectLifecycle ;;
  snapshot <-? value else ErrDecode ;;
  reject ErrInvalidProjectLifecycle when
    (sn_TenantID snapshot ≠? tenantID) || (sn_ProjectID snapshot ≠? projectID)
    || (sn_ProjectVersion snapshot <? 1) || (sn_ProcessedEvents snapshot <? 0)
    || (sn_RejectedSignals snapshot <? 0) || (sn_BufferedEvents snapshot <? 0)
    || negb (validLifecycleState (sn_State snapshot)) || paused_from_bad (sn_PausedFrom snapshot) ;;
  Ok snapshot.

Import EventStore.
Definition lifecycleProjection (event : DomainEvent) : result lifecycleProjectProjection workflow_error :=
  reject ErrSynchronization when
    (e_AggregateType event ≠? "project") || (e_AggregateID event ≠? e_ProjectID event)
    || (e_AggregateVersion event <? 1) ;;
  payload <-? unmarshal_event (e_Payload event) else ErrSynchronization ;;
  let projection := py_Projection payload in
  reject ErrSynchronization when
    (py_TenantID payload ≠? e_TenantID event) || (py_ProjectID payload ≠? e_ProjectID event)
    || negb (py_AggregateVersion payload =? e_AggregateVersion event)
    || (lp_TenantID projection ≠? e_TenantID event) || (lp_ID projection ≠? e_ProjectID event)
    || negb (lp_Version projection =? e_AggregateVersion event) ;;
  reject ErrSynchronization when
    negb (is_ok (validateProjectLifecycleInput (mkInput (lp_TenantID projection) (lp_ID projection)
      (lp_CreatedBy projection) (lp_GoalAgentCount projection) (lp_State projection)
      (lp_Version projection) (lp_PausedFromState projection) 0 0))) ;;
  Ok projection.

Definition project_event_before (left right : DomainEvent) : bool :=
  if e_TenantID left ≠? e_TenantID right then String.ltb (e_TenantID left) (e_TenantID right) else
  if e_ProjectID left ≠? e_ProjectID right then String.ltb (e_ProjectID left) (e_ProjectID right) else
  e_AggregateVersion left <? e_AggregateVersion right.

Definition synchronize_one (event : DomainEvent) (t : world) : world * result unit workflow_error :=
  match lifecycleProjection event with
  | Err e => (t, Err e)
  | Ok projection =>
      let input := mkInput (lp_TenantID projection) (lp_ID projection) (lp_CreatedBy projection)
        (lp_GoalAgentCount projection) (lp_State projection) (lp_Version projection)
        (lp_PausedFromState projection) (wrap64 (lp_Version projection - 1)) 0 in
      match Ensure input t with
      | (t, Err _) => (t, Err ErrSynchronization)
      | (t, Ok started) =>
          if negb (st_Duplicate started) || (e_AggregateVersion event =? 1) then (t, Ok tt) else
          match SignalWorkflow (st_WorkflowID started) (mkEvent (e_EventID event) (e_Type event)
                  (e_AggregateVersion event) (lp_State projection) (e_PayloadSHA256 event)
                  (e_OccurredAt event)) t with
          | (t, false) => (t, Err ErrSynchronization)
          | (t, true) => (t, Ok tt)
          end
      end
  end.
Fixpoint synchronize_all (events : list DomainEvent) (t : world) : world * result unit workflow_error :=
  match events with
  | [] => (t, Ok tt)
  | event :: events =>
      match synchronize_one event t with
      | (t, Err e) => (t, Err e)
      | (t, Ok _) => synchronize_all events t
      end
  end.
Definition synchronize (events : list DomainEvent) (t : world) : world * result unit workflow_error :=
  synchronize_all (sort_slice project_event_before
    (List.filter (fun event => e_AggregateType event ≟ "project") events)) t.

(** [ProjectLifecycleStore] over the memory store: what the wrapped store
    answers, then the synchronization of its events. *)
Context (jcs_Transform : string -> option string) (sha256_Sum256 : string -> list Z).

Definition Store_Execute (request : TransactionRequest) (s : MemoryStore) (t : world)
    : MemoryStore * world * result TransactionResult workflow_error :=
  match EventStore.Execute jcs_Transform sha256_Sum256 request s with
  | (s, Err e) => (s, t, Err (ErrStore e))
  | (s, Ok answer) =>
      match synchronize (t_Events answer) t with
      | (t, Err e) => (s, t, Err e)
      | (t, Ok _) => (s, t, Ok answer)
      end
  end.

Definition Store_Lookup (tenantID principalID idempotencyKey requestSHA256 : string) (s : MemoryStore)
    (t : world) : world * result (option TransactionResult) workflow_error :=
  match EventStore.Lookup tenantID principalID idempotencyKey requestSHA256 s with
  | Err e => (t, Err (ErrStore e))
  | Ok None => (t, Ok None)
  | Ok (Some answer) =>
      match synchronize (t_Events answer) t with
      | (t, Err e) => (t, Err e)
      | (t, Ok _) => (t, Ok (Some answer))
      end
  end.
End Client.
End Lifecycle.
