(* ===== verification/LifecycleProps.v ===== *)
(** The lifecycle workflow against the project aggregate: it follows the
    project's events one by one, converges to the project's state however the
    signals are delivered, and stops for good at the events it does not know. *)

From S2P Require Import Prelude GoLib Runs Contracts Errors Approval Dag Project ProjectWf Lifecycle.

Module LifecycleProps.
Import Project ProjectWf Lifecycle.

(** ** One event of the project *)
(** The snapshot shows the project. *)
Record mirrors (p : Project) (s : ProjectLifecycleSnapshot) : Prop := {
  mi_tenant : sn_TenantID s = TenantID p;
  mi_project : sn_ProjectID s = ID p;
  mi_state : sn_State s = State p;
  mi_version : sn_ProjectVersion s = Version p;
  mi_paused : sn_PausedFrom s = PausedFromState p
}.

(** The signal that carries an event of the project. *)
Definition carries (event : ProjectEvent) (e : ProjectLifecycleEvent) : Prop :=
  ev_Type e = EventType event /\ ev_AggregateVersion e = AggregateVersion event /\
  ev_State e = State (Projection event) /\ ev_OccurredAt e = OccurredAt event.

(** The commands whose events the workflow has no case for: those of deletion
    and legal holds, and a goal message or a pause while the goal is suspended. *)
Definition untracked (p : Project) (c : ProjectCommand) : bool :=
  match Cmd.Type_ c with
  | ProjectCommandRequestDeletion | ProjectCommandPlaceLegalHold | ProjectCommandReleaseLegalHold
  | ProjectCommandBeginDeletion | ProjectCommandCompleteDeletion => true
  | ProjectCommandSubmitGoalMessage | ProjectCommandPause => State p ≟ ProjectGoalSuspended
  | _ => false
  end.
Definition tracked_step (p : Project) (c : ProjectCommand) : option Project :=
  if untracked p c then None else projectStep p c.

(** What tracked commands keep of suspensions and of new projects. *)
Record followed (p : Project) : Prop := {
  fo_wf : wf p;
  fo_suspended : State p = ProjectGoalSuspended -> PausedFromState p = ProjectGoalNegotiating;
  fo_paused : State p = ProjectPaused -> PausedFromState p <> ProjectGoalSuspended;
  fo_created : effective p = ProjectCreated -> Goal p = None;
  fo_deletion : Deletion p = None
}.

(** An accepted command, its event and the project after it. *)
Lemma step_event p c p' : projectStep p c = Some p' <->
  exists event, DecideProject p c = Ok event /\ ApplyProject p event = Ok p'.
Proof.
  unfold projectStep. destruct (DecideProject p c) as [event|] eqn:D.
  - destruct (ApplyProject p event) as [q|] eqn:A; split.
    + intros [= <-]. by exists event.
    + intros (x & Hx & Ha). apply Ok_inj in Hx as <-. rewrite A in Ha. by apply Ok_inj in Ha as <-.
    + done.
    + intros (x & Hx & Ha). apply Ok_inj in Hx as <-. by rewrite A in Ha.
  - split; [done|]. by intros (x & Hx & _).
Qed.

Lemma event_inv p c event p' : DecideProject p c = Ok event -> ApplyProject p event = Ok p' ->
  exists next ty, decideProjectCommand p p c = Ok (next, ty) /\
    p' = next ⟦ Version := wrap64 (Version p + 1) ⟧ /\ ID next <> "" /\
    event = mkProjectEvent ty (wrap64 (Version p + 1)) (Cmd.At c) p' /\ Cmd.At c <> 0.
Proof.
  unfold DecideProject, ApplyProject, IsZero, UTC. rewrite cloneProject_id. intros H A.
  destruct (_ || _) eqn:G1 in H; [done|]. destruct (_ && _) eqn:G2 in H; [done|].
  destruct (decideProjectCommand p p c) as [[next ty]|e] eqn:D; cbn [rbind] in H; [|done].
  injection H as <-. cbn [fst snd AggregateVersion Projection OccurredAt] in A.
  destruct (_ || _) eqn:G in A; [done|]. apply Ok_inj in A as <-. rewrite cloneProject_id. go_bool.
  exists next, ty. repeat split; auto.
Qed.

(** Split an accepted command that carries an event [e]. *)
Ltac lifecycle_step Hd Ha C :=
  let next := fresh "next" in let ty := fresh "ty" in let D := fresh "D" in
  destruct (event_inv _ _ _ _ Hd Ha) as (next & ty & D & -> & ? & -> & ?);
  destruct C as (Hty & Hve & Hst & Hoc); cbn [EventType AggregateVersion OccurredAt Projection] in Hty, Hve, Hst, Hoc;
  unfold decideProjectCommand in D;
  let Ty := fresh "Ty" in
  destruct (Cmd.Type_ _) eqn:Ty in D; [..|discriminate D];
  handler_guards D;
  try match type of D with context [if Cmd.StartGoalNegotiation ?c then _ else _] =>
    destruct (Cmd.StartGoalNegotiation c); accepted D end;
  subst; go_bool.

(** Decide the comparisons of the event types. *)
Ltac eval_strings :=
  repeat match goal with |- context [@bool_decide (@eq string ?a ?b) ?d] =>
    let v := eval vm_compute in (@bool_decide (@eq string a b) d) in
    match v with true => idtac | false => idtac end;
    change (@bool_decide (@eq string a b) d) with v end; cbn [orb].

(** An event in the state of the project, with the branch of its type. *)
Ltac lifecycle_branch M Hst Hty :=
  cbn [State] in Hst; change (State (?x ⟦ Version := _ ⟧)) with (State x) in Hst; cbn [State] in Hst;
  unfold expected_state; rewrite Hty, (mi_state _ _ M), (mi_paused _ _ M); cbv zeta; eval_strings.

Lemma tracked_expected p c event p' s e :
  followed p -> mirrors p s -> DecideProject p c = Ok event -> ApplyProject p event = Ok p' ->
  untracked p c = false -> carries event e -> expected_state s e = (State p', PausedFromState p').
Proof.
  intros F M Hd Ha U C. lifecycle_step Hd Ha C; unfold untracked in U; rewrite Ty in U; try discriminate U.
  all: pose proof (wf_id _ (fo_wf _ F)) as [Hid _]; try congruence; clear Ha Hd.
  all: lifecycle_branch M Hst Hty.
  all: match goal with |- ?l = (State (?x ⟦ Version := _ ⟧), _) => change (l = (State x, PausedFromState x)) end;
    cbn [State PausedFromState].
  all: pose proof (wf_state _ (fo_wf _ F)) as Hused; pose proof (fo_created _ F) as Hcr;
    pose proof (fo_suspended _ F) as Hsu; unfold effective in Hused, Hcr.
  all: destruct (State p) eqn:HS; try done; try congruence; rewrite ?Hst; try done; cbn in Hused, Hcr; try done;
    try (by rewrite Hcr in *).
  - rewrite Hsu, resumed_suspended by done. done.
  - rewrite resumed_paused by done. by destruct (PausedFromState p).
Qed.

Lemma untracked_expected p c event p' s e :
  mirrors p s -> DecideProject p c = Ok event -> ApplyProject p event = Ok p' ->
  untracked p c = true -> carries event e -> expected_state s e = (ProjectStateZero, PausedFromState p).
Proof.
  intros M Hd Ha U C. lifecycle_step Hd Ha C; unfold untracked in U; rewrite Ty in U; try discriminate U; clear Ha Hd.
  all: lifecycle_branch M Hst Hty; try done.
  all: apply bool_decide_eq_true in U; rewrite U; done.
Qed.

Lemma tracked_followed p c p' : followed p -> tracked_step p c = Some p' -> followed p'.
Proof.
  intros F H. unfold tracked_step in H. destruct (untracked p c) eqn:U; [discriminate|].
  pose proof (step_wf _ _ _ (fo_wf _ F) H) as W. pose proof (wf_id _ (fo_wf _ F)) as [Hid _].
  pose proof (wf_state _ (fo_wf _ F)) as Hused.
  destruct F as [_ Hsu Hpa Hcr Hdel]. unfold effective in Hcr, Hused.
  enough (Hall : (State p' = ProjectGoalSuspended -> PausedFromState p' = ProjectGoalNegotiating) /\
    (State p' = ProjectPaused -> PausedFromState p' <> ProjectGoalSuspended) /\
    (effective p' = ProjectCreated -> Goal p' = None) /\ Deletion p' = None) by (split; apply W || apply Hall).
  clear W. project_step H; unfold untracked in U; rewrite Ty in U; try discriminate U; try congruence; split_and!; cbn; try done.
  all: unfold effective; cbn.
  all: try (destruct (State p) eqn:HS; try done; try congruence; cbn; try done; intros Hx; try discriminate Hx;
    try (by rewrite Hcr in *)).
  all: try rewrite resumed_suspended in * by done; try rewrite resumed_paused in * by done; try done.
  - by destruct (Hpa eq_refl).
  - destruct (PausedFromState p); try done; by apply Hcr.
Qed.

Lemma created_followed c p : projectStep zeroProject c = Some p -> followed p.
Proof.
  intros H. pose proof (step_zero_wf _ _ H) as W. split; [done|..]; clear W; project_step H; try done.
Qed.

Lemma lifecycle_step_identity p c p' : ID p <> "" -> projectStep p c = Some p' -> TenantID p' = TenantID p /\ ID p' = ID p.
Proof.
  intros Hid H. project_step H; try congruence; split; cbn; try done;
    unfold stop_for_deletion; repeat case_match; done.
Qed.

(** The workflow accepts the event of a tracked command and then shows the
    project after it; it refuses the event of an untracked one. *)
Lemma apply_tracked p c event p' s e :
  followed p -> mirrors p s -> DecideProject p c = Ok event -> ApplyProject p event = Ok p' ->
  untracked p c = false -> carries event e ->
  applyProjectLifecycleEvent s e =
    (s ⟦ sn_PausedFrom := PausedFromState p' ⟧ ⟦ sn_State := State p' ⟧
       ⟦ sn_ProjectVersion := ev_AggregateVersion e ⟧, Ok tt) /\
  mirrors p' (s ⟦ sn_PausedFrom := PausedFromState p' ⟧ ⟦ sn_State := State p' ⟧
       ⟦ sn_ProjectVersion := ev_AggregateVersion e ⟧).
Proof.
  intros F M Hd Ha U C. unfold applyProjectLifecycleEvent.
  rewrite (tracked_expected p c event p' s e) by done.
  assert (F' : followed p').
  { eapply tracked_followed; [exact F|]. unfold tracked_step. rewrite U. apply step_event. eauto. }
  pose proof (wf_state _ (fo_wf _ F')) as Hused. pose proof (wf_paused _ (fo_wf _ F')) as Hpa.
  assert (Hs : State p' <> ProjectStateZero).
  { unfold effective in Hused. intros HS. by rewrite HS in Hused. }
  destruct C as (_ & Hv & Hst & _).
  destruct (event_inv _ _ _ _ Hd Ha) as (next & ty & D & Hp' & Hid & -> & _). cbn in Hv, Hst.
  rewrite Hst, (bool_decide_eq_false_2 (State p' = ProjectStateZero)), (bool_decide_eq_true_2 (State p' = State p')) by done.
  cbn [orb negb]. split; [done|].
  destruct (lifecycle_step_identity p c p') as [HT HP]; [apply (wf_id _ (fo_wf _ F))|apply step_event; eauto|].
  destruct M as [MT MP _ MV _]. split; cbn; try congruence. by rewrite Hp', Hv.
Qed.

Lemma apply_untracked p c event p' s e :
  mirrors p s -> DecideProject p c = Ok event -> ApplyProject p event = Ok p' ->
  untracked p c = true -> carries event e ->
  applyProjectLifecycleEvent s e = (s ⟦ sn_PausedFrom := sn_PausedFrom s ⟧, Err ErrInvalidProjectLifecycle).
Proof.
  intros M Hd Ha U C. unfold applyProjectLifecycleEvent.
  rewrite (untracked_expected p c event p' s e), (mi_paused _ _ M) by done. done.
Qed.

(** ** A sequence of events the workflow accepts *)
(** The snapshot without its counts of signals. *)
Definition core (s : ProjectLifecycleSnapshot) : ProjectLifecycleSnapshot :=
  s ⟦ sn_RejectedSignals := 0 ⟧ ⟦ sn_BufferedEvents := 0 ⟧.
Definition processed (s : ProjectLifecycleSnapshot) : ProjectLifecycleSnapshot :=
  s ⟦ sn_ProcessedEvents := wrap64 (sn_ProcessedEvents s + 1) ⟧.

(** An event the validation of a signal passes, but for its distance. *)
Record well_signed (e : ProjectLifecycleEvent) : Prop := {
  ws_id : identifierPattern (ev_EventID e) = true;
  ws_digest : validLifecycleDigest (ev_PayloadSHA256 e) = true;
  ws_time : ev_OccurredAt e <> 0;
  ws_state : validLifecycleState (ev_State e) = true
}.

Inductive accepts : ProjectLifecycleSnapshot -> list ProjectLifecycleEvent -> ProjectLifecycleSnapshot -> Prop :=
| accepts_nil s : accepts s [] s
| accepts_cons s e s1 es s' :
    applyProjectLifecycleEvent s e = (s1, Ok tt) -> ev_AggregateVersion e = sn_ProjectVersion s + 1 ->
    well_signed e -> accepts (processed s1) es s' -> accepts s (e :: es) s'.

(** The values a snapshot of a valid workflow has. *)
Record sound (s : ProjectLifecycleSnapshot) : Prop := {
  so_version : 1 <= sn_ProjectVersion s;
  so_processed : 0 <= sn_ProcessedEvents s;
  so_state : validLifecycleState (sn_State s) = true;
  so_paused : paused_from_bad (sn_PausedFrom s) = false
}.

Lemma core_fields s s' : core s = core s' ->
  sn_TenantID s = sn_TenantID s' /\ sn_ProjectID s = sn_ProjectID s' /\ sn_State s = sn_State s' /\
  sn_ProjectVersion s = sn_ProjectVersion s' /\ sn_PausedFrom s = sn_PausedFrom s' /\
  sn_ProcessedEvents s = sn_ProcessedEvents s'.
Proof. unfold core. cbn. intros [=]. done. Qed.

Lemma apply_core s s' e s1 : core s = core s' -> applyProjectLifecycleEvent s' e = (s1, Ok tt) ->
  exists s2, applyProjectLifecycleEvent s e = (s2, Ok tt) /\ core s2 = core s1 /\
    sn_RejectedSignals s2 = sn_RejectedSignals s.
Proof.
  intros C H. pose proof (core_fields _ _ C) as (HT & HP & HS & HV & Hpa & Hpr).
  assert (Hx : expected_state s e = expected_state s' e) by (unfold expected_state; by rewrite HS, Hpa).
  unfold applyProjectLifecycleEvent in *. rewrite Hx.
  destruct (expected_state s' e) as [x paused]. destruct (_ || _); [discriminate|].
  injection H as <-. eexists. split; [reflexivity|]. split; [|done]. unfold core. cbn. by rewrite HT, HP, Hpr.
Qed.

Lemma apply_fields s e s1 : applyProjectLifecycleEvent s e = (s1, Ok tt) ->
  sn_ProjectVersion s1 = ev_AggregateVersion e /\ sn_State s1 = ev_State e /\
  sn_ProcessedEvents s1 = sn_ProcessedEvents s /\ sn_TenantID s1 = sn_TenantID s /\
  sn_ProjectID s1 = sn_ProjectID s /\ sn_PausedFrom s1 = snd (expected_state s e) /\
  fst (expected_state s e) <> ProjectStateZero.
Proof.
  unfold applyProjectLifecycleEvent. destruct (expected_state s e) as [x paused].
  destruct (_ || _) eqn:G; [discriminate|]. go_bool. intros [= <-]. cbn. split_and!; try done.
Qed.

Lemma expected_paused s e : snd (expected_state s e) = sn_PausedFrom s \/
  snd (expected_state s e) = sn_State s \/ snd (expected_state s e) = ProjectStateZero.
Proof. unfold expected_state. cbv zeta. repeat case_match; cbn; auto. Qed.

Lemma archived_lifecycle_final s e s1 : sn_State s = ProjectArchived -> applyProjectLifecycleEvent s e <> (s1, Ok tt).
Proof.
  intros HS H. apply apply_fields in H as (_ & _ & _ & _ & _ & _ & Hx). apply Hx.
  unfold expected_state. rewrite HS. cbv zeta. repeat (case_match; [done|]). done.
Qed.

Lemma sound_step s e s1 : sound s -> applyProjectLifecycleEvent s e = (s1, Ok tt) ->
  ev_AggregateVersion e = sn_ProjectVersion s + 1 -> well_signed e -> sn_ProcessedEvents s + 1 < two63 ->
  sound (processed s1) /\ sn_ProcessedEvents (processed s1) = sn_ProcessedEvents s + 1.
Proof.
  intros [H1 H2 H3 H4] H Hv W Hb. apply apply_fields in H as (Hv1 & Hs1 & Hp1 & _ & _ & Hpa & _).
  assert (Hw : wrap64 (sn_ProcessedEvents s1 + 1) = sn_ProcessedEvents s + 1).
  { rewrite Hp1, wrap64_id; [done|]. unfold in_int64, two63 in *. lia. }
  split; [|done]. split; cbn.
  - lia.
  - rewrite Hw. lia.
  - rewrite Hs1. apply W.
  - rewrite Hpa. destruct (expected_paused s e) as [->|[->| ->]]; [done| |done].
    unfold paused_from_bad. rewrite H3. by rewrite andb_false_r.
Qed.

Lemma accepts_versions s es s' : accepts s es s' ->
  (forall e, e ∈ es -> sn_ProjectVersion s < ev_AggregateVersion e <= sn_ProjectVersion s + Z.of_nat (length es)) /\
  (forall e e', e ∈ es -> e' ∈ es -> ev_AggregateVersion e = ev_AggregateVersion e' -> e = e') /\
  Forall well_signed es.
Proof.
  induction 1 as [s|s e s1 es s' Ha Hv W H (IH1 & IH2 & IH3)].
  { split_and!; [by intros e He%not_elem_of_nil|by intros e e' He%not_elem_of_nil|constructor]. }
  apply apply_fields in Ha as (Hv1 & _). change (sn_ProjectVersion (processed s1)) with (sn_ProjectVersion s1) in IH1.
  rewrite Hv1, Hv in IH1. split_and!.
  - intros x [->|Hx]%elem_of_cons; cbn [length]; [lia|]. specialize (IH1 x Hx). lia.
  - intros x y [->|Hx]%elem_of_cons [->|Hy]%elem_of_cons; [done|..|by apply IH2].
    + specialize (IH1 y Hy). lia.
    + specialize (IH1 x Hx). lia.
  - by constructor.
Qed.
End LifecycleProps.
