(* ===== verification/LifecycleRuns.v ===== *)
(** Runs of the lifecycle workflow: however the signals of a project arrive, and
    over any number of continued runs, it ends at the project's state; and an
    event it refuses stops it for good. *)

From S2P Require Import Prelude GoLib Runs Contracts Errors Approval Dag Project ProjectWf ProjectProps Lifecycle LifecycleProps.

Module LifecycleRuns.
Import Project ProjectWf ProjectProps Lifecycle LifecycleProps.

(** What follows a turn. *)
Definition settle (t : turn) : lifecycle :=
  match t with
  | Waiting w => Running w
  | Complete snapshot => Completed snapshot
  | ContinueAsNew input => begin input
  end.

Definition request_of (w : workflow) : ProjectLifecycleRequest :=
  mkRequest (sn_TenantID (w_snapshot w)) (sn_ProjectID (w_snapshot w)) (w_CreatedBy w) (w_GoalAgentCount w).

(** The workflow has applied the events up to [s], and holds those of the
    remaining ones that were delivered. *)
Record tracking (D : list ProjectLifecycleEvent) (s : ProjectLifecycleSnapshot)
    (rest : list ProjectLifecycleEvent) (M : Z) (w : workflow) : Prop := {
  tr_core : core (w_snapshot w) = core s;
  tr_buffer k e : w_buffer w !! k = Some e <-> e ∈ rest /\ e ∈ D /\ ev_AggregateVersion e = k;
  tr_request : validProjectLifecycleRequest (request_of w) = true;
  tr_rejected : 0 <= sn_RejectedSignals (w_snapshot w) <= M
}.

(** The same, with the next event not yet delivered. *)
Definition settled (D : list ProjectLifecycleEvent) (s : ProjectLifecycleSnapshot)
    (rest : list ProjectLifecycleEvent) (s' : ProjectLifecycleSnapshot) (M : Z) (l : lifecycle) : Prop :=
  match l with
  | Running w => exists old new s1, rest = old ++ new /\ accepts s old s1 /\ accepts s1 new s' /\ sound s1 /\
      sn_ProcessedEvents s1 = sn_ProcessedEvents s + Z.of_nat (length old) /\
      tracking D s1 new M w /\ match new with e :: _ => e ∉ D | [] => True end
  | Completed snapshot => core snapshot = core s' /\ sn_State s' = ProjectArchived /\
      sn_BufferedEvents snapshot = 0
  | Failed => False
  end.

Lemma settled_cons D s e rest s1 s' M l :
  applyProjectLifecycleEvent s e = (s1, Ok tt) -> ev_AggregateVersion e = sn_ProjectVersion s + 1 ->
  well_signed e -> sn_ProcessedEvents (processed s1) = sn_ProcessedEvents s + 1 ->
  settled D (processed s1) rest s' M l -> settled D s (e :: rest) s' M l.
Proof.
  intros Ha Hv W Hp. destruct l as [w|snap|]; cbn [settled]; [|done|done].
  intros (old & new & s2 & -> & Ho & Hn & Hs & Hc & Ht & Hd). exists (e :: old), new, s2.
  split_and!; try done; [by econstructor|]. rewrite Hc, Hp. cbn [length]. lia.
Qed.

Lemma begin_continuation D s rest M w :
  tracking D s rest M w -> sound s -> buffered w = 0 ->
  exists w', begin (continuation w) = Running w' /\ tracking D s rest M w'.
Proof.
  intros [C B R J] [H1 H2 H3 H4] Hb. pose proof (core_fields _ _ C) as (HT & HP & HS & HV & Hpa & Hpr).
  assert (Hv : validateProjectLifecycleInput (continuation w) = Ok tt).
  { unfold validateProjectLifecycleInput, continuation, request_of in *. cbn. rewrite R, HV, Hpr, HS, H3, Hpa, H4.
    rewrite !(proj2 (Z.ltb_ge _ _)) by lia. done. }
  unfold begin, start_workflow. rewrite Hv. cbn [rbind]. eexists. split; [reflexivity|]. split; cbn.
  - unfold core in *. cbn. by rewrite HT, HP, HS, HV, Hpa, Hpr.
  - intros k e. rewrite lookup_empty, <- B. unfold buffered in Hb.
    assert (Hz : size (w_buffer w) = 0%nat) by lia. apply map_size_empty_inv in Hz. by rewrite Hz, lookup_empty.
  - exact R.
  - exact J.
Qed.

Lemma tracking_applied D s h rest s1 s2 M w :
  tracking D s (h :: rest) M w -> core s2 = core s1 -> sn_RejectedSignals s2 = sn_RejectedSignals (w_snapshot w) ->
  ev_AggregateVersion h = sn_ProjectVersion s + 1 ->
  (forall e e', e ∈ h :: rest -> e' ∈ h :: rest -> ev_AggregateVersion e = ev_AggregateVersion e' -> e = e') ->
  h ∉ rest -> sn_TenantID s1 = sn_TenantID s -> sn_ProjectID s1 = sn_ProjectID s ->
  tracking D (processed s1) rest M
    (record_applied h s2 (w ⟦ w_buffer := delete (sn_ProjectVersion s + 1) (w_buffer w) ⟧)).
Proof.
  intros [C B R J] C2 Hrej Hv Huniq Hni HT1 HP1.
  pose proof (core_fields _ _ C) as (HT & HP & _). pose proof (core_fields _ _ C2) as (HT2 & HP2 & HS2 & HV2 & Hpa2 & Hpr2).
  split; cbn.
  - unfold core, processed in *. cbn. by rewrite HT2, HP2, HS2, HV2, Hpa2, Hpr2.
  - intros k e. rewrite lookup_delete_Some, B, elem_of_cons. split.
    + intros (Hne & [->|He] & HD & Hk); [lia|done].
    + intros (He & HD & Hk). split_and!; [|by right|done|done]. intros Heq. apply Hni.
      rewrite (Huniq h e); [done|by left|by right|lia].
  - unfold request_of in *. cbn. by rewrite HT2, HP2, HT1, HP1, <- HT, <- HP.
  - rewrite Hrej. exact J.
Qed.

Lemma drain_settled rounds D s rest s' M w :
  tracking D s rest M w -> accepts s rest s' -> sound s ->
  sn_ProjectVersion s + Z.of_nat (length rest) + 1 < two63 ->
  sn_ProcessedEvents s + Z.of_nat (length rest) < two63 ->
  (size (w_buffer w) <= rounds)%nat -> settled D s rest s' M (settle (drain_buffer rounds w)).
Proof.
  revert s rest w. induction rounds as [|rounds IH]; intros s rest w T A S Hv Hp Hn.
  - cbn. exists [], rest, s. split_and!; try done; [constructor|cbn; lia|].
    destruct rest as [|e rest]; [done|]. intros Hin.
    assert (Hz : size (w_buffer w) = 0%nat) by lia. apply map_size_empty_inv in Hz.
    assert (He : w_buffer w !! ev_AggregateVersion e = Some e) by (apply (tr_buffer _ _ _ _ _ T); set_solver).
    by rewrite Hz, lookup_empty in He.
  - cbn [drain_buffer]. cbv zeta. pose proof (core_fields _ _ (tr_core _ _ _ _ _ T)) as (HT & HP & HS & HV & Hpa & Hpr).
    rewrite HV. pose proof (so_version _ S).
    rewrite wrap64_id by (unfold in_int64, two63 in *; lia).
    destruct (w_buffer w !! (sn_ProjectVersion s + 1)) as [e|] eqn:He.
    2: { cbn [settle]. exists [], rest, s. split_and!; try done; [constructor|cbn; lia|].
         destruct rest as [|e rest]; [done|]. inversion A; subst. intros Hin.
         assert (Hx : w_buffer w !! (sn_ProjectVersion s + 1) = Some e) by (apply (tr_buffer _ _ _ _ _ T); set_solver).
         congruence. }
    pose proof He as (Hin & HD & Hve)%(tr_buffer _ _ _ _ _ T).
    pose proof (accepts_versions _ _ _ A) as (_ & Huniq & _).
    destruct rest as [|h rest]; [by apply not_elem_of_nil in Hin|].
    inversion A as [|? ? s1 ? ? Ha Hvh W A']; subst.
    assert (e = h) as -> by (apply Huniq; [done|by left|lia]).
    destruct (apply_core (w_snapshot w) s h s1 (tr_core _ _ _ _ _ T) Ha) as (s2 & Hs2 & Hc2 & Hrej).
    change (w_snapshot (w ⟦ w_buffer := _ ⟧)) with (w_snapshot w). rewrite Hs2.
    set (w1 := record_applied h s2 (w ⟦ w_buffer := delete (sn_ProjectVersion s + 1) (w_buffer w) ⟧)).
    pose proof (apply_fields _ _ _ Ha) as (Hv1 & _ & _ & HT1 & HP1 & _).
    assert (Hni : h ∉ rest).
    { intros Hx. apply accepts_versions in A' as (Hr & _). specialize (Hr h Hx).
      change (sn_ProjectVersion (processed s1)) with (sn_ProjectVersion s1) in Hr. lia. }
    assert (T1 : tracking D (processed s1) rest M w1) by (by apply (tracking_applied D s h rest s1 s2)).
    cbn [length] in Hv, Hp. destruct (sound_step s h s1 S Ha Hve W) as [S1 Hp1]; [lia|].
    assert (Hb : w_buffer w1 = delete (sn_ProjectVersion s + 1) (w_buffer w)) by reflexivity.
    destruct (decide (sn_State (w_snapshot w1) = ProjectArchived)) as [Harch|Harch].
    + rewrite bool_decide_eq_true_2 by done. cbn [settle settled].
      pose proof (core_fields _ _ (tr_core _ _ _ _ _ T1)) as (_ & _ & HS1 & _).
      destruct rest as [|x rest].
      2: { inversion A'; subst. exfalso. eapply (archived_lifecycle_final (processed s1)); [congruence|eassumption]. }
      inversion A'; subst. split_and!; [exact (tr_core _ _ _ _ _ T1)|congruence|].
      unfold query. change (buffered w1 = 0). unfold buffered. rewrite (map_eq (w_buffer w1) ∅); [done|].
      intros k. rewrite lookup_empty. apply eq_None_not_Some. intros [x Hx].
      apply (tr_buffer _ _ _ _ _ T1) in Hx as (Hx & _). by apply not_elem_of_nil in Hx.
    + rewrite bool_decide_eq_false_2 by done. eapply settled_cons; [done..|].
      assert (Hsize : (size (w_buffer w1) <= rounds)%nat).
      { rewrite Hb, map_size_delete_Some by (eexists; exact He). lia. }
      assert (Hrec : settled D (processed s1) rest s' M (settle (drain_buffer rounds w1))).
      { apply IH; try done; [change (sn_ProjectVersion (processed s1)) with (sn_ProjectVersion s1); lia|lia]. }
      destruct (_ && _) eqn:Hend; [|exact Hrec]. go_bool.
      destruct (begin_continuation D (processed s1) rest M w1 T1 S1) as (w' & Hw' & T'); [lia|].
      cbn [settle]. rewrite Hw'. exists [], rest, (processed s1). split_and!; try done; [constructor|cbn; lia|].
      destruct rest as [|x rest]; [done|]. intros HxD. inversion A'; subst.
      assert (Hx : w_buffer w1 !! ev_AggregateVersion x = Some x) by (apply (tr_buffer _ _ _ _ _ T1); set_solver).
      unfold buffered in *. assert (Hz : size (w_buffer w1) = 0%nat) by lia. apply map_size_empty_inv in Hz.
      by rewrite Hz, lookup_empty in Hx.
Qed.

Lemma accepts_app s old s1 new s' : accepts s old s1 -> accepts s1 new s' -> accepts s (old ++ new) s'.
Proof. induction 1; [done|]. intros H'. cbn. econstructor; eauto. Qed.

Lemma accepts_version s es s' : accepts s es s' -> sn_ProjectVersion s' = sn_ProjectVersion s + Z.of_nat (length es).
Proof.
  induction 1 as [|s e s1 es s' Ha Hv _ _ IH]; [cbn; lia|]. apply apply_fields in Ha as (Hv1 & _).
  change (sn_ProjectVersion (processed s1)) with (sn_ProjectVersion s1) in IH. cbn [length]. lia.
Qed.

Lemma settled_app D s0 old s1 new s' M l :
  accepts s0 old s1 -> sn_ProcessedEvents s1 = sn_ProcessedEvents s0 + Z.of_nat (length old) ->
  settled D s1 new s' M l -> settled D s0 (old ++ new) s' M l.
Proof.
  intros A Hp. destruct l as [w|snap|]; cbn [settled]; [|done|done].
  intros (o & n & s2 & -> & Ho & Hn & S & Hc & T & Hd). exists (old ++ o), n, s2.
  split_and!; try done; [by rewrite app_assoc|by eapply accepts_app|]. rewrite Hc, Hp, length_app. lia.
Qed.

(** ** One delivery *)
(** An event that adds nothing to the buffer. *)
Lemma tracking_known D s rest M w e :
  tracking D s rest M w -> (e ∈ rest -> e ∈ D) ->
  tracking (e :: D) s rest (M + 1) w /\ (M + 1 < two63 -> tracking (e :: D) s rest (M + 1) (reject_signal w)).
Proof.
  intros [C B R J] He.
  assert (HB : forall k x, w_buffer w !! k = Some x <-> x ∈ rest /\ x ∈ e :: D /\ ev_AggregateVersion x = k).
  { intros k x. rewrite B, elem_of_cons. split; [tauto|]. intros (Hx & [->|HD] & Hk); auto. }
  split; [split; try done; lia|]. intros HM. split; try done. cbn.
  rewrite wrap64_id; [lia|]. unfold in_int64, two63 in *. lia.
Qed.

Lemma next_known {D new} {e : ProjectLifecycleEvent} :
  (e ∈ new -> e ∈ D) -> match new with h :: _ => h ∉ D | [] => True end ->
  match new with h :: _ => h ∉ e :: D | [] => True end.
Proof.
  destruct new as [|h new]; [done|]. intros He Hh [->|Hx]%elem_of_cons; [|done]. apply Hh, He. by left.
Qed.

Lemma buffer_bound D s rest M w e :
  tracking D s rest M w -> e ∈ rest -> e ∉ D ->
  (forall x, x ∈ rest -> sn_ProjectVersion s < ev_AggregateVersion x <= sn_ProjectVersion s + Z.of_nat (length rest)) ->
  (forall x y, x ∈ rest -> y ∈ rest -> ev_AggregateVersion x = ev_AggregateVersion y -> x = y) ->
  buffered w < Z.of_nat (length rest).
Proof.
  intros T He HD Hr Huniq. unfold buffered. rewrite <- size_dom.
  assert (Hni : ev_AggregateVersion e ∉ dom (w_buffer w)).
  { rewrite elem_of_dom. intros [x Hx]. apply (tr_buffer _ _ _ _ _ T) in Hx as (Hx & HxD & Hv).
    rewrite (Huniq x e) in HxD; done. }
  assert (Hsub : {[ev_AggregateVersion e]} ∪ dom (w_buffer w) ⊆
    (list_to_set (seqZ (sn_ProjectVersion s + 1) (Z.of_nat (length rest))) : gset Z)).
  { intros k Hk. apply elem_of_list_to_set, elem_of_seqZ.
    apply elem_of_union in Hk as [->%elem_of_singleton|[x Hx]%elem_of_dom]; [specialize (Hr e He); lia|].
    apply (tr_buffer _ _ _ _ _ T) in Hx as (Hx & _ & <-). specialize (Hr x Hx). lia. }
  apply subseteq_size in Hsub. rewrite size_union, size_singleton in Hsub by set_solver.
  rewrite size_list_to_set, length_seqZ in Hsub by apply NoDup_seqZ. lia.
Qed.

Lemma validate_signed e s : well_signed e -> 1 <= ev_AggregateVersion e ->
  ev_AggregateVersion e <= sn_ProjectVersion s + lifecycleBufferLimit ->
  0 <= sn_ProjectVersion s -> sn_ProjectVersion s + lifecycleBufferLimit < two63 ->
  validateProjectLifecycleEvent e s = Ok tt.
Proof.
  intros [H1 H2 H3 H4] Hv Hle H0 Hmax. unfold validateProjectLifecycleEvent, IsZero.
  rewrite wrap64_id by (unfold in_int64, lifecycleBufferLimit, two63 in *; lia).
  rewrite H1, H2, H4, !(proj2 (Z.ltb_ge _ _)) by lia. by rewrite (proj2 (Z.eqb_neq _ _)).
Qed.

Section Delivery.
Context (s0 s' : ProjectLifecycleSnapshot) (es : list ProjectLifecycleEvent).
Context (A : accepts s0 es s') (S0 : sound s0).
Context (Hlen : Z.of_nat (length es) <= lifecycleBufferLimit).
Context (Hversion : sn_ProjectVersion s0 + 2 * lifecycleBufferLimit < two63).
Context (Hprocessed : sn_ProcessedEvents s0 + lifecycleBufferLimit < two63).

Lemma signal_settled D l M e :
  e ∈ es -> settled D s0 es s' M l -> M + 1 < two63 -> settled (e :: D) s0 es s' (M + 1) (signal e l).
Proof.
  intros He Hl HM. destruct l as [w|snap|]; [|done|done].
  destruct Hl as (old & new & s1 & Hes & Ho & Hn & S1 & Hc & T & Hd).
  assert (Heq : signal e (Running w) = settle (receive e w)).
  { unfold signal. by destruct (receive e w). }
  rewrite Heq. clear Heq. unfold receive.
  pose proof (core_fields _ _ (tr_core _ _ _ _ _ T)) as (HT & HP & HS & HV & _).
  pose proof (accepts_versions _ _ _ A) as (Hall & Hu & Hw). pose proof (accepts_version _ _ _ Ho) as Hv1.
  pose proof (accepts_versions _ _ _ Hn) as (Hnew & _). pose proof (accepts_versions _ _ _ Ho) as (Hold & _).
  pose proof (so_version _ S0). pose proof (so_version _ S1). specialize (Hall e He).
  assert (Hlens : Z.of_nat (length es) = Z.of_nat (length old) + Z.of_nat (length new)).
  { rewrite Hes, length_app. lia. }
  rewrite validate_signed; [|exact (proj1 (Forall_forall _ _) Hw e He)|rewrite ?HV; unfold lifecycleBufferLimit in *; lia..].
  rewrite HV. destruct (Z.leb_spec (ev_AggregateVersion e) (sn_ProjectVersion s1)) as [Hle|Hgt].
  { assert (Hk : e ∈ new -> e ∈ D) by (intros Hx; specialize (Hnew e Hx); lia).
    destruct (tracking_known D s1 new M w e T Hk) as [T1 T2].
    assert (Hrest : settled (e :: D) s0 es s' (M + 1) (Running w) /\
      settled (e :: D) s0 es s' (M + 1) (Running (reject_signal w))).
    { split; exists old, new, s1; split_and!; auto; exact (next_known Hk Hd). }
    destruct (_ ≠? _); apply Hrest. }
  assert (Hin : e ∈ new).
  { rewrite Hes in He. apply elem_of_app in He as [Hx|?]; [|done]. specialize (Hold e Hx). lia. }
  destruct (w_buffer w !! ev_AggregateVersion e) as [prior|] eqn:Hb.
  { apply (tr_buffer _ _ _ _ _ T) in Hb as (Hpn & HpD & Hpv).
    assert (prior = e) as -> by (apply Hu; [rewrite Hes; set_solver|done|done]).
    rewrite !bool_decide_eq_true_2 by done. cbn [negb orb settle].
    destruct (tracking_known D s1 new M w e T (fun _ => HpD)) as [T1 _].
    exists old, new, s1. split_and!; auto; exact (next_known (fun _ => HpD) Hd). }
  assert (HeD : e ∉ D).
  { intros HD. assert (Hx : w_buffer w !! ev_AggregateVersion e = Some e) by (by apply (tr_buffer _ _ _ _ _ T)). congruence. }
  assert (Hsize : buffered w < Z.of_nat (length new)).
  { eapply buffer_bound; [exact T|done|done|done|]. intros x y Hx Hy. apply Hu; rewrite Hes; set_solver. }
  rewrite (proj2 (Z.leb_gt _ _)) by lia. subst es. eapply settled_app; [exact Ho|exact Hc|].
  apply drain_settled; try done; [|lia|lia].
  destruct T as [C B R J]. split; cbn; [exact C| |exact R|lia].
  intros k x. rewrite lookup_insert_Some, B, elem_of_cons. split.
  - intros [[<- <-]|(? & ? & ? & ?)]; auto.
  - intros (Hx & [->|HxD] & <-); [by left|]. right. split; [|done]. intros Hk. apply HeD.
    rewrite (Hu e x); [done|done|set_solver|done].
Qed.

Lemma deliver_settled L D l M :
  (forall e, e ∈ L -> e ∈ es) -> settled D s0 es s' M l -> M + Z.of_nat (length L) < two63 ->
  settled (rev L ++ D) s0 es s' (M + Z.of_nat (length L)) (foldl (fun l e => signal e l) l L).
Proof.
  revert D l M. induction L as [|e L IH]; intros D l M HL Hs HM; cbn [foldl]; [by rewrite Z.add_0_r|].
  cbn [length rev] in *. rewrite <- app_assoc. replace (M + Z.of_nat (S (length L))) with (M + 1 + Z.of_nat (length L)) by lia.
  apply IH; [intros x Hx; apply HL; by right| |lia].
  apply signal_settled; [apply HL; by left|done|lia].
Qed.

(** What is seen of a workflow, running or complete. *)
Definition outcome (l : lifecycle) : option ProjectLifecycleSnapshot :=
  match l with Running w => Some (query w) | Completed snapshot => Some snapshot | Failed => None end.

Lemma settled_outcome D M l : (forall e, e ∈ es -> e ∈ D) -> settled D s0 es s' M l ->
  exists s, outcome l = Some s /\ core s = core s' /\ sn_BufferedEvents s = 0 /\
    ((exists s, l = Completed s) -> sn_State s' = ProjectArchived).
Proof.
  intros HD. destruct l as [w|snap|]; cbn [settled outcome]; [|intros (? & ? & ?); by exists snap|done].
  intros (old & new & s1 & Hes & Ho & Hn & S1 & Hc & T & Hd). destruct new as [|h new].
  2: { exfalso. apply Hd, HD. rewrite Hes. set_solver. }
  inversion Hn; subst. exists (query w). split; [done|].
  assert (Hb : w_buffer w = ∅).
  { apply map_eq. intros k. rewrite lookup_empty. apply eq_None_not_Some. intros [x Hx].
    apply (tr_buffer _ _ _ _ _ T) in Hx as (Hx & _). by apply not_elem_of_nil in Hx. }
  split; [exact (tr_core _ _ _ _ _ T)|]. split; [|by intros [? ?]].
  change (buffered w = 0). unfold buffered. by rewrite Hb.
Qed.

Definition input_snapshot (input : ProjectLifecycleInput) : ProjectLifecycleSnapshot :=
  mkSnapshot (in_TenantID input) (in_ProjectID input) (in_State input) (in_ProjectVersion input)
    (in_PausedFrom input) (in_ProcessedEvents input) (in_RejectedSignals input) 0.

Lemma begin_settled input : validateProjectLifecycleInput input = Ok tt -> core (input_snapshot input) = core s0 ->
  settled [] s0 es s' (in_RejectedSignals input) (begin input).
Proof.
  intros Hv C. unfold begin, start_workflow. rewrite Hv. cbn [rbind settled].
  exists [], es, s0. split_and!; try done; [constructor|cbn; lia| |by destruct es; [|apply not_elem_of_nil]].
  unfold validateProjectLifecycleInput in Hv. accepted Hv. go_bool. split; cbn.
  - exact C.
  - intros k e. rewrite lookup_empty. split; [done|]. by intros (_ & ?%not_elem_of_nil & _).
  - done.
  - lia.
Qed.

Lemma delivered_all input L :
  validateProjectLifecycleInput input = Ok tt -> core (input_snapshot input) = core s0 ->
  in_RejectedSignals input + Z.of_nat (length L) < two63 -> (forall e, e ∈ L <-> e ∈ es) ->
  exists s, outcome (ProjectLifecycleWorkflow input L) = Some s /\ core s = core s' /\
    sn_BufferedEvents s = 0 /\
    ((exists s, ProjectLifecycleWorkflow input L = Completed s) -> sn_State s' = ProjectArchived).
Proof.
  intros Hv C HM HL. apply (settled_outcome (rev L ++ []) (in_RejectedSignals input + Z.of_nat (length L))).
  - intros e He. rewrite app_nil_r. apply list_elem_of_In, in_rev. rewrite rev_involutive. by apply list_elem_of_In, HL.
  - apply deliver_settled; [intros e; apply HL|by apply begin_settled|done].
Qed.
End Delivery.

(** ** The project's history *)
(** Tracked commands from a project on, with the signals of their events. *)
Inductive history : Project -> list ProjectLifecycleEvent -> Project -> Prop :=
| history_nil p : history p [] p
| history_cons p c event p1 e es p' :
    DecideProject p c = Ok event -> ApplyProject p event = Ok p1 -> untracked p c = false ->
    carries event e -> identifierPattern (ev_EventID e) = true ->
    validLifecycleDigest (ev_PayloadSHA256 e) = true -> history p1 es p' -> history p (e :: es) p'.

Lemma history_accepts p es p' s :
  history p es p' -> followed p -> mirrors p s -> 0 <= Version p -> Version p + Z.of_nat (length es) < two63 ->
  0 <= sn_ProcessedEvents s -> sn_ProcessedEvents s + Z.of_nat (length es) < two63 ->
  exists s', accepts s es s' /\ mirrors p' s' /\ sn_ProcessedEvents s' = sn_ProcessedEvents s + Z.of_nat (length es).
Proof.
  intros H. revert s. induction H as [p|p c event p1 e es p' Hd Ha U C Hid Hdig H IH]; intros s F M H0 HV Hp0 HP.
  { exists s. split; [constructor|]. split; [done|]. cbn. lia. }
  cbn [length] in HV, HP.
  destruct (apply_tracked p c event p1 s e F M Hd Ha U C) as [Happ M1].
  assert (F1 : followed p1).
  { eapply tracked_followed; [exact F|]. unfold tracked_step. rewrite U. apply step_event. eauto. }
  destruct (event_inv _ _ _ _ Hd Ha) as (next & ty & D & Hp1 & _ & Hev & Hat).
  destruct C as (_ & Hv & Hst & Hoc). rewrite Hev in Hv, Hst, Hoc. cbn in Hv, Hst, Hoc.
  assert (Hv1 : Version p1 = Version p + 1).
  { rewrite Hp1. cbn. rewrite wrap64_id; [done|]. unfold in_int64, two63 in *. lia. }
  set (s1 := s ⟦ sn_PausedFrom := PausedFromState p1 ⟧ ⟦ sn_State := State p1 ⟧
               ⟦ sn_ProjectVersion := ev_AggregateVersion e ⟧) in *.
  assert (Hps : sn_ProcessedEvents (processed s1) = sn_ProcessedEvents s + 1).
  { cbn. rewrite wrap64_id; [done|]. unfold in_int64, two63 in *. lia. }
  destruct (IH (processed s1)) as (s' & Hacc & M' & Hp').
  - exact F1.
  - destruct M1 as [? ? ? ? ?]. by split.
  - lia.
  - lia.
  - lia.
  - lia.
  - exists s'. split; [|split; [done|cbn [length]; lia]]. eapply accepts_cons; [exact Happ| |split|exact Hacc].
    + rewrite (mi_version _ _ M), Hv. change (wrap64 (Version p + 1)) with (wrap64 (Version p + 1)).
      rewrite wrap64_id; [done|]. unfold in_int64, two63 in *. lia.
    + done.
    + done.
    + congruence.
    + rewrite Hst. pose proof (wf_state _ (fo_wf _ F1)) as Hu. unfold effective in Hu. by destruct (State p1).
Qed.

(** A project that only tracked commands moved since its creation. *)
Definition tracked_project (p : Project) : Prop :=
  exists c p1 cs, projectStep zeroProject c = Some p1 /\ Runs.run tracked_step p1 cs p.

Lemma tracked_project_followed p : tracked_project p -> followed p.
Proof.
  intros (c & p1 & cs & Hc & Hr). apply (run_preserves tracked_step followed) with (t := p1) (cs := cs).
  - intros t c' t' F H. by eapply tracked_followed.
  - exact Hr.
  - by eapply created_followed.
Qed.

(** The window of the buffer, and counters that do not overflow. *)
Record within (input : ProjectLifecycleInput) (es L : list ProjectLifecycleEvent) : Prop := {
  wi_window : Z.of_nat (length es) <= lifecycleBufferLimit;
  wi_version : in_ProjectVersion input + 2 * lifecycleBufferLimit < two63;
  wi_processed : in_ProcessedEvents input + lifecycleBufferLimit < two63;
  wi_rejected : in_RejectedSignals input + Z.of_nat (length L) < two63
}.

Lemma mirrors_core p s s' : mirrors p s -> core s = core s' -> mirrors p s'.
Proof. intros [? ? ? ? ?] (HT & HP & HS & HV & Hpa & _)%core_fields. split; congruence. Qed.

Lemma workflow_converges p0 es p input L :
  tracked_project p0 -> mirrors p0 (input_snapshot input) -> validateProjectLifecycleInput input = Ok tt ->
  history p0 es p -> within input es L -> (forall e, e ∈ L <-> e ∈ es) ->
  exists s, outcome (ProjectLifecycleWorkflow input L) = Some s /\ mirrors p s /\
    sn_ProcessedEvents s = in_ProcessedEvents input + Z.of_nat (length es) /\ sn_BufferedEvents s = 0 /\
    ((exists s, ProjectLifecycleWorkflow input L = Completed s) -> State p = ProjectArchived).
Proof.
  intros Ht M Hv H [B1 B2 B3 B4] HL. pose proof (tracked_project_followed _ Ht) as F.
  assert (S : sound (input_snapshot input)).
  { unfold validateProjectLifecycleInput in Hv. accepted Hv. go_bool. split; cbn; lia || done. }
  pose proof (mi_version _ _ M) as HV. cbn in HV. pose proof (so_version _ S) as H1. cbn in H1.
  pose proof (so_processed _ S) as H2. cbn in H2.
  unfold lifecycleBufferLimit in *.
  destruct (history_accepts p0 es p (input_snapshot input) H F M) as (s' & A & M' & Hp'); [cbn; lia..|].
  destruct (delivered_all (input_snapshot input) s' es A S) with (input := input) (L := L) as (s & Hs & Hc & Hb & Ha);
    try done; [cbn; unfold lifecycleBufferLimit; lia..|].
  exists s. pose proof (core_fields _ _ Hc) as (_ & _ & _ & _ & _ & Hpr).
  split_and!; [done|by eapply mirrors_core|by rewrite Hpr, Hp'|done|].
  intros Hx. rewrite <- (mi_state _ _ M'). by apply Ha.
Qed.

(** ** Refused events *)
(** A workflow that waits for version [v], and whose events of that version are
    all refused. *)
Record waits (s : ProjectLifecycleSnapshot) (w : workflow) : Prop := {
  wt_core : core (w_snapshot w) = core s;
  wt_next : w_buffer w !! wrap64 (sn_ProjectVersion s + 1) = None
}.

Lemma drain_none rounds w :
  w_buffer w !! wrap64 (sn_ProjectVersion (w_snapshot w) + 1) = None -> drain_buffer rounds w = Waiting w.
Proof. destruct rounds; cbn; [done|]. by intros ->. Qed.

Lemma waits_reject s w : waits s w -> waits s (reject_signal w).
Proof. intros [C B]. split; [exact C|exact B]. Qed.

Lemma refused_apply s w e :
  core (w_snapshot w) = core s -> expected_state s e = (ProjectStateZero, sn_PausedFrom s) ->
  exists s1, applyProjectLifecycleEvent (w_snapshot w) e = (s1, Err ErrInvalidProjectLifecycle) /\ core s1 = core s.
Proof.
  intros C H. pose proof (core_fields _ _ C) as (HT & HP & HS & HV & Hpa & Hpr).
  assert (Hx : expected_state (w_snapshot w) e = expected_state s e) by (unfold expected_state; by rewrite HS, Hpa).
  unfold applyProjectLifecycleEvent. rewrite Hx, H. cbn. eexists. split; [reflexivity|].
  unfold core. cbn. by rewrite HT, HP, HS, HV, Hpr.
Qed.

Lemma receive_waits s w e :
  waits s w ->
  (ev_AggregateVersion e = wrap64 (sn_ProjectVersion s + 1) -> expected_state s e = (ProjectStateZero, sn_PausedFrom s)) ->
  exists w', receive e w = Waiting w' /\ waits s w'.
Proof.
  intros W He. pose proof (waits_reject _ _ W) as W'. pose proof W as [C B].
  pose proof (core_fields _ _ C) as (_ & _ & _ & HV & _). unfold receive.
  destruct (validateProjectLifecycleEvent e (w_snapshot w)); [|by eauto].
  destruct (_ <=? _); [destruct (_ ≠? _); by eauto|].
  destruct (w_buffer w !! ev_AggregateVersion e); [destruct (_ || _); by eauto|].
  destruct (_ <=? _); [by eauto|].
  set (w1 := w ⟦ w_buffer := <[ev_AggregateVersion e := e]> (w_buffer w) ⟧).
  assert (Hb : w_buffer w1 = <[ev_AggregateVersion e := e]> (w_buffer w)) by reflexivity.
  assert (Hsn : w_snapshot w1 = w_snapshot w) by reflexivity.
  destruct (decide (ev_AggregateVersion e = wrap64 (sn_ProjectVersion s + 1))) as [Heq|Hne].
  - destruct (refused_apply s w1 e) as (s1 & Hs1 & C1); [by rewrite Hsn|by apply He|].
    assert (Hsz : exists n, size (w_buffer w1) = S n).
    { destruct (size (w_buffer w1)) eqn:Hz; [|eauto]. apply map_size_empty_inv in Hz.
      assert (Hx : w_buffer w1 !! ev_AggregateVersion e = Some e) by (rewrite Hb; apply lookup_insert_eq).
      by rewrite Hz, lookup_empty in Hx. }
    destruct Hsz as [n ->]. cbn [drain_buffer]. cbv zeta. rewrite Hsn, HV, Hb, <- Heq, lookup_insert_eq.
    change (w_snapshot (w1 ⟦ w_buffer := _ ⟧)) with (w_snapshot w1). rewrite Hs1. eexists. split; [reflexivity|].
    apply waits_reject. split; [exact C1|]. cbn. rewrite <- Heq. apply lookup_delete_eq.
  - rewrite drain_none; [|rewrite Hsn, HV, Hb, lookup_insert_ne; done]. exists w1. split; [done|].
    split; [exact C|]. rewrite Hb, lookup_insert_ne; done.
Qed.

Lemma deliver_waits s w L :
  waits s w ->
  (forall e, e ∈ L -> ev_AggregateVersion e = wrap64 (sn_ProjectVersion s + 1) ->
     expected_state s e = (ProjectStateZero, sn_PausedFrom s)) ->
  exists w', foldl (fun l e => signal e l) (Running w) L = Running w' /\ waits s w'.
Proof.
  revert w. induction L as [|e L IH]; intros w W H; cbn [foldl]; [by eauto|].
  destruct (receive_waits s w e W) as (w1 & Hw1 & W1); [apply H; by left|].
  assert (Hs : signal e (Running w) = Running w1) by (unfold signal; by rewrite Hw1).
  rewrite Hs. apply IH; [done|]. intros x Hx. apply H. by right.
Qed.

Lemma completed_stays s L : foldl (fun l e => signal e l) (Completed s) L = Completed s.
Proof. by induction L. Qed.

Lemma workflow_stalls p0 es p input L0 c event p' L :
  tracked_project p0 -> mirrors p0 (input_snapshot input) -> validateProjectLifecycleInput input = Ok tt ->
  history p0 es p -> within input es L0 -> (forall e, e ∈ L0 <-> e ∈ es) ->
  DecideProject p c = Ok event -> ApplyProject p event = Ok p' -> untracked p c = true ->
  (forall e, e ∈ L -> ev_AggregateVersion e = AggregateVersion event -> carries event e) ->
  exists s, outcome (ProjectLifecycleWorkflow input (L0 ++ L)) = Some s /\ mirrors p s.
Proof.
  intros Ht M Hv H B HL Hd Ha U HC.
  destruct (workflow_converges p0 es p input L0 Ht M Hv H B HL) as (s & Ho & Ms & _ & Hb & _).
  unfold ProjectLifecycleWorkflow in *. rewrite foldl_app.
  destruct (foldl _ (begin input) L0) as [w|snap|]; [|rewrite completed_stays; by exists s|done].
  injection Ho as <-. change (buffered w = 0) in Hb. unfold buffered in Hb.
  assert (Hz : size (w_buffer w) = 0%nat) by lia. apply map_size_empty_inv in Hz.
  pose proof (event_inv _ _ _ _ Hd Ha) as (next & ty & _ & _ & _ & Hev & _).
  destruct (deliver_waits (query w) w L) as (w' & -> & W').
  - split; [done|]. by rewrite Hz, lookup_empty.
  - intros e He Hve. rewrite (mi_version _ _ Ms) in Hve.
    rewrite (untracked_expected p c event p' (query w) e), (mi_paused _ _ Ms); try done.
    apply HC; [done|]. by rewrite Hev.
  - exists (query w'). split; [done|]. eapply mirrors_core; [exact Ms|]. symmetry. exact (wt_core _ _ W').
Qed.

(** C39: The lifecycle workflow follows the project, but not through every
    command.  Where the snapshot shows a project that only tracked commands have
    moved, the event of an accepted command is applied if the command is tracked,
    and the snapshot then shows the project after it; the event of any other -
    of a deletion or a legal hold, and of a goal message or a pause while the
    goal is suspended - is refused, and the snapshot shows the old project. *)
Theorem lifecycle_follows_project p c event p' s e :
  tracked_project p -> mirrors p s -> DecideProject p c = Ok event -> ApplyProject p event = Ok p' ->
  carries event e ->
  (untracked p c = false -> exists s', applyProjectLifecycleEvent s e = (s', Ok tt) /\ mirrors p' s') /\
  (untracked p c = true ->
     exists s', applyProjectLifecycleEvent s e = (s', Err ErrInvalidProjectLifecycle) /\ mirrors p s').
Proof.
  intros Ht M Hd Ha C. pose proof (tracked_project_followed _ Ht) as F. split; intros U.
  - eexists. by apply (apply_tracked p c event p').
  - eexists. split; [by eapply apply_untracked|]. destruct M. by split.
Qed.


(** C10: An untracked event stops the workflow for good.  Once a project has
    accepted a command that the workflow does not track, no further delivery -
    of that event, any number of times, or of whatever events come after it -
    moves the workflow from the project before that command. *)
Theorem lifecycle_stalls p0 es p input L0 c event p' L :
  tracked_project p0 -> mirrors p0 (input_snapshot input) -> validateProjectLifecycleInput input = Ok tt ->
  history p0 es p -> within input es L0 -> (forall e, e ∈ L0 <-> e ∈ es) ->
  DecideProject p c = Ok event -> ApplyProject p event = Ok p' -> untracked p c = true ->
  (forall e, e ∈ L -> ev_AggregateVersion e = AggregateVersion event -> carries event e) ->
  exists s, outcome (ProjectLifecycleWorkflow input (L0 ++ L)) = Some s /\ mirrors p s.
Proof. apply workflow_stalls. Qed.

(** ** Example: two events out of order, then a legal hold *)
Definition created : Project := default zeroProject (projectStep zeroProject create1).
Definition decided (p : Project) (c : ProjectCommand) : ProjectEvent :=
  match DecideProject p c with Ok event => event | Err _ => mkProjectEvent "" 0 0 p end.
Definition signal_of (id : string) (event : ProjectEvent) : ProjectLifecycleEvent :=
  mkEvent id (EventType event) (AggregateVersion event) (State (Projection event)) digest0 (OccurredAt event).
Definition negotiating : Project := Projection (decided created negotiate1).
Definition proposed : Project := Projection (decided negotiating propose1).
Definition sample_signals : list ProjectLifecycleEvent :=
  [signal_of "e2" (decided created negotiate1); signal_of "e3" (decided negotiating propose1)].
Definition sample_delivery : list ProjectLifecycleEvent :=
  [signal_of "e3" (decided negotiating propose1); signal_of "e2" (decided created negotiate1);
   signal_of "e3" (decided negotiating propose1)].
Definition sample_input : ProjectLifecycleInput :=
  mkInput (TenantID created) (ID created) "user" 1 (State created) 1 ProjectStateZero 0 0.
Definition held : Project := Projection (decided proposed place1).

Lemma decided_ok p c : is_ok (DecideProject p c) = true -> DecideProject p c = Ok (decided p c).
Proof. unfold decided. by destruct (DecideProject p c). Qed.
Lemma applied_ok p c : is_ok (DecideProject p c) = true -> is_ok (ApplyProject p (decided p c)) = true ->
  ApplyProject p (decided p c) = Ok (Projection (decided p c)).
Proof.
  intros H Ha. destruct (ApplyProject p (decided p c)) as [p'|] eqn:E; [|done].
  destruct (event_inv _ _ _ _ (decided_ok p c H) E) as (next & ty & _ & _ & _ & -> & _). done.
Qed.
Lemma carries_signal id event : carries event (signal_of id event).
Proof. by split_and!. Qed.
Lemma accepted_negotiate : is_ok (DecideProject created negotiate1) = true /\
  is_ok (ApplyProject created (decided created negotiate1)) = true.
Proof. split; vm_compute; reflexivity. Qed.
Lemma accepted_propose : is_ok (DecideProject negotiating propose1) = true /\
  is_ok (ApplyProject negotiating (decided negotiating propose1)) = true.
Proof. split; vm_compute; reflexivity. Qed.
Lemma accepted_place : is_ok (DecideProject proposed place1) = true /\
  is_ok (ApplyProject proposed (decided proposed place1)) = true.
Proof. split; vm_compute; reflexivity. Qed.

Lemma created_tracked : tracked_project created.
Proof.
  exists create1, created, []. split; [vm_compute; reflexivity|constructor].
Qed.
Lemma sample_mirrors : mirrors created (input_snapshot sample_input).
Proof. split; vm_compute; reflexivity. Qed.
Lemma sample_history : history created sample_signals proposed.
Proof.
  destruct accepted_negotiate as [H1 H2], accepted_propose as [H3 H4].
  refine (history_cons created negotiate1 (decided created negotiate1) negotiating _ _ _
    (decided_ok _ _ H1) (applied_ok _ _ H1 H2) eq_refl (carries_signal "e2" _) eq_refl eq_refl _).
  exact (history_cons negotiating propose1 (decided negotiating propose1) proposed _ _ _
    (decided_ok _ _ H3) (applied_ok _ _ H3 H4) eq_refl (carries_signal "e3" _) eq_refl eq_refl (history_nil _)).
Qed.
Lemma sample_within L : (length L <= 10)%nat -> within sample_input sample_signals L.
Proof.
  intros H. split; [vm_compute; discriminate|vm_compute; reflexivity|vm_compute; reflexivity|].
  change (in_RejectedSignals sample_input) with 0. unfold two63. lia.
Qed.
Lemma sample_same e : e ∈ sample_delivery <-> e ∈ sample_signals.
Proof.
  unfold sample_delivery, sample_signals.
  generalize (signal_of "e3" (decided negotiating propose1)) (signal_of "e2" (decided created negotiate1)).
  intros a b. rewrite !elem_of_cons. tauto.
Qed.

Lemma lifecycle_follows_project_witness :
  exists s', applyProjectLifecycleEvent (input_snapshot sample_input) (signal_of "e2" (decided created negotiate1)) =
    (s', Ok tt) /\ mirrors negotiating s'.
Proof.
  destruct accepted_negotiate as [H1 H2].
  destruct (lifecycle_follows_project created negotiate1 (decided created negotiate1) negotiating
    (input_snapshot sample_input) (signal_of "e2" (decided created negotiate1)) created_tracked sample_mirrors
    (decided_ok _ _ H1) (applied_ok _ _ H1 H2) (carries_signal _ _)) as [H _].
  exact (H eq_refl).
Defined.


Lemma lifecycle_stalls_witness : exists s,
  outcome (ProjectLifecycleWorkflow sample_input (sample_delivery ++
    [signal_of "e4" (decided proposed place1); signal_of "e5" (decided held pause1)])) = Some s /\ mirrors proposed s.
Proof.
  destruct accepted_place as [H1 H2].
  apply (lifecycle_stalls created sample_signals proposed sample_input sample_delivery place1
    (decided proposed place1) held _ created_tracked sample_mirrors ltac:(vm_compute; reflexivity)
    sample_history (sample_within sample_delivery ltac:(cbn; lia)) sample_same (decided_ok _ _ H1) (applied_ok _ _ H1 H2) eq_refl).
  intros e He Hv. apply elem_of_cons in He as [He|He]; [rewrite He; apply carries_signal|].
  exfalso. apply list_elem_of_singleton in He. rewrite He in Hv. revert Hv. apply Z.eqb_neq. vm_compute. reflexivity.
Defined.
End LifecycleRuns.
