(* ===== verification/Outbox.v ===== *)
(** Delivery of the outbox ([internal/eventing]: [outbox.go],
    [outbox_dispatcher.go]): the publisher's configuration, its batches of
    claims published by concurrent workers, retry delays, and the dispatcher's
    pass over tenants.

    A batch is a state machine: its steps are the points where a worker meets
    the jobs channel or the store, in any interleaving with each other and with
    other users of the store.  The event bus's answers, the clock's readings
    and the context's state are arguments of the steps; the unexported clock
    and the store and bus references are not fields of the modelled records. *)

From S2P Require Import Prelude GoLib Runs Json Errors EventStore.

Module Outbox.
Import EventStore.

(** ** The publisher *)
Record OutboxPublisherConfig : Type := mkOutboxPublisherConfig {
  BatchSize : Z;
  Concurrency : Z;
  ClaimTTL : duration;
  PublishTimeout : duration;
  InitialBackoff : duration;
  MaxBackoff : duration;
  PollInterval : duration
}.

#[global] Instance eta_config : Eta OutboxPublisherConfig := fun c => mkOutboxPublisherConfig
  (BatchSize c) (Concurrency c) (ClaimTTL c) (PublishTimeout c) (InitialBackoff c) (MaxBackoff c)
  (PollInterval c).

Record PublishBatchResult : Type := mkPublishBatchResult {
  Claimed : Z;
  Published : Z;
  Retried : Z
}.

#[global] Instance eta_batch_result : Eta PublishBatchResult := fun r =>
  mkPublishBatchResult (Claimed r) (Published r) (Retried r).

(** The wrapped errors of [publishClaim]. *)
Inductive publish_error : Type :=
| MarkFailed (outboxID : string) (err : store_error)
| RescheduleFailed (outboxID : string) (publish : string) (reschedule : store_error).

Record publishOutcome : Type := mkPublishOutcome {
  published : bool;
  retried : bool;
  outcome_err : option publish_error
}.

Record OutboxPublisher : Type := mkOutboxPublisher {
  batchSize : Z;
  concurrency : Z;
  claimTTL : duration;
  publishTimeout : duration;
  initialBackoff : duration;
  maximumBackoff : duration;
  pollInterval : duration
}.

(** The successive [if]s of the constructor that fill in defaults. *)
Definition value_or (value default : Z) : Z := if value =? 0 then default else value.
Definition with_sizes (c : OutboxPublisherConfig) : OutboxPublisherConfig :=
  let c := c ⟦ BatchSize := value_or (BatchSize c) 100 ⟧ in
  let c := c ⟦ Concurrency := value_or (Concurrency c) 8 ⟧ in
  if BatchSize c <? Concurrency c then c ⟦ Concurrency := BatchSize c ⟧ else c.
Definition with_timing (c : OutboxPublisherConfig) : OutboxPublisherConfig :=
  let c := c ⟦ ClaimTTL := value_or (ClaimTTL c) (30 * Second) ⟧ in
  let c := c ⟦ PublishTimeout := value_or (PublishTimeout c) (Z.quot (ClaimTTL c) 2) ⟧ in
  let c := c ⟦ InitialBackoff := value_or (InitialBackoff c) Second ⟧ in
  let c := c ⟦ MaxBackoff := value_or (MaxBackoff c) Minute ⟧ in
  c ⟦ PollInterval := value_or (PollInterval c) (100 * Millisecond) ⟧.

Definition NewOutboxPublisher (store_nil bus_nil : bool) (config : OutboxPublisherConfig)
    : result OutboxPublisher Error :=
  reject scoped CodeInvalidArgument "outbox publisher dependency" when store_nil || bus_nil ;;
  reject scoped CodeInvalidArgument "outbox publisher config" when
    (BatchSize config <? 0) || (Concurrency config <? 0) || (ClaimTTL config <? 0)
    || (PublishTimeout config <? 0) || (InitialBackoff config <? 0) || (MaxBackoff config <? 0)
    || (PollInterval config <? 0) ;;
  let config := with_timing (with_sizes config) in
  reject scoped CodeInvalidArgument "outbox publisher timing" when
    (ClaimTTL config <? PublishTimeout config) || (MaxBackoff config <? InitialBackoff config) ;;
  Ok (mkOutboxPublisher (BatchSize config) (Concurrency config) (ClaimTTL config)
        (PublishTimeout config) (InitialBackoff config) (MaxBackoff config) (PollInterval config)).

(** ** Retry delays *)
(** The loop of [retryDelay] with [n] attempts left, and its final cap. *)
Fixpoint retry_loop (n : nat) (delay maximum : duration) : duration :=
  match n with
  | S n =>
      if delay <? maximum then
        if Z.quot maximum 2 <? delay then maximum
        else retry_loop n (wrap64 (delay * 2)) maximum
      else if maximum <? delay then maximum else delay
  | O => if maximum <? delay then maximum else delay
  end.

Definition retryDelay (attempt : Z) (initial maximum : duration) : duration :=
  retry_loop (Z.to_nat (attempt - 1)) initial maximum.

(** ** Batches *)
Abbreviation OutboxClaim := (OutboxRecord * Z)%type.

(** [bus]: the error of [bus.Publish], if any; [ctx_Err]: the context's state
    at the store call. *)
Definition publishClaim (p : OutboxPublisher) (ctx_Err : option string) (tenantID : string)
    (claim : OutboxClaim) (bus : option string) (completedAt : time) (s : MemoryStore)
    : MemoryStore * publishOutcome :=
  let id := o_ID (fst claim) in
  match bus with
  | None =>
      match MarkOutboxPublished ctx_Err tenantID id (snd claim) (UTC completedAt) s with
      | Err markErr => (s, mkPublishOutcome false false (Some (MarkFailed id markErr)))
      | Ok s => (s, mkPublishOutcome true false None)
      end
  | Some err =>
      let nextAttempt := Add (UTC completedAt)
        (retryDelay (snd claim) (initialBackoff p) (maximumBackoff p)) in
      match RetryOutbox ctx_Err tenantID id (snd claim) nextAttempt s with
      | Err retryErr => (s, mkPublishOutcome false false (Some (RescheduleFailed id err retryErr)))
      | Ok s => (s, mkPublishOutcome false true None)
      end
  end.

(** A running batch: the jobs channel, the claims its workers hold, and the
    outcomes channel. *)
Record batch : Type := mkBatch {
  b_store : MemoryStore;
  b_workers : nat;
  b_jobs : list OutboxClaim;
  b_held : list OutboxClaim;
  b_outcomes : list publishOutcome
}.

#[global] Instance eta_batch : Eta batch := fun b =>
  mkBatch (b_store b) (b_workers b) (b_jobs b) (b_held b) (b_outcomes b).

(** [RunOnce] up to the start of its workers, and its early returns. *)
Definition start (p : OutboxPublisher) (ctx_Err : option string) (tenantID : string) (now : time)
    (s : MemoryStore) : result batch store_error :=
  reject invalid "outbox tenant" when tenantID ≟ "" ;;
  claimed <-! ClaimOutbox ctx_Err tenantID (UTC now) (batchSize p) (claimTTL p) s ;;
  let '(s, claims) := claimed in
  let workers := if Z.of_nat (length claims) <? concurrency p
                 then Z.of_nat (length claims) else concurrency p in
  Ok (mkBatch s (Z.to_nat workers) claims [] []).

Section Batch.
(** What other users of the store do to it. *)
Context {C : Type} (external : MemoryStore -> C -> option MemoryStore).

(** A worker receives a job; the worker holding the [i]th claim publishes it and
    sends its outcome; somebody else uses the store. *)
Inductive action : Type :=
| Take
| Finish (ctx_Err : option string) (i : nat) (claim : OutboxClaim) (bus : option string)
    (completedAt : time)
| External (c : C).

Definition batch_step (p : OutboxPublisher) (tenantID : string) (b : batch) (a : action)
    : option batch :=
  match a with
  | Take =>
      match b_jobs b with
      | [] => None
      | claim :: jobs =>
          if Nat.ltb (length (b_held b)) (b_workers b)
          then Some (b ⟦ b_jobs := jobs ⟧ ⟦ b_held := b_held b ++ [claim] ⟧)
          else None
      end
  | Finish ctx_Err i claim bus completedAt =>
      if bool_decide (b_held b !! i = Some claim) then
        let published := publishClaim p ctx_Err tenantID claim bus completedAt (b_store b) in
        Some (b ⟦ b_store := fst published ⟧ ⟦ b_held := delete i (b_held b) ⟧
                ⟦ b_outcomes := b_outcomes b ++ [snd published] ⟧)
      else None
  | External c =>
      match external (b_store b) c with
      | None => None
      | Some s => Some (b ⟦ b_store := s ⟧)
      end
  end.
End Batch.
Arguments Take {C}.
Arguments Finish {C}.
Arguments External {C}.

(** The workers have ended. *)
Definition finished (b : batch) : bool :=
  match b_jobs b, b_held b with [], [] => true | _, _ => false end.

(** The loop over the outcomes. *)
Definition count_outcome (acc : PublishBatchResult * list publish_error) (item : publishOutcome)
    : PublishBatchResult * list publish_error :=
  let '(result, errs) := acc in
  let result := if published item then result ⟦ Published := Published result + 1 ⟧ else result in
  let result := if retried item then result ⟦ Retried := Retried result + 1 ⟧ else result in
  (result, match outcome_err item with Some err => errs ++ [err] | None => errs end).

Definition collect (claims : list OutboxClaim) (outcomes : list publishOutcome)
    : PublishBatchResult * list publish_error :=
  foldl count_outcome (mkPublishBatchResult (Z.of_nat (length claims)) 0 0, []) outcomes.

(** [Run]: another batch at once when this one was full. *)
Definition run_again (p : OutboxPublisher) (result : PublishBatchResult) : bool :=
  Claimed result =? batchSize p.

(** ** The dispatcher *)
Record OutboxDispatcherConfig : Type := mkOutboxDispatcherConfig {
  TenantBatchSize : Z;
  DispatchPollInterval : duration;
  FailureBackoff : duration
}.

Record DispatchResult : Type := mkDispatchResult {
  Tenants : Z;
  DispatchClaimed : Z;
  DispatchPublished : Z;
  DispatchRetried : Z
}.

#[global] Instance eta_dispatch : Eta DispatchResult := fun r =>
  mkDispatchResult (Tenants r) (DispatchClaimed r) (DispatchPublished r) (DispatchRetried r).

Record OutboxDispatcher : Type := mkOutboxDispatcher {
  tenantBatch : Z;
  dispatchPollInterval : duration;
  failureBackoff : duration
}.

Definition NewOutboxDispatcher (tenants_nil publisher_nil : bool) (config : OutboxDispatcherConfig)
    : result OutboxDispatcher Error :=
  reject scoped CodeInvalidArgument "outbox dispatcher configuration" when
    tenants_nil || publisher_nil || (TenantBatchSize config <? 0)
    || (DispatchPollInterval config <? 0) || (FailureBackoff config <? 0) ;;
  let tenantBatch := value_or (TenantBatchSize config) 100 in
  reject scoped CodeInvalidArgument "outbox dispatcher tenant batch" when 1000 <? tenantBatch ;;
  Ok (mkOutboxDispatcher tenantBatch
        (value_or (DispatchPollInterval config) (100 * Millisecond))
        (value_or (FailureBackoff config) Second)).

Inductive dispatch_error : Type :=
| EmptyTenant
| DuplicateTenant
| PublishErrs (tenantID : string) (err : list publish_error).

Section Dispatch.
(** [publisher.RunOnce] on whatever state the process has. *)
Context {W : Type} (publish : string -> W -> W * (PublishBatchResult * list publish_error)).

Fixpoint dispatch_tenants (seen : gset string) (tenantIDs : list string) (w : W)
    (result : DispatchResult) (errs : list dispatch_error)
    : W * (DispatchResult * list dispatch_error) :=
  match tenantIDs with
  | [] => (w, (result, errs))
  | tenantID :: rest =>
      if tenantID ≟ "" then dispatch_tenants seen rest w result (errs ++ [EmptyTenant]) else
      if bool_decide (tenantID ∈ seen)
      then dispatch_tenants seen rest w result (errs ++ [DuplicateTenant]) else
      let '(w, (batch, publishErr)) := publish tenantID w in
      let result := result
        ⟦ DispatchClaimed := DispatchClaimed result + Claimed batch ⟧
        ⟦ DispatchPublished := DispatchPublished result + Published batch ⟧
        ⟦ DispatchRetried := DispatchRetried result + Retried batch ⟧ in
      dispatch_tenants ({[tenantID]} ∪ seen) rest w result
        (match publishErr with [] => errs | _ => errs ++ [PublishErrs tenantID publishErr] end)
  end.

(** [RunOnce], after the tenants were discovered. *)
Definition dispatch (tenantIDs : list string) (w : W)
    : W * (DispatchResult * list dispatch_error) :=
  dispatch_tenants ∅ tenantIDs w (mkDispatchResult (Z.of_nat (length tenantIDs)) 0 0 0) [].
End Dispatch.

(** [Run]: how long to wait before the next pass; [failed] when [RunOnce] had
    an error. *)
Definition dispatch_wait (d : OutboxDispatcher) (result : DispatchResult) (failed : bool) : duration :=
  if failed || (0 <? DispatchRetried result) then failureBackoff d
  else if (Tenants result =? tenantBatch d) || (0 <? DispatchClaimed result) then 0
  else dispatchPollInterval d.
End Outbox.
