(* ===== verification/OutboxProps.v ===== *)
(** The outbox publisher's theorems: retry delays are the capped exponential;
    every batch ends and accounts for each of its claims; its outcomes are true
    of the store; undisturbed, it publishes or puts off every claim. *)

From S2P Require Import Prelude GoLib Runs Json Errors EventStore EventStoreProps Outbox.

Module OutboxProps.
Import EventStore Outbox EventStoreProps.

(** ** Retry delays *)
Lemma retry_loop_min n delay maximum :
  0 <= delay -> 0 <= maximum < two63 ->
  retry_loop n delay maximum = Z.min (delay * 2 ^ Z.of_nat n) maximum.
Proof.
  revert delay. induction n as [|n IH]; intros delay Hd Hm; cbn [retry_loop].
  { rewrite Z.mul_1_r. destruct (maximum <? delay) eqn:E; lia. }
  rewrite Nat2Z.inj_succ, Z.pow_succ_r by lia.
  pose proof (Z.pow_pos_nonneg 2 (Z.of_nat n) ltac:(lia) ltac:(lia)) as Hp.
  destruct (delay <? maximum) eqn:E1.
  - rewrite Z.quot_div_nonneg by lia. destruct (maximum / 2 <? delay) eqn:E2.
    + assert (maximum < 2 * delay) by (pose proof (Z.div_mod maximum 2 ltac:(lia));
        pose proof (Z.mod_pos_bound maximum 2 ltac:(lia)); lia). nia.
    + assert (2 * delay <= maximum) by (pose proof (Z.div_mod maximum 2 ltac:(lia));
        pose proof (Z.mod_pos_bound maximum 2 ltac:(lia)); lia).
      rewrite wrap64_id by (unfold in_int64, two63 in *; lia). rewrite IH by lia. f_equal. lia.
  - destruct (maximum <? delay) eqn:E2; nia.
Qed.

(** Retry delays.  [retryDelay], whose loop doubles a 64-bit duration, is
    the capped exponential [min (initial * 2^(attempt-1)) maximum] for every
    attempt number - without overflow, however large the exponent. *)
Theorem retryDelay_exact attempt initial maximum :
  0 <= initial -> 0 <= maximum < two63 ->
  retryDelay attempt initial maximum = Z.min (initial * 2 ^ Z.max 0 (attempt - 1)) maximum.
Proof.
  intros Hi Hm. unfold retryDelay. rewrite retry_loop_min by done. do 3 f_equal. lia.
Qed.

Lemma retryDelay_exact_witness : retryDelay 100 Second Minute = Minute /\ retryDelay 4 Second Minute = 8 * Second.
Proof.
  rewrite !retryDelay_exact by (unfold two63, Minute, Second; lia). split; vm_compute; reflexivity.
Defined.

(** ** The constructor *)
Lemma or_default_pos v d : 0 <= v -> 0 < d -> 0 < value_or v d.
Proof. unfold value_or. intros. destruct (v =? 0) eqn:E; lia. Qed.

(** What [NewOutboxPublisher] guarantees of a publisher. *)
Lemma new_publisher_ok st bu config p :
  NewOutboxPublisher st bu config = Ok p ->
  0 < batchSize p /\ 0 < concurrency p <= batchSize p /\ 0 < claimTTL p /\
  0 <= publishTimeout p <= claimTTL p /\ 0 < initialBackoff p <= maximumBackoff p /\
  0 < pollInterval p.
Proof.
  unfold NewOutboxPublisher. intros H. destruct (_ || _) in H; [discriminate|].
  destruct (_ || _) eqn:G in H; [discriminate|].
  match type of H with (if ?c then _ else _) = _ => destruct c eqn:G2; [discriminate|] end.
  apply Ok_inj in H as <-. go_bool. unfold with_timing, with_sizes in *. cbn in *.
  assert (0 < value_or (BatchSize config) 100) by (by apply or_default_pos).
  assert (0 < value_or (Concurrency config) 8) by (by apply or_default_pos).
  assert (0 < value_or (ClaimTTL config) (30 * Second)) by (by apply or_default_pos).
  assert (0 < value_or (InitialBackoff config) Second) by (by apply or_default_pos).
  assert (0 < value_or (PollInterval config) (100 * Millisecond)) by (by apply or_default_pos).
  assert (0 <= value_or (PublishTimeout config) (Z.quot (value_or (ClaimTTL config) (30 * Second)) 2)).
  { unfold value_or at 1. destruct (PublishTimeout config =? 0); [apply Z.quot_pos|]; lia. }
  destruct (value_or (BatchSize config) 100 <? value_or (Concurrency config) 8) eqn:E;
    cbn in *; lia.
Qed.

(** ** One claim *)
(** The three ways [publishClaim] ends. *)
Lemma publishClaim_cases p ctx t c bus at_ s :
  let r := publishClaim p ctx t c bus at_ s in
  (bus = None /\ MarkOutboxPublished ctx t (o_ID (fst c)) (snd c) (UTC at_) s = Ok (fst r) /\
     snd r = mkPublishOutcome true false None) \/
  (is_Some bus /\ RetryOutbox ctx t (o_ID (fst c)) (snd c)
       (Add (UTC at_) (retryDelay (snd c) (initialBackoff p) (maximumBackoff p))) s = Ok (fst r) /\
     snd r = mkPublishOutcome false true None) \/
  (fst r = s /\ exists err, snd r = mkPublishOutcome false false (Some err)).
Proof.
  cbv zeta. unfold publishClaim. destruct bus as [err|].
  - destruct (RetryOutbox _ _ _ _ _ _) as [s'|e] eqn:H; cbn [fst snd]; [right; left|right; right]; eauto.
  - destruct (MarkOutboxPublished _ _ _ _ _ _) as [s'|e] eqn:H; cbn [fst snd]; [left|right; right]; eauto.
Qed.

(** Exactly one of: published, put off, failed. *)
Definition one_fate (o : publishOutcome) : Prop :=
  (published o = true /\ retried o = false /\ outcome_err o = None) \/
  (published o = false /\ retried o = true /\ outcome_err o = None) \/
  (published o = false /\ retried o = false /\ is_Some (outcome_err o)).

Lemma publishClaim_fate p ctx t c bus at_ s : one_fate (snd (publishClaim p ctx t c bus at_ s)).
Proof.
  unfold one_fate.
  destruct (publishClaim_cases p ctx t c bus at_ s) as [(_ & _ & ->)|[(_ & _ & ->)|(_ & e & ->)]];
    [left|right; left|right; right]; (split; [|split]); try reflexivity. by exists e.
Qed.

Definition count (f : publishOutcome -> bool) (l : list publishOutcome) : Z :=
  Z.of_nat (length (List.filter f l)).

Lemma collect_counts claims l :
  collect claims l =
    (mkPublishBatchResult (Z.of_nat (length claims)) (count published l) (count retried l),
     omap outcome_err l).
Proof.
  unfold collect. set (r0 := mkPublishBatchResult _ 0 0).
  assert (H : forall r errs, foldl count_outcome (r, errs) l =
    (mkPublishBatchResult (Claimed r) (Published r + count published l) (Retried r + count retried l),
     errs ++ omap outcome_err l)).
  { unfold count. induction l as [|o l IH]; intros r errs; cbn [foldl List.filter omap list_omap length].
    - rewrite app_nil_r, !Z.add_0_r. by destruct r.
    - unfold count_outcome at 2. rewrite IH. clear IH. f_equal.
      + destruct (published o), (retried o); cbn -[Z.of_nat Z.add];
          f_equal; lia.
      + destruct (outcome_err o); [by rewrite <- app_assoc|done]. }
  rewrite H. unfold r0. cbn. done.
Qed.

Lemma fates_sum l : Forall one_fate l ->
  count published l + count retried l + Z.of_nat (length (omap outcome_err l)) = Z.of_nat (length l).
Proof.
  unfold count. induction 1 as [|o l Ho _ IH]; [done|].
  destruct Ho as [(E1 & E2 & E3)|[(E1 & E2 & E3)|(E1 & E2 & [e E3])]];
    cbn [List.filter omap list_omap length]; rewrite E1, E2, E3; cbn [length]; lia.
Qed.

(** ** Batches *)
Section Batches.
Context (jcs_Transform : string -> option string) (sha256_Sum256 : string -> list Z).
Context (p : OutboxPublisher) (tenantID : string).
Notation external := (store_step jcs_Transform sha256_Sum256).
Notation bstep := (batch_step external p tenantID).
Notation baction := (action (C := command)).

(** A worker's own steps. *)
Definition progress (a : baction) : bool :=
  match a with External _ => false | _ => true end.

(** The claims a batch published or put off, with the bus's answers and the
    times, in the order of their outcomes. *)
Definition finish_of (a : baction) : option (OutboxClaim * option string * time) :=
  match a with Finish _ _ c bus at_ => Some (c, bus, at_) | _ => None end.

(** What a batch's steps keep. *)
Record batch_inv (claims : list OutboxClaim) (w : nat) (acts : list baction) (b : batch) : Prop := {
  bi_workers : b_workers b = w;
  bi_claims : map (fun f => fst (fst f)) (omap finish_of acts) ++ b_held b ++ b_jobs b ≡ₚ claims;
  bi_outcomes : length (b_outcomes b) = length (omap finish_of acts);
  bi_fates : Forall one_fate (b_outcomes b);
  bi_measure : (length (List.filter progress acts) + 2 * length (b_jobs b) + length (b_held b)
                = 2 * length claims)%nat
}.

Lemma batch_step_inv claims w acts b a b' :
  batch_inv claims w acts b -> bstep b a = Some b' -> batch_inv claims w (acts ++ [a]) b'.
Proof.
  intros [H1 H2 H3 H4 H5] Hs. destruct a as [|ctx i c bus at_|cmd]; cbn [batch_step] in Hs.
  - destruct (b_jobs b) as [|c jobs] eqn:Hj; [discriminate|]. case_match; [|discriminate].
    apply (inj Some) in Hs as <-.
    split; rewrite ?omap_app, ?List.filter_app, ?app_nil_r; cbn; try done.
    + by rewrite <- (assoc_L (++)).
    + rewrite !length_app. cbn in *. lia.
  - case_bool_decide as Hi; [|discriminate]. apply (inj Some) in Hs as <-.
    split; rewrite ?omap_app, ?List.filter_app; cbn; try done.
    + rewrite <- H2, map_app, <- (assoc_L (++)). f_equiv. cbn.
      rewrite (delete_Permutation _ _ _ Hi) at 2. done.
    + rewrite !length_app, H3. done.
    + apply Forall_app. split; [done|]. constructor; [apply publishClaim_fate|constructor].
    + rewrite length_app. apply lookup_lt_Some in Hi as Hlt. rewrite length_delete by done. cbn. lia.
  - destruct (external _ _) as [s|]; [|discriminate]. apply (inj Some) in Hs as <-.
    split; rewrite ?omap_app, ?List.filter_app, ?app_nil_r; done.
Qed.

Lemma batch_run_inv b0 acts b :
  b_held b0 = [] -> b_outcomes b0 = [] -> run bstep b0 acts b ->
  batch_inv (b_jobs b0) (b_workers b0) acts b.
Proof.
  intros Hh Ho Hr. induction Hr as [b|b acts b1 a b2 Hr IH Hs].
  - split; cbn; rewrite ?Hh, ?Ho; try done.
  - eapply batch_step_inv; [by apply IH|done].
Qed.

Lemma start_batch ctx now s b0 :
  start p ctx tenantID now s = Ok b0 ->
  exists s', ClaimOutbox ctx tenantID (UTC now) (batchSize p) (claimTTL p) s = Ok (s', b_jobs b0) /\
    tenantID <> "" /\ b_store b0 = s' /\ b_held b0 = [] /\ b_outcomes b0 = [] /\
    b_workers b0 = Z.to_nat (Z.min (Z.of_nat (length (b_jobs b0))) (concurrency p)).
Proof.
  unfold start. destruct (tenantID ≟ "") eqn:E; [discriminate|]. go_bool.
  destruct (ClaimOutbox _ _ _ _ _ s) as [[s' claims]|]; [|discriminate]. cbn [rbind].
  intros <-%Ok_inj. exists s'. cbn [b_jobs b_store b_held b_outcomes b_workers]. split_and!; try done.
  f_equal. case_match; lia.
Qed.

(** Batches end and account for every claim.  However its workers
    interleave with each other and with other users of the store, a batch of n
    claims takes at most 2n steps of its own, can always take one until it is
    finished, and is then finished with every claim handled exactly once and
    counted as published, as put off, or with an error. *)
Theorem batch_completes st bu config ctx now s b0 acts b :
  NewOutboxPublisher st bu config = Ok p -> start p ctx tenantID now s = Ok b0 ->
  run bstep b0 acts b ->
  (length (List.filter progress acts) <= 2 * length (b_jobs b0))%nat /\
  (if finished b then
     map (fun f => fst (fst f)) (omap finish_of acts) ≡ₚ b_jobs b0 /\
     let '(r, errs) := collect (b_jobs b0) (b_outcomes b) in
     Claimed r = Z.of_nat (length (b_jobs b0)) /\
     Claimed r = Published r + Retried r + Z.of_nat (length errs)
   else exists a b', progress a = true /\ bstep b a = Some b').
Proof.
  intros Hp Hs Hr. apply new_publisher_ok in Hp as (_ & Hc & _).
  destruct (start_batch _ _ _ _ Hs) as (s' & _ & _ & _ & Hh & Ho & Hw).
  destruct (batch_run_inv _ _ _ Hh Ho Hr) as [H1 H2 H3 H4 H5]. split; [lia|].
  unfold finished. destruct (b_jobs b) as [|c jobs] eqn:Ej; destruct (b_held b) as [|c' held] eqn:Eh.
  - rewrite !app_nil_r in H2. split; [done|]. rewrite collect_counts. cbn [Claimed Published Retried].
    split; [done|]. rewrite (fates_sum _ H4), H3. apply Permutation_length in H2.
    rewrite length_map in H2. lia.
  - exists (Finish None 0 c' None 0). eexists. split; [done|]. cbn [batch_step]. rewrite Eh.
    rewrite bool_decide_eq_true_2 by done. reflexivity.
  - exists Take. eexists. split; [done|]. cbn [batch_step]. rewrite Ej, Eh.
    replace (Nat.ltb (length (@nil OutboxClaim)) (b_workers b)) with true; [reflexivity|].
    symmetry. apply Nat.ltb_lt. rewrite H1, Hw. apply Permutation_length in H2.
    rewrite !length_app in H2. cbn in *. lia.
  - exists (Finish None 0 c' None 0). eexists. split; [done|]. cbn [batch_step]. rewrite Eh.
    rewrite bool_decide_eq_true_2 by done. reflexivity.
Qed.
(** *** Outcomes are true of the store *)
Lemma batch_store_run b acts b' :
  run bstep b acts b' -> wf (b_store b) ->
  wf (b_store b') /\ forall id o, outbox (b_store b) !! id = Some o ->
    exists o', outbox (b_store b') !! id = Some o' /\ rtc record_step o o'.
Proof.
  intros Hr W. induction Hr as [b|b acts b1 a b2 Hr IH Hs]; [eauto using rtc_refl|].
  destruct (IH W) as [W1 H1]. clear IH.
  assert (Hstep : wf (b_store b2) /\ forall id o, outbox (b_store b1) !! id = Some o ->
    exists o', outbox (b_store b2) !! id = Some o' /\ record_stays_or_steps o o').
  { assert (Hstay : forall id o, outbox (b_store b1) !! id = Some o ->
      exists o', outbox (b_store b1) !! id = Some o' /\ record_stays_or_steps o o')
      by (intros id o Ho; exists o; split; [done|by left]).
    destruct a as [|ctx i c bus at_|cmd]; cbn [batch_step] in Hs.
    - repeat case_match; try discriminate. apply (inj Some) in Hs as <-. done.
    - case_bool_decide; [|discriminate]. apply (inj Some) in Hs as <-.
      cut (forall cmd s', b_store b1 = s' \/ external (b_store b1) cmd = Some s' ->
        wf s' /\ forall id o, outbox (b_store b1) !! id = Some o ->
        exists o', outbox s' !! id = Some o' /\ record_stays_or_steps o o').
      + intros Hcut.
        destruct (publishClaim_cases p ctx tenantID c bus at_ (b_store b1))
          as [(_ & Hm & _)|[(_ & Hm & _)|(Hm & _)]].
        * apply (Hcut (CmdMarkPublished ctx tenantID (o_ID (fst c)) (snd c) (UTC at_))). right.
          unfold store_step, env_ok. cbn [apply]. by rewrite Hm.
        * eapply (Hcut (CmdRetry ctx tenantID (o_ID (fst c)) (snd c) _)). right.
          unfold store_step, env_ok. cbn [apply]. by rewrite Hm.
        * apply (Hcut (CmdFailNext FailureNone)). by left.
      + intros cmd s' [<-|Hc]; [done|]. split; [by eapply store_step_wf|].
        intros id o. by apply (step_record _ _ _ _ _ _ _ W1 Hc).
    - destruct (external _ _) as [s'|] eqn:Hc; [|discriminate]. apply (inj Some) in Hs as <-.
      split; [by eapply store_step_wf|]. intros id o. exact (step_record _ _ _ _ _ _ _ W1 Hc). }
  destruct Hstep as [W2 H2]. split; [done|]. intros id o Ho.
  destruct (H1 id o Ho) as (o1 & Ho1 & Hs1). destruct (H2 id o1 Ho1) as (o2 & Ho2 & Hs2).
  exists o2. split; [done|]. destruct Hs2 as [->|Hs2]; [done|by eapply rtc_r].
Qed.

(** What an outcome says of its claim, in the final store. *)
Definition told (s : MemoryStore) (f : OutboxClaim * option string * time) (o : publishOutcome) : Prop :=
  let '(c, bus, at_) := f in
  (published o = true -> bus = None /\
     exists r, outbox s !! o_ID (fst c) = Some r /\ o_PublishedAt r = Some at_) /\
  (retried o = true -> is_Some bus).

(** Outcomes are true.  Whatever else happens to the store meanwhile, a
    claim counted as published was accepted by the bus, and its record is
    marked published at that time in the store the batch ends with; a claim
    counted as put off was refused by the bus. *)
Theorem batch_outcomes_true cs s ctx now b0 acts b :
  run external NewMemoryStore cs s ->
  env_ok s (CmdClaimOutbox ctx tenantID (UTC now) (batchSize p) (claimTTL p)) = true ->
  start p ctx tenantID now s = Ok b0 -> run bstep b0 acts b ->
  Forall2 (told (b_store b)) (omap finish_of acts) (b_outcomes b).
Proof.
  intros W%store_run_wf He Hs Hr. destruct (start_batch _ _ _ _ Hs) as (s' & Hc & _ & Hst & _ & Ho & _).
  assert (W0 : wf (b_store b0)) by (rewrite Hst; by eapply claim_wf).
  clear Hs Hc Hst. induction Hr as [b|b acts b1 a b2 Hr IH Hs]; [rewrite Ho; constructor|].
  destruct (batch_store_run _ _ _ Hr W0) as [W1 _]. rewrite omap_app.
  destruct (batch_store_run b1 [a] b2 (run_snoc bstep _ [] _ _ _ (run_nil bstep b1) Hs) W1)
    as [_ Hrec].
  assert (Hold : Forall2 (told (b_store b2)) (omap finish_of acts) (b_outcomes b1)).
  { eapply Forall2_impl; [by apply IH|]. intros [[c bus] at_] o [Hp Hrt]. split; [|done].
    intros Hpub. destruct (Hp Hpub) as (Hb & r & Hr1 & Hat). split; [done|].
    destruct (Hrec _ _ Hr1) as (r' & Hr' & Hsteps). exists r'. split; [done|].
    apply rtc_published in Hsteps as ->; [done|congruence]. }
  destruct a as [|ctx' i c bus at_|cmd]; cbn [batch_step] in Hs.
  - repeat case_match; try discriminate. apply (inj Some) in Hs as <-. by rewrite app_nil_r.
  - case_bool_decide; [|discriminate]. apply (inj Some) in Hs as <-. cbn [b_outcomes omap list_omap finish_of].
    apply Forall2_app; [done|]. constructor; [|constructor]. cbn [told b_store].
    destruct (publishClaim_cases p ctx' tenantID c bus at_ (b_store b1))
      as [(Hb & Hm & ->)|[(Hb & Hm & ->)|(_ & e & ->)]]; [..|done].
    + split; [|done]. intros _. split; [done|]. apply mark_inv in Hm as (r & _ & _ & Hm).
      cbn. rewrite Hm. cbn. rewrite lookup_insert_eq. eauto.
    + split; done.
  - destruct (external _ _) as [s2|]; [|discriminate]. apply (inj Some) in Hs as <-. by rewrite app_nil_r.
Qed.
(** *** An undisturbed batch *)
Definition claim_id (c : OutboxClaim) : string := o_ID (fst c).

(** The claim is current. *)
Definition current (s : MemoryStore) (c : OutboxClaim) : Prop :=
  exists o, outbox s !! claim_id c = Some o /\ holds_claim tenantID (snd c) o = true /\
    claim_id c <> "" /\ 0 < snd c.

(** What becomes of a claim's record. *)
Definition handled (s : MemoryStore) (f : OutboxClaim * option string * time) : Prop :=
  let '(c, bus, at_) := f in
  exists o, outbox s !! claim_id c = Some o /\ o_Attempts o = snd c /\
    match bus with
    | None => o_PublishedAt o = Some at_
    | Some _ => o_PublishedAt o = None /\
        o_NextAttempt o = at_ + retryDelay (snd c) (initialBackoff p) (maximumBackoff p)
    end.

Definition outcome_of (f : OutboxClaim * option string * time) : publishOutcome :=
  mkPublishOutcome (is_nil (snd (fst f))) (negb (is_nil (snd (fst f)))) None.

(** No other user of the store, a live context and a running clock. *)
Definition undisturbed (a : baction) : Prop :=
  match a with
  | Take => True
  | Finish ctx _ _ _ at_ => ctx = None /\ 0 < at_
  | External _ => False
  end.

Lemma publishClaim_current c bus at_ s :
  tenantID <> "" -> 0 <= initialBackoff p -> 0 <= maximumBackoff p < two63 ->
  current s c -> 0 < at_ ->
  let r := publishClaim p None tenantID c bus at_ s in
  snd r = outcome_of (c, bus, at_) /\ handled (fst r) (c, bus, at_) /\
  forall id, id <> claim_id c -> outbox (fst r) !! id = outbox s !! id.
Proof.
  intros Ht Hb Hm (o & Ho & Hh & Hid & Hn) Hat. cbv zeta.
  destruct (holds_claim_spec _ _ _ Hh) as [Hp Ha]. unfold claim_id in *.
  assert (Hne : 0 < at_ + retryDelay (snd c) (initialBackoff p) (maximumBackoff p)).
  { rewrite retryDelay_exact by done.
    pose proof (Z.pow_nonneg 2 (Z.max 0 (snd c - 1)) ltac:(lia)). nia. }
  unfold publishClaim. destruct bus as [err|].
  - unfold RetryOutbox, IsZero, Add, UTC.
    rewrite !bool_decide_eq_false_2, (proj2 (Z.leb_gt _ _)), (proj2 (Z.eqb_neq _ _)), Ho, Hh
      by (done || lia).
    cbn. rewrite cloneOutboxRecord_id. split; [done|]. split.
    + eexists. unfold claim_id. cbn. rewrite lookup_insert_eq. done.
    + intros id Hi. by rewrite lookup_insert_ne.
  - unfold MarkOutboxPublished, IsZero, UTC.
    rewrite !bool_decide_eq_false_2, (proj2 (Z.leb_gt _ _)), (proj2 (Z.eqb_neq _ _)), Ho, Hh
      by (done || lia).
    cbn. rewrite cloneOutboxRecord_id. split; [done|]. split.
    + eexists. unfold claim_id. cbn. rewrite lookup_insert_eq. done.
    + intros id Hi. by rewrite lookup_insert_ne.
Qed.

Record exact_inv (fin : list (OutboxClaim * option string * time)) (b : batch) : Prop := {
  ex_open : forall c, c ∈ b_held b ++ b_jobs b -> current (b_store b) c;
  ex_done : forall f, f ∈ fin -> handled (b_store b) f;
  ex_ids : NoDup (map (fun f => claim_id (fst (fst f))) fin ++ map claim_id (b_held b ++ b_jobs b));
  ex_outcomes : b_outcomes b = map outcome_of fin
}.

Lemma current_other s s' c : outbox s' !! claim_id c = outbox s !! claim_id c ->
  current s c -> current s' c.
Proof. unfold current. by intros ->. Qed.

Lemma handled_other s s' f : outbox s' !! claim_id (fst (fst f)) = outbox s !! claim_id (fst (fst f)) ->
  handled s f -> handled s' f.
Proof. destruct f as [[c bus] at_]. unfold handled. cbn. by intros ->. Qed.

Lemma exact_step fin b a b' :
  tenantID <> "" -> 0 <= initialBackoff p -> 0 <= maximumBackoff p < two63 ->
  exact_inv fin b -> undisturbed a -> bstep b a = Some b' ->
  exact_inv (fin ++ omap finish_of [a]) b'.
Proof.
  intros Ht Hb Hm [Hopen Hdone Hids Hout] Hu Hs. destruct a as [|ctx i c bus at_|cmd]; [| |done].
  - cbn [batch_step] in Hs. destruct (b_jobs b) as [|c jobs] eqn:Hj; [discriminate|].
    case_match; [|discriminate]. apply (inj Some) in Hs as <-. rewrite app_nil_r.
    split; cbn; rewrite <- ?(assoc_L (++)); done.
  - destruct Hu as [-> Hat]. cbn [batch_step] in Hs. case_bool_decide as Hi; [|discriminate].
    apply (inj Some) in Hs as <-. apply delete_Permutation in Hi as Hperm.
    assert (Hc : current (b_store b) c).
    { apply Hopen, elem_of_app. left. rewrite Hperm. by left. }
    destruct (publishClaim_current c bus at_ (b_store b) Ht Hb Hm Hc Hat) as (Ho & Hh & Hother).
    assert (Hids' : NoDup (map (fun f => claim_id (fst (fst f))) fin ++
      claim_id c :: map claim_id (delete i (b_held b) ++ b_jobs b))).
    { rewrite Hperm in Hids. done. }
    assert (Hne : claim_id c ∉ map (fun f => claim_id (fst (fst f))) fin /\
                  claim_id c ∉ map claim_id (delete i (b_held b) ++ b_jobs b)).
    { apply NoDup_app in Hids' as (_ & Hd & Hn). apply NoDup_cons in Hn as [Hn _].
      split; [|done]. intros Hin. by apply (Hd _ Hin); left. }
    cbn [omap list_omap finish_of]. split; cbn [b_store b_held b_jobs b_outcomes].
    + intros c' Hc'. eapply current_other; [|apply Hopen].
      * apply Hother. intros Heq. apply (proj2 Hne). rewrite <- Heq.
        by apply list_elem_of_In, in_map, list_elem_of_In.
      * change (c' ∈ delete i (b_held b) ++ b_jobs b) in Hc'. rewrite Hperm. set_solver.
    + intros f [Hf|Hf]%elem_of_app.
      * eapply handled_other; [|by apply Hdone]. apply Hother. intros Heq. apply (proj1 Hne).
        rewrite <- Heq. apply list_elem_of_In, in_map_iff. exists f. split; [done|by apply list_elem_of_In].
      * apply list_elem_of_singleton in Hf as ->. exact Hh.
    + rewrite map_app, <- (assoc_L (++)). exact Hids'.
    + rewrite map_app, Ho, <- Hout. done.
Qed.

Lemma claims_ids ctx now limit lease s s' claims :
  wf s -> ClaimOutbox ctx tenantID now limit lease s = Ok (s', claims) ->
  NoDup (map claim_id claims).
Proof.
  intros W Hc. apply ClaimOutbox_eq in Hc as [_ ->].
  destruct (ready_spec tenantID now limit s W) as [Hnd _]. by rewrite map_map.
Qed.

(** An undisturbed batch does its job.  When nobody else touches the
    store, the context stays alive and the backoffs are those of a constructed
    publisher, a finished batch has no errors whatever the bus answered: the
    record of every claim the bus accepted is published at that time, and that
    of every claim it refused is due again after the capped exponential delay,
    in any interleaving of the workers; the counts say so. *)
Theorem batch_exact cs s st bu config now b0 acts b :
  run external NewMemoryStore cs s ->
  env_ok s (CmdClaimOutbox None tenantID (UTC now) (batchSize p) (claimTTL p)) = true ->
  NewOutboxPublisher st bu config = Ok p -> maximumBackoff p < two63 ->
  start p None tenantID now s = Ok b0 -> run bstep b0 acts b ->
  Forall undisturbed acts -> finished b = true ->
  map (fun f => fst (fst f)) (omap finish_of acts) ≡ₚ b_jobs b0 /\
  (forall f, f ∈ omap finish_of acts -> handled (b_store b) f) /\
  let '(r, errs) := collect (b_jobs b0) (b_outcomes b) in
  errs = [] /\
  Published r = Z.of_nat (length (List.filter (fun f => is_nil (snd (fst f))) (omap finish_of acts))) /\
  Published r + Retried r = Z.of_nat (length (b_jobs b0)).
Proof.
  intros W%store_run_wf He Hp Hmax Hs Hr Hu Hf. apply new_publisher_ok in Hp as (_ & _ & _ & _ & Hb & _).
  destruct (start_batch _ _ _ _ Hs) as (s' & Hc & Ht & Hst & Hheld & Hout & _).
  assert (Hex : exact_inv (omap finish_of acts) b).
  { assert (H0 : exact_inv [] b0).
    { split; [|by intros f Hin%not_elem_of_nil| |by rewrite Hout].
      - rewrite Hheld, Hst. intros c Hin.
        destruct (claimed_record _ _ _ _ _ _ _ _ _ W Hc Hin) as (o & Ho & Hcl & _ & Hn & Ho').
        destruct (claimed_attempts _ _ _ _ _ _ _ _ _ W He Hc Hin) as (o1 & Ho1 & Hn1 & _).
        rewrite Ho in Ho1. apply (inj Some) in Ho1 as <-.
        destruct (wf_outbox _ W _ _ Ho) as (_ & Hid & _ & H0).
        exists (claim (UTC now) (claimTTL p) o). split; [exact Ho'|]. split_and!.
        + unfold holds_claim, claimable in *. cbn. rewrite <- Hn. go_bool.
          rewrite bool_decide_eq_true_2, Z.eqb_refl by done. by rewrite andb_true_r.
        + unfold claim_id. rewrite Hid. done.
        + lia.
      - rewrite Hheld. exact (claims_ids _ _ _ _ _ _ _ W Hc). }
    clear Hs Hf. induction Hr as [b|b acts b1 a b2 Hr IH Hs]; [exact H0|].
    apply Forall_app in Hu as [Hu Ha]. apply Forall_cons in Ha as [Ha _]. rewrite omap_app.
    eapply exact_step; try done; try lia. by apply IH. }
  destruct (batch_run_inv _ _ _ Hheld Hout Hr) as [_ H2 H3 H4 _].
  unfold finished in Hf. destruct (b_jobs b), (b_held b); try discriminate. rewrite !app_nil_r in H2.
  split; [done|]. destruct Hex as [_ Hdone _ Houts]. split; [done|]. rewrite collect_counts, Houts.
  cbn [Published Retried].
  assert (Herr : omap outcome_err (map outcome_of (omap finish_of acts)) = []).
  { generalize (omap finish_of acts) as l. clear. intros l. by induction l. }
  pose proof (fates_sum _ H4) as Hsum. rewrite Houts, Herr in Hsum. cbn [length] in Hsum.
  rewrite length_map in Hsum. apply Permutation_length in H2. rewrite length_map in H2.
  split; [done|]. split; [|lia]. unfold count. f_equal.
  generalize (omap finish_of acts) as l. clear. intros l. induction l as [|f l IH]; [done|].
  cbn [map List.filter]. cbn [published outcome_of]. case_match; cbn [length]; by rewrite IH.
Qed.
End Batches.

(** ** A small batch for the concrete instances *)
Definition demo_publisher : OutboxPublisher :=
  match NewOutboxPublisher false false (mkOutboxPublisherConfig 0 0 0 0 0 0 0) with
  | Ok p => p
  | Err _ => mkOutboxPublisher 0 0 0 0 0 0 0
  end.
Definition demo_start : batch :=
  match start demo_publisher None "t" 10 (demo_state demo_history) with
  | Ok b => b
  | Err _ => mkBatch NewMemoryStore 0 [] [] []
  end.
Definition demo_job (n : nat) : OutboxClaim := nth n (b_jobs demo_start) (fresh (demo_event "" 0), 0).
Definition demo_acts : list (action (C := command)) :=
  [Take; Take; Finish None 1 (demo_job 1) None 20; Finish None 0 (demo_job 0) (Some "down") 30].
Notation demo_bstep := (batch_step (store_step demo_jcs demo_sha256) demo_publisher "t").
Definition demo_finish : batch := default demo_start (exec demo_bstep demo_start demo_acts).

Lemma demo_batch_run : run demo_bstep demo_start demo_acts demo_finish.
Proof. apply exec_run. vm_compute. reflexivity. Defined.
Lemma demo_history_run : run demo_step NewMemoryStore demo_history (demo_state demo_history).
Proof. apply exec_run. vm_compute. reflexivity. Defined.

Lemma batch_completes_witness :
  (length (List.filter (progress) demo_acts) <= 2 * length (b_jobs demo_start))%nat /\
  length (b_jobs demo_start) = 2%nat /\ finished demo_finish = true.
Proof.
  split; [|split; vm_compute; reflexivity].
  refine (proj1 (batch_completes demo_jcs demo_sha256 demo_publisher "t" false false
    (mkOutboxPublisherConfig 0 0 0 0 0 0 0) None 10 (demo_state demo_history) demo_start demo_acts
    demo_finish _ _ demo_batch_run)); vm_compute; reflexivity.
Defined.

Lemma batch_outcomes_true_witness :
  Forall2 (told (b_store demo_finish)) (omap finish_of demo_acts) (b_outcomes demo_finish) /\
  map published (b_outcomes demo_finish) = [true; false].
Proof.
  split; [|vm_compute; reflexivity].
  refine (batch_outcomes_true demo_jcs demo_sha256 demo_publisher "t" demo_history
    (demo_state demo_history) None 10 demo_start demo_acts demo_finish demo_history_run _ _
    demo_batch_run); vm_compute; reflexivity.
Defined.

Lemma batch_exact_witness :
  (forall f, f ∈ omap finish_of demo_acts -> handled demo_publisher (b_store demo_finish) f) /\
  omap finish_of demo_acts = [(demo_job 1, None, 20); (demo_job 0, Some "down", 30)].
Proof.
  split; [|reflexivity].
  refine (proj1 (proj2 (batch_exact demo_jcs demo_sha256 demo_publisher "t" demo_history
    (demo_state demo_history) false false (mkOutboxPublisherConfig 0 0 0 0 0 0 0) 10 demo_start
    demo_acts demo_finish demo_history_run _ _ _ _ demo_batch_run _ _))).
  - vm_compute. reflexivity.
  - vm_compute. reflexivity.
  - vm_compute. reflexivity.
  - vm_compute. reflexivity.
  - repeat constructor.
  - vm_compute. reflexivity.
Defined.
End OutboxProps.
