(* ===== verification/Inbox.v ===== *)
(** The in-memory inbox ([internal/eventing/inbox.go]): messages processed at
    most once per consumer, with concurrent callers.

    The inbox's map holds pointers to records that callers share, so records
    live in a heap.  A step is one critical section of the mutex, one receive
    from a [done] channel, or the return of a handler; callers interleave
    freely.  Handlers and contexts are arguments of the steps. *)

From S2P Require Import Prelude GoLib Runs Json Errors EventStore.

Module Inbox.

Record InboxResult : Type := mkInboxResult {
  Result : string;
  Duplicate : bool
}.

(** Errors of [Process]: the package's, a handler's, the context's. *)
Inductive inbox_error : Type :=
| Coded (err : Error)
| HandlerErr (err : string)
| ContextErr (err : string).

(** [done] is closed or not; [result] and [err] are set before it closes. *)
Record inboxRecord : Type := mkInboxRecord {
  requestSHA256 : string;
  done_closed : bool;
  result_ : string;
  err_ : option inbox_error
}.

#[global] Instance eta_record : Eta inboxRecord := fun r =>
  mkInboxRecord (requestSHA256 r) (done_closed r) (result_ r) (err_ r).

Definition newRecord (requestSHA256 : string) : inboxRecord :=
  mkInboxRecord requestSHA256 false "" None.

(** A call of [Process]. *)
Record call : Type := mkCall {
  tenantID : string;
  consumerID : string;
  messageID : string;
  digest : string;
  handler_nil : bool
}.

Definition message_key (c : call) : string :=
  tenantID c +:+ nul +:+ consumerID c +:+ nul +:+ messageID c.

(** Where a call is: running the handler of the record at [addr], waiting for
    the record at [addr], or returned. *)
Inductive place : Type :=
| Handling (addr : nat)
| Waiting (addr : nat)
| Returned (answer : result InboxResult inbox_error).

(** The map, the heap, and the calls made so far. *)
Record MemoryInbox : Type := mkMemoryInbox {
  records : gmap string nat;
  heap : list inboxRecord;
  calls : list (call * place)
}.

#[global] Instance eta_inbox : Eta MemoryInbox := fun i =>
  mkMemoryInbox (records i) (heap i) (calls i).

Definition NewMemoryInbox : MemoryInbox := mkMemoryInbox ∅ [] [].

(** [ctx]: [None] for a nil context, otherwise what [ctx.Err()] returns. *)
Definition validateInboxInput (ctx : option (option string)) (c : call)
    : result unit inbox_error :=
  match ctx with
  | None => Err (Coded (scoped CodeInvalidArgument "inbox"))
  | Some err =>
      reject Coded (scoped CodeInvalidArgument "inbox") when
        (tenantID c ≟ "") || (consumerID c ≟ "") || (messageID c ≟ "") || (digest c ≟ "")
        || handler_nil c ;;
      match err with Some e => Err (ContextErr e) | None => Ok tt end
  end.

Definition validateInboxResult (result : string) : option inbox_error :=
  if negb (Json.Valid result) then Some (Coded (scoped CodeInvalidArgument "inbox result"))
  else None.

(** The first critical section of [Process]: the inbox and where the call goes. *)
Definition enter (ctx : option (option string)) (c : call) (i : MemoryInbox)
    : MemoryInbox * place :=
  match validateInboxInput ctx c with
  | Err e => (i, Returned (Err e))
  | Ok _ =>
      let key := message_key c in
      let addr := length (heap i) in
      let claimed := i ⟦ records := <[key := addr]> (records i) ⟧
                       ⟦ heap := heap i ++ [newRecord (digest c)] ⟧ in
      match a ← records i !! key; r ← heap i !! a; Some (a, r) with
      | None => (claimed, Handling addr)
      | Some (a, existing) =>
          if requestSHA256 existing ≠? digest c
          then (i, Returned (Err (Coded (New CodeIdempotencyConflict "" ∅)))) else
          if done_closed existing then
            match err_ existing with
            | Some _ => (claimed, Handling addr)
            | None => (i, Returned (Ok (mkInboxResult (EventStore.cloneJSON (result_ existing)) true)))
            end
          else (i, Waiting a)
      end
  end.

(** The rest of [process], once the handler returned [handled]. *)
Definition process (addr : nat) (handled : result string string) (i : MemoryInbox)
    : MemoryInbox * place :=
  let err := match handled with
             | Err e => Some (HandlerErr e)
             | Ok result => validateInboxResult result
             end in
  let record := default (newRecord "") (heap i !! addr) in
  let result := match handled with Ok result => result | Err _ => "" end in
  let record := match err with
                | Some e => record ⟦ err_ := Some e ⟧
                | None => record ⟦ result_ := EventStore.cloneJSON result ⟧
                end in
  (i ⟦ heap := <[addr := record ⟦ done_closed := true ⟧]> (heap i) ⟧,
   Returned (match err with
             | Some e => Err e
             | None => Ok (mkInboxResult (EventStore.cloneJSON result) false)
             end)).

(** A waiting call after its [select]: [canceled] when the context won. *)
Definition awaited (existing : inboxRecord) (canceled : option string) : option place :=
  match canceled with
  | Some e => Some (Returned (Err (ContextErr e)))
  | None =>
      if done_closed existing then
        Some (Returned (match err_ existing with
                        | Some e => Err e
                        | None => Ok (mkInboxResult (EventStore.cloneJSON (result_ existing)) true)
                        end))
      else None
  end.

(** What happens next: a new call enters, the handler of call [n] returns, or
    call [n] stops waiting. *)
Inductive event : Type :=
| Enter (ctx : option (option string)) (c : call)
| HandlerReturns (n : nat) (handled : result string string)
| StopsWaiting (n : nat) (canceled : option string).

Definition inbox_step (i : MemoryInbox) (e : event) : option MemoryInbox :=
  match e with
  | Enter ctx c =>
      let entered := enter ctx c i in
      Some ((fst entered) ⟦ calls := calls i ++ [(c, snd entered)] ⟧)
  | HandlerReturns n handled =>
      match calls i !! n with
      | Some (c, Handling addr) =>
          let processed := process addr handled i in
          Some ((fst processed) ⟦ calls := <[n := (c, snd processed)]> (calls i) ⟧)
      | _ => None
      end
  | StopsWaiting n canceled =>
      match calls i !! n with
      | Some (c, Waiting addr) =>
          match r ← heap i !! addr; awaited r canceled with
          | Some answer => Some (i ⟦ calls := <[n := (c, answer)]> (calls i) ⟧)
          | None => None
          end
      | _ => None
      end
  end.
End Inbox.
