(* ===== verification/InboxProps.v ===== *)
(** The inbox's theorems: one handler at a time and one success for ever per
    message, whatever the interleaving; waiting calls are never stranded. *)

From S2P Require Import Prelude GoLib Runs Json Errors EventStore EventStoreProps Inbox.

Module InboxProps.
Import Inbox.

(** The record of a message: who created it, and for which message. *)
Abbreviation ghosts := (list (string * nat)) (only parsing).

(** A record whose handler succeeded. *)
Definition succeeded (r : inboxRecord) : Prop := done_closed r = true /\ err_ r = None.

(** Where the creator of the record at [a] is. *)
Definition creator_place (a : nat) (r : inboxRecord) : place :=
  if done_closed r then
    Returned (match err_ r with
              | Some e => Err e
              | None => Ok (mkInboxResult (result_ r) false)
              end)
  else Handling a.

(** What the place of call [n] says of the records. *)
Definition place_ok (i : MemoryInbox) (g : ghosts) (n : nat) (c : call) (p : place) : Prop :=
  match p with
  | Handling a => g !! a = Some (message_key c, n)
  | Waiting a => exists m r, g !! a = Some (message_key c, m) /\ heap i !! a = Some r /\
      requestSHA256 r = digest c
  | Returned (Err _) => True
  | Returned (Ok x) => exists a m r, g !! a = Some (message_key c, m) /\ heap i !! a = Some r /\
      requestSHA256 r = digest c /\ succeeded r /\ result_ r = Result x /\
      (Duplicate x = false -> m = n)
  end.

Record inv (i : MemoryInbox) (g : ghosts) : Prop := {
  inv_length : length g = length (heap i);
  inv_record : forall a r k n, heap i !! a = Some r -> g !! a = Some (k, n) ->
    (exists c, calls i !! n = Some (c, creator_place a r) /\ message_key c = k /\
       digest c = requestSHA256 r) /\
    (succeeded r \/ done_closed r = false -> records i !! k = Some a) /\
    (succeeded r -> Json.Valid (result_ r) = true);
  inv_map : forall k a, records i !! k = Some a -> exists n, g !! a = Some (k, n);
  inv_call : forall n c p, calls i !! n = Some (c, p) -> place_ok i g n c p
}.

Lemma inv_heap i g a : inv i g -> is_Some (g !! a) <-> is_Some (heap i !! a).
Proof. intros I. rewrite !lookup_lt_is_Some, (inv_length _ _ I). done. Qed.

(** More calls, more records: what a place says persists. *)
Lemma place_ok_mono i i' g g' n c p :
  place_ok i g n c p -> (forall a x, g !! a = Some x -> g' !! a = Some x) ->
  (forall a r, heap i !! a = Some r -> exists r', heap i' !! a = Some r' /\
     requestSHA256 r' = requestSHA256 r /\ (succeeded r -> r' = r)) ->
  place_ok i' g' n c p.
Proof.
  intros H Hg Hh. destruct p as [a|a|[x|e]]; cbn in *; [auto| | |done].
  - destruct H as (m & r & Hga & Hr & Hs). destruct (Hh a r Hr) as (r' & Hr' & Hs' & _).
    exists m, r'. split_and!; auto. congruence.
  - destruct H as (a & m & r & Hga & Hr & Hs & Hsucc & Hrest).
    destruct (Hh a r Hr) as (r' & Hr' & _ & Heq). rewrite (Heq Hsucc) in Hr'.
    exists a, m, r. auto 10.
Qed.

(** A call that returned without touching the records. *)
Lemma inv_add_call i g c p :
  inv i g -> place_ok i g (length (calls i)) c p -> (forall a, p <> Handling a) ->
  inv (i ⟦ calls := calls i ++ [(c, p)] ⟧) g.
Proof.
  intros I Hp Hh. split; cbn.
  - apply I.
  - intros a r k n Hr Hg. destruct (inv_record _ _ I a r k n Hr Hg) as ((c' & Hc & Hk) & Hrest).
    split; [|done]. exists c'. split; [|done]. by apply lookup_app_l_Some.
  - apply I.
  - intros n c' p' Hn. apply lookup_snoc_Some in Hn as [[_ Hn]|[-> [= <- <-]]]; [|exact Hp].
    exact (inv_call _ _ I _ _ _ Hn).
Qed.

(** A call that claims its message: there is no record, or one that failed. *)
Lemma inv_claim i g c :
  inv i g ->
  (forall a r, records i !! message_key c = Some a -> heap i !! a = Some r ->
     done_closed r = true /\ err_ r <> None) ->
  inv (i ⟦ records := <[message_key c := length (heap i)]> (records i) ⟧
         ⟦ heap := heap i ++ [newRecord (digest c)] ⟧
         ⟦ calls := calls i ++ [(c, Handling (length (heap i)))] ⟧)
      (g ++ [(message_key c, length (calls i))]).
Proof.
  intros I Hfree. pose proof (inv_length _ _ I) as Hlen. split; cbn.
  - rewrite !length_app, Hlen. done.
  - intros a r k n Hr Hg. apply lookup_snoc_Some in Hr as [[Hlt Hr]|[-> <-]].
    + rewrite lookup_app_l in Hg by lia.
      destruct (inv_record _ _ I a r k n Hr Hg) as ((c' & Hc & Hk) & Hmap & Hv).
      split; [|split; [|done]].
      * exists c'. split; [|done]. by apply lookup_app_l_Some.
      * intros Hs. pose proof (Hmap Hs) as Ha. rewrite lookup_insert_ne; [done|]. intros <-.
        destruct (Hfree a r Ha Hr) as [Hd He]. destruct Hs as [[_ Hs]|Hs]; congruence.
    + rewrite <- Hlen, lookup_app_r, Nat.sub_diag in Hg by lia. injection Hg as <- <-.
      split; [|split].
      * exists c. split; [|done]. rewrite lookup_app_r, Nat.sub_diag by lia. done.
      * intros _. apply lookup_insert_eq.
      * intros [[=] _].
  - intros k a Ha. apply lookup_insert_Some in Ha as [[<- <-]|[_ Ha]].
    + exists (length (calls i)). rewrite <- Hlen, lookup_app_r, Nat.sub_diag by lia. done.
    + destruct (inv_map _ _ I k a Ha) as [n Hn]. exists n. by apply lookup_app_l_Some.
  - intros n c' p Hn. apply lookup_snoc_Some in Hn as [[_ Hn]|[-> [= <- <-]]].
    + eapply place_ok_mono; [exact (inv_call _ _ I _ _ _ Hn)| |].
      * intros a x Hx. by apply lookup_app_l_Some.
      * intros a r Hr. exists r. split; [by apply lookup_app_l_Some|done].
    + cbn. rewrite <- Hlen, lookup_app_r, Nat.sub_diag by lia. done.
Qed.

(** The two ways [enter] can go. *)
Lemma enter_inv ctx c i g :
  inv i g -> exists g', inv ((fst (enter ctx c i)) ⟦ calls := calls i ++ [(c, snd (enter ctx c i))] ⟧) g'.
Proof.
  intros I. unfold enter. destruct (validateInboxInput ctx c) as [|e].
  2:{ exists g. by apply inv_add_call. }
  destruct (records i !! message_key c) as [a|] eqn:Ha; cbn [option_bind mbind].
  2:{ eexists. apply (inv_claim i g c I). intros a r Hr. congruence. }
  destruct (inv_map _ _ I _ _ Ha) as [m Hg].
  destruct (proj1 (inv_heap i g a I) ltac:(eauto)) as [r Hr]. rewrite Hr. cbn [option_bind mbind].
  destruct (requestSHA256 r ≠? digest c) eqn:Hd; [exists g; by apply inv_add_call|]. go_bool.
  destruct (done_closed r) eqn:Hdone.
  - destruct (err_ r) as [e|] eqn:He.
    + eexists. apply (inv_claim i g c I). intros a' r' Ha' Hr'. simplify_eq. split; congruence.
    + exists g. apply inv_add_call; [done| |done]. cbn [snd place_ok]. exists a, m, r.
      rewrite EventStoreProps.cloneJSON_id. unfold succeeded. split_and!; done.
  - exists g. apply inv_add_call; [done| |done]. by exists m, r.
Qed.

(** The record a handler leaves behind. *)
Definition closed_record (r : inboxRecord) (handled : result string string) : inboxRecord :=
  match handled with
  | Err e => r ⟦ err_ := Some (HandlerErr e) ⟧ ⟦ done_closed := true ⟧
  | Ok x =>
      match validateInboxResult x with
      | Some e => r ⟦ err_ := Some e ⟧ ⟦ done_closed := true ⟧
      | None => r ⟦ result_ := x ⟧ ⟦ done_closed := true ⟧
      end
  end.

Lemma process_closes a handled i r :
  heap i !! a = Some r -> err_ r = None -> result_ r = "" ->
  process a handled i = (i ⟦ heap := <[a := closed_record r handled]> (heap i) ⟧,
                         creator_place a (closed_record r handled)).
Proof.
  intros Hr He Hres. unfold process, closed_record. rewrite Hr. cbn [default].
  destruct handled as [x|e]; [|reflexivity].
  destruct (validateInboxResult x) as [e|]; [reflexivity|]. unfold creator_place. cbn.
  rewrite !EventStoreProps.cloneJSON_id, He. done.
Qed.

Lemma closed_valid r handled : succeeded (closed_record r handled) -> err_ r = None ->
  Json.Valid (result_ (closed_record r handled)) = true.
Proof.
  unfold succeeded, closed_record, validateInboxResult. intros [_ H] He.
  destruct handled as [x|e]; [|done]. destruct (Json.Valid x) eqn:E; done.
Qed.

Lemma closed_keeps r handled :
  done_closed (closed_record r handled) = true /\
  requestSHA256 (closed_record r handled) = requestSHA256 r.
Proof. unfold closed_record. by repeat case_match. Qed.

(** Open records are as created. *)
Definition pristine (i : MemoryInbox) : Prop :=
  forall a r, heap i !! a = Some r -> done_closed r = false -> err_ r = None /\ result_ r = "".

Lemma handling_record i g n c a :
  inv i g -> calls i !! n = Some (c, Handling a) ->
  exists r, heap i !! a = Some r /\ g !! a = Some (message_key c, n) /\ done_closed r = false /\
    digest c = requestSHA256 r /\ records i !! message_key c = Some a.
Proof.
  intros I Hn. pose proof (inv_call _ _ I _ _ _ Hn) as Hg. cbn in Hg.
  destruct (proj1 (inv_heap i g a I) ltac:(eauto)) as [r Hr]. exists r.
  destruct (inv_record _ _ I a r _ n Hr Hg) as ((c' & Hc & Hk & Hd) & Hmap & _).
  rewrite Hn in Hc. unfold creator_place in Hc. destruct (done_closed r) eqn:E; simplify_eq.
  split_and!; auto.
Qed.

Lemma handler_returns_inv i g n c a r r' :
  inv i g -> calls i !! n = Some (c, Handling a) -> heap i !! a = Some r -> done_closed r' = true ->
  requestSHA256 r' = requestSHA256 r -> (succeeded r' -> Json.Valid (result_ r') = true) ->
  inv (i ⟦ heap := <[a := r']> (heap i) ⟧ ⟦ calls := <[n := (c, creator_place a r')]> (calls i) ⟧) g.
Proof.
  intros I Hn Hr Hd' Hsha Hval.
  destruct (handling_record i g n c a I Hn) as (r0 & Hr0 & Hg & Hd & Hdig & Hmap). simplify_eq.
  pose proof (lookup_lt_Some _ _ _ Hr) as Hlt. pose proof (lookup_lt_Some _ _ _ Hn) as Hltn.
  split; cbn.
  - rewrite length_insert. apply I.
  - intros a1 r1 k m Hr1 Hg1. destruct (decide (a1 = a)) as [->|Hne].
    + rewrite list_lookup_insert_eq in Hr1 by done. rewrite Hg in Hg1. simplify_eq.
      split; [|done]. exists c. rewrite list_lookup_insert_eq by done. by split_and!; [..|congruence].
    + rewrite list_lookup_insert_ne in Hr1 by done.
      destruct (inv_record _ _ I a1 r1 k m Hr1 Hg1) as ((c1 & Hc1 & Hk1) & Hrest).
      split; [|done]. exists c1. split; [|done]. rewrite list_lookup_insert_ne; [done|].
      intros ->. rewrite Hn in Hc1. unfold creator_place in Hc1. destruct (done_closed r1); by simplify_eq.
  - apply I.
  - intros m c1 p1 Hm.
    assert (Hmono : forall p, place_ok i g m c1 p ->
      place_ok (i ⟦ heap := <[a := r']> (heap i) ⟧ ⟦ calls := <[n := (c, creator_place a r')]> (calls i) ⟧)
        g m c1 p).
    { intros p Hp. eapply place_ok_mono; [exact Hp|done|]. cbn. intros a1 r1 Hr1.
      destruct (decide (a1 = a)) as [->|Hne].
      - rewrite list_lookup_insert_eq by done. exists r'. simplify_eq. split_and!; [done|done|].
        intros [Hs _]. congruence.
      - rewrite list_lookup_insert_ne by done. eauto. }
    destruct (decide (m = n)) as [->|Hne].
    + rewrite list_lookup_insert_eq in Hm by done. simplify_eq. unfold creator_place. rewrite Hd'.
      destruct (err_ r') eqn:He; [done|]. exists a, n, r'. cbn.
      rewrite list_lookup_insert_eq by done. unfold succeeded. split_and!; try done. congruence.
    + rewrite list_lookup_insert_ne in Hm by done. apply Hmono. exact (inv_call _ _ I _ _ _ Hm).
Qed.

Lemma inbox_step_inv i g e i' :
  inv i g -> pristine i -> inbox_step i e = Some i' -> (exists g', inv i' g') /\ pristine i'.
Proof.
  intros I Hpr Hs. destruct e as [ctx c|n handled|n canceled]; cbn [inbox_step] in Hs.
  - apply (inj Some) in Hs as <-. split; [by apply (enter_inv ctx c i g)|].
    unfold enter. assert (Hnew : forall sha a r,
      (heap i ++ [newRecord sha]) !! a = Some r -> done_closed r = false ->
      err_ r = None /\ result_ r = "").
    { intros sha a r [[_ Hr]|[_ <-]]%lookup_snoc_Some; [by apply Hpr in Hr|done]. }
    repeat case_match; cbn; try exact Hpr; unfold pristine; cbn; apply Hnew.
  - destruct (calls i !! n) as [[c [a| |]]|] eqn:Hn; try discriminate.
    destruct (handling_record i g n c a I Hn) as (r & Hr & _ & Hd & _).
    destruct (Hpr a r Hr Hd) as [He Hres]. rewrite (process_closes a handled i r Hr He Hres) in Hs.
    cbn [fst snd] in Hs. apply (inj Some) in Hs as <-. destruct (closed_keeps r handled) as [Hd' Hsha].
    split.
    + exists g. apply (handler_returns_inv i g n c a r); try done. intros Hs. by apply closed_valid.
    + intros a1 r1 Hr1 Hd1. cbn in Hr1. destruct (decide (a1 = a)) as [->|Hne].
      * rewrite list_lookup_insert_eq in Hr1 by (by eapply lookup_lt_Some). simplify_eq. congruence.
      * rewrite list_lookup_insert_ne in Hr1 by done. exact (Hpr _ _ Hr1 Hd1).
  - destruct (calls i !! n) as [[c [|a|]]|] eqn:Hn; try discriminate.
    destruct (heap i !! a) as [r|] eqn:Hr; [|discriminate]. cbn [mbind option_bind] in Hs.
    destruct (awaited r canceled) as [p|] eqn:Hp; [|discriminate]. apply (inj Some) in Hs as <-.
    split; [|exact Hpr]. exists g.
    destruct (inv_call _ _ I _ _ _ Hn) as (m & r0 & Hg & Hr0 & Hsha). simplify_eq.
    pose proof (lookup_lt_Some _ _ _ Hn) as Hltn. split; cbn; try apply I.
    + intros a1 r1 k m1 Hr1 Hg1.
      destruct (inv_record _ _ I a1 r1 k m1 Hr1 Hg1) as ((c1 & Hc1 & Hk1) & Hrest).
      split; [|done]. exists c1. split; [|done]. rewrite list_lookup_insert_ne; [done|].
      intros ->. rewrite Hn in Hc1. unfold creator_place in Hc1. destruct (done_closed r1); by simplify_eq.
    + intros m1 c1 p1 Hm1. destruct (decide (m1 = n)) as [->|Hne].
      * rewrite list_lookup_insert_eq in Hm1 by done. simplify_eq.
        unfold awaited in Hp. destruct canceled; [by simplify_eq|].
        destruct (done_closed r) eqn:Hd; [|discriminate]. simplify_eq.
        destruct (err_ r) eqn:He; [done|]. exists a, m, r.
        rewrite EventStoreProps.cloneJSON_id. unfold succeeded. by split_and!.
      * rewrite list_lookup_insert_ne in Hm1 by done. exact (inv_call _ _ I _ _ _ Hm1).
Qed.

Lemma run_inv es i : run inbox_step NewMemoryInbox es i -> (exists g, inv i g) /\ pristine i.
Proof.
  intros Hr. refine (run_preserves inbox_step (fun i => (exists g, inv i g) /\ pristine i)
    _ _ _ _ Hr _).
  - intros t e t' [[g I] Hp] Hs. by eapply inbox_step_inv.
  - split; [exists []|]; [split; cbn|]; try done; intros *; rewrite ?lookup_nil, ?lookup_empty; done.
Qed.

(** The successful record behind an answer. *)
Lemma answer_record i g n c x :
  inv i g -> calls i !! n = Some (c, Returned (Ok x)) ->
  exists a m r c0, g !! a = Some (message_key c, m) /\ heap i !! a = Some r /\ succeeded r /\
    requestSHA256 r = digest c /\ result_ r = Result x /\ records i !! message_key c = Some a /\
    Json.Valid (Result x) = true /\ (Duplicate x = false -> m = n) /\
    calls i !! m = Some (c0, Returned (Ok (mkInboxResult (Result x) false))) /\
    message_key c0 = message_key c /\ digest c0 = digest c.
Proof.
  intros I Hn. destruct (inv_call _ _ I _ _ _ Hn) as (a & m & r & Hg & Hr & Hsha & Hs & Hres & Hm).
  destruct (inv_record _ _ I a r _ m Hr Hg) as ((c0 & Hc0 & Hk & Hd) & Hmap & Hv).
  exists a, m, r, c0. unfold creator_place in Hc0. destruct Hs as [Hs1 Hs2]. rewrite Hs1, Hs2, Hres in Hc0.
  split_and!; try done; [by apply Hmap; left|rewrite <- Hres; by apply Hv|congruence].
Qed.

(** C23: a message is processed once.  In every state the inbox can reach, by
    any interleaving of calls, handlers, waits and cancellations: when a call
    was answered with a result, exactly one handler produced it - one call for
    this message and digest has the original, valid JSON answer - all answered
    calls for the message have the same digest and result, no handler runs
    for it, and from now on the same request gets that result as a duplicate
    at once and another digest a conflict. *)
Theorem inbox_exactly_once es i n c x :
  run inbox_step NewMemoryInbox es i -> calls i !! n = Some (c, Returned (Ok x)) ->
  Json.Valid (Result x) = true /\
  (exists m c0, calls i !! m = Some (c0, Returned (Ok (mkInboxResult (Result x) false))) /\
     message_key c0 = message_key c /\ digest c0 = digest c /\
     forall m' c' x', calls i !! m' = Some (c', Returned (Ok x')) -> message_key c' = message_key c ->
       Result x' = Result x /\ digest c' = digest c /\ (Duplicate x' = false -> m' = m)) /\
  (forall m c' a, calls i !! m = Some (c', Handling a) -> message_key c' <> message_key c) /\
  (forall c', message_key c' = message_key c -> validateInboxInput (Some None) c' = Ok tt ->
     enter (Some None) c' i =
       (i, Returned (if digest c' ≟ digest c then Ok (mkInboxResult (Result x) true)
                     else Err (Coded (New CodeIdempotencyConflict "" ∅))))).
Proof.
  intros Hrun Hn. destruct (run_inv _ _ Hrun) as [[g I] _].
  destruct (answer_record i g n c x I Hn)
    as (a & m & r & c0 & Hg & Hr & Hs & Hsha & Hres & Hmap & Hv & Hm & Hc0 & Hk0 & Hd0).
  split_and!; [done| | |].
  - exists m, c0. split_and!; try done. intros m' c' x' Hm' Hk'.
    destruct (answer_record i g m' c' x' I Hm')
      as (a' & m1 & r' & c1 & Hg' & Hr' & _ & Hsha' & Hres' & Hmap' & _ & Hdup & _).
    rewrite Hk' in Hmap', Hg'. simplify_eq. split_and!; [congruence..|]. intros Hx. symmetry. by apply Hdup.
  - intros m' c' a' Hm' Hk'.
    destruct (handling_record i g m' c' a' I Hm') as (r' & Hr' & _ & Hopen & _ & Hmap').
    rewrite Hk' in Hmap'. destruct Hs as [Hs _]. simplify_eq. congruence.
  - intros c' Hk' Hval. unfold enter. rewrite Hval, Hk', Hmap. cbn [mbind option_bind]. rewrite Hr.
    cbn [mbind option_bind]. rewrite Hsha. destruct Hs as [-> ->].
    destruct (decide (digest c' = digest c)) as [Heq|Hne].
    + rewrite Heq, !bool_decide_eq_true_2 by done. cbn [negb].
      by rewrite EventStoreProps.cloneJSON_id, Hres.
    + by rewrite !bool_decide_eq_false_2 by congruence.
Qed.

(** one handler at a time.  Two calls that run a handler for the same
    message, in any reachable state, are the same call. *)
Theorem inbox_single_flight es i n m c c' a a' :
  run inbox_step NewMemoryInbox es i ->
  calls i !! n = Some (c, Handling a) -> calls i !! m = Some (c', Handling a') ->
  message_key c = message_key c' -> n = m.
Proof.
  intros Hrun Hn Hm Hk. destruct (run_inv _ _ Hrun) as [[g I] _].
  destruct (handling_record i g n c a I Hn) as (r & _ & Hg & _ & _ & Hmap).
  destruct (handling_record i g m c' a' I Hm) as (r' & _ & Hg' & _ & _ & Hmap').
  rewrite Hk in Hg, Hmap. by simplify_eq.
Qed.

(** No call is stranded.  A call that waits, in any reachable state, waits
    for a handler that is running for its message and digest, or can stop
    waiting now; and once that handler returns, whatever it returns, it can. *)
Theorem inbox_waiters_released es i n c a :
  run inbox_step NewMemoryInbox es i -> calls i !! n = Some (c, Waiting a) ->
  (exists i', inbox_step i (StopsWaiting n None) = Some i') \/
  (exists m c', calls i !! m = Some (c', Handling a) /\ message_key c' = message_key c /\
     digest c' = digest c /\
     forall handled, exists i' i'', inbox_step i (HandlerReturns m handled) = Some i' /\
       inbox_step i' (StopsWaiting n None) = Some i'').
Proof.
  intros Hrun Hn. destruct (run_inv _ _ Hrun) as [[g I] Hpr].
  destruct (inv_call _ _ I _ _ _ Hn) as (m & r & Hg & Hr & Hsha).
  destruct (inv_record _ _ I a r _ m Hr Hg) as ((c' & Hc' & Hk & Hd) & _).
  unfold creator_place in Hc'. destruct (done_closed r) eqn:Hdone; [left|right].
  - cbn [inbox_step]. rewrite Hn, Hr. cbn [mbind option_bind awaited]. rewrite Hdone. eauto.
  - exists m, c'. split_and!; [done..|congruence|]. intros handled.
    destruct (Hpr a r Hr Hdone) as [He Hres]. cbn [inbox_step]. rewrite Hc'.
    rewrite (process_closes a handled i r Hr He Hres). cbn [fst snd]. do 2 eexists. split; [done|].
    cbn. rewrite list_lookup_insert_ne, Hn by (intros ->; congruence).
    rewrite list_lookup_insert_eq by (by eapply lookup_lt_Some). cbn [mbind option_bind].
    unfold awaited. destruct (closed_keeps r handled) as [-> _]. done.
Qed.

(** ** Concrete calls *)
Definition demo_call (sha : string) : call := mkCall "t" "consumer" "m1" sha false.
(** One call fails and another retries; a third waits for it; a fourth repeats. *)
Definition demo_events : list event :=
  [Enter (Some None) (demo_call "d"); HandlerReturns 0 (Err "down");
   Enter (Some None) (demo_call "d"); Enter (Some None) (demo_call "d")].
Definition demo_waiting : MemoryInbox := default NewMemoryInbox (exec inbox_step NewMemoryInbox demo_events).
Definition demo_rest : list event :=
  [HandlerReturns 1 (Ok "{}"); StopsWaiting 2 None; Enter (Some None) (demo_call "d")].
Definition demo_done : MemoryInbox := default NewMemoryInbox (exec inbox_step demo_waiting demo_rest).
Definition demo_place (i : MemoryInbox) (n : nat) : place :=
  default (Waiting 0) (snd <$> calls i !! n).

Lemma demo_waiting_run : run inbox_step NewMemoryInbox demo_events demo_waiting.
Proof. apply exec_run. vm_compute. reflexivity. Defined.
Lemma demo_done_run : run inbox_step NewMemoryInbox (demo_events ++ demo_rest) demo_done.
Proof. apply exec_run. vm_compute. reflexivity. Defined.

Lemma inbox_exactly_once_witness :
  Json.Valid "{}" = true /\ demo_place demo_done 3 = Returned (Ok (mkInboxResult "{}" true)).
Proof.
  split; [|vm_compute; reflexivity].
  refine (proj1 (inbox_exactly_once _ demo_done 3 (demo_call "d") (mkInboxResult "{}" true)
    demo_done_run _)).
  vm_compute. reflexivity.
Defined.

Lemma inbox_single_flight_witness : demo_place demo_waiting 1 = Handling 1 /\ 1%nat = 1%nat.
Proof.
  split; [vm_compute; reflexivity|].
  refine (inbox_single_flight _ demo_waiting 1 1 (demo_call "d") (demo_call "d") 1 1
    demo_waiting_run _ _ eq_refl); vm_compute; reflexivity.
Defined.

Lemma inbox_waiters_released_witness :
  (exists i', inbox_step demo_waiting (StopsWaiting 2 None) = Some i') \/
  (exists m c', calls demo_waiting !! m = Some (c', Handling 1) /\
     message_key c' = message_key (demo_call "d") /\ digest c' = digest (demo_call "d") /\
     forall handled, exists i' i'', inbox_step demo_waiting (HandlerReturns m handled) = Some i' /\
       inbox_step i' (StopsWaiting 2 None) = Some i'').
Proof.
  apply (inbox_waiters_released demo_events demo_waiting 2 (demo_call "d") 1 demo_waiting_run).
  vm_compute. reflexivity.
Defined.
End InboxProps.
