(* ===== verification/Path.v ===== *)
(** The parts of Go's packages [path], [unicode/utf8], [strings] and [time] that
    the authorization package uses: [path.Clean], [path.Match], rune decoding,
    substring search and canonical RFC 3339 UTC instants. *)

From S2P Require Import Prelude GoLib Trace.

Module Path.
Import Trace.

Notation seg := (list ascii).

(** ** [path.Clean] *)
Definition dot : seg := ["."%char].
Definition dotdot : seg := ["."; "."]%char.

(** One path element, onto the cleaned elements in reverse. *)
Definition clean_element (rooted : bool) (out : list seg) (e : seg) : list seg :=
  if (e ≟ []) || (e ≟ dot) then out
  else if e ≟ dotdot then
    match out with
    | [] => if rooted then [] else [dotdot]
    | last :: rest => if last ≟ dotdot then dotdot :: out else rest
    end
  else e :: out.

Fixpoint join_slash (l : list seg) : seg :=
  match l with
  | [] => []
  | [e] => e
  | e :: rest => e ++ "/"%char :: join_slash rest
  end.

Definition clean_bytes (l : seg) : seg :=
  let rooted := match l with c :: _ => byte_is 47 c | [] => false end in
  let out := rev (foldl (clean_element rooted) [] (split_on 47 l)) in
  let joined := join_slash out in
  if rooted then "/"%char :: joined else match joined with [] => dot | _ => joined end.

Definition Clean (value : string) : string := of_bytes (clean_bytes (bytes value)).

(** ** [utf8.DecodeRune]: the rune and its width; an invalid encoding is
    [RuneError] with width 1. *)
Definition RuneError : Z := 0xFFFD.

Definition cont (c : ascii) : bool := byte_in 0x80 0xBF c.
Definition low6 (c : ascii) : Z := byte_of c mod 64.

Definition decode_rune (l : seg) : Z * nat :=
  match l with
  | [] => (RuneError, 0%nat)
  | a :: l1 =>
      let invalid := (RuneError, 1%nat) in
      let v := byte_of a in
      if v <? 0x80 then (v, 1%nat) else
      match l1 with
      | b :: l2 =>
          if (0xC2 <=? v) && (v <=? 0xDF) then
            if cont b then (v mod 32 * 64 + low6 b, 2%nat) else invalid
          else
          match l2 with
          | c :: l3 =>
              if (0xE0 <=? v) && (v <=? 0xEF) then
                if byte_in (if v =? 0xE0 then 0xA0 else 0x80) (if v =? 0xED then 0x9F else 0xBF) b && cont c
                then (v mod 16 * 4096 + low6 b * 64 + low6 c, 3%nat) else invalid
              else
              match l3 with
              | d :: _ =>
                  if (0xF0 <=? v) && (v <=? 0xF4)
                     && byte_in (if v =? 0xF0 then 0x90 else 0x80) (if v =? 0xF4 then 0x8F else 0xBF) b
                     && cont c && cont d
                  then (v mod 8 * 262144 + low6 b * 4096 + low6 c * 64 + low6 d, 4%nat) else invalid
              | [] => invalid
              end
          | [] => invalid
          end
      | [] => invalid
      end
  end.

(** ** [path.Match] *)
Inductive chunk_match : Type :=
| BadPattern
| NoMatch
| Rest (s : seg).

(** [scanChunk] after the leading stars: the chunk and what follows it. *)
Fixpoint scan (inrange : bool) (pattern : seg) : seg * seg :=
  match pattern with
  | [] => ([], [])
  | c :: rest =>
      if byte_is 92 c then
        match rest with
        | d :: rest' => let '(chunk, after) := scan inrange rest' in (c :: d :: chunk, after)
        | [] => ([c], [])
        end
      else if byte_is 42 c && negb inrange then ([], pattern)
      else
        let inrange := if byte_is 91 c then true else if byte_is 93 c then false else inrange in
        let '(chunk, after) := scan inrange rest in (c :: chunk, after)
  end.

Fixpoint drop_stars (pattern : seg) : bool * seg :=
  match pattern with
  | c :: rest => if byte_is 42 c then (true, snd (drop_stars rest)) else (false, pattern)
  | [] => (false, [])
  end.

Definition scanChunk (pattern : seg) : bool * (seg * seg) :=
  let '(star, pattern) := drop_stars pattern in (star, scan false pattern).

(** [getEsc]: a possibly escaped rune of a class. *)
Definition getEsc (chunk : seg) : option (Z * seg) :=
  match chunk with
  | [] => None
  | c :: rest =>
      if byte_is 45 c || byte_is 93 c then None else
      let chunk := if byte_is 92 c then rest else chunk in
      match chunk with
      | [] => None
      | _ =>
          let '(r, n) := decode_rune chunk in
          if (r =? RuneError) && Nat.eqb n 1 then None else
          match drop n chunk with
          | [] => None
          | rest => Some (r, rest)
          end
      end
  end.

(** The ranges of a class, matched against [r]; [fuel] bounds their number. *)
Fixpoint class_ranges (fuel : nat) (r : Z) (chunk : seg) (matched : bool) (nrange : nat)
    : option (bool * seg) :=
  match fuel with
  | O => None
  | S fuel =>
      match chunk with
      | c :: rest =>
          if byte_is 93 c && Nat.ltb 0 nrange then Some (matched, rest) else
          match getEsc chunk with
          | None => None
          | Some (lo, chunk) =>
              match chunk with
              | c :: rest =>
                  if byte_is 45 c then
                    match getEsc rest with
                    | None => None
                    | Some (hi, chunk) =>
                        class_ranges fuel r chunk (matched || (lo <=? r) && (r <=? hi)) (S nrange)
                    end
                  else class_ranges fuel r chunk (matched || (lo =? r)) (S nrange)
              | [] => None
              end
          end
      | [] => None
      end
  end.

(** [matchChunk]; [s] is [None] once the match has failed and only the syntax
    is checked.  Each round consumes a byte of the chunk. *)
Fixpoint match_chunk (fuel : nat) (chunk : seg) (s : option seg) : chunk_match :=
  match fuel with
  | O => BadPattern
  | S fuel =>
      match chunk with
      | [] => match s with Some s => Rest s | None => NoMatch end
      | c :: rest =>
          let s := match s with Some [] => None | _ => s end in
          let literal (c : ascii) (rest : seg) :=
            match_chunk fuel rest
              (match s with
               | Some (b :: s) => if c ≟ b then Some s else None
               | _ => None
               end) in
          if byte_is 91 c then
            let '(r, s) := match s with
                           | Some s => let '(r, n) := decode_rune s in (r, Some (drop n s))
                           | None => (0, None)
                           end in
            let '(negated, chunk) := match rest with
                                     | d :: rest' => if byte_is 94 d then (true, rest') else (false, rest)
                                     | [] => (false, [])
                                     end in
            match class_ranges (S (length chunk)) r chunk false 0 with
            | None => BadPattern
            | Some (matched, chunk) =>
                match_chunk fuel chunk (if Bool.eqb matched negated then None else s)
            end
          else if byte_is 63 c then
            match_chunk fuel rest
              (match s with
               | Some ((b :: _) as s) =>
                   if byte_is 47 b then None else Some (drop (snd (decode_rune s)) s)
               | _ => None
               end)
          else if byte_is 92 c then
            match rest with [] => BadPattern | d :: rest => literal d rest end
          else literal c rest
      end
  end.

Definition matchChunk (chunk s : seg) : chunk_match := match_chunk (S (length chunk)) chunk (Some s).

(** The positions a star may skip to: not past a slash. *)
Fixpoint star_tails (name : seg) : list seg :=
  match name with
  | [] => []
  | c :: rest => if byte_is 47 c then [] else rest :: star_tails rest
  end.

(** The first position at which the chunk matches, and the rest of the name. *)
Fixpoint match_later (last : bool) (chunk : seg) (names : list seg) : option seg :=
  match names with
  | [] => None
  | name :: names =>
      match matchChunk chunk name with
      | BadPattern => None
      | NoMatch => match_later last chunk names
      | Rest t => if last && negb (t ≟ []) then match_later last chunk names else Some t
      end
  end.

(** [path.Match], [false] also for a malformed pattern.  [fuel] bounds the
    number of chunks. *)
Fixpoint match_from (fuel : nat) (pattern name : seg) : bool :=
  match fuel with
  | O => false
  | S fuel =>
      match pattern with
      | [] => name ≟ []
      | _ =>
          let '(star, (chunk, pattern)) := scanChunk pattern in
          if star && (chunk ≟ []) then negb (existsb (byte_is 47) name) else
          let later := if star then
                         match match_later (pattern ≟ []) chunk (star_tails name) with
                         | Some t => match_from fuel pattern t
                         | None => false
                         end
                       else false in
          match matchChunk chunk name with
          | BadPattern => false
          | Rest t => if (t ≟ []) || negb (pattern ≟ []) then match_from fuel pattern t else later
          | NoMatch => later
          end
      end
  end.

Definition Match (pattern name : string) : bool :=
  match_from (S (String.length pattern)) (bytes pattern) (bytes name).

(** ** Substrings *)
(** [strings.Contains(s, substr)]. *)
Fixpoint contains_bytes (sub l : seg) : bool :=
  is_prefix sub l || match l with [] => false | _ :: l => contains_bytes sub l end.
Definition Contains (s substr : string) : bool := contains_bytes (bytes substr) (bytes s).

(** What follows the last occurrence of [sub], and the index it starts at. *)
Fixpoint last_index (at_ : nat) (sub l : seg) : option nat :=
  let here := if is_prefix sub l then Some at_ else None in
  match l with
  | [] => here
  | _ :: l => match last_index (S at_) sub l with Some i => Some i | None => here end
  end.
Definition LastIndex (s substr : string) : option nat := last_index 0 (bytes substr) (bytes s).

(** [strings.ContainsAny] on a set of bytes. *)
Definition ContainsAny (s : string) (chars : list Z) : bool :=
  existsb (fun c => existsb (fun v => byte_is v c) chars) (bytes s).

(** [strings.ReplaceAll(s, old, "")] for a one-byte [old]. *)
Definition remove_byte (v : Z) (s : string) : string :=
  of_bytes (List.filter (fun c => negb (byte_is v c)) (bytes s)).

(** ** Canonical RFC 3339 instants

    [time.Parse(time.RFC3339Nano, s)] when it succeeds in UTC and formats back
    to [s]: [YYYY-MM-DDThh:mm:ss[.fraction]Z] with a fraction of up to nine
    digits that does not end in 0, for a valid date and time. *)
Definition digit (c : ascii) : option Z :=
  if byte_in 48 57 c then Some (byte_of c - 48) else None.

Fixpoint digits (acc : Z) (l : seg) : option Z :=
  match l with
  | [] => Some acc
  | c :: l => match digit c with Some d => digits (acc * 10 + d) l | None => None end
  end.

Definition field (from len : nat) (l : seg) : option Z :=
  let f := take len (drop from l) in
  if Nat.eqb (length f) len then digits 0 f else None.

Definition leap (y : Z) : bool :=
  (y mod 4 =? 0) && (negb (y mod 100 =? 0) || (y mod 400 =? 0)).
Definition days_in (y m : Z) : Z :=
  if m =? 2 then if leap y then 29 else 28
  else if (m =? 4) || (m =? 6) || (m =? 9) || (m =? 11) then 30 else 31.

(** Days since the first day of year 1. *)
Definition days_before_year (y : Z) : Z :=
  let y := y - 1 in y * 365 + y / 4 - y / 100 + y / 400.
Fixpoint days_before_month (y : Z) (m : nat) : Z :=
  match m with
  | O | S O => 0
  | S m => days_before_month y m + days_in y (Z.of_nat m)
  end.

Definition literal_at (i : nat) (v : Z) (l : seg) : bool :=
  match l !! i with Some c => byte_is v c | None => false end.

(** The nanoseconds after the seconds: [Z] or [.fractionZ]. *)
Definition fraction (l : seg) : option Z :=
  match l with
  | [c] => if byte_is 90 c then Some 0 else None
  | c :: rest =>
      let n := (length rest - 1)%nat in
      if byte_is 46 c && Nat.leb 1 n && Nat.leb n 9 && literal_at n 90 rest
         && negb (literal_at (n - 1) 48 rest)
      then match digits 0 (take n rest) with
           | Some f => Some (f * 10 ^ Z.of_nat (9 - n))
           | None => None
           end
      else None
  | [] => None
  end.

Definition ParseRFC3339UTC (s : string) : option time :=
  let l := bytes s in
  y ← field 0 4 l; mo ← field 5 2 l; d ← field 8 2 l;
  h ← field 11 2 l; mi ← field 14 2 l; sec ← field 17 2 l; f ← fraction (drop 19 l);
  if literal_at 4 45 l && literal_at 7 45 l && literal_at 10 84 l && literal_at 13 58 l
     && literal_at 16 58 l && (1 <=? mo) && (mo <=? 12) && (1 <=? d) && (d <=? days_in y mo)
     && (h <=? 23) && (mi <=? 59) && (sec <=? 59)
  then Some ((((days_before_year y + days_before_month y (Z.to_nat mo) + (d - 1)) * 24 + h) * 60
               + mi) * 60 * Second + sec * Second + f)
  else None.

Example clean_ex : Clean "a/./b//c/../d" = "a/b/d" /\ Clean "../x/.." = ".." /\ Clean "/../a" = "/a"
  /\ Clean "" = ".".
Proof. vm_compute. auto. Qed.
Example match_ex : Match "a*b?[c-e]" "axxbzd" = true /\ Match "*.go" "x/y.go" = false /\
  Match "[^a]" "a" = false /\ Match "a[" "a" = false /\ Match "*" "" = true.
Proof. vm_compute. auto 10. Qed.
Example parse_ex : ParseRFC3339UTC "0001-01-02T00:00:01.5Z" = Some (86401500000000) /\
  ParseRFC3339UTC "2023-02-29T00:00:00Z" = None /\
  ParseRFC3339UTC "1970-01-01T00:00:00Z" = Some (62135596800 * Second).
Proof. vm_compute. auto. Qed.
End Path.
