(* ===== verification/EventBus.v ===== *)
(** The event bus: the CloudEvents envelope of a stored event
    ([pkg/cloudevents/event.go], [internal/eventing/cloud_event.go]), its
    publication to JetStream and its delivery to the consumers of a tenant
    ([internal/eventing]: [jetstream.go], [jetstream_replay.go]).

    The broker is a parameter: a client's call answers and moves the world it
    keeps.  So are [encoding/json] on the envelope and its data, and [url.Parse],
    of which only the scheme is read.  A message is what is set on it, or read
    from it, through the accessors of the client library. *)

From S2P Require Import Prelude GoLib Path Trace Json EventStore.

(** [cloudevents.Event]. *)
Module CE.
Record Event : Type := mk {
  SpecVersion_ : string;
  ID : string;
  Source : string;
  Type_ : string;
  Subject : string;
  Time : time;
  DataContentType : string;
  DataSchema : string;
  Traceparent : string;
  Tracestate : string;
  ProjectID : string;
  TaskID : string;
  TaskIDReason : string;
  AgentRunID : string;
  AgentRunReason : string;
  Data : string
}.
#[global] Instance eta_Event : Eta Event := fun e =>
  mk (SpecVersion_ e) (ID e) (Source e) (Type_ e) (Subject e) (Time e) (DataContentType e)
    (DataSchema e) (Traceparent e) (Tracestate e) (ProjectID e) (TaskID e) (TaskIDReason e)
    (AgentRunID e) (AgentRunReason e) (Data e).
End CE.

Module EventBus.
Import EventStore.

(** ** The profile ([event.go]) *)
Definition SpecVersion : string := "1.0".

Definition lower (c : ascii) : bool := byte_in 97 122 c.
Definition digit (c : ascii) : bool := byte_in 48 57 c.
Definition letter (c : ascii) : bool := byte_in 65 90 c || byte_in 97 122 c.
Definition any_of (l : list Z) (c : ascii) : bool := existsb (fun v => byte_is v c) l.

(** [[a-z][a-z0-9-]*], [v[1-9][0-9]*]. *)
Definition type_part (l : list ascii) : bool :=
  match l with c :: l => lower c && forallb (fun c => lower c || digit c || byte_is 45 c) l | [] => false end.
Definition version_part (l : list ascii) : bool :=
  match l with
  | v :: c :: l => byte_is 118 v && byte_in 49 57 c && forallb digit l
  | _ => false
  end.
(** [typePattern]: [^io\.aor\.[a-z][a-z0-9-]*\.[a-z][a-z0-9-]*\.v[1-9][0-9]*$]; no
    part holds a dot. *)
Definition typePattern (value : string) : bool :=
  match Trace.split_on 46 (bytes value) with
  | [io; aor; domain; name; version] =>
      (of_bytes io ≟ "io") && (of_bytes aor ≟ "aor") && type_part domain && type_part name
      && version_part version
  | _ => false
  end.

(** [[A-Za-z0-9_-]+]. *)
Definition subject_part (l : list ascii) : bool :=
  match l with [] => false | _ => forallb (fun c => letter c || digit c || any_of [95; 45] c) l end.
(** [subjectPattern]; no part holds a slash. *)
Definition subjectPattern (value : string) : bool :=
  match Trace.split_on 47 (bytes value) with
  | [projects; project] => (of_bytes projects ≟ "projects") && subject_part project
  | [projects; project; scope; id] =>
      (of_bytes projects ≟ "projects") && subject_part project
      && ((of_bytes scope ≟ "tasks") || (of_bytes scope ≟ "agents") || (of_bytes scope ≟ "audits")
          || (of_bytes scope ≟ "approvals"))
      && subject_part id
  | _ => false
  end.

Definition hex_part (n : nat) (l : list ascii) : bool :=
  Nat.eqb (length l) n && forallb (fun c => digit c || byte_in 97 102 c) l.
(** [traceparentPattern]; no part holds a hyphen. *)
Definition traceparentPattern (value : string) : bool :=
  match Trace.split_on 45 (bytes value) with
  | [version; trace; span; flags] =>
      hex_part 2 version && hex_part 32 trace && hex_part 16 span && hex_part 2 flags
  | _ => false
  end.

(** [opaqueIDPattern]: [^[A-Za-z0-9][A-Za-z0-9_.:-]{0,127}$]. *)
Definition opaqueIDPattern (value : string) : bool :=
  match bytes value with
  | [] => false
  | c :: rest => (letter c || digit c) && Nat.leb (length rest) 127
      && forallb (fun c => letter c || digit c || any_of [95; 46; 58; 45] c) rest
  end.

Definition Catalog : list (string * string) :=
  [
    ("io.aor.project.created.v1", "https://schemas.aor.local/events/project-created.v1.schema.json");
    ("io.aor.project.changed.v1", "https://schemas.aor.local/events/project-changed.v1.schema.json");
    ("io.aor.project.integration-started.v1", "https://schemas.aor.local/events/project-integration-started.v1.schema.json");
    ("io.aor.project.global-audit-started.v1", "https://schemas.aor.local/events/project-global-audit-started.v1.schema.json");
    ("io.aor.project.global-audit-remediation-started.v1", "https://schemas.aor.local/events/project-global-audit-remediation-started.v1.schema.json");
    ("io.aor.project.paused.v1", "https://schemas.aor.local/events/project-paused.v1.schema.json");
    ("io.aor.project.resumed.v1", "https://schemas.aor.local/events/project-resumed.v1.schema.json");
    ("io.aor.project.aborted.v1", "https://schemas.aor.local/events/project-aborted.v1.schema.json");
    ("io.aor.project.archived.v1", "https://schemas.aor.local/events/project-archived.v1.schema.json");
    ("io.aor.project.deletion-requested.v1", "https://schemas.aor.local/events/project-deletion-requested.v1.schema.json");
    ("io.aor.project.deletion-started.v1", "https://schemas.aor.local/events/project-deletion-started.v1.schema.json");
    ("io.aor.project.deletion-completed.v1", "https://schemas.aor.local/events/project-deletion-completed.v1.schema.json");
    ("io.aor.project.legal-hold-placed.v1", "https://schemas.aor.local/events/project-legal-hold-placed.v1.schema.json");
    ("io.aor.project.legal-hold-released.v1", "https://schemas.aor.local/events/project-legal-hold-released.v1.schema.json");
    ("io.aor.goal.negotiation-started.v1", "https://schemas.aor.local/events/goal-negotiation-started.v1.schema.json");
    ("io.aor.goal.toolchain-ready.v1", "https://schemas.aor.local/events/goal-toolchain-ready.v1.schema.json");
    ("io.aor.goal.message-received.v1", "https://schemas.aor.local/events/goal-message-received.v1.schema.json");
    ("io.aor.goal.message-stored.v1", "https://schemas.aor.local/events/goal-message-stored.v1.schema.json");
    ("io.aor.goal.proposed.v1", "https://schemas.aor.local/events/goal-proposed.v1.schema.json");
    ("io.aor.goal.approved.v1", "https://schemas.aor.local/events/goal-approved.v1.schema.json");
    ("io.aor.goal.rejected.v1", "https://schemas.aor.local/events/goal-rejected.v1.schema.json");
    ("io.aor.goal.change-requested.v1", "https://schemas.aor.local/events/goal-change-requested.v1.schema.json");
    ("io.aor.goal.superseded.v1", "https://schemas.aor.local/events/goal-superseded.v1.schema.json");
    ("io.aor.goal.spec-stored.v1", "https://schemas.aor.local/events/goal-spec-stored.v1.schema.json");
    ("io.aor.goal.spec-approved.v1", "https://schemas.aor.local/events/goal-spec-approved.v1.schema.json");
    ("io.aor.goal.spec-rejected.v1", "https://schemas.aor.local/events/goal-spec-rejected.v1.schema.json");
    ("io.aor.goal.spec-superseded.v1", "https://schemas.aor.local/events/goal-spec-superseded.v1.schema.json");
    ("io.aor.plan.published.v1", "https://schemas.aor.local/events/plan-published.v1.schema.json");
    ("io.aor.module.defined.v1", "https://schemas.aor.local/events/module-defined.v1.schema.json");
    ("io.aor.module.execution-ready.v1", "https://schemas.aor.local/events/module-execution-ready.v1.schema.json");
    ("io.aor.module.execution-leased.v1", "https://schemas.aor.local/events/module-execution-leased.v1.schema.json");
    ("io.aor.module.implementation-submitted.v1", "https://schemas.aor.local/events/module-implementation-submitted.v1.schema.json");
    ("io.aor.module.deterministic-audit-started.v1", "https://schemas.aor.local/events/module-deterministic-audit-started.v1.schema.json");
    ("io.aor.module.deterministic-audit-passed.v1", "https://schemas.aor.local/events/module-deterministic-audit-passed.v1.schema.json");
    ("io.aor.module.deterministic-audit-failed.v1", "https://schemas.aor.local/events/module-deterministic-audit-failed.v1.schema.json");
    ("io.aor.module.llm-audit-passed.v1", "https://schemas.aor.local/events/module-llm-audit-passed.v1.schema.json");
    ("io.aor.module.llm-audit-failed.v1", "https://schemas.aor.local/events/module-llm-audit-failed.v1.schema.json");
    ("io.aor.module.blocked-user-decision.v1", "https://schemas.aor.local/events/module-blocked-user-decision.v1.schema.json");
    ("io.aor.module.blocked-dependency.v1", "https://schemas.aor.local/events/module-blocked-dependency.v1.schema.json");
    ("io.aor.module.unblocked-dependency.v1", "https://schemas.aor.local/events/module-unblocked-dependency.v1.schema.json");
    ("io.aor.module.rework-queued.v1", "https://schemas.aor.local/events/module-rework-queued.v1.schema.json");
    ("io.aor.module.attempt-series-authorized.v1", "https://schemas.aor.local/events/module-attempt-series-authorized.v1.schema.json");
    ("io.aor.module.superseded.v1", "https://schemas.aor.local/events/module-superseded.v1.schema.json");
    ("io.aor.module.integrated.v1", "https://schemas.aor.local/events/module-integrated.v1.schema.json");
    ("io.aor.artifact.spec-stored.v1", "https://schemas.aor.local/events/artifact-spec-stored.v1.schema.json");
    ("io.aor.integration.summary-published.v1", "https://schemas.aor.local/events/integration-summary-published.v1.schema.json");
    ("io.aor.approval.committed.v1", "https://schemas.aor.local/events/approval-committed.v1.schema.json");
    ("io.aor.budget.adjusted.v1", "https://schemas.aor.local/events/budget-adjusted.v1.schema.json");
    ("io.aor.knowledge.updated.v1", "https://schemas.aor.local/events/knowledge-updated.v1.schema.json");
    ("io.aor.knowledge.update-approved.v1", "https://schemas.aor.local/events/knowledge-update-approved.v1.schema.json");
    ("io.aor.project.completed.v1", "https://schemas.aor.local/events/project-completed.v1.schema.json")
  ].
Fixpoint catalogued (catalog : list (string * string)) (ty : string) : option string :=
  match catalog with
  | [] => None
  | (key, schema) :: catalog => if key ≟ ty then Some schema else catalogued catalog ty
  end.

Definition validScopedID (value reason : string) : bool :=
  if value ≠? "" then (reason ≟ "") && opaqueIDPattern value else
  (reason ≟ "NOT_APPLICABLE") || (reason ≟ "NOT_CREATED") || (reason ≟ "UNAVAILABLE")
  || (reason ≟ "REDACTED_BY_POLICY").

Definition zeros (n : nat) : list ascii := repeat "0"%char n.
Definition validTraceContext (traceparent tracestate : string) : bool :=
  if negb (traceparentPattern traceparent) || HasPrefix traceparent "ff-"
     || (512 <? len tracestate) || existsb (any_of [13; 10]) (bytes tracestate)
  then false else
  match Trace.split_on 45 (bytes traceparent) with
  | [_; trace; span; _] => (trace ≠? zeros 32) && (span ≠? zeros 16)
  | _ => false
  end.

(** The two fields of an event's data that its validation reads. *)
Record event_data : Type := mkData { d_ProjectID : string; d_AggregateVersion : Z }.

Inductive bus_error : Type :=
| ErrEvent (text : string)
| ErrExternalCorrelation
| ErrJetStreamEnvelope
| ErrMarshal
| ErrBroker
| ErrDeadline
| ErrHandler.

Section Bus.
Context (jcs_Transform : string -> option string) (sha256_Sum256 : string -> list Z).
Context (url_Scheme : string -> option string) (unmarshal_data : string -> option event_data).
Context (marshal_event : CE.Event -> option string) (unmarshal_event : string -> option CE.Event).
Notation Digest := (CanonicalJson.Digest jcs_Transform sha256_Sum256).

Definition data_bad (e : CE.Event) : bool :=
  match unmarshal_data (CE.Data e) with
  | None => true
  | Some data => (d_ProjectID data ≟ "") || (d_ProjectID data ≠? CE.ProjectID e)
                 || (d_AggregateVersion data <? 1)
  end.

(** The two comparisons of the subject, given its parts. *)
Definition subject_project (e : CE.Event) (parts : list (list ascii)) : bool :=
  match parts with _ :: project :: _ => of_bytes project ≟ CE.ProjectID e | _ => false end.
Definition subject_scope (e : CE.Event) (parts : list (list ascii)) : bool :=
  match parts with
  | [_; _; scope; id] =>
      negb ((of_bytes scope ≟ "tasks") && (of_bytes id ≠? CE.TaskID e)
            || (of_bytes scope ≟ "agents") && (of_bytes id ≠? CE.AgentRunID e))
  | _ => true
  end.

Definition Validate (e : CE.Event) : result unit bus_error :=
  reject ErrEvent "required CloudEvents attributes are invalid" when
    (CE.SpecVersion_ e ≠? SpecVersion) || (CE.ID e ≟ "")
    || (CE.DataContentType e ≠? "application/json") || IsZero (CE.Time e) ;;
  reject ErrEvent "invalid AOR event type" when negb (typePattern (CE.Type_ e)) ;;
  reject ErrEvent "event type and data schema do not match the catalog" when
    catalogued Catalog (CE.Type_ e) ≠? Some (CE.DataSchema e) ;;
  reject ErrEvent "event subject or trace context is invalid" when
    negb (subjectPattern (CE.Subject e)) || negb (validTraceContext (CE.Traceparent e) (CE.Tracestate e)) ;;
  reject ErrEvent "event correlation context is invalid" when
    negb (opaqueIDPattern (CE.ProjectID e)) || negb (validScopedID (CE.TaskID e) (CE.TaskIDReason e))
    || negb (validScopedID (CE.AgentRunID e) (CE.AgentRunReason e)) ;;
  reject ErrEvent "event source must be an absolute URI" when
    match url_Scheme (CE.Source e) with None => true | Some scheme => scheme ≟ "" end ;;
  reject ErrEvent "event data schema must be an HTTPS URI" when
    url_Scheme (CE.DataSchema e) ≠? Some "https" ;;
  reject ErrEvent "event data must identify a project and positive aggregate version" when data_bad e ;;
  let parts := Trace.split_on 47 (bytes (CE.Subject e)) in
  reject ErrEvent "event subject and project correlation do not match" when
    Nat.ltb (length parts) 2 || negb (subject_project e parts) ;;
  reject ErrEvent "event subject and scoped correlation do not match" when negb (subject_scope e parts) ;;
  Ok tt.

(** ** The envelope ([cloud_event.go]) *)
Record CloudEventOptions : Type := mkOptions {
  o_Source : string;
  o_Traceparent : string;
  o_Tracestate : string;
  o_TaskID : string;
  o_TaskReason : string;
  o_AgentRunID : string;
  o_AgentReason : string
}.

(** [CloudEventOptions.validate]. *)
Definition options_validate (o : CloudEventOptions) : result unit bus_error :=
  reject ErrExternalCorrelation when
    existsb (any_of [13; 10]) (bytes (o_Source o)) || existsb (any_of [13; 10]) (bytes (o_Traceparent o)) ;;
  Ok tt.

(** The options with what the event says where they are silent. *)
Definition with_event (event : DomainEvent) (o : CloudEventOptions) : CloudEventOptions :=
  let '(traceparent, tracestate) :=
    if o_Traceparent o ≟ "" then (e_Traceparent event, e_Tracestate event)
    else (o_Traceparent o, o_Tracestate o) in
  let '(taskID, taskReason) :=
    if (o_TaskID o ≟ "") && (o_TaskReason o ≟ "") then (e_TaskID event, e_TaskIDReason event)
    else (o_TaskID o, o_TaskReason o) in
  let '(agentID, agentReason) :=
    if (o_AgentRunID o ≟ "") && (o_AgentReason o ≟ "") then (e_AgentRunID event, e_AgentRunReason event)
    else (o_AgentRunID o, o_AgentReason o) in
  mkOptions (o_Source o) traceparent tracestate taskID taskReason agentID agentReason.

(** The subject and the scoped identities by aggregate type. *)
Record scope : Type := mkScope {
  sc_Subject : string; sc_TaskID : string; sc_TaskReason : string;
  sc_AgentRunID : string; sc_AgentReason : string
}.
Definition plain_aggregates : list string :=
  ["project"; "goal"; "goal_message"; "goal_spec"; "plan"; "module"; "spec_artifact"; "budget"; "knowledge";
   "integration_summary"; ""].
Definition scope_of (event : DomainEvent) (o : CloudEventOptions) : result scope bus_error :=
  let subject := "projects/" +:+ e_ProjectID event in
  let same := mkScope subject (o_TaskID o) (o_TaskReason o) (o_AgentRunID o) (o_AgentReason o) in
  let ty := e_AggregateType event in
  let id := e_AggregateID event in
  if ty ≟ "task" then
    reject ErrExternalCorrelation when (o_TaskID o ≠? "") && (o_TaskID o ≠? id) ;;
    Ok (mkScope (subject +:+ "/tasks/" +:+ id) id "" (o_AgentRunID o) (o_AgentReason o))
  else if (ty ≟ "agent_run") || (ty ≟ "agent-run") then
    reject ErrExternalCorrelation when (o_AgentRunID o ≠? "") && (o_AgentRunID o ≠? id) ;;
    Ok (mkScope (subject +:+ "/agents/" +:+ id) (o_TaskID o) (o_TaskReason o) id "")
  else if ty ≟ "audit" then
    Ok (mkScope (subject +:+ "/audits/" +:+ id) (o_TaskID o) (o_TaskReason o) (o_AgentRunID o) (o_AgentReason o))
  else if ty ≟ "approval" then
    Ok (mkScope (subject +:+ "/approvals/" +:+ id) (o_TaskID o) (o_TaskReason o) (o_AgentRunID o) (o_AgentReason o))
  else if existsb (fun plain => ty ≟ plain) plain_aggregates then Ok same
  else Err ErrExternalCorrelation.

Definition reason_or_default (id reason : string) : string :=
  if (id ≟ "") && (reason ≟ "") then "NOT_CREATED" else reason.

Definition Externalize (event : DomainEvent) (options : CloudEventOptions) : result CE.Event bus_error :=
  reject ErrExternalCorrelation when
    (e_EventID event ≟ "") || (e_ProjectID event ≟ "") || (e_Type event ≟ "")
    || IsZero (e_OccurredAt event) || (len (e_Payload event) =? 0) ;;
  let o := with_event event options in
  reject ErrExternalCorrelation when (o_Source o ≟ "") || (o_Traceparent o ≟ "") ;;
  reject ErrExternalCorrelation when e_PayloadSHA256 event ≟ "" ;;
  reject ErrExternalCorrelation when Digest (e_Payload event) ≠? Some (e_PayloadSHA256 event) ;;
  _ <-! options_validate o ;;
  sc <-! scope_of event o ;;
  dataSchema <-? catalogued Catalog (e_Type event) else ErrExternalCorrelation ;;
  let external := CE.mk "1.0" (e_EventID event) (o_Source o) (e_Type event) (sc_Subject sc)
    (e_OccurredAt event) "application/json" dataSchema (o_Traceparent o) (o_Tracestate o)
    (e_ProjectID event) (sc_TaskID sc) (reason_or_default (sc_TaskID sc) (sc_TaskReason sc))
    (sc_AgentRunID sc) (reason_or_default (sc_AgentRunID sc) (sc_AgentReason sc)) (cloneJSON (e_Payload event)) in
  reject ErrExternalCorrelation when negb (is_ok (Validate external)) ;;
  Ok external.

(** ** Names of the broker ([jetstream.go]) *)
Definition validNATSToken (value : string) : bool :=
  if (value ≟ "") || existsb (any_of [46; 42; 62; 47; 92; 32; 9; 13; 10]) (bytes value) then false
  else forallb (byte_in 33 126) (bytes value).
Definition validDurableName (value : string) : bool := (value ≠? "") && validNATSToken value.

Definition token_valid (allowWildcards : bool) (token : list ascii) : bool :=
  if Nat.eqb (length token) 0 then false else
  if existsb (any_of [42; 62]) token
     && (negb allowWildcards || ((of_bytes token ≠? "*") && (of_bytes token ≠? ">")))
  then false else forallb (byte_in 33 126) token.
Definition validNATSSubject (value : string) (allowWildcards : bool) : bool :=
  if (value ≟ "") || HasPrefix value "." || HasSuffix value "." || Path.Contains value ".."
     || existsb (any_of [32; 9; 13; 10; 47; 92]) (bytes value)
  then false else forallb (token_valid allowWildcards) (Trace.split_on 46 (bytes value)).

Definition tenant_prefix (subjectPrefix tenantID : string) : string :=
  subjectPrefix +:+ "." +:+ tenantID +:+ ".".
Definition validTenantFilter (subject subjectPrefix tenantID : string) : bool :=
  let prefix := tenant_prefix subjectPrefix tenantID in
  validNATSSubject subject true && HasPrefix subject prefix && (len prefix <? len subject).
Definition validHeaderValue (value : string) : bool := negb (existsb (any_of [13; 10]) (bytes value)).

(** ** Publication *)
Definition defaultJetStreamSubjectPrefix : string := "aor.events".
Definition defaultConsumerAckWait : duration := 30 * Second.
Definition tenantHeader : string := "Aor-Tenant-Id".
Definition traceparentHeader : string := "traceparent".
Definition tracestateHeader : string := "tracestate".
(** [nats.MsgIdHdr]. *)
Context (MsgIdHdr : string).

Record JetStreamEventBus : Type := mkBus { b_stream : string; b_source : string; b_subjectPrefix : string }.

Definition NewJetStreamEventBus (stream source subjectPrefix : string) : result JetStreamEventBus bus_error :=
  reject ErrJetStreamEnvelope when (stream ≟ "") || (source ≟ "") ;;
  let subjectPrefix := if subjectPrefix ≟ "" then defaultJetStreamSubjectPrefix else subjectPrefix in
  reject ErrJetStreamEnvelope when
    negb (validNATSSubject subjectPrefix false) || existsb (any_of [13; 10]) (bytes stream) ;;
  Ok (mkBus stream source subjectPrefix).

Definition subject (b : JetStreamEventBus) (aggregateType tenantID : string) : string :=
  let aggregateType := if aggregateType ≟ "" then "event" else aggregateType in
  b_subjectPrefix b +:+ "." +:+ tenantID +:+ "." +:+ aggregateType.

(** A message to send: its subject, data and the headers set on it, in order. *)
Record Outgoing : Type := mkOutgoing {
  g_Subject : string; g_Data : string; g_Header : list (string * string)
}.
Record PubAck : Type := mkAck { a_Stream : string; a_Sequence : Z }.

Definition message_of (b : JetStreamEventBus) (event : DomainEvent) : result Outgoing bus_error :=
  reject ErrJetStreamEnvelope when
    negb (validNATSToken (e_TenantID event)) || negb (validHeaderValue (e_EventID event))
    || (e_EventID event ≟ "") ;;
  external <-! Externalize event (mkOptions (b_source b) "" "" "" "" "" "") ;;
  payload <-? marshal_event external else ErrMarshal ;;
  Ok (mkOutgoing (subject b (e_AggregateType event) (e_TenantID event)) payload
        ([(MsgIdHdr, e_EventID event); (tenantHeader, e_TenantID event);
          (traceparentHeader, CE.Traceparent external)]
         ++ (if CE.Tracestate external ≠? "" then [(tracestateHeader, CE.Tracestate external)] else []))).

Definition Publish {world} (PublishMsg : Outgoing -> string -> world -> world * option (option PubAck))
    (b : JetStreamEventBus) (event : DomainEvent) (t : world) : world * result unit bus_error :=
  match message_of b event with
  | Err e => (t, Err e)
  | Ok message =>
      match PublishMsg message (b_stream b) t with
      | (t, None) => (t, Err ErrBroker)
      | (t, Some None) => (t, Err ErrJetStreamEnvelope)
      | (t, Some (Some ack)) =>
          if (a_Stream ack ≠? b_stream b) || (a_Sequence ack =? 0)
          then (t, Err ErrJetStreamEnvelope) else (t, Ok tt)
      end
  end.

(** ** Consumers *)
Inductive ReplayStart : Type :=
| ReplayUnset | ReplayFromBeginning | ReplayNewMessages | ReplayFromSequence | ReplayFromTime
| ReplayStartRaw (raw : string).
Inductive ReplayPacing : Type :=
| PacingUnset | ReplayAsFastAsPossible | ReplayAtOriginalRate | ReplayPacingRaw (raw : string).

Record DurableConsumerConfig : Type := mkConsumer {
  c_Durable : string;
  c_TenantID : string;
  c_FilterSubject : string;
  c_Start : ReplayStart;
  c_StartSequence : Z;
  c_StartTime : time;
  c_Pacing : ReplayPacing;
  c_AckWait : duration;
  c_MaxDeliver : Z
}.

(** [jetstream.ConsumerConfig], the fields set; [DeliverPolicy] with its
    argument. *)
Inductive DeliverPolicy : Type :=
| DeliverAllPolicy | DeliverNewPolicy | DeliverByStartSequencePolicy (sequence : Z)
| DeliverByStartTimePolicy (start : time).
Inductive ReplayPolicy : Type := ReplayInstantPolicy | ReplayOriginalPolicy.
Record ConsumerConfig : Type := mkConsumerConfig {
  cc_Durable : string;
  cc_AckWait : duration;
  cc_MaxDeliver : Z;
  cc_FilterSubject : string;
  cc_DeliverPolicy : DeliverPolicy;
  cc_ReplayPolicy : ReplayPolicy
}.

Definition deliver_policy (config : DurableConsumerConfig) : result DeliverPolicy bus_error :=
  match c_Start config with
  | ReplayUnset | ReplayFromBeginning => Ok DeliverAllPolicy
  | ReplayNewMessages => Ok DeliverNewPolicy
  | ReplayFromSequence =>
      reject ErrJetStreamEnvelope when c_StartSequence config =? 0 ;;
      Ok (DeliverByStartSequencePolicy (c_StartSequence config))
  | ReplayFromTime =>
      reject ErrJetStreamEnvelope when IsZero (c_StartTime config) ;;
      Ok (DeliverByStartTimePolicy (UTC (c_StartTime config)))
  | ReplayStartRaw _ => Err ErrJetStreamEnvelope
  end.
Definition replay_policy (config : DurableConsumerConfig) : result ReplayPolicy bus_error :=
  match c_Pacing config with
  | PacingUnset | ReplayAsFastAsPossible => Ok ReplayInstantPolicy
  | ReplayAtOriginalRate => Ok ReplayOriginalPolicy
  | ReplayPacingRaw _ => Err ErrJetStreamEnvelope
  end.

Definition consumerConfig (b : JetStreamEventBus) (config : DurableConsumerConfig)
    : result ConsumerConfig bus_error :=
  reject ErrJetStreamEnvelope when
    negb (validDurableName (c_Durable config)) || negb (validNATSToken (c_TenantID config)) ;;
  reject ErrJetStreamEnvelope when (c_AckWait config <? 0) || (c_MaxDeliver config <? -1) ;;
  let ackWait := if c_AckWait config =? 0 then defaultConsumerAckWait else c_AckWait config in
  let filter := if c_FilterSubject config ≟ ""
                then b_subjectPrefix b +:+ "." +:+ c_TenantID config +:+ ".>" else c_FilterSubject config in
  reject ErrJetStreamEnvelope when
    negb (validTenantFilter filter (b_subjectPrefix b) (c_TenantID config)) ;;
  deliver <-! deliver_policy config ;;
  replay <-! replay_policy config ;;
  Ok (mkConsumerConfig (c_Durable config) ackWait (c_MaxDeliver config) filter deliver replay).

(** A received message: its subject, its data, what [Get] reads of its headers,
    and the delivery count of its metadata, if they can be read. *)
Record Incoming : Type := mkIncoming {
  i_Subject : string; i_Data : string; i_Get : string -> string; i_NumDelivered : option Z
}.
Record JetStreamDelivery : Type := mkDelivery {
  dl_Event : CE.Event; dl_TenantID : string; dl_Subject : string; dl_DeliveryAttempt : Z
}.

Definition decodeJetStreamDelivery (message : option Incoming) (subjectPrefix tenantID : string)
    : result JetStreamDelivery bus_error :=
  message <-? message else ErrJetStreamEnvelope ;;
  reject ErrJetStreamEnvelope when negb (validNATSToken tenantID) ;;
  let subject := i_Subject message in
  let expectedPrefix := tenant_prefix subjectPrefix tenantID in
  reject ErrJetStreamEnvelope when
    negb (validNATSSubject subject false) || negb (HasPrefix subject expectedPrefix)
    || (len subject =? len expectedPrefix) ;;
  reject ErrJetStreamEnvelope when i_Get message tenantHeader ≠? tenantID ;;
  external <-? unmarshal_event (i_Data message) else ErrJetStreamEnvelope ;;
  reject ErrJetStreamEnvelope when negb (is_ok (Validate external)) ;;
  reject ErrJetStreamEnvelope when
    (i_Get message MsgIdHdr ≠? CE.ID external)
    || (i_Get message traceparentHeader ≠? CE.Traceparent external)
    || (i_Get message tracestateHeader ≠? CE.Tracestate external) ;;
  attempt <-? i_NumDelivered message else ErrJetStreamEnvelope ;;
  Ok (mkDelivery external tenantID subject attempt).

(** A consumer of the broker with the namespace it reads. *)
Record DurableConsumer (consumer : Type) : Type := mkDurable {
  dc_consumer : consumer; dc_subjectPrefix : string; dc_tenantID : string
}.

(** The client creates or updates the consumer; it may answer with none. *)
Definition OpenDurableConsumer {world consumer : Type}
    (CreateOrUpdateConsumer : string -> ConsumerConfig -> world -> world * option (option consumer))
    (b : JetStreamEventBus) (config : DurableConsumerConfig) (t : world)
    : world * result (DurableConsumer consumer) bus_error :=
  match consumerConfig b config with
  | Err e => (t, Err e)
  | Ok cc =>
      match CreateOrUpdateConsumer (b_stream b) cc t with
      | (t, None) => (t, Err ErrBroker)
      | (t, Some None) => (t, Err ErrJetStreamEnvelope)
      | (t, Some (Some opened)) =>
          (t, Ok (mkDurable _ opened (b_subjectPrefix b) (c_TenantID config)))
      end
  end.

(** One delivery.  [done] says that the context is over, [deadline] how far off
    its deadline is; [fetch] pulls a message within a wait. *)
Definition Next {world consumer : Type}
    (fetch : consumer -> duration -> world -> world * option (option Incoming))
    (c : DurableConsumer consumer) (done : bool) (deadline : option duration) (t : world)
    : world * result JetStreamDelivery bus_error :=
  if done then (t, Err ErrDeadline) else
  match deadline with
  | None => (t, Err ErrJetStreamEnvelope)
  | Some wait =>
      if wait <=? 0 then (t, Err ErrDeadline) else
      match fetch (dc_consumer _ c) wait t with
      | (t, None) => (t, Err ErrBroker)
      | (t, Some message) =>
          (t, decodeJetStreamDelivery message (dc_subjectPrefix _ c) (dc_tenantID _ c))
      end
  end.

(** ** Replay ([jetstream_replay.go]) *)
(** What [Info] tells of a consumer. *)
Record ConsumerInfo : Type := mkInfo {
  n_Delivered : Z; n_AckFloor : Z; n_NumAckPending : Z; n_NumPending : Z
}.

(** [ReplayPending] over a consumer whose calls to the broker are given: [next]
    is the decoded answer of [Next], [handler] answers and moves its own state
    [H], and [settle] acknowledges a delivery or refuses it. *)
Section Replay.
Context {world H : Type}.
Context (next : world -> world * result JetStreamDelivery bus_error).
Context (handler : JetStreamDelivery -> H -> H * option bus_error).
Context (Ack Nak : JetStreamDelivery -> world -> world * bool).

Fixpoint replay_loop (remaining : nat) (processed : Z) (t : world) (h : H)
    : world * H * Z * option bus_error :=
  match remaining with
  | O => (t, h, processed, None)
  | S remaining =>
      match next t with
      | (t, Err e) => (t, h, processed, Some e)
      | (t, Ok delivery) =>
          match handler delivery h with
          | (h, Some e) => (fst (Nak delivery t), h, processed, Some e)
          | (h, None) =>
              match Ack delivery t with
              | (t, false) => (t, h, processed, Some ErrBroker)
              | (t, true) => replay_loop remaining (processed + 1) t h
              end
          end
      end
  end.

Definition ReplayPending (has_deadline : bool) (Info : world -> world * option (option ConsumerInfo))
    (t : world) (h : H) : world * H * Z * option bus_error :=
  if negb has_deadline then (t, h, 0, Some ErrJetStreamEnvelope) else
  match Info t with
  | (t, None) => (t, h, 0, Some ErrBroker)
  | (t, Some None) => (t, h, 0, Some ErrJetStreamEnvelope)
  | (t, Some (Some info)) =>
      if negb (n_Delivered info =? 0) || negb (n_AckFloor info =? 0) || negb (n_NumAckPending info =? 0)
      then (t, h, 0, Some ErrJetStreamEnvelope) else
      replay_loop (Z.to_nat (n_NumPending info)) 0 t h
  end.
End Replay.
End Bus.
End EventBus.
