(* ===== verification/Convergence.v ===== *)
(** The comparison of the three durable views of a project
    ([internal/projection/convergence.go]): the stored projections, the lifecycle
    workflow, and the events the bus has kept.

    The workflow's history is read through [Lifecycle], the bus through
    [EventBus]; a source of the stored lists, a history and a replay are their
    one method each, [None] when nil.  Error texts are constructors. *)

From S2P Require Import Prelude GoLib Json Errors Contracts EventStore Projector Reconcile Lifecycle EventBus.

Module Convergence.
Import EventStore Projector Reconcile.

Inductive convergence_error : Type :=
| ErrInputs
| ErrDurable (cause : source_error)
| ErrVerification (cause : reconcile_error)
| ErrMissingProjection
| ErrDecodeProjection
| ErrIdentity
| ErrStateIdentity
| ErrState
| ErrDigesting
| ErrHistory (cause : Lifecycle.workflow_error)
| ErrReplay (cause : EventBus.bus_error).

Record ProjectConvergenceReport : Type := mkConvergence {
  cr_TenantID : string;
  cr_ProjectID : string;
  cr_ProjectionReportSHA256 : string;
  cr_PostgreSQLVersion : Z;
  cr_PostgreSQLSHA256 : string;
  cr_PostgreSQLProjectionSHA256 : string;
  cr_WorkflowVersion : Z;
  cr_WorkflowSHA256 : string;
  cr_WorkflowProcessedEvents : Z;
  cr_WorkflowRejectedSignals : Z;
  cr_WorkflowBufferedEvents : Z;
  cr_EventBusVersion : Z;
  cr_EventBusSHA256 : string;
  cr_EventBusProjectionSHA256 : string;
  cr_EventBusReplayMessageCount : Z;
  cr_Converged : bool;
  cr_ReportSHA256 : string
}.
#[global] Instance eta_convergence : Eta ProjectConvergenceReport := fun r =>
  mkConvergence (cr_TenantID r) (cr_ProjectID r) (cr_ProjectionReportSHA256 r) (cr_PostgreSQLVersion r)
    (cr_PostgreSQLSHA256 r) (cr_PostgreSQLProjectionSHA256 r) (cr_WorkflowVersion r) (cr_WorkflowSHA256 r)
    (cr_WorkflowProcessedEvents r) (cr_WorkflowRejectedSignals r) (cr_WorkflowBufferedEvents r)
    (cr_EventBusVersion r) (cr_EventBusSHA256 r) (cr_EventBusProjectionSHA256 r)
    (cr_EventBusReplayMessageCount r) (cr_Converged r) (cr_ReportSHA256 r).

Record lifecycleConvergenceState : Type := mkState {
  lc_TenantID : string;
  lc_ProjectID : string;
  lc_State : ProjectState;
  lc_Version : Z;
  lc_PausedFrom : ProjectState
}.

(** What [encoding/json] decodes of a project's projection and of an event's
    data, and encodes of a state and a report. *)
Record lifecycle_projection : Type := mkLifecycleProjection {
  jp_TenantID : string;
  jp_ID : string;
  jp_State : ProjectState;
  jp_Version : Z;
  jp_PausedFromState : ProjectState
}.
Class Codecs : Type := {
  unmarshal_lifecycle : string -> option lifecycle_projection;
  marshal_state : lifecycleConvergenceState -> option string;
  marshal_convergence : ProjectConvergenceReport -> option string
}.

(** [ErrDurableConvergence] of a report that did not converge keeps the report. *)
Definition outcome : Type := result ProjectConvergenceReport (convergence_error + ProjectConvergenceReport).

Section Convergence.
Context (jcs_Transform : string -> option string) (sha256_Sum256 : string -> list Z).
Context (url_Scheme : string -> option string) (unmarshal_data : string -> option EventBus.event_data).
Context `{decoders : Decoders} `{encoders : Encoders} `{codecs : Codecs}.
Notation Digest := (CanonicalJson.Digest jcs_Transform sha256_Sum256).

Fixpoint projectProjection (projections : list Projection) (tenantID projectID : string) : option Projection :=
  match projections with
  | [] => None
  | projection :: projections =>
      if (p_TenantID projection ≟ tenantID) && (p_ProjectID projection ≟ projectID)
         && (p_AggregateType projection ≟ "project") && (p_AggregateID projection ≟ projectID)
      then Some (cloneProjection projection)
      else projectProjection projections tenantID projectID
  end.

Definition validateLifecycleConvergenceState (state : lifecycleConvergenceState)
    : result unit convergence_error :=
  reject ErrStateIdentity when
    (lc_TenantID state ≟ "") || (lc_ProjectID state ≟ "") || (lc_Version state <? 1) ;;
  reject ErrState when
    negb (Lifecycle.validLifecycleState (lc_State state)) || Lifecycle.paused_from_bad (lc_PausedFrom state) ;;
  Ok tt.

Definition lifecycleStateFromProjection (raw tenantID projectID : string) (version : Z)
    : result lifecycleConvergenceState convergence_error :=
  projection <-? unmarshal_lifecycle raw else ErrDecodeProjection ;;
  let state := mkState (jp_TenantID projection) (jp_ID projection) (jp_State projection)
    (jp_Version projection) (jp_PausedFromState projection) in
  reject ErrIdentity when
    (lc_TenantID state ≠? tenantID) || (lc_ProjectID state ≠? projectID)
    || negb (lc_Version state =? version) ;;
  _ <-! validateLifecycleConvergenceState state ;;
  Ok state.

Definition lifecycleStateDigest (state : lifecycleConvergenceState) : result string convergence_error :=
  payload <-? marshal_state state else ErrDigesting ;;
  digest <-? Digest payload else ErrDigesting ;;
  Ok digest.

Definition projectConvergenceDigest (report : ProjectConvergenceReport) : result string convergence_error :=
  payload <-? marshal_convergence (report ⟦ cr_ReportSHA256 := "" ⟧) else ErrDigesting ;;
  digest <-? Digest payload else ErrDigesting ;;
  Ok digest.

(** ** Events of the bus *)
Definition projectEventFromDelivery (delivery : EventBus.JetStreamDelivery) (tenantID : string)
    : result DomainEvent convergence_error :=
  let external := EventBus.dl_Event delivery in
  reject ErrIdentity when
    (EventBus.dl_TenantID delivery ≠? tenantID) || negb (HasSuffix (EventBus.dl_Subject delivery) ".project")
    || negb (is_ok (EventBus.Validate url_Scheme unmarshal_data external)) ;;
  payload <-? unmarshal_payload (CE.Data external) else ErrIdentity ;;
  reject ErrIdentity when
    (pl_TenantID payload ≠? tenantID) || (pl_ProjectID payload ≠? CE.ProjectID external)
    || (pl_AggregateVersion payload <? 1) || negb (Json.Valid (pl_Projection payload)) ;;
  _ <-! lifecycleStateFromProjection (pl_Projection payload) tenantID (pl_ProjectID payload)
          (pl_AggregateVersion payload) ;;
  payloadDigest <-? Digest (CE.Data external) else ErrDigesting ;;
  Ok (mkDomainEvent (CE.ID external) tenantID (pl_ProjectID payload) "project" (pl_ProjectID payload)
        (pl_AggregateVersion payload) (CE.Type_ external) (cloneJSON (CE.Data external)) payloadDigest
        (CE.Time external) "" "" (CE.Traceparent external) (CE.Tracestate external) (CE.TaskID external)
        (CE.TaskIDReason external) (CE.AgentRunID external) (CE.AgentRunReason external) "" "").

(** The handler of the replay: the event is applied to the projector. *)
Definition replay_handler (tenantID : string) (delivery : EventBus.JetStreamDelivery) (p : Projector)
    : Projector * option EventBus.bus_error :=
  match projectEventFromDelivery delivery tenantID with
  | Err _ => (p, Some EventBus.ErrHandler)
  | Ok event =>
      match Apply jcs_Transform sha256_Sum256 event p with
      | (p, Err _) => (p, Some EventBus.ErrHandler)
      | (p, Ok _) => (p, None)
      end
  end.

Definition bus_projector : Projector :=
  New {["project" := StateReducer jcs_Transform sha256_Sum256]}.

(** What the bus shows of the project: nothing, or a state with the digest of
    its projection. *)
Definition bus_view (p : Projector) (tenantID projectID : string)
    : result (lifecycleConvergenceState * string) convergence_error :=
  match Snapshot_of tenantID "project" projectID p with
  | None => Ok (mkState tenantID projectID ProjectStateZero 0 ProjectStateZero, "")
  | Some snapshot =>
      state <-! lifecycleStateFromProjection (s_State snapshot) tenantID projectID (s_Version snapshot) ;;
      digest <-? Digest (s_State snapshot) else ErrDigesting ;;
      Ok (state, digest)
  end.

(** ** The gate *)
Definition views_agree (report : ProjectConvergenceReport) : bool :=
  (cr_PostgreSQLVersion report =? cr_WorkflowVersion report)
  && (cr_PostgreSQLVersion report =? cr_EventBusVersion report)
  && (cr_PostgreSQLSHA256 report ≟ cr_WorkflowSHA256 report)
  && (cr_PostgreSQLSHA256 report ≟ cr_EventBusSHA256 report)
  && (cr_PostgreSQLProjectionSHA256 report ≟ cr_EventBusProjectionSHA256 report)
  && (cr_WorkflowProcessedEvents report =? wrap64 (cr_WorkflowVersion report - 1))
  && (cr_WorkflowBufferedEvents report =? 0).

(** [replay] runs the handler over the deliveries of a fresh consumer. *)
Definition History : Type := string -> string -> result Lifecycle.ProjectLifecycleSnapshot Lifecycle.workflow_error.
Definition Replay : Type :=
  (EventBus.JetStreamDelivery -> Projector -> Projector * option EventBus.bus_error) -> Projector ->
  Projector * Z * option EventBus.bus_error.

Definition converge (source : ReconciliationSource) (history : History) (replay : Replay)
    (tenantID projectID : string) : result ProjectConvergenceReport convergence_error :=
  snapshot <-! match source tenantID with Ok s => Ok s | Err e => Err (ErrDurable e) end ;;
  projectionReport <-! match verifyDurableSnapshot jcs_Transform sha256_Sum256 snapshot tenantID with
                       | Ok r => Ok r | Err e => Err (ErrVerification e) end ;;
  online <-? projectProjection snapshot.2 tenantID projectID else ErrMissingProjection ;;
  postgresState <-! lifecycleStateFromProjection (p_State online) tenantID projectID (p_Version online) ;;
  postgresDigest <-! lifecycleStateDigest postgresState ;;
  postgresProjectionDigest <-? Digest (p_State online) else ErrDigesting ;;
  workflowSnapshot <-! match history tenantID projectID with Ok s => Ok s | Err e => Err (ErrHistory e) end ;;
  let workflowState := mkState tenantID projectID (Lifecycle.sn_State workflowSnapshot)
    (Lifecycle.sn_ProjectVersion workflowSnapshot) (Lifecycle.sn_PausedFrom workflowSnapshot) in
  _ <-! validateLifecycleConvergenceState workflowState ;;
  workflowDigest <-! lifecycleStateDigest workflowState ;;
  replayed <-! match replay (replay_handler tenantID) bus_projector with
               | (_, _, Some e) => Err (ErrReplay e)
               | (p, messageCount, None) => Ok (p, messageCount)
               end ;;
  bus <-! bus_view replayed.1 tenantID projectID ;;
  busDigest <-! (if lc_Version bus.1 =? 0 then Ok "" else lifecycleStateDigest bus.1) ;;
  let report := mkConvergence tenantID projectID (rr_ReportSHA256 projectionReport)
    (lc_Version postgresState) postgresDigest postgresProjectionDigest
    (lc_Version workflowState) workflowDigest (Lifecycle.sn_ProcessedEvents workflowSnapshot)
    (Lifecycle.sn_RejectedSignals workflowSnapshot) (Lifecycle.sn_BufferedEvents workflowSnapshot)
    (lc_Version bus.1) busDigest bus.2 replayed.2 false "" in
  let report := report ⟦ cr_Converged := views_agree report ⟧ in
  digest <-! projectConvergenceDigest report ;;
  Ok (report ⟦ cr_ReportSHA256 := digest ⟧).

Definition VerifyProjectConvergence (ctx : option unit) (source : option ReconciliationSource)
    (history : option History) (replay : option Replay) (tenantID projectID : string) : outcome :=
  match ctx, source, history, replay with
  | Some _, Some source, Some history, Some replay =>
      if (tenantID ≟ "") || (projectID ≟ "") then Err (inl ErrInputs) else
      match converge source history replay tenantID projectID with
      | Err e => Err (inl e)
      | Ok report => if negb (cr_Converged report) then Err (inr report) else Ok report
      end
  | _, _, _, _ => Err (inl ErrInputs)
  end.
End Convergence.
End Convergence.
