(* ===== verification/ConvergenceProps.v ===== *)
(** What a converged report establishes: the stored projection of the project,
    its lifecycle workflow and the events the bus kept show the same version
    and the same digests. *)

From S2P Require Import Prelude GoLib Json Errors Contracts EventStore EventStoreProps Projector ProjectorProps Reconcile ReconcileProps ReconcileSound Lifecycle EventBus Convergence.

Module ConvergenceProps.
Import EventStore Projector ProjectorProps Reconcile Convergence.

Section Props.
Context (jcs_Transform : string -> option string) (sha256_Sum256 : string -> list Z).
Context (url_Scheme : string -> option string) (unmarshal_data : string -> option EventBus.event_data).
Context `{decoders : Decoders} `{encoders : Encoders} `{codecs : Codecs}.
Notation Digest := (CanonicalJson.Digest jcs_Transform sha256_Sum256).
Notation lifecycleStateDigest := (lifecycleStateDigest jcs_Transform sha256_Sum256).
Notation projectEventFromDelivery := (projectEventFromDelivery jcs_Transform sha256_Sum256 url_Scheme unmarshal_data).
Notation replay_handler := (replay_handler jcs_Transform sha256_Sum256 url_Scheme unmarshal_data).
Notation bus_projector := (bus_projector jcs_Transform sha256_Sum256).
Notation deliver := (deliver jcs_Transform sha256_Sum256).
Notation converge := (converge jcs_Transform sha256_Sum256 url_Scheme unmarshal_data).

(** ** The replay *)
Section Replay.
Context {world : Type} (next : world -> world * result EventBus.JetStreamDelivery EventBus.bus_error).
Context (Ack Nak : EventBus.JetStreamDelivery -> world -> world * bool).

(** The deliveries that [n] calls of [next] answer, each acknowledged. *)
Inductive received : nat -> world -> list EventBus.JetStreamDelivery -> world -> Prop :=
| received_none t : received 0 t [] t
| received_next n t t1 d t2 ds t3 :
    next t = (t1, Ok d) -> Ack d t1 = (t2, true) -> received n t2 ds t3 -> received (S n) t (d :: ds) t3.

(** A replay that ends without an error handled each of them in order. *)
Lemma replay_loop_complete T n c t p t' p' m :
  EventBus.replay_loop next (replay_handler T) Ack Nak n c t p = (t', p', m, None) ->
  exists ds es, received n t ds t' /\ m = c + Z.of_nat n /\
    Forall2 (fun d e => projectEventFromDelivery d T = Ok e) ds es /\ deliver es p = Ok p'.
Proof.
  revert c t p. induction n as [|n IH]; intros c t p H; cbn in H.
  { injection H as <- <- <-. exists [], []. split_and!; [constructor|lia|constructor|done]. }
  destruct (next t) as [t1 [d|e]] eqn:Hn; [|discriminate].
  destruct (replay_handler T d p) as [p1 [err|]] eqn:Hh; [discriminate|].
  destruct (Ack d t1) as [t2 []] eqn:Ha; [|discriminate].
  destruct (IH _ _ _ H) as (ds & es & Hr & -> & Hf & Hd).
  unfold Convergence.replay_handler in Hh. destruct (projectEventFromDelivery d T) as [ev|] eqn:Hev; [|discriminate].
  destruct (Projector.Apply _ _ ev p) as [p2 [out|err]] eqn:Happ; [|discriminate]. injection Hh as <-.
  exists (d :: ds), (ev :: es). split_and!; [by econstructor|lia|by constructor|]. cbn. by rewrite Happ.
Qed.

Definition fresh_consumer (info : EventBus.ConsumerInfo) : Prop :=
  EventBus.n_Delivered info = 0 /\ EventBus.n_AckFloor info = 0 /\ EventBus.n_NumAckPending info = 0.

(** [ReplayPending] of a consumer in the world [t], as the gate calls it. *)
Definition replay_of (Info : world -> world * option (option EventBus.ConsumerInfo)) (t : world) : Replay :=
  fun handler p =>
    let '(_, p, n, e) := EventBus.ReplayPending next handler Ack Nak true Info t p in (p, n, e).

Lemma replay_of_complete Info t T p p' m :
  replay_of Info t (replay_handler T) p = (p', m, None) ->
  exists info t1 t2 ds es, Info t = (t1, Some (Some info)) /\ fresh_consumer info /\
    received (Z.to_nat (EventBus.n_NumPending info)) t1 ds t2 /\
    m = Z.of_nat (length ds) /\ Forall2 (fun d e => projectEventFromDelivery d T = Ok e) ds es /\ deliver es p = Ok p'.
Proof.
  unfold replay_of, EventBus.ReplayPending. cbn [negb]. destruct (Info t) as [t1 [[info|]|]] eqn:Hi; try discriminate.
  destruct (_ || _) eqn:G; [discriminate|].
  destruct (EventBus.replay_loop _ _ _ _ _ _ _ _) as [[[t2 q] n] e] eqn:Hl. intros [= -> -> ->].
  destruct (replay_loop_complete _ _ _ _ _ _ _ _ Hl) as (ds & es & Hr & -> & Hf & Hd).
  go_bool. exists info, t1, t2, ds, es. unfold fresh_consumer. split_and!; try lia; try done.
  rewrite Z.add_0_l. f_equal. clear -Hr. induction Hr; cbn; congruence.
Qed.
End Replay.

(** ** The gate *)
Record converged_view (T P : string) (source : ReconciliationSource) (history : History) (replay : Replay)
    (online : Projection) (workflow : Lifecycle.ProjectLifecycleSnapshot) (bus : Projector) (bus_state : string)
    (m : Z) : Prop := {
  cv_source : exists events projections report, source T = Ok (events, projections) /\
    verifyDurableSnapshot jcs_Transform sha256_Sum256 (events, projections) T = Ok report /\
    online ∈ projections;
  cv_online : p_TenantID online = T /\ p_ProjectID online = P /\ p_AggregateType online = "project" /\
    p_AggregateID online = P;
  cv_workflow : history T P = Ok workflow;
  cv_replay : replay (replay_handler T) bus_projector = (bus, m, None);
  cv_bus : Snapshot_of T "project" P bus = Some (mkSnapshot (p_Version online) bus_state);
  cv_bus_digest : exists d, Digest bus_state = Some d /\ Digest (p_State online) = Some d;
  cv_version : Lifecycle.sn_ProjectVersion workflow = p_Version online;
  cv_processed : Lifecycle.sn_ProcessedEvents workflow = wrap64 (p_Version online - 1) /\
    Lifecycle.sn_BufferedEvents workflow = 0;
  cv_digests : exists stored shown d,
    lifecycleStateFromProjection (p_State online) T P (p_Version online) = Ok stored /\
    lifecycleStateFromProjection bus_state T P (p_Version online) = Ok shown /\
    lifecycleStateDigest stored = Ok d /\ lifecycleStateDigest shown = Ok d /\
    lifecycleStateDigest (mkState T P (Lifecycle.sn_State workflow) (p_Version online)
      (Lifecycle.sn_PausedFrom workflow)) = Ok d
}.

Lemma projectProjection_spec l T P p : projectProjection l T P = Some p ->
  p ∈ l /\ p_TenantID p = T /\ p_ProjectID p = P /\ p_AggregateType p = "project" /\ p_AggregateID p = P.
Proof.
  induction l as [|x l IH]; cbn; [done|]. destruct (_ && _) eqn:G.
  - intros [= <-]. assert (Hx : cloneProjection x = x).
    { destruct x. unfold cloneProjection. cbn. by rewrite EventStoreProps.cloneJSON_id. }
    rewrite Hx. go_bool. split_and!; try done. by left.
  - intros H. destruct (IH H) as (? & ?). split; [by right|done].
Qed.

Lemma state_version raw T P v st : lifecycleStateFromProjection raw T P v = Ok st -> lc_Version st = v /\ 1 <= v.
Proof.
  unfold lifecycleStateFromProjection, validateLifecycleConvergenceState. intros H. accepted H.
  destruct value. match goal with G : _ = Ok tt |- _ => accepted G end. go_bool. cbn in *. lia.
Qed.

Lemma converged_views source history replay T P report :
  VerifyProjectConvergence jcs_Transform sha256_Sum256 url_Scheme unmarshal_data
    (Some tt) (Some source) (Some history) (Some replay) T P = Ok report ->
  exists online workflow bus bus_state m, converged_view T P source history replay online workflow bus bus_state m /\
    cr_EventBusReplayMessageCount report = m.
Proof.
  unfold VerifyProjectConvergence. destruct (_ || _); [discriminate|].
  destruct (Convergence.converge _ _ _ _ _ _ _ _ _) as [rep|] eqn:H; [|discriminate].
  destruct (negb (cr_Converged rep)) eqn:Hc; [discriminate|]. intros Hrep. apply Ok_inj in Hrep as ->.
  unfold Convergence.converge in H.
  apply rbind_ok in H as ([events projections] & Hs & H). destruct (source T) as [[? ?]|] eqn:Hsrc; [|discriminate].
  apply Ok_inj in Hs. injection Hs as -> ->. cbn [snd] in H.
  apply rbind_ok in H as (rr & Hv & H).
  destruct (verifyDurableSnapshot _ _ (events, projections) T) as [rr'|] eqn:Hver; [|discriminate].
  destruct (projectProjection projections T P) as [online|] eqn:Hon; [|discriminate].
  apply rbind_ok in H as (stored & Hst & H). apply rbind_ok in H as (d & Hd & H).
  destruct (Digest (p_State online)) as [pd|] eqn:Hpd; [|discriminate].
  apply rbind_ok in H as (workflow & Hw & H). destruct (history T P) as [w|] eqn:Hh; [|discriminate].
  apply Ok_inj in Hw as <-. cbv zeta in H. apply rbind_ok in H as ([] & Hwv & H).
  apply rbind_ok in H as (wd & Hwd & H). apply rbind_ok in H as ([bus m] & Hb & H).
  destruct (replay (replay_handler T) bus_projector) as [[q n] [e|]] eqn:Hrp; [discriminate|].
  apply Ok_inj in Hb. injection Hb as -> ->. cbn [fst snd] in H.
  apply rbind_ok in H as ([bs bd] & Hbv & H). cbn [fst snd] in H. apply rbind_ok in H as (bsd & Hbsd & H).
  apply rbind_ok in H as (rd & _ & H). apply Ok_inj in H as <-.
  apply negb_false_iff in Hc. change (cr_Converged (?x ⟦ cr_ReportSHA256 := _ ⟧)) with (cr_Converged x) in Hc.
  change (cr_Converged (?x ⟦ cr_Converged := ?b ⟧)) with b in Hc. unfold views_agree in Hc. cbn in Hc. go_bool.
  destruct (state_version _ _ _ _ _ Hst) as [Hsv Hpos]. exists online, w, bus.
  unfold bus_view in Hbv. destruct (Snapshot_of T "project" P bus) as [[v st]|] eqn:Hsnap.
  2: { apply Ok_inj in Hbv. injection Hbv as <- _. cbn in *. lia. }
  apply rbind_ok in Hbv as (shown & Hshown & Hbv). cbn [s_State s_Version] in *.
  destruct (Digest st) as [sd|] eqn:Hsd; [|discriminate]. apply Ok_inj in Hbv. injection Hbv as -> ->.
  destruct (state_version _ _ _ _ _ Hshown) as [Hbv _].
  assert (v = p_Version online) as -> by lia.
  destruct (projectProjection_spec _ _ _ _ Hon) as (Hin & Hfields).
  rewrite (proj2 (Z.eqb_neq _ _)) in Hbsd by lia.
  exists st, m. split; [|done]. split; try done.
  - by exists events, projections, rr'.
  - exists pd. split; [congruence|done].
  - lia.
  - split; [|lia]. congruence.
  - exists stored, bs, d. split_and!; try done; [congruence|].
    assert (Hwver : Lifecycle.sn_ProjectVersion w = p_Version online) by lia. rewrite Hwver in Hwd. congruence.
Qed.

(** The one stored projection of the project. *)
Lemma one_projection events projections T P online report :
  verifyDurableSnapshot jcs_Transform sha256_Sum256 (events, projections) T = Ok report ->
  online ∈ projections -> p_AggregateType online = "project" -> p_AggregateID online = P ->
  forall p, p ∈ projections -> p_AggregateType p = "project" -> p_AggregateID p = P -> p = online.
Proof.
  intros H Hin Hty Hid p Hp Hpt Hpi. apply ReconcileSound.verify_inv in H as (_ & _ & _ & _ & ? & ? & _ & _ & _ & _ & H & _).
  apply ReconcileSound.online_items_inv in H as (Hnd & _).
  eapply EventStoreProps.NoDup_map_inv; [exact Hnd|done|done|].
  unfold ReconcileProps.projection_key. congruence.
Qed.

(** The newest message of the project, whose data carry the state shown. *)
Lemma bus_newest T P ds es bus v st :
  Forall2 (fun d e => projectEventFromDelivery d T = Ok e) ds es -> deliver es bus_projector = Ok bus ->
  Snapshot_of T "project" P bus = Some (mkSnapshot v st) -> consistent es ->
  exists d payload, d ∈ ds /\ unmarshal_payload (CE.Data (EventBus.dl_Event d)) = Some payload /\
    pl_TenantID payload = T /\ aggregateKey T "project" (pl_ProjectID payload) = aggregateKey T "project" P /\
    pl_AggregateVersion payload = v /\ pl_Projection payload = st.
Proof.
  intros Hf Hd Hs C. apply (delivered jcs_Transform sha256_Sum256) in Hd as B; [|exact C].
  apply (snapshot_of_built _ _ _ _ _ _ _ _ _ _ C B) in Hs. destruct Hs as [Hpos [(e & (He & _) & Hb & _)|(_ & Hre & _)]].
  { exfalso. apply list_elem_of_lookup in He as [i Hi].
    destruct (Forall2_lookup_r _ _ _ _ _ Hf Hi) as (d & _ & Hev).
    unfold Convergence.projectEventFromDelivery in Hev. accepted Hev. by vm_compute in Hb. }
  destruct Hre as [|w st0 e r st' _ He Hk Hv Hr Hred _]; [lia|].
  apply list_elem_of_lookup in He as [i Hi].
  destruct (Forall2_lookup_r _ _ _ _ _ Hf Hi) as (d & Hdi & Hev). exists d.
  unfold Convergence.projectEventFromDelivery in Hev. accepted Hev. cbn in Hr, Hred, Hk, Hv.
  rewrite lookup_singleton_eq in Hr. injection Hr as <-. unfold StateReducer in Hred. cbn in Hred.
  change (negb (len "" =? 0) || ("" ≠? "")) with false in Hred.
  rewrite EventStoreProps.cloneJSON_id in Hred.
  match goal with G : unmarshal_payload _ = Some _ |- _ => rewrite G in Hred end. cbn in Hred. accepted Hred.
  unfold key in Hk. cbn in Hk.
  rewrite !EventStoreProps.cloneJSON_id in *. go_bool.
  match goal with G : unmarshal_payload _ = Some ?p |- _ => exists p end.
  split_and!; [by eapply list_elem_of_lookup_2|congruence..].
Qed.

(** The versions a projector of the bus has replayed. *)
Lemma bus_versions T P ds es bus v st :
  Forall2 (fun d e => projectEventFromDelivery d T = Ok e) ds es -> deliver es bus_projector = Ok bus ->
  Snapshot_of T "project" P bus = Some (mkSnapshot v st) -> consistent es ->
  forall w, 1 <= w <= v -> exists e, of_key es (aggregateKey T "project" P) w e.
Proof.
  intros Hf Hd Hs C. apply (delivered jcs_Transform sha256_Sum256) in Hd as B; [|exact C].
  apply (snapshot_of_built _ _ _ _ _ _ _ _ _ _ C B) in Hs.
  destruct Hs as [_ [(e & (He & _) & Hb & _)|(_ & Hre & _)]]; [|intros w Hw].
  - exfalso. apply list_elem_of_lookup in He as [i Hi].
    destruct (Forall2_lookup_r _ _ _ _ _ Hf Hi) as (d & _ & Hev).
    unfold Convergence.projectEventFromDelivery in Hev. accepted Hev. by vm_compute in Hb.
  - destruct (replays_event _ _ _ _ _ Hre w Hw) as (e & He). by exists e.
Qed.

(** A fresh consumer read to its last pending message: what it delivered, the
    events decoded and the projector that applied them, in order. *)
Record bus_read {world} (next : world -> world * result EventBus.JetStreamDelivery EventBus.bus_error)
    (Ack : EventBus.JetStreamDelivery -> world -> world * bool)
    (Info : world -> world * option (option EventBus.ConsumerInfo)) (t : world) (T : string)
    (ds : list EventBus.JetStreamDelivery) (es : list DomainEvent) (bus : Projector) : Prop := {
  br_received : exists info t1 t2, Info t = (t1, Some (Some info)) /\ fresh_consumer info /\
    received next Ack (Z.to_nat (EventBus.n_NumPending info)) t1 ds t2;
  br_events : Forall2 (fun d e => projectEventFromDelivery d T = Ok e) ds es;
  br_applied : deliver es bus_projector = Ok bus
}.

(** The one stored projection of the project, at its newest event. *)
Record stored_project (events : list DomainEvent) (projections : list Projection) (T P : string)
    (online : Projection) : Prop := {
  sp_stored : online ∈ projections /\ p_TenantID online = T /\ p_ProjectID online = P /\
    p_AggregateType online = "project" /\ p_AggregateID online = P;
  sp_only p : p ∈ projections -> p_AggregateType p = "project" -> p_AggregateID p = P -> p = online;
  sp_newest : consistent events -> exists e x,
    ReconcileSound.newest_event events (aggregateKey T "project" P) e /\ p_Version online = e_AggregateVersion e /\
    Snapshot_Digest jcs_Transform sha256_Sum256 (mkSnapshot (p_Version online) (p_State online)) = Ok x /\
    Snapshot_Digest jcs_Transform sha256_Sum256 (mkSnapshot (e_AggregateVersion e)
      (e_ReplayState (norm jcs_Transform sha256_Sum256 e))) = Ok x
}.

(** What the messages show of the project: its state at that version, the one
    its message of that version carries, and a message of every version before. *)
Record shown_project (ds : list EventBus.JetStreamDelivery) (es : list DomainEvent) (bus : Projector) (T P : string)
    (version : Z) (bus_state : string) : Prop := {
  sw_snapshot : Snapshot_of T "project" P bus = Some (mkSnapshot version bus_state);
  sw_message : consistent es -> exists d payload, d ∈ ds /\
    unmarshal_payload (CE.Data (EventBus.dl_Event d)) = Some payload /\ pl_TenantID payload = T /\
    aggregateKey T "project" (pl_ProjectID payload) = aggregateKey T "project" P /\
    pl_AggregateVersion payload = version /\ pl_Projection payload = bus_state;
  sw_all : consistent es -> forall v, 1 <= v <= version -> exists e, of_key es (aggregateKey T "project" P) v e
}.

(** C12: The convergence gate is sound.  When it passes, the stored projection of
    the project is the only one, at the version of the newest event of the log
    and with the digest of its bound state; the lifecycle workflow is at that
    version, has processed every event after the first and holds none back; and
    the bus, read from a fresh consumer to its last pending message, delivered
    every version of the project up to it and shows, at that version, the state
    its message carries.  The stored state and the bus' have one digest, and so
    have the lifecycle states of the store, of the bus and of the workflow; where
    those digests do not collide the three are one state. *)
Theorem convergence_sound {world} (next : world -> world * result EventBus.JetStreamDelivery EventBus.bus_error)
    (Ack Nak : EventBus.JetStreamDelivery -> world -> world * bool) Info t source history T P report :
  VerifyProjectConvergence jcs_Transform sha256_Sum256 url_Scheme unmarshal_data (Some tt) (Some source)
    (Some history) (Some (replay_of next Ack Nak Info t)) T P = Ok report ->
  exists events projections online workflow ds es bus bus_state stored shown d x,
    source T = Ok (events, projections) /\ stored_project events projections T P online /\
    history T P = Ok workflow /\ Lifecycle.sn_ProjectVersion workflow = p_Version online /\
    Lifecycle.sn_ProcessedEvents workflow = wrap64 (p_Version online - 1) /\
    Lifecycle.sn_BufferedEvents workflow = 0 /\
    bus_read next Ack Info t T ds es bus /\ cr_EventBusReplayMessageCount report = Z.of_nat (length ds) /\
    shown_project ds es bus T P (p_Version online) bus_state /\
    Digest (p_State online) = Some d /\ Digest bus_state = Some d /\
    lifecycleStateFromProjection (p_State online) T P (p_Version online) = Ok stored /\
    lifecycleStateFromProjection bus_state T P (p_Version online) = Ok shown /\
    lifecycleStateDigest stored = Ok x /\ lifecycleStateDigest shown = Ok x /\
    lifecycleStateDigest (mkState T P (Lifecycle.sn_State workflow) (p_Version online)
      (Lifecycle.sn_PausedFrom workflow)) = Ok x /\
    ((forall a b x, lifecycleStateDigest a = Ok x -> lifecycleStateDigest b = Ok x -> a = b) ->
     stored = shown /\ lc_State stored = Lifecycle.sn_State workflow /\
     lc_PausedFrom stored = Lifecycle.sn_PausedFrom workflow).
Proof.
  intros H. apply converged_views in H as (online & workflow & bus & bus_state & m & V & Hm).
  destruct V as [(events & projections & rr & Hs & Hv & Hin) (HT & HP & Hty & Hid) Hw Hr Hb (d & Hd1 & Hd2) Hver
    [Hproc Hbuf] (stored & shown & x & H1 & H2 & H3 & H4 & H5)].
  apply replay_of_complete in Hr as (info & t1 & t2 & ds & es & Hi & Hfr & Hrec & Hcount & Hf & Hdel).
  exists events, projections, online, workflow, ds, es, bus, bus_state, stored, shown, d, x. split_and!; try done.
  - split; [done|by eapply one_projection|]. intros C.
    destruct (ReconcileSound.verified_stands _ _ events projections T rr C Hv) as (_ & Hall & _).
    destruct (Hall online Hin) as (e & y & Hnew & Hve & Hy & Hye). exists e, y. split_and!; try done.
    unfold ReconcileProps.projection_key in Hnew. by rewrite Hty, Hid in Hnew.
  - split; [by exists info, t1, t2|done..].
  - congruence.
  - split; [done|by eapply bus_newest|by eapply bus_versions].
  - intros Hinj. rewrite (Hinj _ _ _ H3 H5), (Hinj _ _ _ H4 H5). done.
Qed.
End Props.

(** ** Example: a project at its first version *)
Notation sample_jcs := EventStoreProps.demo_jcs.
Notation sample_sha256 := EventStoreProps.demo_sha256.
#[local] Instance sample_decoders : Decoders := {|
  unmarshal_payload _ := Some (mkPayload "tn" "P" 1 "{}"); unmarshal_version _ := Some 1; unmarshal_budget _ := None
|}.
#[local] Existing Instance ReconcileSound.sample_encoders.
#[local] Instance sample_codecs : Codecs := {|
  unmarshal_lifecycle _ := Some (mkLifecycleProjection "tn" "P" ProjectCreated 1 ProjectStateZero);
  marshal_state _ := Some "{}"; marshal_convergence _ := Some "{}"
|}.
Definition sample_scheme (_ : string) : option string := Some "https".
Definition sample_data (_ : string) : option EventBus.event_data := Some (EventBus.mkData "P" 1).
Definition sample_event : DomainEvent :=
  mkDomainEvent "e1" "tn" "P" "project" "P" 1 "io.aor.project.created.v1" "{}" EventStoreProps.demo_digest 5
    "" "" "" "" "" "" "" "" "{}" EventStoreProps.demo_digest.
Definition sample_source : ReconciliationSource := fun _ =>
  Ok ([sample_event], [mkProjection "tn" "P" "project" "P" 1 "{}"]).
Definition sample_history : History := fun _ _ =>
  Ok (Lifecycle.mkSnapshot "tn" "P" ProjectCreated 1 ProjectStateZero 0 0 0).
Definition sample_delivery : EventBus.JetStreamDelivery :=
  EventBus.mkDelivery (CE.mk "1.0" "e1" "urn:aor" "io.aor.project.created.v1" "projects/P" 5 "application/json"
    "https://schemas.aor.local/events/project-created.v1.schema.json"
    "00-00000000000000000000000000000001-0000000000000001-01" "" "P" "" "NOT_CREATED" "" "NOT_CREATED" "{}")
    "tn" "aor.events.tn.project" 1.
Notation sample_replay := (replay_of (fun t : unit => (t, Ok sample_delivery)) (fun _ t => (t, true))
  (fun _ t => (t, true)) (fun t => (t, Some (Some (EventBus.mkInfo 0 0 0 1)))) tt).
Notation sample_verdict := (VerifyProjectConvergence sample_jcs sample_sha256 sample_scheme sample_data
  (Some tt) (Some sample_source) (Some sample_history) (Some sample_replay) "tn" "P").

(** The bus shows the project at version 1, as the store and the workflow do. *)
Lemma convergence_sound_witness : exists report, sample_verdict = Ok report /\
  exists events projections online workflow ds es bus bus_state, sample_source "tn" = Ok (events, projections) /\
    stored_project sample_jcs sample_sha256 events projections "tn" "P" online /\
    sample_history "tn" "P" = Ok workflow /\ Lifecycle.sn_ProjectVersion workflow = p_Version online /\
    length ds = 1%nat /\ shown_project ds es bus "tn" "P" (p_Version online) bus_state /\
    CanonicalJson.Digest sample_jcs sample_sha256 bus_state =
      CanonicalJson.Digest sample_jcs sample_sha256 (p_State online).
Proof.
  assert (Hok : match sample_verdict with Ok r => cr_EventBusReplayMessageCount r =? 1 | Err _ => false end = true)
    by (vm_compute; reflexivity).
  destruct sample_verdict as [report|] eqn:H; [|discriminate Hok]. exists report. split; [reflexivity|].
  destruct (convergence_sound sample_jcs sample_sha256 sample_scheme sample_data (fun t : unit => (t, Ok sample_delivery))
    (fun _ t => (t, true)) (fun _ t => (t, true)) (fun t => (t, Some (Some (EventBus.mkInfo 0 0 0 1)))) tt
    sample_source sample_history "tn" "P" report H)
    as (events & projections & online & workflow & ds & es & bus & bus_state & stored & shown & d & x &
        Hs & Hst & Hw & Hv & _ & _ & _ & Hn & Hsw & Hd & Hd' & _).
  exists events, projections, online, workflow, ds, es, bus, bus_state.
  split; [exact Hs|]. split; [exact Hst|]. split; [exact Hw|]. split; [exact Hv|].
  split; [apply Z.eqb_eq in Hok; lia|]. split; [exact Hsw|]. rewrite Hd, Hd'. reflexivity.
Defined.
End ConvergenceProps.
