(* ===== verification/Specs.v ===== *)
(** The immutable documents of package [contracts] ([pkg/contracts/types.go],
    [pkg/contracts/audit_results.go]): goal, plan and module specifications,
    submission manifests and evidence bundles, with their validators.

    Go's enumerated strings are strings here.  A slice whose nil-ness the code
    tests is an [option].  [strings_ToLower] is the full Unicode mapping, read
    where two lower-cased values are compared with each other; comparisons with
    ASCII literals use [GoLib.ToLower].  [url_Parse] is [net/url.Parse], as
    much of its result as the code reads. *)

From Stdlib Require Import SpecFloat.
From S2P Require Import Prelude GoLib Trace Path Contracts Dag.

Module Specs.

(** ** Enumerated strings *)
Definition PlatformLinux : string := "LINUX".
Definition PlatformWindows : string := "WINDOWS".
Definition ToolchainInstalled : string := "INSTALLED".
Definition ToolchainInstallRequired : string := "INSTALL_REQUIRED".
Definition ToolchainInstallManual : string := "MANUAL".
Definition ToolchainInstallUserArchive : string := "USER_ARCHIVE".
Definition ToolchainInstallCrosstoolNGArchive : string := "CROSSTOOL_NG_ARCHIVE".
Definition ToolchainCompiler : string := "COMPILER".
Definition toolchain_kinds : list string :=
  [ToolchainCompiler; "RUNTIME"; "SDK"; "BUILD"; "INTEROP"; "TEST"].
Definition IsolationContainer : string := "CONTAINER".
Definition IsolationNone : string := "NONE".
Definition NetworkUnrestricted : string := "UNRESTRICTED".
Definition WorkloadTrusted : string := "TRUSTED".
Definition WorkloadUntrusted : string := "UNTRUSTED".

(** ** Documents *)
Record AgentIdentity : Type := mkAgentIdentity {
  AgentInstanceID : string;
  Role : string;
  Provider : string;
  Model : string;
  LeaseID : string
}.

Record ApprovalActor : Type := mkApprovalActor {
  ActorID : string;
  ApprovedAt : string
}.

Record Signature : Type := mkSignature {
  SigType : string;
  KID : string;
  JWS : string
}.

Record Outcome : Type := mkOutcome { OutcomeID : string; OutcomeStatement : string }.
Record Scope : Type := mkScope { Included : list string; Excluded : list string }.
Record NonFunctionalRequirements : Type := mkNonFunctional {
  Security : list string;
  Privacy : list string;
  Performance : list string;
  Reliability : list string;
  Operability : list string
}.
Record AcceptanceCriterion : Type := mkAcceptanceCriterion {
  CriterionID : string;
  CriterionStatement : string;
  EvidenceType : string
}.
Record Assumption : Type := mkAssumption {
  AssumptionID : string;
  AssumptionStatement : string;
  AssumptionStatus : string
}.
Record LanguageRequirement : Type := mkLanguage {
  LanguageName : string;
  LanguageVersion : string
}.

Record ToolchainInstall : Type := mkInstall {
  Method : string;
  Authorized : bool;
  EvidenceRef : string;
  ArtifactID : string;
  ArtifactRef : string;
  DownloadURL : string;
  SourceSHA256 : string
}.

Record VersionedTool : Type := mkTool {
  InventoryID : string;
  Kind : string;
  ToolName : string;
  ToolVersion : string;
  Platform : string;
  ToolArchitecture : string;
  Source : string;
  Install : option ToolchainInstall
}.
#[export] Instance eta_tool : Eta VersionedTool := fun t =>
  mkTool (InventoryID t) (Kind t) (ToolName t) (ToolVersion t) (Platform t)
    (ToolArchitecture t) (Source t) (Install t).

Record GoalToolchain : Type := mkGoalToolchain {
  Languages : list LanguageRequirement;
  Tools : list VersionedTool
}.
#[export] Instance eta_toolchain : Eta GoalToolchain := fun g =>
  mkGoalToolchain (Languages g) (Tools g).

Module GC.
(** [GoalContent]; its fields are qualified by [GC]. *)
Record GoalContent : Type := mk {
  GoalSpecVersion : Z;
  ProjectID : string;
  Version : Z;
  Title : string;
  Summary : string;
  ProblemStatement : string;
  BusinessOutcomes : list Outcome;
  Scope_ : Scope;
  UserPersonas : list string;
  FunctionalRequirements : list string;
  NonFunctional : NonFunctionalRequirements;
  Constraints : list string;
  Assumptions : list Assumption;
  Decisions : list string;
  UnresolvedItems : list string;
  AcceptanceCriteria : list AcceptanceCriterion;
  RiskTolerance : string;
  HumanApprovalPoints : list string;
  DataClassification : string;
  DeploymentTargets : list string;
  SourceReferences : list string;
  Toolchain : option GoalToolchain;
  CreatedAt : string;
  CreatedBy : AgentIdentity
}.
#[global] Instance eta_content : Eta GoalContent := fun c =>
  mk (GoalSpecVersion c) (ProjectID c) (Version c) (Title c) (Summary c) (ProblemStatement c)
    (BusinessOutcomes c) (Scope_ c) (UserPersonas c) (FunctionalRequirements c)
    (NonFunctional c) (Constraints c) (Assumptions c) (Decisions c) (UnresolvedItems c)
    (AcceptanceCriteria c) (RiskTolerance c) (HumanApprovalPoints c) (DataClassification c)
    (DeploymentTargets c) (SourceReferences c) (Toolchain c) (CreatedAt c) (CreatedBy c).
End GC.
Abbreviation GoalContent := GC.GoalContent.

Module GS.
(** [GoalSpec]; its fields are qualified by [GS]. *)
Record GoalSpec : Type := mk {
  Content : GoalContent;
  Status : GoalStatus;
  ApprovedBy : option ApprovalActor;
  ContentSHA256 : string;
  Signature_ : option Signature
}.
#[global] Instance eta_goalspec : Eta GoalSpec := fun g =>
  mk (Content g) (Status g) (ApprovedBy g) (ContentSHA256 g) (Signature_ g).
End GS.
Abbreviation GoalSpec := GS.GoalSpec.

Record Architecture : Type := mkArchitecture {
  Style : string;
  Components : list string;
  DataFlows : list string;
  TrustBoundaries : list string;
  DeploymentUnits : list string
}.

Module PM.
(** [PlanModule]; its fields are qualified by [PM]. *)
Record PlanModule : Type := mk {
  ModuleID : string;
  Name : string;
  Responsibility : string;
  ExecutionPlatform : string;
  SandboxLevel : string;
  OwnedPaths : list string;
  ForbiddenPaths : list string;
  PublicInterfaces : list string;
  Dependencies : list string;
  AcceptanceCriteria : list string;
  ToolchainIDs : option (list string);
  VerificationEntrypoint : string;
  Risk : string
}.
End PM.
Abbreviation PlanModule := PM.PlanModule.

Module PS.
(** [PlanSpec]; its fields are qualified by [PS]. *)
Record PlanSpec : Type := mk {
  PlanSpecVersion : Z;
  ProjectID : string;
  GoalSpecRef : SpecRef;
  Architecture_ : Architecture;
  QualityAttributes : list string;
  Modules : list PlanModule;
  IntegrationPlan : list string;
  ReleasePlan : list string;
  TestStrategy : list string;
  RollbackStrategy : list string;
  OpenDecisions : list string;
  SHA256 : string
}.
End PS.
Abbreviation PlanSpec := PS.PlanSpec.

Record Budget : Type := mkBudget {
  MaxInputTokens : Z;
  MaxOutputTokens : Z;
  MaxCost : string;
  Currency : string
}.
Record NetworkPolicy : Type := mkNetworkPolicy {
  Mode : string;
  Destinations : list string
}.
Record WorkloadProfile : Type := mkWorkload {
  Trust : string;
  HostileMultiTenant : bool;
  RequiresNetworkIsolation : bool;
  RequiresHiddenTestConfidentiality : bool
}.

Module MS.
(** [ModuleSpec]; its fields are qualified by [MS]. *)
Record ModuleSpec : Type := mk {
  ModuleSpecVersion : Z;
  ModuleID : string;
  ProjectID : string;
  PlanVersion : Z;
  Name : string;
  Purpose : string;
  Responsibilities : list string;
  NonResponsibilities : list string;
  Inputs : list string;
  Outputs : list string;
  Interfaces : list string;
  DataOwnership : list string;
  Dependencies : list string;
  AllowedPaths : list string;
  ForbiddenPaths : list string;
  ExecutionPlatform : string;
  SandboxLevel : string;
  NetworkPolicy_ : NetworkPolicy;
  WorkloadProfile_ : WorkloadProfile;
  ToolCapabilities : list string;
  ToolchainIDs : option (list string);
  Toolchains : option (list VersionedTool);
  VerificationEntrypoint : string;
  KnowledgeRefs : list string;
  AcceptanceCriteria : list string;
  TestRequirements : list string;
  ObservabilityRequirements : list string;
  SecurityRequirements : list string;
  Budget_ : Budget;
  SHA256 : string
}.
End MS.
Abbreviation ModuleSpec := MS.ModuleSpec.

Module SM.
(** [SubmissionManifest]; its fields are qualified by [SM]. *)
Record SubmissionManifest : Type := mk {
  SubmissionVersion : Z;
  ProjectID : string;
  ModuleTaskID : string;
  AttemptSeriesID : string;
  Attempt : Z;
  ModuleSpecRef : SpecRef;
  BaseCommit : string;
  HeadCommit : string;
  ChangedFiles : list string;
  DeletedFiles : list string;
  CreatedFiles : list string;
  ClaimedCriteria : list string;
  LocalTestEvidenceRefs : list string;
  AgentIdentity_ : AgentIdentity;
  CreatedAt : string;
  SHA256 : string;
  Signature_ : option Signature
}.
End SM.
Abbreviation SubmissionManifest := SM.SubmissionManifest.

Record CheckTool : Type := mkCheckTool {
  CheckToolName : string;
  CheckToolVersion : string;
  CheckToolDigest : string
}.
Record EvidenceCheck : Type := mkCheck {
  CheckID : string;
  Ordinal : Z;
  CheckType : string;
  CheckStatus : string;
  Tool : CheckTool;
  StartedAt : string;
  CompletedAt : string;
  StdoutURI : string;
  StderrURI : string;
  ResultURI : string;
  ResultSHA256 : string
}.

Module AF.
(** [AuditFinding]; its fields are qualified by [AF]. *)
Record AuditFinding : Type := mk {
  FindingID : string;
  StableFingerprint : string;
  Severity : string;
  Category : string;
  RuleID : string;
  File : string;
  LineStart : Z;
  LineEnd : Z;
  Status : string;
  SemanticLocation : string;
  EvidencePattern : string;
  EvidenceRefs : option (list string);
  ExpectedBehavior : string;
  ObservedBehavior : string;
  RemediationConstraint : string
}.
#[global] Instance eta_finding : Eta AuditFinding := fun f =>
  mk (FindingID f) (StableFingerprint f) (Severity f) (Category f) (RuleID f) (File f)
    (LineStart f) (LineEnd f) (Status f) (SemanticLocation f) (EvidencePattern f)
    (EvidenceRefs f) (ExpectedBehavior f) (ObservedBehavior f) (RemediationConstraint f).
End AF.
Abbreviation AuditFinding := AF.AuditFinding.

Record CriterionResult : Type := mkCriterionResult {
  ResultCriterionID : string;
  ResultStatus : string;
  ResultEvidenceRefs : option (list string)
}.

Record LLMAudit : Type := mkLLMAudit {
  AuditorRunID : string;
  ModelIdentity : string;
  PromptDigest : string;
  ContextManifestDigest : string;
  Verdict : string
}.

Module EB.
(** [EvidenceBundle]; its fields are qualified by [EB]. *)
Record EvidenceBundle : Type := mk {
  EvidenceBundleVersion : Z;
  ProjectID : string;
  TaskID : string;
  AttemptSeriesID : string;
  Attempt : Z;
  SpecVersion : Z;
  BaseCommit : string;
  SubmissionCommit : string;
  PipelineVersion : string;
  PolicyBundleDigest : string;
  ExecutionPlatform : string;
  IsolationLevel : string;
  SandboxAttestation : string;
  Checks : list EvidenceCheck;
  Findings : option (list AuditFinding);
  CriteriaResults : option (list CriterionResult);
  ResidualRisks : option (list string);
  Confidence : spec_float;
  Artifacts : option (list string);
  LLMAudit_ : LLMAudit;
  ManifestSHA256 : string;
  Signature_ : option Signature
}.
End EB.
Abbreviation EvidenceBundle := EB.EvidenceBundle.

Record CompletionEvidence : Type := mkCompletionEvidence {
  SubmissionImmutable : bool;
  AuditPassed : bool;
  MergeQueued : bool;
  NoBlockingFindings : bool;
  RequiredEvidence : bool
}.

(** [CompletionEvidence.Done]. *)
Definition Done (e : CompletionEvidence) (state : ModuleTaskState) : bool :=
  (state ≟ TaskIntegrated) && SubmissionImmutable e && AuditPassed e && MergeQueued e
  && NoBlockingFindings e && RequiredEvidence e.

(** ** Strings *)

(** [commitPattern]: [^[0-9a-f]{40}$]. *)
Definition commitPattern (value : string) : bool :=
  Nat.eqb (String.length value) 40 && forallb lower_hex (bytes value).

Definition decimal (l : list ascii) : bool :=
  negb (l ≟ []) && forallb (byte_in 48 57) l.
(** [pipelineVersionPattern]: [^[0-9]+\.[0-9]+\.[0-9]+$]. *)
Definition pipelineVersionPattern (value : string) : bool :=
  match Trace.split_on 46 (bytes value) with
  | [a; b; c] => decimal a && decimal b && decimal c
  | _ => false
  end.

(** [strings.ReplaceAll(value, "\\", "/")]. *)
Definition to_slash (value : string) : string :=
  of_bytes (map (fun c => if byte_is 92 c then "/"%char else c) (bytes value)).

(** [strings.NewReplacer] of the given one-byte strings by a space. *)
Definition blank_bytes (chars : list Z) (l : list ascii) : list ascii :=
  map (fun c => if existsb (fun v => byte_is v c) chars then " "%char else c) l.

(** [strings.Fields]; [cur] is the field being read. *)
Definition flush (cur : list ascii) : list (list ascii) :=
  match cur with [] => [] | _ => [cur] end.
Fixpoint fields_from (cur l : list ascii) : list (list ascii) :=
  match l with
  | [] => flush cur
  | a :: l1 =>
      if space1 a then flush cur ++ fields_from [] l1 else
      match l1 with
      | [] => flush (cur ++ [a])
      | b :: l2 =>
          if space2 a b then flush cur ++ fields_from [] l2 else
          match l2 with
          | [] => fields_from (cur ++ [a]) l1
          | c :: l3 =>
              if space3 a b c then flush cur ++ fields_from [] l3
              else fields_from (cur ++ [a]) l1
          end
      end
  end.
Definition Fields (l : list ascii) : list (list ascii) := fields_from [] l.

Fixpoint join_space (l : list (list ascii)) : list ascii :=
  match l with
  | [] => []
  | [e] => e
  | e :: rest => e ++ " "%char :: join_space rest
  end.

Definition one_of (value : string) (literals : list string) : bool :=
  existsb (fun literal => value ≟ literal) literals.

(** ** [time.Parse(time.RFC3339, s)]

    As package [time] does it: the hour may have one digit, a fraction may
    follow the seconds after a period or a comma, and an offset of 24 hours or
    60 minutes is allowed. *)
Definition two_digits (lo hi : Z) (l : list ascii) : option (Z * list ascii) :=
  match l with
  | a :: b :: rest =>
      x ← Path.digit a; y ← Path.digit b;
      let v := x * 10 + y in
      if (lo <=? v) && (v <=? hi) then Some (v, rest) else None
  | _ => None
  end.
(** [getnum(value, false)]. *)
Definition hour_digits (l : list ascii) : option (Z * list ascii) :=
  match l with
  | a :: rest =>
      x ← Path.digit a;
      match rest with
      | b :: rest' =>
          match Path.digit b with
          | Some y => if x * 10 + y <? 24 then Some (x * 10 + y, rest') else None
          | None => Some (x, rest)
          end
      | [] => Some (x, rest)
      end
  | [] => None
  end.
Definition expect (v : Z) (l : list ascii) : option (list ascii) :=
  match l with c :: rest => if byte_is v c then Some rest else None | [] => None end.

Fixpoint take_digits (l : list ascii) : list ascii * list ascii :=
  match l with
  | c :: rest =>
      if byte_in 48 57 c then let '(d, r) := take_digits rest in (c :: d, r) else ([], l)
  | [] => ([], [])
  end.
(** The optional fraction of a second, in nanoseconds: its first nine digits. *)
Definition opt_fraction (l : list ascii) : Z * list ascii :=
  match l with
  | c :: rest =>
      if byte_is 46 c || byte_is 44 c then
        match take_digits rest with
        | ([], _) => (0, l)
        | (ds, r) =>
            let ds := take 9 ds in
            (default 0 (Path.digits 0 ds) * 10 ^ Z.of_nat (9 - length ds), r)
        end
      else (0, l)
  | [] => (0, l)
  end.
(** [Z07:00]: the offset in seconds. *)
Definition zone_offset (l : list ascii) : option Z :=
  match l with
  | [c] => if byte_is 90 c then Some 0 else None
  | sign :: rest =>
      '(h, rest) ← two_digits 0 24 rest;
      rest ← expect 58 rest;
      '(m, rest) ← two_digits 0 60 rest;
      match rest with
      | [] => if byte_is 43 sign then Some ((h * 60 + m) * 60)
              else if byte_is 45 sign then Some (- ((h * 60 + m) * 60)) else None
      | _ => None
      end
  | [] => None
  end.
Definition Parse_RFC3339 (s : string) : option time :=
  let l := bytes s in
  y ← Path.field 0 4 l;
  rest ← expect 45 (drop 4 l);
  '(mo, rest) ← two_digits 1 12 rest;
  rest ← expect 45 rest;
  '(d, rest) ← two_digits 0 99 rest;
  rest ← expect 84 rest;
  '(h, rest) ← hour_digits rest;
  rest ← expect 58 rest;
  '(mi, rest) ← two_digits 0 59 rest;
  rest ← expect 58 rest;
  '(sec, rest) ← two_digits 0 59 rest;
  let '(f, rest) := opt_fraction rest in
  off ← zone_offset rest;
  if (1 <=? d) && (d <=? Path.days_in y mo) then
    Some ((((Path.days_before_year y + Path.days_before_month y (Z.to_nat mo) + (d - 1)) * 24
             + h) * 60 + mi) * 60 * Second + sec * Second + f - off * Second)
  else None.

Example parse_rfc3339_ex :
  Parse_RFC3339 "2024-02-29T23:59:59.5+01:00" = Parse_RFC3339 "2024-02-29T22:59:59,500Z"
  /\ Parse_RFC3339 "2024-01-01T5:00:00Z" = Parse_RFC3339 "2024-01-01T05:00:00Z"
  /\ Parse_RFC3339 "1970-01-01T00:00:00Z" = Some (62135596800 * Second)
  /\ Parse_RFC3339 "2023-02-29T00:00:00Z" = None /\ Parse_RFC3339 "2024-01-01 05:00:00Z" = None.
Proof. vm_compute. auto 10. Qed.

(** ** Validators: [Ok tt] is a nil error *)
Definition ensure (e : option string) : result unit string :=
  match e with Some m => Err m | None => Ok tt end.
(** [fmt.Errorf("prefix: %w", err)]. *)
Definition wrap (prefix : string) (r : result unit string) : result unit string :=
  match r with Err m => Err (prefix +:+ ": " +:+ m) | Ok _ => Ok tt end.

Definition validateCommit (value : string) : option string :=
  if negb (commitPattern value) then Some "commit must be 40 lowercase hexadecimal characters"
  else None.
Definition digest_ok (value : string) : bool := is_nil (validateDigest value).

Definition validPlatformIsolation (platform isolation : string) : bool :=
  (platform ≟ PlatformLinux) && (isolation ≟ IsolationContainer)
  || (platform ≟ PlatformWindows) && (isolation ≟ IsolationNone).

(** What [validVerificationEntrypoint] and [normalizeAuditPath] ask of a path
    written with slashes: clean, relative, inside the tree, not under [.git]. *)
Definition inside_tree (normalized : string) : bool :=
  let clean := Path.Clean normalized in
  (clean ≟ normalized) && (clean ≠? ".") && negb (HasPrefix clean "/") && (clean ≠? "..")
  && negb (HasPrefix clean "../") && (clean ≠? ".git") && negb (HasPrefix clean ".git/").

Definition validVerificationEntrypoint (value : string) : bool :=
  if (value ≟ "") || has_control value || Path.ContainsAny value [42; 63; 91] then false
  else inside_tree (to_slash value).

Definition validVerificationEntrypointForPlatform (platform value : string) : bool :=
  if negb (validVerificationEntrypoint value) then false else
  if platform ≟ PlatformLinux then HasSuffix (ToLower value) ".sh"
  else if platform ≟ PlatformWindows then HasSuffix (ToLower value) ".ps1"
  else false.

Definition validExactToolchainValue (value : string) (maximum : Z) : bool :=
  (value ≠? "") && (len value <=? maximum) && (TrimSpace value ≟ value)
  && negb (Path.ContainsAny value [13; 10; 0; 42; 63]).

Definition floating_versions : list string :=
  ["latest"; "stable"; "current"; "default"; "nightly"; "next"; "head"; "main"; "master"; "dev";
   "snapshot"; "preview"].

Definition validExactToolchainVersion (value : string) (maximum : Z) : bool :=
  if negb (validExactToolchainValue value maximum)
     || Path.ContainsAny value [60; 62; 94; 126; 124; 44] || Path.Contains value " - "
  then false else
  if one_of (ToLower value) floating_versions then false
  else forallb (fun segment => negb (segment ≟ ["x"%char]))
         (Fields (blank_bytes [46; 45; 95; 43] (bytes (ToLower value)))).

Fixpoint toolchain_ids_from (seen : gset string) (ids : list string) : bool :=
  match ids with
  | [] => true
  | id :: ids =>
      if negb (validExactToolchainValue id 128) || Path.ContainsAny id [47; 92] then false else
      if bool_decide (id ∈ seen) then false else toolchain_ids_from ({[id]} ∪ seen) ids
  end.
Definition validToolchainIDs (ids : list string) : bool :=
  if Nat.eqb (length ids) 0 then false else toolchain_ids_from ∅ ids.

(** The first of the two suffixes the path has, removed. *)
Definition trim_wildcard (normalized : string) : string :=
  let cut suffix := of_bytes (take (String.length normalized - String.length suffix) (bytes normalized)) in
  if HasSuffix normalized "/..." then cut "/..."
  else if HasSuffix normalized "/**" then cut "/**" else normalized.
Definition ownedPathCoversEntrypoint (owned entrypoint : string) : bool :=
  let normalized := Path.Clean (trim_wildcard (to_slash owned)) in
  (entrypoint ≟ normalized) || HasPrefix entrypoint (normalized +:+ "/").
Definition entrypointOwned (entrypoint : string) (owned : list string) : bool :=
  existsb (fun candidate => ownedPathCoversEntrypoint candidate entrypoint) owned.

(** ** Toolchains *)
Definition artifact_prefix : string := "artifact://sha256/".
Definition validToolchainEvidenceRef (value : string) : bool :=
  HasPrefix value artifact_prefix && Nat.eqb (String.length value) (18 + 64)
  && digest_ok ("sha256:" +:+ slice_from 18 value).

Definition alphanumeric (c : ascii) : bool :=
  byte_in 97 122 c || byte_in 65 90 c || byte_in 48 57 c.
(** The loop ranges over runes; every byte of a non-ASCII rune is refused. *)
Definition validToolchainArtifactID (value : string) : bool :=
  if (len value <? 1) || (128 <? len value) then false else
  match bytes value with
  | [] => true
  | first :: rest =>
      alphanumeric first
      && forallb (fun c => alphanumeric c || byte_is 46 c || byte_is 95 c || byte_is 58 c || byte_is 45 c) rest
  end.

Definition normalizeGCCToolName (name : string) : string :=
  of_bytes (join_space (Fields
    (blank_bytes [40; 41; 91; 93; 123; 125; 47; 92; 45; 95; 58; 44] (bytes (ToLower (TrimSpace name)))))).

Definition gcc_names : list string :=
  ["gcc"; "g++"; "gnu gcc"; "gnu g++"; "gnu c++"; "gcc compiler"; "g++ compiler";
   "gnu gcc compiler"; "gnu g++ compiler"; "gnu c++ compiler"; "gnu c compiler";
   "gnu compiler collection"; "gnu compiler collection gcc"; "gnu compiler collection g++";
   "gnu compiler collection c compiler"; "gnu compiler collection c++ compiler";
   "gnu compiler collection c compiler gcc"; "gnu compiler collection c++ compiler g++"].
Definition IsGCCTool (tool : VersionedTool) : bool :=
  if Kind tool ≠? ToolchainCompiler then false
  else one_of (normalizeGCCToolName (ToolName tool)) gcc_names.

(** The artifact is named by the digest of the uploaded source. *)
Definition artifact_matches (install : ToolchainInstall) : bool :=
  ArtifactRef install ≟ artifact_prefix +:+ TrimPrefix (SourceSHA256 install) "sha256:".

(** [*url.URL], the fields read; [User] tells whether it is non-nil. *)
Record URL : Type := mkURL {
  Scheme : string;
  Host : string;
  User : bool;
  Fragment : string
}.

(** [VersionedTool.ReadyToProvision]. *)
Definition ReadyToProvision (tool : VersionedTool) : bool :=
  match Install tool with
  | None => false
  | Some install =>
      if (Source tool ≠? ToolchainInstallRequired) || negb (Authorized install)
         || negb (digest_ok (SourceSHA256 install)) then false else
      if Method install ≟ ToolchainInstallUserArchive then
        (DownloadURL install ≠? "") && negb (IsGCCTool tool)
      else if Method install ≟ ToolchainInstallCrosstoolNGArchive then
        IsGCCTool tool && validToolchainArtifactID (ArtifactID install)
        && validToolchainEvidenceRef (ArtifactRef install) && artifact_matches install
      else false
  end.
Definition NeedsInstallationInput (tool : VersionedTool) : bool :=
  (Source tool ≟ ToolchainInstallRequired) && negb (ReadyToProvision tool).

(** The methods of [GoalToolchain]. *)
Definition RequiresInstallation (selection : GoalToolchain) : bool :=
  existsb (fun tool => Source tool ≟ ToolchainInstallRequired) (Tools selection).
Fixpoint ready_from (ready : bool) (tools : list VersionedTool) : bool :=
  match tools with
  | [] => ready
  | tool :: tools =>
      if Source tool ≠? ToolchainInstallRequired then ready_from ready tools
      else if negb (ReadyToProvision tool) then false else ready_from true tools
  end.
Definition Selection_ReadyToProvision (selection : GoalToolchain) : bool :=
  ready_from false (Tools selection).
Definition Selection_NeedsInstallationInput (selection : GoalToolchain) : bool :=
  existsb NeedsInstallationInput (Tools selection).

Section Validators.
Context (strings_ToLower : string -> string) (url_Parse : string -> option URL).

Definition manual_install_ok (tool : VersionedTool) (install : ToolchainInstall) : bool :=
  negb ((DownloadURL install ≠? "") || (SourceSHA256 install ≠? "") || (ArtifactID install ≠? "")
        || (ArtifactRef install ≠? "") || negb (IsGCCTool tool) || Authorized install
        || (EvidenceRef install ≠? "")).

Definition https_source (value : string) : bool :=
  match url_Parse value with
  | None => false
  | Some parsed => (Scheme parsed ≟ "https") && (Host parsed ≠? "") && negb (User parsed)
                   && (Fragment parsed ≟ "")
  end.

Definition user_archive (tool : VersionedTool) (install : ToolchainInstall) : result unit string :=
  reject "user archive installation is restricted to non-GCC HTTPS releases" when
    IsGCCTool tool || (ArtifactID install ≠? "") || (ArtifactRef install ≠? "") ;;
  if DownloadURL install ≟ "" then
    reject "authorized user archive installation requires an HTTPS download URL and SHA-256 digest"
      when Authorized install ;;
    reject "unauthorized user archive installation cannot claim a SHA-256 digest"
      when SourceSHA256 install ≠? "" ;;
    Ok tt
  else
    reject "user archive installation requires an HTTPS download URL" when
      negb (https_source (DownloadURL install)) || negb (Authorized install) ;;
    reject "authorized user archive installation requires a lowercase SHA-256 digest" when
      negb (digest_ok (SourceSHA256 install)) ;;
    Ok tt.

Definition crosstool_archive (tool : VersionedTool) (install : ToolchainInstall)
    : result unit string :=
  reject "crosstool-ng archive installation is restricted to uploaded GCC toolchains" when
    negb (IsGCCTool tool) || (DownloadURL install ≠? "") ;;
  if negb (Authorized install) then
    reject "unauthorized crosstool-ng archive installation cannot claim an uploaded artifact" when
      (ArtifactID install ≠? "") || (ArtifactRef install ≠? "") || (SourceSHA256 install ≠? "") ;;
    Ok tt
  else
    reject "authorized crosstool-ng archive installation requires a matching uploaded artifact and SHA-256 digest" when
      negb (validToolchainArtifactID (ArtifactID install))
      || negb (validToolchainEvidenceRef (ArtifactRef install))
      || negb (digest_ok (SourceSHA256 install)) || negb (artifact_matches install) ;;
    Ok tt.

Definition validateToolchainInstall (tool : VersionedTool) : result unit string :=
  install <-? Install tool else "toolchain installation descriptor is required" ;;
  if Method install ≟ ToolchainInstallManual then
    reject "manual installation is restricted to GCC without runtime authorization" when
      negb (manual_install_ok tool install) ;;
    Ok tt
  else
    reject "authorized toolchain installation requires immutable user evidence" when
      Authorized install && negb (validToolchainEvidenceRef (EvidenceRef install)) ;;
    reject "unauthorized toolchain installation cannot claim evidence" when
      negb (Authorized install) && (EvidenceRef install ≠? "") ;;
    if Method install ≟ ToolchainInstallUserArchive then user_archive tool install
    else if Method install ≟ ToolchainInstallCrosstoolNGArchive then crosstool_archive tool install
    else Err "toolchain installation method is invalid".

Definition validateVersionedTool (tool : VersionedTool) : result unit string :=
  reject "goal toolchain metadata must be exact" when
    negb (validExactToolchainValue (ToolName tool) 128)
    || negb (validExactToolchainVersion (ToolVersion tool) 256)
    || negb (validExactToolchainValue (ToolArchitecture tool) 128)
    || (Platform tool ≠? PlatformLinux) && (Platform tool ≠? PlatformWindows) ;;
  reject "goal toolchain kind is invalid" when negb (one_of (Kind tool) toolchain_kinds) ;;
  if Source tool ≟ ToolchainInstalled then
    reject "installed toolchain requires an inventory ID" when
      negb (validExactToolchainValue (InventoryID tool) 128) || negb (is_nil (Install tool)) ;;
    Ok tt
  else if Source tool ≟ ToolchainInstallRequired then
    reject "uninstalled toolchain cannot claim an inventory ID" when
      (InventoryID tool ≠? "") || negb (is_ok (validateToolchainInstall tool)) ;;
    Ok tt
  else Err "goal toolchain source is invalid".

(** The loop over [tools] of [validPinnedToolchains]: the inventory IDs. *)
Fixpoint pinned_ids (byID : gset string) (tools : list VersionedTool) : option (gset string) :=
  match tools with
  | [] => Some byID
  | tool :: tools =>
      if negb (is_ok (validateVersionedTool tool)) || (Source tool ≠? ToolchainInstalled)
      then None else
      if bool_decide (InventoryID tool ∈ byID) then None
      else pinned_ids ({[InventoryID tool]} ∪ byID) tools
  end.
Definition validPinnedToolchains (ids : list string) (tools : list VersionedTool) : bool :=
  if negb (validToolchainIDs ids) || negb (Nat.eqb (length tools) (length ids)) then false else
  match pinned_ids ∅ tools with
  | None => false
  | Some byID => forallb (fun id => bool_decide (id ∈ byID)) ids
  end.

Fixpoint check_languages (seen : gset string) (languages : list LanguageRequirement)
    : result unit string :=
  match languages with
  | [] => Ok tt
  | language :: languages =>
      let key := strings_ToLower (LanguageName language) in
      reject "goal language and version must be exact" when
        negb (validExactToolchainValue (LanguageName language) 128)
        || negb (validExactToolchainVersion (LanguageVersion language) 256) ;;
      reject "goal languages must be unique" when bool_decide (key ∈ seen) ;;
      check_languages ({[key]} ∪ seen) languages
  end.

Definition tool_key (tool : VersionedTool) : string :=
  strings_ToLower (Kind tool +:+ nul +:+ ToolName tool +:+ nul +:+ ToolVersion tool +:+ nul
                   +:+ Platform tool +:+ nul +:+ ToolArchitecture tool).
Definition suite_key (tool : VersionedTool) : string :=
  strings_ToLower (ToolVersion tool +:+ nul +:+ Platform tool +:+ nul +:+ ToolArchitecture tool).

Fixpoint check_tools (seen gccSuites : gset string) (tools : list VersionedTool)
    : result unit string :=
  match tools with
  | [] => Ok tt
  | tool :: tools =>
      _ <-! validateVersionedTool tool ;;
      reject "goal toolchains must be unique" when bool_decide (tool_key tool ∈ seen) ;;
      let seen := {[tool_key tool]} ∪ seen in
      if IsGCCTool tool then
        reject "a GCC toolchain suite must be represented by one compiler entry" when
          bool_decide (suite_key tool ∈ gccSuites) ;;
        check_tools seen ({[suite_key tool]} ∪ gccSuites) tools
      else check_tools seen gccSuites tools
  end.

(** [GoalToolchain.Validate]. *)
Definition Toolchain_Validate (selection : GoalToolchain) : result unit string :=
  reject "goal toolchain languages and tools are required" when
    Nat.eqb (length (Languages selection)) 0 || Nat.eqb (length (Tools selection)) 0 ;;
  _ <-! check_languages ∅ (Languages selection) ;;
  check_tools ∅ ∅ (Tools selection).

(** [GoalSpec.Validate].  A version 2 goal has a toolchain when it is asked
    whether it [RequiresInstallation]: the first check refuses a nil one. *)
Definition goal_statuses (s : GoalStatus) : bool :=
  match s with GoalDraft | GoalApproved | GoalSuperseded | GoalRejected => true | _ => false end.

Definition needs_install (c : GoalContent) : bool :=
  match GC.Toolchain c with Some t => RequiresInstallation t | None => false end.

Definition GoalSpec_Validate (g : GoalSpec) : result unit string :=
  let c := GS.Content g in
  reject "goal identity and versions are required" when
    (GC.GoalSpecVersion c <? 1) || (2 <? GC.GoalSpecVersion c) || (GC.ProjectID c ≟ "")
    || (GC.Version c <? 1) || (GC.Title c ≟ "") || (GC.Summary c ≟ "")
    || (GC.ProblemStatement c ≟ "") ;;
  _ <-! (if GC.GoalSpecVersion c =? 2 then
           match GC.Toolchain c with
           | None => Err "goal toolchain is required"
           | Some t => Toolchain_Validate t
           end
         else Ok tt) ;;
  reject "unknown GoalStatus" when negb (goal_statuses (GS.Status g)) ;;
  reject "goal outcomes, acceptance criteria, and creator are required" when
    Nat.eqb (length (GC.BusinessOutcomes c)) 0 || Nat.eqb (length (GC.AcceptanceCriteria c)) 0
    || (AgentInstanceID (GC.CreatedBy c) ≟ "") || (Role (GC.CreatedBy c) ≟ "") ;;
  reject "goal createdAt must be RFC3339" when is_nil (Parse_RFC3339 (GC.CreatedAt c)) ;;
  reject "approved goal must have no unresolved items and must be user approved" when
    (GS.Status g ≟ GoalApproved)
    && (negb (Nat.eqb (length (GC.UnresolvedItems c)) 0) || is_nil (GS.ApprovedBy g)
        || (GC.GoalSpecVersion c =? 2) && needs_install c) ;;
  ensure (validateDigest (GS.ContentSHA256 g)).

(** [ModuleSpec.Validate]. *)
Definition module_platform (m : ModuleSpec) : result unit string :=
  let w := MS.WorkloadProfile_ m in
  if MS.ExecutionPlatform m ≟ PlatformWindows then
    reject "windows NONE provider cannot claim network isolation" when
      (Mode (MS.NetworkPolicy_ m) ≠? NetworkUnrestricted)
      || negb (Nat.eqb (length (Destinations (MS.NetworkPolicy_ m))) 0) ;;
    reject "windows NONE provider accepts only trusted work without isolation or hidden-test requirements" when
      (Trust w ≠? WorkloadTrusted) || HostileMultiTenant w || RequiresNetworkIsolation w
      || RequiresHiddenTestConfidentiality w ;;
    Ok tt
  else
    reject "unrestricted network is only valid for windows NONE disclosure" when
      Mode (MS.NetworkPolicy_ m) ≟ NetworkUnrestricted ;;
    Ok tt.

Definition ModuleSpec_Validate (m : ModuleSpec) : result unit string :=
  reject "module identity and versions are required" when
    (MS.ModuleSpecVersion m <? 1) || (MS.PlanVersion m <? 1) || (MS.ModuleID m ≟ "")
    || (MS.ProjectID m ≟ "") ;;
  reject "execution platform and sandbox level do not match" when
    negb (validPlatformIsolation (MS.ExecutionPlatform m) (MS.SandboxLevel m)) ;;
  _ <-! module_platform m ;;
  let w := MS.WorkloadProfile_ m in
  reject "workload trust must be declared" when
    (Trust w ≠? WorkloadTrusted) && (Trust w ≠? WorkloadUntrusted) ;;
  reject "module verification entrypoint or toolchains are invalid" when
    ((MS.VerificationEntrypoint m ≠? "") || negb (is_nil (MS.ToolchainIDs m))
     || negb (is_nil (MS.Toolchains m)))
    && (negb (validVerificationEntrypointForPlatform (MS.ExecutionPlatform m) (MS.VerificationEntrypoint m))
        || negb (validPinnedToolchains (default [] (MS.ToolchainIDs m)) (default [] (MS.Toolchains m)))
        || negb (entrypointOwned (MS.VerificationEntrypoint m) (MS.AllowedPaths m))) ;;
  ensure (validateDigest (MS.SHA256 m)).

(** [SubmissionManifest.Validate]. *)
Definition Submission_Validate (s : SubmissionManifest) : result unit string :=
  reject "submission identity or attempt is invalid" when
    (SM.SubmissionVersion s <? 1) || (SM.ProjectID s ≟ "") || (SM.ModuleTaskID s ≟ "")
    || (SM.AttemptSeriesID s ≟ "") || (SM.Attempt s <? 1) || (3 <? SM.Attempt s) ;;
  _ <-! ensure (SpecRef_Validate (SM.ModuleSpecRef s)) ;;
  _ <-! wrap "base commit" (ensure (validateCommit (SM.BaseCommit s))) ;;
  _ <-! wrap "head commit" (ensure (validateCommit (SM.HeadCommit s))) ;;
  reject "submission must change the head commit" when SM.BaseCommit s ≟ SM.HeadCommit s ;;
  let a := SM.AgentIdentity_ s in
  reject "submission requires a lease-bound Executor identity" when
    (AgentInstanceID a ≟ "") || (Role a ≠? "EXECUTOR") || (LeaseID a ≟ "") ;;
  reject "submission createdAt must be RFC3339" when is_nil (Parse_RFC3339 (SM.CreatedAt s)) ;;
  ensure (validateDigest (SM.SHA256 s)).

End Validators.

End Specs.
