(* ===== verification/SpecsProps.v ===== *)
(** What the validators of [Specs.v] establish: pinned toolchains, the
    provisioning state of a goal's toolchain, approved goals and module
    specifications. *)

From S2P Require Import Prelude GoLib Path Contracts Specs.

Module SpecsProps.
Import Specs.

Lemma toolchain_ids_from_spec ids : forall seen,
  toolchain_ids_from seen ids = true <->
  (forall id, id ∈ ids -> validExactToolchainValue id 128 = true /\ Path.ContainsAny id [47; 92] = false)
  /\ NoDup ids /\ (forall id, id ∈ ids -> id ∉ seen).
Proof.
  induction ids as [|id ids IH]; intros seen; cbn [toolchain_ids_from].
  { split; [intros _|done]. split_and!; [|constructor|]; by intros x Hx%not_elem_of_nil. }
  split.
  - intros H. guards H. apply IH in H as (Hall & Hnd & Hseen). go_bool. split_and!.
    + intros y [->|Hy]%elem_of_cons; auto.
    + constructor; [|done]. intros Hy. specialize (Hseen id Hy). set_solver.
    + intros y [->|Hy]%elem_of_cons; [done|]. specialize (Hseen y Hy). set_solver.
  - intros (Hall & [Hnot Hnd]%NoDup_cons & Hseen). destruct (Hall id) as [-> ->]; [by left|].
    cbn [negb orb]. rewrite bool_decide_eq_false_2 by (apply Hseen; by left). apply IH.
    split_and!; [intros y Hy; apply Hall; by right|done|].
    intros y Hy [->%elem_of_singleton|Hin]%elem_of_union; [done|]. eapply Hseen; [by right|done].
Qed.

Section Tools.
Context (strings_ToLower : string -> string) (url_Parse : string -> option URL).
Notation validateVersionedTool := (validateVersionedTool url_Parse).
Notation validPinnedToolchains := (validPinnedToolchains url_Parse).

Definition pinned_tool (t : VersionedTool) : Prop :=
  validateVersionedTool t = Ok tt /\ Source t = ToolchainInstalled.

Lemma pinned_ids_spec tools : forall byID,
  match pinned_ids url_Parse byID tools with
  | Some ids => (forall t, t ∈ tools -> pinned_tool t) /\ NoDup (map InventoryID tools) /\
      (forall t, t ∈ tools -> InventoryID t ∉ byID) /\
      (forall id, id ∈ ids <-> id ∈ byID \/ id ∈ map InventoryID tools)
  | None => ~ ((forall t, t ∈ tools -> pinned_tool t) /\ NoDup (map InventoryID tools) /\
      (forall t, t ∈ tools -> InventoryID t ∉ byID))
  end.
Proof.
  induction tools as [|t tools IH]; intros byID; cbn [pinned_ids map].
  { split_and!; [|constructor| |]; try (by intros x Hx%not_elem_of_nil).
    intros id. rewrite elem_of_nil. tauto. }
  destruct (negb (is_ok _) || _) eqn:G.
  { intros (Hall & _). destruct (Hall t) as [Hv Hs]; [by left|]. rewrite Hv, Hs in G. done. }
  go_bool. destruct (validateVersionedTool t) as [[]|] eqn:Hv; [|done].
  case_bool_decide as Hin.
  { intros (_ & _ & Hb). apply (Hb t); [by left|done]. }
  specialize (IH ({[InventoryID t]} ∪ byID)). destruct (pinned_ids _ _ _) as [ids|].
  - destruct IH as (Hall & Hnd & Hb & Hids). split_and!.
    + by intros u [->|Hu]%elem_of_cons; auto.
    + constructor; [|done]. intros (u & Hu & Hin')%list_elem_of_fmap. specialize (Hb u Hin'). set_solver.
    + intros u [->|Hu]%elem_of_cons; [done|]. specialize (Hb u Hu). set_solver.
    + intros id. rewrite Hids, elem_of_cons. set_solver.
  - intros (Hall & [Hnot Hnd]%NoDup_cons & Hb). apply IH. split_and!.
    + intros u Hu. apply Hall. by right.
    + done.
    + intros u Hu [Heq%elem_of_singleton|Hi]%elem_of_union; [|by eapply Hb; [right|]].
      apply Hnot. rewrite <- Heq. by apply list_elem_of_fmap_2.
Qed.

(** A module's toolchains are accepted exactly when its identifiers are
    non-empty, exact and distinct, every listed tool is a valid installed one,
    and the tools' inventory identifiers are those identifiers, each pinned
    once - none missing, none extra. *)
Theorem pinned_toolchains_exact ids tools :
  validPinnedToolchains ids tools = true <->
  validToolchainIDs ids = true /\ (forall t, t ∈ tools -> pinned_tool t) /\
  map InventoryID tools ≡ₚ ids.
Proof.
  unfold Specs.validPinnedToolchains. pose proof (pinned_ids_spec tools ∅) as Hp.
  assert (Hids : validToolchainIDs ids = true -> NoDup ids).
  { unfold validToolchainIDs. intros H. guards H. by apply toolchain_ids_from_spec in H as (_ & ? & _). }
  split.
  - intros H. guards H. go_bool. apply Nat.eqb_eq in H1. destruct (pinned_ids _ _ _) as [byID|]; [|done].
    destruct Hp as (Hall & Hnd & _ & Hby). split_and!; [done..|]. symmetry.
    apply submseteq_length_Permutation; [|by rewrite length_map, H1].
    apply NoDup_submseteq; [auto|]. intros id Hid.
    rewrite forallb_forall in H. specialize (H id (proj1 (list_elem_of_In _ _) Hid)). go_bool.
    apply Hby in H. set_solver.
  - intros (Hv & Hall & Hperm). rewrite Hv.
    rewrite <- (Permutation_length Hperm), length_map, Nat.eqb_refl. cbn [negb orb].
    destruct (pinned_ids _ _ _) as [byID|].
    + destruct Hp as (_ & _ & _ & Hby). apply forallb_forall. intros id Hid%list_elem_of_In.
      apply bool_decide_eq_true, Hby. right. by rewrite Hperm.
    + destruct Hp. split_and!; [done| |set_solver]. rewrite Hperm. auto.
Qed.

(** ** Provisioning *)
Lemma ready_from_spec tools : forall ready,
  ready_from ready tools
  = (ready || existsb (fun t => Source t ≟ ToolchainInstallRequired) tools)
    && negb (existsb NeedsInstallationInput tools).
Proof.
  induction tools as [|t tools IH]; intros ready; cbn [ready_from existsb].
  { by rewrite orb_false_r, andb_true_r. }
  unfold NeedsInstallationInput at 1. rewrite !IH. case_bool_decide; cbn [negb].
  - destruct (ReadyToProvision t); cbn; [by rewrite orb_true_r|by rewrite andb_false_r].
  - by cbn.
Qed.

(** A goal's toolchain is ready to be provisioned exactly when some tool
    must be installed and no tool still needs the user's input; the three
    questions never disagree. *)
Theorem toolchain_provisioning s :
  Selection_ReadyToProvision s = RequiresInstallation s && negb (Selection_NeedsInstallationInput s)
  /\ (RequiresInstallation s = true ->
      Selection_ReadyToProvision s = true \/ Selection_NeedsInstallationInput s = true)
  /\ (Selection_ReadyToProvision s = true -> forall t, t ∈ Tools s ->
      Source t = ToolchainInstallRequired -> ReadyToProvision t = true).
Proof.
  unfold Selection_ReadyToProvision, RequiresInstallation, Selection_NeedsInstallationInput.
  rewrite ready_from_spec. cbn [orb]. split; [done|]. split.
  - intros ->. destruct (existsb NeedsInstallationInput _); auto.
  - intros [_ H]%andb_true_iff t Ht Hs. apply negb_true_iff in H.
    destruct (ReadyToProvision t) eqn:Hr; [done|].
    assert (Hex : existsb NeedsInstallationInput (Tools s) = true).
    { apply existsb_exists. exists t. split; [by apply list_elem_of_In|].
      unfold NeedsInstallationInput. by rewrite Hs, Hr. }
    congruence.
Qed.

(** ** Goals *)
Lemma check_tools_spec tools : forall seen suites,
  check_tools strings_ToLower url_Parse seen suites tools = Ok tt ->
  (forall t, t ∈ tools -> validateVersionedTool t = Ok tt) /\
  NoDup (map (tool_key strings_ToLower) tools) /\
  (forall t, t ∈ tools -> tool_key strings_ToLower t ∉ seen) /\
  NoDup (map (suite_key strings_ToLower) (List.filter IsGCCTool tools)) /\
  (forall t, t ∈ tools -> IsGCCTool t = true -> suite_key strings_ToLower t ∉ suites).
Proof.
  induction tools as [|t tools IH]; intros seen suites H; cbn [check_tools] in H.
  { split_and!; try constructor; by intros x Hx%not_elem_of_nil. }
  apply rbind_ok in H as ([] & Hv & H). destruct (bool_decide (_ ∈ seen)) eqn:Hs; [done|]. go_bool.
  assert (Hrest : exists suites', check_tools strings_ToLower url_Parse
     ({[tool_key strings_ToLower t]} ∪ seen) suites' tools = Ok tt /\ suites ⊆ suites' /\
     (IsGCCTool t = true -> suite_key strings_ToLower t ∈ suites' /\
        suite_key strings_ToLower t ∉ suites)).
  { destruct (IsGCCTool t); [|by exists suites].
    destruct (bool_decide _) eqn:Hg in H; [done|]. go_bool.
    eexists. split; [exact H|]. split; [set_solver|]. intros _. split; [set_solver|done]. }
  destruct Hrest as (suites' & Hc & Hsub & Hgcc). apply IH in Hc as (Hall & Hnd & Hseen & Hnds & Hsu).
  split_and!.
  - by intros u [->|Hu]%elem_of_cons; auto.
  - cbn. constructor; [|done]. intros (u & Hu & Hin)%list_elem_of_fmap. specialize (Hseen u Hin). set_solver.
  - intros u [->|Hu]%elem_of_cons; [done|]. specialize (Hseen u Hu). set_solver.
  - cbn. destruct (IsGCCTool t) eqn:Hi; [|done]. cbn. constructor; [|done].
    intros (u & Hu & Hin)%list_elem_of_fmap. apply list_elem_of_In, filter_In in Hin as [Hin Hiu].
    apply list_elem_of_In in Hin. destruct Hgcc as [Hg _]; [done|]. rewrite Hu in Hg. by eapply Hsu.
  - intros u [->|Hu]%elem_of_cons Hi; [by apply Hgcc|]. specialize (Hsu u Hu Hi). set_solver.
Qed.

(** A validated, approved goal of the current version was approved by
    someone with nothing unresolved, and its toolchain is completely
    installed: every tool is valid, installed and identified in the inventory,
    no tool is listed twice, and each GCC suite has one entry. *)
Theorem approved_goal_installed g :
  GoalSpec_Validate strings_ToLower url_Parse g = Ok tt -> GS.Status g = GoalApproved ->
  GC.GoalSpecVersion (GS.Content g) = 2 ->
  GS.ApprovedBy g <> None /\ GC.UnresolvedItems (GS.Content g) = [] /\
  exists t, GC.Toolchain (GS.Content g) = Some t /\ Tools t <> [] /\
    (forall tool, tool ∈ Tools t -> pinned_tool tool /\ InventoryID tool <> "") /\
    NoDup (map (tool_key strings_ToLower) (Tools t)) /\
    NoDup (map (suite_key strings_ToLower) (List.filter IsGCCTool (Tools t))).
Proof.
  intros Hv Hs Hver. unfold GoalSpec_Validate in Hv. rewrite Hs, Hver in Hv. cbn [Z.eqb Pos.eqb andb] in Hv.
  accepted Hv. rewrite bool_decide_eq_true_2 in G4 by done. cbn [andb] in G4. go_bool.
  destruct (GC.Toolchain (GS.Content g)) as [t|] eqn:Ht; [|done].
  unfold Toolchain_Validate in G0. accepted G0. destruct value. apply check_tools_spec in G0 as (Hall & Hnd & _ & Hnds & _).
  split; [by destruct (GS.ApprovedBy g)|]. split; [by destruct (GC.UnresolvedItems _)|].
  exists t. split; [done|]. apply orb_false_iff in G as [_ Gt].
  split; [intros Hn; by rewrite Hn in Gt|]. split_and!; [|done..].
  intros tool Hin. specialize (Hall tool Hin) as Hv'.
  assert (Hni : Source tool <> ToolchainInstallRequired).
  { intros Hsrc. unfold needs_install, RequiresInstallation in *. rewrite Ht in *.
    match goal with H : existsb _ _ = false |- _ => apply not_true_iff_false in H; apply H end.
    apply existsb_exists. exists tool. split; [by apply list_elem_of_In|]. by rewrite Hsrc. }
  unfold Specs.validateVersionedTool in Hv'. accepted Hv'.
  destruct (Source tool ≟ ToolchainInstalled) eqn:Hi; go_bool.
  - split; [split; [by apply Hall|done]|]. intros Hid. rewrite Hid in Hv'. by accepted Hv'.
  - rewrite bool_decide_eq_false_2 in Hv' by done. done.
Qed.

(** ** Module specifications *)
Record module_ok (m : ModuleSpec) : Prop := {
  mod_windows : MS.ExecutionPlatform m = PlatformWindows ->
    MS.SandboxLevel m = IsolationNone /\ Mode (MS.NetworkPolicy_ m) = NetworkUnrestricted /\
    Destinations (MS.NetworkPolicy_ m) = [] /\ Trust (MS.WorkloadProfile_ m) = WorkloadTrusted /\
    HostileMultiTenant (MS.WorkloadProfile_ m) = false /\
    RequiresNetworkIsolation (MS.WorkloadProfile_ m) = false /\
    RequiresHiddenTestConfidentiality (MS.WorkloadProfile_ m) = false;
  mod_linux : MS.ExecutionPlatform m <> PlatformWindows ->
    MS.ExecutionPlatform m = PlatformLinux /\ MS.SandboxLevel m = IsolationContainer /\
    Mode (MS.NetworkPolicy_ m) <> NetworkUnrestricted;
  mod_trust : Trust (MS.WorkloadProfile_ m) = WorkloadTrusted \/
    Trust (MS.WorkloadProfile_ m) = WorkloadUntrusted;
  mod_entrypoint : MS.VerificationEntrypoint m <> "" \/ MS.ToolchainIDs m <> None \/ MS.Toolchains m <> None ->
    inside_tree (to_slash (MS.VerificationEntrypoint m)) = true /\
    entrypointOwned (MS.VerificationEntrypoint m) (MS.AllowedPaths m) = true /\
    exists ids tools, MS.ToolchainIDs m = Some ids /\ MS.Toolchains m = Some tools /\
      validPinnedToolchains ids tools = true;
  mod_digest : validateDigest (MS.SHA256 m) = None
}.

(** A validated module specification never claims isolation its platform
    does not give: Windows runs only trusted work, with the unrestricted
    network disclosed and no isolation or hidden-test promise; everything else
    runs in a Linux container without unrestricted network.  A verification
    entrypoint lies inside the tree, in an owned path, with pinned toolchains. *)
Theorem module_spec_confined m :
  ModuleSpec_Validate url_Parse m = Ok tt -> module_ok m.
Proof.
  intros Hv. unfold ModuleSpec_Validate in Hv. accepted Hv.
  apply negb_false_iff in G0. unfold validPlatformIsolation in G0.
  unfold module_platform in G1. destruct value. split.
  - intros Hw. rewrite Hw in *. cbn in G0. rewrite bool_decide_eq_true_2 in G1 by done.
    change ((MS.SandboxLevel m ≟ IsolationNone) = true) in G0.
    accepted G1. go_bool. split_and!; try done. by destruct (Destinations _).
  - intros Hw. rewrite bool_decide_eq_false_2 in G1 by done. accepted G1. go_bool.
    rewrite (bool_decide_eq_false_2 (MS.ExecutionPlatform m = PlatformWindows)) in G0 by done.
    cbn in G0. rewrite orb_false_r in G0. go_bool. done.
  - destruct (decide (Trust (MS.WorkloadProfile_ m) = WorkloadTrusted)); [by left|right].
    apply andb_false_iff in G2 as [G2|G2]; go_bool; done.
  - intros Hreq. assert (Hr : (MS.VerificationEntrypoint m ≠? "") || negb (is_nil (MS.ToolchainIDs m))
       || negb (is_nil (MS.Toolchains m)) = true).
    { destruct Hreq as [H|[H|H]]; [by rewrite bool_decide_eq_false_2|
        destruct (MS.ToolchainIDs m); [by rewrite orb_true_r|done]|
        destruct (MS.Toolchains m); [by rewrite orb_true_r|done]]. }
    rewrite Hr in G3. cbn [andb] in G3. go_bool.
    split; [|split; [done|]].
    + unfold validVerificationEntrypointForPlatform in *.
      destruct (validVerificationEntrypoint _) eqn:He; [|done]. unfold validVerificationEntrypoint in He.
      by guards He.
    + unfold Specs.validPinnedToolchains, validToolchainIDs in *.
      destruct (MS.ToolchainIDs m) as [ids|] eqn:Hi; [|done].
      destruct (MS.Toolchains m) as [tools|] eqn:Ht; [by exists ids, tools|].
      guards H1. go_bool. by destruct ids.
  - by destruct (validateDigest _).
Qed.
End Tools.

(** ** Examples *)
Definition sample_digest : string :=
  "sha256:0123456789abcdef0123456789abcdef0123456789abcdef0123456789abcdef".
Definition sample_tool (id source : string) (install : option ToolchainInstall) : VersionedTool :=
  mkTool id ToolchainCompiler "go" "1.22.1" PlatformLinux "amd64" source install.
Definition installed : VersionedTool := sample_tool "go-1" ToolchainInstalled None.
Definition missing : VersionedTool :=
  sample_tool "" ToolchainInstallRequired
    (Some (mkInstall ToolchainInstallUserArchive false "" "" "" "" "")).
Definition sample_goal (status : GoalStatus) (tools : list VersionedTool) : GoalSpec :=
  GS.mk (GC.mk 2 "p" 1 "title" "summary" "problem" [mkOutcome "o" "s"] (mkScope [] []) [] []
           (mkNonFunctional [] [] [] [] []) [] [] [] [] [mkAcceptanceCriterion "a" "s" "TEST"] "LOW"
           [] "INTERNAL" [] [] (Some (mkGoalToolchain [mkLanguage "go" "1.22"] tools))
           "2024-01-01T00:00:00Z" (mkAgentIdentity "agent" "GOAL_PROPOSER" "" "" ""))
    status (Some (mkApprovalActor "user" "2024-01-02T00:00:00Z")) sample_digest None.
Definition no_url (value : string) : option URL := None.

Example goal_ex :
  GoalSpec_Validate ToLower no_url (sample_goal GoalDraft [missing]) = Ok tt /\
  GoalSpec_Validate ToLower no_url (sample_goal GoalApproved [missing])
  = Err "approved goal must have no unresolved items and must be user approved" /\
  GoalSpec_Validate ToLower no_url (sample_goal GoalDraft [installed; installed])
  = Err "goal toolchains must be unique" /\
  IsGCCTool (mkTool "" ToolchainCompiler "GNU Compiler-Collection (GCC)" "13" "" "" "" None) = true.
Proof. vm_compute. auto. Qed.

Lemma approved_goal_installed_witness :
  GoalSpec_Validate ToLower no_url (sample_goal GoalApproved [installed]) = Ok tt /\
  GS.ApprovedBy (sample_goal GoalApproved [installed]) <> None.
Proof.
  assert (H : GoalSpec_Validate ToLower no_url (sample_goal GoalApproved [installed]) = Ok tt)
    by (vm_compute; reflexivity).
  split; [exact H|]. by apply (approved_goal_installed ToLower no_url _ H).
Defined.

Definition sample_spec (platform sandbox mode trust : string) : ModuleSpec :=
  MS.mk 1 "m" "p" 1 "name" "purpose" [] [] [] [] [] [] [] ["src/..."] [] platform sandbox
    (mkNetworkPolicy mode []) (mkWorkload trust false false false) [] (Some ["go-1"])
    (Some [installed]) "src/verify.sh" [] [] [] [] [] (mkBudget 0 0 "0" "USD") sample_digest.

Example spec_ex :
  ModuleSpec_Validate no_url (sample_spec PlatformWindows IsolationNone "DENY_ALL" WorkloadTrusted)
  = Err "windows NONE provider cannot claim network isolation" /\
  ModuleSpec_Validate no_url (sample_spec PlatformLinux IsolationNone "DENY_ALL" WorkloadTrusted)
  = Err "execution platform and sandbox level do not match".
Proof. vm_compute. auto. Qed.

Lemma module_spec_confined_witness :
  ModuleSpec_Validate no_url
    (sample_spec PlatformLinux IsolationContainer "DENY_ALL" WorkloadUntrusted) = Ok tt /\
  module_ok no_url (sample_spec PlatformLinux IsolationContainer "DENY_ALL" WorkloadUntrusted).
Proof.
  assert (H : ModuleSpec_Validate no_url
    (sample_spec PlatformLinux IsolationContainer "DENY_ALL" WorkloadUntrusted) = Ok tt)
    by (vm_compute; reflexivity).
  split; [exact H|]. by apply module_spec_confined.
Defined.
End SpecsProps.
