(* ===== verification/PlanSpecs.v ===== *)
(** [PlanSpec.Validate] ([pkg/contracts/types.go]): the published plan and its
    module graph, checked by Kahn's algorithm.

    Go ranges over the map of modules in an unspecified order, twice: [range1]
    and [range2] are those orders.  The queue loop is the one of
    [state.ValidateDAG], so its lemmas are those of [Dag.v]. *)

From S2P Require Import Prelude GoLib Contracts Dag Specs.

Module PlanSpecs.
Import Specs.

Definition risks : list string := ["LOW"; "MEDIUM"; "HIGH"; "CRITICAL"].

(** The checks of one module, before its ID is looked up. *)
Definition module_error (m : PlanModule) : option string :=
  if (PM.ModuleID m ≟ "") || (PM.Name m ≟ "") || (PM.Responsibility m ≟ "")
     || Nat.eqb (length (PM.AcceptanceCriteria m)) 0
     || negb (validPlatformIsolation (PM.ExecutionPlatform m) (PM.SandboxLevel m))
  then Some "plan module identity, ownership, acceptance, or platform is invalid" else
  if ((PM.VerificationEntrypoint m ≠? "") || negb (is_nil (PM.ToolchainIDs m)))
     && (negb (validVerificationEntrypointForPlatform (PM.ExecutionPlatform m) (PM.VerificationEntrypoint m))
         || negb (validToolchainIDs (default [] (PM.ToolchainIDs m)))
         || negb (entrypointOwned (PM.VerificationEntrypoint m) (PM.OwnedPaths m)))
  then Some "plan module verification entrypoint or toolchains are invalid" else
  if negb (one_of (PM.Risk m) risks) then Some "plan module risk is invalid" else None.

(** The first loop: the modules by ID. *)
Fixpoint index_modules (modules : gmap string PlanModule) (l : list PlanModule)
    : result (gmap string PlanModule) string :=
  match l with
  | [] => Ok modules
  | m :: l =>
      _ <-! ensure (module_error m) ;;
      reject "plan module IDs must be unique" when negb (is_nil (modules !! PM.ModuleID m)) ;;
      index_modules (<[PM.ModuleID m := m]> modules) l
  end.

(** The dependencies of the module [id]. *)
Fixpoint count_dependencies (modules : gmap string PlanModule) (id : string) (seen : gset string)
    (dependencies : list string) (indegree : Dag.degrees) (reverse : Dag.adjacency)
    : result (Dag.degrees * Dag.adjacency) string :=
  match dependencies with
  | [] => Ok (indegree, reverse)
  | dependency :: rest =>
      reject "plan module dependency is cyclic or duplicated" when
        (dependency ≟ id) || bool_decide (dependency ∈ seen) ;;
      reject "plan module dependency is unknown" when is_nil (modules !! dependency) ;;
      count_dependencies modules id ({[dependency]} ∪ seen) rest
        (<[id := Dag.degree_of indegree id + 1]> indegree)
        (<[dependency := Dag.nodes_of reverse dependency ++ [id]]> reverse)
  end.

Definition dependencies_of (modules : gmap string PlanModule) (id : string) : list string :=
  match modules !! id with Some m => PM.Dependencies m | None => [] end.

Fixpoint count_modules (modules : gmap string PlanModule) (order : list string)
    (indegree : Dag.degrees) (reverse : Dag.adjacency)
    : result (Dag.degrees * Dag.adjacency) string :=
  match order with
  | [] => Ok (indegree, reverse)
  | id :: rest =>
      counted <-! count_dependencies modules id ∅ (dependencies_of modules id) indegree reverse ;;
      count_modules modules rest counted.1 counted.2
  end.

Section Plan.
Context (range1 range2 : gmap string PlanModule -> list string).

(** The checks and loops before the queue. *)
Definition plan_checked (p : PlanSpec)
    : result (gmap string PlanModule * (Dag.degrees * Dag.adjacency)) string :=
  reject "plan identity, architecture, and modules are required" when
    (PS.PlanSpecVersion p <? 1) || (PS.ProjectID p ≟ "") || (Style (PS.Architecture_ p) ≟ "")
    || Nat.eqb (length (PS.Modules p)) 0 ;;
  _ <-! wrap "goal reference" (ensure (SpecRef_Validate (PS.GoalSpecRef p))) ;;
  modules <-! index_modules ∅ (PS.Modules p) ;;
  counted <-! count_modules modules (range1 modules) ∅ ∅ ;;
  Ok (modules, counted).

(** [PlanSpec.Validate]; [None] if the queue loop ran out of fuel, which it
    does not ([PlanSpec_Validate_correct]). *)
Definition PlanSpec_Validate (p : PlanSpec) : option (result unit string) :=
  match plan_checked p with
  | Err e => Some (Err e)
  | Ok (modules, (indegree, reverse)) =>
      let queue := filter (fun id => Dag.degree_of indegree id = 0) (range2 modules) in
      visited ← Dag.drain (size modules) reverse queue indegree 0;
      Some (if negb (visited =? Z.of_nat (size modules))
            then Err "plan module dependency graph must be acyclic"
            else ensure (validateDigest (PS.SHA256 p)))
  end.

(** ** What an accepted plan is *)

(** The plan's dependency graph. *)
Definition plan_graph (l : list PlanModule) : Dag.graph :=
  list_to_map (map (fun m => (PM.ModuleID m, PM.Dependencies m)) l).

Record plan_ok (p : PlanSpec) : Prop := {
  plan_identity : 1 <= PS.PlanSpecVersion p /\ PS.ProjectID p <> "" /\ Style (PS.Architecture_ p) <> "";
  plan_goal : SpecRef_valid (PS.GoalSpecRef p) = true;
  plan_modules : forall m, m ∈ PS.Modules p -> module_error m = None;
  plan_unique : NoDup (map PM.ModuleID (PS.Modules p));
  plan_wf : Dag.well_formed (plan_graph (PS.Modules p));
  plan_acyclic : Dag.acyclic (plan_graph (PS.Modules p));
  plan_digest : validateDigest (PS.SHA256 p) = None
}.

Definition deps_graph (modules : gmap string PlanModule) : Dag.graph := PM.Dependencies <$> modules.

Lemma nodes_of_deps modules id : Dag.nodes_of (deps_graph modules) id = dependencies_of modules id.
Proof.
  unfold Dag.nodes_of, deps_graph, dependencies_of. rewrite lookup_fmap. by destruct (modules !! id).
Qed.

(** The loops with error messages find an error exactly when [ValidateDAG]'s
    return false, and otherwise build the same maps. *)
Definition ok_option {A E} (r : result A E) : option A :=
  match r with Ok a => Some a | Err _ => None end.

Lemma count_dependencies_scan modules id deps : forall seen ind rev,
  ok_option (count_dependencies modules id seen deps ind rev)
  = Dag.scan_dependencies (deps_graph modules) id seen deps ind rev.
Proof.
  induction deps as [|d deps IH]; intros seen ind rev; [done|].
  cbn [count_dependencies Dag.scan_dependencies].
  destruct (_ || _); [done|]. unfold deps_graph at 1. rewrite lookup_fmap.
  destruct (modules !! d); [apply IH|done].
Qed.

Lemma count_modules_scan modules order : forall ind rev,
  ok_option (count_modules modules order ind rev)
  = Dag.scan_nodes (deps_graph modules) order ind rev.
Proof.
  induction order as [|id order IH]; intros ind rev; [done|].
  cbn [count_modules Dag.scan_nodes]. rewrite nodes_of_deps, <- count_dependencies_scan.
  destruct (count_dependencies _ _ _ _ _ _) as [[ind' rev']|]; cbn; [apply IH|done].
Qed.

Lemma index_modules_spec l : forall modules,
  match index_modules modules l with
  | Ok modules' => (forall m, m ∈ l -> module_error m = None) /\ NoDup (map PM.ModuleID l) /\
      (forall m, m ∈ l -> modules !! PM.ModuleID m = None) /\
      modules' = list_to_map (map (fun m => (PM.ModuleID m, m)) l) ∪ modules
  | Err _ => ~ ((forall m, m ∈ l -> module_error m = None) /\ NoDup (map PM.ModuleID l) /\
      (forall m, m ∈ l -> modules !! PM.ModuleID m = None))
  end.
Proof.
  induction l as [|m l IH]; intros modules; cbn [index_modules].
  { split_and!; [by intros m Hm%not_elem_of_nil|constructor|by intros m Hm%not_elem_of_nil|].
    cbn. by rewrite map_empty_union. }
  destruct (module_error m) eqn:Hm; cbn [ensure rbind].
  { intros (Hall & _). specialize (Hall m). rewrite Hall in Hm by (by left). done. }
  destruct (modules !! PM.ModuleID m) eqn:Hl; cbn [is_nil negb].
  { intros (_ & _ & Hn). rewrite Hn in Hl by (by left). done. }
  specialize (IH (<[PM.ModuleID m := m]> modules)).
  destruct (index_modules _ l) as [modules'|e].
  - destruct IH as (Hall & Hnd & Hnew & ->).
    assert (Hm' : forall n, n ∈ l -> PM.ModuleID n <> PM.ModuleID m /\ modules !! PM.ModuleID n = None).
    { intros n Hn. specialize (Hnew n Hn). apply lookup_insert_None in Hnew as [? ?]. done. }
    split_and!.
    + intros n [->|Hn]%elem_of_cons; auto.
    + cbn. constructor; [|done]. intros (n & Heq & Hn)%list_elem_of_fmap. by destruct (Hm' n Hn).
    + intros n [->|Hn]%elem_of_cons; [done|]. by apply Hm'.
    + cbn. rewrite <- insert_union_r; [by rewrite insert_union_l|].
      apply not_elem_of_list_to_map_1. rewrite <- list_fmap_compose. cbn.
      intros (n & Heq & Hn)%list_elem_of_fmap. by destruct (Hm' n Hn).
  - intros (Hall & Hnd & Hnew). apply IH. cbn in Hnd. apply NoDup_cons in Hnd as [Hnot Hnd].
    split_and!; [intros n Hn; apply Hall; by right|done|].
    intros n Hn. rewrite lookup_insert_ne; [apply Hnew; by right|].
    intros Heq. apply Hnot. rewrite Heq. by apply list_elem_of_fmap_2.
Qed.

Lemma deps_graph_plan l :
  deps_graph (list_to_map (map (fun m => (PM.ModuleID m, m)) l)) = plan_graph l.
Proof.
  unfold deps_graph, plan_graph. induction l as [|m l IH]; [done|].
  cbn. by rewrite fmap_insert, IH.
Qed.

Context (Hrange1 : forall modules, range1 modules ≡ₚ (map_to_list modules).*1).
Context (Hrange2 : forall modules, range2 modules ≡ₚ (map_to_list modules).*1).

Lemma range_order modules order :
  order ≡ₚ (map_to_list modules).*1 -> Dag.iteration_order order (deps_graph modules).
Proof.
  intros H. unfold Dag.iteration_order, deps_graph. rewrite H, map_to_list_fmap.
  by rewrite <- list_fmap_compose.
Qed.

Lemma deps_graph_size modules : size (deps_graph modules) = size modules.
Proof. apply map_size_fmap. Qed.

Lemma plan_graph_nonempty l : l <> [] -> plan_graph l <> ∅.
Proof. destruct l as [|m l]; [done|]. intros _. apply insert_non_empty. Qed.

(** Indexed modules: the graph is checked exactly. *)
Lemma plan_graph_checked l :
  l <> [] ->
  let modules := list_to_map (map (fun m => (PM.ModuleID m, m)) l) in
  match count_modules modules (range1 modules) ∅ ∅ with
  | Err _ => ~ (Dag.well_formed (plan_graph l) /\ Dag.acyclic (plan_graph l))
  | Ok (ind, rev) =>
      Dag.well_formed (plan_graph l) /\ exists visited : Z,
        Dag.drain (size modules) rev
          (filter (fun id => Dag.degree_of ind id = 0) (range2 modules)) ind 0 = Some visited /\
        (visited = Z.of_nat (size modules) <-> Dag.acyclic (plan_graph l))
  end.
Proof.
  intros Hl modules.
  assert (Hg : deps_graph modules = plan_graph l) by apply deps_graph_plan.
  pose proof (Dag.kahn_spec (deps_graph modules) (range1 modules) (range2 modules) ∅
    (range_order _ _ (Hrange1 modules)) (range_order _ _ (Hrange2 modules))) as Hk.
  rewrite <- count_modules_scan, deps_graph_size in Hk. rewrite !Hg in Hk.
  specialize (Hk (plan_graph_nonempty _ Hl) (fun _ => eq_refl)).
  destruct (count_modules modules _ ∅ ∅) as [[ind rev]|]; exact Hk.
Qed.

Lemma PlanSpec_Validate_spec p :
  exists r, PlanSpec_Validate p = Some r /\ (r = Ok tt <-> plan_ok p).
Proof.
  unfold PlanSpec_Validate, plan_checked. destruct (_ || _) eqn:G.
  { eexists. split; [done|]. split; [done|]. intros [(? & ? & ?) _ _ _ [Hne _ _] _ _].
    repeat apply orb_true_iff in G as [G|G]; go_bool; [lia|done..|].
    exfalso. apply Nat.eqb_eq in G. apply Hne. by rewrite (nil_length_inv _ G). }
  go_bool. destruct (ensure (SpecRef_Validate _)) eqn:Hg; cbn [wrap rbind]; cycle 1.
  { eexists. split; [done|]. split; [done|]. intros [_ Hv _ _ _ _ _]. unfold SpecRef_valid in Hv.
    by destruct (SpecRef_Validate _). }
  pose proof (index_modules_spec (PS.Modules p) ∅) as Hi.
  destruct (index_modules ∅ (PS.Modules p)) as [modules|]; cbn [rbind]; cycle 1.
  { eexists. split; [done|]. split; [done|]. intros [_ _ ? ? _ _ _]. by destruct Hi. }
  destruct Hi as (Hall & Hnd & _ & ->). rewrite map_union_empty.
  rename H0 into Hlen.
  assert (Hl : PS.Modules p <> []) by (intros Hl; by rewrite Hl in Hlen).
  pose proof (plan_graph_checked _ Hl) as Hc. cbv zeta in Hc.
  destruct (count_modules _ _ ∅ ∅) as [[ind rev]|]; cbn [rbind]; cycle 1.
  { eexists. split; [done|]. split; [done|]. intros []. by destruct Hc. }
  destruct Hc as (Hwf & v & -> & Hv). cbn [mbind option_bind].
  eexists. split; [done|]. destruct (negb _) eqn:Hn; go_bool.
  - split; [done|]. intros []. tauto.
  - unfold SpecRef_valid. split.
    + intros Hd. split; try done; [|tauto|].
      * unfold ensure in Hg. unfold SpecRef_valid. by destruct (SpecRef_Validate _).
      * by destruct (validateDigest _).
    + intros []. by rewrite plan_digest0.
Qed.

(** C35: A plan is accepted exactly when its identity, goal reference, modules
    and digest are valid, module IDs are distinct, every dependency is listed
    once and names another module of the plan, and the dependency graph has no
    cycle - for every order in which Go ranges over its maps, and the queue
    loop always terminates. *)
Theorem PlanSpec_Validate_correct p :
  exists r, PlanSpec_Validate p = Some r /\ (r = Ok tt <-> plan_ok p).
Proof. apply PlanSpec_Validate_spec. Qed.

End Plan.

(** A plan of two modules, and the same plan with a cycle. *)
Definition sample_module (id : string) (deps : list string) : PlanModule :=
  PM.mk id "name" "does it" PlatformLinux IsolationContainer ["src/" +:+ id +:+ "/..."] [] [] deps
    ["works"] (Some ["go-1.22"]) ("src/" +:+ id +:+ "/verify.sh") "LOW".
Definition sample_digest : string :=
  "sha256:0123456789abcdef0123456789abcdef0123456789abcdef0123456789abcdef".
Definition sample_plan (modules : list PlanModule) : PlanSpec :=
  PS.mk 1 "p" (mkSpecRef 1 sample_digest) (mkArchitecture "layered" [] [] [] []) [] modules
    [] [] [] [] [] sample_digest.
Definition key_order (modules : gmap string PlanModule) : list string := (map_to_list modules).*1.

Example plan_ex :
  PlanSpec_Validate key_order key_order
    (sample_plan [sample_module "api" ["core"]; sample_module "core" []]) = Some (Ok tt) /\
  PlanSpec_Validate key_order key_order
    (sample_plan [sample_module "api" ["core"]; sample_module "core" ["api"]])
  = Some (Err "plan module dependency graph must be acyclic") /\
  PlanSpec_Validate key_order key_order (sample_plan [sample_module "api" ["db"]])
  = Some (Err "plan module dependency is unknown").
Proof. vm_compute. auto. Qed.

Lemma PlanSpec_Validate_correct_witness :
  exists r, PlanSpec_Validate key_order key_order (sample_plan [sample_module "api" []]) = Some r /\
    (r = Ok tt <-> plan_ok (sample_plan [sample_module "api" []])).
Proof. apply PlanSpec_Validate_correct; intros modules; reflexivity. Defined.
End PlanSpecs.
