(* ===== verification/Evidence.v ===== *)
(** Audit evidence ([pkg/contracts/audit_results.go] and [EvidenceBundle.Validate]
    of [types.go]): canonical findings and their line-independent
    fingerprints, the validation of an evidence bundle and the audit gate. *)

From Stdlib Require Import SpecFloat.
From S2P Require Import Prelude GoLib Trace Path Contracts Specs.

Module Evidence.
Import Specs.

(** ** Lines and paths *)
Definition validAuditSingleLine (value : string) : bool :=
  (value ≠? "") && (TrimSpace value ≟ value) && negb (has_control value).
Definition validAuditNarrative (value : string) : bool :=
  (value ≠? "") && (TrimSpace value ≟ value) && no_nul value.

Definition normalizeAuditPath (value : string) : result string string :=
  if value ≟ "" then Ok "" else
  reject "finding file path is invalid" when negb (inside_tree (to_slash value)) ;;
  Ok (Path.Clean (to_slash value)).

Definition FindingOpen : string := "OPEN".
Definition FindingHigh : string := "HIGH".
Definition FindingCritical : string := "CRITICAL".
Definition CriterionPass : string := "PASS".

Definition validFindingSeverity (value : string) : bool :=
  one_of value ["INFO"; "LOW"; "MEDIUM"; FindingHigh; FindingCritical].
Definition validFindingStatus (value : string) : bool :=
  one_of value [FindingOpen; "FIXED"; "ACCEPTED"; "FALSE_POSITIVE"].
Definition validCriterionStatus (value : string) : bool :=
  one_of value [CriterionPass; "FAIL"; "NOT_TESTED"].

Definition validateAuditRefs (values : list string) : result unit string :=
  reject "audit evidence reference is invalid" when
    existsb (fun value => negb (validAuditSingleLine value)) values ;;
  Ok tt.

Definition validArtifactRef (value : string) : bool :=
  (11 <? len value) && HasPrefix value "artifact://" && validAuditSingleLine value.

(** [validateEvidenceTimeRange(startedAt, completedAt) == nil]. *)
Definition time_range_ok (startedAt completedAt : string) : bool :=
  match Parse_RFC3339 startedAt, Parse_RFC3339 completedAt with
  | Some started, Some completed => negb (Before completed started)
  | _, _ => false
  end.

Section Audit.
Context (sha256_Sum256 : string -> list Z).

(** ** Findings *)
Definition fingerprint_input (ruleID path semanticLocation evidencePattern : string) : string :=
  ruleID +:+ nul +:+ path +:+ nul +:+ semanticLocation +:+ nul +:+ evidencePattern.

Definition sha256_digest (value : string) : string :=
  "sha256:" +:+ of_bytes (Trace.hex_encode (sha256_Sum256 value)).

Definition AuditFindingFingerprint (ruleID file semanticLocation evidencePattern : string)
    : result string string :=
  reject "finding fingerprint components are required" when
    negb (validAuditSingleLine ruleID) || negb (validAuditSingleLine semanticLocation)
    || negb (validAuditSingleLine evidencePattern) ;;
  normalizedPath <-! normalizeAuditPath file ;;
  Ok (sha256_digest (fingerprint_input ruleID normalizedPath semanticLocation evidencePattern)).

Definition finding_fields_ok (finding : AuditFinding) : bool :=
  validFindingSeverity (AF.Severity finding) && validFindingStatus (AF.Status finding)
  && validAuditSingleLine (AF.Category finding) && validAuditSingleLine (AF.RuleID finding)
  && validAuditSingleLine (AF.SemanticLocation finding)
  && validAuditSingleLine (AF.EvidencePattern finding)
  && validAuditNarrative (AF.ExpectedBehavior finding)
  && validAuditNarrative (AF.ObservedBehavior finding)
  && validAuditNarrative (AF.RemediationConstraint finding).

Definition line_range_bad (finding : AuditFinding) : bool :=
  let '(first, last) := (AF.LineStart finding, AF.LineEnd finding) in
  (first <? 0) || (last <? 0) || negb (Bool.eqb (first =? 0) (last =? 0))
  || (0 <? first) && (last <? first).

Definition CanonicalAuditFinding (finding : AuditFinding) : result AuditFinding string :=
  reject "finding fields are invalid" when negb (finding_fields_ok finding) ;;
  normalizedPath <-! normalizeAuditPath (AF.File finding) ;;
  reject "finding lines require a file" when
    (normalizedPath ≟ "") && (negb (AF.LineStart finding =? 0) || negb (AF.LineEnd finding =? 0)) ;;
  reject "finding line range is invalid" when (normalizedPath ≠? "") && line_range_bad finding ;;
  _ <-! validateAuditRefs (default [] (AF.EvidenceRefs finding)) ;;
  fingerprint <-! AuditFindingFingerprint (AF.RuleID finding) normalizedPath
    (AF.SemanticLocation finding) (AF.EvidencePattern finding) ;;
  Ok (finding ⟦ AF.File := normalizedPath ⟧ ⟦ AF.StableFingerprint := fingerprint ⟧
        ⟦ AF.FindingID := "FND-" +:+ TrimPrefix fingerprint "sha256:" ⟧
        ⟦ AF.EvidenceRefs := Some (default [] (AF.EvidenceRefs finding)) ⟧).

(** [AuditFinding.Validate]. *)
Definition Finding_Validate (finding : AuditFinding) : result unit string :=
  canonical <-! CanonicalAuditFinding finding ;;
  reject "finding is not canonical" when
    (AF.FindingID finding ≠? AF.FindingID canonical)
    || (AF.StableFingerprint finding ≠? AF.StableFingerprint canonical)
    || (AF.File finding ≠? AF.File canonical) || is_nil (AF.EvidenceRefs finding) ;;
  Ok tt.

(** [CriterionResult.Validate]. *)
Definition Criterion_Validate (criterion : CriterionResult) : result unit string :=
  reject "criterion result is invalid" when
    negb (validAuditSingleLine (ResultCriterionID criterion))
    || negb (validCriterionStatus (ResultStatus criterion))
    || is_nil (ResultEvidenceRefs criterion) ;;
  validateAuditRefs (default [] (ResultEvidenceRefs criterion)).

(** ** Evidence bundles *)
Definition check_invalid (ordinal : Z) (check : EvidenceCheck) : bool :=
  (CheckID check ≟ "") || negb (Ordinal check =? ordinal) || (CheckType check ≟ "")
  || negb (one_of (CheckStatus check) ["PASS"; "FAIL"; "ERROR"; "SKIPPED"])
  || (CheckToolName (Tool check) ≟ "") || (CheckToolVersion (Tool check) ≟ "")
  || negb (digest_ok (CheckToolDigest (Tool check)))
  || negb (time_range_ok (StartedAt check) (CompletedAt check))
  || negb (validArtifactRef (StdoutURI check)) || negb (validArtifactRef (StderrURI check))
  || negb (validArtifactRef (ResultURI check)) || negb (digest_ok (ResultSHA256 check)).

(** The loop over the checks; the result is [allChecksPass]. *)
Fixpoint checks_from (index : Z) (allChecksPass : bool) (checks : list EvidenceCheck)
    : result bool string :=
  match checks with
  | [] => Ok allChecksPass
  | check :: checks =>
      reject "evidence check " +:+ pretty (index + 1) +:+ " is invalid" when
        check_invalid (index + 1) check ;;
      checks_from (index + 1)
        (if CheckStatus check ≠? "PASS" then false else allChecksPass) checks
  end.

(** A loop that validates values and refuses a repeated key. *)
Fixpoint distinct_valid {A} (validate : A -> result unit string) (key : A -> string)
    (duplicate : string) (seen : gset string) (l : list A) : result unit string :=
  match l with
  | [] => Ok tt
  | x :: l =>
      _ <-! validate x ;;
      reject duplicate when bool_decide (key x ∈ seen) ;;
      distinct_valid validate key duplicate ({[key x]} ∪ seen) l
  end.

Definition float_zero : spec_float := S754_zero false.
Definition float_one : spec_float := S754_finite false 4503599627370496 (-52).
(** [math.IsNaN(c) || math.IsInf(c, 0) || c < 0 || c > 1]. *)
Definition confidence_bad (c : spec_float) : bool :=
  match c with
  | S754_nan | S754_infinity _ => true
  | _ => SFltb c float_zero || SFltb float_one c
  end.

Definition llm_audit_error (bundle : EvidenceBundle) (allChecksPass : bool) : option string :=
  let a := EB.LLMAudit_ bundle in
  let criteria := default [] (EB.CriteriaResults bundle) in
  if one_of (Verdict a) ["PASS"; "FAIL"; "INCONCLUSIVE"] then
    if Nat.eqb (length criteria) 0 || negb (validAuditSingleLine (AuditorRunID a))
       || negb (validAuditSingleLine (ModelIdentity a)) || negb (digest_ok (PromptDigest a))
       || negb (digest_ok (ContextManifestDigest a))
    then Some "LLM audit identity is invalid" else None
  else if Verdict a ≟ "NOT_RUN" then
    if allChecksPass || Nat.eqb (length (default [] (EB.Findings bundle))) 0
       || (AuditorRunID a ≠? "") || (ModelIdentity a ≠? "") || (PromptDigest a ≠? "")
       || (ContextManifestDigest a ≠? "") || negb (Nat.eqb (length criteria) 0)
       || negb (SFeqb (EB.Confidence bundle) float_zero)
    then Some "NOT_RUN LLM audit is inconsistent" else None
  else Some "LLM audit verdict is invalid".

Definition validateAuditResults (bundle : EvidenceBundle) : result unit string :=
  reject "evidence audit result is incomplete" when
    Nat.eqb (length (EB.Checks bundle)) 0 || is_nil (EB.Findings bundle)
    || is_nil (EB.CriteriaResults bundle) || is_nil (EB.ResidualRisks bundle)
    || is_nil (EB.Artifacts bundle) || confidence_bad (EB.Confidence bundle) ;;
  allChecksPass <-! checks_from 0 true (EB.Checks bundle) ;;
  _ <-! distinct_valid Finding_Validate AF.StableFingerprint
    "duplicate finding stable fingerprint" ∅ (default [] (EB.Findings bundle)) ;;
  _ <-! distinct_valid Criterion_Validate ResultCriterionID
    "duplicate criterion result" ∅ (default [] (EB.CriteriaResults bundle)) ;;
  reject "residual risk is invalid" when
    existsb (fun risk => negb (validAuditNarrative risk)) (default [] (EB.ResidualRisks bundle)) ;;
  _ <-! distinct_valid
    (fun r => if negb (validArtifactRef r) then Err "artifact reference is invalid" else Ok tt)
    (fun r => r) "duplicate artifact reference" ∅ (default [] (EB.Artifacts bundle)) ;;
  ensure (llm_audit_error bundle allChecksPass).

Definition open_blocker (finding : AuditFinding) : bool :=
  (AF.Status finding ≟ FindingOpen)
  && ((AF.Severity finding ≟ FindingHigh) || (AF.Severity finding ≟ FindingCritical)).

(** [EvidenceBundle.PassesAuditGate]. *)
Definition PassesAuditGate (bundle : EvidenceBundle) : bool :=
  if negb (is_ok (validateAuditResults bundle)) || (Verdict (EB.LLMAudit_ bundle) ≠? "PASS")
  then false else
  if existsb (fun check => CheckStatus check ≠? "PASS") (EB.Checks bundle) then false else
  if existsb open_blocker (default [] (EB.Findings bundle)) then false else
  if existsb (fun criterion => ResultStatus criterion ≠? CriterionPass)
       (default [] (EB.CriteriaResults bundle)) then false
  else true.

Definition signature_missing (s : option Signature) : bool :=
  match s with
  | None => true
  | Some s => (TrimSpace (SigType s) ≟ "") || (TrimSpace (KID s) ≟ "") || (TrimSpace (JWS s) ≟ "")
  end.

(** [EvidenceBundle.Validate]. *)
Definition Bundle_Validate (e : EvidenceBundle) : result unit string :=
  reject "evidence identity or attempt is invalid" when
    negb (EB.EvidenceBundleVersion e =? 1) || (EB.ProjectID e ≟ "") || (EB.TaskID e ≟ "")
    || (EB.AttemptSeriesID e ≟ "") || (EB.Attempt e <? 1) || (3 <? EB.Attempt e)
    || (EB.SpecVersion e <? 1) || negb (pipelineVersionPattern (EB.PipelineVersion e)) ;;
  reject "evidence platform and isolation level do not match" when
    negb (validPlatformIsolation (EB.ExecutionPlatform e) (EB.IsolationLevel e)) ;;
  _ <-! wrap "base commit" (ensure (validateCommit (EB.BaseCommit e))) ;;
  _ <-! wrap "submission commit" (ensure (validateCommit (EB.SubmissionCommit e))) ;;
  reject "evidence submission must change the head commit" when
    EB.BaseCommit e ≟ EB.SubmissionCommit e ;;
  _ <-! wrap "policy bundle digest" (ensure (validateDigest (EB.PolicyBundleDigest e))) ;;
  reject "linux evidence requires an OCI-bound sandbox attestation" when
    (EB.ExecutionPlatform e ≟ PlatformLinux) && negb (HasPrefix (EB.SandboxAttestation e) "oci:") ;;
  reject "windows evidence must disclose NONE" when
    (EB.ExecutionPlatform e ≟ PlatformWindows) && (EB.SandboxAttestation e ≠? "windows:none") ;;
  _ <-! validateAuditResults e ;;
  _ <-! ensure (validateDigest (EB.ManifestSHA256 e)) ;;
  reject "evidence signature is required" when signature_missing (EB.Signature_ e) ;;
  Ok tt.
(** ** Canonical findings *)
Lemma to_slash_idem value : to_slash (to_slash value) = to_slash value.
Proof.
  unfold to_slash. rewrite Trace.bytes_of_bytes, map_map. f_equal. apply map_ext. intros c.
  destruct (byte_is 92 c) eqn:G; [done|by rewrite G].
Qed.

Lemma normalizeAuditPath_fixed value c :
  normalizeAuditPath value = Ok c -> normalizeAuditPath c = Ok c.
Proof.
  unfold normalizeAuditPath. case_bool_decide as Hv; [by intros [= <-]|].
  destruct (inside_tree (to_slash value)) eqn:Hin; [|done]. cbn [negb].
  intros [= <-]. assert (Hc : Path.Clean (to_slash value) = to_slash value).
  { unfold inside_tree in Hin. go_bool. done. }
  rewrite Hc, to_slash_idem, Hin, Hc. by destruct (_ ≟ _) eqn:E; go_bool; [rewrite E|].
Qed.

Lemma CanonicalAuditFinding_fixed f g :
  CanonicalAuditFinding f = Ok g -> CanonicalAuditFinding g = Ok g /\ is_nil (AF.EvidenceRefs g) = false.
Proof.
  unfold CanonicalAuditFinding. intros H. accepted H. split; [|done].
  match goal with |- context [finding_fields_ok ?x] =>
    change (finding_fields_ok x) with (finding_fields_ok f);
    change (line_range_bad x) with (line_range_bad f);
    change (AF.File x) with value end.
  rewrite G, (normalizeAuditPath_fixed _ _ G0). cbn [rbind].
  match goal with |- context [AF.LineStart ?x] =>
    change (AF.LineStart x) with (AF.LineStart f); change (AF.LineEnd x) with (AF.LineEnd f);
    change (default [] (AF.EvidenceRefs x)) with (default [] (AF.EvidenceRefs f)) end.
  rewrite G1, G2, G3. cbn [rbind].
  match goal with |- context [AF.RuleID ?x] =>
    change (AF.RuleID x) with (AF.RuleID f);
    change (AF.SemanticLocation x) with (AF.SemanticLocation f);
    change (AF.EvidencePattern x) with (AF.EvidencePattern f) end.
  by rewrite G4.
Qed.
Lemma Finding_Validate_fixed f :
  Finding_Validate f = Ok tt <-> CanonicalAuditFinding f = Ok f.
Proof.
  unfold Finding_Validate. rewrite rbind_ok. split.
  - intros (g & Hg & H). accepted H. enough (f = g) as <- by done.
    unfold CanonicalAuditFinding in Hg. accepted Hg. go_bool.
    destruct f as [i fp ? ? ? file ? ? ? ? ? [refs|]]; [|done]. cbn in *. congruence.
  - intros Hf. exists f. split; [done|].
    rewrite (proj2 (CanonicalAuditFinding_fixed _ _ Hf)). by go_eval.
Qed.

(** Canonicalisation is a normal form: it is idempotent, its result
    validates, and a finding validates exactly when it is its own canonical
    form - so its path is clean and its identifiers are the derived ones. *)
Theorem canonical_findings f :
  (forall g, CanonicalAuditFinding f = Ok g ->
     CanonicalAuditFinding g = Ok g /\ Finding_Validate g = Ok tt) /\
  (Finding_Validate f = Ok tt <-> CanonicalAuditFinding f = Ok f).
Proof.
  split; [|apply Finding_Validate_fixed]. intros g Hg.
  apply CanonicalAuditFinding_fixed in Hg as [Hg _]. split; [done|by apply Finding_Validate_fixed].
Qed.

(** ** Fingerprints *)
Lemma validAuditSingleLine_no_nul value : validAuditSingleLine value = true -> no_nul value = true.
Proof.
  unfold validAuditSingleLine, has_control, no_nul. intros Hv. go_bool.
  apply negb_true_iff. match goal with Hc : existsb _ _ = false |- _ => revert Hc end.
  clear. induction (bytes value) as [|c l IH]; cbn; [done|].
  intros [Hc Hl]%orb_false_iff. rewrite IH by done. by repeat apply orb_false_iff in Hc as [Hc ->].
Qed.

(** The fingerprint of a canonical finding, and its components. *)
Definition finding_fingerprint (f g : AuditFinding) : string :=
  sha256_digest (fingerprint_input (AF.RuleID f) (AF.File g) (AF.SemanticLocation f)
                   (AF.EvidencePattern f)).
Lemma CanonicalAuditFinding_parts f g :
  CanonicalAuditFinding f = Ok g ->
  no_nul (AF.RuleID f) = true /\ no_nul (AF.SemanticLocation f) = true /\
  no_nul (AF.EvidencePattern f) = true /\ AF.StableFingerprint g = finding_fingerprint f g.
Proof.
  intros H. unfold CanonicalAuditFinding in H. accepted H.
  unfold AuditFindingFingerprint in G4. rewrite (normalizeAuditPath_fixed _ _ G0) in G4.
  accepted G4. subst. go_bool. cbn [rbind] in *. split_and!; [by apply validAuditSingleLine_no_nul..|].
  unfold finding_fingerprint. cbn. congruence.
Qed.

Lemma string_app_assoc (a b c : string) : a +:+ b +:+ c = (a +:+ b) +:+ c.
Proof. apply bytes_inj. by rewrite !bytes_concat, app_assoc. Qed.

Lemma fingerprint_input_inj r1 p1 l1 e1 r2 p2 l2 e2 :
  no_nul r1 = true -> no_nul r2 = true -> no_nul l1 = true -> no_nul l2 = true ->
  no_nul e1 = true -> no_nul e2 = true ->
  fingerprint_input r1 p1 l1 e1 = fingerprint_input r2 p2 l2 e2 ->
  r1 = r2 /\ p1 = p2 /\ l1 = l2 /\ e1 = e2.
Proof.
  unfold fingerprint_input. intros Hr1 Hr2 Hl1 Hl2 He1 He2 H.
  apply nul_prefix_inj in H as [-> H]; [|done..].
  replace (p1 +:+ nul +:+ l1 +:+ nul +:+ e1) with ((p1 +:+ nul +:+ l1) +:+ nul +:+ e1) in H
    by (by rewrite <- !string_app_assoc).
  replace (p2 +:+ nul +:+ l2 +:+ nul +:+ e2) with ((p2 +:+ nul +:+ l2) +:+ nul +:+ e2) in H
    by (by rewrite <- !string_app_assoc).
  apply nul_suffix_inj in H as [H ->]; [|done..].
  apply nul_suffix_inj in H as [-> ->]; done.
Qed.
Lemma hex_encode_inj l1 : forall l2,
  Forall (fun v => 0 <= v < 256) l1 -> Forall (fun v => 0 <= v < 256) l2 ->
  Trace.hex_encode l1 = Trace.hex_encode l2 -> l1 = l2.
Proof.
  induction l1 as [|a l1 IH]; intros [|b l2] H1 H2 H; [done..|].
  apply Forall_cons in H1 as [Ha H1], H2 as [Hb H2].
  unfold Trace.hex_encode in H. cbn [map concat] in H.
  apply app_inj_1 in H as [Hab H]; [|done]. f_equal; [|by apply IH].
  pose proof (Trace.hex_decode_byte a Ha) as Hd. rewrite Hab, Trace.hex_decode_byte in Hd by done.
  congruence.
Qed.

(** [sha256.Sum256] yields bytes. *)
Definition yields_bytes : Prop := forall s, Forall (fun v => 0 <= v < 256) (sha256_Sum256 s).

(** A fingerprint identifies its finding: two findings have the same stable
    fingerprint exactly when they agree on rule, normalised path, semantic
    location and evidence pattern - line numbers do not matter - unless their
    different fingerprint inputs are a SHA-256 collision. *)
Theorem fingerprint_identifies f1 f2 g1 g2 :
  yields_bytes -> CanonicalAuditFinding f1 = Ok g1 -> CanonicalAuditFinding f2 = Ok g2 ->
  (AF.RuleID f1 = AF.RuleID f2 /\ AF.File g1 = AF.File g2 /\
   AF.SemanticLocation f1 = AF.SemanticLocation f2 /\
   AF.EvidencePattern f1 = AF.EvidencePattern f2 ->
   AF.StableFingerprint g1 = AF.StableFingerprint g2) /\
  (AF.StableFingerprint g1 = AF.StableFingerprint g2 ->
   (AF.RuleID f1 = AF.RuleID f2 /\ AF.File g1 = AF.File g2 /\
    AF.SemanticLocation f1 = AF.SemanticLocation f2 /\
    AF.EvidencePattern f1 = AF.EvidencePattern f2) \/
   exists a b, a <> b /\ sha256_Sum256 a = sha256_Sum256 b).
Proof.
  intros Hb H1 H2.
  apply CanonicalAuditFinding_parts in H1 as (Hr1 & Hl1 & He1 & ->).
  apply CanonicalAuditFinding_parts in H2 as (Hr2 & Hl2 & He2 & ->).
  unfold finding_fingerprint. split; [by intros (-> & -> & -> & ->)|]. unfold sha256_digest.
  intros H%(inj (String.append _))%(f_equal bytes). rewrite !Trace.bytes_of_bytes in H.
  apply hex_encode_inj in H; [|apply Hb..].
  destruct (decide (fingerprint_input (AF.RuleID f1) (AF.File g1) (AF.SemanticLocation f1) (AF.EvidencePattern f1)
    = fingerprint_input (AF.RuleID f2) (AF.File g2) (AF.SemanticLocation f2) (AF.EvidencePattern f2))) as [Heq|Hne].
  - left. by apply fingerprint_input_inj in Heq.
  - right. eauto.
Qed.

(** ** The audit gate *)
Lemma distinct_valid_spec {A} (validate : A -> result unit string) key dup l : forall seen,
  distinct_valid validate key dup seen l = Ok tt <->
  (forall x, x ∈ l -> validate x = Ok tt) /\ NoDup (map key l) /\ (forall x, x ∈ l -> key x ∉ seen).
Proof.
  induction l as [|x l IH]; intros seen; cbn [distinct_valid map].
  { split; [intros _|done]. split_and!; [|constructor|]; by intros x Hx%not_elem_of_nil. }
  rewrite rbind_ok. split.
  - intros ([] & Hx & H). accepted H. apply IH in H as (Hall & Hnd & Hseen). go_bool. split_and!.
    + intros y [->|Hy]%elem_of_cons; auto.
    + constructor; [|done]. intros (y & Hxy & Hy)%list_elem_of_fmap. specialize (Hseen y Hy).
      set_solver.
    + intros y [->|Hy]%elem_of_cons; [done|]. specialize (Hseen y Hy). set_solver.
  - intros (Hall & Hnd & Hseen). apply NoDup_cons in Hnd as [Hnot Hnd]. exists tt.
    split; [apply Hall; by left|]. rewrite bool_decide_eq_false_2 by (apply Hseen; by left).
    apply IH. split_and!; [intros y Hy; apply Hall; by right|done|].
    intros y Hy [Heq%elem_of_singleton|Hin]%elem_of_union; [|by eapply Hseen; [right|]].
    apply Hnot. rewrite <- Heq. by apply list_elem_of_fmap_2.
Qed.

Lemma checks_from_spec checks : forall index all b,
  checks_from index all checks = Ok b <->
  (forall i c, checks !! i = Some c -> check_invalid (index + Z.of_nat i + 1) c = false) /\
  b = all && forallb (fun c => CheckStatus c ≟ "PASS") checks.
Proof.
  induction checks as [|c checks IH]; intros index all b; cbn [checks_from forallb].
  { rewrite andb_true_r. split; [intros [= ->]|by intros [_ ->]]. by split. }
  split.
  - intros H. accepted H. apply IH in H as [Hall ->]. split.
    + intros [|i] d Hd; cbn in Hd.
      * injection Hd as <-. by replace (index + Z.of_nat 0 + 1) with (index + 1) by lia.
      * specialize (Hall i d Hd). by replace (index + Z.of_nat (S i) + 1)
          with (index + 1 + Z.of_nat i + 1) by lia.
    + destruct (CheckStatus c ≟ "PASS"), all; cbn; by rewrite ?andb_false_r.
  - intros [Hall ->]. specialize (Hall 0%nat c eq_refl) as Hc.
    replace (index + Z.of_nat 0 + 1) with (index + 1) in Hc by lia. rewrite Hc. apply IH. split.
    + intros i d Hd. specialize (Hall (S i) d Hd).
      by replace (index + 1 + Z.of_nat i + 1) with (index + Z.of_nat (S i) + 1) by lia.
    + destruct (CheckStatus c ≟ "PASS"), all; cbn; by rewrite ?andb_false_r.
Qed.

(** What the gate promises of a bundle. *)
Record audit_passed (b : EvidenceBundle) (findings : list AuditFinding)
    (criteria : list CriterionResult) : Prop := {
  ap_findings : EB.Findings b = Some findings;
  ap_criteria : EB.CriteriaResults b = Some criteria;
  ap_checked : EB.Checks b <> [];
  ap_checks : forall i c, EB.Checks b !! i = Some c ->
    CheckStatus c = "PASS" /\ check_invalid (Z.of_nat i + 1) c = false;
  ap_canonical : forall f, f ∈ findings -> CanonicalAuditFinding f = Ok f;
  ap_distinct : NoDup (map AF.StableFingerprint findings);
  ap_no_blocker : forall f, f ∈ findings -> AF.Status f = FindingOpen ->
    AF.Severity f <> FindingHigh /\ AF.Severity f <> FindingCritical;
  ap_judged : criteria <> [];
  ap_criterion : forall c, c ∈ criteria -> Criterion_Validate c = Ok tt /\ ResultStatus c = CriterionPass;
  ap_once : NoDup (map ResultCriterionID criteria);
  ap_risks : exists risks, EB.ResidualRisks b = Some risks /\
    (forall r, r ∈ risks -> validAuditNarrative r = true);
  ap_artifacts : exists refs, EB.Artifacts b = Some refs /\ NoDup refs /\
    (forall r, r ∈ refs -> validArtifactRef r = true);
  ap_confidence : confidence_bad (EB.Confidence b) = false;
  ap_verdict : Verdict (EB.LLMAudit_ b) = "PASS";
  ap_auditor : validAuditSingleLine (AuditorRunID (EB.LLMAudit_ b)) = true /\
    validAuditSingleLine (ModelIdentity (EB.LLMAudit_ b)) = true /\
    digest_ok (PromptDigest (EB.LLMAudit_ b)) = true /\
    digest_ok (ContextManifestDigest (EB.LLMAudit_ b)) = true
}.

Lemma existsb_none {A} (p : A -> bool) l : existsb p l = false <-> forall x, x ∈ l -> p x = false.
Proof.
  split.
  - intros H x Hx. apply not_true_is_false. intros Hp. rewrite <- not_true_iff_false in H.
    apply H, existsb_exists. exists x. split; [by apply list_elem_of_In|done].
  - intros H. apply not_true_is_false. intros (x & Hx%list_elem_of_In & Hp)%existsb_exists.
    by rewrite H in Hp.
Qed.

Lemma gate_blocker f :
  open_blocker f = false <-> (AF.Status f = FindingOpen ->
    AF.Severity f <> FindingHigh /\ AF.Severity f <> FindingCritical).
Proof. unfold open_blocker. repeat case_bool_decide; cbn; naive_solver. Qed.

Lemma llm_audit_passed b all :
  Verdict (EB.LLMAudit_ b) = "PASS" ->
  llm_audit_error b all = None <->
  default [] (EB.CriteriaResults b) <> [] /\
  validAuditSingleLine (AuditorRunID (EB.LLMAudit_ b)) = true /\
  validAuditSingleLine (ModelIdentity (EB.LLMAudit_ b)) = true /\
  digest_ok (PromptDigest (EB.LLMAudit_ b)) = true /\
  digest_ok (ContextManifestDigest (EB.LLMAudit_ b)) = true.
Proof.
  intros Hp. unfold llm_audit_error. rewrite Hp.
  replace (one_of "PASS" ["PASS"; "FAIL"; "INCONCLUSIVE"]) with true by reflexivity.
  rewrite guard_none.
  split.
  - intros H. go_bool. split_and!; try done. by destruct (default [] _).
  - intros (Hc & -> & -> & -> & ->). by destruct (default [] _).
Qed.

Lemma audit_passed_gate b findings criteria :
  audit_passed b findings criteria -> PassesAuditGate b = true.
Proof.
  intros [Hf Hc Hne Hch Hcan Hd Hnb Hj Hcr Ho (risks & Hr & Hrisk) (refs & Ha & Hdup & Href) Hconf Hv Hid].
  assert (Hok : validateAuditResults b = Ok tt).
  { unfold validateAuditResults. rewrite Hf, Hc, Hr, Ha, Hconf. cbn [is_nil orb default].
    rewrite (proj2 (Nat.eqb_neq _ _)) by (by destruct (EB.Checks b)). cbn [orb].
    rewrite (proj2 (checks_from_spec _ 0 true _)) by (split; [|reflexivity]; intros i c Hi;
      by apply Hch in Hi as [_ ?]). cbn [rbind].
    rewrite (proj2 (distinct_valid_spec _ _ _ _ _)); [cbn [rbind]|]; cycle 1.
    { split_and!; [intros f Hin; by apply Finding_Validate_fixed, Hcan|done|set_solver]. }
    rewrite (proj2 (distinct_valid_spec _ _ _ _ _)); [cbn [rbind]|]; cycle 1.
    { split_and!; [intros c Hin; by apply Hcr|done|set_solver]. }
    unfold id. rewrite (proj2 (existsb_none _ _)) by (intros r Hin; by rewrite Hrisk).
    rewrite (proj2 (distinct_valid_spec _ _ _ _ _)); [cbn [rbind]|]; cycle 1.
    { split_and!; [intros r Hin; by rewrite Href|by rewrite map_id|set_solver]. }
    rewrite (proj2 (llm_audit_passed b _ Hv)); [done|]. by rewrite Hc. }
  unfold PassesAuditGate. rewrite Hok, Hv, Hf, Hc. cbn [is_ok negb orb default]. unfold id.
  rewrite !(proj2 (existsb_none _ _)); [done|..].
  - intros c Hin. by rewrite (proj2 (Hcr c Hin)).
  - intros f Hin. apply gate_blocker. auto.
  - intros c (i & Hi)%list_elem_of_lookup. by rewrite (proj1 (Hch i c Hi)).
Qed.

(** C34: The audit gate passes exactly when the bundle's results are complete
    and consistent - checks numbered in order, findings canonical and distinct
    by fingerprint, criteria valid and judged once, risks, artifacts,
    confidence and auditor identity valid - every check and every criterion
    passed, at least one of each, no HIGH or CRITICAL finding is open, and the
    auditor's verdict is PASS. *)
Theorem audit_gate_exact b :
  PassesAuditGate b = true <-> exists findings criteria, audit_passed b findings criteria.
Proof.
  split; [|intros (findings & criteria & H); by eapply audit_passed_gate].
  intros Hg. unfold PassesAuditGate in Hg. destruct (validateAuditResults b) as [[]|] eqn:Hv; [|done].
  cbn [is_ok negb orb] in Hg. guards Hg. unfold validateAuditResults in Hv. accepted Hv. go_bool.
  repeat match goal with H : is_nil _ = false |- _ => apply is_nil_false in H as [? H] end.
  match goal with H1 : EB.Findings b = Some ?f, H2 : EB.CriteriaResults b = Some ?c,
      H3 : EB.ResidualRisks b = Some _, H4 : EB.Artifacts b = Some _ |- _ =>
    exists f, c; rewrite H1, H2, H3, H4 in * end. cbn [default] in *. unfold id in *.
  repeat match goal with
  | H : distinct_valid _ _ _ _ _ = Ok ?u |- _ => destruct u; apply distinct_valid_spec in H as (? & ? & _)
  | H : existsb _ _ = false |- _ => rewrite existsb_none in H
  end.
  apply checks_from_spec in G4 as [Hcheck _].
  assert (Hl : llm_audit_error b value = None) by (by destruct (llm_audit_error b value)).
  apply llm_audit_passed in Hl as (Hj & Hid); [|done].
  split; try done.
  - intros Hn. by rewrite Hn in *.
  - intros i c Hi. split; [|by apply (Hcheck i c)].
    specialize (G0 c (list_elem_of_lookup_2 _ _ _ Hi)). by go_bool.
  - intros f Hin. by apply Finding_Validate_fixed; auto.
  - intros f Hin. by apply gate_blocker, G1.
  - by rewrite H3 in Hj.
  - intros c Hin. specialize (G2 c Hin). go_bool. auto.
  - eexists. split; [done|]. intros r Hin. specialize (G7 r Hin). by go_bool.
  - eexists. split; [done|]. rewrite map_id in *. split; [done|].
    intros r Hin. match goal with H : forall x, x ∈ _ -> (if _ then _ else _) = _ |- _ => specialize (H r Hin) end.
    by destruct (validArtifactRef r).
Qed.
End Audit.

(** ** Examples; the digest is the text itself. *)
Definition plain_sum (s : string) : list Z := map byte_of (bytes s).
Lemma plain_sum_bytes : yields_bytes plain_sum.
Proof.
  intros s. apply Forall_fmap, Forall_forall. intros c _. unfold compose, byte_of.
  pose proof (N_ascii_bounded c). lia.
Qed.

Definition sample_finding (line : Z) (severity file : string) : AuditFinding :=
  AF.mk "" "" severity "security" "R1" file line line FindingOpen "f" "p" None "safe" "unsafe" "fix".
Definition canonical_sample (line : Z) (severity file : string) : AuditFinding :=
  match CanonicalAuditFinding plain_sum (sample_finding line severity file) with
  | Ok f => f | Err _ => sample_finding line severity file end.

Lemma fingerprint_identifies_witness :
  AF.StableFingerprint (canonical_sample 3 "LOW" "src\a.go")
  = AF.StableFingerprint (canonical_sample 9 "HIGH" "src/a.go").
Proof.
  apply (fingerprint_identifies plain_sum (sample_finding 3 "LOW" "src\a.go")
    (sample_finding 9 "HIGH" "src/a.go")); [apply plain_sum_bytes|vm_compute; reflexivity..|].
  split_and!; vm_compute; reflexivity.
Defined.

Definition sample_digest : string :=
  "sha256:0123456789abcdef0123456789abcdef0123456789abcdef0123456789abcdef".
Definition sample_check (status : string) : EvidenceCheck :=
  mkCheck "c1" 1 "unit" status (mkCheckTool "go" "1.22" sample_digest) "2024-01-01T00:00:00Z"
    "2024-01-01T00:00:01Z" "artifact://out" "artifact://err" "artifact://res" sample_digest.
Definition sample_bundle (status : string) (findings : list AuditFinding) : EvidenceBundle :=
  EB.mk 1 "p" "t" "s" 1 1 "0123456789012345678901234567890123456789"
    "0123456789012345678901234567890123456780" "1.0.0" sample_digest PlatformLinux
    IsolationContainer "oci:x" [sample_check status] (Some findings)
    (Some [mkCriterionResult "AC1" "PASS" (Some [])]) (Some []) float_one (Some [])
    (mkLLMAudit "run" "model" sample_digest sample_digest "PASS") sample_digest
    (Some (mkSignature "JWS" "k" "j")).

Example gate_ex :
  PassesAuditGate plain_sum (sample_bundle "PASS" []) = true /\
  Bundle_Validate plain_sum (sample_bundle "PASS" []) = Ok tt /\
  PassesAuditGate plain_sum (sample_bundle "FAIL" []) = false /\
  PassesAuditGate plain_sum (sample_bundle "PASS" [canonical_sample 9 "HIGH" "src/a.go"]) = false /\
  PassesAuditGate plain_sum (sample_bundle "PASS" [canonical_sample 9 "LOW" "src/a.go"]) = true /\
  Bundle_Validate plain_sum (sample_bundle "PASS" [sample_finding 9 "LOW" "src/a.go"])
  = Err "finding is not canonical".
Proof. vm_compute. auto 10. Qed.
End Evidence.
