(* ===== verification/Capability.v ===== *)
(** The commit boundary of the orchestrator ([internal/orchestrator]:
    [boundary.go], [capability.go]): the facts of a commit, the signed
    short-lived capability that must match them, and its revalidation.

    [json_Marshal] is [json.Marshal] of a capability, [None] when it fails; the
    signer and the revalidator are interfaces, whose implementations are outside
    this package: a function that answers nil is [true]. *)

From S2P Require Import Prelude GoLib Contracts Task Project.

Module Capability.

#[export] Existing Instances Project.eta_Project Task.eta_ModuleTask.

(** ** Data *)
Module Cap.
(** [CommitCapability]; its fields are qualified by [Cap].  A nil and an empty
    slice or map are one: every reader copies them first. *)
Record CommitCapability : Type := mk {
  CapabilityVersion : Z;
  TenantID : string;
  ProjectID : string;
  TaskID : string;
  PrincipalID : string;
  PrincipalType : string;
  Role : string;
  Action : string;
  ExpectedVersion : Z;
  ProjectVersion : Z;
  TaskVersion : Z;
  ParameterDigest : string;
  EvidenceSHA256 : list string;
  Claims : gmap string bool;
  ModuleSpecRef : SpecRef;
  GoalSpecRef : SpecRef;
  ApprovalRecordID : string;
  LeaseID : string;
  FencingToken : Z;
  PolicyVersion : string;
  BudgetAccountID : string;
  IssuedAt : time;
  ExpiresAt : time
}.
#[global] Instance eta_capability : Eta CommitCapability := fun c =>
  mk (CapabilityVersion c) (TenantID c) (ProjectID c) (TaskID c) (PrincipalID c)
    (PrincipalType c) (Role c) (Action c) (ExpectedVersion c) (ProjectVersion c) (TaskVersion c)
    (ParameterDigest c) (EvidenceSHA256 c) (Claims c) (ModuleSpecRef c) (GoalSpecRef c)
    (ApprovalRecordID c) (LeaseID c) (FencingToken c) (PolicyVersion c) (BudgetAccountID c)
    (IssuedAt c) (ExpiresAt c).
#[global] Instance CommitCapability_eq_dec : EqDecision CommitCapability.
Proof. solve_decision. Defined.
End Cap.
Abbreviation CommitCapability := Cap.CommitCapability.

Record CommitAuthorization : Type := mkAuthorization {
  Capability : CommitCapability;
  Signature : string
}.

Module Val.
(** [CommitValidation]; its fields are qualified by [Val]. *)
Record CommitValidation : Type := mk {
  TenantID : string;
  ProjectID : string;
  TaskID : string;
  PrincipalID : string;
  Action : string;
  ExpectedVersion : Z;
  Project : Project.Project;
  Task : Task.ModuleTask;
  ParameterDigest : string;
  EvidenceSHA256 : list string;
  Claims : gmap string bool;
  ModuleSpecRef : SpecRef;
  GoalSpecRef : SpecRef;
  FencingToken : Z;
  ApprovalRecordID : string;
  Authorization : CommitAuthorization;
  CommitAt : time
}.
#[global] Instance eta_validation : Eta CommitValidation := fun v =>
  mk (TenantID v) (ProjectID v) (TaskID v) (PrincipalID v) (Action v) (ExpectedVersion v)
    (Project v) (Task v) (ParameterDigest v) (EvidenceSHA256 v) (Claims v) (ModuleSpecRef v)
    (GoalSpecRef v) (FencingToken v) (ApprovalRecordID v) (Authorization v) (CommitAt v).
End Val.
Abbreviation CommitValidation := Val.CommitValidation.

Definition CommitCapabilityVersion : Z := 1.
Definition maximumCommitCapabilityLifetime : duration := 5 * Minute.

(** ** Copies *)
Definition cloneTimePointer (value : option time) : option time :=
  match value with None => None | Some t => Some (UTC t) end.

Definition cloneClaims (claims : gmap string bool) : gmap string bool :=
  if Nat.eqb (size claims) 0 then ∅
  else list_to_map (map_to_list claims).

Definition canonicalCommitCapability (capability : CommitCapability) : CommitCapability :=
  capability
    ⟦ Cap.EvidenceSHA256 := sort_slice String.ltb (copy_slice (Cap.EvidenceSHA256 capability)) ⟧
    ⟦ Cap.Claims := cloneClaims (Cap.Claims capability) ⟧
    ⟦ Cap.IssuedAt := UTC (Cap.IssuedAt capability) ⟧
    ⟦ Cap.ExpiresAt := UTC (Cap.ExpiresAt capability) ⟧.

Definition cloneCommitCapability (capability : CommitCapability) : CommitCapability :=
  capability ⟦ Cap.EvidenceSHA256 := copy_slice (Cap.EvidenceSHA256 capability) ⟧
             ⟦ Cap.Claims := cloneClaims (Cap.Claims capability) ⟧.

Definition cloneBoundaryProject (value : Project.Project) : Project.Project :=
  value
    ⟦ Project.DeploymentTargets := copy_slice (Project.DeploymentTargets value) ⟧
    ⟦ Project.Goal := (fun goal => goal ⟦ Project.Goal_.UnresolvedItems :=
        copy_slice (Project.Goal_.UnresolvedItems goal) ⟧) <$> Project.Goal value ⟧
    ⟦ Project.Plan := Project.Plan value ⟧
    ⟦ Project.CoreSummary_ := (fun summary => summary ⟦ Project.Summary.Modules :=
        copy_slice (Project.Summary.Modules summary) ⟧) <$> Project.CoreSummary_ value ⟧
    ⟦ Project.Deletion := (fun deletion => deletion
        ⟦ Project.Del.StartedAt := cloneTimePointer (Project.Del.StartedAt deletion) ⟧
        ⟦ Project.Del.CompletedAt := cloneTimePointer (Project.Del.CompletedAt deletion) ⟧
        ⟦ Project.Del.BackupExpiresAt := cloneTimePointer (Project.Del.BackupExpiresAt deletion) ⟧)
        <$> Project.Deletion value ⟧
    ⟦ Project.LegalHolds := map (fun hold => hold
        ⟦ Project.Hold.ReleasedAt := cloneTimePointer (Project.Hold.ReleasedAt hold) ⟧)
        (copy_slice (Project.LegalHolds value)) ⟧.

Definition cloneBoundaryTask (value : Task.ModuleTask) : Task.ModuleTask :=
  value ⟦ Task.AttemptSeriesIDs := copy_slice (Task.AttemptSeriesIDs value) ⟧
        ⟦ Task.DependentTaskIDs := copy_slice (Task.DependentTaskIDs value) ⟧
        ⟦ Task.FrozenDependentIDs := copy_slice (Task.FrozenDependentIDs value) ⟧
        ⟦ Task.BlockingTaskIDs := copy_slice (Task.BlockingTaskIDs value) ⟧.

Definition cloneCommitValidation (value : CommitValidation) : CommitValidation :=
  value ⟦ Val.Project := cloneBoundaryProject (Val.Project value) ⟧
        ⟦ Val.Task := cloneBoundaryTask (Val.Task value) ⟧
        ⟦ Val.EvidenceSHA256 := copy_slice (Val.EvidenceSHA256 value) ⟧
        ⟦ Val.Claims := list_to_map (map_to_list (Val.Claims value)) ⟧
        ⟦ Val.Authorization := mkAuthorization
            (cloneCommitCapability (Capability (Val.Authorization value)))
            (Signature (Val.Authorization value)) ⟧.

(** ** Validation *)
Definition safeCommitValue (value : string) : bool :=
  (value ≠? "") && (len value <=? 256) && negb (has_control value).
Definition validCommitDigest (value : string) : bool := SpecRef_valid (mkSpecRef 1 value).

Definition capability_fields_bad (c : CommitCapability) (at_ : time) : bool :=
  negb (Cap.CapabilityVersion c =? CommitCapabilityVersion)
  || negb (safeCommitValue (Cap.TenantID c)) || negb (safeCommitValue (Cap.ProjectID c))
  || negb (safeCommitValue (Cap.PrincipalID c)) || negb (safeCommitValue (Cap.PrincipalType c))
  || negb (safeCommitValue (Cap.Role c)) || negb (safeCommitValue (Cap.Action c))
  || negb (safeCommitValue (Cap.LeaseID c)) || negb (safeCommitValue (Cap.PolicyVersion c))
  || negb (safeCommitValue (Cap.BudgetAccountID c)) || (Cap.ExpectedVersion c <? 0)
  || (Cap.ProjectVersion c <? 0) || (Cap.TaskVersion c <? 0) || (Cap.FencingToken c <? 1)
  || negb (validCommitDigest (Cap.ParameterDigest c)) || IsZero (Cap.IssuedAt c)
  || IsZero (Cap.ExpiresAt c) || IsZero at_.

Definition optional_ref_bad (r : SpecRef) : bool := (r ≠? zeroSpecRef) && negb (SpecRef_valid r).

Fixpoint evidence_bad (seen : gset string) (digests : list string) : bool :=
  match digests with
  | [] => false
  | digest :: digests =>
      if negb (validCommitDigest digest) || bool_decide (digest ∈ seen) then true
      else evidence_bad ({[digest]} ∪ seen) digests
  end.

(** [validateCommitCapability(capability, at) == nil]; every failure is
    [ErrCommitBoundary]. *)
Definition validateCommitCapability (c : CommitCapability) (at_ : time) : bool :=
  if capability_fields_bad c at_ then false else
  if (Cap.ApprovalRecordID c ≠? "") && negb (safeCommitValue (Cap.ApprovalRecordID c))
  then false else
  if (Cap.TaskID c ≟ "") && negb (Cap.TaskVersion c =? 0)
     || (Cap.TaskID c ≠? "") && negb (safeCommitValue (Cap.TaskID c)) then false else
  if optional_ref_bad (Cap.ModuleSpecRef c) || optional_ref_bad (Cap.GoalSpecRef c)
  then false else
  if Before at_ (Cap.IssuedAt c) || negb (Before at_ (Cap.ExpiresAt c))
     || negb (Before (Cap.IssuedAt c) (Cap.ExpiresAt c))
     || (maximumCommitCapabilityLifetime <? Sub (Cap.ExpiresAt c) (Cap.IssuedAt c))
  then false else
  if Nat.ltb 32 (length (Cap.EvidenceSHA256 c)) || Nat.ltb 32 (size (Cap.Claims c))
  then false else
  if evidence_bad ∅ (Cap.EvidenceSHA256 c) then false else
  forallb (fun '(claim, verified) => safeCommitValue claim && verified)
    (map_to_list (Cap.Claims c)).

(** The capability the facts of the commit call for. *)
Definition expected_capability (c : CommitCapability) (v : CommitValidation) : CommitCapability :=
  Cap.mk (Cap.CapabilityVersion c) (Val.TenantID v) (Val.ProjectID v) (Val.TaskID v)
    (Val.PrincipalID v) (Cap.PrincipalType c) (Cap.Role c) (Val.Action v) (Val.ExpectedVersion v)
    (Project.Version (Val.Project v)) (Task.Version (Val.Task v)) (Val.ParameterDigest v)
    (copy_slice (Val.EvidenceSHA256 v)) (cloneClaims (Val.Claims v)) (Val.ModuleSpecRef v)
    (Val.GoalSpecRef v) (Val.ApprovalRecordID v) (Cap.LeaseID c) (Cap.FencingToken c)
    (Cap.PolicyVersion c) (Cap.BudgetAccountID c) (Cap.IssuedAt c) (Cap.ExpiresAt c).

Definition capabilityMatchesValidation (c : CommitCapability) (v : CommitValidation) : bool :=
  if (0 <? Val.FencingToken v) && negb (Val.FencingToken v =? Cap.FencingToken c) then false
  else canonicalCommitCapability c ≟ canonicalCommitCapability (expected_capability c v).

(** ** The signed boundary *)
(** The interface [CommitSigner]: [Sign] fails with [None]. *)
Record CommitSigner : Type := mkSigner {
  Sign : string -> option string;
  Verify : string -> string -> bool
}.
(** The interfaces [CommitRevalidator] and [CommitBoundary]. *)
Abbreviation CommitRevalidator := (CommitCapability -> bool).
Abbreviation CommitBoundary := (CommitValidation -> bool).

Record SignedCommitBoundary : Type := mkBoundary {
  signer : CommitSigner;
  revalidator : CommitRevalidator
}.

Definition NewSignedCommitBoundary (s : option CommitSigner) (r : option CommitRevalidator)
    : option SignedCommitBoundary :=
  match s, r with Some s, Some r => Some (mkBoundary s r) | _, _ => None end.

(** [unavailableBoundary.Validate]. *)
Definition unavailableBoundary : CommitBoundary := fun _ => false.

Section Signed.
Context (json_Marshal : CommitCapability -> option string).

(** [SignedCommitBoundary.Validate] on a boundary and a context that are not
    nil. *)
Definition Validate (b : SignedCommitBoundary) (v : CommitValidation) : bool :=
  let capability := Capability (Val.Authorization v) in
  let signature := Signature (Val.Authorization v) in
  if (signature ≟ "") || negb (validateCommitCapability capability (Val.CommitAt v))
     || negb (capabilityMatchesValidation capability v) then false else
  match json_Marshal capability with
  | None => false
  | Some payload =>
      if negb (Verify (signer b) payload signature) then false
      else revalidator b (cloneCommitCapability capability)
  end.

Definition SignCommitCapability (capability : CommitCapability) (s : option CommitSigner)
    : option CommitAuthorization :=
  match s with
  | None => None
  | Some s =>
      if negb (validateCommitCapability capability (Cap.IssuedAt capability)) then None else
      let capability := canonicalCommitCapability capability in
      payload ← json_Marshal capability;
      signature ← Sign s payload;
      if signature ≟ "" then None else Some (mkAuthorization capability signature)
  end.
End Signed.
End Capability.
