(* ===== verification/CapabilityProps.v ===== *)
(** The signed commit boundary accepts exactly the commits a live, signed and
    revalidated capability was issued for, and what the trusted signer issues
    is accepted for the commit it describes. *)

From S2P Require Import Prelude GoLib Trace Contracts Task Project Capability.

Module CapabilityProps.
Import Capability.

(** ** Canonical forms *)
Lemma sort_strings_Permutation l l' :
  sort_slice String.ltb l = sort_slice String.ltb l' <-> l ≡ₚ l'.
Proof.
  split; intros H.
  - by rewrite <- (sort_slice_Permutation String.ltb l), H, sort_slice_Permutation.
  - assert (Hs : forall k, StronglySorted (not_after String.ltb) (sort_slice String.ltb k)).
    { intros k. apply sort_slice_StronglySorted; [apply string_ltb_asym|apply string_ltb_negtrans]. }
    apply (StronglySorted_unique_strong (not_after String.ltb)); [|apply Hs..|].
    + intros x y _ _ Hxy Hyx. unfold not_after in *.
      destruct (string_ltb_total x y) as [Hlt|[->|Hlt]]; [congruence|done|congruence].
    + by rewrite !sort_slice_Permutation.
Qed.

Lemma sort_strings_idem l : sort_slice String.ltb (sort_slice String.ltb l) = sort_slice String.ltb l.
Proof. apply sort_strings_Permutation, sort_slice_Permutation. Qed.

Lemma cloneClaims_id claims : cloneClaims claims = claims.
Proof.
  unfold cloneClaims. destruct (Nat.eqb_spec (size claims) 0) as [H|H].
  - by apply map_size_empty_inv in H.
  - apply list_to_map_to_list.
Qed.

Lemma canonical_eq c d :
  canonicalCommitCapability c = canonicalCommitCapability d <->
  Cap.EvidenceSHA256 c ≡ₚ Cap.EvidenceSHA256 d /\
  c ⟦ Cap.EvidenceSHA256 := [] ⟧ = d ⟦ Cap.EvidenceSHA256 := [] ⟧.
Proof.
  unfold canonicalCommitCapability. rewrite !copy_slice_id, !cloneClaims_id.
  rewrite <- sort_strings_Permutation. destruct c, d. cbn. split.
  - intros [=]. subst. done.
  - intros [H [=]]. subst. by rewrite H.
Qed.

(** ** What a capability says of a commit *)
Record authorises (c : CommitCapability) (v : CommitValidation) : Prop := {
  auth_scope : Cap.TenantID c = Val.TenantID v /\ Cap.ProjectID c = Val.ProjectID v /\
    Cap.TaskID c = Val.TaskID v;
  auth_who : Cap.PrincipalID c = Val.PrincipalID v;
  auth_what : Cap.Action c = Val.Action v /\ Cap.ParameterDigest c = Val.ParameterDigest v;
  auth_versions : Cap.ExpectedVersion c = Val.ExpectedVersion v /\
    Cap.ProjectVersion c = Project.Version (Val.Project v) /\
    Cap.TaskVersion c = Task.Version (Val.Task v);
  auth_evidence : Cap.EvidenceSHA256 c ≡ₚ Val.EvidenceSHA256 v;
  auth_claims : Cap.Claims c = Val.Claims v;
  auth_refs : Cap.ModuleSpecRef c = Val.ModuleSpecRef v /\ Cap.GoalSpecRef c = Val.GoalSpecRef v;
  auth_approval : Cap.ApprovalRecordID c = Val.ApprovalRecordID v;
  auth_fence : 0 < Val.FencingToken v -> Cap.FencingToken c = Val.FencingToken v
}.

Lemma matches_authorises c v : capabilityMatchesValidation c v = true <-> authorises c v.
Proof.
  unfold capabilityMatchesValidation.
  assert (Hc : canonicalCommitCapability c = canonicalCommitCapability (expected_capability c v) <->
    Cap.EvidenceSHA256 c ≡ₚ Val.EvidenceSHA256 v /\
    c ⟦ Cap.EvidenceSHA256 := [] ⟧ = (expected_capability c v) ⟦ Cap.EvidenceSHA256 := [] ⟧).
  { rewrite canonical_eq. unfold expected_capability. done. }
  unfold expected_capability in Hc. rewrite cloneClaims_id in Hc. split.
  - intros H. destruct (_ && _) eqn:G in H; [done|]. apply bool_decide_eq_true in H.
    unfold expected_capability in H. rewrite cloneClaims_id in H. apply Hc in H as [He H].
    destruct c. cbn in *. injection H; intros; subst. split; try done. cbn. intros Hf.
    apply andb_false_iff in G as [G|G]; go_bool; lia.
  - intros [(? & ? & ?) ? (? & ?) (? & ? & ?) ? ? (? & ?) ? Hf].
    destruct (_ && _) eqn:G.
    { go_bool. rewrite Hf in * by done. done. }
    apply bool_decide_eq_true. unfold expected_capability. rewrite cloneClaims_id. apply Hc.
    split; [done|]. destruct c. cbn in *. by subst.
Qed.

(** ** Live capabilities *)
(** A value that is safe to sign: not empty, at most 256 bytes, and without NUL,
    line feed and carriage return. *)
Definition safe (value : string) : Prop :=
  value <> "" /\ (length (bytes value) <= 256)%nat /\
  Forall (fun c => byte_of c <> 0 /\ byte_of c <> 10 /\ byte_of c <> 13) (bytes value).
(** A SHA-256 digest: its name and 64 hexadecimal digits in lower case. *)
Definition sha256_digest (value : string) : Prop :=
  exists hex, bytes value = bytes "sha256:" ++ hex /\ length hex = 64%nat /\
    Forall (fun c => 48 <= byte_of c <= 57 \/ 97 <= byte_of c <= 102) hex.
(** A reference to a specification, or none. *)
Definition reference (r : SpecRef) : Prop :=
  r = zeroSpecRef \/ 1 <= RefVersion r /\ sha256_digest (RefSHA256 r).

(** A capability that is live at a time.  Its identifiers are safe, its numbers
    in range and its references, evidence and claims well formed; it was issued
    by then, has not expired, and expires at most five minutes after it was
    issued. *)
Record live (c : CommitCapability) (at_ : time) : Prop := {
  live_version : Cap.CapabilityVersion c = 1;
  live_identifiers : Forall safe [Cap.TenantID c; Cap.ProjectID c; Cap.PrincipalID c; Cap.PrincipalType c;
    Cap.Role c; Cap.Action c; Cap.LeaseID c; Cap.PolicyVersion c; Cap.BudgetAccountID c];
  live_optional : (Cap.ApprovalRecordID c = "" \/ safe (Cap.ApprovalRecordID c)) /\
    (Cap.TaskID c = "" /\ Cap.TaskVersion c = 0 \/ safe (Cap.TaskID c));
  live_numbers : 0 <= Cap.ExpectedVersion c /\ 0 <= Cap.ProjectVersion c /\ 0 <= Cap.TaskVersion c /\
    1 <= Cap.FencingToken c;
  live_references : reference (Cap.ModuleSpecRef c) /\ reference (Cap.GoalSpecRef c);
  live_times : Cap.IssuedAt c <> 0 /\ Cap.ExpiresAt c <> 0 /\ at_ <> 0;
  live_window : Cap.IssuedAt c <= at_ < Cap.ExpiresAt c;
  live_short : Cap.ExpiresAt c - Cap.IssuedAt c <= 5 * Minute;
  live_digest : sha256_digest (Cap.ParameterDigest c);
  live_evidence : (length (Cap.EvidenceSHA256 c) <= 32)%nat /\ NoDup (Cap.EvidenceSHA256 c) /\
    Forall sha256_digest (Cap.EvidenceSHA256 c);
  live_claims : (size (Cap.Claims c) <= 32)%nat /\
    forall name verified, Cap.Claims c !! name = Some verified -> safe name /\ verified = true
}.

Lemma safe_iff value : safeCommitValue value = true <-> safe value.
Proof.
  unfold safeCommitValue, safe, has_control, len. rewrite Trace.length_bytes, !andb_true_iff, !negb_true_iff.
  rewrite bool_decide_eq_false, Z.leb_le.
  assert (Hc : existsb (fun c => byte_is 13 c || byte_is 10 c || byte_is 0 c) (bytes value) = false <->
    Forall (fun c => byte_of c <> 0 /\ byte_of c <> 10 /\ byte_of c <> 13) (bytes value)).
  { induction (bytes value) as [|c l IH]; cbn; [by split|]. rewrite orb_false_iff, Forall_cons, IH.
    unfold byte_is. rewrite !orb_false_iff, !Z.eqb_neq. tauto. }
  rewrite Hc. split; intros; split_and!; try tauto; lia.
Qed.

Lemma digest_iff value : validCommitDigest value = true <-> sha256_digest value.
Proof.
  unfold validCommitDigest, SpecRef_valid, SpecRef_Validate, validateDigest, digestPattern. cbn [RefVersion RefSHA256].
  cbn [Z.ltb Z.compare]. rewrite <- Trace.length_bytes.
  assert (Hp : HasPrefix value "sha256:" && Nat.eqb (length (bytes value)) 71 && forallb lower_hex (drop 7 (bytes value)) = true
    <-> sha256_digest value).
  { rewrite !andb_true_iff, Nat.eqb_eq, forallb_forall. unfold HasPrefix, sha256_digest. split.
    - intros [[Hpre Hlen] Hall]. apply prefix_app in Hpre as [r Hr]. exists r. rewrite Hr in *.
      split; [done|]. rewrite length_app in Hlen. change (length (bytes "sha256:")) with 7%nat in Hlen.
      split; [lia|]. change (drop 7 (bytes "sha256:" ++ r)) with r in Hall. apply Forall_forall. intros c Hc%list_elem_of_In.
      specialize (Hall c Hc). unfold lower_hex, byte_in in Hall. lia.
    - intros (hex & -> & Hlen & Hall). split_and!.
      + apply prefix_app. by exists hex.
      + rewrite length_app, Hlen. done.
      + change (drop 7 (bytes "sha256:" ++ hex)) with hex. intros c Hc%list_elem_of_In. rewrite Forall_forall in Hall.
        specialize (Hall c Hc). unfold lower_hex, byte_in. lia. }
  rewrite <- Hp. by destruct (_ && _).
Qed.

Lemma reference_iff r : optional_ref_bad r = false <-> reference r.
Proof.
  unfold optional_ref_bad, reference. rewrite <- digest_iff. unfold validCommitDigest, SpecRef_valid, SpecRef_Validate.
  cbn [RefVersion RefSHA256]. destruct (decide (r = zeroSpecRef)) as [->|Hne].
  { rewrite bool_decide_eq_true_2 by done. cbn. tauto. }
  rewrite bool_decide_eq_false_2 by done. cbn [negb andb]. rewrite negb_false_iff.
  destruct (Z.ltb_spec (RefVersion r) 1); cbn [is_nil]; [|change (1 <? 1) with false; cbv iota].
  - split; [done|]. intros [?|[? _]]; [done|lia].
  - split; [intros ?; right; split; [lia|done]|intros [?|[_ ?]]; done].
Qed.

Lemma evidence_bad_spec digests : forall seen,
  evidence_bad seen digests = false <->
  (forall d, d ∈ digests -> validCommitDigest d = true /\ d ∉ seen) /\ NoDup digests.
Proof.
  induction digests as [|d digests IH]; intros seen; cbn [evidence_bad].
  { split; [intros _|done]. split; [by intros d Hd%not_elem_of_nil|constructor]. }
  destruct (_ || _) eqn:G; split.
  - done.
  - intros [Hall _]. destruct (Hall d) as [Hv Hs]; [by left|].
    rewrite Hv, (bool_decide_eq_false_2 _ Hs) in G. done.
  - intros [Hall Hnd]%IH. go_bool. split.
    + intros x [->|Hx]%elem_of_cons; [done|]. destruct (Hall x Hx). split; [done|set_solver].
    + constructor; [|done]. intros Hd. destruct (Hall d Hd). set_solver.
  - intros [Hall [Hnot Hnd]%NoDup_cons]. apply IH. split; [|done]. intros x Hx.
    destruct (Hall x) as [Hv Hs]; [by right|]. split; [done|]. set_solver.
Qed.

Lemma fields_iff c at_ : capability_fields_bad c at_ = false <->
  Cap.CapabilityVersion c = 1 /\
  Forall safe [Cap.TenantID c; Cap.ProjectID c; Cap.PrincipalID c; Cap.PrincipalType c; Cap.Role c;
    Cap.Action c; Cap.LeaseID c; Cap.PolicyVersion c; Cap.BudgetAccountID c] /\
  (0 <= Cap.ExpectedVersion c /\ 0 <= Cap.ProjectVersion c /\ 0 <= Cap.TaskVersion c /\ 1 <= Cap.FencingToken c) /\
  sha256_digest (Cap.ParameterDigest c) /\ (Cap.IssuedAt c <> 0 /\ Cap.ExpiresAt c <> 0 /\ at_ <> 0).
Proof.
  unfold capability_fields_bad, IsZero, CommitCapabilityVersion.
  rewrite !orb_false_iff, !negb_false_iff, !safe_iff, digest_iff, !Z.ltb_ge, !Z.eqb_neq, Z.eqb_eq.
  rewrite !Forall_cons, Forall_nil. tauto.
Qed.

Lemma optional_iff c :
  (Cap.ApprovalRecordID c ≠? "") && negb (safeCommitValue (Cap.ApprovalRecordID c)) = false /\
  (Cap.TaskID c ≟ "") && negb (Cap.TaskVersion c =? 0)
    || (Cap.TaskID c ≠? "") && negb (safeCommitValue (Cap.TaskID c)) = false <->
  (Cap.ApprovalRecordID c = "" \/ safe (Cap.ApprovalRecordID c)) /\
  (Cap.TaskID c = "" /\ Cap.TaskVersion c = 0 \/ safe (Cap.TaskID c)).
Proof.
  assert (Hempty : ~ safe "") by (by intros [? _]). rewrite <- !safe_iff in *.
  destruct (bool_decide_reflect (Cap.ApprovalRecordID c = "")) as [->|Ha],
    (bool_decide_reflect (Cap.TaskID c = "")) as [->|Ht]; cbn [negb andb orb];
    rewrite ?orb_false_r, ?negb_false_iff, ?Z.eqb_eq; tauto.
Qed.

Lemma window_iff c at_ :
  Before at_ (Cap.IssuedAt c) || negb (Before at_ (Cap.ExpiresAt c))
    || negb (Before (Cap.IssuedAt c) (Cap.ExpiresAt c))
    || (maximumCommitCapabilityLifetime <? Sub (Cap.ExpiresAt c) (Cap.IssuedAt c)) = false <->
  Cap.IssuedAt c <= at_ < Cap.ExpiresAt c /\ Cap.ExpiresAt c - Cap.IssuedAt c <= 5 * Minute.
Proof.
  unfold Before, maximumCommitCapabilityLifetime, Sub, two63, Minute, Second. split; intros H; lia.
Qed.

Lemma evidence_iff l : evidence_bad ∅ l = false <-> NoDup l /\ Forall sha256_digest l.
Proof.
  rewrite evidence_bad_spec, Forall_forall. split.
  - intros [Hall ?]. split; [done|]. intros d Hd. by apply digest_iff, Hall.
  - intros [? Hall]. split; [|done]. intros d Hd. split; [by apply digest_iff, Hall|set_solver].
Qed.

Lemma claims_iff (claims : gmap string bool) :
  forallb (fun '(claim, verified) => safeCommitValue claim && verified) (map_to_list claims) = true <->
  forall name verified, claims !! name = Some verified -> safe name /\ verified = true.
Proof.
  rewrite forallb_forall. split.
  - intros H name b Hk%elem_of_map_to_list. specialize (H (name, b) (proj1 (list_elem_of_In _ _) Hk)).
    apply andb_true_iff in H as [H ->]. by apply safe_iff in H.
  - intros H [name b] Hin%list_elem_of_In%elem_of_map_to_list. destruct (H _ _ Hin) as [Hs ->].
    apply safe_iff in Hs. by rewrite Hs.
Qed.

(** The code's validation accepts the live capabilities, and no others. *)
Lemma validate_iff_live c at_ : validateCommitCapability c at_ = true <-> live c at_.
Proof.
  unfold validateCommitCapability. split.
  - intros H. guards H. apply fields_iff in G as (? & ? & ? & ? & ?). apply orb_false_iff in G2 as [R1 R2], G4 as [L1 L2].
    destruct (proj1 (optional_iff c) (conj G0 G1)). apply window_iff in G3 as [? ?]. apply evidence_iff in G5.
    apply reference_iff in R1, R2. apply Nat.ltb_ge in L1, L2.
    split; try done. split; [done|]. by apply claims_iff.
  - intros []. rewrite (proj2 (fields_iff c at_)) by done.
    destruct (proj2 (optional_iff c) live_optional0) as [-> ->].
    destruct live_references0 as [R1%reference_iff R2%reference_iff]. rewrite R1, R2. cbn [orb].
    rewrite (proj2 (window_iff c at_)) by done. destruct live_evidence0 as [L1 Hev], live_claims0 as [L2 Hcl].
    rewrite (proj2 (Nat.ltb_ge _ _) L1), (proj2 (Nat.ltb_ge _ _) L2). cbn [orb].
    rewrite (proj2 (evidence_iff _) Hev). by apply claims_iff.
Qed.
(** The canonical form says the same. *)
Lemma canonical_authorises c v : authorises c v -> authorises (canonicalCommitCapability c) v.
Proof.
  intros []. unfold canonicalCommitCapability. rewrite cloneClaims_id.
  split; cbn; try done. by rewrite sort_slice_Permutation.
Qed.

Lemma evidence_bad_Permutation l l' :
  l ≡ₚ l' -> evidence_bad ∅ l = false -> evidence_bad ∅ l' = false.
Proof.
  intros Hp [Hall Hnd]%evidence_bad_spec. apply evidence_bad_spec. split; [|by rewrite <- Hp].
  intros d Hd. apply Hall. by rewrite Hp.
Qed.

Lemma canonical_validates c at_ :
  validateCommitCapability c (Cap.IssuedAt c) = true -> Cap.IssuedAt c <= at_ < Cap.ExpiresAt c ->
  0 < at_ -> validateCommitCapability (canonicalCommitCapability c) at_ = true.
Proof.
  intros H Hat Hpos. unfold validateCommitCapability in *. guards H.
  change (capability_fields_bad (canonicalCommitCapability c) at_)
    with (capability_fields_bad c at_).
  replace (capability_fields_bad c at_) with false.
  2: { unfold capability_fields_bad in *. apply orb_false_iff in G as [-> _]. unfold IsZero. cbn. lia. }
  set (d := canonicalCommitCapability c).
  change (Cap.ApprovalRecordID d) with (Cap.ApprovalRecordID c).
  change (Cap.TaskID d) with (Cap.TaskID c). change (Cap.TaskVersion d) with (Cap.TaskVersion c).
  change (Cap.ModuleSpecRef d) with (Cap.ModuleSpecRef c).
  change (Cap.GoalSpecRef d) with (Cap.GoalSpecRef c).
  change (Cap.IssuedAt d) with (Cap.IssuedAt c). change (Cap.ExpiresAt d) with (Cap.ExpiresAt c).
  change (Cap.EvidenceSHA256 d) with (sort_slice String.ltb (Cap.EvidenceSHA256 c)).
  change (Cap.Claims d) with (cloneClaims (Cap.Claims c)).
  rewrite cloneClaims_id, G0, G1, G2.
  assert (Hw : Before at_ (Cap.IssuedAt c) || negb (Before at_ (Cap.ExpiresAt c)) = false)
    by (unfold Before; lia).
  rewrite Hw. apply orb_false_iff in G3 as [G3 ->]. apply orb_false_iff in G3 as [_ ->].
  cbn [orb]. rewrite (Permutation_length (sort_slice_Permutation _ _)), G4.
  by rewrite (evidence_bad_Permutation _ _ (symmetry (sort_slice_Permutation _ _)) G5).
Qed.

Section Signed.
Context (json_Marshal : CommitCapability -> option string).

Lemma clone_capability_id c : cloneCommitCapability c = c.
Proof. unfold cloneCommitCapability. rewrite cloneClaims_id. by destruct c. Qed.

Lemma map_id_ext {A} (f : A -> A) l : (forall x, f x = x) -> map f l = l.
Proof. intros H. induction l as [|x l IH]; [done|]. cbn. by rewrite H, IH. Qed.
Lemma fmap_id_ext {A} (f : A -> A) (o : option A) : (forall x, f x = x) -> f <$> o = o.
Proof. intros H. destruct o; [|done]. cbn. by rewrite H. Qed.

Lemma clone_time_id (t : option time) : cloneTimePointer t = t.
Proof. by destruct t. Qed.

(** What the boundary is shown is what the handler stated. *)
Lemma clone_validation_id v : cloneCommitValidation v = v.
Proof.
  unfold cloneCommitValidation, cloneBoundaryProject, cloneBoundaryTask.
  rewrite clone_capability_id, !copy_slice_id, list_to_map_to_list.
  rewrite !fmap_id_ext by (intros []; cbn; by rewrite ?clone_time_id, ?copy_slice_id).
  rewrite map_id_ext by (intros []; cbn; by rewrite clone_time_id).
  destruct v as [? ? ? ? ? ? [] [] ? ? ? ? ? ? ? [] ?]. done.
Qed.

(** The capability a commit carries. *)
Definition cap_of (v : CommitValidation) : CommitCapability := Capability (Val.Authorization v).

Lemma boundary_iff b v :
  Validate json_Marshal b v = true <->
  Signature (Val.Authorization v) <> "" /\
  validateCommitCapability (cap_of v) (Val.CommitAt v) = true /\ authorises (cap_of v) v /\
  (exists payload, json_Marshal (cap_of v) = Some payload /\
     Verify (signer b) payload (Signature (Val.Authorization v)) = true) /\
  revalidator b (cap_of v) = true.
Proof.
  unfold Validate. fold (cap_of v). rewrite clone_capability_id. split.
  - intros H. guards H. go_bool. destruct (json_Marshal (cap_of v)) as [payload|]; [|done]. guards H.
    go_bool. split_and!; eauto. by apply matches_authorises.
  - intros (Hs & Hv & Ha & (payload & -> & Hp) & Hr). apply matches_authorises in Ha.
    by rewrite bool_decide_eq_false_2, Hv, Ha, Hp.
Qed.

Lemma boundary_live b v :
  Validate json_Marshal b v = true <->
  Signature (Val.Authorization v) <> "" /\ live (cap_of v) (Val.CommitAt v) /\ authorises (cap_of v) v /\
  (exists payload, json_Marshal (cap_of v) = Some payload /\
     Verify (signer b) payload (Signature (Val.Authorization v)) = true) /\
  revalidator b (cap_of v) = true.
Proof. rewrite boundary_iff, validate_iff_live. done. Qed.

(** C36: The signed boundary lets a commit through exactly when its capability
    is live at the commit's time ([live]), describes this very commit - tenant,
    project, task, principal, action, versions, parameters, evidence, claims,
    references, approval and fencing token ([authorises]) - carries a signature
    that verifies over its encoding, and is confirmed by the revalidator. *)
Theorem boundary_exact b v :
  Validate json_Marshal b v = true <->
  Signature (Val.Authorization v) <> "" /\ live (cap_of v) (Val.CommitAt v) /\ authorises (cap_of v) v /\
  (exists payload, json_Marshal (cap_of v) = Some payload /\
     Verify (signer b) payload (Signature (Val.Authorization v)) = true) /\
  revalidator b (cap_of v) = true.
Proof. apply boundary_live. Qed.

(** What the trusted signer issues is accepted: a capability it signs
    passes the boundary for any commit it describes, at any time before it
    expires, as long as the signer verifies its own signatures and the
    revalidator still agrees; and the signer issues nothing for a capability
    the boundary would refuse at its issue time. *)
Theorem signed_capability_accepted c s authorization b v :
  (forall payload signature, Sign s payload = Some signature -> Verify s payload signature = true) ->
  SignCommitCapability json_Marshal c (Some s) = Some authorization ->
  signer b = s -> Val.Authorization v = authorization -> authorises c v ->
  Cap.IssuedAt c <= Val.CommitAt v < Cap.ExpiresAt c -> 0 < Val.CommitAt v ->
  revalidator b (Capability authorization) = true ->
  Validate json_Marshal b v = true.
Proof.
  intros Hsign Hs Hb Hv Ha Hat Hpos Hr. unfold SignCommitCapability in Hs.
  destruct (validateCommitCapability c (Cap.IssuedAt c)) eqn:Hc; [|done]. cbn [negb] in Hs.
  destruct (json_Marshal _) as [payload|] eqn:Hp; [|done]. cbn in Hs.
  destruct (Sign s payload) as [signature|] eqn:Hsig; [|done]. cbn in Hs.
  case_bool_decide as Hne; [done|]. injection Hs as <-.
  apply boundary_iff. unfold cap_of. rewrite Hv. cbn [Capability Signature]. split_and!; [done| | | |done].
  - by eapply canonical_validates.
  - by apply canonical_authorises.
  - exists payload. rewrite Hb. auto.
Qed.
End Signed.

(** ** Example: a capability for one task commit *)
Definition sample_digest : string :=
  "sha256:0123456789abcdef0123456789abcdef0123456789abcdef0123456789abcdef".
Definition sample_capability (issued expires : time) (claims : gmap string bool) : CommitCapability :=
  Cap.mk 1 "tn" "p" "t" "user" "SERVICE" "SERVICE" "LLM_SUCCESS" 3 2 3 sample_digest [sample_digest]
    claims zeroSpecRef zeroSpecRef "" "lease" 7 "v1" "budget" issued expires.
Definition sample_marshal (c : CommitCapability) : option string :=
  Some (Cap.TenantID c +:+ "/" +:+ Cap.ProjectID c +:+ "/" +:+ Cap.TaskID c +:+ "/" +:+ Cap.Action c).
Definition sample_signer : CommitSigner :=
  mkSigner (fun payload => Some ("sig:" +:+ payload))
    (fun payload signature => signature ≟ ("sig:" +:+ payload)).
Definition sample_claims : gmap string bool := {["fresh_auditor" := true]}.
Definition sample_validation (action : string) (at_ : time) (auth : CommitAuthorization) : CommitValidation :=
  Val.mk "tn" "p" "t" "user" action 3
    (Project.zeroProject ⟦ Project.Version := 2 ⟧) (Task.zeroModuleTask ⟦ Task.Version := 3 ⟧)
    sample_digest [sample_digest] sample_claims zeroSpecRef zeroSpecRef 7 "" auth at_.
Definition sample_signed : CommitAuthorization :=
  mkAuthorization (sample_capability 100 200 sample_claims) "sig:tn/p/t/LLM_SUCCESS".
Definition sample_boundary : SignedCommitBoundary := mkBoundary sample_signer (fun _ => true).

Example capability_ex :
  SignCommitCapability sample_marshal (sample_capability 100 200 sample_claims) (Some sample_signer)
  = Some sample_signed /\
  SignCommitCapability sample_marshal (sample_capability 100 (100 + 6 * Minute) sample_claims)
    (Some sample_signer) = None /\
  Validate sample_marshal sample_boundary (sample_validation "LLM_SUCCESS" 200 sample_signed) = false /\
  Validate sample_marshal sample_boundary (sample_validation "LLM_FAILURE" 150 sample_signed) = false.
Proof. vm_compute. auto. Qed.

Lemma signed_capability_accepted_witness :
  Validate sample_marshal sample_boundary (sample_validation "LLM_SUCCESS" 150 sample_signed) = true.
Proof.
  apply (signed_capability_accepted sample_marshal (sample_capability 100 200 sample_claims)
    sample_signer sample_signed).
  - intros payload signature [= <-]. by apply bool_decide_eq_true.
  - vm_compute. reflexivity.
  - reflexivity.
  - reflexivity.
  - split; try done.
  - cbn. lia.
  - cbn. lia.
  - reflexivity.
Defined.
End CapabilityProps.
