(* ===== verification/Effects.v ===== *)
(** The effects of the orchestrator ([internal/orchestrator]).

    A handler is a program over its collaborators: the event store, the clock,
    the UUID generator, the commit boundary and the context.  Each call is a
    constructor with the rest of the handler as its continuation, so that other
    requests may run between two calls; execution without interference is
    [exec] below, interleaved execution is in [OrchestratorLogic.v]. *)

From S2P Require Import Prelude GoLib Errors EventStore Task Project Capability.

Module Effects.
Import EventStore Capability.

(** What a handler returns as an error.  [Panic] is the panic of [mustDigest],
    which ends the request. *)
Inductive orch_error : Type :=
| Wire (e : Error)
| Stored (e : store_error)
| ErrCommitBoundary
| ErrDecode (what : string)
| ErrEncode
| ErrUUID
| Panic.

Inductive prog (A : Type) : Type :=
| Ret (a : A)
| DoLookup (tenantID principalID key digest : string)
    (k : result (option TransactionResult) store_error -> prog A)
| DoLoad (tenantID aggregateType aggregateID : string)
    (k : result (option Projection) store_error -> prog A)
| DoList (tenantID projectID aggregateType : string)
    (k : result (list Projection) store_error -> prog A)
| DoListTenant (tenantID : string) (k : result (list Projection) store_error -> prog A)
| DoExecute (request : TransactionRequest) (k : result TransactionResult store_error -> prog A)
| DoClock (k : time -> prog A)
| DoUUID (k : option string -> prog A)
| DoValidate (v : CommitValidation) (k : bool -> prog A)
| DoCtxErr (k : bool -> prog A).
Arguments Ret {A} a.
Arguments DoLookup {A} tenantID principalID key digest k.
Arguments DoLoad {A} tenantID aggregateType aggregateID k.
Arguments DoList {A} tenantID projectID aggregateType k.
Arguments DoListTenant {A} tenantID k.
Arguments DoExecute {A} request k.
Arguments DoClock {A} k.
Arguments DoUUID {A} k.
Arguments DoValidate {A} v k.
Arguments DoCtxErr {A} k.

Fixpoint bind {A B} (p : prog A) (f : A -> prog B) : prog B :=
  match p with
  | Ret a => f a
  | DoLookup t p key d k => DoLookup t p key d (fun r => bind (k r) f)
  | DoLoad t ty i k => DoLoad t ty i (fun r => bind (k r) f)
  | DoList t p ty k => DoList t p ty (fun r => bind (k r) f)
  | DoListTenant t k => DoListTenant t (fun r => bind (k r) f)
  | DoExecute q k => DoExecute q (fun r => bind (k r) f)
  | DoClock k => DoClock (fun r => bind (k r) f)
  | DoUUID k => DoUUID (fun r => bind (k r) f)
  | DoValidate v k => DoValidate v (fun r => bind (k r) f)
  | DoCtxErr k => DoCtxErr (fun r => bind (k r) f)
  end.

(** ** Programs that may fail: the [if err != nil] of the code *)
Definition M (A : Type) : Type := prog (result A orch_error).

Definition ret {A} (a : A) : M A := Ret (Ok a).
Definition fail {A} (e : orch_error) : M A := Ret (Err e).
Definition mbind {A B} (m : M A) (f : A -> M B) : M B :=
  bind m (fun r => match r with Ok a => f a | Err e => Ret (Err e) end).
(** A pure step that may fail. *)
Definition lift {A E} (inj : E -> orch_error) (r : result A E) : M A :=
  Ret (match r with Ok a => Ok a | Err e => Err (inj e) end).
Definition some_or {A} (e : orch_error) (o : option A) : M A :=
  match o with Some a => ret a | None => fail e end.

Notation "x <~ m ;; k" := (mbind m (fun x => k))
  (at level 100, m at next level, right associativity) : go_scope.
Notation "'refuse' e 'when' c ;; k" := (if c then fail e else k)
  (at level 100, e at level 99, c at level 99, k at level 200,
   format "'refuse'  e  'when'  c  ;; '//' k") : go_scope.

(** ** The calls *)
Definition stored {A} (r : result A store_error) : result A orch_error :=
  match r with Ok a => Ok a | Err e => Err (Stored e) end.

Definition lookup_ (tenantID principalID key digest : string) : M (option TransactionResult) :=
  DoLookup tenantID principalID key digest (fun r => Ret (stored r)).
Definition load (tenantID aggregateType aggregateID : string) : M (option Projection) :=
  DoLoad tenantID aggregateType aggregateID (fun r => Ret (stored r)).
Definition list_projections (tenantID projectID aggregateType : string) : M (list Projection) :=
  DoList tenantID projectID aggregateType (fun r => Ret (stored r)).
Definition list_tenant (tenantID : string) : M (list Projection) :=
  DoListTenant tenantID (fun r => Ret (stored r)).
Definition execute (request : TransactionRequest) : M TransactionResult :=
  DoExecute request (fun r => Ret (stored r)).
Definition clock : M time := DoClock (fun t => Ret (Ok t)).
(** [newRecordUUIDv7]. *)
Definition newRecordUUIDv7 : M string :=
  DoUUID (fun o => Ret (match o with Some id => Ok id | None => Err ErrUUID end)).

(** ** Atomic execution on the in-memory store

    [uuid n] is the outcome of the [n]-th call of the generator, [now n] of the
    clock and [ctx_err n] of [ctx.Err()]; the boundary is a function of the
    facts.  The state is the store and the number of calls made so far. *)
Record env : Type := mkEnv {
  uuid : nat -> option string;
  now : nat -> time;
  ctx_err : nat -> bool;
  boundary : CommitBoundary
}.

Section Exec.
Context (jcs_Transform : string -> option string) (sha256_Sum256 : string -> list Z).
Context (e : env).

Fixpoint exec {A} (p : prog A) (n : nat) (s : MemoryStore) : MemoryStore * A :=
  match p with
  | Ret a => (s, a)
  | DoLookup t p key d k => exec (k (Lookup t p key d s)) (S n) s
  | DoLoad t ty i k => exec (k (Ok (Load t ty i s))) (S n) s
  | DoList t p ty k => exec (k (ListProjections t p ty s)) (S n) s
  | DoListTenant t k => exec (k (ListTenantProjections (Some None) t s)) (S n) s
  | DoExecute q k =>
      let '(s, r) := Execute jcs_Transform sha256_Sum256 q s in exec (k r) (S n) s
  | DoClock k => exec (k (now e n)) (S n) s
  | DoUUID k => exec (k (uuid e n)) (S n) s
  | DoValidate v k => exec (k (boundary e v)) (S n) s
  | DoCtxErr k => exec (k (ctx_err e n)) (S n) s
  end.
End Exec.
End Effects.
