(* ===== verification/Orchestrator.v ===== *)
(** The orchestrator's task commands ([internal/orchestrator]: [service.go],
    [trace.go], [core_summary.go], [boundary.go]; the digests of
    [internal/idempotency]): a command is decided on the task the event store
    holds, and committed with everything that follows from it in one
    transaction, after the commit boundary accepted its facts.

    [Codec] is [encoding/json] on the types used here: [None] is an error.  A
    Go function that returns a value beside an error returns the error here:
    callers read the value only when there is none. *)

From S2P Require Import Prelude GoLib Trace Json Errors Contracts Approval Task Dag Project Specs EventStore Capability Effects.

Module Orchestrator.
Import Effects EventStore.

#[export] Existing Instances Project.eta_Project Task.eta_ModuleTask Task.Cmd.eta_TaskCommand
  Project.Cmd.eta_ProjectCommand Approval.eta_ApprovalBinding Task.TaskCommandType_eq_dec
  Project.ProjectCommandType_eq_dec Specs.eta_tool Specs.eta_toolchain.

(** ** Data *)
Record TaskRequest : Type := mkTaskRequest {
  tr_TenantID : string;
  tr_ProjectID : string;
  tr_TaskID : string;
  tr_PrincipalID : string;
  tr_IdempotencyKey : string;
  tr_ExpectedVersion : Z;
  tr_Command : Task.TaskCommand;
  tr_Authorization : Capability.CommitAuthorization
}.

Record TaskOutcome : Type := mkTaskOutcome {
  to_Task : Task.ModuleTask;
  to_Events : list DomainEvent;
  to_Duplicate : bool
}.

(** [ProjectCommand] as the orchestrator sees it, with its goal specification. *)
Record ProjectRequest : Type := mkProjectRequest {
  pr_TenantID : string;
  pr_ProjectID : string;
  pr_PrincipalID : string;
  pr_IdempotencyKey : string;
  pr_ExpectedVersion : Z;
  pr_Command : Project.ProjectCommand;
  pr_GoalSpec : option Specs.GoalSpec;
  pr_Authorization : Capability.CommitAuthorization
}.

Record ProjectOutcome : Type := mkProjectOutcome {
  po_Project : Project.Project;
  po_Events : list DomainEvent;
  po_Duplicate : bool
}.

(** ** Plan requests ([plan.go]) *)
Record PlanTaskDefinition : Type := mkPlanTask {
  pt_ModuleID : string;
  pt_TaskID : string;
  pt_ModuleSpecRef : SpecRef;
  pt_AttemptSeriesID : string;
  pt_Retain : bool
}.
Record PlanningTaskDefinition : Type := mkPlanningTask {
  pl_ModuleID : string;
  pl_TaskID : string;
  pl_Retain : bool
}.
Record QueuePlanTasksRequest : Type := mkQueueRequest {
  qr_TenantID : string;
  qr_ProjectID : string;
  qr_PrincipalID : string;
  qr_IdempotencyKey : string;
  qr_ExpectedProjectVersion : Z;
  qr_GoalSpecRef : SpecRef;
  qr_PlanRef : SpecRef;
  qr_DAG : Dag.graph;
  qr_Tasks : list PlanningTaskDefinition;
  qr_Authorization : Capability.CommitAuthorization
}.
Record PublishPlanRequest : Type := mkPublishRequest {
  pp_TenantID : string;
  pp_ProjectID : string;
  pp_PrincipalID : string;
  pp_IdempotencyKey : string;
  pp_ExpectedProjectVersion : Z;
  pp_GoalSpecRef : SpecRef;
  pp_PlanRef : SpecRef;
  pp_DAG : Dag.graph;
  pp_Tasks : list PlanTaskDefinition;
  pp_Authorization : Capability.CommitAuthorization
}.

(** [GoalSpecProjection] ([goal.go]); [Revision] is not encoded. *)
Record GoalSpecProjection : Type := mkGoalSpecProjection {
  gp_TenantID : string;
  gp_ProjectID : string;
  gp_GoalSpecID : string;
  gp_RecordID : string;
  gp_Spec : Specs.GoalSpec;
  gp_Revision : Z
}.

(** ** Encodings *)
Class Codec : Type := {
  marshal_task : Task.ModuleTask -> option string;
  unmarshal_task : string -> option Task.ModuleTask;
  marshal_project : Project.Project -> option string;
  unmarshal_project : string -> option Project.Project;
  (** The payload of a transition: tenant, project, version, projection. *)
  marshal_payload : string -> string -> Z -> string -> option string;
  (** The digested commands, each beside the expected version. *)
  marshal_task_command : Z -> Task.TaskCommand -> option string;
  marshal_project_command : Z -> Project.ProjectCommand -> option Specs.GoalSpec -> option string;
  marshal_queue_request : Z -> QueuePlanTasksRequest -> option string;
  marshal_publish_request : Z -> PublishPlanRequest -> option string;
  (** The results of the plan operations. *)
  marshal_tasks : list Task.ModuleTask -> option string;
  unmarshal_tasks : string -> option (list Task.ModuleTask);
  marshal_published : Project.Project -> list Task.ModuleTask -> option string;
  unmarshal_published : string -> option (Project.Project * list Task.ModuleTask);
  marshal_summary : Project.CoreSummary -> option string;
  marshal_message : Project.GoalMessage -> option string;
  unmarshal_message : string -> option Project.GoalMessage;
  marshal_goal_projection : GoalSpecProjection -> option string;
  unmarshal_goal_projection : string -> option GoalSpecProjection;
  marshal_goal_spec : Specs.GoalSpec -> option string;
  unmarshal_goal_spec : string -> option Specs.GoalSpec;
  marshal_goal_content : Specs.GoalContent -> option string;
  (** An object as its members; [Some None] is [null]. *)
  unmarshal_object : string -> option (option (gmap string string));
  marshal_object : gmap string string -> option string
}.

Definition wire (code : Code) (scope : string) : orch_error := Wire (scoped code scope).
Definition bare (code : Code) : orch_error := Wire (New code "" ∅).

(** ** The service, and what its methods share *)
Record Service : Type := mkService {
  coreOnly : bool;
  (** The store implements [eventing.ProjectionList] and [ProjectionCatalog]. *)
  is_list : bool;
  is_catalog : bool;
  (** The trace context of the request, if it has one. *)
  ctx_trace : option Trace.TraceContext
}.

Section Service.
Context (jcs_Transform : string -> option string) (sha256_Sum256 : string -> list Z).
Context `{codec : Codec}.
Context (s : Service).
Notation Digest := (CanonicalJson.Digest jcs_Transform sha256_Sum256).

(** [mustDigest] panics when the value has no canonical form. *)
Definition mustDigest (value : string) : M string := some_or Panic (Digest value).

(** [canonicaljson.DigestObjectWithoutFields]. *)
Definition DigestObjectWithoutFields (input : string) (excluded : list string) : option string :=
  canonical ← CanonicalJson.Canonicalize jcs_Transform input;
  members ← unmarshal_object canonical;
  object ← members;
  without ← marshal_object (foldl (fun object field => base.delete field object) object excluded);
  Digest without.

Definition hex_sum (input : string) : string :=
  of_bytes (Trace.hex_encode (sha256_Sum256 input)).
Definition stableID (prefix input : string) : string :=
  prefix +:+ "_" +:+ of_bytes (Trace.hex_encode (take 16 (sha256_Sum256 input))).

(** [idempotency.ScopeKey]. *)
Definition ScopeKey (principalID idempotencyKey : string) : string :=
  principalID +:+ nul +:+ idempotencyKey.
(** [commandDigest] of the marshalled command: [idempotency.RequestDigest]. *)
Definition commandDigest (value : option string) : M string :=
  value <~ some_or ErrEncode value ;;
  some_or ErrEncode (Digest value).

Definition decodeProject (value : string) : M Project.Project :=
  some_or (ErrDecode "project projection") (unmarshal_project value).
Definition decodeTask (value : string) : M Task.ModuleTask :=
  some_or (ErrDecode "task projection") (unmarshal_task value).

Definition validateRequest (tenantID projectID principalID key : string) (expectedVersion : Z)
    : M unit :=
  refuse wire CodeInvalidArgument "orchestrator command" when
    (tenantID ≟ "") || (projectID ≟ "") || (principalID ≟ "") || (key ≟ "")
    || (expectedVersion <? 0) ;;
  ret tt.

Definition versionConflict (expected actual : Z) : orch_error :=
  Wire (New CodeStateVersionConflict ""
    {["expectedVersion" := AnyInt expected; "actualVersion" := AnyInt actual]}).

Fixpoint contains (values : list string) (wanted : string) : bool :=
  match values with
  | [] => false
  | value :: values => if value ≟ wanted then true else contains values wanted
  end.

(** *** Traces ([trace.go]) *)
Definition slice (from to : nat) (value : string) : string := Trace.slice from to value.
Definition all_zero (value : string) : bool := forallb (byte_is 48) (bytes value).

Definition fallbackTraceParent (requestDigest : string) : string :=
  let value := TrimPrefix requestDigest "sha256:" in
  let value :=
    if (len value <? 48) || negb (forallb lower_hex (bytes (slice 0 48 value)))
    then hex_sum requestDigest else value in
  let value :=
    if all_zero (slice 0 32 value) || all_zero (slice 32 48 value)
    then hex_sum ("aor-trace" +:+ nul +:+ requestDigest) else value in
  "00-" +:+ slice 0 32 value +:+ "-" +:+ slice 32 48 value +:+ "-00".

Definition applyEventTrace (requestDigest : string) (events : list DomainEvent) : list DomainEvent :=
  let '(parent, state) :=
    match ctx_trace s with
    | Some trace =>
        match Trace.TraceParent trace with
        | Ok propagated => (propagated, Trace.TraceState trace)
        | Err _ => (fallbackTraceParent requestDigest, "")
        end
    | None => (fallbackTraceParent requestDigest, "")
    end in
  map (fun event => event ⟦ e_Traceparent := parent ⟧ ⟦ e_Tracestate := state ⟧) events.

(** *** Transitions *)
Definition newEvent (tenantID projectID aggregateType aggregateID eventType : string) (version : Z)
    (at_ : time) (payload requestDigest : string) : M DomainEvent :=
  eventID <~ newRecordUUIDv7 ;;
  digest <~ mustDigest payload ;;
  ret (mkDomainEvent eventID tenantID projectID aggregateType aggregateID version eventType payload
         digest at_ (stableID "corr" requestDigest) "" (fallbackTraceParent requestDigest) ""
         "" "" "" "" "" "").

(** The update, its event and the encoded projection. *)
Definition encoded : Type := ProjectionUpdate * DomainEvent * string.

Definition encodeTaskTransition (tenantID projectID taskID : string) (expectedVersion : Z)
    (transition : Task.TaskEvent) (requestDigest : string) : M encoded :=
  result <~ some_or ErrEncode (marshal_task (Task.Projection transition)) ;;
  payload <~ some_or ErrEncode
    (marshal_payload tenantID projectID (Task.AggregateVersion transition) result) ;;
  event <~ newEvent tenantID projectID "task" taskID (Task.EventType transition)
    (Task.AggregateVersion transition) (Task.OccurredAt transition) payload requestDigest ;;
  ret (mkProjectionUpdate tenantID projectID "task" taskID expectedVersion
         (Task.AggregateVersion transition) result, event, result).

Definition encodeProjectTransition (tenantID projectID : string) (expectedVersion : Z)
    (transition : Project.ProjectEvent) (requestDigest : string) : M encoded :=
  result <~ some_or ErrEncode (marshal_project (Project.Projection transition)) ;;
  payload <~ some_or ErrEncode
    (marshal_payload tenantID projectID (Project.AggregateVersion transition) result) ;;
  event <~ newEvent tenantID projectID "project" projectID (Project.EventType transition)
    (Project.AggregateVersion transition) (Project.OccurredAt transition) payload requestDigest ;;
  ret (mkProjectionUpdate tenantID projectID "project" projectID expectedVersion
         (Project.AggregateVersion transition) result, event, result).

Definition approvalRecords (tenantID projectID : string) (approval : option Approval.ApprovalBinding)
    : list ApprovalRecord :=
  match approval with
  | None => []
  | Some a =>
      [mkApprovalRecord (Approval.RecordID a) tenantID projectID (Approval.ApprovalType a)
         (Approval.SubjectType a) (Approval.SubjectID a) (Approval.SubjectVersion a)
         (Approval.SubjectSHA256 a) (Approval.PrincipalID a) (Approval.Reason a)
         (Approval.IssuedAt a) (Approval.ExpiresAt a) (Approval.RevokedAt a) (Approval.Signature a)]
  end.

(** *** Queries ([query.go]) *)
(** The loop of [Tasks]. *)
Fixpoint decode_tasks (tenantID projectID : string) (projections : list Projection)
    : M (list Task.ModuleTask) :=
  match projections with
  | [] => ret []
  | projection :: projections =>
      task <~ decodeTask (p_State projection) ;;
      refuse wire CodeInternalError "task projection" when
        (Task.TenantID task ≠? tenantID) || (Task.ProjectID task ≠? projectID)
        || (Task.ID task ≠? p_AggregateID projection) ;;
      tasks <~ decode_tasks tenantID projectID projections ;;
      ret (task :: tasks)
  end.

Definition Tasks (tenantID projectID : string) : M (list Task.ModuleTask) :=
  refuse wire CodeDependencyUnavailable "projection list" when negb (is_list s) ;;
  projections <~ list_projections tenantID projectID "task" ;;
  decode_tasks tenantID projectID projections.

Fixpoint decode_projects (tenantID : string) (projections : list Projection)
    : M (list Project.Project) :=
  match projections with
  | [] => ret []
  | projection :: projections =>
      if p_AggregateType projection ≠? "project" then decode_projects tenantID projections else
      project <~ decodeProject (p_State projection) ;;
      refuse wire CodeInternalError "project projection" when
        (Project.TenantID project ≠? tenantID) || (Project.ID project ≠? p_ProjectID projection)
        || (Project.ID project ≠? p_AggregateID projection) ;;
      projects <~ decode_projects tenantID projections ;;
      ret (project :: projects)
  end.

Definition Projects (tenantID : string) : M (list Project.Project) :=
  refuse wire CodeInvalidArgument "project list" when tenantID ≟ "" ;;
  refuse wire CodeDependencyUnavailable "project list" when negb (is_catalog s) ;;
  projections <~ list_tenant tenantID ;;
  projects <~ decode_projects tenantID projections ;;
  ret (sort_slice (fun left right => String.ltb (Project.ID left) (Project.ID right)) projects).

(** [Project] and [Task]: [None] is not found. *)
Definition get_project (tenantID projectID : string) : M (option Project.Project) :=
  refuse wire CodeInvalidArgument "project query" when (tenantID ≟ "") || (projectID ≟ "") ;;
  found <~ load tenantID "project" projectID ;;
  match found with
  | None => ret None
  | Some projection =>
      project <~ decodeProject (p_State projection) ;;
      refuse bare CodeForbidden when
        (Project.TenantID project ≠? tenantID) || (Project.ID project ≠? projectID) ;;
      ret (Some project)
  end.

Definition get_task (tenantID projectID taskID : string) : M (option Task.ModuleTask) :=
  refuse wire CodeInvalidArgument "task query" when
    (tenantID ≟ "") || (projectID ≟ "") || (taskID ≟ "") ;;
  found <~ load tenantID "task" taskID ;;
  match found with
  | None => ret None
  | Some projection =>
      task <~ decodeTask (p_State projection) ;;
      refuse bare CodeForbidden when
        (Task.TenantID task ≠? tenantID) || (Task.ProjectID task ≠? projectID)
        || (Task.ID task ≠? taskID) ;;
      ret (Some task)
  end.

(** *** The commit boundary ([boundary.go]) *)
Definition validateCommitBoundary (v : Capability.CommitValidation) : M unit :=
  refuse ErrCommitBoundary when
    (Capability.Val.TenantID v ≟ "") || (Capability.Val.ProjectID v ≟ "")
    || (Capability.Val.PrincipalID v ≟ "") || (Capability.Val.Action v ≟ "")
    || (Capability.Val.ParameterDigest v ≟ "") || IsZero (Capability.Val.CommitAt v) ;;
  DoValidate (Capability.cloneCommitValidation v)
    (fun accepted => Ret (if accepted then Ok tt else Err ErrCommitBoundary)).

Definition task_claims (command : Task.TaskCommand) : gmap string bool :=
  match Task.Cmd.Type_ command with
  | Task.TaskCommandStartAudit =>
      {["submission_validated" := Task.Cmd.SubmissionValidated command]}
  | Task.TaskCommandLLMSuccess =>
      {["fresh_auditor" := Task.Cmd.FreshAuditor command;
        "blind_audit_context" := Task.Cmd.BlindAuditContext command;
        "no_blocking_findings" := Task.Cmd.NoBlockingFindings command]}
  | Task.TaskCommandLLMFailure =>
      {["fresh_auditor" := Task.Cmd.FreshAuditor command;
        "blind_audit_context" := Task.Cmd.BlindAuditContext command]}
  | Task.TaskCommandIntegrate =>
      {["dependencies_satisfied" := Task.Cmd.DependenciesSatisfied command;
        "merge_gate_passed" := Task.Cmd.MergeGatePassed command]}
  | _ => ∅
  end.

Definition approval_id (approval : option Approval.ApprovalBinding) : string :=
  match approval with Some a => Approval.RecordID a | None => "" end.

Definition task_validation (request : TaskRequest) (project : Project.Project)
    (current : Task.ModuleTask) (command : Task.TaskCommand) (parameterDigest : string)
    : Capability.CommitValidation :=
  Capability.Val.mk (tr_TenantID request) (tr_ProjectID request) (tr_TaskID request)
    (tr_PrincipalID request) (Task.TaskCommandType_string (Task.Cmd.Type_ command))
    (tr_ExpectedVersion request) project current parameterDigest
    (if Task.Cmd.AuditEvidenceSHA256 command ≠? "" then [Task.Cmd.AuditEvidenceSHA256 command] else [])
    (task_claims command)
    (if RefVersion (Task.Cmd.ModuleSpecRef command) =? 0 then Task.ModuleSpecRef current
     else Task.Cmd.ModuleSpecRef command)
    zeroSpecRef (Task.Cmd.FencingToken command) (approval_id (Task.Cmd.Approval command))
    (tr_Authorization request) (Task.Cmd.At command).

Definition validateTaskCommit (request : TaskRequest) (project : Project.Project)
    (current : Task.ModuleTask) (command : Task.TaskCommand) (parameterDigest : string) : M unit :=
  validateCommitBoundary (task_validation request project current command parameterDigest).

End Service.
End Orchestrator.
