(* ===== verification/OrchestratorTasks.v ===== *)
(** [HandleTask] of the orchestrator ([internal/orchestrator/service.go],
    [core_summary.go]): one command on one task, with the tasks it freezes,
    releases or makes ready and the core summary it may complete. *)

From S2P Require Import Prelude GoLib Trace Errors Contracts Approval Task Dag Project Specs EventStore Capability Effects Orchestrator.

Module OrchestratorTasks.
Import Effects EventStore Orchestrator.

Section Service.
Context (jcs_Transform : string -> option string) (sha256_Sum256 : string -> list Z).
Context `{codec : Codec}.
Context (s : Service).
Notation encodeTaskTransition := (encodeTaskTransition jcs_Transform sha256_Sum256).
Notation encodeProjectTransition := (encodeProjectTransition jcs_Transform sha256_Sum256).
Notation mustDigest := (mustDigest jcs_Transform sha256_Sum256).
Notation commandDigest := (commandDigest jcs_Transform sha256_Sum256).

(** The writes a handler collects. *)
Definition writes : Type := list ProjectionUpdate * list DomainEvent.
Definition no_writes : writes := ([], []).
Definition join (a b : writes) : writes := (a.1 ++ b.1, a.2 ++ b.2).
Definition one (e : encoded) : writes := ([e.1.1], [e.1.2]).

(** ** Commands and their digests *)
Definition normalizedTaskCommand (request : TaskRequest) : Task.TaskCommand :=
  (tr_Command request)
    ⟦ Task.Cmd.TenantID := tr_TenantID request ⟧
    ⟦ Task.Cmd.ProjectID := tr_ProjectID request ⟧
    ⟦ Task.Cmd.TaskID := tr_TaskID request ⟧
    ⟦ Task.Cmd.ActorID := tr_PrincipalID request ⟧
    ⟦ Task.Cmd.At := 0 ⟧.

Definition taskDigestCommand (command : Task.TaskCommand) : Task.TaskCommand :=
  if Task.Cmd.Type_ command ≠? Task.TaskCommandAuthorizeNewSeries then command else
  (Task.Cmd.blank (Task.Cmd.Type_ command))
    ⟦ Task.Cmd.TenantID := Task.Cmd.TenantID command ⟧
    ⟦ Task.Cmd.ProjectID := Task.Cmd.ProjectID command ⟧
    ⟦ Task.Cmd.TaskID := Task.Cmd.TaskID command ⟧
    ⟦ Task.Cmd.ActorID := Task.Cmd.ActorID command ⟧
    ⟦ Task.Cmd.Decision := Task.Cmd.Decision command ⟧.

Definition TaskParameterDigest (request : TaskRequest) : M string :=
  commandDigest (marshal_task_command (tr_ExpectedVersion request)
                   (taskDigestCommand (normalizedTaskCommand request))).

(** ** The tasks a command carries along *)
Definition command_at (ty : Task.TaskCommandType) (blocking : string) (at_ : time) : Task.TaskCommand :=
  (Task.Cmd.blank ty) ⟦ Task.Cmd.BlockingTaskID := blocking ⟧ ⟦ Task.Cmd.At := at_ ⟧.

Definition load_dependent (request : TaskRequest) (dependentID : string) : M Task.ModuleTask :=
  found <~ load (tr_TenantID request) "task" dependentID ;;
  projection <~ some_or (wire CodeNotFound "dependent task") found ;;
  dependent <~ decodeTask (p_State projection) ;;
  refuse wire CodeForbidden "dependent task project" when
    (Task.TenantID dependent ≠? tr_TenantID request)
    || (Task.ProjectID dependent ≠? tr_ProjectID request) ;;
  ret dependent.

(** One command on another task of the project. *)
Definition transition_task (request : TaskRequest) (taskID : string) (task : Task.ModuleTask)
    (command : Task.TaskCommand) (digest : string) : M writes :=
  event <~ lift Wire (Task.DecideTask task command) ;;
  e <~ encodeTaskTransition (tr_TenantID request) (tr_ProjectID request) taskID
    (Task.Version task) event digest ;;
  ret (one e).

(** The dependents of a task that is blocked for the user are blocked by it. *)
Fixpoint block_dependents (request : TaskRequest) (at_ : time) (digest : string)
    (ids : list string) : M writes :=
  match ids with
  | [] => ret no_writes
  | dependentID :: ids =>
      dependent <~ load_dependent request dependentID ;;
      w <~ transition_task request dependentID dependent
        (command_at Task.TaskCommandBlockDependency (tr_TaskID request) at_) digest ;;
      ws <~ block_dependents request at_ digest ids ;;
      ret (join w ws)
  end.

(** A new series releases the dependents still blocked by the task. *)
Fixpoint unblock_dependents (request : TaskRequest) (at_ : time) (digest : string)
    (ids : list string) : M writes :=
  match ids with
  | [] => ret no_writes
  | dependentID :: ids =>
      dependent <~ load_dependent request dependentID ;;
      w <~ (if negb (contains (Task.BlockingTaskIDs dependent) (tr_TaskID request))
            then ret no_writes
            else transition_task request dependentID dependent
              (command_at Task.TaskCommandUnblockDependency (tr_TaskID request) at_) digest) ;;
      ws <~ unblock_dependents request at_ digest ids ;;
      ret (join w ws)
  end.

(** The loop over the map returns early or not at the first bad task: the
    answer does not depend on the order. *)
Definition depends_live (task : Task.ModuleTask) (dependentID : string) : bool :=
  negb ((Task.State task ≟ TaskCanceled) || (Task.State task ≟ TaskSuperseded)
        || negb (contains (Task.DependentTaskIDs task) dependentID)).
Definition task_done (task : Task.ModuleTask) : bool :=
  negb ((Task.State task ≠? TaskPassed) && (Task.State task ≠? TaskIntegrated)).
Definition allTaskDependenciesAudited (tasks : gmap string Task.ModuleTask) (dependentID : string)
    : bool :=
  let live := List.filter (fun task => depends_live task dependentID) (values tasks) in
  if existsb (fun task => negb (task_done task)) live then false else negb (Nat.eqb (length live) 0).

Fixpoint ready_dependents (request : TaskRequest) (byID : gmap string Task.ModuleTask)
    (at_ : time) (digest : string) (ids : list string) : M writes :=
  match ids with
  | [] => ret no_writes
  | dependentID :: ids =>
      dependent <~ some_or (wire CodeNotFound "dependent task") (byID !! dependentID) ;;
      w <~ (if (Task.State dependent ≠? TaskDefined)
               || negb (allTaskDependenciesAudited byID dependentID)
            then ret no_writes
            else transition_task request dependentID dependent
              (command_at Task.TaskCommandReadyExecution "" at_) digest) ;;
      ws <~ ready_dependents request byID at_ digest ids ;;
      ret (join w ws)
  end.

Definition index_tasks (tasks : list Task.ModuleTask) : gmap string Task.ModuleTask :=
  foldl (fun byID task => <[Task.ID task := task]> byID) ∅ tasks.

Definition readyAuditedDependents (request : TaskRequest) (audited : Task.ModuleTask) (at_ : time)
    (digest : string) : M writes :=
  if Nat.eqb (length (Task.DependentTaskIDs audited)) 0 then ret no_writes else
  tasks <~ Tasks s (tr_TenantID request) (tr_ProjectID request) ;;
  let byID := <[Task.ID audited := audited]> (index_tasks tasks) in
  ready_dependents request byID at_ digest (sort_slice String.ltb (copy_slice (Task.DependentTaskIDs audited))).

(** ** The core summary ([core_summary.go]) *)
(** The tasks with the one that has just passed. *)
Fixpoint replace_task (tasks : list Task.ModuleTask) (passed : Task.ModuleTask)
    : list Task.ModuleTask :=
  match tasks with
  | [] => [passed]
  | task :: tasks =>
      if Task.ID task ≟ Task.ID passed then passed :: tasks
      else task :: replace_task tasks passed
  end.

Definition retired (task : Task.ModuleTask) : bool :=
  (Task.State task ≟ TaskCanceled) || (Task.State task ≟ TaskSuperseded).

Definition module_outcome (task : Task.ModuleTask) : Project.Outcome.CoreModuleOutcome :=
  Project.Outcome.mk (Task.ID task) (Task.ModuleID task) (Task.State task) (Task.Version task)
    (Task.ModuleSpecRef task) (Task.Attempt task) (Task.AttemptSeriesID task).

Definition core_modules (tasks : list Task.ModuleTask) : list Project.Outcome.CoreModuleOutcome :=
  map module_outcome
    (List.filter (fun task => negb (retired task) && (Task.State task ≟ TaskPassed)) tasks).
Definition all_passed (tasks : list Task.ModuleTask) : bool :=
  forallb (fun task => retired task || (Task.State task ≟ TaskPassed)) tasks.

(** The summary of a project with a goal and a plan, before its digest. *)
Definition core_summary (project : Project.Project) (goal : Project.GoalRecord) (plan : SpecRef)
    (modules : list Project.Outcome.CoreModuleOutcome) (at_ : time) : Project.CoreSummary :=
  Project.Summary.mk 1 (Project.TenantID project) (Project.ID project) "COMPLETED"
    (mkSpecRef (Project.Goal_.Version goal) (Project.Goal_.SHA256 goal)) plan
    (sort_slice (fun left right => String.ltb (Project.Outcome.TaskID left) (Project.Outcome.TaskID right))
       modules) "" (UTC at_).

Definition summary_command (request : TaskRequest) (project : Project.Project)
    (goal : Project.GoalRecord) (plan : SpecRef) (tasks : list Task.ModuleTask) (at_ : time)
    : M Project.ProjectCommand :=
  let command := Project.Cmd.blank Project.ProjectCommandRecordCoreProgress (tr_PrincipalID request) at_ in
  let modules := core_modules tasks in
  if negb (all_passed tasks && negb (Nat.eqb (length modules) 0)) then ret command else
  let summary := core_summary project goal plan modules at_ in
  content <~ some_or ErrEncode (marshal_summary summary) ;;
  digest <~ some_or ErrEncode
    (DigestObjectWithoutFields jcs_Transform sha256_Sum256 content ["summarySha256"; "createdAt"]) ;;
  ret (command ⟦ Project.Cmd.Type_ := Project.ProjectCommandPublishCoreSummary ⟧
               ⟦ Project.Cmd.CoreSummary := Some (summary ⟦ Project.Summary.SummarySHA256 := digest ⟧) ⟧).

Definition coreSummaryTransition (request : TaskRequest) (project : Project.Project)
    (passed : Task.ModuleTask) (at_ : time) (digest : string) : M writes :=
  match Project.Goal project, Project.Plan project with
  | Some goal, Some plan =>
      if negb (coreOnly s) || negb (is_nil (Project.CoreSummary_ project))
         || (Project.State project ≠? ProjectExecuting) || (Task.State passed ≠? TaskPassed)
      then ret no_writes else
      tasks <~ Tasks s (tr_TenantID request) (tr_ProjectID request) ;;
      command <~ summary_command request project goal plan (replace_task tasks passed) at_ ;;
      transition <~ lift Wire (Project.DecideProject project command) ;;
      e <~ encodeProjectTransition (tr_TenantID request) (tr_ProjectID request)
        (Project.Version project) transition digest ;;
      ret (one e)
  | _, _ => ret no_writes
  end.

(** ** One attempt at a task command *)
Definition planningCommand (command : Task.TaskCommand) : bool :=
  (Task.Cmd.Type_ command ≟ Task.TaskCommandStartPlanning)
  || (Task.Cmd.Type_ command ≟ Task.TaskCommandAttachModuleSpec).

(** The project's goal and plan allow the command. *)
Definition goal_refuses (project : Project.Project) (command : Task.TaskCommand) : bool :=
  match Project.Goal project with
  | None => true
  | Some goal =>
      (Project.Goal_.ApprovedBy goal ≟ "")
      || planningCommand command
         && ((Project.State project ≠? ProjectPlanning) || negb (is_nil (Project.Plan project)))
      || negb (planningCommand command) && is_nil (Project.Plan project)
  end.
Definition project_stopped (project : Project.Project) : bool :=
  (Project.State project ≟ ProjectPaused) || (Project.State project ≟ ProjectAborted)
  || (Project.State project ≟ ProjectArchived) || (Project.State project ≟ ProjectCompleted).

Definition load_project_for (request : TaskRequest) (command : Task.TaskCommand)
    : M Project.Project :=
  found <~ load (tr_TenantID request) "project" (tr_ProjectID request) ;;
  projection <~ some_or (bare CodeGoalNotApproved) found ;;
  project <~ decodeProject (p_State projection) ;;
  refuse bare CodeGoalNotApproved when goal_refuses project command ;;
  refuse wire CodeTaskBlocked (ProjectState_string (Project.State project)) when
    project_stopped project ;;
  ret project.

Definition load_current (request : TaskRequest) (command : Task.TaskCommand) : M Task.ModuleTask :=
  found <~ load (tr_TenantID request) "task" (tr_TaskID request) ;;
  current <~ match found with
             | Some projection =>
                 current <~ decodeTask (p_State projection) ;;
                 refuse wire CodeForbidden "task project" when
                   (Task.TenantID current ≠? tr_TenantID request)
                   || (Task.ProjectID current ≠? tr_ProjectID request) ;;
                 ret current
             | None =>
                 refuse bare CodeNotFound when
                   Task.Cmd.Type_ command ≠? Task.TaskCommandDefine ;;
                 ret Task.zeroModuleTask
             end ;;
  refuse versionConflict (tr_ExpectedVersion request) (Task.Version current) when
    negb (Task.Version current =? tr_ExpectedVersion request) ;;
  ret current.

(** The approval and the decision a new series records.  [DecideTask] has
    accepted the command, so it carries an approval. *)
Definition decision_records (request : TaskRequest) (current : Task.ModuleTask)
    (command : Task.TaskCommand) : list ApprovalRecord * list UserDecisionRecord :=
  if Task.Cmd.Type_ command ≠? Task.TaskCommandAuthorizeNewSeries then ([], []) else
  (approvalRecords (tr_TenantID request) (tr_ProjectID request) (Task.Cmd.Approval command),
   [mkUserDecisionRecord (Task.Cmd.DecisionRecordID command) (tr_TenantID request)
      (tr_ProjectID request) (tr_TaskID request) (Task.AttemptSeriesID current)
      (Task.Cmd.Decision command) (Task.Cmd.DecisionReportSHA256 command) (tr_PrincipalID request)
      (approval_id (Task.Cmd.Approval command)) (Task.Cmd.At command)]).

(** Everything that follows from the transition of the task. *)
Definition task_consequences (request : TaskRequest) (project : Project.Project)
    (current : Task.ModuleTask) (command : Task.TaskCommand) (event : Task.TaskEvent)
    (digest : string) : M writes :=
  let next := Task.Projection event in
  let at_ := Task.Cmd.At command in
  blocked <~ (if Task.State next ≟ TaskBlockedUserDecision
              then block_dependents request at_ digest (Task.FrozenDependentIDs next)
              else ret no_writes) ;;
  unblocked <~ (if Task.Cmd.Type_ command ≟ Task.TaskCommandAuthorizeNewSeries
                then unblock_dependents request at_ digest (Task.FrozenDependentIDs current)
                else ret no_writes) ;;
  readied <~ (if (Task.Cmd.Type_ command ≟ Task.TaskCommandLLMSuccess)
                 || (Task.Cmd.Type_ command ≟ Task.TaskCommandIntegrate)
              then readyAuditedDependents request next at_ digest
              else ret no_writes) ;;
  summarised <~ (if Task.Cmd.Type_ command ≟ Task.TaskCommandLLMSuccess
                 then coreSummaryTransition request project next at_ digest
                 else ret no_writes) ;;
  ret (join (join (join blocked unblocked) readied) summarised).

Definition commit_task (request : TaskRequest) (w : writes) (records : list ApprovalRecord * list UserDecisionRecord)
    (result digest : string) : M TaskOutcome :=
  sum <~ mustDigest result ;;
  committed <~ execute (mkTransactionRequest (tr_TenantID request) (tr_PrincipalID request)
    (tr_IdempotencyKey request) digest w.1 w.2 records.1 records.2 result sum) ;;
  task <~ decodeTask (t_Result committed) ;;
  ret (mkTaskOutcome task (t_Events committed) (t_Duplicate committed)).

Definition handleTaskOnce (request : TaskRequest) : M TaskOutcome :=
  _ <~ validateRequest (tr_TenantID request) (tr_ProjectID request) (tr_PrincipalID request)
    (tr_IdempotencyKey request) (tr_ExpectedVersion request) ;;
  refuse wire CodeInvalidArgument "taskId" when tr_TaskID request ≟ "" ;;
  let command := normalizedTaskCommand request in
  digest <~ TaskParameterDigest request ;;
  prior <~ lookup_ (tr_TenantID request) (tr_PrincipalID request) (tr_IdempotencyKey request) digest ;;
  match prior with
  | Some prior =>
      task <~ decodeTask (t_Result prior) ;;
      ret (mkTaskOutcome task (t_Events prior) true)
  | None =>
      project <~ load_project_for request command ;;
      current <~ load_current request command ;;
      at_ <~ clock ;;
      let command := command ⟦ Task.Cmd.At := UTC at_ ⟧ in
      event <~ lift Wire (Task.DecideTask current command) ;;
      e <~ encodeTaskTransition (tr_TenantID request) (tr_ProjectID request) (tr_TaskID request)
        (tr_ExpectedVersion request) event digest ;;
      w <~ task_consequences request project current command event digest ;;
      let w := join (one e) w in
      let w := (w.1, applyEventTrace sha256_Sum256 s digest w.2) in
      _ <~ validateTaskCommit request project current command digest ;;
      commit_task request w (decision_records request current command) e.2 digest
  end.

(** [retryCorePassConflict]: a core-only pass that lost a race is retried while
    its task is as it was. *)
Definition version_conflict (e : orch_error) : bool :=
  match e with
  | Wire err => ErrCode err ≟ CodeStateVersionConflict
  | Stored (Coded err) => ErrCode err ≟ CodeStateVersionConflict
  | _ => false
  end.

Definition retryCorePassConflict (request : TaskRequest) (e : orch_error) : prog bool :=
  if negb (coreOnly s)
     || (Task.Cmd.Type_ (tr_Command request) ≠? Task.TaskCommandLLMSuccess)
  then Ret false else
  DoCtxErr (fun done => if done then Ret false else
  if negb (version_conflict e) then Ret false else
  bind (load (tr_TenantID request) "task" (tr_TaskID request)) (fun found =>
    match found with
    | Ok (Some projection) =>
        match unmarshal_task (p_State projection) with
        | Some task => Ret ((Task.Version task =? tr_ExpectedVersion request)
                            && (Task.State task ≟ TaskLLMAudit))
        | None => Ret false
        end
    | _ => Ret false
    end)).

(** [HandleTask]; [None] when it has retried [rounds] times. *)
Fixpoint HandleTask (rounds : nat) (request : TaskRequest)
    : prog (option (result TaskOutcome orch_error)) :=
  bind (handleTaskOnce request) (fun r =>
    match r with
    | Ok outcome => Ret (Some (Ok outcome))
    | Err e =>
        bind (retryCorePassConflict request e) (fun again =>
          if negb again then Ret (Some (Err e)) else
          match rounds with
          | O => Ret None
          | S rounds => HandleTask rounds request
          end)
    end).

End Service.
End OrchestratorTasks.
