(* ===== verification/OrchestratorPlans.v ===== *)
(** The plan operations of the orchestrator ([internal/orchestrator/plan.go]):
    a plan's tasks are queued for planning, and the plan is published over the
    planned tasks, each in one transaction. *)

From S2P Require Import Prelude GoLib Trace Errors Contracts Approval Task Dag Project Specs EventStore Capability Effects Orchestrator OrchestratorTasks.

Module OrchestratorPlans.
Import Effects EventStore Orchestrator OrchestratorTasks.

Record QueuePlanTasksOutcome : Type := mkQueueOutcome {
  qo_Tasks : list Task.ModuleTask;
  qo_Events : list DomainEvent;
  qo_Duplicate : bool
}.
Record PublishPlanOutcome : Type := mkPublishOutcome {
  ppo_Project : Project.Project;
  ppo_Tasks : list Task.ModuleTask;
  ppo_Events : list DomainEvent;
  ppo_Duplicate : bool
}.

#[export] Instance eta_queue_request : Eta QueuePlanTasksRequest := fun r =>
  mkQueueRequest (qr_TenantID r) (qr_ProjectID r) (qr_PrincipalID r) (qr_IdempotencyKey r)
    (qr_ExpectedProjectVersion r) (qr_GoalSpecRef r) (qr_PlanRef r) (qr_DAG r) (qr_Tasks r)
    (qr_Authorization r).
#[export] Instance eta_publish_request : Eta PublishPlanRequest := fun r =>
  mkPublishRequest (pp_TenantID r) (pp_ProjectID r) (pp_PrincipalID r) (pp_IdempotencyKey r)
    (pp_ExpectedProjectVersion r) (pp_GoalSpecRef r) (pp_PlanRef r) (pp_DAG r) (pp_Tasks r)
    (pp_Authorization r).

(** ** The dependents of each module's task *)
(** The loop over the dependencies of one module. *)
Definition add_dependents (taskID : string) (result : Dag.adjacency) (dependencies : list string)
    : Dag.adjacency :=
  foldl (fun result dependency =>
           <[dependency := Dag.nodes_of result dependency ++ [taskID]]> result) result dependencies.

(** Each list is sorted at the end: the order in which the graph is ranged over
    does not matter. *)
Definition planDependentTaskIDs (tasks : list PlanTaskDefinition) (graph : Dag.graph)
    : Dag.adjacency :=
  let taskByModule : gmap string string :=
    foldl (fun m task => <[pt_ModuleID task := pt_TaskID task]> m) ∅ tasks in
  let result := foldl (fun result '(moduleID, dependencies) =>
                  add_dependents (default "" (taskByModule !! moduleID)) result dependencies)
                  ∅ (map_to_list graph) in
  map_imap (fun moduleID ids =>
    Some (if is_nil (graph !! moduleID) then ids else sort_slice String.ltb ids)) result.

Definition planningDependentTaskIDs (tasks : list PlanningTaskDefinition) (graph : Dag.graph)
    : Dag.adjacency :=
  planDependentTaskIDs
    (map (fun task => mkPlanTask (pl_ModuleID task) (pl_TaskID task) zeroSpecRef "" false) tasks) graph.

Definition module_before (left right : PlanTaskDefinition) : bool :=
  String.ltb (pt_ModuleID left) (pt_ModuleID right).
Definition planning_before (left right : PlanningTaskDefinition) : bool :=
  String.ltb (pl_ModuleID left) (pl_ModuleID right).

(** ** Request validation *)
Fixpoint plan_definitions_bad (graph : Dag.graph) (seenModules seenTasks seenSeries : gset string)
    (tasks : list PlanTaskDefinition) : bool :=
  match tasks with
  | [] => false
  | task :: tasks =>
      if (pt_ModuleID task ≟ "") || (pt_TaskID task ≟ "") || (pt_AttemptSeriesID task ≟ "")
         || negb (SpecRef_valid (pt_ModuleSpecRef task)) || is_nil (graph !! pt_ModuleID task)
         || bool_decide (pt_ModuleID task ∈ seenModules) || bool_decide (pt_TaskID task ∈ seenTasks)
         || bool_decide (pt_AttemptSeriesID task ∈ seenSeries) then true
      else plan_definitions_bad graph ({[pt_ModuleID task]} ∪ seenModules)
             ({[pt_TaskID task]} ∪ seenTasks) ({[pt_AttemptSeriesID task]} ∪ seenSeries) tasks
  end.

Definition validatePublishPlanRequest (request : PublishPlanRequest) : M unit :=
  _ <~ validateRequest (pp_TenantID request) (pp_ProjectID request) (pp_PrincipalID request)
    (pp_IdempotencyKey request) (pp_ExpectedProjectVersion request) ;;
  refuse wire CodeInvalidArgument "plan publication" when
    negb (SpecRef_valid (pp_GoalSpecRef request)) || negb (SpecRef_valid (pp_PlanRef request))
    || negb (Project.validDAG (pp_DAG request))
    || negb (Nat.eqb (length (pp_Tasks request)) (size (pp_DAG request))) ;;
  refuse wire CodeInvalidArgument "plan task definition" when
    plan_definitions_bad (pp_DAG request) ∅ ∅ ∅ (pp_Tasks request) ;;
  ret tt.

Fixpoint planning_definitions_bad (graph : Dag.graph) (seenModules seenTasks : gset string)
    (tasks : list PlanningTaskDefinition) : bool :=
  match tasks with
  | [] => false
  | task :: tasks =>
      if (pl_ModuleID task ≟ "") || (pl_TaskID task ≟ "") || is_nil (graph !! pl_ModuleID task)
         || bool_decide (pl_ModuleID task ∈ seenModules) || bool_decide (pl_TaskID task ∈ seenTasks)
      then true
      else planning_definitions_bad graph ({[pl_ModuleID task]} ∪ seenModules)
             ({[pl_TaskID task]} ∪ seenTasks) tasks
  end.

Definition validateQueuePlanTasksRequest (request : QueuePlanTasksRequest) : M unit :=
  _ <~ validateRequest (qr_TenantID request) (qr_ProjectID request) (qr_PrincipalID request)
    (qr_IdempotencyKey request) (qr_ExpectedProjectVersion request) ;;
  refuse wire CodeInvalidArgument "plan task queue" when
    negb (SpecRef_valid (qr_GoalSpecRef request)) || negb (SpecRef_valid (qr_PlanRef request))
    || negb (Project.validDAG (qr_DAG request))
    || negb (Nat.eqb (length (qr_Tasks request)) (size (qr_DAG request))) ;;
  refuse wire CodeInvalidArgument "planning task definition" when
    planning_definitions_bad (qr_DAG request) ∅ ∅ (qr_Tasks request) ;;
  ret tt.

Section Service.
Context (jcs_Transform : string -> option string) (sha256_Sum256 : string -> list Z).
Context `{codec : Codec}.
Context (s : Service).
Notation encodeTaskTransition := (encodeTaskTransition jcs_Transform sha256_Sum256).
Notation encodeProjectTransition := (encodeProjectTransition jcs_Transform sha256_Sum256).
Notation mustDigest := (mustDigest jcs_Transform sha256_Sum256).
Notation commandDigest := (commandDigest jcs_Transform sha256_Sum256).
Notation applyEventTrace := (applyEventTrace sha256_Sum256 s).

Definition load_project (tenantID projectID : string) (expectedVersion : Z) : M Project.Project :=
  found <~ load tenantID "project" projectID ;;
  projection <~ some_or (bare CodeNotFound) found ;;
  project <~ decodeProject (p_State projection) ;;
  refuse versionConflict expectedVersion (Project.Version project) when
    negb (Project.Version project =? expectedVersion) ;;
  ret project.

(** The facts of both plan operations. *)
Definition plan_validation (tenantID projectID principalID action : string) (expectedVersion : Z)
    (project : Project.Project) (parameterDigest : string) (goalRef planRef : SpecRef)
    (claims : gmap string bool) (authorization : Capability.CommitAuthorization) (at_ : time)
    : Capability.CommitValidation :=
  Capability.Val.mk tenantID projectID "" principalID action expectedVersion project
    Task.zeroModuleTask parameterDigest [RefSHA256 goalRef; RefSHA256 planRef] claims zeroSpecRef
    goalRef 0 "" authorization at_.

Definition validatePlanCommit (request : PublishPlanRequest) (project : Project.Project)
    (parameterDigest : string) (at_ : time) : M unit :=
  validateCommitBoundary (plan_validation (pp_TenantID request) (pp_ProjectID request)
    (pp_PrincipalID request) (Project.ProjectCommandType_string Project.ProjectCommandPublishPlan)
    (pp_ExpectedProjectVersion request) project parameterDigest (pp_GoalSpecRef request)
    (pp_PlanRef request) {["dag_validated" := true; "module_specs_validated" := true]}
    (pp_Authorization request) at_).

Definition validatePlanningTasksCommit (request : QueuePlanTasksRequest) (project : Project.Project)
    (parameterDigest : string) (at_ : time) : M unit :=
  validateCommitBoundary (plan_validation (qr_TenantID request) (qr_ProjectID request)
    (qr_PrincipalID request) (Task.TaskCommandType_string Task.TaskCommandQueuePlanning)
    (qr_ExpectedProjectVersion request) project parameterDigest (qr_GoalSpecRef request)
    (qr_PlanRef request) {["dag_validated" := true; "ownership_validated" := true]}
    (qr_Authorization request) at_).

(** ** [QueuePlanTasks] *)
Definition queue_refused (request : QueuePlanTasksRequest) (project : Project.Project) : bool :=
  match Project.Goal project with
  | None => true
  | Some goal =>
      (Project.State project ≠? ProjectPlanning) || negb (is_nil (Project.Plan project))
      || (Project.Goal_.ApprovedBy goal ≟ "")
      || negb (Project.Goal_.Version goal =? RefVersion (qr_GoalSpecRef request))
      || (Project.Goal_.SHA256 goal ≠? RefSHA256 (qr_GoalSpecRef request))
  end.

Definition retained_bad (request : QueuePlanTasksRequest) (dependents : list string)
    (retained : Task.ModuleTask) : bool :=
  (Task.TenantID retained ≠? qr_TenantID request) || (Task.ProjectID retained ≠? qr_ProjectID request)
  || (Task.State retained ≟ TaskSuperseded) || (Task.State retained ≟ TaskCanceled)
  || (Task.DependentTaskIDs retained ≠? dependents).

Definition planning_command (request : QueuePlanTasksRequest) (definition : PlanningTaskDefinition)
    (dependents : list string) (at_ : time) : Task.TaskCommand :=
  (Task.Cmd.blank Task.TaskCommandQueuePlanning)
    ⟦ Task.Cmd.TenantID := qr_TenantID request ⟧
    ⟦ Task.Cmd.ProjectID := qr_ProjectID request ⟧
    ⟦ Task.Cmd.TaskID := pl_TaskID definition ⟧
    ⟦ Task.Cmd.ModuleID := pl_ModuleID definition ⟧
    ⟦ Task.Cmd.PlanningSpecRef := qr_PlanRef request ⟧
    ⟦ Task.Cmd.DependentTaskIDs := dependents ⟧
    ⟦ Task.Cmd.At := at_ ⟧.

(** One task: kept as it is, or new. *)
Definition queue_task (request : QueuePlanTasksRequest) (dependentIDs : Dag.adjacency) (at_ : time)
    (digest : string) (definition : PlanningTaskDefinition) : M (writes * Task.ModuleTask) :=
  let dependents := Dag.nodes_of dependentIDs (pl_ModuleID definition) in
  existing <~ load (qr_TenantID request) "task" (pl_TaskID definition) ;;
  if pl_Retain definition then
    projection <~ some_or (wire CodeNotFound "retained plan task") existing ;;
    retained <~ decodeTask (p_State projection) ;;
    refuse wire CodeConflict "retained plan task" when retained_bad request dependents retained ;;
    ret (no_writes, retained)
  else
    refuse wire CodeConflict "plan task" when negb (is_nil existing) ;;
    transition <~ lift Wire (Task.DecideTask Task.zeroModuleTask
      (planning_command request definition dependents at_)) ;;
    e <~ encodeTaskTransition (qr_TenantID request) (qr_ProjectID request) (pl_TaskID definition) 0
      transition digest ;;
    ret (one e, Task.Projection transition).

Fixpoint queue_tasks (request : QueuePlanTasksRequest) (dependentIDs : Dag.adjacency) (at_ : time)
    (digest : string) (definitions : list PlanningTaskDefinition)
    : M (writes * list Task.ModuleTask) :=
  match definitions with
  | [] => ret (no_writes, [])
  | definition :: definitions =>
      w <~ queue_task request dependentIDs at_ digest definition ;;
      ws <~ queue_tasks request dependentIDs at_ digest definitions ;;
      ret (join w.1 ws.1, w.2 :: ws.2)
  end.

Definition decodeQueuePlanTasksResult (value : string) : M (list Task.ModuleTask) :=
  some_or (ErrDecode "tasks") (unmarshal_tasks value).

Definition QueuePlanTasks (request : QueuePlanTasksRequest) : M QueuePlanTasksOutcome :=
  _ <~ validateQueuePlanTasksRequest request ;;
  let request := request ⟦ qr_Tasks := sort_slice planning_before (copy_slice (qr_Tasks request)) ⟧ in
  digest <~ commandDigest (marshal_queue_request (qr_ExpectedProjectVersion request) request) ;;
  prior <~ lookup_ (qr_TenantID request) (qr_PrincipalID request) (qr_IdempotencyKey request) digest ;;
  match prior with
  | Some prior =>
      tasks <~ decodeQueuePlanTasksResult (t_Result prior) ;;
      ret (mkQueueOutcome tasks (t_Events prior) true)
  | None =>
      project <~ load_project (qr_TenantID request) (qr_ProjectID request)
        (qr_ExpectedProjectVersion request) ;;
      refuse wire CodeInvalidStateTransition "queue plan tasks" when queue_refused request project ;;
      at_ <~ clock ;;
      let at_ := UTC at_ in
      let dependentIDs := planningDependentTaskIDs (qr_Tasks request) (qr_DAG request) in
      queued <~ queue_tasks request dependentIDs at_ digest (qr_Tasks request) ;;
      result <~ some_or ErrEncode (marshal_tasks queued.2) ;;
      _ <~ validatePlanningTasksCommit request project digest at_ ;;
      let events := applyEventTrace digest queued.1.2 in
      sum <~ mustDigest result ;;
      committed <~ execute (mkTransactionRequest (qr_TenantID request) (qr_PrincipalID request)
        (qr_IdempotencyKey request) digest queued.1.1 events [] [] result sum) ;;
      tasks <~ decodeQueuePlanTasksResult (t_Result committed) ;;
      ret (mkQueueOutcome tasks (t_Events committed) (t_Duplicate committed))
  end.

(** ** [PublishPlan] *)
Definition plan_task_bad (request : PublishPlanRequest) (definition : PlanTaskDefinition)
    (dependents : list string) (task : Task.ModuleTask) : bool :=
  let validState := pt_Retain definition || (Task.State task ≟ TaskDefined) in
  let validPlanningBinding := pt_Retain definition
    || (Task.ModuleID task ≟ pt_ModuleID definition)
       && (Task.PlanningSpecRef task ≟ pp_PlanRef request) in
  (Task.TenantID task ≠? pp_TenantID request) || (Task.ProjectID task ≠? pp_ProjectID request)
  || (Task.ModuleSpecRef task ≠? pt_ModuleSpecRef definition)
  || (Task.AttemptSeriesID task ≠? pt_AttemptSeriesID definition)
  || (Task.State task ≟ TaskSuperseded) || (Task.State task ≟ TaskCanceled)
  || negb validState || negb validPlanningBinding
  || (Task.DependentTaskIDs task ≠? dependents).

(** One task: checked, and made ready when its module depends on nothing. *)
Definition publish_task (request : PublishPlanRequest) (dependentIDs : Dag.adjacency) (at_ : time)
    (digest : string) (definition : PlanTaskDefinition) : M (writes * Task.ModuleTask) :=
  let dependents := Dag.nodes_of dependentIDs (pt_ModuleID definition) in
  existing <~ load (pp_TenantID request) "task" (pt_TaskID definition) ;;
  projection <~ some_or (wire CodeNotFound "plan task") existing ;;
  task <~ decodeTask (p_State projection) ;;
  refuse wire CodeConflict "plan task" when plan_task_bad request definition dependents task ;;
  if negb (pt_Retain definition)
     && Nat.eqb (length (Dag.nodes_of (pp_DAG request) (pt_ModuleID definition))) 0 then
    ready <~ lift Wire (Task.DecideTask task (command_at Task.TaskCommandReadyExecution "" at_)) ;;
    e <~ encodeTaskTransition (pp_TenantID request) (pp_ProjectID request) (Task.ID task)
      (Task.Version task) ready digest ;;
    ret (one e, Task.Projection ready)
  else ret (no_writes, task).

Fixpoint publish_tasks (request : PublishPlanRequest) (dependentIDs : Dag.adjacency) (at_ : time)
    (digest : string) (definitions : list PlanTaskDefinition)
    : M (writes * list Task.ModuleTask) :=
  match definitions with
  | [] => ret (no_writes, [])
  | definition :: definitions =>
      w <~ publish_task request dependentIDs at_ digest definition ;;
      ws <~ publish_tasks request dependentIDs at_ digest definitions ;;
      ret (join w.1 ws.1, w.2 :: ws.2)
  end.

Definition publish_command (request : PublishPlanRequest) (at_ : time) : Project.ProjectCommand :=
  (Project.Cmd.blank Project.ProjectCommandPublishPlan (pp_PrincipalID request) at_)
    ⟦ Project.Cmd.GoalSpecRef := Some (pp_GoalSpecRef request) ⟧
    ⟦ Project.Cmd.Plan := Some (pp_PlanRef request) ⟧
    ⟦ Project.Cmd.DAG := copy_slice <$> pp_DAG request ⟧.

Definition decodePublishPlanResult (value : string) : M (Project.Project * list Task.ModuleTask) :=
  some_or (ErrDecode "plan") (unmarshal_published value).

Definition PublishPlan (request : PublishPlanRequest) : M PublishPlanOutcome :=
  _ <~ validatePublishPlanRequest request ;;
  let request := request ⟦ pp_Tasks := sort_slice module_before (copy_slice (pp_Tasks request)) ⟧ in
  digest <~ commandDigest (marshal_publish_request (pp_ExpectedProjectVersion request) request) ;;
  prior <~ lookup_ (pp_TenantID request) (pp_PrincipalID request) (pp_IdempotencyKey request) digest ;;
  match prior with
  | Some prior =>
      decoded <~ decodePublishPlanResult (t_Result prior) ;;
      ret (mkPublishOutcome decoded.1 decoded.2 (t_Events prior) true)
  | None =>
      project <~ load_project (pp_TenantID request) (pp_ProjectID request)
        (pp_ExpectedProjectVersion request) ;;
      at_ <~ clock ;;
      let at_ := UTC at_ in
      event <~ lift Wire (Project.DecideProject project (publish_command request at_)) ;;
      e <~ encodeProjectTransition (pp_TenantID request) (pp_ProjectID request)
        (pp_ExpectedProjectVersion request) event digest ;;
      let dependentIDs := planDependentTaskIDs (pp_Tasks request) (pp_DAG request) in
      published <~ publish_tasks request dependentIDs at_ digest (pp_Tasks request) ;;
      let w := join (one e) published.1 in
      result <~ some_or ErrEncode (marshal_published (Project.Projection event) published.2) ;;
      _ <~ validatePlanCommit request project digest at_ ;;
      let events := applyEventTrace digest w.2 in
      sum <~ mustDigest result ;;
      committed <~ execute (mkTransactionRequest (pp_TenantID request) (pp_PrincipalID request)
        (pp_IdempotencyKey request) digest w.1 events [] [] result sum) ;;
      decoded <~ decodePublishPlanResult (t_Result committed) ;;
      ret (mkPublishOutcome decoded.1 decoded.2 (t_Events committed) (t_Duplicate committed))
  end.
End Service.
End OrchestratorPlans.
