(* ===== verification/OrchestratorGoals.v ===== *)
(** The project commands of the orchestrator ([internal/orchestrator]:
    [HandleProject] of [service.go], [goal.go], [validateProjectCommit] of
    [boundary.go]): a command on a project is committed with the goal message
    and the goal specification it carries, and with the tasks it supersedes. *)

From S2P Require Import Prelude GoLib Trace Path Json Errors Contracts Approval Task Dag Project Specs EventStore Capability Effects Orchestrator OrchestratorTasks.

Module OrchestratorGoals.
Import Effects EventStore Orchestrator OrchestratorTasks.

#[export] Instance eta_projection : Eta GoalSpecProjection := fun g =>
  mkGoalSpecProjection (gp_TenantID g) (gp_ProjectID g) (gp_GoalSpecID g) (gp_RecordID g)
    (gp_Spec g) (gp_Revision g).
#[export] Instance eta_message : Eta Project.GoalMessage := fun m =>
  Project.Msg.mk (Project.Msg.ID m) (Project.Msg.TenantID m) (Project.Msg.ProjectID m)
    (Project.Msg.Kind m) (Project.Msg.Message m) (Project.Msg.ContentSHA256 m)
    (Project.Msg.ArtifactURI m) (Project.Msg.CreatedAt m) (Project.Msg.CreatedBy m).
#[export] Instance GoalMessageKind_eq_dec : EqDecision Project.GoalMessageKind.
Proof. solve_decision. Defined.

Definition maximumGoalMessageBytes : Z := Z.shiftl 16 20.

(** ** [utf8.ValidString]: no byte decodes to an invalid encoding.  A valid
    rune has at least one byte, so the length is fuel enough. *)
Fixpoint valid_utf8 (fuel : nat) (l : list ascii) : bool :=
  match fuel, l with
  | _, [] => true
  | O, _ => false
  | S fuel, _ =>
      let '(r, n) := Path.decode_rune l in
      if (r =? Path.RuneError) && Nat.eqb n 1 then false else valid_utf8 fuel (drop n l)
  end.
Definition ValidString (value : string) : bool := valid_utf8 (String.length value) (bytes value).

(** ** [Format(time.RFC3339Nano)] *)
(** [appendInt(b, x, width)]. *)
Fixpoint decimal_digits (width : nat) (x : Z) : string :=
  match width with
  | O => ""
  | S width => decimal_digits width (x / 10) +:+ of_bytes [ascii_of_N (Z.to_N (48 + x mod 10))]
  end.
Definition appendInt (x : Z) (width : nat) : string :=
  let u := Z.abs x in
  (if x <? 0 then "-" else "")
    +:+ (if u <? 10 ^ Z.of_nat width then decimal_digits width u else pretty u).
(** The year of a day counted from the first of year 1. *)
Definition year_of (days : Z) : Z :=
  let n400 := days / 146097 in let d := days mod 146097 in
  let n100 := Z.min 3 (d / 36524) in let d := d - n100 * 36524 in
  let n4 := d / 1461 in let d := d mod 1461 in
  400 * n400 + 100 * n100 + 4 * n4 + Z.min 3 (d / 365) + 1.
(** The month and the day of the month of a day of the year. *)
Fixpoint month_of (fuel : nat) (year month day : Z) : Z * Z :=
  match fuel with
  | O => (month, day + 1)
  | S fuel => if day <? Path.days_in year month then (month, day + 1)
              else month_of fuel year (month + 1) (day - Path.days_in year month)
  end.
Fixpoint drop_zeros (l : list ascii) : list ascii :=
  match l with c :: l' => if byte_is 48 c then drop_zeros l' else l | [] => [] end.
Definition format_fraction (nanoseconds : Z) : string :=
  match drop_zeros (rev (bytes (decimal_digits 9 nanoseconds))) with
  | [] => ""
  | l => "." +:+ of_bytes (rev l)
  end.
Definition FormatRFC3339Nano (t : time) : string :=
  let seconds := t / Second in
  let days := seconds / 86400 in
  let s := seconds mod 86400 in
  let year := year_of days in
  let '(month, day) := month_of 11 year 1 (days - Path.days_before_year year) in
  appendInt year 4 +:+ "-" +:+ decimal_digits 2 month +:+ "-" +:+ decimal_digits 2 day +:+ "T"
    +:+ decimal_digits 2 (s / 3600) +:+ ":" +:+ decimal_digits 2 (s / 60 mod 60) +:+ ":"
    +:+ decimal_digits 2 (s mod 60) +:+ format_fraction (t mod Second) +:+ "Z".

Example format_ex :
  map (fun s => FormatRFC3339Nano <$> Specs.Parse_RFC3339 s)
    ["2024-02-29T23:59:59.5Z"; "1970-01-01T00:00:00Z"; "2000-12-31T05:06:07.000000089Z";
     "1900-03-01T00:00:00Z"; "2100-12-31T00:00:00.100Z"]
  = map Some ["2024-02-29T23:59:59.5Z"; "1970-01-01T00:00:00Z"; "2000-12-31T05:06:07.000000089Z";
     "1900-03-01T00:00:00Z"; "2100-12-31T00:00:00.1Z"].
Proof. vm_compute. reflexivity. Qed.

Definition invalidGoalCommand (scope : string) : orch_error := wire CodeInvalidArgument scope.

Section Service.
Context (jcs_Transform : string -> option string) (sha256_Sum256 : string -> list Z).
Context (strings_ToLower : string -> string) (url_Parse : string -> option Specs.URL).
Context `{codec : Codec}.
Context (s : Service).
Notation encodeTaskTransition := (encodeTaskTransition jcs_Transform sha256_Sum256).
Notation encodeProjectTransition := (encodeProjectTransition jcs_Transform sha256_Sum256).
Notation newEvent := (newEvent jcs_Transform sha256_Sum256).
Notation mustDigest := (mustDigest jcs_Transform sha256_Sum256).
Notation commandDigest := (commandDigest jcs_Transform sha256_Sum256).
Notation Digest := (CanonicalJson.Digest jcs_Transform sha256_Sum256).
Notation GoalSpec_Validate := (Specs.GoalSpec_Validate strings_ToLower url_Parse).

(** ** Goal specifications *)
Definition cloneGoalSpec (spec : Specs.GoalSpec) : Specs.GoalSpec :=
  default spec (encoded ← marshal_goal_spec spec; unmarshal_goal_spec encoded).

Definition goalSpecAggregateID (projectID goalSpecID : string) (version : Z) : string :=
  stableID sha256_Sum256 "goal" (projectID +:+ nul +:+ goalSpecID +:+ nul +:+ pretty version).

Definition validateGoalSpecContentDigest (spec : Specs.GoalSpec) : result unit orch_error :=
  match marshal_goal_content (Specs.GS.Content spec) with
  | None => Err ErrEncode
  | Some content =>
      if bool_decide (Digest content = Some (Specs.GS.ContentSHA256 spec)) then Ok tt
      else Err (wire CodeArtifactHashMismatch "goal spec content")
  end.

Definition goal_binding_bad (projectID : string) (goal : Project.GoalRecord) (spec : Specs.GoalSpec)
    : bool :=
  (Project.Goal_.ID goal ≟ "") || (Specs.GC.ProjectID (Specs.GS.Content spec) ≠? projectID)
  || negb (Specs.GC.Version (Specs.GS.Content spec) =? Project.Goal_.Version goal)
  || (Specs.GS.ContentSHA256 spec ≠? Project.Goal_.SHA256 goal).

Definition validateGoalSpecCommand (projectID : string) (goal : option Project.GoalRecord)
    (spec : Specs.GoalSpec) : result unit orch_error :=
  goal <-? goal else invalidGoalCommand "goal spec binding" ;;
  reject invalidGoalCommand "goal spec binding" when
    goal_binding_bad projectID goal spec || negb (is_ok (GoalSpec_Validate spec)) ;;
  validateGoalSpecContentDigest spec.

(** A stored tool without a descriptor gets one for the validation only. *)
Definition described_tool (tool : Specs.VersionedTool) : Specs.VersionedTool :=
  if (Specs.Source tool ≠? Specs.ToolchainInstallRequired) || negb (is_nil (Specs.Install tool))
  then tool else
  tool ⟦ Specs.Install := Some (Specs.mkInstall
    (if Specs.IsGCCTool tool then Specs.ToolchainInstallManual else Specs.ToolchainInstallUserArchive)
    false "" "" "" "" "") ⟧.
Definition validation_spec (spec : Specs.GoalSpec) : Specs.GoalSpec :=
  let spec := cloneGoalSpec spec in
  let content := Specs.GS.Content spec in
  if Specs.GC.GoalSpecVersion content =? 2 then
    match Specs.GC.Toolchain content with
    | None => spec
    | Some toolchain =>
        spec ⟦ Specs.GS.Content := content ⟦ Specs.GC.Toolchain :=
          Some (toolchain ⟦ Specs.Tools := map described_tool (Specs.Tools toolchain) ⟧) ⟧ ⟧
    end
  else spec.

(** The goal is never nil here. *)
Definition validateStoredGoalSpecCommand (projectID : string) (goal : Project.GoalRecord)
    (spec : Specs.GoalSpec) : result unit orch_error :=
  reject invalidGoalCommand "goal spec binding" when goal_binding_bad projectID goal spec ;;
  reject invalidGoalCommand "goal spec binding" when
    negb (is_ok (GoalSpec_Validate (validation_spec spec))) ;;
  validateGoalSpecContentDigest spec.

(** [GoalRecord{ID: ..., Version: ..., SHA256: ...}]. *)
Definition goal_record (id : string) (version : Z) (sha : string) : Project.GoalRecord :=
  Project.Goal_.mk id version sha [] (GoalStatusRaw "") "" "".

Definition decodeGoalSpecProjection (stored : Projection) : result GoalSpecProjection orch_error :=
  projection <-? unmarshal_goal_projection (p_State stored) else ErrDecode "goal spec projection" ;;
  let spec := gp_Spec projection in
  reject wire CodeInternalError "goal spec projection" when
    (gp_TenantID projection ≠? p_TenantID stored) || (gp_ProjectID projection ≠? p_ProjectID stored)
    || (gp_GoalSpecID projection ≟ "") || (gp_RecordID projection ≟ "")
    || (Specs.GC.Version (Specs.GS.Content spec) <? 1)
    || (Specs.GC.ProjectID (Specs.GS.Content spec) ≠? p_ProjectID stored) ;;
  _ <-! validateStoredGoalSpecCommand (p_ProjectID stored)
    (goal_record (gp_GoalSpecID projection) (Specs.GC.Version (Specs.GS.Content spec))
       (Specs.GS.ContentSHA256 spec)) spec ;;
  Ok (projection ⟦ gp_Revision := p_Version stored ⟧).

(** ** The command before it is digested *)
Definition prepareProjectLifecycleCommand (request : ProjectRequest)
    (command : Project.ProjectCommand) : result Project.ProjectCommand orch_error :=
  match Project.Cmd.Type_ command with
  | Project.ProjectCommandRequestDeletion =>
      deletion <-? Project.Cmd.Deletion command else invalidGoalCommand "deletion request required" ;;
      Ok (command ⟦ Project.Cmd.Deletion := Some (Project.Del.mk "" (Project.ProjectDeletionRaw "")
            (pr_PrincipalID request) 0 (Project.Del.EarliestExecutionAt deletion) None None "" ""
            None) ⟧)
  | Project.ProjectCommandPlaceLegalHold =>
      hold <-? Project.Cmd.LegalHold command else invalidGoalCommand "legal hold required" ;;
      Ok (command ⟦ Project.Cmd.LegalHold := Some (Project.Hold.mk "" (Project.Hold.Reason hold)
            (pr_PrincipalID request) 0 "" None "") ⟧)
  | _ => Ok command
  end.

(** The kind a message has beside a command, and what is refused when it is
    another. *)
Definition message_kind (ty : Project.ProjectCommandType)
    : option (Project.GoalMessageKind * string) :=
  match ty with
  | Project.ProjectCommandSubmitGoalMessage => Some (Project.GoalMessageUser, "goal message kind")
  | Project.ProjectCommandProposeGoal | Project.ProjectCommandSupersedeGoal =>
      Some (Project.GoalMessageUser, "goal proposal message kind")
  | Project.ProjectCommandRejectGoal =>
      Some (Project.GoalMessageRejection, "goal rejection message kind")
  | Project.ProjectCommandRequestGoalChange =>
      Some (Project.GoalMessageChangeRequest, "goal change message kind")
  | _ => None
  end.
Definition message_content_bad (message : string) : bool :=
  (message ≟ "") || (maximumGoalMessageBytes <? len message) || negb (ValidString message)
  || negb (no_nul message).

Definition prepare_message (request : ProjectRequest) (ty : Project.ProjectCommandType)
    (message : Project.GoalMessage) : result Project.GoalMessage orch_error :=
  let hex := hex_sum sha256_Sum256 (Project.Msg.Message message) in
  expected <-? message_kind ty else invalidGoalCommand "unexpected goal message" ;;
  let kind := if Project.Msg.Kind message ≟ Project.GoalMessageRaw "" then expected.1
              else Project.Msg.Kind message in
  reject invalidGoalCommand expected.2 when kind ≠? expected.1 ;;
  reject invalidGoalCommand "goal message content" when
    message_content_bad (Project.Msg.Message message) ;;
  Ok (Project.Msg.mk "" (pr_TenantID request) (pr_ProjectID request) kind
        (Project.Msg.Message message) ("sha256:" +:+ hex) ("artifact://sha256/" +:+ hex) 0
        (pr_PrincipalID request)).

Definition message_required (ty : Project.ProjectCommandType) : bool :=
  (ty ≟ Project.ProjectCommandSubmitGoalMessage) || (ty ≟ Project.ProjectCommandRequestGoalChange).

(** A command and its goal specification, which [ProjectCommand] holds in the
    code. *)
Definition goal_command : Type := Project.ProjectCommand * option Specs.GoalSpec.

Definition prepareGoalCommand (request : ProjectRequest) (c : goal_command)
    : result goal_command orch_error :=
  command <-! prepareProjectLifecycleCommand request c.1 ;;
  command <-! match Project.Cmd.GoalMessage command with
              | Some message =>
                  message <-! prepare_message request (Project.Cmd.Type_ command) message ;;
                  Ok (command ⟦ Project.Cmd.GoalMessage := Some message ⟧)
              | None =>
                  reject invalidGoalCommand "goal message required" when
                    message_required (Project.Cmd.Type_ command) ;;
                  Ok command
              end ;;
  match c.2 with
  | None => Ok (command, None)
  | Some spec =>
      let spec := cloneGoalSpec spec in
      _ <-! validateGoalSpecCommand (pr_ProjectID request) (Project.Cmd.Goal command) spec ;;
      Ok (command, Some spec)
  end.

(** What is digested: nothing the service sets itself. *)
Definition goalDigestCommand (c : goal_command) : goal_command :=
  let command := c.1 in
  (command
     ⟦ Project.Cmd.Deletion := (fun d => d ⟦ Project.Del.ID := "" ⟧ ⟦ Project.Del.RequestedAt := 0 ⟧
          ⟦ Project.Del.StartedAt := None ⟧ ⟦ Project.Del.CompletedAt := None ⟧)
          <$> Project.Cmd.Deletion command ⟧
     ⟦ Project.Cmd.LegalHold := (fun h => h ⟦ Project.Hold.ID := "" ⟧ ⟦ Project.Hold.PlacedAt := 0 ⟧)
          <$> Project.Cmd.LegalHold command ⟧
     ⟦ Project.Cmd.Approval := (fun a => a ⟦ Approval.RecordID := "" ⟧ ⟦ Approval.IssuedAt := 0 ⟧)
          <$> Project.Cmd.Approval command ⟧,
   (fun spec =>
      let spec := cloneGoalSpec spec in
      match Specs.GS.ApprovedBy spec with
      | None => spec
      | Some actor => spec ⟦ Specs.GS.ApprovedBy := Some (Specs.mkApprovalActor (Specs.ActorID actor) "") ⟧
      end) <$> c.2).

(** ** The command before it is decided *)
(** A fresh identifier for a part of the command, when it is there. *)
Definition identified {A} (part : option A) (set : string -> A -> A) : M (option A) :=
  match part with
  | None => ret None
  | Some part => id <~ newRecordUUIDv7 ;; ret (Some (set id part))
  end.

Definition finalizeGoalCommand (command : Project.ProjectCommand) : M Project.ProjectCommand :=
  let at_ := Project.Cmd.At command in
  command <~ (if Project.Cmd.Type_ command ≠? Project.ProjectCommandRequestDeletion then ret command
    else
      deletion <~ identified (Project.Cmd.Deletion command) (fun id d =>
        d ⟦ Project.Del.ID := id ⟧ ⟦ Project.Del.RequestedAt := at_ ⟧
          ⟦ Project.Del.EarliestExecutionAt := if IsZero (Project.Del.EarliestExecutionAt d)
             then at_ else Project.Del.EarliestExecutionAt d ⟧) ;;
      ret (command ⟦ Project.Cmd.Deletion := deletion ⟧)) ;;
  command <~ (if Project.Cmd.Type_ command ≠? Project.ProjectCommandPlaceLegalHold then ret command
    else
      hold <~ identified (Project.Cmd.LegalHold command) (fun id h =>
        h ⟦ Project.Hold.ID := id ⟧ ⟦ Project.Hold.PlacedAt := at_ ⟧) ;;
      ret (command ⟦ Project.Cmd.LegalHold := hold ⟧)) ;;
  message <~ identified (Project.Cmd.GoalMessage command) (fun id m =>
    m ⟦ Project.Msg.ID := id ⟧ ⟦ Project.Msg.CreatedAt := at_ ⟧) ;;
  let command := command ⟦ Project.Cmd.GoalMessage := message ⟧ in
  approval <~ identified (Project.Cmd.Approval command) (fun id a => a ⟦ Approval.RecordID := id ⟧) ;;
  ret (command ⟦ Project.Cmd.Approval := approval ⟧).

(** ** The goal records a project command writes *)
(** The version after [expected] of a record. *)
Definition goal_write (request : ProjectRequest) (aggregateType aggregateID eventType : string)
    (expected : Z) (at_ : time) (content digest : string) : M writes :=
  let version := wrap64 (expected + 1) in
  event <~ newEvent (pr_TenantID request) (pr_ProjectID request) aggregateType aggregateID eventType
    version at_ content digest ;;
  ret ([mkProjectionUpdate (pr_TenantID request) (pr_ProjectID request) aggregateType aggregateID
          expected version content], [event]).

Definition store_message (request : ProjectRequest) (message : Project.GoalMessage) (at_ : time)
    (digest : string) : M writes :=
  content <~ some_or ErrEncode (marshal_message message) ;;
  found <~ load (pr_TenantID request) "goal_message" (Project.Msg.ID message) ;;
  refuse wire CodeConflict "goal message" when negb (is_nil found) ;;
  goal_write request "goal_message" (Project.Msg.ID message) "io.aor.goal.message-stored.v1" 0 at_
    content digest.

(** The checks of [goalSpecStatusTransition] on the stored specification. *)
Definition status_refused (status : GoalStatus) (approvedBy : option Specs.ApprovalActor)
    (spec : Specs.GoalSpec) : option orch_error :=
  if (status ≟ GoalApproved)
     && ((Specs.GS.Status spec ≠? GoalDraft)
         || negb (Nat.eqb (length (Specs.GC.UnresolvedItems (Specs.GS.Content spec))) 0)
         || is_nil approvedBy)
  then Some (bare CodeGoalNotApproved)
  else if (status ≟ GoalRejected) && (Specs.GS.Status spec ≠? GoalDraft)
  then Some (wire CodeInvalidStateTransition "goal spec rejection")
  else None.

Definition status_event (status : GoalStatus) : string :=
  "io.aor.goal.spec-" +:+ ToLower (match status with
    | GoalDraft => "DRAFT" | GoalApproved => "APPROVED" | GoalSuperseded => "SUPERSEDED"
    | GoalRejected => "REJECTED" | GoalStatusRaw raw => raw end) +:+ ".v1".

(** Nothing is written for a goal without a stored specification, or for one
    that is superseded or rejected already and is superseded. *)
Definition goalSpecStatusTransition (request : ProjectRequest) (goal : Project.GoalRecord)
    (status : GoalStatus) (approvedBy : option Specs.ApprovalActor) (at_ : time) (digest : string)
    : M writes :=
  let aggregateID := goalSpecAggregateID (pr_ProjectID request) (Project.Goal_.ID goal)
                       (Project.Goal_.Version goal) in
  found <~ load (pr_TenantID request) "goal_spec" aggregateID ;;
  match found with
  | None => ret no_writes
  | Some stored =>
      projection <~ Ret (decodeGoalSpecProjection stored) ;;
      let spec := gp_Spec projection in
      refuse bare CodeGoalHashMismatch when
        (gp_GoalSpecID projection ≠? Project.Goal_.ID goal)
        || negb (Specs.GC.Version (Specs.GS.Content spec) =? Project.Goal_.Version goal)
        || (Specs.GS.ContentSHA256 spec ≠? Project.Goal_.SHA256 goal) ;;
      match status_refused status approvedBy spec with
      | Some e => fail e
      | None =>
          if (status ≟ GoalSuperseded)
             && ((Specs.GS.Status spec ≟ GoalSuperseded) || (Specs.GS.Status spec ≟ GoalRejected))
          then ret no_writes else
          content <~ some_or ErrEncode (marshal_goal_projection
            (projection ⟦ gp_Spec := spec ⟦ Specs.GS.Status := status ⟧
                                          ⟦ Specs.GS.ApprovedBy := approvedBy ⟧ ⟧)) ;;
          goal_write request "goal_spec" aggregateID (status_event status) (p_Version stored) at_
            content digest
      end
  end.

(** The specification a new goal comes with, and the end of the one before. *)
Definition propose_spec (request : ProjectRequest) (current : Project.Project)
    (goal : Project.GoalRecord) (spec : Specs.GoalSpec) (at_ : time) (digest : string) : M writes :=
  superseded <~ match Project.Goal current with
                | Some old =>
                    if Project.Goal_.Version old <? Project.Goal_.Version goal
                    then goalSpecStatusTransition request old GoalSuperseded None at_ digest
                    else ret no_writes
                | None => ret no_writes
                end ;;
  recordID <~ newRecordUUIDv7 ;;
  content <~ some_or ErrEncode (marshal_goal_projection
    (mkGoalSpecProjection (pr_TenantID request) (pr_ProjectID request) (Project.Goal_.ID goal)
       recordID (cloneGoalSpec spec) 0)) ;;
  let aggregateID := goalSpecAggregateID (pr_ProjectID request) (Project.Goal_.ID goal)
                       (Project.Goal_.Version goal) in
  found <~ load (pr_TenantID request) "goal_spec" aggregateID ;;
  refuse bare CodeSpecSuperseded when negb (is_nil found) ;;
  stored <~ goal_write request "goal_spec" aggregateID "io.aor.goal.spec-stored.v1" 0 at_ content
    digest ;;
  ret (join superseded stored).

(** The review status a command gives to the specification of its goal. *)
Definition reviewed (command : Project.ProjectCommand)
    : option (GoalStatus * option Specs.ApprovalActor) :=
  match Project.Cmd.Type_ command with
  | Project.ProjectCommandApproveGoal =>
      Some (GoalApproved, (fun a => Specs.mkApprovalActor (Project.Cmd.ActorID command)
              (FormatRFC3339Nano (UTC (Approval.IssuedAt a)))) <$> Project.Cmd.Approval command)
  | Project.ProjectCommandRejectGoal => Some (GoalRejected, None)
  | Project.ProjectCommandRequestGoalChange => Some (GoalSuperseded, None)
  | _ => None
  end.

Definition proposes_goal (ty : Project.ProjectCommandType) : bool :=
  (ty ≟ Project.ProjectCommandProposeGoal) || (ty ≟ Project.ProjectCommandSupersedeGoal).

Definition goalRelatedTransitions (request : ProjectRequest) (current : Project.Project)
    (c : goal_command) (digest : string) : M writes :=
  let command := c.1 in
  let at_ := Project.Cmd.At command in
  message <~ match Project.Cmd.GoalMessage command with
             | Some message => store_message request message at_ digest
             | None => ret no_writes
             end ;;
  proposed <~ match Project.Cmd.Goal command, c.2 with
              | Some goal, Some spec =>
                  if proposes_goal (Project.Cmd.Type_ command)
                  then propose_spec request current goal spec at_ digest else ret no_writes
              | _, _ => ret no_writes
              end ;;
  status <~ match Project.Cmd.Goal command, reviewed command with
            | Some goal, Some (status, approvedBy) =>
                goalSpecStatusTransition request goal status approvedBy at_ digest
            | _, _ => ret no_writes
            end ;;
  ret (join (join message proposed) status).

(** ** The facts of a project command ([boundary.go]) *)
Definition guard_claims (guard : Project.ProjectGuardFacts) : gmap string bool :=
  {["all_tasks_passed" := Project.Guard.AllTasksPassed guard;
    "all_tasks_integrated" := Project.Guard.AllTasksIntegrated guard;
    "integration_audit_passed" := Project.Guard.IntegrationAuditPassed guard]}.
Definition completion_claims (facts : Project.CompletionFacts) : gmap string bool :=
  list_to_map [
    ("all_tasks_integrated", Project.Facts.AllTasksIntegrated facts);
    ("all_integration_tasks_done", Project.Facts.AllIntegrationTasksDone facts);
    ("integration_audit_passed", Project.Facts.IntegrationAuditPassed facts);
    ("goal_criteria_satisfied", Project.Facts.GoalCriteriaSatisfied facts);
    ("global_audit_passed", Project.Facts.GlobalAuditPassed facts);
    ("release_gates_passed", Project.Facts.ReleaseGatesPassed facts);
    ("release_artifacts_signed", Project.Facts.ReleaseArtifactsSigned facts);
    ("sbom_generated", Project.Facts.SBOMGenerated facts);
    ("provenance_generated", Project.Facts.ProvenanceGenerated facts);
    ("no_blocked_or_rework", Project.Facts.NoBlockedOrRework facts);
    ("no_blocking_findings", Project.Facts.NoBlockingFindings facts);
    ("risk_acceptances_valid", Project.Facts.RiskAcceptancesValid facts);
    ("operational_summaries_generated", Project.Facts.OperationalSummariesGenerated facts);
    ("plan_supervisor_summary_generated", Project.Facts.PlanSupervisorSummaryGenerated facts);
    ("goal_summary_verified", Project.Facts.GoalSummaryVerified facts);
    ("final_result_delivered", Project.Facts.FinalResultDelivered facts)].

(** The completion's claims are written last. *)
Definition project_claims (command : Project.ProjectCommand) : gmap string bool :=
  default ∅ (completion_claims <$> Project.Cmd.Completion command)
  ∪ default ∅ (guard_claims <$> Project.Cmd.Guard command).
Definition project_evidence (command : Project.ProjectCommand) : list string :=
  from_option (fun guard => [Project.Guard.EvidenceSHA256 guard]) [] (Project.Cmd.Guard command)
  ++ from_option (fun facts => [Project.Facts.EvidenceSHA256 facts]) [] (Project.Cmd.Completion command).
Definition project_goal_ref (command : Project.ProjectCommand) : SpecRef :=
  match Project.Cmd.GoalSpecRef command, Project.Cmd.Goal command with
  | Some ref, _ => ref
  | None, Some goal => mkSpecRef (Project.Goal_.Version goal) (Project.Goal_.SHA256 goal)
  | None, None => zeroSpecRef
  end.

Definition project_validation (request : ProjectRequest) (current : Project.Project)
    (command : Project.ProjectCommand) (parameterDigest : string) : Capability.CommitValidation :=
  Capability.Val.mk (pr_TenantID request) (pr_ProjectID request) "" (pr_PrincipalID request)
    (Project.ProjectCommandType_string (Project.Cmd.Type_ command)) (pr_ExpectedVersion request)
    current Task.zeroModuleTask parameterDigest (project_evidence command) (project_claims command)
    zeroSpecRef (project_goal_ref command) 0 (approval_id (Project.Cmd.Approval command))
    (pr_Authorization request) (Project.Cmd.At command).

Definition validateProjectCommit (request : ProjectRequest) (current : Project.Project)
    (command : Project.ProjectCommand) (parameterDigest : string) : M unit :=
  validateCommitBoundary (project_validation request current command parameterDigest).

(** ** [HandleProject] *)
(** The tasks a new goal or a goal change retires. *)
Fixpoint supersede_tasks (request : ProjectRequest) (at_ : time) (digest : string)
    (taskIDs : list string) : M writes :=
  match taskIDs with
  | [] => ret no_writes
  | taskID :: taskIDs =>
      found <~ load (pr_TenantID request) "task" taskID ;;
      projection <~ some_or (wire CodeNotFound "impacted task") found ;;
      task <~ decodeTask (p_State projection) ;;
      refuse bare CodeForbidden when
        (Task.TenantID task ≠? pr_TenantID request) || (Task.ProjectID task ≠? pr_ProjectID request) ;;
      event <~ lift Wire (Task.DecideTask task (command_at Task.TaskCommandSupersede "" at_)) ;;
      e <~ encodeTaskTransition (pr_TenantID request) (pr_ProjectID request) taskID
        (Task.Version task) event digest ;;
      ws <~ supersede_tasks request at_ digest taskIDs ;;
      ret (join (one e) ws)
  end.

Definition normalizedProjectCommand (request : ProjectRequest) : Project.ProjectCommand :=
  (pr_Command request)
    ⟦ Project.Cmd.TenantID := pr_TenantID request ⟧
    ⟦ Project.Cmd.ProjectID := pr_ProjectID request ⟧
    ⟦ Project.Cmd.ActorID := pr_PrincipalID request ⟧
    ⟦ Project.Cmd.At := 0 ⟧.

(** A new project is created under the first identifier that commits: the
    identifier is not part of the digest. *)
Definition ProjectDigest (request : ProjectRequest) (c : goal_command) : M string :=
  let d := goalDigestCommand c in
  let command := if Project.Cmd.Type_ d.1 ≟ Project.ProjectCommandCreate
                 then d.1 ⟦ Project.Cmd.ProjectID := "" ⟧ else d.1 in
  commandDigest (marshal_project_command (pr_ExpectedVersion request) command d.2).

Definition load_project_current (request : ProjectRequest) (ty : Project.ProjectCommandType)
    : M Project.Project :=
  found <~ load (pr_TenantID request) "project" (pr_ProjectID request) ;;
  current <~ match found with
             | Some projection => decodeProject (p_State projection)
             | None =>
                 refuse bare CodeNotFound when ty ≠? Project.ProjectCommandCreate ;;
                 ret Project.zeroProject
             end ;;
  refuse versionConflict (pr_ExpectedVersion request) (Project.Version current) when
    negb (Project.Version current =? pr_ExpectedVersion request) ;;
  ret current.

Definition project_approvals (request : ProjectRequest) (command : Project.ProjectCommand)
    : list ApprovalRecord :=
  if (Project.Cmd.Type_ command ≟ Project.ProjectCommandApproveGoal)
     || (Project.Cmd.Type_ command ≟ Project.ProjectCommandApproveRelease)
  then approvalRecords (pr_TenantID request) (pr_ProjectID request) (Project.Cmd.Approval command)
  else [].

Definition retires_tasks (ty : Project.ProjectCommandType) : bool :=
  (ty ≟ Project.ProjectCommandSupersedeGoal) || (ty ≟ Project.ProjectCommandRequestGoalChange).

Definition HandleProject (request : ProjectRequest) : M ProjectOutcome :=
  _ <~ validateRequest (pr_TenantID request) (pr_ProjectID request) (pr_PrincipalID request)
    (pr_IdempotencyKey request) (pr_ExpectedVersion request) ;;
  c <~ Ret (prepareGoalCommand request (normalizedProjectCommand request, pr_GoalSpec request)) ;;
  digest <~ ProjectDigest request c ;;
  prior <~ lookup_ (pr_TenantID request) (pr_PrincipalID request) (pr_IdempotencyKey request) digest ;;
  match prior with
  | Some prior =>
      project <~ decodeProject (t_Result prior) ;;
      ret (mkProjectOutcome project (t_Events prior) true)
  | None =>
      current <~ load_project_current request (Project.Cmd.Type_ c.1) ;;
      at_ <~ clock ;;
      command <~ finalizeGoalCommand (c.1 ⟦ Project.Cmd.At := UTC at_ ⟧) ;;
      event <~ lift Wire (Project.DecideProject current command) ;;
      e <~ encodeProjectTransition (pr_TenantID request) (pr_ProjectID request)
        (pr_ExpectedVersion request) event digest ;;
      goals <~ goalRelatedTransitions request current (command, c.2) digest ;;
      retired <~ (if retires_tasks (Project.Cmd.Type_ command)
                  then supersede_tasks request (Project.Cmd.At command) digest
                         (Project.Cmd.ImpactedTaskIDs command)
                  else ret no_writes) ;;
      let w := join (join (one e) goals) retired in
      _ <~ validateProjectCommit request current command digest ;;
      sum <~ mustDigest e.2 ;;
      committed <~ execute (mkTransactionRequest (pr_TenantID request) (pr_PrincipalID request)
        (pr_IdempotencyKey request) digest w.1 (applyEventTrace sha256_Sum256 s digest w.2)
        (project_approvals request command) [] e.2 sum) ;;
      project <~ decodeProject (t_Result committed) ;;
      ret (mkProjectOutcome project (t_Events committed) (t_Duplicate committed))
  end.

(** ** The goal queries *)
Definition listGoalProjections (tenantID projectID aggregateType : string) : M (list Projection) :=
  refuse wire CodeInvalidArgument "goal query" when (tenantID ≟ "") || (projectID ≟ "") ;;
  refuse wire CodeDependencyUnavailable "goal projection list" when negb (is_list s) ;;
  list_projections tenantID projectID aggregateType.

Fixpoint decode_messages (tenantID projectID : string) (projections : list Projection)
    : result (list Project.GoalMessage) orch_error :=
  match projections with
  | [] => Ok []
  | projection :: projections =>
      let bad := wire CodeInternalError "goal message projection" in
      message <-? unmarshal_message (p_State projection) else bad ;;
      reject bad when
        (Project.Msg.TenantID message ≠? tenantID) || (Project.Msg.ProjectID message ≠? projectID)
        || (Project.Msg.ID message ≠? p_AggregateID projection) ;;
      messages <-! decode_messages tenantID projectID projections ;;
      Ok (message :: messages)
  end.

Definition message_before (left right : Project.GoalMessage) : bool :=
  if negb (Equal (Project.Msg.CreatedAt left) (Project.Msg.CreatedAt right))
  then Before (Project.Msg.CreatedAt left) (Project.Msg.CreatedAt right)
  else String.ltb (Project.Msg.ID left) (Project.Msg.ID right).

Definition GoalMessages (tenantID projectID : string) : M (list Project.GoalMessage) :=
  projections <~ listGoalProjections tenantID projectID "goal_message" ;;
  messages <~ Ret (decode_messages tenantID projectID projections) ;;
  ret (sort_slice message_before messages).

Definition goal_version (g : GoalSpecProjection) : Z :=
  Specs.GC.Version (Specs.GS.Content (gp_Spec g)).

Fixpoint decode_goals (tenantID projectID : string) (versions : gset Z)
    (projections : list Projection) : result (list GoalSpecProjection) orch_error :=
  match projections with
  | [] => Ok []
  | stored :: projections =>
      goal <-! decodeGoalSpecProjection stored ;;
      reject wire CodeInternalError "goal spec projection" when
        (gp_TenantID goal ≠? tenantID) || (gp_ProjectID goal ≠? projectID)
        || bool_decide (goal_version goal ∈ versions) ;;
      goals <-! decode_goals tenantID projectID ({[goal_version goal]} ∪ versions) projections ;;
      Ok (goal :: goals)
  end.

Definition GoalSpecs (tenantID projectID : string) : M (list GoalSpecProjection) :=
  projections <~ listGoalProjections tenantID projectID "goal_spec" ;;
  goals <~ Ret (decode_goals tenantID projectID ∅ projections) ;;
  ret (sort_slice (fun left right => goal_version left <? goal_version right) goals).

(** [None] is not found. *)
Definition GoalSpec (tenantID projectID : string) (version : Z) : M (option GoalSpecProjection) :=
  refuse wire CodeInvalidArgument "goal version" when version <? 1 ;;
  goals <~ GoalSpecs tenantID projectID ;;
  ret (List.find (fun goal => goal_version goal =? version) goals).

End Service.
End OrchestratorGoals.
