(* ===== verification/OrchestratorLogic.v ===== *)
(** Reasoning about the orchestrator's handlers while other requests run.

    [wp] is the weakest precondition of a handler over what it has observed so
    far; [runs] interleaves its calls with arbitrary commands of others on the
    store; [runs_from] connects the two: a handler commits what its weakest
    precondition allows, on observations made since it started. *)

From S2P Require Import Prelude GoLib Runs Json Errors Task Project EventStore EventStoreProps Capability Effects Orchestrator.

Module OrchestratorLogic.
Import EventStore EventStoreProps Effects Orchestrator.

(** ** Observations *)
Inductive obs : Type :=
| SawLookup (tenantID principalID key digest : string) (r : result (option TransactionResult) store_error)
| SawLoad (tenantID aggregateType aggregateID : string) (r : result (option Projection) store_error)
| SawList (tenantID projectID aggregateType : string) (r : result (list Projection) store_error)
| SawListTenant (tenantID : string) (r : result (list Projection) store_error)
| SawExecute (request : TransactionRequest) (r : result TransactionResult store_error)
| SawClock (t : time)
| SawUUID (id : option string)
| SawValidate (v : Capability.CommitValidation) (accepted : bool)
| SawCtxErr (done : bool).

(** What a handler has observed, the latest first. *)
Abbreviation knowledge := (list obs).

(** ** Weakest preconditions: [J] is what every commit must satisfy. *)
Section Wp.
Context (J : knowledge -> TransactionRequest -> Prop).

Fixpoint wp {A} (p : prog A) (K : knowledge) (Q : knowledge -> A -> Prop) : Prop :=
  match p with
  | Ret a => Q K a
  | DoLookup t p key d k => forall r, wp (k r) (SawLookup t p key d r :: K) Q
  | DoLoad t ty i k => forall r, wp (k r) (SawLoad t ty i r :: K) Q
  | DoList t p ty k => forall r, wp (k r) (SawList t p ty r :: K) Q
  | DoListTenant t k => forall r, wp (k r) (SawListTenant t r :: K) Q
  | DoExecute q k => J K q /\ forall r, wp (k r) (SawExecute q r :: K) Q
  | DoClock k => forall t, wp (k t) (SawClock t :: K) Q
  | DoUUID k => forall o, wp (k o) (SawUUID o :: K) Q
  | DoValidate v k => forall b, wp (k b) (SawValidate v b :: K) Q
  | DoCtxErr k => forall b, wp (k b) (SawCtxErr b :: K) Q
  end.

Lemma wp_mono {A} (p : prog A) K (Q Q' : knowledge -> A -> Prop) :
  (forall K a, Q K a -> Q' K a) -> wp p K Q -> wp p K Q'.
Proof. intros HQ. revert K. induction p; intros K; cbn; naive_solver. Qed.

Lemma wp_bind {A B} (p : prog A) (f : A -> prog B) K Q :
  wp p K (fun K a => wp (f a) K Q) -> wp (bind p f) K Q.
Proof. revert K. induction p; intros K; cbn; naive_solver. Qed.

(** The postcondition of a program that may fail speaks of its success. *)
Definition spec {A} (m : M A) (K : knowledge) (Q : knowledge -> A -> Prop) : Prop :=
  wp m K (fun K r => match r with Ok a => Q K a | Err _ => True end).

Lemma spec_mono {A} (m : M A) K (Q Q' : knowledge -> A -> Prop) :
  (forall K a, Q K a -> Q' K a) -> spec m K Q -> spec m K Q'.
Proof. intros HQ. apply wp_mono. intros K' [a|e]; auto. Qed.
(** Only the commits matter. *)
Lemma spec_any {A} (m : M A) K :
  spec m K (fun _ _ => True) -> wp m K (fun _ _ => True).
Proof. by apply wp_mono. Qed.
Lemma spec_bind {A B} (m : M A) (f : A -> M B) K Q :
  spec m K (fun K a => spec (f a) K Q) -> spec (mbind m f) K Q.
Proof. intros H. apply wp_bind. eapply wp_mono; [|exact H]. by intros K' [a|e]. Qed.
Lemma spec_ret {A} (a : A) K (Q : knowledge -> A -> Prop) : Q K a -> spec (ret a) K Q.
Proof. done. Qed.
Lemma spec_fail {A} e K (Q : knowledge -> A -> Prop) : spec (fail e) K Q.
Proof. done. Qed.
Lemma spec_Ret {A} (r : result A orch_error) K (Q : knowledge -> A -> Prop) :
  (forall a, r = Ok a -> Q K a) -> spec (Ret r) K Q.
Proof. unfold spec. cbn. destruct r; auto. Qed.
Lemma spec_lift {A E} (inj : E -> orch_error) (r : result A E) K (Q : knowledge -> A -> Prop) :
  (forall a, r = Ok a -> Q K a) -> spec (lift inj r) K Q.
Proof. unfold spec. cbn. destruct r; auto. Qed.
Lemma spec_some_or {A} e (o : option A) K (Q : knowledge -> A -> Prop) :
  (forall a, o = Some a -> Q K a) -> spec (some_or e o) K Q.
Proof. unfold spec. destruct o; cbn; auto. Qed.
Lemma spec_refuse {A} (c : bool) e (m : M A) K (Q : knowledge -> A -> Prop) :
  (c = false -> spec m K Q) -> spec (if c then fail e else m) K Q.
Proof. destruct c; auto using spec_fail. Qed.
Lemma spec_if {A} (c : bool) (m m' : M A) K (Q : knowledge -> A -> Prop) :
  (c = true -> spec m K Q) -> (c = false -> spec m' K Q) -> spec (if c then m else m') K Q.
Proof. destruct c; auto. Qed.

Lemma spec_lookup t p key d K (Q : knowledge -> option TransactionResult -> Prop) :
  (forall r, Q (SawLookup t p key d (Ok r) :: K) r) -> spec (lookup_ t p key d) K Q.
Proof. intros H [r|e]; cbn; auto. Qed.
Lemma spec_load t ty i K (Q : knowledge -> option Projection -> Prop) :
  (forall r, Q (SawLoad t ty i (Ok r) :: K) r) -> spec (load t ty i) K Q.
Proof. intros H [r|e]; cbn; auto. Qed.
Lemma spec_list t p ty K (Q : knowledge -> list Projection -> Prop) :
  (forall r, Q (SawList t p ty (Ok r) :: K) r) -> spec (list_projections t p ty) K Q.
Proof. intros H [r|e]; cbn; auto. Qed.
Lemma spec_execute q K (Q : knowledge -> TransactionResult -> Prop) :
  J K q -> (forall r, Q (SawExecute q (Ok r) :: K) r) -> spec (execute q) K Q.
Proof. intros HJ H. split; [done|]. intros [r|e]; cbn; auto. Qed.
Lemma spec_clock K (Q : knowledge -> time -> Prop) :
  (forall t, Q (SawClock t :: K) t) -> spec clock K Q.
Proof. intros H t. cbn. auto. Qed.
Lemma spec_uuid K (Q : knowledge -> string -> Prop) :
  (forall id, Q (SawUUID (Some id) :: K) id) -> spec newRecordUUIDv7 K Q.
Proof. intros H [id|]; cbn; auto. Qed.
End Wp.

(** Two facts about one program. *)
Lemma wp_and (J J' : knowledge -> TransactionRequest -> Prop) {A} (p : prog A) K Q Q' :
  wp J p K Q -> wp J' p K Q' -> wp J p K (fun K a => Q K a /\ Q' K a).
Proof. revert K. induction p; intros K; cbn; naive_solver. Qed.
Lemma wp_both (J J' : knowledge -> TransactionRequest -> Prop) {A} (p : prog A) K Q Q' :
  wp J p K Q -> wp J' p K Q' -> wp (fun K q => J K q /\ J' K q) p K (fun _ _ => True).
Proof. revert K. induction p; intros K; cbn; naive_solver. Qed.

(** ** Readings of the clock *)
(** The latest reading. *)
Fixpoint last_clock (K : knowledge) : option time :=
  match K with
  | [] => None
  | SawClock t :: _ => Some t
  | _ :: K => last_clock K
  end.

(** A program that neither reads the clock nor commits. *)
Fixpoint quiet {A} (p : prog A) : Prop :=
  match p with
  | Ret _ => True
  | DoLookup _ _ _ _ k => forall r, quiet (k r)
  | DoLoad _ _ _ k => forall r, quiet (k r)
  | DoList _ _ _ k => forall r, quiet (k r)
  | DoListTenant _ k => forall r, quiet (k r)
  | DoUUID k => forall o, quiet (k o)
  | DoValidate _ k => forall b, quiet (k b)
  | DoCtxErr k => forall b, quiet (k b)
  | DoExecute _ _ | DoClock _ => False
  end.

Lemma quiet_wp (J : knowledge -> TransactionRequest -> Prop) {A} (p : prog A) K :
  quiet p -> wp J p K (fun K' _ => last_clock K' = last_clock K).
Proof.
  revert K. induction p; intros K; cbn; try done; intros Hq r; (eapply wp_mono; [|by apply H]); done.
Qed.
Lemma quiet_spec (J : knowledge -> TransactionRequest -> Prop) {A} (m : M A) K
    (Q : knowledge -> A -> Prop) :
  quiet m -> (forall K' a, last_clock K' = last_clock K -> Q K' a) -> spec J m K Q.
Proof. intros Hq HQ. eapply wp_mono; [|by apply quiet_wp]. intros K' [a|e] ?; auto. Qed.

Lemma quiet_spec_and (J : knowledge -> TransactionRequest -> Prop) {A} (m : M A) K
    (R Q : knowledge -> A -> Prop) :
  quiet m -> spec J m K R -> (forall K' a, R K' a -> last_clock K' = last_clock K -> Q K' a) -> spec J m K Q.
Proof.
  intros Hq HR HQ. eapply wp_mono; [|exact (wp_and J J _ _ _ _ HR (quiet_wp J _ _ Hq))].
  intros K' [a|e] [? ?]; auto.
Qed.

Lemma quiet_bind {A B} (p : prog A) (f : A -> prog B) :
  quiet p -> (forall a, quiet (f a)) -> quiet (bind p f).
Proof. intros Hp Hf. induction p; cbn in *; auto. Qed.
Lemma quiet_mbind {A B} (m : M A) (f : A -> M B) :
  quiet m -> (forall a, quiet (f a)) -> quiet (mbind m f).
Proof. intros Hm Hf. apply quiet_bind; [done|]. by intros [a|e]. Qed.

(** ** Interleaved runs *)
Section Runs.
Context (jcs_Transform : string -> option string) (sha256_Sum256 : string -> list Z).
Context (boundary : Capability.CommitBoundary).
Context (honest : TransactionRequest -> Prop).
Notation Execute := (Execute jcs_Transform sha256_Sum256).
Notation store_step := (store_step jcs_Transform sha256_Sum256).

(** The commands of others: those on the store, their transactions [honest]. *)
Definition honest_command (c : command) : Prop :=
  match c with CmdExecute q => honest q | _ => True end.
Definition later (s s' : MemoryStore) : Prop :=
  exists cs, run store_step s cs s' /\ Forall honest_command cs.

Lemma later_refl s : later s s.
Proof. exists []. split; constructor. Qed.
Lemma later_trans s s1 s2 : later s s1 -> later s1 s2 -> later s s2.
Proof.
  intros (cs & Hr & Hh) (cs' & Hr' & Hh'). exists (cs ++ cs').
  split; [by eapply run_app|by apply Forall_app].
Qed.

(** One call of the handler, in the store it finds. *)
Inductive call {A} : prog A -> MemoryStore -> obs -> MemoryStore -> prog A -> Prop :=
| call_lookup t p key d k s :
    call (DoLookup t p key d k) s (SawLookup t p key d (Lookup t p key d s)) s (k (Lookup t p key d s))
| call_load t ty i k s :
    call (DoLoad t ty i k) s (SawLoad t ty i (Ok (Load t ty i s))) s (k (Ok (Load t ty i s)))
| call_list t p ty k s :
    call (DoList t p ty k) s (SawList t p ty (ListProjections t p ty s)) s (k (ListProjections t p ty s))
| call_list_tenant t k s :
    call (DoListTenant t k) s (SawListTenant t (ListTenantProjections (Some None) t s)) s
      (k (ListTenantProjections (Some None) t s))
| call_execute q k s s' r :
    env_ok s (CmdExecute q) = true -> Execute q s = (s', r) ->
    call (DoExecute q k) s (SawExecute q r) s' (k r)
| call_clock k s t : call (DoClock k) s (SawClock t) s (k t)
| call_uuid k s o : call (DoUUID k) s (SawUUID o) s (k o)
| call_validate v k s : call (DoValidate v k) s (SawValidate v (boundary v)) s (k (boundary v))
| call_ctx_err k s b : call (DoCtxErr k) s (SawCtxErr b) s (k b).

(** A run with its log: each call with the store it was made in. *)
Inductive runs {A} : prog A -> MemoryStore -> list (MemoryStore * obs) -> MemoryStore -> A -> Prop :=
| runs_ret a s : runs (Ret a) s [] s a
| runs_call p s s1 o s2 p' l s' a :
    later s s1 -> call p s1 o s2 p' -> runs p' s2 l s' a -> runs p s ((s1, o) :: l) s' a.

(** What an observation says of the store it was made in. *)
Definition holds (s : MemoryStore) (o : obs) : Prop :=
  match o with
  | SawLookup t p key d r => r = Lookup t p key d s
  | SawLoad t ty i r => r = Ok (Load t ty i s)
  | SawList t p ty r => r = ListProjections t p ty s
  | SawListTenant t r => r = ListTenantProjections (Some None) t s
  | SawExecute q r => env_ok s (CmdExecute q) = true /\ snd (Execute q s) = r
  | SawValidate v b => b = boundary v
  | _ => True
  end.

Lemma call_holds {A} (p : prog A) s o s' p' : call p s o s' p' -> holds s o.
Proof. destruct 1; cbn; auto. split; [done|]. by rewrite H0. Qed.

(** The observations so far. *)
Definition observed (l : list (MemoryStore * obs)) (K : knowledge) : knowledge := rev (map snd l) ++ K.

Lemma observed_cons x l K : observed (x :: l) K = observed l (x.2 :: K).
Proof. unfold observed. cbn [map rev]. by rewrite <- app_assoc. Qed.

(** What a handler knows was so in a store since it started. *)
Definition witnessed (s s1 : MemoryStore) (K : knowledge) : Prop :=
  forall o, o ∈ K -> exists s0, later s s0 /\ later s0 s1 /\ holds s0 o.

Lemma witnessed_later s s1 s2 K : witnessed s s1 K -> later s1 s2 -> witnessed s s2 K.
Proof. intros H Hl o Ho. destruct (H o Ho) as (s0 & ? & ? & ?). eauto using later_trans. Qed.

Lemma witnessed_cons s s1 s2 o K :
  witnessed s s1 K -> later s s1 -> holds s1 o -> later s1 s2 -> witnessed s s2 (o :: K).
Proof.
  intros H Hs Ho Hl o' [->|Hin]%elem_of_cons; [by exists s1|].
  by apply (witnessed_later _ _ _ _ H Hl).
Qed.

(** Rely and guarantee: others run honest transactions, and when what the
    handler may commit ([J]) is honest in a run that starts in the invariant, so
    are its own transactions, and each commits what [J] allows. *)
Section Guarantee.
Context (J : knowledge -> TransactionRequest -> Prop) (Inv : MemoryStore -> Prop).
Context (Hhonest : forall K q s s1, Inv s -> later s s1 -> witnessed s s1 K -> J K q -> honest q).

Lemma call_later {A} (p : prog A) s s1 o s2 p' K Q :
  Inv s -> later s s1 -> witnessed s s1 K -> call p s1 o s2 p' -> wp J p K Q -> later s1 s2.
Proof.
  intros HI Hl Hk Hc Hw. destruct Hc; try apply later_refl. exists [CmdExecute q].
  split; [|repeat constructor; by eapply Hhonest; [..|apply Hw]].
  apply (run_snoc _ s0 [] s0); [constructor|].
  unfold EventStoreProps.store_step. rewrite H. cbn. by rewrite H0.
Qed.

Lemma runs_from {A} (p : prog A) s0 s l s' a K Q :
  Inv s0 -> runs p s l s' a -> later s0 s -> witnessed s0 s K -> wp J p K Q ->
  later s s' /\ witnessed s0 s' (observed l K) /\ Q (observed l K) a /\
  forall l1 s1 q r l2, l = l1 ++ (s1, SawExecute q r) :: l2 ->
    J (observed l1 K) q /\ witnessed s0 s1 (observed l1 K) /\ later s0 s1 /\
    later (fst (Execute q s1)) s' /\ holds s1 (SawExecute q r).
Proof.
  intros HI H. revert K. induction H as [a s|p s s1 o s2 p' l s' a Hl Hc _ IH]; intros K H0 Hk Hw.
  { split_and!; [apply later_refl|done|done|]. by intros [|? ?] s1 q r l2 [=]. }
  assert (H01 : later s0 s1) by eauto using later_trans.
  pose proof (witnessed_later _ _ _ _ Hk Hl) as Hk1.
  pose proof (call_later p s0 s1 o s2 p' K Q HI H01 Hk1 Hc Hw) as H12.
  pose proof (call_holds p s1 o s2 p' Hc) as Ho.
  assert (Hn : wp J p' (o :: K) Q) by (destruct Hc; cbn in Hw; naive_solver).
  destruct (IH (o :: K)) as (Hs & Hks & HQ & Hall); [eauto using later_trans| |done|].
  { by eapply witnessed_cons. }
  rewrite observed_cons. split_and!; [eauto using later_trans|done|done|].
  intros [|x l1] s3 q r l2 Heq; [injection Heq as <- -> _|injection Heq as <- ->].
  2: { rewrite observed_cons. by apply (Hall l1 s3 q r l2). }
  inversion Hc as [| | | |? ? ? ? ? Hok HE| | | |]; subst. rewrite HE.
  split_and!; try done. apply Hw.
Qed.

(** The observations before a commit, wherever it is in the log. *)
Lemma commit_split (l : list (MemoryStore * obs)) s1 q r : (s1, SawExecute q r) ∈ l ->
  exists l1 l2, l = l1 ++ (s1, SawExecute q r) :: l2.
Proof. intros H. by apply list_elem_of_split in H. Qed.
End Guarantee.

(** ** Execution without interference is such a run *)
Section Exec.
Context (e : env).
Notation exec := (exec jcs_Transform sha256_Sum256 e).

Fixpoint exec_log {A} (p : prog A) (n : nat) (s : MemoryStore) : list (MemoryStore * obs) :=
  match p with
  | Ret _ => []
  | DoLookup t p key d k => (s, SawLookup t p key d (Lookup t p key d s)) :: exec_log (k (Lookup t p key d s)) (S n) s
  | DoLoad t ty i k => (s, SawLoad t ty i (Ok (Load t ty i s))) :: exec_log (k (Ok (Load t ty i s))) (S n) s
  | DoList t p ty k =>
      (s, SawList t p ty (ListProjections t p ty s)) :: exec_log (k (ListProjections t p ty s)) (S n) s
  | DoListTenant t k =>
      (s, SawListTenant t (ListTenantProjections (Some None) t s))
        :: exec_log (k (ListTenantProjections (Some None) t s)) (S n) s
  | DoExecute q k =>
      (s, SawExecute q (snd (Execute q s))) :: exec_log (k (snd (Execute q s))) (S n) (fst (Execute q s))
  | DoClock k => (s, SawClock (now e n)) :: exec_log (k (now e n)) (S n) s
  | DoUUID k => (s, SawUUID (uuid e n)) :: exec_log (k (uuid e n)) (S n) s
  | DoValidate v k => (s, SawValidate v (Effects.boundary e v)) :: exec_log (k (Effects.boundary e v)) (S n) s
  | DoCtxErr k => (s, SawCtxErr (ctx_err e n)) :: exec_log (k (ctx_err e n)) (S n) s
  end.

(** The versions it writes are not exhausted. *)
Definition log_ok (l : list (MemoryStore * obs)) : bool :=
  forallb (fun x => match x.2 with SawExecute q _ => env_ok x.1 (CmdExecute q) | _ => true end) l.

Lemma exec_runs {A} (p : prog A) n s :
  Effects.boundary e = boundary -> log_ok (exec_log p n s) = true ->
  runs p s (exec_log p n s) (fst (exec p n s)) (snd (exec p n s)).
Proof.
  intros Hb. revert n s.
  induction p as [a|t p key d k IH|t ty i k IH|t p ty k IH|t k IH|q k IH|k IH|k IH|v k IH|k IH];
    intros n s Hok; cbn [exec_log Effects.exec] in *; [constructor|..];
    apply andb_true_iff in Hok as [Hq Hok];
    try (by econstructor; [apply later_refl|constructor|apply IH]).
  - econstructor; [apply later_refl|apply call_execute with (s' := fst (Execute q s)); [done|apply surjective_pairing]|].
    specialize (IH (snd (Execute q s)) (S n) (fst (Execute q s)) Hok).
    by destruct (Execute q s).
  - econstructor; [apply later_refl|rewrite Hb; constructor|]. rewrite <- Hb. by apply IH.
Qed.
End Exec.
End Runs.
End OrchestratorLogic.
