(* ===== verification/OrchestratorStore.v ===== *)
(** The store as the orchestrator relies on it: projections lie under their own
    keys, the version a stored task or project states is its projection's
    version, and a projection found again at the same version is the same. *)

From S2P Require Import Prelude GoLib Runs Json Errors Task Project EventStore EventStoreProps Capability Effects Orchestrator OrchestratorGoals OrchestratorLogic.

Module OrchestratorStore.
Import EventStore EventStoreProps Effects Orchestrator OrchestratorGoals OrchestratorLogic.

Section Store.
Context (jcs_Transform : string -> option string) (sha256_Sum256 : string -> list Z).
Context `{codec : Codec}.
Notation prepare := (prepare jcs_Transform sha256_Sum256).
Notation Execute := (Execute jcs_Transform sha256_Sum256).
Notation store_step := (store_step jcs_Transform sha256_Sum256).

(** ** Transactions that state the aggregates and versions they write *)
Definition states (k state : string) (version : Z) : Prop :=
  (forall T id, no_nul T = true -> k = aggregateKey T "task" id ->
     forall t, unmarshal_task state = Some t ->
       Task.Version t = version /\ (ValidString id = true -> Task.ID t = id)) /\
  (forall T id, no_nul T = true -> k = aggregateKey T "project" id ->
     forall p, unmarshal_project state = Some p -> Project.Version p = version).

Definition honest (q : TransactionRequest) : Prop :=
  forall u, u ∈ q_Updates q -> states (update_key (q_TenantID q) u) (u_State u) (u_NextVersion u).

Definition projection_key (p : Projection) : string :=
  aggregateKey (p_TenantID p) (p_AggregateType p) (p_AggregateID p).

(** ** The invariant *)
Record sound (s : MemoryStore) : Prop := {
  sound_wf : wf s;
  sound_key : forall k p, projections s !! k = Some p -> k = projection_key p;
  sound_states : forall k p, projections s !! k = Some p ->
    states k (p_State p) (p_Version p)
}.

(** The projections after [Execute]. *)
Lemma execute_projection q s k p :
  projections (fst (Execute q s)) !! k = Some p ->
  projections s !! k = Some p \/
  exists u, u ∈ q_Updates q /\ u_TenantID u = q_TenantID q /\ k = update_key (q_TenantID q) u /\
    p = mkProjection (u_TenantID u) (u_ProjectID u) (u_AggregateType u) (u_AggregateID u)
          (u_NextVersion u) (u_State u).
Proof.
  destruct (Execute_cases jcs_Transform sha256_Sum256 q s) as [(r & -> & _)|(q' & Hp & _ & Hc)];
    [by left|].
  apply prepared_request in Hp as (Ht & _ & _ & _ & Hu & _ & _ & P).
  destruct (commit_fields q' s) as (Hproj & _).
  assert (H : forall s', projections s' = projections (fst (commit q' s)) ->
    projections s' !! k = Some p -> projections s !! k = Some p \/
    exists u, u ∈ q_Updates q /\ u_TenantID u = q_TenantID q /\ k = update_key (q_TenantID q) u /\
      p = mkProjection (u_TenantID u) (u_ProjectID u) (u_AggregateType u) (u_AggregateID u)
            (u_NextVersion u) (u_State u)).
  { intros s' Heq Hk. rewrite Heq, Hproj in Hk.
    apply foldl_insert_inv in Hk as [(u & Hin & -> & ->)|[_ Hk]];
      [|by left|apply (pr_update_keys _ _ _ _ P)].
    right. exists u. rewrite <- Hu, <- Ht. destruct (pr_update _ _ _ _ P u Hin) as (? & _). done. }
  cbv zeta in Hc. by destruct Hc as [(_ & ->)|[(_ & ->)|(_ & ->)]]; [left|apply H..].
Qed.

Lemma step_projections s c s' :
  store_step s c = Some s' -> (forall q, c <> CmdExecute q) -> projections s' = projections s.
Proof.
  unfold EventStoreProps.store_step. destruct (env_ok s c); [|discriminate]. intros [= <-] Hc.
  destruct c as [q|point|ctx t now limit lease|ctx t id n at_|ctx t id n at_]; cbn [apply].
  - by destruct (Hc q).
  - done.
  - destruct (ClaimOutbox _ _ _ _ _ s) as [[s' claims]|] eqn:Hm; [|done].
    by apply ClaimOutbox_eq in Hm as [-> _].
  - destruct (MarkOutboxPublished _ _ _ _ _ s) as [s'|] eqn:Hm; [|done].
    by apply mark_inv in Hm as (o & _ & _ & ->).
  - destruct (RetryOutbox _ _ _ _ _ s) as [s'|] eqn:Hm; [|done].
    by apply retry_inv in Hm as (o & _ & _ & ->).
Qed.

Lemma step_sound s c s' : honest_command honest c -> sound s -> store_step s c = Some s' -> sound s'.
Proof.
  intros Hh S Hs. pose proof (store_step_wf jcs_Transform sha256_Sum256 s c s' (sound_wf _ S) Hs) as W.
  destruct c as [q| | | |];
    try (pose proof (step_projections _ _ _ Hs ltac:(done)) as Hp; split; rewrite ?Hp; by try apply S).
  unfold EventStoreProps.store_step in Hs. destruct (env_ok s _); [|discriminate]. injection Hs as <-.
  split; [done|..]; intros k p [Hp|(u & Hin & Ht & -> & ->)]%execute_projection.
  - by apply S.
  - unfold update_key, projection_key. cbn. by rewrite Ht.
  - by eapply S.
  - cbn. by apply Hh.
Qed.

Notation later := (later jcs_Transform sha256_Sum256 honest).

Lemma later_sound s s' : sound s -> later s s' -> sound s'.
Proof.
  intros S (cs & Hr & Hh). induction Hr as [s|s cs s1 c s2 _ IH Hs]; [done|].
  apply Forall_app in Hh as [Hh [Hc _]%Forall_cons]. by eapply step_sound; [exact Hc|apply IH|].
Qed.

Lemma empty_sound : sound NewMemoryStore.
Proof. split; [apply empty_store_wf|..]; intros k p H; cbn in H; by rewrite lookup_empty in H. Qed.

(** ** Nothing committed is lost *)
Lemma step_events s c s' id e :
  store_step s c = Some s' -> events s !! id = Some e -> events s' !! id = Some e.
Proof.
  unfold EventStoreProps.store_step. destruct (env_ok s c); [|discriminate]. intros [= <-] He.
  destruct c as [q|point|ctx t now limit lease|ctx t id' n at_|ctx t id' n at_]; cbn [apply].
  - destruct (Execute_cases jcs_Transform sha256_Sum256 q s) as [(r & -> & _)|(q' & Hp & _ & Hc)];
      [done|].
    apply prepared_request in Hp as (_ & _ & _ & _ & _ & _ & _ & P).
    pose proof (event_kept q' s P id e He) as Hk.
    cbv zeta in Hc. by destruct Hc as [(_ & ->)|[(_ & ->)|(_ & ->)]].
  - done.
  - destruct (ClaimOutbox _ _ _ _ _ s) as [[s' claims]|] eqn:Hm; [|done].
    by apply ClaimOutbox_eq in Hm as [-> _].
  - destruct (MarkOutboxPublished _ _ _ _ _ s) as [s'|] eqn:Hm; [|done].
    by apply mark_inv in Hm as (o & _ & _ & ->).
  - destruct (RetryOutbox _ _ _ _ _ s) as [s'|] eqn:Hm; [|done].
    by apply retry_inv in Hm as (o & _ & _ & ->).
Qed.

Lemma later_events s s' id e : later s s' -> events s !! id = Some e -> events s' !! id = Some e.
Proof.
  intros (cs & Hr & _). revert id e. induction Hr as [s|s cs s1 c s2 _ IH Hs]; [done|].
  intros id e He. eapply step_events; [done|by apply IH].
Qed.

(** The last event of a projection carries its state. *)
Lemma last_event s k p :
  wf s -> projections s !! k = Some p ->
  exists e, events s !! e_EventID e = Some e /\ key_of e = k /\ e_AggregateVersion e = p_Version p /\
    e_ReplayState e = p_State p.
Proof.
  intros W Hp. destruct (wf_projection _ W _ _ Hp) as [Hr Hall].
  destruct (Hall (p_Version p)) as (e & He & Hk & Hv & Hs); [lia|]. exists e. auto.
Qed.

(** Events of one aggregate at one version are the same event. *)
Lemma same_event s e e' :
  wf s -> events s !! e_EventID e = Some e -> events s !! e_EventID e' = Some e' ->
  key_of e = key_of e' -> e_AggregateVersion e = e_AggregateVersion e' -> e = e'.
Proof.
  intros W He He' Hk Hv. destruct (wf_event _ W _ _ He) as (_ & Hver & _).
  destruct (wf_event _ W _ _ He') as (_ & Hver' & _).
  assert (Hsame : event_version_key (e_TenantID e) e = event_version_key (e_TenantID e') e').
  { unfold key_of, event_key, aggregateKey in Hk. unfold event_version_key, versionKey. rewrite Hv.
    apply (f_equal (fun x => x +:+ nul +:+ pretty (e_AggregateVersion e'))) in Hk.
    by rewrite !append_assoc in Hk. }
  rewrite Hsame in Hver. congruence.
Qed.

Lemma stable s s' k p p' :
  wf s -> wf s' -> later s s' -> projections s !! k = Some p -> projections s' !! k = Some p' ->
  p_Version p = p_Version p' -> p_State p = p_State p'.
Proof.
  intros W W' Hl Hp Hp' Hv. destruct (last_event s k p W Hp) as (e & He & Hk & Hev & <-).
  destruct (last_event s' k p' W' Hp') as (e' & He' & Hk' & Hev' & <-).
  f_equal. apply (same_event s'); [done|by eapply later_events|done|congruence..].
Qed.

(** ** What a handler read, at its commit *)
Lemma load_inv T ty i s p :
  sound s -> Load T ty i s = Some p -> projections s !! aggregateKey T ty i = Some p.
Proof.
  unfold Load. destruct (projections s !! _) as [q|]; [|done]. cbn. intros _ [= <-].
  unfold cloneProjection. rewrite cloneJSON_id. by destruct q.
Qed.

Lemma list_inv T P ty s ps p :
  sound s -> ListProjections T P ty s = Ok ps -> p ∈ ps ->
  projections s !! aggregateKey T ty (p_AggregateID p) = Some p /\ p_TenantID p = T /\ p_ProjectID p = P.
Proof.
  intros S. unfold ListProjections. destruct (_ || _) in |- *; [discriminate|].
  intros H%Ok_inj Hin. subst ps. rewrite sort_slice_Permutation in Hin.
  apply list_elem_of_In, in_map_iff in Hin as (q & Hq & Hin).
  assert (q = p) as -> by (rewrite <- Hq; unfold cloneProjection; rewrite cloneJSON_id; by destruct q).
  apply filter_In in Hin as [Hin Hc]. go_bool. apply in_map_iff in Hin as ([k q] & Heq & Hin).
  cbn in Heq. subst q. apply list_elem_of_In, elem_of_map_to_list in Hin.
  pose proof (sound_key _ S _ _ Hin) as ->. unfold projection_key in Hin. by subst.
Qed.

(** A listing is of its type, and complete. *)
Lemma list_type T P ty s ps p : ListProjections T P ty s = Ok ps -> p ∈ ps -> p_AggregateType p = ty.
Proof.
  unfold ListProjections. destruct (_ || _) in |- *; [discriminate|].
  intros H%Ok_inj Hin. subst ps. rewrite sort_slice_Permutation in Hin.
  apply list_elem_of_In, in_map_iff in Hin as (q & <- & Hin). apply filter_In in Hin as [_ Hc]. by go_bool.
Qed.
Lemma list_all T P ty s ps k p :
  ListProjections T P ty s = Ok ps -> projections s !! k = Some p -> p_TenantID p = T ->
  p_ProjectID p = P -> p_AggregateType p = ty -> p ∈ ps.
Proof.
  unfold ListProjections. destruct (_ || _) in |- *; [discriminate|].
  intros H%Ok_inj Hk HT HP Hty. subst ps. rewrite sort_slice_Permutation. apply list_elem_of_In, in_map_iff.
  exists p. split; [unfold cloneProjection; rewrite cloneJSON_id; by destruct p|]. apply filter_In. split.
  - apply list_elem_of_In, EventStoreProps.values_elem. by exists k.
  - rewrite !andb_true_iff, !bool_decide_eq_true. done.
Qed.

(** A projection at version [v] in [s], seen before the commit at [s1] that
    expects version [v]. *)
Lemma read_at_commit s s1 k p v :
  sound s -> later s s1 -> projections s !! k = Some p -> p_Version p = v ->
  current_version s1 k = v ->
  exists p1, projections s1 !! k = Some p1 /\ p_Version p1 = v /\ p_State p1 = p_State p.
Proof.
  intros S Hl Hp Hv Hc. pose proof (later_sound s s1 S Hl) as S1.
  destruct (wf_projection _ (sound_wf _ S) _ _ Hp) as [Hr _].
  unfold current_version in Hc. destruct (projections s1 !! k) as [p1|] eqn:Hp1; [|lia].
  exists p1. split_and!; [done|done|]. symmetry.
  eapply (stable s s1); [apply S|apply S1|done..|congruence].
Qed.

Lemma absent_at_commit s1 k : sound s1 -> current_version s1 k = 0 -> projections s1 !! k = None.
Proof.
  intros S1 Hc. unfold current_version in Hc. destruct (projections s1 !! k) as [p|] eqn:Hp; [|done].
  destruct (wf_projection _ (sound_wf _ S1) _ _ Hp) as [Hr _]. lia.
Qed.
End Store.
End OrchestratorStore.
