(* ===== verification/OrchestratorSafety.v ===== *)
(** What the orchestrator commits while other requests run: every task and
    project it writes is the state machine's answer to the state that is stored
    at the commit, and nothing is written before the commit boundary accepted
    the facts of the request. *)

From S2P Require Import Prelude GoLib Runs Json Errors Contracts Approval Task TaskProps Project ProjectWf Specs EventStore EventStoreProps Capability CapabilityProps Effects Orchestrator OrchestratorTasks OrchestratorPlans OrchestratorGoals OrchestratorLogic OrchestratorStore.

Module OrchestratorSafety.
Import EventStore Effects Orchestrator OrchestratorTasks OrchestratorPlans OrchestratorGoals OrchestratorLogic OrchestratorStore.

(** What the orchestrator relies on of [encoding/json]: a version, an [int64],
    survives encoding, and so does an identifier in UTF-8. *)
Class CodecLaws `{codec : Codec} : Prop := {
  task_law t x t' : marshal_task t = Some x -> unmarshal_task x = Some t' ->
    Task.Version t' = Task.Version t /\
    (ValidString (Task.ID t) = true -> Task.ID t' = Task.ID t);
  project_law p x p' : marshal_project p = Some x -> unmarshal_project x = Some p' ->
    Project.Version p' = Project.Version p
}.

(** A projection the handler has read. *)
Definition seen (K : knowledge) (T ty id : string) (p : Projection) : Prop :=
  SawLoad T ty id (Ok (Some p)) ∈ K \/
  exists P ps, SawList T P ty (Ok ps) ∈ K /\ p ∈ ps /\ p_AggregateID p = id.

(** Why a handler may write an update: it is the answer of the state machine to
    a task or project it has read or that is new, or a goal record. *)
Inductive justified `{codec : Codec} (K : knowledge) (T : string) (u : ProjectionUpdate) : Prop :=
| just_task t c e :
    u_AggregateType u = "task" -> Task.DecideTask t c = Ok e ->
    marshal_task (Task.Projection e) = Some (u_State u) ->
    u_ExpectedVersion u = Task.Version t -> u_NextVersion u = Task.AggregateVersion e ->
    (TaskProps.creates (Task.Cmd.Type_ c) = true -> Task.Cmd.TaskID c = u_AggregateID u) ->
    (t = Task.zeroModuleTask /\ TaskProps.creates (Task.Cmd.Type_ c) = true \/
     exists id p, seen K T "task" id p /\ unmarshal_task (p_State p) = Some t /\
       (u_AggregateID u = id \/ (u_AggregateID u = Task.ID t /\ ValidString id = true))) ->
    justified K T u
| just_project p c e :
    u_AggregateType u = "project" -> Project.DecideProject p c = Ok e ->
    marshal_project (Project.Projection e) = Some (u_State u) ->
    u_ExpectedVersion u = Project.Version p -> u_NextVersion u = Project.AggregateVersion e ->
    (p = Project.zeroProject \/
     exists q, seen K T "project" (u_AggregateID u) q /\ unmarshal_project (p_State q) = Some p) ->
    justified K T u
| just_goal :
    u_AggregateType u = "goal_message" \/ u_AggregateType u = "goal_spec" -> justified K T u.

Section Safety.
Context `{codec : Codec} (J : knowledge -> TransactionRequest -> Prop).

Definition good (K : knowledge) (T P : string) (u : ProjectionUpdate) : Prop :=
  u_TenantID u = T /\ u_ProjectID u = P /\ justified K T u.

Lemma seen_mono K K' T ty id p : K ⊆ K' -> seen K T ty id p -> seen K' T ty id p.
Proof. intros HK [H|(P & ps & H & ?)]; [left|right; exists P, ps]; auto. Qed.

Lemma good_mono K K' T P u : K ⊆ K' -> good K T P u -> good K' T P u.
Proof.
  intros HK (? & ? & H). split_and!; [done|done|].
  destruct H as [t c e ? ? ? ? ? ? H|p c e ? ? ? ? ? H|?].
  - eapply just_task; eauto. destruct H as [?|(id & p & ? & ?)]; [by left|].
    right. exists id, p. eauto using seen_mono.
  - eapply just_project; eauto. destruct H as [?|(q & ? & ?)]; [by left|].
    right. exists q. eauto using seen_mono.
  - by apply just_goal.
Qed.

(** A part of a handler that only reads, and collects good writes. *)
Definition collects (K : knowledge) (T P : string) (m : M writes) : Prop :=
  spec J m K (fun K' w => K ⊆ K' /\ Forall (good K' T P) w.1).

Lemma collects_none K T P : collects K T P (ret no_writes).
Proof. split; [done|constructor]. Qed.

(** Sequencing, beside the updates collected so far. *)
Lemma collects_then {A} K T P (acc : list ProjectionUpdate) (m : M writes) (k : writes -> M A)
    (Q : knowledge -> A -> Prop) :
  Forall (good K T P) acc -> collects K T P m ->
  (forall K' w, K ⊆ K' -> Forall (good K' T P) (acc ++ w.1) -> spec J (k w) K' Q) ->
  spec J (mbind m k) K Q.
Proof.
  intros Hacc Hm Hk. apply spec_bind. eapply spec_mono; [|exact Hm]. intros K1 w [HK1 Hw].
  apply Hk; [done|]. apply Forall_app. split; [|done].
  eapply Forall_impl; [exact Hacc|]. intros u. by apply good_mono.
Qed.

Lemma collects_loop K T P (m m' : M writes) :
  collects K T P m -> (forall K', K ⊆ K' -> collects K' T P m') ->
  collects K T P (w <~ m ;; ws <~ m' ;; ret (join w ws)).
Proof.
  intros Hm Hm'. apply (collects_then _ T P []); [constructor|done|]. intros K1 w HK1 Hw.
  eapply collects_then; [exact Hw|by apply Hm'|]. intros K2 w' HK2 Hw'.
  apply spec_ret. split; [by etransitivity|done].
Qed.
End Safety.
Arguments collects {codec} J K T P m.
Arguments good {codec} K T P u.

(** Step through the calls of a handler, naming nothing. *)
Ltac spec_step :=
  lazymatch goal with
  | |- spec _ (mbind _ _) _ _ => apply spec_bind
  | |- spec _ (ret _) _ _ => apply spec_ret
  | |- spec _ (fail _) _ _ => apply spec_fail
  | |- spec _ (if ?c then fail _ else _) _ _ => apply spec_refuse; intros ?
  | |- spec _ (some_or _ _) _ _ => apply spec_some_or; intros ? ?
  | |- spec _ (lift _ _) _ _ => apply spec_lift; intros ? ?
  | |- spec _ (Ret _) _ _ => apply spec_Ret; intros ? ?
  | |- spec _ (load _ _ _) _ _ => apply spec_load; intros ?
  | |- spec _ (list_projections _ _ _) _ _ => apply spec_list; intros ?
  | |- spec _ (lookup_ _ _ _ _) _ _ => apply spec_lookup; intros ?
  | |- spec _ clock _ _ => apply spec_clock; intros ?
  | |- spec _ newRecordUUIDv7 _ _ => apply spec_uuid; intros ?
  | |- spec _ (decodeTask _) _ _ => unfold decodeTask
  | |- spec _ (decodeProject _) _ _ => unfold decodeProject
  | |- spec _ (mustDigest _ _ _) _ _ => unfold mustDigest
  end.
Ltac known := first [assumption | set_solver].

(** ** The parts of the handlers *)
Section Parts.
Context (jcs_Transform : string -> option string) (sha256_Sum256 : string -> list Z).
Context `{codec : Codec}.
Context (s : Service) (J : knowledge -> TransactionRequest -> Prop).
Notation encodeTaskTransition := (encodeTaskTransition jcs_Transform sha256_Sum256).
Notation encodeProjectTransition := (encodeProjectTransition jcs_Transform sha256_Sum256).
Notation newEvent := (newEvent jcs_Transform sha256_Sum256).

Lemma newEvent_spec T P ty id ety v at_ payload d K (Q : knowledge -> DomainEvent -> Prop) :
  (forall K' e, K ⊆ K' -> Q K' e) -> spec J (newEvent T P ty id ety v at_ payload d) K Q.
Proof. intros H. unfold Orchestrator.newEvent. repeat spec_step. apply H. set_solver. Qed.

Lemma encode_task_spec T P id v ev d K (Q : knowledge -> encoded -> Prop) :
  (forall K' x e, K ⊆ K' -> marshal_task (Task.Projection ev) = Some x ->
     e.1.1 = mkProjectionUpdate T P "task" id v (Task.AggregateVersion ev) x -> e.2 = x -> Q K' e) ->
  spec J (encodeTaskTransition T P id v ev d) K Q.
Proof.
  intros H. unfold Orchestrator.encodeTaskTransition. repeat spec_step. apply newEvent_spec.
  intros K' e HK. spec_step. by eapply H.
Qed.

Lemma encode_project_spec T P v ev d K (Q : knowledge -> encoded -> Prop) :
  (forall K' x e, K ⊆ K' -> marshal_project (Project.Projection ev) = Some x ->
     e.1.1 = mkProjectionUpdate T P "project" P v (Project.AggregateVersion ev) x -> e.2 = x ->
     Q K' e) ->
  spec J (encodeProjectTransition T P v ev d) K Q.
Proof.
  intros H. unfold Orchestrator.encodeProjectTransition. repeat spec_step. apply newEvent_spec.
  intros K' e HK. spec_step. by eapply H.
Qed.

(** The transition of a task that was read, by a command that creates none. *)
Lemma transition_good K T P id p t c e u :
  seen K T "task" id p -> unmarshal_task (p_State p) = Some t -> Task.DecideTask t c = Ok e ->
  marshal_task (Task.Projection e) = Some (u_State u) -> TaskProps.creates (Task.Cmd.Type_ c) = false ->
  u = mkProjectionUpdate T P "task" id (Task.Version t) (Task.AggregateVersion e) (u_State u) ->
  good K T P u.
Proof.
  intros Hs Ht He Hm Hc ->. split_and!; [done|done|]. eapply just_task; try done.
  - by rewrite Hc.
  - right. exists id, p. auto.
Qed.

Lemma load_dependent_spec request id K (Q : knowledge -> Task.ModuleTask -> Prop) :
  (forall K' p t, K ⊆ K' -> seen K' (tr_TenantID request) "task" id p ->
     unmarshal_task (p_State p) = Some t -> Q K' t) ->
  spec J (load_dependent request id) K Q.
Proof.
  intros H. unfold load_dependent. repeat spec_step. subst. apply (H _ a); [set_solver|left; set_solver|done].
Qed.

Lemma transition_task_spec request id p t c d K :
  seen K (tr_TenantID request) "task" id p -> unmarshal_task (p_State p) = Some t ->
  TaskProps.creates (Task.Cmd.Type_ c) = false ->
  collects J K (tr_TenantID request) (tr_ProjectID request)
    (transition_task jcs_Transform sha256_Sum256 request id t c d).
Proof.
  intros Hs Ht Hc. unfold transition_task, collects. do 2 spec_step. spec_step.
  apply encode_task_spec. intros K' x e HK Hm Hu _. spec_step. split; [done|].
  apply Forall_singleton. rewrite Hu. eapply transition_good; eauto using seen_mono.
Qed.

Lemma block_dependents_spec request at_ d ids K :
  collects J K (tr_TenantID request) (tr_ProjectID request)
    (block_dependents jcs_Transform sha256_Sum256 request at_ d ids).
Proof.
  revert K. induction ids as [|id ids IH]; intros K; cbn [block_dependents]; [apply collects_none|].
  unfold collects. spec_step. apply load_dependent_spec. intros K1 p t HK Hs Ht.
  eapply spec_mono; [|apply collects_loop]; [|by eapply transition_task_spec|by intros; apply IH].
  cbn. intros K2 w [HK2 Hw]. split; [by etransitivity|done].
Qed.

Lemma unblock_dependents_spec request at_ d ids K :
  collects J K (tr_TenantID request) (tr_ProjectID request)
    (unblock_dependents jcs_Transform sha256_Sum256 request at_ d ids).
Proof.
  revert K. induction ids as [|id ids IH]; intros K; cbn [unblock_dependents]; [apply collects_none|].
  unfold collects. spec_step. apply load_dependent_spec. intros K1 p t HK Hs Ht.
  eapply spec_mono; [|apply collects_loop]; [| |by intros; apply IH].
  - cbn. intros K2 w [HK2 Hw]. split; [by etransitivity|done].
  - destruct (negb _); [apply collects_none|]. by eapply transition_task_spec.
Qed.

(** The tasks of [Tasks], each under its own identifier. *)
Lemma decode_tasks_spec T P ps K (Q : knowledge -> list Task.ModuleTask -> Prop) :
  (forall ts, (forall t, t ∈ ts -> exists p, p ∈ ps /\ unmarshal_task (p_State p) = Some t /\
       Task.ID t = p_AggregateID p) -> Q K ts) ->
  spec J (decode_tasks T P ps) K Q.
Proof.
  revert Q. induction ps as [|p ps IH]; intros Q H; cbn [decode_tasks].
  { spec_step. apply H. by intros t Ht%not_elem_of_nil. }
  do 2 spec_step. spec_step. rename a into t. spec_step. spec_step. apply IH. intros ts Hts. spec_step.
  apply H. intros t' [->|Hin]%elem_of_cons.
  - exists p. split_and!; [left|done|]. go_bool. done.
  - destruct (Hts t' Hin) as (q & ? & ?). exists q. split; [by right|done].
Qed.

Lemma Tasks_spec T P K (Q : knowledge -> list Task.ModuleTask -> Prop) :
  (forall K' ts, K ⊆ K' -> (forall t, t ∈ ts -> exists p, seen K' T "task" (Task.ID t) p /\
       unmarshal_task (p_State p) = Some t) -> Q K' ts) ->
  spec J (Tasks s T P) K Q.
Proof.
  intros H. unfold Tasks. repeat spec_step. apply decode_tasks_spec. intros ts Hts.
  apply H; [set_solver|]. intros t Ht. destruct (Hts t Ht) as (p & Hp & Hu & Hid). exists p.
  split; [|done]. right. exists P, r. rewrite Hid. split_and!; [left|done|done].
Qed.

Lemma ready_dependents_spec request byID at_ d ids K :
  (forall id t, byID !! id = Some t -> Task.State t = TaskDefined ->
     exists p, seen K (tr_TenantID request) "task" id p /\ unmarshal_task (p_State p) = Some t) ->
  collects J K (tr_TenantID request) (tr_ProjectID request)
    (ready_dependents jcs_Transform sha256_Sum256 request byID at_ d ids).
Proof.
  revert K. induction ids as [|id ids IH]; intros K Hby; cbn [ready_dependents]; [apply collects_none|].
  unfold collects. do 2 spec_step. rename a into t. apply collects_loop.
  - destruct (_ || _) eqn:G; [apply collects_none|]. go_bool.
    destruct (Hby id t) as (p & Hp & Ht); [done..|]. by eapply transition_task_spec.
  - intros K' HK. apply IH. intros id' t' Hl Hd. destruct (Hby id' t' Hl Hd) as (p & ? & ?).
    exists p. eauto using seen_mono.
Qed.

Lemma index_tasks_inv ts id t : index_tasks ts !! id = Some t -> t ∈ ts /\ Task.ID t = id.
Proof.
  unfold index_tasks. assert (H : forall m : gmap string Task.ModuleTask, (forall id t, m !! id = Some t -> t ∈ ts /\ Task.ID t = id) ->
    forall l, l ⊆ ts -> foldl (fun byID task => <[Task.ID task := task]> byID) m l !! id = Some t ->
    t ∈ ts /\ Task.ID t = id); [|by apply (H ∅)].
  intros m Hm l. revert m Hm. induction l as [|x l IH]; intros m Hm Hl; cbn; [apply Hm|].
  apply IH; [|set_solver]. intros id' t' [[<- <-]|[_ H]]%lookup_insert_Some; [|by apply Hm].
  split; [set_solver|done].
Qed.

Lemma index_tasks_some ts t : t ∈ ts -> index_tasks ts !! Task.ID t <> None.
Proof.
  unfold index_tasks. generalize (∅ : gmap string Task.ModuleTask).
  assert (Hkeep : forall l (m : gmap string Task.ModuleTask) id, m !! id <> None ->
    foldl (fun byID task => <[Task.ID task := task]> byID) m l !! id <> None).
  { induction l as [|x l IH]; intros m id H; cbn; [done|]. apply IH. rewrite lookup_insert_None. tauto. }
  induction ts as [|x ts IH]; intros m; [by intros ?%not_elem_of_nil|].
  intros [->|Hin]%elem_of_cons; cbn; [apply Hkeep; by rewrite lookup_insert_eq|by apply IH].
Qed.

Lemma readyAuditedDependents_spec request audited at_ d K :
  Task.State audited <> TaskDefined ->
  collects J K (tr_TenantID request) (tr_ProjectID request)
    (readyAuditedDependents jcs_Transform sha256_Sum256 s request audited at_ d).
Proof.
  intros Hd. unfold readyAuditedDependents. destruct (Nat.eqb _ _); [apply collects_none|].
  unfold collects. spec_step. apply Tasks_spec. intros K1 ts HK Hts.
  eapply spec_mono; [|apply ready_dependents_spec].
  - cbn. intros K2 w [HK2 Hw]. split; [by etransitivity|done].
  - intros id t [[_ <-]|[_ H]]%lookup_insert_Some Ht; [done|].
    apply index_tasks_inv in H as [Hin <-]. by apply Hts.
Qed.

(** The transition of the project, when it was read. *)
Lemma project_good K T P q p c e x :
  seen K T "project" P q -> unmarshal_project (p_State q) = Some p ->
  Project.DecideProject p c = Ok e -> marshal_project (Project.Projection e) = Some x ->
  good K T P (mkProjectionUpdate T P "project" P (Project.Version p) (Project.AggregateVersion e) x).
Proof.
  intros Hs Hp He Hm. split_and!; [done|done|]. eapply just_project; try done.
  right. exists q. auto.
Qed.

Lemma summary_command_spec request p goal plan ts at_ K (Q : knowledge -> Project.ProjectCommand -> Prop) :
  (forall c, Q K c) ->
  spec J (summary_command jcs_Transform sha256_Sum256 request p goal plan ts at_) K Q.
Proof.
  intros H. unfold summary_command. cbv zeta. apply spec_if; intros _; [by spec_step|].
  repeat spec_step. apply H.
Qed.

Lemma coreSummaryTransition_spec request q p passed at_ d K :
  seen K (tr_TenantID request) "project" (tr_ProjectID request) q ->
  unmarshal_project (p_State q) = Some p ->
  collects J K (tr_TenantID request) (tr_ProjectID request)
    (coreSummaryTransition jcs_Transform sha256_Sum256 s request p passed at_ d).
Proof.
  intros Hs Hp. unfold coreSummaryTransition.
  destruct (Project.Goal p) as [goal|]; [|apply collects_none].
  destruct (Project.Plan p) as [plan|]; [|apply collects_none].
  destruct (_ || _); [apply collects_none|]. unfold collects. spec_step.
  apply Tasks_spec. intros K1 ts HK1 _. spec_step. apply summary_command_spec. intros c.
  do 2 spec_step. spec_step. apply encode_project_spec. intros K2 x e HK2 Hm Hu _. spec_step.
  split; [by etransitivity|]. apply Forall_singleton. rewrite Hu.
  eapply project_good; [|done..]. eapply seen_mono; [|exact Hs]. by etransitivity.
Qed.

Lemma task_consequences_spec request q p current command event d K :
  seen K (tr_TenantID request) "project" (tr_ProjectID request) q ->
  unmarshal_project (p_State q) = Some p -> Task.DecideTask current command = Ok event ->
  collects J K (tr_TenantID request) (tr_ProjectID request)
    (task_consequences jcs_Transform sha256_Sum256 s request p current command event d).
Proof.
  intros Hs Hp Hd. unfold task_consequences. cbv zeta.
  set (T := tr_TenantID request) in *. set (P := tr_ProjectID request) in *.
  apply (collects_then J _ T P []); [constructor| |].
  { destruct (_ ≟ _); [apply block_dependents_spec|apply collects_none]. }
  intros K1 w1 HK1 Hw1. eapply (collects_then J); [exact Hw1| |].
  { destruct (_ ≟ _); [apply unblock_dependents_spec|apply collects_none]. }
  intros K2 w2 HK2 Hw2. eapply (collects_then J); [exact Hw2| |].
  { destruct (_ || _) eqn:G; [|apply collects_none]. apply readyAuditedDependents_spec.
    apply orb_true_iff in G. rewrite !bool_decide_eq_true in G.
    by destruct (TaskProps.decide_audited _ _ _ Hd G) as [->| ->]. }
  intros K3 w3 HK3 Hw3. eapply (collects_then J); [exact Hw3| |].
  { destruct (_ ≟ _); [|apply collects_none]. apply (coreSummaryTransition_spec _ q); [|done].
    eapply seen_mono; [|exact Hs]. intros o Ho. by apply HK3, HK2, HK1. }
  intros K4 w4 HK4 Hw4. apply spec_ret. split; [intros o Ho; by apply HK4, HK3, HK2, HK1|].
  exact Hw4.
Qed.

Lemma validate_spec v K (Q : knowledge -> unit -> Prop) :
  (forall K', K' = SawValidate v true :: K -> K ⊆ K' -> Q K' tt) ->
  spec J (validateCommitBoundary v) K Q.
Proof.
  intros H. unfold validateCommitBoundary. rewrite CapabilityProps.clone_validation_id.
  spec_step. intros [|]; cbn; [|done]. apply H; [done|set_solver].
Qed.

Lemma load_project_for_spec request command K (Q : knowledge -> Project.Project -> Prop) :
  (forall K' q p, K ⊆ K' -> seen K' (tr_TenantID request) "project" (tr_ProjectID request) q ->
     unmarshal_project (p_State q) = Some p -> Q K' p) ->
  spec J (load_project_for request command) K Q.
Proof.
  intros H. unfold load_project_for. repeat spec_step. subst. apply (H _ a); [set_solver|left; set_solver|done].
Qed.

(** What a handler found stored: a decoded projection, or nothing where it may
    create. *)
Definition found {A} (K : knowledge) (T ty id : string) (decode : string -> option A) (zero : A)
    (creates : bool) (x : A) : Prop :=
  x = zero /\ creates = true /\ SawLoad T ty id (Ok None) ∈ K \/
  exists p, seen K T ty id p /\ decode (p_State p) = Some x.

Lemma found_mono {A} K K' T ty id decode zero creates (x : A) :
  K ⊆ K' -> found K T ty id decode zero creates x -> found K' T ty id decode zero creates x.
Proof. intros HK [(? & ? & ?)|(p & ? & ?)]; [left; auto|right; exists p; eauto using seen_mono]. Qed.
Lemma found_seen {A} K T ty id decode zero creates (x : A) p :
  seen K T ty id p -> decode (p_State p) = Some x -> found K T ty id decode zero creates x.
Proof. right. exists p. auto. Qed.

Lemma load_current_spec request command K (Q : knowledge -> Task.ModuleTask -> Prop) :
  (forall K' t, K ⊆ K' -> Task.Version t = tr_ExpectedVersion request ->
     found K' (tr_TenantID request) "task" (tr_TaskID request) unmarshal_task Task.zeroModuleTask
       (Task.Cmd.Type_ command ≟ Task.TaskCommandDefine) t -> Q K' t) ->
  spec J (load_current request command) K Q.
Proof.
  intros H. unfold load_current. do 2 spec_step. spec_step. destruct r as [p|].
  - repeat spec_step. apply H; [set_solver| |right; exists p; split; [left; set_solver|done]].
    by go_bool.
  - repeat spec_step. go_bool. apply H; [set_solver|done|left]. split_and!; [done|by rewrite H0, bool_decide_eq_true_2|left].
Qed.

(** A task the handler has read, or the zero task for one that is not there. *)
Definition read_or_new (K : knowledge) (T id : string) (ty : Task.TaskCommandType) (t : Task.ModuleTask)
    : Prop :=
  t = Task.zeroModuleTask /\ TaskProps.creates ty = true \/
  exists p, seen K T "task" id p /\ unmarshal_task (p_State p) = Some t.

Lemma found_read_or_new K T id ty t :
  found K T "task" id unmarshal_task Task.zeroModuleTask (ty ≟ Task.TaskCommandDefine) t ->
  read_or_new K T id ty t.
Proof. intros [(? & ? & _)|H]; [left|by right]. go_bool. by subst. Qed.

Lemma just_read_or_new K T P id c t e x :
  read_or_new K T id (Task.Cmd.Type_ c) t -> Task.DecideTask t c = Ok e ->
  marshal_task (Task.Projection e) = Some x ->
  (TaskProps.creates (Task.Cmd.Type_ c) = true -> Task.Cmd.TaskID c = id) ->
  good K T P (mkProjectionUpdate T P "task" id (Task.Version t) (Task.AggregateVersion e) x).
Proof.
  intros Hr He Hm Hid. split_and!; [done|done|]. eapply just_task; try done.
  destruct Hr as [?|(p & ? & ?)]; [by left|right]. exists id, p. auto.
Qed.
End Parts.

(** ** What a commit must satisfy *)
(** Whose request it is, what it asks for, and the facts it claims.  A module
    reference of version 0 is that of the task; an approval without an
    identifier gets a fresh one. *)
Record identity : Type := mkIdentity {
  i_TenantID : string;
  i_ProjectID : string;
  i_TaskID : string;
  i_PrincipalID : string;
  i_IdempotencyKey : string;
  i_Action : string;
  i_ExpectedVersion : Z;
  i_Authorization : Capability.CommitAuthorization;
  i_Evidence : list string;
  i_Claims : gmap string bool;
  i_ModuleSpecRef : SpecRef;
  i_GoalSpecRef : SpecRef;
  i_FencingToken : Z;
  i_Approval : option string;
  i_CreatesProject : bool;
  i_CreatesTask : bool
}.

(** The facts the boundary was shown are those of this request, and the project
    and the task as the handler found them. *)
Record presented `{codec : Codec} (i : identity) (K : knowledge) (q : TransactionRequest)
    (v : Capability.CommitValidation) : Prop := {
  pv_scope : Capability.Val.TenantID v = i_TenantID i /\ Capability.Val.ProjectID v = i_ProjectID i /\
    Capability.Val.TaskID v = i_TaskID i;
  pv_who : Capability.Val.PrincipalID v = i_PrincipalID i;
  pv_what : Capability.Val.Action v = i_Action i /\
    Capability.Val.ParameterDigest v = q_RequestSHA256 q /\
    Capability.Val.ExpectedVersion v = i_ExpectedVersion i;
  pv_authorization : Capability.Val.Authorization v = i_Authorization i;
  pv_facts : Capability.Val.EvidenceSHA256 v = i_Evidence i /\ Capability.Val.Claims v = i_Claims i;
  pv_references : Capability.Val.GoalSpecRef v = i_GoalSpecRef i /\
    Capability.Val.ModuleSpecRef v =
      (if RefVersion (i_ModuleSpecRef i) =? 0 then Task.ModuleSpecRef (Capability.Val.Task v)
       else i_ModuleSpecRef i);
  pv_fence : Capability.Val.FencingToken v = i_FencingToken i;
  pv_approval : match i_Approval i with
                | Some id => Capability.Val.ApprovalRecordID v = id
                | None => SawUUID (Some (Capability.Val.ApprovalRecordID v)) ∈ K
                end;
  pv_project : found K (i_TenantID i) "project" (i_ProjectID i) unmarshal_project Project.zeroProject
    (i_CreatesProject i) (Capability.Val.Project v);
  pv_task : if i_TaskID i ≟ "" then Capability.Val.Task v = Task.zeroModuleTask else
    found K (i_TenantID i) "task" (i_TaskID i) unmarshal_task Task.zeroModuleTask (i_CreatesTask i)
      (Capability.Val.Task v)
}.

(** A commit is allowed when it writes what is justified, just after the
    boundary accepted its facts. *)
Record allowed `{codec : Codec} (i : identity) (K : knowledge) (q : TransactionRequest) : Prop := {
  ok_scope : q_TenantID q = i_TenantID i /\ q_PrincipalID q = i_PrincipalID i /\
    q_IdempotencyKey q = i_IdempotencyKey i;
  ok_updates : Forall (good K (i_TenantID i) (i_ProjectID i)) (q_Updates q);
  ok_boundary : exists v K', K = SawValidate v true :: K' /\ presented i K q v
}.
End OrchestratorSafety.
