(* ===== verification/OrchestratorHandlers.v ===== *)
(** What each operation of the orchestrator may commit: for every handler, that
    its transactions are [allowed] for the request it serves. *)

From S2P Require Import Prelude GoLib Runs Json Errors Contracts Approval Task TaskProps Project ProjectWf Specs EventStore EventStoreProps Capability CapabilityProps Effects Orchestrator OrchestratorTasks OrchestratorPlans OrchestratorGoals OrchestratorLogic OrchestratorStore OrchestratorSafety.

Module OrchestratorHandlers.
Import EventStore Effects Orchestrator OrchestratorTasks OrchestratorPlans OrchestratorGoals OrchestratorLogic OrchestratorStore OrchestratorSafety.

Section Handlers.
Context (jcs_Transform : string -> option string) (sha256_Sum256 : string -> list Z).
Context `{codec : Codec}.
Context (s : Service).
Notation anything := (fun (_ : knowledge) _ => True).

(** ** Task commands *)
(** What the commands of the audit and of the integration claim. *)
Definition claimed_by_task (command : Task.TaskCommand) : list (string * bool) :=
  match Task.Cmd.Type_ command with
  | Task.TaskCommandStartAudit => [("submission_validated", Task.Cmd.SubmissionValidated command)]
  | Task.TaskCommandLLMSuccess =>
      [("fresh_auditor", Task.Cmd.FreshAuditor command);
       ("blind_audit_context", Task.Cmd.BlindAuditContext command);
       ("no_blocking_findings", Task.Cmd.NoBlockingFindings command)]
  | Task.TaskCommandLLMFailure =>
      [("fresh_auditor", Task.Cmd.FreshAuditor command);
       ("blind_audit_context", Task.Cmd.BlindAuditContext command)]
  | Task.TaskCommandIntegrate =>
      [("dependencies_satisfied", Task.Cmd.DependenciesSatisfied command);
       ("merge_gate_passed", Task.Cmd.MergeGatePassed command)]
  | _ => []
  end.

Definition task_identity (request : TaskRequest) : identity := {|
  i_TenantID := tr_TenantID request;
  i_ProjectID := tr_ProjectID request;
  i_TaskID := tr_TaskID request;
  i_PrincipalID := tr_PrincipalID request;
  i_IdempotencyKey := tr_IdempotencyKey request;
  i_Action := Task.TaskCommandType_string (Task.Cmd.Type_ (tr_Command request));
  i_ExpectedVersion := tr_ExpectedVersion request;
  i_Authorization := tr_Authorization request;
  i_Evidence := if Task.Cmd.AuditEvidenceSHA256 (tr_Command request) ≟ "" then []
                else [Task.Cmd.AuditEvidenceSHA256 (tr_Command request)];
  i_Claims := list_to_map (claimed_by_task (tr_Command request));
  i_ModuleSpecRef := Task.Cmd.ModuleSpecRef (tr_Command request);
  i_GoalSpecRef := zeroSpecRef;
  i_FencingToken := Task.Cmd.FencingToken (tr_Command request);
  i_Approval := Some (from_option Approval.RecordID "" (Task.Cmd.Approval (tr_Command request)));
  i_CreatesProject := false;
  i_CreatesTask := Task.Cmd.Type_ (tr_Command request) ≟ Task.TaskCommandDefine
|}.

(** The facts of the boundary are those of the request. *)
Lemma task_presented request project current digest at_ K q :
  q_RequestSHA256 q = digest -> (tr_TaskID request ≟ "") = false ->
  found K (tr_TenantID request) "project" (tr_ProjectID request) unmarshal_project Project.zeroProject
    false project ->
  found K (tr_TenantID request) "task" (tr_TaskID request) unmarshal_task Task.zeroModuleTask
    (Task.Cmd.Type_ (tr_Command request) ≟ Task.TaskCommandDefine) current ->
  presented (task_identity request) K q
    (task_validation request project current ((normalizedTaskCommand request) ⟦ Task.Cmd.At := at_ ⟧) digest).
Proof.
  intros Hd Hid Hp Ht. split; cbn; try done.
  - split; [by destruct (Task.Cmd.AuditEvidenceSHA256 (tr_Command request) ≟ "")|]. unfold task_claims. cbn. unfold claimed_by_task.
    by destruct (Task.Cmd.Type_ _).
  - by rewrite Hid.
Qed.

Lemma handleTaskOnce_spec request K :
  wp (allowed (task_identity request)) (handleTaskOnce jcs_Transform sha256_Sum256 s request) K anything.
Proof.
  apply spec_any.
  unfold handleTaskOnce, validateRequest, TaskParameterDigest, Orchestrator.commandDigest.
  do 8 spec_step. do 2 spec_step. destruct r as [prior|]; [repeat spec_step; done|].
  rename H0 into Hid. spec_step. apply load_project_for_spec. intros K1 q p HK1 Hq Hp.
  spec_step. apply load_current_spec. intros K2 current HK2 Hv Hcur.
  do 2 spec_step. cbv zeta. do 2 spec_step. rename a1 into event, a0 into digest.
  set (command := (normalizedTaskCommand request) ⟦ Task.Cmd.At := UTC t ⟧) in *.
  spec_step. apply encode_task_spec. intros K3 x e HK3 Hm Hu Hx.
  set (T := tr_TenantID request) in *. set (P := tr_ProjectID request) in *.
  assert (Hown : good K3 T P e.1.1).
  { rewrite Hu, <- Hv. eapply just_read_or_new; [|done|done|].
    - apply found_read_or_new. eapply found_mono; [|exact Hcur]. set_solver.
    - done. }
  eapply (collects_then _ _ T P [e.1.1]).
  { by apply Forall_singleton. }
  { apply (task_consequences_spec _ _ s _ request q); [|done|done].
    eapply seen_mono; [|exact Hq]. set_solver. }
  intros K4 w HK4 Hw. spec_step. apply validate_spec. intros K5 EK5 HK.
  unfold commit_task. repeat spec_step. apply spec_execute; [|intros r; by repeat spec_step].
  split; [done|..].
  - eapply Forall_impl; [exact Hw|]. intros u. by apply good_mono.
  - eexists _, K4. split; [exact EK5|]. apply task_presented; [done|done|..].
    + eapply found_seen; [|exact Hp]. eapply seen_mono; [|exact Hq]. set_solver.
    + eapply found_mono; [|exact Hcur]. set_solver.
Qed.

(** Retrying reads only. *)
Lemma retry_spec J request e K (Q : knowledge -> bool -> Prop) :
  (forall K' b, K ⊆ K' -> Q K' b) -> wp J (retryCorePassConflict s request e) K Q.
Proof.
  intros H. unfold retryCorePassConflict. destruct (_ || _); cbn; [by apply H|].
  intros [|]; cbn; [apply H; set_solver|]. destruct (negb _); cbn; [apply H; set_solver|].
  intros [[p|]|?]; cbn; try (apply H; set_solver).
  destruct (unmarshal_task _) as [t|]; cbn; apply H; set_solver.
Qed.

Lemma HandleTask_spec request rounds K :
  wp (allowed (task_identity request)) (HandleTask jcs_Transform sha256_Sum256 s rounds request) K anything.
Proof.
  revert K. induction rounds as [|rounds IH]; intros K; cbn [HandleTask]; apply wp_bind;
    (eapply wp_mono; [|apply handleTaskOnce_spec]); intros K1 [outcome|e] _; cbn; try done;
    apply wp_bind, retry_spec; intros K2 b _; destruct b; cbn; try done; apply IH.
Qed.

(** *** What a task command answers *)
Definition task_digest (request : TaskRequest) : option string :=
  value ← marshal_task_command (tr_ExpectedVersion request)
    (taskDigestCommand (normalizedTaskCommand request));
  CanonicalJson.Digest jcs_Transform sha256_Sum256 value.

Lemma TaskParameterDigest_eq request :
  TaskParameterDigest jcs_Transform sha256_Sum256 request =
  some_or ErrEncode (task_digest request).
Proof.
  unfold TaskParameterDigest, Orchestrator.commandDigest, task_digest.
  destruct (marshal_task_command _ _) as [value|]; [cbn|done].
  by destruct (CanonicalJson.Digest jcs_Transform sha256_Sum256 value).
Qed.

Definition request_refused (request : TaskRequest) : bool :=
  (tr_TenantID request ≟ "") || (tr_ProjectID request ≟ "") || (tr_PrincipalID request ≟ "")
  || (tr_IdempotencyKey request ≟ "") || (tr_ExpectedVersion request <? 0)
  || (tr_TaskID request ≟ "").

(** An outcome is that of a recorded transaction of this very request. *)
Definition answers (request : TaskRequest) (K : knowledge) (outcome : TaskOutcome) : Prop :=
  request_refused request = false /\
  exists d t, task_digest request = Some d /\
    (SawLookup (tr_TenantID request) (tr_PrincipalID request) (tr_IdempotencyKey request) d
       (Ok (Some t)) ∈ K \/
     exists q, SawExecute q (Ok t) ∈ K /\ q_TenantID q = tr_TenantID request /\
       q_PrincipalID q = tr_PrincipalID request /\ q_IdempotencyKey q = tr_IdempotencyKey request /\
       q_RequestSHA256 q = d) /\
    unmarshal_task (t_Result t) = Some (to_Task outcome) /\ t_Events t = to_Events outcome.

Lemma handleTaskOnce_answers request K :
  spec (fun _ _ => True) (handleTaskOnce jcs_Transform sha256_Sum256 s request) K (answers request).
Proof.
  unfold handleTaskOnce, validateRequest. rewrite TaskParameterDigest_eq. cbv zeta.
  repeat spec_step. destruct r as [prior|].
  { repeat spec_step. split; [by apply orb_false_iff|]. exists a, prior. split_and!; [done|left; set_solver|done|done]. }
  rename a into d. spec_step. apply load_project_for_spec. intros K1 q p HK1 Hq Hp.
  spec_step. apply load_current_spec. intros K2 current HK2 Hv Hcur.
  repeat spec_step. apply encode_task_spec. intros K3 x e HK3 Hm Hu Hx.
  eapply (collects_then _ _ (tr_TenantID request) (tr_ProjectID request) []).
  { constructor. }
  { apply (task_consequences_spec _ _ s _ request q); [|done|done].
    eapply seen_mono; [|exact Hq]. set_solver. }
  intros K4 w HK4 Hw. spec_step. apply validate_spec. intros K5 EK5 HK.
  unfold commit_task. repeat spec_step. apply spec_execute; [done|]. intros t'. repeat spec_step.
  split; [by apply orb_false_iff|]. eexists d, t'. split_and!; [done| |done|done]. right. eexists. split; [left|]. done.
Qed.

Lemma HandleTask_answers request rounds K :
  wp (fun _ _ => True) (HandleTask jcs_Transform sha256_Sum256 s rounds request) K
    (fun K' r => forall outcome, r = Some (Ok outcome) -> answers request K' outcome).
Proof.
  revert K. induction rounds as [|rounds IH]; intros K; cbn [HandleTask]; apply wp_bind;
    (eapply wp_mono; [|apply handleTaskOnce_answers]); intros K1 [outcome|e] Ha; cbn;
    try (by intros outcome' [= <-]); apply wp_bind, retry_spec; intros K2 b _;
    destruct b; cbn; try done; by eapply wp_mono; [|apply IH].
Qed.

(** A command begins with the lookup of its record, and ends there if it has
    one. *)
Lemma handleTaskOnce_lookup request d :
  request_refused request = false -> task_digest request = Some d ->
  exists k, handleTaskOnce jcs_Transform sha256_Sum256 s request =
    DoLookup (tr_TenantID request) (tr_PrincipalID request) (tr_IdempotencyKey request) d k /\
    forall t task, unmarshal_task (t_Result t) = Some task ->
      k (Ok (Some t)) = Ret (Ok (mkTaskOutcome task (t_Events t) true)).
Proof.
  intros [Hr Hid]%orb_false_iff Hd. unfold handleTaskOnce, validateRequest.
  rewrite Hr, Hid, TaskParameterDigest_eq, Hd. cbn. eexists. split; [done|].
  intros t task Ht. cbn. unfold decodeTask. by rewrite Ht.
Qed.

(** ** Queued plans *)
(** The facts of both operations on a plan: the digests of the goal and of the
    plan, on the project as it is stored. *)
Definition plan_identity (tenantID projectID principalID key action : string) (expectedVersion : Z)
    (authorization : Capability.CommitAuthorization) (goal plan : SpecRef) (claims : list string)
    : identity := {|
  i_TenantID := tenantID;
  i_ProjectID := projectID;
  i_TaskID := "";
  i_PrincipalID := principalID;
  i_IdempotencyKey := key;
  i_Action := action;
  i_ExpectedVersion := expectedVersion;
  i_Authorization := authorization;
  i_Evidence := [RefSHA256 goal; RefSHA256 plan];
  i_Claims := list_to_map (map (fun claim => (claim, true)) claims);
  i_ModuleSpecRef := zeroSpecRef;
  i_GoalSpecRef := goal;
  i_FencingToken := 0;
  i_Approval := Some "";
  i_CreatesProject := false;
  i_CreatesTask := false
|}.
Definition queue_identity (request : QueuePlanTasksRequest) : identity :=
  plan_identity (qr_TenantID request) (qr_ProjectID request) (qr_PrincipalID request)
    (qr_IdempotencyKey request) (Task.TaskCommandType_string Task.TaskCommandQueuePlanning)
    (qr_ExpectedProjectVersion request) (qr_Authorization request) (qr_GoalSpecRef request)
    (qr_PlanRef request) ["dag_validated"; "ownership_validated"].

Lemma load_project_spec J T P v K (Q : knowledge -> Project.Project -> Prop) :
  (forall K' q p, K ⊆ K' -> seen K' T "project" P q -> unmarshal_project (p_State q) = Some p ->
     Project.Version p = v -> Q K' p) ->
  spec J (load_project T P v) K Q.
Proof.
  intros H. unfold load_project. repeat spec_step. subst.
  apply (H _ a); [set_solver|left; set_solver|done|by go_bool].
Qed.

Lemma queue_tasks_spec J request dependentIDs at_ d definitions K :
  spec J (queue_tasks jcs_Transform sha256_Sum256 request dependentIDs at_ d definitions) K
    (fun K' r => K ⊆ K' /\ Forall (good K' (qr_TenantID request) (qr_ProjectID request)) r.1.1).
Proof.
  revert K. induction definitions as [|definition definitions IH]; intros K; cbn [queue_tasks].
  { spec_step. split; [done|constructor]. }
  spec_step. apply (spec_mono _ _ _ (fun K' w => K ⊆ K' /\
    Forall (good K' (qr_TenantID request) (qr_ProjectID request)) w.1.1)).
  - intros K1 w [HK1 Hw]. spec_step. eapply spec_mono; [|apply IH]. intros K2 ws [HK2 Hws].
    spec_step. split; [by etransitivity|]. apply Forall_app. split; [|done].
    eapply Forall_impl; [exact Hw|]. intros u. by apply good_mono.
  - unfold queue_task. cbv zeta. do 2 spec_step. destruct (pl_Retain definition).
    + repeat spec_step. split; [set_solver|constructor].
    + do 2 spec_step. spec_step. spec_step. apply encode_task_spec. intros K1 x e HK1 Hm Hu _.
      spec_step. split; [set_solver|]. apply Forall_singleton. rewrite Hu.
      eapply (just_read_or_new _ _ _ _ _ Task.zeroModuleTask); [|done..]. by left.
Qed.

Lemma QueuePlanTasks_spec request K :
  wp (allowed (queue_identity request)) (QueuePlanTasks jcs_Transform sha256_Sum256 s request) K anything.
Proof.
  apply spec_any. unfold QueuePlanTasks, validateQueuePlanTasksRequest, validateRequest,
    Orchestrator.commandDigest.
  set (sorted := request ⟦ qr_Tasks := sort_slice planning_before (copy_slice (qr_Tasks request)) ⟧).
  change (queue_identity request) with (queue_identity sorted). clearbody sorted.
  repeat spec_step. destruct r as [prior|]; [unfold decodeQueuePlanTasksResult; repeat spec_step; done|].
  spec_step. apply load_project_spec. intros K1 q p HK1 Hq Hp Hv.
  do 3 spec_step. cbv zeta. spec_step. eapply spec_mono; [|apply queue_tasks_spec].
  intros K2 w [HK2 Hw]. do 2 spec_step. spec_step. apply validate_spec. intros K3 EK3 HK3.
  repeat spec_step. apply spec_execute; [|intros r; unfold decodeQueuePlanTasksResult; by repeat spec_step].
  split; [done|..].
  - eapply Forall_impl; [exact Hw|]. intros u. by apply good_mono.
  - eexists _, K2. split; [exact EK3|]. split; try done.
    eapply found_seen; [|exact Hp]. eapply seen_mono; [|exact Hq]. set_solver.
Qed.

(** ** Published plans *)
Definition publish_identity (request : PublishPlanRequest) : identity :=
  plan_identity (pp_TenantID request) (pp_ProjectID request) (pp_PrincipalID request)
    (pp_IdempotencyKey request) (Project.ProjectCommandType_string Project.ProjectCommandPublishPlan)
    (pp_ExpectedProjectVersion request) (pp_Authorization request) (pp_GoalSpecRef request)
    (pp_PlanRef request) ["dag_validated"; "module_specs_validated"].

Lemma publish_tasks_spec J request dependentIDs at_ d definitions K :
  Forall (fun definition => ValidString (pt_TaskID definition) = true) definitions ->
  spec J (publish_tasks jcs_Transform sha256_Sum256 request dependentIDs at_ d definitions) K
    (fun K' r => K ⊆ K' /\ Forall (good K' (pp_TenantID request) (pp_ProjectID request)) r.1.1).
Proof.
  intros Hids. revert K. induction Hids as [|definition definitions Hid _ IH]; intros K;
    cbn [publish_tasks].
  { spec_step. split; [done|constructor]. }
  spec_step. apply (spec_mono _ _ _ (fun K' w => K ⊆ K' /\
    Forall (good K' (pp_TenantID request) (pp_ProjectID request)) w.1.1)).
  - intros K1 w [HK1 Hw]. spec_step. eapply spec_mono; [|apply IH]. intros K2 ws [HK2 Hws].
    spec_step. split; [by etransitivity|]. apply Forall_app. split; [|done].
    eapply Forall_impl; [exact Hw|]. intros u. by apply good_mono.
  - unfold publish_task. cbv zeta. repeat spec_step. destruct (_ && _).
    + repeat spec_step. apply encode_task_spec. intros K1 x e HK1 Hm Hu _.
      spec_step. split; [set_solver|]. apply Forall_singleton. rewrite Hu. subst.
      split_and!; [done|done|]. eapply just_task; try done. right.
      exists (pt_TaskID definition), a. split_and!; [left; set_solver|done|by right].
    + spec_step. split; [set_solver|constructor].
Qed.

Lemma PublishPlan_spec request K :
  Forall (fun definition => ValidString (pt_TaskID definition) = true) (pp_Tasks request) ->
  wp (allowed (publish_identity request)) (PublishPlan jcs_Transform sha256_Sum256 s request) K anything.
Proof.
  intros Hids. apply spec_any. unfold PublishPlan, validatePublishPlanRequest, validateRequest,
    Orchestrator.commandDigest.
  set (sorted := request ⟦ pp_Tasks := sort_slice module_before (copy_slice (pp_Tasks request)) ⟧).
  change (publish_identity request) with (publish_identity sorted).
  assert (Hsorted : Forall (fun definition => ValidString (pt_TaskID definition) = true) (pp_Tasks sorted)).
  { cbn. rewrite sort_slice_Permutation. exact Hids. }
  clearbody sorted.
  repeat spec_step. destruct r as [prior|]; [unfold decodePublishPlanResult; repeat spec_step; done|].
  spec_step. apply load_project_spec. intros K1 q p HK1 Hq Hp Hv.
  do 2 spec_step. cbv zeta. do 3 spec_step. apply encode_project_spec. intros K2 x e HK2 Hm Hu _.
  spec_step. eapply spec_mono; [|by apply publish_tasks_spec].
  intros K3 w [HK3 Hw]. do 2 spec_step. spec_step. apply validate_spec. intros K4 EK4 HK4.
  repeat spec_step. apply spec_execute; [|intros r; unfold decodePublishPlanResult; by repeat spec_step].
  split; [done|..].
  - cbn. constructor.
    + rewrite Hu, <- Hv. eapply (project_good _ _ _ q p); [|done..].
      eapply seen_mono; [|exact Hq]. set_solver.
    + eapply Forall_impl; [exact Hw|]. intros u. by apply good_mono.
  - eexists _, K3. split; [exact EK4|]. split; try done.
    eapply found_seen; [|exact Hp]. eapply seen_mono; [|exact Hq]. set_solver.
Qed.

(** ** Project commands *)
Context (strings_ToLower : string -> string) (url_Parse : string -> option Specs.URL).
(** What a guard and a completion claim; the claims of the completion win. *)
Definition claimed_by_guard (guard : Project.ProjectGuardFacts) : list (string * bool) :=
  [("all_tasks_passed", Project.Guard.AllTasksPassed guard);
   ("all_tasks_integrated", Project.Guard.AllTasksIntegrated guard);
   ("integration_audit_passed", Project.Guard.IntegrationAuditPassed guard)].
Definition claimed_by_completion (facts : Project.CompletionFacts) : list (string * bool) :=
  [("all_tasks_integrated", Project.Facts.AllTasksIntegrated facts);
   ("all_integration_tasks_done", Project.Facts.AllIntegrationTasksDone facts);
   ("integration_audit_passed", Project.Facts.IntegrationAuditPassed facts);
   ("goal_criteria_satisfied", Project.Facts.GoalCriteriaSatisfied facts);
   ("global_audit_passed", Project.Facts.GlobalAuditPassed facts);
   ("release_gates_passed", Project.Facts.ReleaseGatesPassed facts);
   ("release_artifacts_signed", Project.Facts.ReleaseArtifactsSigned facts);
   ("sbom_generated", Project.Facts.SBOMGenerated facts);
   ("provenance_generated", Project.Facts.ProvenanceGenerated facts);
   ("no_blocked_or_rework", Project.Facts.NoBlockedOrRework facts);
   ("no_blocking_findings", Project.Facts.NoBlockingFindings facts);
   ("risk_acceptances_valid", Project.Facts.RiskAcceptancesValid facts);
   ("operational_summaries_generated", Project.Facts.OperationalSummariesGenerated facts);
   ("plan_supervisor_summary_generated", Project.Facts.PlanSupervisorSummaryGenerated facts);
   ("goal_summary_verified", Project.Facts.GoalSummaryVerified facts);
   ("final_result_delivered", Project.Facts.FinalResultDelivered facts)].

Definition project_identity (request : ProjectRequest) : identity :=
  let command := pr_Command request in {|
  i_TenantID := pr_TenantID request;
  i_ProjectID := pr_ProjectID request;
  i_TaskID := "";
  i_PrincipalID := pr_PrincipalID request;
  i_IdempotencyKey := pr_IdempotencyKey request;
  i_Action := Project.ProjectCommandType_string (Project.Cmd.Type_ command);
  i_ExpectedVersion := pr_ExpectedVersion request;
  i_Authorization := pr_Authorization request;
  i_Evidence :=
    match Project.Cmd.Guard command with Some g => [Project.Guard.EvidenceSHA256 g] | None => [] end
    ++ match Project.Cmd.Completion command with Some f => [Project.Facts.EvidenceSHA256 f] | None => [] end;
  i_Claims := list_to_map
    (match Project.Cmd.Completion command with Some f => claimed_by_completion f | None => [] end
     ++ match Project.Cmd.Guard command with Some g => claimed_by_guard g | None => [] end);
  i_ModuleSpecRef := zeroSpecRef;
  i_GoalSpecRef := match Project.Cmd.GoalSpecRef command, Project.Cmd.Goal command with
                   | Some ref, _ => ref
                   | None, Some g => mkSpecRef (Project.Goal_.Version g) (Project.Goal_.SHA256 g)
                   | None, None => zeroSpecRef
                   end;
  i_FencingToken := 0;
  i_Approval := if Project.Cmd.Approval command then None else Some "";
  i_CreatesProject := Project.Cmd.Type_ command ≟ Project.ProjectCommandCreate;
  i_CreatesTask := false
|}.

(** What a project command still says once it is prepared and finalized. *)
Definition carried (c : Project.ProjectCommand) :=
  (Project.Cmd.Type_ c, Project.Cmd.Guard c, Project.Cmd.Completion c, Project.Cmd.GoalSpecRef c,
   Project.Cmd.Goal c).

Lemma prepared_carries request c c' :
  prepareGoalCommand jcs_Transform sha256_Sum256 strings_ToLower url_Parse request c = Ok c' ->
  carried c'.1 = carried c.1 /\ Project.Cmd.Approval c'.1 = Project.Cmd.Approval c.1.
Proof.
  unfold prepareGoalCommand. intros H. apply rbind_ok in H as (c1 & H1 & H).
  apply rbind_ok in H as (c2 & H2 & H).
  assert (E1 : carried c1 = carried c.1 /\ Project.Cmd.Approval c1 = Project.Cmd.Approval c.1).
  { unfold prepareProjectLifecycleCommand in H1. destruct (Project.Cmd.Type_ c.1) eqn:E;
      by accepted H1. }
  assert (E2 : carried c2 = carried c1 /\ Project.Cmd.Approval c2 = Project.Cmd.Approval c1).
  { destruct (Project.Cmd.GoalMessage c1); [|by accepted H2].
    apply rbind_ok in H2 as (m & _ & H2). by injection H2 as <-. }
  destruct E1, E2. destruct c.2 as [spec|]; [|injection H as <-; cbn; split; congruence].
  apply rbind_ok in H as (_ & _ & H). injection H as <-. cbn. split; congruence.
Qed.

(** The facts of the boundary are those of the request; the approval has a
    fresh identifier. *)
Definition approval_fresh (K : knowledge) (before after : option Approval.ApprovalBinding) : Prop :=
  match before with
  | None => after = None
  | Some _ => exists a, after = Some a /\ SawUUID (Some (Approval.RecordID a)) ∈ K
  end.

Lemma project_presented request current command digest K q :
  q_RequestSHA256 q = digest -> carried command = carried (pr_Command request) ->
  approval_fresh K (Project.Cmd.Approval (pr_Command request)) (Project.Cmd.Approval command) ->
  found K (pr_TenantID request) "project" (pr_ProjectID request) unmarshal_project Project.zeroProject
    (Project.Cmd.Type_ (pr_Command request) ≟ Project.ProjectCommandCreate) current ->
  presented (project_identity request) K q (project_validation request current command digest).
Proof.
  unfold carried. intros Hd [= Hty Hg Hc Hr Hgoal] Ha Hp.
  split; cbn; unfold project_evidence, project_claims, project_goal_ref; rewrite ?Hty, ?Hg, ?Hc, ?Hr, ?Hgoal;
    try done.
  - split; [by destruct (Project.Cmd.Guard _), (Project.Cmd.Completion _)|].
    rewrite list_to_map_app.
    destruct (Project.Cmd.Guard (pr_Command request)), (Project.Cmd.Completion (pr_Command request)); reflexivity.
  - unfold approval_fresh in Ha. destruct (Project.Cmd.Approval (pr_Command request)); cbn.
    + destruct Ha as (a' & -> & Ha). exact Ha.
    + by rewrite Ha.
Qed.

Lemma identified_spec {A} J (part : option A) set K (Q : knowledge -> option A -> Prop) :
  (forall K' o, K ⊆ K' -> Q K' o) -> spec J (identified part set) K Q.
Proof. intros H. unfold identified. destruct part; repeat spec_step; apply H; set_solver. Qed.

Lemma finalize_spec J command K (Q : knowledge -> Project.ProjectCommand -> Prop) :
  (forall K' c, K ⊆ K' -> carried c = carried command ->
     approval_fresh K' (Project.Cmd.Approval command) (Project.Cmd.Approval c) ->
     Project.Cmd.At c = Project.Cmd.At command -> Q K' c) ->
  spec J (finalizeGoalCommand command) K Q.
Proof.
  intros H. unfold finalizeGoalCommand. cbv zeta.
  set (kept := fun c => carried c = carried command /\
    Project.Cmd.Approval c = Project.Cmd.Approval command /\ Project.Cmd.At c = Project.Cmd.At command).
  spec_step. apply (spec_mono _ _ _ (fun K' c => K ⊆ K' /\ kept c)).
  - intros K1 c1 [HK1 Hc1]. spec_step.
    apply (spec_mono _ _ _ (fun K' c => K ⊆ K' /\ kept c)).
    + intros K2 c2 [HK2 (Hc2 & Ha2 & Ht2)]. spec_step. apply identified_spec. intros K3 message HK3. cbv zeta.
      spec_step. change (Project.Cmd.Approval (c2 ⟦ Project.Cmd.GoalMessage := message ⟧)) with (Project.Cmd.Approval c2).
      rewrite Ha2. unfold identified.
      destruct (Project.Cmd.Approval command) as [approval|] eqn:E; repeat spec_step;
        (apply H; [set_solver|exact Hc2| |exact Ht2]); cbn; [|done]. eexists. split; [done|]. by left.
    + destruct (_ ≟ _); cbn [negb]; [|by spec_step].
      spec_step. apply identified_spec. intros K2 hold HK2. spec_step. split; [set_solver|done].
  - destruct (_ ≟ _); cbn [negb]; [|by spec_step].
    spec_step. apply identified_spec. intros K2 deletion HK2. by spec_step.
Qed.

Lemma goal_write_spec J request ty id ety v at_ content d K :
  ty = "goal_message" \/ ty = "goal_spec" ->
  collects J K (pr_TenantID request) (pr_ProjectID request)
    (goal_write jcs_Transform sha256_Sum256 request ty id ety v at_ content d).
Proof.
  intros Hty. unfold goal_write, collects. cbv zeta. spec_step. apply newEvent_spec.
  intros K' e HK. spec_step. split; [done|]. apply Forall_singleton.
  split_and!; [done|done|by apply just_goal].
Qed.

Lemma collects_weaken J K K' T P m : K ⊆ K' -> collects J K' T P m ->
  spec J m K' (fun K'' w => K ⊆ K'' /\ Forall (good K'' T P) w.1).
Proof. intros HK H. eapply spec_mono; [|exact H]. intros K'' w [HK' Hw]. split; [by etransitivity|done]. Qed.

Lemma goalSpecStatusTransition_spec J request goal status approvedBy at_ d K :
  collects J K (pr_TenantID request) (pr_ProjectID request)
    (goalSpecStatusTransition jcs_Transform sha256_Sum256 strings_ToLower url_Parse request goal
       status approvedBy at_ d).
Proof.
  unfold goalSpecStatusTransition, collects. cbv zeta. do 2 spec_step.
  destruct r as [stored|]; [|spec_step; split; [set_solver|constructor]].
  repeat spec_step. destruct (status_refused _ _ _); [by spec_step|].
  destruct (_ && _); [spec_step; split; [set_solver|constructor]|]. repeat spec_step.
  apply collects_weaken; [set_solver|]. apply goal_write_spec. by right.
Qed.

Lemma goalRelatedTransitions_spec J request current c d K :
  collects J K (pr_TenantID request) (pr_ProjectID request)
    (goalRelatedTransitions jcs_Transform sha256_Sum256 strings_ToLower url_Parse request current c d).
Proof.
  unfold goalRelatedTransitions. cbv zeta.
  set (T := pr_TenantID request). set (P := pr_ProjectID request).
  apply (collects_then J _ T P []); [constructor| |].
  { destruct (Project.Cmd.GoalMessage c.1) as [message|]; [|apply collects_none].
    unfold store_message, collects. repeat spec_step.
    apply collects_weaken; [set_solver|]. apply goal_write_spec. by left. }
  intros K1 w1 HK1 Hw1. eapply (collects_then J); [exact Hw1| |].
  { destruct (Project.Cmd.Goal c.1) as [goal|]; [|apply collects_none].
    destruct c.2 as [spec|]; [|apply collects_none].
    destruct (proposes_goal _); [|apply collects_none].
    unfold propose_spec. apply (collects_then J _ T P []); [constructor| |].
    - destruct (Project.Goal current) as [old|]; [|apply collects_none].
      destruct (_ <? _); [apply goalSpecStatusTransition_spec|apply collects_none].
    - intros K2 w2 HK2 Hw2. repeat spec_step.
      eapply spec_mono; [|apply goal_write_spec; by right]. intros K3 w3 [HK3 Hw3].
      spec_step. split; [set_solver|]. apply Forall_app. split; [|done].
      eapply Forall_impl; [exact Hw2|]. intros u. apply good_mono. set_solver. }
  intros K2 w2 HK2 Hw2. eapply (collects_then J); [exact Hw2| |].
  { destruct (Project.Cmd.Goal c.1) as [goal|]; [|apply collects_none].
    destruct (reviewed c.1) as [[status approvedBy]|]; [|apply collects_none].
    apply goalSpecStatusTransition_spec. }
  intros K3 w3 HK3 Hw3. apply spec_ret. split; [set_solver|exact Hw3].
Qed.

Lemma supersede_tasks_spec J request at_ d ids K :
  collects J K (pr_TenantID request) (pr_ProjectID request)
    (supersede_tasks jcs_Transform sha256_Sum256 request at_ d ids).
Proof.
  revert K. induction ids as [|id ids IH]; intros K; cbn [supersede_tasks]; [apply collects_none|].
  unfold collects. repeat spec_step. apply encode_task_spec. intros K1 x e HK1 Hm Hu _.
  subst. eapply (collects_then J _ _ _ [e.1.1]); [|apply IH|].
  - apply Forall_singleton. rewrite Hu. eapply transition_good; [|done..]. left. set_solver.
  - intros K2 w HK2 Hw. spec_step. split; [set_solver|done].
Qed.

Lemma load_project_current_spec J request ty K (Q : knowledge -> Project.Project -> Prop) :
  (forall K' p, K ⊆ K' -> Project.Version p = pr_ExpectedVersion request ->
     found K' (pr_TenantID request) "project" (pr_ProjectID request) unmarshal_project Project.zeroProject
       (ty ≟ Project.ProjectCommandCreate) p -> Q K' p) ->
  spec J (load_project_current request ty) K Q.
Proof.
  intros H. unfold load_project_current. do 2 spec_step. spec_step. destruct r as [q|].
  - repeat spec_step. apply H; [set_solver|by go_bool|]. right. exists q.
    split; [left; set_solver|done].
  - repeat spec_step. go_bool. apply H; [set_solver|done|]. left.
    split_and!; [done|by rewrite H0, bool_decide_eq_true_2|left].
Qed.

Lemma HandleProject_spec request K :
  wp (allowed (project_identity request))
    (HandleProject jcs_Transform sha256_Sum256 strings_ToLower url_Parse s request) K anything.
Proof.
  apply spec_any. unfold HandleProject, validateRequest, ProjectDigest, Orchestrator.commandDigest.
  cbv zeta. repeat spec_step. destruct r as [prior|]; [repeat spec_step; done|].
  rename a into c, H0 into Hc, a1 into digest. apply prepared_carries in Hc as [Hc Ha]. cbn [fst] in Hc, Ha.
  spec_step. apply load_project_current_spec. intros K1 current HK1 Hv Hcur.
  do 2 spec_step. spec_step. apply finalize_spec. intros K2 command HK2 Hcar Happ _.
  do 3 spec_step. apply encode_project_spec. intros K3 x e HK3 Hm Hu Hx.
  set (T := pr_TenantID request) in *. set (P := pr_ProjectID request) in *.
  eapply (collects_then _ _ T P [e.1.1]); [|apply goalRelatedTransitions_spec|].
  { apply Forall_singleton. rewrite Hu, <- Hv. split_and!; [done|done|].
    eapply just_project; try done. destruct Hcur as [[? _]|(q & ? & ?)]; [by left|right; exists q].
    split; [|done]. eapply seen_mono; [|done]. set_solver. }
  intros K4 w4 HK4 Hw4. eapply collects_then; [exact Hw4| |].
  { destruct (retires_tasks _); [apply supersede_tasks_spec|apply collects_none]. }
  intros K5 w5 HK5 Hw5. spec_step. apply validate_spec. intros K6 EK6 HK6.
  repeat spec_step. apply spec_execute; [|intros r; by repeat spec_step]. split; [done|..].
  - eapply Forall_impl; [exact Hw5|]. intros u. by apply good_mono.
  - eexists _, K5. split; [exact EK6|]. apply project_presented; [done|exact (eq_trans Hcar Hc)| |].
    + change (Project.Cmd.Approval (pr_Command request)) with (Project.Cmd.Approval (normalizedProjectCommand request)).
      rewrite <- Ha. unfold approval_fresh in *. cbn in Happ. destruct (Project.Cmd.Approval c.1); [|done].
      destruct Happ as (a' & -> & Happ). exists a'. split; [done|]. set_solver.
    + replace (Project.Cmd.Type_ (pr_Command request)) with (Project.Cmd.Type_ c.1) by by injection Hc.
      eapply found_mono; [|exact Hcur]. set_solver.
Qed.
End Handlers.
End OrchestratorHandlers.
