(* ===== verification/OrchestratorClock.v ===== *)
(** When the orchestrator commits: every handler reads the clock once before a
    commit, and states that reading to the commit boundary as the time of the
    commit. *)

From S2P Require Import Prelude GoLib Runs Json Errors Contracts Approval Task TaskProps Project ProjectWf Specs EventStore EventStoreProps Capability CapabilityProps Effects Orchestrator OrchestratorTasks OrchestratorPlans OrchestratorGoals OrchestratorLogic OrchestratorStore OrchestratorSafety OrchestratorHandlers.

Module OrchestratorClock.
Import EventStore Effects Orchestrator OrchestratorTasks OrchestratorPlans OrchestratorGoals OrchestratorLogic OrchestratorStore OrchestratorSafety OrchestratorHandlers.

(** The boundary accepted facts with the latest reading of the clock. *)
Definition timed (K : knowledge) (q : TransactionRequest) : Prop :=
  exists v K', K = SawValidate v true :: K' /\ last_clock K' = Some (Capability.Val.CommitAt v).

(** A part of a handler, step by step: it neither reads the clock nor commits. *)
Ltac quiet_step :=
  lazymatch goal with
  | |- quiet (mbind _ _) => apply quiet_mbind; [|intros ?]
  | |- quiet (bind _ _) => apply quiet_bind; [|intros ?]
  | |- quiet (ret _) => exact I
  | |- quiet (fail _) => exact I
  | |- quiet (Ret _) => exact I
  | |- quiet (lift _ _) => exact I
  | |- quiet (some_or _ ?o) => destruct o; exact I
  | |- quiet (if ?c then _ else _) => destruct c
  | |- quiet (match ?x with _ => _ end) => destruct x
  | |- quiet (load _ _ _) => intros [?|?]; exact I
  | |- quiet (list_projections _ _ _) => intros [?|?]; exact I
  | |- quiet (lookup_ _ _ _ _) => intros [?|?]; exact I
  | |- quiet newRecordUUIDv7 => intros [?|]; exact I
  end.
Ltac quiet_tac := repeat (quiet_step || (progress cbv zeta)).

Section Clock.
Context (jcs_Transform : string -> option string) (sha256_Sum256 : string -> list Z).
Context `{codec : Codec}.
Context (s : Service).
Context (strings_ToLower : string -> string) (url_Parse : string -> option Specs.URL).
Notation anything := (fun (_ : knowledge) _ => True).
Notation mustDigest := (mustDigest jcs_Transform sha256_Sum256).
Notation newEvent := (newEvent jcs_Transform sha256_Sum256).
Notation encodeTaskTransition := (encodeTaskTransition jcs_Transform sha256_Sum256).
Notation encodeProjectTransition := (encodeProjectTransition jcs_Transform sha256_Sum256).

(** ** The parts of the handlers *)
Lemma newEvent_quiet T P ty id ety v at_ payload d : quiet (newEvent T P ty id ety v at_ payload d).
Proof. unfold Orchestrator.newEvent, Orchestrator.mustDigest. quiet_tac. Qed.
Lemma encode_task_quiet T P id v ev d : quiet (encodeTaskTransition T P id v ev d).
Proof. unfold Orchestrator.encodeTaskTransition. quiet_tac. apply newEvent_quiet. Qed.
Lemma encode_project_quiet T P v ev d : quiet (encodeProjectTransition T P v ev d).
Proof. unfold Orchestrator.encodeProjectTransition. quiet_tac. apply newEvent_quiet. Qed.

Lemma load_dependent_quiet request id : quiet (load_dependent request id).
Proof. unfold load_dependent, decodeTask. quiet_tac. Qed.
Lemma transition_task_quiet request id t c d :
  quiet (transition_task jcs_Transform sha256_Sum256 request id t c d).
Proof. unfold transition_task. quiet_tac. apply encode_task_quiet. Qed.
Lemma block_quiet request at_ d ids : quiet (block_dependents jcs_Transform sha256_Sum256 request at_ d ids).
Proof.
  induction ids; cbn [block_dependents]; quiet_tac;
    auto using load_dependent_quiet, transition_task_quiet.
Qed.
Lemma unblock_quiet request at_ d ids : quiet (unblock_dependents jcs_Transform sha256_Sum256 request at_ d ids).
Proof.
  induction ids; cbn [unblock_dependents]; quiet_tac;
    auto using load_dependent_quiet, transition_task_quiet.
Qed.
Lemma Tasks_quiet T P : quiet (Tasks s T P).
Proof.
  unfold Tasks. quiet_tac. match goal with |- quiet (decode_tasks _ _ ?l) => induction l end;
    cbn [decode_tasks]; unfold decodeTask; quiet_tac; done.
Qed.
Lemma ready_quiet request audited at_ d :
  quiet (readyAuditedDependents jcs_Transform sha256_Sum256 s request audited at_ d).
Proof.
  unfold readyAuditedDependents. quiet_tac; [apply Tasks_quiet|].
  match goal with |- quiet (ready_dependents _ _ _ _ _ _ ?l) => induction l end;
    cbn [ready_dependents]; quiet_tac; auto using transition_task_quiet.
Qed.
Lemma summary_quiet request p passed at_ d :
  quiet (coreSummaryTransition jcs_Transform sha256_Sum256 s request p passed at_ d).
Proof.
  unfold coreSummaryTransition, summary_command. quiet_tac; auto using Tasks_quiet, encode_project_quiet.
Qed.
Lemma consequences_quiet request p current c ev d :
  quiet (task_consequences jcs_Transform sha256_Sum256 s request p current c ev d).
Proof.
  unfold task_consequences. quiet_tac; auto using block_quiet, unblock_quiet, ready_quiet, summary_quiet.
Qed.

Lemma finalize_quiet c : quiet (finalizeGoalCommand c).
Proof. unfold finalizeGoalCommand, identified. quiet_tac. Qed.
Lemma goal_write_quiet request ty id ety v at_ content d :
  quiet (goal_write jcs_Transform sha256_Sum256 request ty id ety v at_ content d).
Proof. unfold goal_write. quiet_tac. apply newEvent_quiet. Qed.
Lemma status_quiet request goal status by_ at_ d :
  quiet (goalSpecStatusTransition jcs_Transform sha256_Sum256 strings_ToLower url_Parse request goal status by_ at_ d).
Proof. unfold goalSpecStatusTransition. quiet_tac; apply goal_write_quiet. Qed.
Lemma related_quiet request current c d :
  quiet (goalRelatedTransitions jcs_Transform sha256_Sum256 strings_ToLower url_Parse request current c d).
Proof.
  unfold goalRelatedTransitions, store_message, propose_spec. quiet_tac;
    auto using goal_write_quiet, status_quiet.
Qed.
Lemma supersede_quiet request at_ d ids :
  quiet (supersede_tasks jcs_Transform sha256_Sum256 request at_ d ids).
Proof.
  induction ids; cbn [supersede_tasks]; unfold decodeTask; quiet_tac; auto using encode_task_quiet.
Qed.

Lemma queue_quiet request deps at_ d l :
  quiet (queue_tasks jcs_Transform sha256_Sum256 request deps at_ d l).
Proof.
  induction l; cbn [queue_tasks]; unfold queue_task, decodeTask; quiet_tac; auto using encode_task_quiet.
Qed.
Lemma publish_quiet request deps at_ d l :
  quiet (publish_tasks jcs_Transform sha256_Sum256 request deps at_ d l).
Proof.
  induction l; cbn [publish_tasks]; unfold publish_task, decodeTask; quiet_tac; auto using encode_task_quiet.
Qed.

(** ** The handlers *)
(** After the boundary, the commit. *)
Lemma timed_commit v K (q : TransactionRequest) (Q : knowledge -> TransactionResult -> Prop) :
  last_clock K = Some (Capability.Val.CommitAt v) -> (forall K' r, Q K' r) ->
  spec timed (execute q) (SawValidate v true :: K) Q.
Proof. intros Hc HQ. apply spec_execute; [by exists v, K|auto]. Qed.

(** A quiet part keeps the reading. *)
Ltac hush H :=
  spec_step; apply quiet_spec; [by auto using H|]; intros ? ? ?.
Ltac finish :=
  spec_step; apply validate_spec; intros ? -> _; repeat spec_step;
  apply timed_commit; [cbn in *; unfold UTC in *; congruence|by intros; repeat spec_step].

Lemma handleTaskOnce_timed request K :
  wp timed (handleTaskOnce jcs_Transform sha256_Sum256 s request) K anything.
Proof.
  apply spec_any.
  unfold handleTaskOnce, validateRequest, TaskParameterDigest, Orchestrator.commandDigest.
  do 8 spec_step. do 2 spec_step. destruct r as [prior|]; [repeat spec_step; done|].
  spec_step. apply load_project_for_spec. intros K1 q p _ _ _.
  spec_step. apply load_current_spec. intros K2 current _ _ _.
  do 4 spec_step. hush encode_task_quiet. hush consequences_quiet.
  unfold commit_task, validateTaskCommit. finish.
Qed.

Lemma HandleTask_timed request rounds K :
  wp timed (HandleTask jcs_Transform sha256_Sum256 s rounds request) K anything.
Proof.
  revert K. induction rounds as [|rounds IH]; intros K; cbn [HandleTask]; apply wp_bind;
    (eapply wp_mono; [|apply handleTaskOnce_timed]); intros K1 [outcome|e] _; cbn; try done;
    apply wp_bind, retry_spec; intros K2 b _; destruct b; cbn; try done; apply IH.
Qed.

Lemma HandleProject_timed request K :
  wp timed (HandleProject jcs_Transform sha256_Sum256 strings_ToLower url_Parse s request) K anything.
Proof.
  apply spec_any. unfold HandleProject, validateRequest, ProjectDigest, Orchestrator.commandDigest.
  cbv zeta. repeat spec_step. destruct r as [prior|]; [repeat spec_step; done|].
  spec_step. apply load_project_current_spec. intros K1 current _ _ _.
  do 2 spec_step. spec_step.
  eapply (quiet_spec_and _ _ _ (fun _ c => Project.Cmd.At c = UTC t)); [apply finalize_quiet|by apply finalize_spec|].
  intros K2 command Hat HK2. do 3 spec_step. apply quiet_spec; [apply encode_project_quiet|]. intros ? ? ?.
  hush related_quiet. spec_step. apply quiet_spec; [destruct (retires_tasks _); [apply supersede_quiet|exact I]|].
  intros ? ? ?. unfold validateProjectCommit. finish.
Qed.

Lemma QueuePlanTasks_timed request K :
  wp timed (QueuePlanTasks jcs_Transform sha256_Sum256 s request) K anything.
Proof.
  apply spec_any. unfold QueuePlanTasks, validateQueuePlanTasksRequest, validateRequest,
    Orchestrator.commandDigest. cbv zeta.
  repeat spec_step. destruct r as [prior|]; [unfold decodeQueuePlanTasksResult; repeat spec_step; done|].
  spec_step. apply (load_project_spec jcs_Transform sha256_Sum256). intros K1 q p _ _ _ _.
  do 3 spec_step. hush queue_quiet. do 2 spec_step. unfold validatePlanningTasksCommit, decodeQueuePlanTasksResult. finish.
Qed.

Lemma PublishPlan_timed request K :
  wp timed (PublishPlan jcs_Transform sha256_Sum256 s request) K anything.
Proof.
  apply spec_any. unfold PublishPlan, validatePublishPlanRequest, validateRequest,
    Orchestrator.commandDigest. cbv zeta.
  repeat spec_step. destruct r as [prior|]; [unfold decodePublishPlanResult; repeat spec_step; done|].
  spec_step. apply (load_project_spec jcs_Transform sha256_Sum256). intros K1 q p _ _ _ _.
  do 4 spec_step. hush encode_project_quiet. hush publish_quiet. do 2 spec_step.
  unfold validatePlanCommit, decodePublishPlanResult. finish.
Qed.
End Clock.
End OrchestratorClock.
