(* ===== verification/OrchestratorProps.v ===== *)
(** The orchestrator's theorems: each of its operations, interleaved with any
    other requests, commits only what the state machines answer to the stored
    state, and only after the commit boundary accepted exactly this request. *)

From S2P Require Import Prelude GoLib Runs Json Errors Contracts Approval Task TaskProps Project ProjectWf Specs EventStore EventStoreProps Capability CapabilityProps Effects Orchestrator OrchestratorTasks OrchestratorPlans OrchestratorGoals OrchestratorLogic OrchestratorStore OrchestratorSafety OrchestratorHandlers OrchestratorClock.

Module OrchestratorProps.
Import EventStore Effects Orchestrator OrchestratorTasks OrchestratorPlans OrchestratorGoals OrchestratorLogic OrchestratorStore OrchestratorSafety OrchestratorHandlers OrchestratorClock.

(** ** The operations that write *)
Inductive operation : Type :=
| OpTask (rounds : nat) (request : TaskRequest)
| OpProject (request : ProjectRequest)
| OpQueue (request : QueuePlanTasksRequest)
| OpPublish (request : PublishPlanRequest).

Definition identity_of (op : operation) : identity :=
  match op with
  | OpTask _ request => task_identity request
  | OpProject request => project_identity request
  | OpQueue request => queue_identity request
  | OpPublish request => publish_identity request
  end.

(** Identifiers as JSON requests carry them: the tenant without a NUL byte,
    which separates the parts of a key, and the planned tasks in UTF-8. *)
Definition clean_ids (op : operation) : Prop :=
  no_nul (i_TenantID (identity_of op)) = true /\
  match op with
  | OpPublish request =>
      Forall (fun definition => ValidString (pt_TaskID definition) = true) (pp_Tasks request)
  | _ => True
  end.

Section Props.
Context (jcs_Transform : string -> option string) (sha256_Sum256 : string -> list Z).
Context (strings_ToLower : string -> string) (url_Parse : string -> option Specs.URL).
Context `{laws : CodecLaws}.
Context (s : Service) (boundary : Capability.CommitBoundary).
Notation Execute := (Execute jcs_Transform sha256_Sum256).
Notation honest := (honest (codec := codec)).
Notation later := (later jcs_Transform sha256_Sum256 honest).
Notation runs := (runs jcs_Transform sha256_Sum256 boundary honest).
Notation witnessed := (witnessed jcs_Transform sha256_Sum256 boundary honest).
Notation sound := (sound (codec := codec)).

Definition perform (op : operation) : prog unit :=
  match op with
  | OpTask rounds request => bind (HandleTask jcs_Transform sha256_Sum256 s rounds request) (fun _ => Ret tt)
  | OpProject request =>
      bind (HandleProject jcs_Transform sha256_Sum256 strings_ToLower url_Parse s request) (fun _ => Ret tt)
  | OpQueue request => bind (QueuePlanTasks jcs_Transform sha256_Sum256 s request) (fun _ => Ret tt)
  | OpPublish request => bind (PublishPlan jcs_Transform sha256_Sum256 s request) (fun _ => Ret tt)
  end.

(** What an operation may commit: what is allowed for its request, on facts
    accepted with the latest reading of the clock. *)
Definition permitted (op : operation) (K : knowledge) (q : TransactionRequest) : Prop :=
  allowed (identity_of op) K q /\ timed K q.

Lemma perform_spec op K : clean_ids op -> wp (permitted op) (perform op) K (fun _ _ => True).
Proof.
  intros [_ Hids]. unfold permitted. destruct op; apply wp_bind; (eapply wp_mono; [by intros K' r _|]);
    eapply wp_both.
  - apply HandleTask_spec.
  - apply HandleTask_timed.
  - apply HandleProject_spec.
  - apply HandleProject_timed.
  - apply QueuePlanTasks_spec.
  - apply QueuePlanTasks_timed.
  - by apply PublishPlan_spec.
  - apply PublishPlan_timed.
Qed.

(** ** What was read is what is stored *)
Lemma seen_stored st s1 K T ty id p :
  sound st -> witnessed st s1 K -> seen K T ty id p ->
  exists s0, later st s0 /\ later s0 s1 /\ sound s0 /\ projections s0 !! aggregateKey T ty id = Some p.
Proof.
  intros S Hk [H|(P & ps & H & Hin & <-)]; destruct (Hk _ H) as (s0 & Hl & Hl1 & Hh); cbn in Hh;
    exists s0; (assert (S0 : sound s0) by by eapply later_sound); split_and!; try done.
  - injection Hh as Hh. by apply load_inv.
  - by eapply list_inv.
Qed.

Lemma read_task_states st s1 K T id p t :
  sound st -> witnessed st s1 K -> no_nul T = true -> seen K T "task" id p ->
  unmarshal_task (p_State p) = Some t ->
  Task.Version t = p_Version p /\ (ValidString id = true -> Task.ID t = id).
Proof.
  intros S Hk HT Hs Ht. destruct (seen_stored _ _ _ _ _ _ _ S Hk Hs) as (s0 & _ & _ & S0 & Hp).
  destruct (sound_states _ S0 _ _ Hp) as [H _]. by eapply H.
Qed.

Lemma allowed_honest i K q st s1 :
  no_nul (i_TenantID i) = true -> sound st -> witnessed st s1 K -> allowed i K q -> honest q.
Proof.
  intros HT S Hk [(Hq & _ & _) Hu _] u Hin. rewrite Forall_forall in Hu.
  destruct (Hu u Hin) as (Htu & _ & Hj). unfold update_key. rewrite Hq. split.
  - intros T id HT' Hkey t' Ht'.
    destruct Hj as [t c e Hty He Hm Hev Hnv Hid Hr|p c e Hty|[Hty|Hty]];
      rewrite Hty in Hkey; apply EventStoreProps.aggregateKey_inj in Hkey as (_ & Hne & Hkey); try done.
    destruct (task_law _ _ _ Hm Ht') as [Hv Hi].
    destruct (TaskProps.decide_facts _ _ _ He) as (_ & Hver & Hident).
    split; [congruence|]. intros Hval.
    assert (Hname : Task.ID (Task.Projection e) = id); [|rewrite Hi; by rewrite Hname].
    rewrite Hident. destruct (TaskProps.creates _) eqn:Hc; [by rewrite Hid|].
    destruct Hr as [[_ ?]|(id0 & p & Hs & Ht & [Heq|[Heq Hval0]])]; [done| |congruence].
    destruct (read_task_states st s1 K _ _ _ _ S Hk HT Hs Ht) as [_ Hname]. rewrite Hname; congruence.
  - intros T id HT' Hkey p' Hp'.
    destruct Hj as [t c e Hty|p c e Hty He Hm Hev Hnv Hr|[Hty|Hty]];
      rewrite Hty in Hkey; apply EventStoreProps.aggregateKey_inj in Hkey as (_ & Hne & Hkey); try done.
    rewrite (project_law _ _ _ Hm Hp'), Hnv. unfold Project.DecideProject in He.
    by accepted He.
Qed.

(** ** The lifecycle of the stored aggregates *)
(** How a transaction moves an aggregate: by an accepted command on the state
    stored at that moment, or - for a goal record - in some other way. *)
Inductive moves (s1 s2 : MemoryStore) (u : ProjectionUpdate) (k : string) : Prop :=
| moves_task t c e p' :
    u_AggregateType u = "task" ->
    (projections s1 !! k = None /\ t = Task.zeroModuleTask \/
     exists p, projections s1 !! k = Some p /\ unmarshal_task (p_State p) = Some t) ->
    Task.DecideTask t c = Ok e ->
    projections s2 !! k = Some p' -> marshal_task (Task.Projection e) = Some (p_State p') ->
    moves s1 s2 u k
| moves_project p c e p' :
    u_AggregateType u = "project" ->
    (projections s1 !! k = None /\ p = Project.zeroProject \/
     exists q, projections s1 !! k = Some q /\ unmarshal_project (p_State q) = Some p) ->
    Project.DecideProject p c = Ok e ->
    projections s2 !! k = Some p' -> marshal_project (Project.Projection e) = Some (p_State p') ->
    moves s1 s2 u k
| moves_goal :
    u_AggregateType u = "goal_message" \/ u_AggregateType u = "goal_spec" -> moves s1 s2 u k.

(** What was read at version [v] is stored when version [v] is current. *)
Lemma seen_current st s1 K T ty id p :
  sound st -> witnessed st s1 K -> seen K T ty id p ->
  current_version s1 (aggregateKey T ty id) = p_Version p ->
  exists p1, projections s1 !! aggregateKey T ty id = Some p1 /\ p_State p1 = p_State p.
Proof.
  intros S Hk Hs Hc. destruct (seen_stored _ _ _ _ _ _ _ S Hk Hs) as (s0 & _ & Hl & S0 & Hp).
  destruct (read_at_commit jcs_Transform sha256_Sum256 s0 s1 _ p (p_Version p) S0 Hl Hp eq_refl Hc)
    as (p1 & ? & _ & ?). eauto.
Qed.

Lemma good_moves i K st s1 s2 q u :
  no_nul (i_TenantID i) = true -> sound st -> sound s1 -> witnessed st s1 K ->
  q_TenantID q = i_TenantID i -> u ∈ q_Updates q -> good K (i_TenantID i) (i_ProjectID i) u ->
  EventStoreProps.fully_committed q s1 s2 -> moves s1 s2 u (update_key (q_TenantID q) u).
Proof.
  intros HT S S1 Hk Hq Hin (_ & _ & Hj) (Hc & _).
  destruct (Hc u Hin) as (Hcur & p' & Hp' & _ & Hst). unfold update_key in *. rewrite Hq in *.
  destruct Hj as [t c e Hty He Hm Hev Hnv Hid Hr|p c e Hty He Hm Hev Hnv Hr|Hty].
  - rewrite <- Hst in Hm. eapply moves_task; [done| |done..]. rewrite Hty in *.
    destruct Hr as [[-> _]|(id & p & Hs & Ht & Hor)].
    { left. split; [|done]. apply absent_at_commit; [done|]. by rewrite Hcur, Hev. }
    right. destruct (read_task_states st s1 K _ _ _ _ S Hk HT Hs Ht) as [Hv Hname].
    assert (Heq : u_AggregateID u = id) by (destruct Hor as [?|[Heq Hval]]; [done|]; by rewrite Heq, Hname).
    rewrite Heq in *. destruct (seen_current st s1 K _ _ _ p S Hk Hs) as (p1 & Hp1 & Hs1); [congruence|].
    exists p1. split; [done|congruence].
  - rewrite <- Hst in Hm. eapply moves_project; [done| |done..]. rewrite Hty in *.
    destruct Hr as [->|(r & Hs & Hp)].
    { left. split; [|done]. apply absent_at_commit; [done|]. by rewrite Hcur, Hev. }
    right. destruct (seen_stored _ _ _ _ _ _ _ S Hk Hs) as (s0 & _ & _ & S0 & Hr0).
    destruct (sound_states _ S0 _ _ Hr0) as [_ Hver].
    assert (Hv : Project.Version p = p_Version r) by by eapply Hver.
    destruct (seen_current st s1 K _ _ _ r S Hk Hs) as (p1 & Hp1 & Hs1); [congruence|].
    exists p1. split; [done|congruence].
  - by apply moves_goal.
Qed.

(** What an operation commits, on what it has observed by then. *)
Lemma perform_commits op st l1 s1 q r l2 st' a :
  clean_ids op -> sound st -> runs (perform op) st (l1 ++ (s1, SawExecute q r) :: l2) st' a ->
  permitted op (observed l1 []) q /\ witnessed st s1 (observed l1 []) /\ later st s1 /\
  snd (Execute q s1) = r.
Proof.
  intros Hids S Hr.
  destruct (runs_from jcs_Transform sha256_Sum256 boundary honest (permitted op) sound
    ltac:(intros K q' s0 s1' S0 _ Hk [HJ _]; by eapply allowed_honest; [apply Hids|..])
    (perform op) st st _ st' a [] (fun _ _ => True) S Hr (later_refl _ _ _ _)) as (_ & _ & _ & Hall).
  - by intros o Ho%not_elem_of_nil.
  - by apply perform_spec.
  - destruct (Hall l1 s1 q r l2 eq_refl) as (HJ & Hk & H1 & _ & _ & He). auto.
Qed.

(** An observation was made in the run. *)
Lemma observed_in (l : list (MemoryStore * obs)) o : o ∈ observed l [] -> exists s1, (s1, o) ∈ l.
Proof.
  unfold observed. rewrite app_nil_r. intros H.
  apply list_elem_of_In, in_rev, in_map_iff in H as ([s1 o'] & Ho & Hin%list_elem_of_In).
  cbn in Ho. subst o'. by exists s1.
Qed.

(** C1: Whatever other requests run between its calls, everything an operation
    of the orchestrator commits is a lifecycle step: each task and each project
    it writes is the answer of the state machine to an accepted command on the
    state stored at the moment of the commit - a stale decision never lands -
    and it writes nothing else, but for goal records; or its transaction leaves
    the store as it is.  The others need only run transactions that state the
    version they write ([honest]), and so does the operation itself. *)
Theorem commits_follow_lifecycle op st l st' a s1 q r :
  clean_ids op -> sound st -> runs (perform op) st l st' a -> (s1, SawExecute q r) ∈ l ->
  honest q /\
  (EventStoreProps.same_contents s1 (fst (Execute q s1)) \/
   (forall u, u ∈ q_Updates q -> moves s1 (fst (Execute q s1)) u (update_key (q_TenantID q) u)) /\
   (forall k, k ∉ map (update_key (q_TenantID q)) (q_Updates q) ->
      projections (fst (Execute q s1)) !! k = projections s1 !! k)).
Proof.
  intros Hids S Hr Hin.
  apply commit_split in Hin as (l1 & l2 & ->). set (K := observed l1 []).
  destruct (perform_commits op st l1 s1 q r l2 st' a Hids S Hr) as ([HJ _] & Hk & Hl & He).
  split; [by eapply allowed_honest; [apply Hids|..]|]. destruct HJ as [Hsc Hup _].
  assert (S1 : sound s1) by by eapply later_sound.
  assert (Hcm : EventStoreProps.fully_committed q s1 (fst (Execute q s1)) ->
    (forall u, u ∈ q_Updates q -> moves s1 (fst (Execute q s1)) u (update_key (q_TenantID q) u)) /\
    (forall k, k ∉ map (update_key (q_TenantID q)) (q_Updates q) ->
       projections (fst (Execute q s1)) !! k = projections s1 !! k)).
  { intros Hf. split; [|apply Hf]. intros u Hu. rewrite Forall_forall in Hup.
    apply (good_moves (identity_of op) K st); [apply Hids|done|done|done|apply Hsc|done|by apply Hup|done]. }
  pose proof (EventStoreProps.execute_outcome jcs_Transform sha256_Sum256 q s1) as Ho. rewrite (surjective_pairing (Execute q s1)) in Ho.
  destruct (Execute q s1) as [s2 r'] eqn:HE. cbn [fst snd] in *.
  destruct r' as [t|[]]; try (by left); [|by right; apply Hcm].
  destruct (t_Duplicate t); [left; subst; by destruct s1|by right; apply Hcm].
Qed.

(** ** The commit boundary *)
(** What the store held while the operation ran, between its start [st] and its
    commit on [s1]: a project or task, or nothing where it may create one. *)
Definition stored_during {A} (st s1 : MemoryStore) (decode : string -> option A) (zero : A)
    (creates : bool) (k : string) (x : A) : Prop :=
  exists s0, later st s0 /\ later s0 s1 /\
    match projections s0 !! k with
    | Some p => decode (p_State p) = Some x
    | None => x = zero /\ creates = true
    end.

Lemma found_stored {A} st s1 K T ty id decode zero creates (x : A) :
  sound st -> witnessed st s1 K -> found K T ty id decode zero creates x ->
  stored_during st s1 decode zero creates (aggregateKey T ty id) x.
Proof.
  intros S Hk [(-> & Hc & Hsaw)|(p & Hs & Hp)].
  - destruct (Hk _ Hsaw) as (s0 & ? & ? & Hh). exists s0. split_and!; [done|done|].
    cbn in Hh. unfold Load in Hh. by destruct (projections s0 !! _).
  - destruct (seen_stored _ _ _ _ _ _ _ S Hk Hs) as (s0 & ? & ? & _ & Hp0). exists s0.
    split_and!; [done|done|]. by rewrite Hp0.
Qed.

(** A capability covers a commit: it is live at the time the operation read from
    the clock last, and states the request, the facts it claims, the references
    it gives, and the versions of what was stored while it ran. *)
Record covers (op : operation) (st : MemoryStore) (l1 : list (MemoryStore * obs)) (s1 : MemoryStore)
    (q : TransactionRequest) (c : Capability.CommitCapability) : Prop := {
  cov_live : exists at_, last_clock (observed l1 []) = Some at_ /\ CapabilityProps.live c at_;
  cov_scope : Capability.Cap.TenantID c = q_TenantID q /\
    Capability.Cap.ProjectID c = i_ProjectID (identity_of op) /\
    Capability.Cap.TaskID c = i_TaskID (identity_of op);
  cov_who : Capability.Cap.PrincipalID c = q_PrincipalID q;
  cov_what : Capability.Cap.Action c = i_Action (identity_of op) /\
    Capability.Cap.ParameterDigest c = q_RequestSHA256 q /\
    Capability.Cap.ExpectedVersion c = i_ExpectedVersion (identity_of op);
  cov_evidence : Capability.Cap.EvidenceSHA256 c ≡ₚ i_Evidence (identity_of op);
  cov_claims : Capability.Cap.Claims c = i_Claims (identity_of op);
  cov_goal : Capability.Cap.GoalSpecRef c = i_GoalSpecRef (identity_of op);
  cov_fence : 0 < i_FencingToken (identity_of op) ->
    Capability.Cap.FencingToken c = i_FencingToken (identity_of op);
  cov_approval : match i_Approval (identity_of op) with
                 | Some id => Capability.Cap.ApprovalRecordID c = id
                 | None => exists s0, (s0, SawUUID (Some (Capability.Cap.ApprovalRecordID c))) ∈ l1
                 end;
  cov_project : exists p, Capability.Cap.ProjectVersion c = Project.Version p /\
    stored_during st s1 unmarshal_project Project.zeroProject (i_CreatesProject (identity_of op))
      (aggregateKey (i_TenantID (identity_of op)) "project" (i_ProjectID (identity_of op))) p;
  cov_task : exists t, Capability.Cap.TaskVersion c = Task.Version t /\
    Capability.Cap.ModuleSpecRef c =
      (if RefVersion (i_ModuleSpecRef (identity_of op)) =? 0 then Task.ModuleSpecRef t
       else i_ModuleSpecRef (identity_of op)) /\
    if i_TaskID (identity_of op) ≟ "" then t = Task.zeroModuleTask else
    stored_during st s1 unmarshal_task Task.zeroModuleTask (i_CreatesTask (identity_of op))
      (aggregateKey (i_TenantID (identity_of op)) "task" (i_TaskID (identity_of op))) t
}.

(** The boundary accepted the facts of this very request, so a capability that
    authorises them covers the commit. *)
Lemma commit_covered op st l1 s1 q r l2 st' a :
  clean_ids op -> sound st -> runs (perform op) st (l1 ++ (s1, SawExecute q r) :: l2) st' a ->
  q_TenantID q = i_TenantID (identity_of op) /\ q_PrincipalID q = i_PrincipalID (identity_of op) /\
  q_IdempotencyKey q = i_IdempotencyKey (identity_of op) /\
  exists v, boundary v = true /\ Capability.Val.Authorization v = i_Authorization (identity_of op) /\
    forall c, CapabilityProps.live c (Capability.Val.CommitAt v) -> CapabilityProps.authorises c v ->
      covers op st l1 s1 q c.
Proof.
  intros Hids S Hr.
  destruct (perform_commits op st l1 s1 q r l2 st' a Hids S Hr) as ([HJ (v & K' & HK & Hclock)] & Hk & _).
  set (i := identity_of op) in *. destruct HJ as [(HT & HP & Hkey) _ (v' & K'' & HK' & Hp)].
  rewrite HK in HK'. injection HK' as <- <-. split_and!; [done..|]. exists v.
  assert (Hv : SawValidate v true ∈ observed l1 []) by (rewrite HK; left).
  destruct (Hk _ Hv) as (s0 & _ & _ & Hb). cbn in Hb. split; [done|].
  destruct Hp as [(? & ? & ?) ? (? & ? & ?) Hau (? & ?) (? & ?) ? Hap Hproj Htask].
  split; [done|]. intros c Hlive [(? & ? & ?) ? (? & ?) (? & ? & ?) ? ? (? & ?) Hca Hfence].
  split; fold i; try (split_and!; congruence); try congruence.
  - exists (Capability.Val.CommitAt v). split; [|done]. by rewrite HK.
  - intros Hf. rewrite Hfence; congruence.
  - destruct (i_Approval i); [congruence|]. rewrite Hca. by apply observed_in.
  - exists (Capability.Val.Project v). split; [done|]. by eapply found_stored.
  - exists (Capability.Val.Task v). split_and!; [done|congruence|].
    destruct (i_TaskID i ≟ ""); [done|]. by eapply found_stored.
Qed.

(** ** Repeated task commands *)
Notation HandleTask := (HandleTask jcs_Transform sha256_Sum256 s).
Notation task_digest := (task_digest jcs_Transform sha256_Sum256).

(** The record of a transaction, while the store grows. *)
Lemma later_record st st' k record :
  later st st' -> commands st !! k = Some record -> commands st' !! k = Some record.
Proof.
  intros (cs & Hr & _). by apply (EventStoreProps.run_commands jcs_Transform sha256_Sum256 st cs st').
Qed.

(** The transaction an outcome came from is recorded. *)
Lemma answers_recorded request st l st' outcome rounds :
  no_nul (tr_TenantID request) = true -> sound st ->
  runs (HandleTask rounds request) st l st' (Some (Ok outcome)) ->
  request_refused request = false /\ exists d t, task_digest request = Some d /\
    commands st' !! commandKey (tr_TenantID request) (tr_PrincipalID request)
      (tr_IdempotencyKey request) = Some (mkCommandRecord d t) /\
    unmarshal_task (t_Result t) = Some (to_Task outcome) /\ t_Events t = to_Events outcome.
Proof.
  intros HT S Hr.
  pose proof (wp_and _ _ _ [] _ _ (HandleTask_spec jcs_Transform sha256_Sum256 s request rounds [])
    (HandleTask_answers jcs_Transform sha256_Sum256 s request rounds [])) as Hw.
  destruct (runs_from jcs_Transform sha256_Sum256 boundary honest (allowed (task_identity request)) sound
    ltac:(intros K q' s0 s1' S0 _ Hk; by eapply allowed_honest)
    _ st st l st' _ [] _ S Hr (later_refl _ _ _ _) ltac:(by intros o Ho%not_elem_of_nil) Hw)
    as (_ & Hk & [_ Hans] & Hall).
  destruct (Hans outcome eq_refl) as (Hok & d & t & Hd & Hor & Hun & Hev). split; [done|]. exists d.
  destruct Hor as [Hsaw|(q & Hsaw & HqT & Hqp & Hqk & Hqd)].
  - destruct (Hk _ Hsaw) as (s0 & _ & Hl & Hh). cbn in Hh. symmetry in Hh.
    apply EventStoreProps.lookup_repeat in Hh as (t0 & Hrec & ->). exists t0.
    split; [done|]. split; [by eapply later_record|]. done.
  - assert (Hin : exists s1, (s1, SawExecute q (Ok t)) ∈ l).
    { by apply observed_in. }
    destruct Hin as (s1 & (l1 & l2 & ->)%commit_split).
    destruct (Hall l1 s1 q _ l2 eq_refl) as (_ & _ & _ & Hl & (_ & He)).
    pose proof (EventStoreProps.execute_records jcs_Transform sha256_Sum256 q s1) as Hrec.
    rewrite (surjective_pairing (Execute q s1)), He in Hrec.
    destruct Hrec as (t0 & Hrec & Ht0); [left; by exists t|]. destruct (Ht0 t eq_refl) as [Hres Hevs].
    exists t0. rewrite <- Hres, <- Hevs. split; [done|]. split; [|done].
    eapply later_record; [exact Hl|]. by rewrite <- HqT, <- Hqp, <- Hqk, <- Hqd.
Qed.

(** C37: A task command is idempotent, whatever happened since.  Once it has
    answered with an outcome, the same request - retried at any later time,
    among any other requests - is answered from its record: the same task and
    the same events, marked as a duplicate, and nothing is committed. *)
Theorem task_command_idempotent request rounds st l st1 outcome st2 rounds' l' st3 r :
  no_nul (tr_TenantID request) = true -> sound st ->
  runs (HandleTask rounds request) st l st1 (Some (Ok outcome)) -> later st1 st2 ->
  runs (HandleTask rounds' request) st2 l' st3 r ->
  r = Some (Ok (mkTaskOutcome (to_Task outcome) (to_Events outcome) true)) /\
  (forall s1 q r', (s1, SawExecute q r') ∉ l').
Proof.
  intros HT S Hr Hl Hr'.
  destruct (answers_recorded request st l st1 outcome rounds HT S Hr)
    as (Hok & d & t & Hd & Hrec & Hun & Hev).
  destruct (handleTaskOnce_lookup jcs_Transform sha256_Sum256 s request d Hok Hd) as (k & Heq & Hk).
  assert (Hshape : exists k', HandleTask rounds' request = DoLookup (tr_TenantID request)
      (tr_PrincipalID request) (tr_IdempotencyKey request) d k' /\
    k' (Ok (Some (t ⟦ t_Duplicate := true ⟧))) =
      Ret (Some (Ok (mkTaskOutcome (to_Task outcome) (to_Events outcome) true)))).
  { destruct rounds' as [|n]; cbn [OrchestratorTasks.HandleTask]; rewrite Heq; eexists;
      (split; [done|]); cbv beta; by rewrite (Hk _ (to_Task outcome)), <- Hev. }
  destruct Hshape as (k' & Hshape & Hk'). rewrite Hshape in Hr'.
  inversion Hr' as [|p s0 s1 o s2 p' l0 s3 a0 Hl2 Hc Hrest]; subst.
  assert (Hrec1 : commands s1 !! commandKey (tr_TenantID request) (tr_PrincipalID request)
    (tr_IdempotencyKey request) = Some (mkCommandRecord d t)).
  { eapply later_record; [exact Hl2|]. by eapply later_record. }
  inversion Hc; subst.
  assert (Hlook : Lookup (tr_TenantID request) (tr_PrincipalID request) (tr_IdempotencyKey request) d s2
    = Ok (Some (t ⟦ t_Duplicate := true ⟧))).
  { unfold Lookup, lookupLocked. rewrite Hrec1. cbn [r_RequestSHA256 r_Result].
    by rewrite EventStoreProps.cloneResult_id, bool_decide_eq_true_2. }
  rewrite Hlook, Hk' in Hrest.
  inversion Hrest as [|? ? ? ? ? ? ? ? ? _ Hno]; subst; [|by inversion Hno]. split; [done|].
  intros s1 q r' [[=]|Hin]%elem_of_cons. by apply not_elem_of_nil in Hin.
Qed.
End Props.

Section Signed.
Context (jcs_Transform : string -> option string) (sha256_Sum256 : string -> list Z).
Context (strings_ToLower : string -> string) (url_Parse : string -> option Specs.URL).
Context `{laws : CodecLaws}.
Context (s : Service) (json_Marshal : Capability.CommitCapability -> option string).
Notation honest := (honest (codec := codec)).
Notation covers := (covers jcs_Transform sha256_Sum256).

(** C3: No operation commits without a capability for exactly that commit.
    Behind a signed boundary, whatever runs in between, each transaction of an
    operation comes with the capability of its request, signed over its encoding
    and confirmed by the revalidator, which covers the commit ([covers]): it is
    live at the time the operation read from the clock last; it names the
    tenant, principal and parameter digest of the transaction and the project,
    task, action and expected version of the request; its evidence, claims,
    references, approval and fencing token are the request's - the approval a
    project command brings gets a fresh identifier while it runs; and its
    versions are those of the project and of the task as they were stored while
    the operation ran, 0 only where there is none and the operation creates it,
    or has no task. *)
Theorem commits_carry_capability (b : Capability.SignedCommitBoundary) op st l1 s1 q r l2 st' a :
  clean_ids op -> sound st ->
  runs jcs_Transform sha256_Sum256 (Capability.Validate json_Marshal b) honest
    (perform jcs_Transform sha256_Sum256 strings_ToLower url_Parse s op) st
    (l1 ++ (s1, SawExecute q r) :: l2) st' a ->
  let i := identity_of op in
  let c := Capability.Capability (i_Authorization i) in
  q_TenantID q = i_TenantID i /\ q_PrincipalID q = i_PrincipalID i /\
  q_IdempotencyKey q = i_IdempotencyKey i /\ covers op st l1 s1 q c /\
  (exists payload, json_Marshal c = Some payload /\
     Capability.Verify (Capability.signer b) payload (Capability.Signature (i_Authorization i)) = true) /\
  Capability.revalidator b c = true.
Proof.
  intros Hids S Hr. cbv zeta.
  destruct (commit_covered _ _ _ _ s _ op st l1 s1 q r l2 st' a Hids S Hr) as (? & ? & ? & v & Hb & Ha & Hc).
  apply CapabilityProps.boundary_live in Hb as (_ & Hlive & Hauth & Hsig & Hrev).
  unfold CapabilityProps.cap_of in *. rewrite Ha in *. split_and!; auto.
Qed.
End Signed.

(** ** Example: a task made ready behind a signed boundary *)
Definition sample_task (state : ModuleTaskState) (version : Z) : Task.ModuleTask :=
  Task.mkModuleTask "tn" "p" "t" "m" state version zeroSpecRef (mkSpecRef 1 CapabilityProps.sample_digest)
    "series" ["series"] 0 0 [] [] [] TaskStateZero "".
Definition sample_project : Project.Project :=
  Project.zeroProject ⟦ Project.TenantID := "tn" ⟧ ⟦ Project.ID := "p" ⟧ ⟦ Project.Version := 1 ⟧
    ⟦ Project.State := ProjectExecuting ⟧ ⟦ Project.Plan := Some zeroSpecRef ⟧
    ⟦ Project.Goal := Some (Project.Goal_.mk "g" 1 "" [] GoalApproved "owner" "a") ⟧.

(** An encoding of these three values. *)
#[local] Instance sample_codec : Codec := {|
  marshal_task t := if Task.ID t ≟ "t" then
      if Task.Version t =? 1 then Some "{}" else if Task.Version t =? 2 then Some "{ }" else None
    else None;
  unmarshal_task x := if x ≟ "{}" then Some (sample_task TaskDefined 1)
    else if x ≟ "{ }" then Some (sample_task TaskReadyExecution 2) else None;
  marshal_project _ := None;
  unmarshal_project x := if x ≟ "{  }" then Some sample_project else None;
  marshal_payload _ _ _ _ := Some "{}";
  marshal_task_command _ _ := Some "{}";
  marshal_project_command _ _ _ := None;
  marshal_queue_request _ _ := None;
  marshal_publish_request _ _ := None;
  marshal_tasks _ := None;
  unmarshal_tasks _ := None;
  marshal_published _ _ := None;
  unmarshal_published _ := None;
  marshal_summary _ := None;
  marshal_message _ := None;
  unmarshal_message _ := None;
  marshal_goal_projection _ := None;
  unmarshal_goal_projection _ := None;
  marshal_goal_spec _ := None;
  unmarshal_goal_spec _ := None;
  marshal_goal_content _ := None;
  unmarshal_object _ := None;
  marshal_object _ := None
|}.
#[local] Instance sample_laws : CodecLaws.
Proof.
  split; [|done]. cbn. intros t x t'.
  destruct (Task.ID t ≟ "t") eqn:Hid; [|done]. apply bool_decide_eq_true in Hid. rewrite Hid.
  destruct (Task.Version t =? 1) eqn:H1; [|destruct (Task.Version t =? 2) eqn:H2; [|done]];
    intros [= <-]; cbn; intros [= <-]; cbn; split; try done; by apply Z.eqb_eq in H1 || apply Z.eqb_eq in H2.
Qed.

Notation sample_jcs := EventStoreProps.demo_jcs.
Notation sample_sha256 := EventStoreProps.demo_sha256.
Definition sample_event (id ty aggregate : string) : DomainEvent :=
  mkDomainEvent id "tn" "p" ty aggregate 1 "created" "{}" EventStoreProps.demo_digest 5
    "" "" "" "" "" "" "" "" "" "".
Definition sample_creation : TransactionRequest :=
  mkTransactionRequest "tn" "owner" "create" "digest"
    [mkProjectionUpdate "tn" "p" "project" "p" 0 1 "{  }"; mkProjectionUpdate "tn" "p" "task" "t" 0 1 "{}"]
    [sample_event "e1" "project" "p"; sample_event "e2" "task" "t"] [] [] "{}" EventStoreProps.demo_digest.
Definition sample_store : MemoryStore :=
  fst (Execute sample_jcs sample_sha256 sample_creation NewMemoryStore).

Definition sample_authorization : Capability.CommitAuthorization :=
  Capability.mkAuthorization
    (Capability.Cap.mk 1 "tn" "p" "t" "user" "SERVICE" "SERVICE" "READY_EXECUTION" 1 1 1
       EventStoreProps.demo_digest [] ∅ (mkSpecRef 1 CapabilityProps.sample_digest) zeroSpecRef "" "lease" 7
       "v1" "budget" 50 200) "sig:tn/p/t/READY_EXECUTION".
Definition sample_request : TaskRequest :=
  mkTaskRequest "tn" "p" "t" "user" "key" 1 (Task.Cmd.blank Task.TaskCommandReadyExecution)
    sample_authorization.
Definition sample_service : Service := mkService false true true None.
Definition sample_env : env :=
  mkEnv (fun n => Some ("u" +:+ pretty (Z.of_nat n))) (fun _ => 100) (fun _ => false)
    (Capability.Validate CapabilityProps.sample_marshal CapabilityProps.sample_boundary).
Definition sample_op : operation := OpTask 0 sample_request.
Definition sample_run : prog unit :=
  perform sample_jcs sample_sha256 (fun x => x) (fun _ => None) sample_service sample_op.

Notation sample_check :=
  (Capability.Validate CapabilityProps.sample_marshal CapabilityProps.sample_boundary).
Notation sample_sound := (sound (codec := sample_codec)).
Notation sample_honest := (honest (codec := sample_codec)).

Lemma sample_store_sound : sample_sound sample_store.
Proof.
  apply (later_sound sample_jcs sample_sha256 NewMemoryStore); [apply empty_sound|].
  exists [EventStoreProps.CmdExecute sample_creation]. split.
  - apply (exec_run _ NewMemoryStore). vm_compute. reflexivity.
  - apply Forall_singleton. intros u [->|[->|[]%not_elem_of_nil]%elem_of_cons]%elem_of_cons; split;
      intros T id HT Hkey; apply (EventStoreProps.aggregateKey_inj _ T _ _ _ id) in Hkey as (_ & Hty & <-); try done;
      cbn; by intros t [= <-].
Qed.

(** The first commit of a log. *)
Fixpoint find_commit (l : list (MemoryStore * obs))
    : option (MemoryStore * TransactionRequest * result TransactionResult store_error) :=
  match l with
  | [] => None
  | (s1, SawExecute q r) :: _ => Some (s1, q, r)
  | _ :: l => find_commit l
  end.
Lemma find_commit_in l s1 q r : find_commit l = Some (s1, q, r) -> (s1, SawExecute q r) ∈ l.
Proof.
  induction l as [|[s o] l IH]; [done|]. destruct o; cbn; intros H; try (right; by apply IH).
  injection H as -> -> ->. by left.
Qed.

Definition sample_log : list (MemoryStore * obs) :=
  exec_log sample_jcs sample_sha256 sample_env sample_run 0 sample_store.
Definition sample_final : MemoryStore * unit :=
  exec sample_jcs sample_sha256 sample_env sample_run 0 sample_store.

Lemma sample_runs :
  runs sample_jcs sample_sha256 sample_check sample_honest
    sample_run sample_store sample_log (fst sample_final) (snd sample_final).
Proof. apply exec_runs; [reflexivity|]. vm_compute. reflexivity. Qed.

(** The store before and after the commit of a log, for task [t]. *)
Definition moved (l : list (MemoryStore * obs)) : option (Z * Z) :=
  '(s1, q, _) ← find_commit l;
  Some (current_version s1 (aggregateKey "tn" "task" "t"),
        current_version (fst (Execute sample_jcs sample_sha256 q s1)) (aggregateKey "tn" "task" "t")).

Lemma commits_follow_lifecycle_witness :
  exists s1 q r, (s1, SawExecute q r) ∈ sample_log /\ sample_honest q /\
    moved sample_log = Some (1, 2) /\
    ((forall u, u ∈ q_Updates q ->
        moves s1 (fst (Execute sample_jcs sample_sha256 q s1)) u (update_key (q_TenantID q) u)) /\
     (forall k, k ∉ map (update_key (q_TenantID q)) (q_Updates q) ->
        projections (fst (Execute sample_jcs sample_sha256 q s1)) !! k = projections s1 !! k)).
Proof.
  destruct (find_commit sample_log) as [[[s1 q] r]|] eqn:E; [|vm_compute in E; discriminate E].
  exists s1, q, r. pose proof (find_commit_in _ _ _ _ E) as Hin. split; [exact Hin|].
  destruct (commits_follow_lifecycle sample_jcs sample_sha256 (fun x => x) (fun _ => None)
    sample_service sample_check sample_op sample_store sample_log (fst sample_final) (snd sample_final) s1 q r) as [Hh Hm];
    [split; [reflexivity|done]|exact sample_store_sound|exact sample_runs|exact Hin|].
  split; [exact Hh|]. assert (Hv : moved sample_log = Some (1, 2)) by (vm_compute; reflexivity).
  split; [exact Hv|]. destruct Hm as [Hsame|Hm]; [exfalso|exact Hm].
  unfold moved in Hv. rewrite E in Hv.
  change (Some (current_version s1 (aggregateKey "tn" "task" "t"), current_version
    (fst (Execute sample_jcs sample_sha256 q s1)) (aggregateKey "tn" "task" "t")) = Some (1, 2)) in Hv.
  unfold EventStoreProps.same_contents in Hsame. rewrite Hsame in Hv. injection Hv as H1 H2.
  change (current_version s1 (aggregateKey "tn" "task" "t") = 2) in H2. congruence.
Defined.

Lemma commits_carry_capability_witness :
  exists l1 s1 q r l2, sample_log = l1 ++ (s1, SawExecute q r) :: l2 /\ q_TenantID q = "tn" /\
    (exists at_, last_clock (observed l1 []) = Some at_ /\
       CapabilityProps.live (Capability.Capability sample_authorization) at_) /\
    exists payload, CapabilityProps.sample_marshal (Capability.Capability sample_authorization) = Some payload.
Proof.
  destruct (find_commit sample_log) as [[[s1 q] r]|] eqn:E; [|vm_compute in E; discriminate E].
  destruct (commit_split _ _ _ _ (find_commit_in _ _ _ _ E)) as (l1 & l2 & Hl).
  exists l1, s1, q, r, l2. split; [exact Hl|].
  pose proof sample_runs as Hruns. rewrite Hl in Hruns.
  destruct (commits_carry_capability sample_jcs sample_sha256 (fun x => x) (fun _ => None)
    sample_service CapabilityProps.sample_marshal CapabilityProps.sample_boundary sample_op sample_store
    l1 s1 q r l2 (fst sample_final) (snd sample_final))
    as (Ht & _ & _ & [Hlive _ _ _ _ _ _ _ _ _ _] & (payload & Hp & _) & _);
    [split; [reflexivity|done]|exact sample_store_sound|exact Hruns|].
  split; [exact Ht|]. split; [exact Hlive|]. by exists payload.
Defined.

Definition sample_task_run : prog (option (result TaskOutcome orch_error)) :=
  HandleTask sample_jcs sample_sha256 sample_service 0 sample_request.
Definition sample_after : MemoryStore := fst (exec sample_jcs sample_sha256 sample_env sample_task_run 0 sample_store).

Lemma sample_task_runs (s : MemoryStore) :
  log_ok (exec_log sample_jcs sample_sha256 sample_env sample_task_run 0 s) = true ->
  runs sample_jcs sample_sha256 sample_check sample_honest
    sample_task_run s (exec_log sample_jcs sample_sha256 sample_env sample_task_run 0 s)
    (fst (exec sample_jcs sample_sha256 sample_env sample_task_run 0 s))
    (snd (exec sample_jcs sample_sha256 sample_env sample_task_run 0 s)).
Proof. by apply exec_runs. Qed.

Lemma task_command_idempotent_witness :
  exists outcome,
    snd (exec sample_jcs sample_sha256 sample_env sample_task_run 0 sample_store) = Some (Ok outcome) /\
    to_Duplicate outcome = false /\ Task.State (to_Task outcome) = TaskReadyExecution /\
    snd (exec sample_jcs sample_sha256 sample_env sample_task_run 0 sample_after) =
      Some (Ok (mkTaskOutcome (to_Task outcome) (to_Events outcome) true)).
Proof.
  destruct (snd (exec sample_jcs sample_sha256 sample_env sample_task_run 0 sample_store))
    as [[outcome|e]|] eqn:E; [|vm_compute in E; discriminate E..].
  exists outcome. split; [reflexivity|].
  split; [vm_compute in E; injection E as <-; reflexivity|].
  split; [vm_compute in E; injection E as <-; reflexivity|].
  pose proof (sample_task_runs sample_store ltac:(vm_compute; reflexivity)) as Hr. rewrite E in Hr.
  exact (proj1 (task_command_idempotent sample_jcs sample_sha256 sample_service sample_check sample_request 0
    sample_store _ sample_after outcome sample_after 0 _ _ _ eq_refl sample_store_sound Hr
    (later_refl _ _ _ _) (sample_task_runs sample_after ltac:(vm_compute; reflexivity)))).
Defined.
End OrchestratorProps.
