(* ===== verification/OrchestratorCascade.v ===== *)
(** What a task command carries along: the dependents it freezes, releases or
    makes ready are exactly those the rules name, in the same transaction. *)

From S2P Require Import Prelude GoLib Runs Json Errors Contracts Approval Task TaskProps Project ProjectWf Specs EventStore EventStoreProps Capability CapabilityProps Effects Orchestrator OrchestratorTasks OrchestratorPlans OrchestratorGoals OrchestratorLogic OrchestratorStore OrchestratorSafety OrchestratorHandlers OrchestratorClock OrchestratorProps.

Module OrchestratorCascade.
Import EventStore Effects Orchestrator OrchestratorTasks OrchestratorPlans OrchestratorGoals OrchestratorLogic OrchestratorStore OrchestratorSafety OrchestratorHandlers OrchestratorClock OrchestratorProps.

(** ** Which dependents are ready *)
(** A task still alive keeps the dependent waiting until it has passed. *)
Definition prerequisite (t : Task.ModuleTask) (id : string) : Prop :=
  Task.State t <> TaskCanceled /\ Task.State t <> TaskSuperseded /\ id ∈ Task.DependentTaskIDs t.
Definition task_finished (t : Task.ModuleTask) : Prop :=
  Task.State t = TaskPassed \/ Task.State t = TaskIntegrated.

(** Among these tasks the dependent is defined and all it waits for is finished. *)
Definition ready_among (tasks : Task.ModuleTask -> Prop) (id : string) : Prop :=
  (exists t, tasks t /\ Task.ID t = id /\ Task.State t = TaskDefined) /\
  (exists t, tasks t /\ prerequisite t id) /\
  (forall t, tasks t -> prerequisite t id -> task_finished t).

Lemma contains_spec l x : contains l x = true <-> x ∈ l.
Proof.
  induction l as [|y l IH]; cbn; [split; [done|by intros ?%not_elem_of_nil]|].
  rewrite elem_of_cons. case_bool_decide; naive_solver.
Qed.
Lemma live_spec t id : depends_live t id = true <-> prerequisite t id.
Proof.
  unfold depends_live, prerequisite. rewrite negb_true_iff, !orb_false_iff, negb_false_iff, contains_spec,
    !bool_decide_eq_false. tauto.
Qed.
Lemma task_done_spec t : task_done t = true <-> task_finished t.
Proof.
  unfold task_done. rewrite negb_true_iff, andb_false_iff, !negb_false_iff, !bool_decide_eq_true. done.
Qed.

Lemma allTaskDependenciesAudited_spec tasks id :
  allTaskDependenciesAudited tasks id = true <->
  (exists k t, tasks !! k = Some t /\ prerequisite t id) /\
  (forall k t, tasks !! k = Some t -> prerequisite t id -> task_finished t).
Proof.
  unfold allTaskDependenciesAudited. cbv zeta.
  set (live := List.filter (fun task => depends_live task id) (values tasks)).
  assert (Hlive : forall t, In t live <-> (exists k, tasks !! k = Some t) /\ prerequisite t id).
  { intros t. unfold live. rewrite filter_In, <- list_elem_of_In, EventStoreProps.values_elem, live_spec. done. }
  destruct (existsb _ live) eqn:E; split.
  - done.
  - intros [_ Hall]. apply existsb_exists in E as (t & [[k Hk] Hd]%Hlive & Hn).
    apply negb_true_iff in Hn. specialize (Hall k t Hk Hd). apply task_done_spec in Hall. congruence.
  - intros Hn. assert (Hall : forall k t, tasks !! k = Some t -> prerequisite t id -> task_done t = true).
    { intros k t Hk Hd. destruct (task_done t) eqn:Ht; [done|].
      assert (existsb (fun task => negb (task_done task)) live = true); [|congruence].
      apply existsb_exists. exists t. rewrite Ht. split; [|done]. apply Hlive. eauto. }
    split; [|intros k t Hk Hd; apply task_done_spec; by eapply Hall].
    destruct live as [|t live'] eqn:El; [done|]. destruct (proj1 (Hlive t)) as [[k Hk] Hd]; [by left|]. eauto.
  - intros [(k & t & Hk & Hd) _]. destruct live as [|t' live'] eqn:El; [|done].
    exfalso. apply (proj2 (Hlive t)). eauto.
Qed.

(** The dependents [ready_dependents] transitions, of the tasks as indexed. *)
Definition ready_now (tasks : gmap string Task.ModuleTask) (id : string) : bool :=
  match tasks !! id with
  | Some t => (Task.State t ≟ TaskDefined) && allTaskDependenciesAudited tasks id
  | None => false
  end.

Lemma ready_now_spec tasks (P : Task.ModuleTask -> Prop) id :
  (forall k t, tasks !! k = Some t <-> P t /\ Task.ID t = k) ->
  ready_now tasks id = true <-> ready_among P id.
Proof.
  intros Hin. unfold ready_now, ready_among.
  assert (Hall : allTaskDependenciesAudited tasks id = true <->
    (exists t, P t /\ prerequisite t id) /\ (forall t, P t -> prerequisite t id -> task_finished t)).
  { rewrite allTaskDependenciesAudited_spec. split; intros [(x & Hx) Hf]; split.
    - destruct Hx as (t & [Ht _]%Hin & ?). eauto.
    - intros t Ht. apply (Hf (Task.ID t)). by apply Hin.
    - exists (Task.ID x), x. rewrite Hin. tauto.
    - intros k t [Ht _]%Hin. by apply Hf. }
  rewrite <- Hall. destruct (tasks !! id) as [t|] eqn:Ht.
  - rewrite andb_true_iff, bool_decide_eq_true. pose proof (proj1 (Hin _ _) Ht) as [? ?]. split.
    + intros [? ?]. eauto.
    + intros [(t' & Ht' & Hid & Hs) ?]. split; [|done].
      assert (tasks !! id = Some t') by by apply Hin. congruence.
  - split; [done|]. intros [(t' & Ht' & Hid & _) _].
    assert (tasks !! id = Some t') by by apply Hin. congruence.
Qed.

(** ** The updates *)
Section Updates.
Context `{codec : Codec}.

Definition writes_task (u : ProjectionUpdate) (id : string) (P : Task.ModuleTask -> Prop) : Prop :=
  u_AggregateType u = "task" /\ u_AggregateID u = id /\
  exists t, marshal_task t = Some (u_State u) /\ P t.
(** The dependent is blocked, by this task. *)
Definition frozen_by (taskID id : string) (u : ProjectionUpdate) : Prop :=
  writes_task u id (fun t => Task.State t = TaskBlockedDependency /\ taskID ∈ Task.BlockingTaskIDs t).
Definition made_ready (id : string) (u : ProjectionUpdate) : Prop :=
  writes_task u id (fun t => Task.State t = TaskReadyExecution).
(** The dependent no longer waits for the task. *)
Definition freed_by (taskID id : string) (u : ProjectionUpdate) : Prop :=
  writes_task u id (fun t => taskID ∉ Task.BlockingTaskIDs t).

(** Of the dependents a task froze, those it still blocks are released; [D]
    says what they were. *)
Inductive releases (D : string -> Task.ModuleTask -> Prop) (taskID : string)
    : list string -> list ProjectionUpdate -> Prop :=
| releases_nil : releases D taskID [] []
| releases_other id ids us t :
    D id t -> taskID ∉ Task.BlockingTaskIDs t -> releases D taskID ids us -> releases D taskID (id :: ids) us
| releases_freed id ids u us t :
    D id t -> taskID ∈ Task.BlockingTaskIDs t -> freed_by taskID id u -> releases D taskID ids us ->
    releases D taskID (id :: ids) (u :: us).

Lemma releases_mono (D D' : string -> Task.ModuleTask -> Prop) taskID ids us :
  (forall id t, D id t -> D' id t) -> releases D taskID ids us -> releases D' taskID ids us.
Proof. intros HD. induction 1; [constructor|eapply releases_other|eapply releases_freed]; eauto. Qed.

Lemma releases_nil_inv D taskID us : releases D taskID [] us -> us = [].
Proof. by inversion 1. Qed.

Definition of_project (projectID : string) (u : ProjectionUpdate) : Prop :=
  u_AggregateType u = "project" /\ u_AggregateID u = projectID.

(** Everything a command carries along beside its own task: the dependents it
    freezes, those it releases, those made ready, and at most one update of the
    project, its core summary.  [D] says what a dependent was, [R] which
    dependents are ready. *)
Definition consequences (D : string -> Task.ModuleTask -> Prop) (R : list ProjectionUpdate -> Prop)
    (request : TaskRequest) (current next : Task.ModuleTask) (rest : list ProjectionUpdate) : Prop :=
  let ty := Task.Cmd.Type_ (tr_Command request) in
  exists frozen released readied summary,
    rest = frozen ++ released ++ readied ++ summary /\
    Forall2 (frozen_by (tr_TaskID request))
      (if Task.State next ≟ TaskBlockedUserDecision then Task.FrozenDependentIDs next else []) frozen /\
    releases D (tr_TaskID request)
      (if ty ≟ Task.TaskCommandAuthorizeNewSeries then Task.FrozenDependentIDs current else []) released /\
    (if (ty ≟ Task.TaskCommandLLMSuccess) || (ty ≟ Task.TaskCommandIntegrate) then R readied
     else readied = []) /\
    Forall (of_project (tr_ProjectID request)) summary /\
    (length summary <= if ty ≟ Task.TaskCommandLLMSuccess then 1 else 0)%nat.

Lemma consequences_mono (D D' : string -> Task.ModuleTask -> Prop) (R R' : list ProjectionUpdate -> Prop)
    request current next rest :
  (forall id t, D id t -> D' id t) -> (forall ups, R ups -> R' ups) ->
  consequences D R request current next rest -> consequences D' R' request current next rest.
Proof.
  intros HD HR (frozen & released & readied & summary & ? & ? & Hrel & Hr & ? & ?).
  exists frozen, released, readied, summary. split_and!; try done.
  - by eapply releases_mono.
  - destruct (_ || _); [by apply HR|done].
Qed.

(** The tasks a listing of the project holds. *)
Definition decoded (p : Projection) (t : Task.ModuleTask) : Prop :=
  unmarshal_task (p_State p) = Some t /\ Task.ID t = p_AggregateID p.

(** The updates [ups] make ready what [next], just passed or integrated,
    completes. *)
Definition readies (K : knowledge) (T P : string) (next : Task.ModuleTask) (ups : list ProjectionUpdate)
    : Prop :=
  Task.DependentTaskIDs next = [] /\ ups = [] \/
  exists ps ts, SawList T P "task" (Ok ps) ∈ K /\ Forall2 decoded ps ts /\
    Forall2 made_ready
      (List.filter (ready_now (<[Task.ID next := next]> (index_tasks ts)))
         (sort_slice String.ltb (Task.DependentTaskIDs next))) ups.
End Updates.

Lemma Forall2_exists {A B} (R : A -> B -> Prop) l k x : Forall2 R l k -> x ∈ l -> exists y, y ∈ k /\ R x y.
Proof.
  induction 1 as [|a b l k H _ IH]; intros Hx; [by apply not_elem_of_nil in Hx|].
  apply elem_of_cons in Hx as [->|Hx]; [exists b; split; [left|done]|].
  destruct (IH Hx) as (y & ? & ?). exists y. split; [by right|done].
Qed.

(** ** The commands it gives to dependents *)
Lemma decide_block t blocking at_ e :
  Task.DecideTask t (command_at Task.TaskCommandBlockDependency blocking at_) = Ok e ->
  Task.State (Task.Projection e) = TaskBlockedDependency /\
  blocking ∈ Task.BlockingTaskIDs (Task.Projection e).
Proof.
  unfold Task.DecideTask. rewrite TaskProps.cloneTask_id. intros H.
  destruct (IsZero _) in H; [done|]. apply rbind_ok in H as ([next ty] & D & H%Ok_inj). subst e.
  apply TaskProps.block_accepted in D as (_ & _ & _ & ->). cbn. split; [done|]. set_solver.
Qed.
Lemma decide_ready t at_ e :
  Task.DecideTask t (command_at Task.TaskCommandReadyExecution "" at_) = Ok e ->
  Task.State (Task.Projection e) = TaskReadyExecution.
Proof.
  unfold Task.DecideTask. rewrite TaskProps.cloneTask_id. intros H.
  destruct (IsZero _) in H; [done|]. apply rbind_ok in H as ([next ty] & D & H%Ok_inj). subst e.
  by apply TaskProps.ready_accepted in D as (_ & _ & ->).
Qed.

Lemma decide_unblock t blocking at_ e :
  Task.DecideTask t (command_at Task.TaskCommandUnblockDependency blocking at_) = Ok e ->
  blocking ∉ Task.BlockingTaskIDs (Task.Projection e).
Proof.
  unfold Task.DecideTask. rewrite TaskProps.cloneTask_id. intros H.
  destruct (IsZero _) in H; [done|]. apply rbind_ok in H as ([next ty] & D & H%Ok_inj). subst e.
  apply TaskProps.unblock_accepted in D as (_ & _ & [[_ ->]|[_ ->]]); cbn; [|by apply not_elem_of_nil].
  rewrite TaskProps.removeString_filter, list_elem_of_filter. tauto.
Qed.

Section Cascade.
Context (jcs_Transform : string -> option string) (sha256_Sum256 : string -> list Z).
Context `{codec : Codec}.
Context (J : knowledge -> TransactionRequest -> Prop).

Lemma transition_task_writes request id t c d (P : Task.ModuleTask -> Prop) K
    (Q : knowledge -> writes -> Prop) :
  (forall e, Task.DecideTask t c = Ok e -> P (Task.Projection e)) ->
  (forall K' u w, K ⊆ K' -> w.1 = [u] -> writes_task u id P -> Q K' w) ->
  spec J (transition_task jcs_Transform sha256_Sum256 request id t c d) K Q.
Proof.
  intros HP H. unfold transition_task. repeat spec_step. apply encode_task_spec.
  intros K' x e HK Hm Hu _. spec_step. eapply (H _ e.1.1); [done|done|]. rewrite Hu.
  split_and!; [done|done|]. exists (Task.Projection a). cbn. split; [done|]. by apply HP.
Qed.

Lemma block_dependents_all request at_ d ids K :
  spec J (block_dependents jcs_Transform sha256_Sum256 request at_ d ids) K
    (fun K' w => K ⊆ K' /\ Forall2 (frozen_by (tr_TaskID request)) ids w.1).
Proof.
  revert K. induction ids as [|id ids IH]; intros K; cbn [block_dependents].
  { spec_step. split; [done|constructor]. }
  spec_step. apply (load_dependent_spec jcs_Transform sha256_Sum256). intros K1 p t HK1 _ _. spec_step.
  apply (transition_task_writes _ _ _ _ _ (fun t => Task.State t = TaskBlockedDependency /\
    tr_TaskID request ∈ Task.BlockingTaskIDs t)); [apply decide_block|]. intros K2 u w HK2 Hw Hu. spec_step.
  eapply spec_mono; [|apply IH]. intros K3 ws [HK3 Hws]. spec_step. split; [set_solver|].
  cbn. rewrite Hw. by constructor.
Qed.

Lemma ready_dependents_exact request byID at_ d ids K :
  spec J (ready_dependents jcs_Transform sha256_Sum256 request byID at_ d ids) K
    (fun K' w => K ⊆ K' /\ Forall2 made_ready (List.filter (ready_now byID) ids) w.1).
Proof.
  revert K. induction ids as [|id ids IH]; intros K; cbn [ready_dependents].
  { spec_step. split; [done|constructor]. }
  do 2 spec_step. spec_step. cbn [List.filter].
  assert (Hr : ready_now byID id = negb ((Task.State a ≠? TaskDefined) || negb (allTaskDependenciesAudited byID id))).
  { unfold ready_now. rewrite H. by destruct (_ ≟ _), (allTaskDependenciesAudited _ _). }
  rewrite Hr. destruct (_ || _); cbn [negb].
  - spec_step. spec_step. eapply spec_mono; [|apply IH]. intros K3 ws [HK3 Hws]. by spec_step.
  - apply (transition_task_writes _ _ _ _ _ (fun t => Task.State t = TaskReadyExecution)); [apply decide_ready|]. intros K2 u w HK2 Hw Hu. spec_step.
    eapply spec_mono; [|apply IH]. intros K3 ws [HK3 Hws]. spec_step. split; [set_solver|].
    cbn. rewrite Hw. by constructor.
Qed.

Lemma decode_tasks_all T P ps K (Q : knowledge -> list Task.ModuleTask -> Prop) :
  (forall ts, Forall2 decoded ps ts -> Q K ts) -> spec J (decode_tasks T P ps) K Q.
Proof.
  revert Q. induction ps as [|p ps IH]; intros Q H; cbn [decode_tasks]; [spec_step; by apply H|].
  do 2 spec_step. spec_step. spec_step. spec_step. apply IH. intros ts Hts. spec_step.
  apply H. constructor; [|done]. go_bool. done.
Qed.

(** What a dependent was when it was loaded. *)
Definition loaded (K : knowledge) (T : string) (id : string) (t : Task.ModuleTask) : Prop :=
  exists p, seen K T "task" id p /\ unmarshal_task (p_State p) = Some t.

Lemma loaded_mono K K' T id t : K ⊆ K' -> loaded K T id t -> loaded K' T id t.
Proof. intros HK (p & ? & ?). exists p. eauto using seen_mono. Qed.

Lemma unblock_dependents_all request at_ d ids K :
  spec J (unblock_dependents jcs_Transform sha256_Sum256 request at_ d ids) K
    (fun K' w => K ⊆ K' /\ releases (loaded K' (tr_TenantID request)) (tr_TaskID request) ids w.1).
Proof.
  revert K. induction ids as [|id ids IH]; intros K; cbn [unblock_dependents].
  { spec_step. split; [done|constructor]. }
  spec_step. apply (load_dependent_spec jcs_Transform sha256_Sum256). intros K1 p t HK1 Hs Ht. spec_step.
  assert (Hl : loaded K1 (tr_TenantID request) id t) by by exists p.
  apply spec_if; intros Hb; [rewrite negb_true_iff in Hb|rewrite negb_false_iff, contains_spec in Hb].
  - spec_step. spec_step. eapply spec_mono; [|apply IH]. intros K3 ws [HK3 Hws]. spec_step. split; [set_solver|].
    eapply releases_other; [by eapply loaded_mono| |done]. intros Hin%contains_spec. congruence.
  - apply (transition_task_writes _ _ _ _ _ (fun t => tr_TaskID request ∉ Task.BlockingTaskIDs t));
      [apply decide_unblock|]. intros K2 u w HK2 Hw Hu. spec_step.
    eapply spec_mono; [|apply IH]. intros K3 ws [HK3 Hws]. spec_step. split; [set_solver|].
    cbn. rewrite Hw. eapply releases_freed; [|done..]. eapply loaded_mono; [|exact Hl]. set_solver.
Qed.

Context (s : Service).

Lemma readyAuditedDependents_exact request audited at_ d K :
  spec J (readyAuditedDependents jcs_Transform sha256_Sum256 s request audited at_ d) K
    (fun K' w => K ⊆ K' /\ readies K' (tr_TenantID request) (tr_ProjectID request) audited w.1).
Proof.
  unfold readyAuditedDependents. destruct (Nat.eqb_spec (length (Task.DependentTaskIDs audited)) 0) as [E|_].
  { spec_step. split; [done|left]. by apply nil_length_inv in E. }
  unfold Tasks. repeat spec_step. apply decode_tasks_all. intros ts Hts. cbv zeta.
  rewrite copy_slice_id. eapply spec_mono; [|apply ready_dependents_exact].
  intros K' w [HK Hw]. split; [set_solver|]. right. exists r, ts. split_and!; [set_solver|done|done].
Qed.

Lemma coreSummary_project request p passed at_ d K :
  spec J (coreSummaryTransition jcs_Transform sha256_Sum256 s request p passed at_ d) K
    (fun K' w => K ⊆ K' /\ Forall (of_project (tr_ProjectID request)) w.1 /\ (length w.1 <= 1)%nat).
Proof.
  unfold coreSummaryTransition.
  destruct (Project.Goal p) as [goal|]; [|spec_step; cbn; auto].
  destruct (Project.Plan p) as [plan|]; [|spec_step; cbn; auto].
  destruct (_ || _); [spec_step; cbn; auto|]. spec_step.
  apply (Tasks_spec jcs_Transform sha256_Sum256 s). intros K1 ts HK1 _. spec_step. apply summary_command_spec. intros c.
  repeat spec_step. apply encode_project_spec. intros K2 x e HK2 Hm Hu _. spec_step.
  split; [set_solver|]. split; [|done]. apply Forall_singleton. unfold of_project. by rewrite Hu.
Qed.

Lemma readies_mono K K' T P next ups : K ⊆ K' -> readies K T P next ups -> readies K' T P next ups.
Proof. intros HK [?|(ps & ts & H & ?)]; [by left|right; exists ps, ts; auto]. Qed.

(** The consequences, by what the handler has observed. *)
Definition consequent (request : TaskRequest) (current next : Task.ModuleTask) (K : knowledge)
    (rest : list ProjectionUpdate) : Prop :=
  consequences (loaded K (tr_TenantID request))
    (readies K (tr_TenantID request) (tr_ProjectID request) next) request current next rest.

Lemma task_consequences_consequent request p current command event d K :
  Task.Cmd.Type_ command = Task.Cmd.Type_ (tr_Command request) ->
  spec J (task_consequences jcs_Transform sha256_Sum256 s request p current command event d) K
    (fun K' w => K ⊆ K' /\ consequent request current (Task.Projection event) K' w.1).
Proof.
  intros Hty. unfold task_consequences. cbv zeta. rewrite Hty. set (next := Task.Projection event) in *.
  spec_step. apply (spec_mono _ _ _ (fun K' w => K ⊆ K' /\ Forall2 (frozen_by (tr_TaskID request))
    (if Task.State next ≟ TaskBlockedUserDecision then Task.FrozenDependentIDs next else []) w.1)).
  2: { destruct (_ ≟ TaskBlockedUserDecision); [apply block_dependents_all|spec_step; split; [done|constructor]]. }
  intros K1 blocked [HK1 Hblocked]. spec_step.
  apply (spec_mono _ _ _ (fun K' w => K1 ⊆ K' /\ releases (loaded K' (tr_TenantID request)) (tr_TaskID request)
    (if Task.Cmd.Type_ (tr_Command request) ≟ Task.TaskCommandAuthorizeNewSeries
     then Task.FrozenDependentIDs current else []) w.1)).
  2: { destruct (_ ≟ Task.TaskCommandAuthorizeNewSeries); [apply unblock_dependents_all|spec_step; split; [done|constructor]]. }
  intros K2 unblocked [HK2 Hun]. spec_step.
  apply (spec_mono _ _ _ (fun K' w => K2 ⊆ K' /\
    (if (Task.Cmd.Type_ (tr_Command request) ≟ Task.TaskCommandLLMSuccess)
        || (Task.Cmd.Type_ (tr_Command request) ≟ Task.TaskCommandIntegrate)
     then readies K' (tr_TenantID request) (tr_ProjectID request) next w.1 else w.1 = []))).
  2: { destruct (_ || _); [apply readyAuditedDependents_exact|by spec_step]. }
  intros K3 readied [HK3 Hready]. spec_step.
  apply (spec_mono _ _ _ (fun K' w => K3 ⊆ K' /\ Forall (of_project (tr_ProjectID request)) w.1 /\
    (length w.1 <= if Task.Cmd.Type_ (tr_Command request) ≟ Task.TaskCommandLLMSuccess then 1 else 0)%nat)).
  2: { destruct (_ ≟ Task.TaskCommandLLMSuccess); [apply coreSummary_project|by spec_step]. }
  intros K4 summary [HK4 [Hsum Hlen]]. spec_step. split; [set_solver|].
  exists blocked.1, unblocked.1, readied.1, summary.1. cbn. split_and!; try done.
  - by rewrite <- !app_assoc.
  - eapply releases_mono; [|exact Hun]. intros id t. apply loaded_mono. set_solver.
  - destruct (_ || _); [|done]. eapply readies_mono; [|exact Hready]. set_solver.
Qed.
End Cascade.

Section Theorems.
Context (jcs_Transform : string -> option string) (sha256_Sum256 : string -> list Z).
Context `{laws : CodecLaws}.
Context (s : Service) (boundary : Capability.CommitBoundary).
Notation honest := (honest (codec := codec)).
Notation later := (later jcs_Transform sha256_Sum256 honest).
Notation runs := (runs jcs_Transform sha256_Sum256 boundary honest).
Notation sound := (sound (codec := codec)).

(** The command of a request, as it is decided: of the request's tenant, project,
    task and principal, at the time of the commit. *)
Definition issued (request : TaskRequest) (at_ : time) : Task.TaskCommand :=
  (tr_Command request)
    ⟦ Task.Cmd.TenantID := tr_TenantID request ⟧ ⟦ Task.Cmd.ProjectID := tr_ProjectID request ⟧
    ⟦ Task.Cmd.TaskID := tr_TaskID request ⟧ ⟦ Task.Cmd.ActorID := tr_PrincipalID request ⟧
    ⟦ Task.Cmd.At := at_ ⟧.

(** What the commit of a task command holds. *)
Definition complete_commit (request : TaskRequest) (K : knowledge) (q : TransactionRequest) : Prop :=
  exists v K' current event own rest,
    K = SawValidate v true :: K' /\
    found K (tr_TenantID request) "task" (tr_TaskID request) unmarshal_task Task.zeroModuleTask
      (Task.Cmd.Type_ (tr_Command request) ≟ Task.TaskCommandDefine) current /\
    Task.Version current = tr_ExpectedVersion request /\
    Task.DecideTask current (issued request (Capability.Val.CommitAt v)) = Ok event /\
    q_Updates q = own :: rest /\ u_ExpectedVersion own = tr_ExpectedVersion request /\
    u_AggregateType own = "task" /\ u_AggregateID own = tr_TaskID request /\
    marshal_task (Task.Projection event) = Some (u_State own) /\
    consequent request current (Task.Projection event) K rest.

Lemma consequent_mono request current next K K' rest :
  K ⊆ K' -> consequent request current next K rest -> consequent request current next K' rest.
Proof.
  intros HK. apply consequences_mono; [intros id t; by apply loaded_mono|intros ups; by apply readies_mono].
Qed.

Lemma handleTaskOnce_complete request K :
  wp (complete_commit request) (handleTaskOnce jcs_Transform sha256_Sum256 s request) K (fun _ _ => True).
Proof.
  apply spec_any. unfold handleTaskOnce, validateRequest. rewrite TaskParameterDigest_eq. cbv zeta.
  repeat spec_step. destruct r as [prior|]; [repeat spec_step; done|].
  rename a into d. spec_step. apply load_project_for_spec. intros K1 q p HK1 Hq Hp.
  spec_step. apply load_current_spec. intros K2 current HK2 Hv Hcur.
  repeat spec_step. match goal with D : Task.DecideTask _ _ = Ok _ |- _ => rename D into Hd end.
  apply encode_task_spec. intros K3 x e HK3 Hm Hu Hx. spec_step.
  eapply spec_mono; [|by apply task_consequences_consequent]. intros K4 w [HK4 Hw].
  spec_step. apply validate_spec. intros K5 EK5 HK5.
  unfold commit_task. repeat spec_step. apply spec_execute; [|intros r; by repeat spec_step].
  eexists _, K4, current, _, e.1.1, w.1. split_and!; [exact EK5| |done|exact Hd|done|by rewrite Hu..| |].
  - eapply found_mono; [|exact Hcur]. set_solver.
  - by rewrite Hu.
  - by eapply consequent_mono.
Qed.

Lemma HandleTask_complete request rounds K :
  wp (complete_commit request) (HandleTask jcs_Transform sha256_Sum256 s rounds request) K (fun _ _ => True).
Proof.
  revert K. induction rounds as [|rounds IH]; intros K; cbn [HandleTask]; apply wp_bind;
    (eapply wp_mono; [|apply handleTaskOnce_complete]); intros K1 [outcome|e] _; cbn; try done;
    apply wp_bind, retry_spec; intros K2 b _; destruct b; cbn; try done; apply IH.
Qed.

(** A task of the project in the store, and the tasks with [next] in the place
    of its own. *)
Definition stored_task (s0 : MemoryStore) (T P : string) (t : Task.ModuleTask) : Prop :=
  exists k p, projections s0 !! k = Some p /\ p_TenantID p = T /\ p_ProjectID p = P /\
    p_AggregateType p = "task" /\ unmarshal_task (p_State p) = Some t.
Definition tasks_with (s0 : MemoryStore) (T P : string) (next t : Task.ModuleTask) : Prop :=
  t = next \/ stored_task s0 T P t /\ Task.ID t <> Task.ID next.

(** The updates make ready those dependents of [next] that are ready among the
    tasks the store holds. *)
Definition makes_ready (s0 : MemoryStore) (T P : string) (next : Task.ModuleTask)
    (ups : list ProjectionUpdate) : Prop :=
  exists ids, Forall2 made_ready ids ups /\ ids ⊆+ Task.DependentTaskIDs next /\
    forall id, id ∈ ids <-> id ∈ Task.DependentTaskIDs next /\ ready_among (tasks_with s0 T P next) id.

Lemma filter_ready_spec f (l : list string) :
  (forall id, id ∈ List.filter f l <-> id ∈ l /\ f id = true) /\ List.filter f l ⊆+ l.
Proof.
  split; [intros id; by rewrite !list_elem_of_In, filter_In|].
  induction l as [|x l IH]; cbn; [done|]. destruct (f x); by constructor.
Qed.

(** A listing holds the tasks of the project, each once. *)
Lemma listed_tasks s0 T P ps ts :
  sound s0 -> ListProjections T P "task" s0 = Ok ps -> Forall2 decoded ps ts ->
  (forall t, t ∈ ts <-> stored_task s0 T P t) /\
  (forall t t', t ∈ ts -> t' ∈ ts -> Task.ID t = Task.ID t' -> t = t').
Proof.
  intros S Hps Hts.
  assert (Hin : forall t, t ∈ ts <-> exists p, p ∈ ps /\ decoded p t).
  { intros t. split.
    - intros Ht. destruct (Forall2_exists (flip decoded) ts ps t) as (p & ? & ?); [by apply Forall2_flip|done|].
      by exists p.
    - intros (p & Hp & Hd). destruct (Forall2_exists decoded ps ts p Hts Hp) as (t' & Ht' & Hd').
      destruct Hd as [Hd _], Hd' as [Hd' _]. congruence. }
  split.
  - intros t. rewrite Hin. split.
    + intros (p & Hp & Hd & _). destruct (list_inv _ _ _ _ _ _ S Hps Hp) as (Hk & HT & HP).
      pose proof (list_type T P "task" s0 ps p Hps Hp). by exists (aggregateKey T "task" (p_AggregateID p)), p.
    + intros (k & p & Hk & HT & HP & Hty & Hd). pose proof (list_all T P "task" s0 ps k p Hps Hk HT HP Hty) as Hp.
      destruct (Forall2_exists decoded ps ts p Hts Hp) as (t' & Ht' & Hd'). exists p. split; [done|].
      pose proof (proj1 Hd'). assert (t' = t) as -> by congruence. done.
  - intros t t' (p & Hp & Hd & Hid)%Hin (p' & Hp' & Hd' & Hid')%Hin Heq.
    destruct (list_inv _ _ _ _ _ _ S Hps Hp) as (Hk & _), (list_inv _ _ _ _ _ _ S Hps Hp') as (Hk' & _).
    rewrite <- Hid, <- Hid', Heq in *. assert (p = p') as -> by congruence. congruence.
Qed.

Lemma index_tasks_spec ts id t :
  (forall t t', t ∈ ts -> t' ∈ ts -> Task.ID t = Task.ID t' -> t = t') ->
  index_tasks ts !! id = Some t <-> t ∈ ts /\ Task.ID t = id.
Proof.
  intros Huniq. split; [apply (index_tasks_inv jcs_Transform sha256_Sum256)|]. intros [Hin <-].
  destruct (index_tasks ts !! Task.ID t) as [t'|] eqn:E.
  - apply (index_tasks_inv jcs_Transform sha256_Sum256) in E as [? ?]. f_equal. by apply Huniq.
  - by destruct (index_tasks_some jcs_Transform sha256_Sum256 ts t Hin).
Qed.

Lemma readies_stored st s1 K T P next ups :
  sound st -> later st s1 -> witnessed jcs_Transform sha256_Sum256 boundary honest st s1 K -> readies K T P next ups ->
  exists s0, later st s0 /\ later s0 s1 /\ makes_ready s0 T P next ups.
Proof.
  intros S Hl Hk [[E ->]|(ps & ts & Hsaw & Hts & Hups)].
  - exists s1. split_and!; [done|apply later_refl|]. exists []. rewrite E. split_and!; [constructor|done|].
    intros id. split; [by intros ?%not_elem_of_nil|by intros [?%not_elem_of_nil _]].
  - destruct (Hk _ Hsaw) as (s0 & H0 & H1 & Hh). cbn in Hh. symmetry in Hh. exists s0. split_and!; [done|done|].
    assert (S0 : sound s0) by by eapply later_sound.
    destruct (listed_tasks s0 T P ps ts S0 Hh Hts) as [Hin Huniq].
    set (byID := <[Task.ID next := next]> (index_tasks ts)) in *.
    assert (Hby : forall k t, byID !! k = Some t <-> tasks_with s0 T P next t /\ Task.ID t = k).
    { intros k t. unfold byID, tasks_with. rewrite lookup_insert_Some, index_tasks_spec, Hin by done.
      split; [intros [[<- <-]|[Hne [? <-]]]; auto|]. intros [[->|[? ?]] <-]; auto. }
    exists (List.filter (ready_now byID) (sort_slice String.ltb (Task.DependentTaskIDs next))).
    destruct (filter_ready_spec (ready_now byID) (sort_slice String.ltb (Task.DependentTaskIDs next))) as [Hf Hs].
    split_and!; [done|by rewrite sort_slice_Permutation in Hs at 2|].
    intros id. rewrite Hf, sort_slice_Permutation, (ready_now_spec byID _ id Hby). done.
Qed.

Lemma loaded_stored st s1 K T id t :
  sound st -> witnessed jcs_Transform sha256_Sum256 boundary honest st s1 K -> loaded K T id t ->
  stored_during jcs_Transform sha256_Sum256 st s1 unmarshal_task Task.zeroModuleTask false
    (aggregateKey T "task" id) t.
Proof.
  intros S Hk (p & Hs & Ht).
  apply (found_stored jcs_Transform sha256_Sum256 boundary st s1 K T "task" id _ _ _ t S Hk).
  by eapply found_seen.
Qed.

End Theorems.

(** ** Example: an integrated task makes its dependent ready *)
Definition cascade_task (id : string) (state : ModuleTaskState) (version : Z) (dependents : list string)
    : Task.ModuleTask :=
  Task.mkModuleTask "tn" "p" id "m" state version zeroSpecRef (mkSpecRef 1 CapabilityProps.sample_digest)
    "series" ["series"] 0 0 dependents [] [] TaskStateZero "".

(** An encoding of two versions of two tasks and of the project. *)
#[local] Instance cascade_codec : Codec := {|
  marshal_task t :=
    if Task.ID t ≟ "t" then
      if Task.Version t =? 1 then Some "{}" else if Task.Version t =? 2 then Some "{ }" else None
    else if Task.ID t ≟ "d" then
      if Task.Version t =? 1 then Some "{   }" else if Task.Version t =? 2 then Some "{    }" else None
    else None;
  unmarshal_task x :=
    if x ≟ "{}" then Some (cascade_task "t" TaskPassed 1 ["d"])
    else if x ≟ "{ }" then Some (cascade_task "t" TaskIntegrated 2 ["d"])
    else if x ≟ "{   }" then Some (cascade_task "d" TaskDefined 1 [])
    else if x ≟ "{    }" then Some (cascade_task "d" TaskReadyExecution 2 []) else None;
  marshal_project _ := None;
  unmarshal_project x := if x ≟ "{  }" then Some sample_project else None;
  marshal_payload _ _ _ _ := Some "{}";
  marshal_task_command _ _ := Some "{}";
  marshal_project_command _ _ _ := None;
  marshal_queue_request _ _ := None;
  marshal_publish_request _ _ := None;
  marshal_tasks _ := None;
  unmarshal_tasks _ := None;
  marshal_published _ _ := None;
  unmarshal_published _ := None;
  marshal_summary _ := None;
  marshal_message _ := None;
  unmarshal_message _ := None;
  marshal_goal_projection _ := None;
  unmarshal_goal_projection _ := None;
  marshal_goal_spec _ := None;
  unmarshal_goal_spec _ := None;
  marshal_goal_content _ := None;
  unmarshal_object _ := None;
  marshal_object _ := None
|}.
#[local] Instance cascade_laws : CodecLaws.
Proof.
  split; [|done]. cbn. intros t x t'.
  destruct (Task.ID t ≟ "t") eqn:Hid; [|destruct (Task.ID t ≟ "d") eqn:Hid2; [|done]];
    [clear -Hid|clear Hid; rename Hid2 into Hid]; apply bool_decide_eq_true in Hid; rewrite Hid;
    (destruct (Task.Version t =? 1) eqn:H1; [|destruct (Task.Version t =? 2) eqn:H2; [|done]]);
    intros [= <-]; cbn; intros [= <-]; cbn; split; try done; by apply Z.eqb_eq in H1 || apply Z.eqb_eq in H2.
Qed.

Definition cascade_creation : TransactionRequest :=
  mkTransactionRequest "tn" "owner" "create" "digest"
    [mkProjectionUpdate "tn" "p" "project" "p" 0 1 "{  }"; mkProjectionUpdate "tn" "p" "task" "t" 0 1 "{}";
     mkProjectionUpdate "tn" "p" "task" "d" 0 1 "{   }"]
    [sample_event "e1" "project" "p"; sample_event "e2" "task" "t"; sample_event "e3" "task" "d"]
    [] [] "{}" EventStoreProps.demo_digest.
Definition cascade_store : MemoryStore :=
  fst (Execute sample_jcs sample_sha256 cascade_creation NewMemoryStore).
Definition cascade_request : TaskRequest :=
  mkTaskRequest "tn" "p" "t" "user" "key" 1
    ((Task.Cmd.blank Task.TaskCommandIntegrate) ⟦ Task.Cmd.DependenciesSatisfied := true ⟧
       ⟦ Task.Cmd.MergeGatePassed := true ⟧ ⟦ Task.Cmd.AuditEvidenceSHA256 := CapabilityProps.sample_digest ⟧)
    sample_authorization.
Definition cascade_env : env :=
  mkEnv (fun n => Some ("u" +:+ pretty (Z.of_nat n))) (fun _ => 100) (fun _ => false) (fun _ => true).
Definition cascade_run : prog (option (result TaskOutcome orch_error)) :=
  HandleTask sample_jcs sample_sha256 sample_service 0 cascade_request.
Definition cascade_log : list (MemoryStore * obs) :=
  exec_log sample_jcs sample_sha256 cascade_env cascade_run 0 cascade_store.

Lemma cascade_runs :
  runs sample_jcs sample_sha256 (fun _ => true) (honest (codec := cascade_codec))
    cascade_run cascade_store cascade_log
    (fst (exec sample_jcs sample_sha256 cascade_env cascade_run 0 cascade_store))
    (snd (exec sample_jcs sample_sha256 cascade_env cascade_run 0 cascade_store)).
Proof. apply exec_runs; [reflexivity|]. vm_compute. reflexivity. Qed.

Lemma cascade_sound : sound (codec := cascade_codec) cascade_store.
Proof.
  apply (later_sound sample_jcs sample_sha256 NewMemoryStore); [apply empty_sound|].
  exists [EventStoreProps.CmdExecute cascade_creation]. split.
  - apply (exec_run _ NewMemoryStore). vm_compute. reflexivity.
  - apply Forall_singleton. intros u [->|[->|[->|[]%not_elem_of_nil]%elem_of_cons]%elem_of_cons]%elem_of_cons;
      split; intros T id HT Hkey; apply (EventStoreProps.aggregateKey_inj _ T _ _ _ id) in Hkey as (_ & Hty & <-); try done;
      cbn; by intros t [= <-].
Qed.

Definition commit_shape (l : list (MemoryStore * obs)) : option (list (string * Z) * bool) :=
  '(_, q, r) ← find_commit l;
  Some (map (fun u => (u_AggregateID u, u_NextVersion u)) (q_Updates q), match r with Ok _ => true | _ => false end).

End OrchestratorCascade.
