(* ===== verification/Authz.v ===== *)
(** The vocabulary of authorization ([internal/authz/types.go], and the
    principals of [internal/authn/authn.go]): principals, scopes, resources,
    approvals, policy inputs and decisions, their validators, path globs, and
    the tables of actions and roles.

    A Go map is a finite map; where a validator loops over one it returns the
    same error for every offending entry, so the order does not matter. *)

From S2P Require Import Prelude GoLib Trace Errors Contracts Path.

Module Authz.

(** ** Principals (package [authn]) *)
Abbreviation PrincipalType := string (only parsing).
Definition PrincipalUser : PrincipalType := "USER".
Definition PrincipalService : PrincipalType := "SERVICE".
Definition PrincipalAgentRuntime : PrincipalType := "AGENT_RUNTIME".
Definition PrincipalAgentInstance : PrincipalType := "AGENT_INSTANCE".
Definition PrincipalSandbox : PrincipalType := "SANDBOX".
Definition PrincipalMCPServer : PrincipalType := "MCP_SERVER".
Definition PrincipalCIRunner : PrincipalType := "CI_RUNNER".
Definition PrincipalKnowledgeCurator : PrincipalType := "KNOWLEDGE_CURATOR".
Definition PrincipalBreakGlassAdmin : PrincipalType := "BREAK_GLASS_ADMIN".

Definition RoleGoalProposer : string := "GOAL_PROPOSER".
Definition RoleGoalChallenger : string := "GOAL_CHALLENGER".
Definition RolePlanSupervisor : string := "PLAN_SUPERVISOR".
Definition RoleModulePlanner : string := "MODULE_PLANNER".
Definition RoleExecutor : string := "EXECUTOR".
Definition RoleAuditor : string := "AUDITOR".
Definition RoleGlobalAuditor : string := "GLOBAL_AUDITOR".
Definition RoleKnowledgeCurator : string := "KNOWLEDGE_CURATOR".
Definition RoleService : string := "SERVICE".
Definition RoleUser : string := "USER".
Definition RoleBreakGlassAdmin : string := "BREAK_GLASS_ADMIN".

Record Principal : Type := mkPrincipal {
  pr_ID : string;
  pr_Type : PrincipalType;
  pr_Role : string;
  pr_TenantID : string;
  pr_ProjectID : string;
  pr_Issuer : string;
  pr_Subject : string;
  pr_Attributes : gmap string string
}.

(** [roleIn], and the membership tests of the [switch] statements. *)
Fixpoint roleIn (role : string) (roles : list string) : bool :=
  match roles with
  | [] => false
  | allowed :: roles => if role ≟ allowed then true else roleIn role roles
  end.

Definition alpha_num (c : ascii) : bool :=
  byte_in 65 90 c || byte_in 97 122 c || byte_in 48 57 c.

(** [identityPartPattern]: [^[A-Za-z0-9._:@/+~-]{1,256}$]. *)
Definition identityPartPattern (value : string) : bool :=
  (1 <=? len value) && (len value <=? 256)
  && forallb (fun c => alpha_num c || existsb (fun v => byte_is v c) [46; 95; 58; 64; 47; 43; 126; 45])
       (bytes value).

Definition sensitiveFragments : list string :=
  ["secret"; "password"; "passwd"; "token"; "credential"; "privatekey"; "apikey"; "refreshtoken"].
Definition sensitiveName (value : string) : bool :=
  let normalized := ToLower (Path.remove_byte 45 (Path.remove_byte 95 value)) in
  existsb (Path.Contains normalized) sensitiveFragments.

(** The rune loops of the validators reject control bytes: a rune below 0x80 is
    one byte, and no other encoding yields a rune below 0x80. *)
Definition printable (value : string) : bool :=
  forallb (fun c => (0x20 <=? byte_of c) && negb (byte_is 0x7F c)) (bytes value).

Definition safeOpaque (value : string) (max : Z) : bool :=
  negb ((value ≟ "") || (max <? len value) || has_control value) && printable value.

Definition knownPrincipalType (value : PrincipalType) : bool :=
  roleIn value [PrincipalUser; PrincipalService; PrincipalAgentRuntime; PrincipalAgentInstance;
    PrincipalSandbox; PrincipalMCPServer; PrincipalCIRunner; PrincipalKnowledgeCurator;
    PrincipalBreakGlassAdmin].

(** A loop over a map that stops at the first bad entry. *)
Definition any_entry (bad : string -> string -> bool) (m : gmap string string) : bool :=
  existsb (fun kv => bad (fst kv) (snd kv)) (map_to_list m).

Definition Principal_Validate (p : Principal) : option Error :=
  let unauthorized := New CodeUnauthorized "" {["subjectType" := AnyString (pr_Type p)]} in
  if negb (safeOpaque (pr_ID p) 512) then Some unauthorized else
  if negb (knownPrincipalType (pr_Type p)) then Some unauthorized else
  if (pr_Role p ≠? "") && negb (identityPartPattern (pr_Role p)) then Some unauthorized else
  if (pr_TenantID p ≠? "") && negb (identityPartPattern (pr_TenantID p)) then Some unauthorized else
  if (pr_ProjectID p ≠? "") && negb (identityPartPattern (pr_ProjectID p)) then Some unauthorized else
  if 64 <? Z.of_nat (size (pr_Attributes p)) then Some unauthorized else
  if any_entry (fun key value => negb (identityPartPattern key) || sensitiveName key
                  || (512 <? len value) || has_control value) (pr_Attributes p)
  then Some unauthorized else None.

(** ** Decisions and actions *)
Abbreviation Decision := string (only parsing).
Definition DecisionAllow : Decision := "ALLOW".
Definition DecisionDeny : Decision := "DENY".
Definition DecisionApprovalRequired : Decision := "APPROVAL_REQUIRED".
Definition Decision_Valid (d : Decision) : bool :=
  (d ≟ DecisionAllow) || (d ≟ DecisionDeny) || (d ≟ DecisionApprovalRequired).
Definition Decision_Allowed (d : Decision) : bool := d ≟ DecisionAllow.

Definition ActionProjectCreate : string := "project.create".
Definition ActionProjectRead : string := "project.read".
Definition ActionProjectCommand : string := "project.command".
Definition ActionSettingsRead : string := "settings.read".
Definition ActionSettingsWrite : string := "settings.write".
Definition ActionGoalRead : string := "goal.read".
Definition ActionPlanRead : string := "plan.read".
Definition ActionTaskRead : string := "task.read".
Definition ActionTaskCommand : string := "task.command".
Definition ActionRepoRead : string := "repo.read".
Definition ActionRepoWrite : string := "repo.write".
Definition ActionRepoApplyPatch : string := "repo.apply_patch".
Definition ActionToolInvoke : string := "tool.invoke".
Definition ActionKnowledgeRead : string := "knowledge.read".
Definition ActionKnowledgeWrite : string := "knowledge.write".
Definition ActionArtifactPublish : string := "artifact.publish".
Definition ActionPolicyTest : string := "policy.test".
Definition ActionPolicyWrite : string := "policy.write".
Definition ActionDeploy : string := "deploy".
Definition ActionModelGenerate : string := "model.generate".
Definition ActionModelStream : string := "model.stream".
Definition ActionModelCancel : string := "model.cancel".
Definition ActionModelReconcile : string := "model.reconcile".
Definition ActionModelCapabilities : string := "model.capabilities".
Definition ActionSandboxExec : string := "sandbox.exec".
Definition ActionIntegrationMerge : string := "integration.merge".

(** [^[a-z][a-z0-9...]{0,127}$] with the given punctuation. *)
Definition lower_name (punctuation : list Z) (value : string) : bool :=
  match bytes value with
  | [] => false
  | c :: rest => byte_in 97 122 c && Nat.leb (length rest) 127
      && forallb (fun c => byte_in 97 122 c || byte_in 48 57 c
                           || existsb (fun v => byte_is v c) punctuation) rest
  end.
Definition actionPattern : string -> bool := lower_name [95; 46; 58; 45].
Definition ruleIDPattern : string -> bool := lower_name [46; 95; 45].

(** ** Scopes *)
Record ProjectScope : Type := mkProjectScope {
  ps_TenantID : string;
  ps_ID : string;
  ps_State : string;
  ps_StateVersion : Z;
  ps_Classification : string
}.

Record TaskScope : Type := mkTaskScope {
  ts_TenantID : string;
  ts_ProjectID : string;
  ts_ID : string;
  ts_State : string;
  ts_StateVersion : Z;
  ts_SpecDigest : string;
  ts_OwnedPaths : list string;
  ts_ExecutionPlatform : string;
  ts_SandboxLevel : string;
  ts_WorkloadTrust : string;
  ts_DeploymentProfile : string;
  ts_HostileMultiTenant : bool;
  ts_RequiresNetworkIsolation : bool;
  ts_RequiresHiddenConfidentiality : bool
}.

Record Resource : Type := mkResource {
  rs_Type : string;
  rs_ID : string;
  rs_Path : string;
  rs_Attributes : gmap string string
}.

#[export] Instance Resource_eq_dec : EqDecision Resource.
Proof. solve_decision. Defined.

Record LeaseReference : Type := mkLeaseReference {
  lr_ID : string;
  lr_ExpiresAt : time;
  lr_PolicyVersion : string;
  lr_FencingToken : Z
}.

Record Approval : Type := mkApproval {
  ap_ID : string;
  ap_TenantID : string;
  ap_ProjectID : string;
  ap_PrincipalID : string;
  ap_CoApproverID : string;
  ap_SubjectType : string;
  ap_SubjectID : string;
  ap_SubjectVersion : Z;
  ap_SubjectDigest : string;
  ap_IssuedAt : time;
  ap_ExpiresAt : time;
  ap_RevokedAt : option time;
  ap_Signature : string
}.

Record ExecutionContext : Type := mkExecutionContext {
  ec_IP : string;
  ec_Platform : string;
  ec_SandboxLevel : string;
  ec_AuthorizationTime : string
}.

Record BudgetScope : Type := mkBudgetScope {
  bs_AccountID : string;
  bs_Available : bool
}.

Record PolicyInput : Type := mkPolicyInput {
  in_Principal : Principal;
  in_Project : ProjectScope;
  in_Task : TaskScope;
  in_Action : string;
  in_Resource : Resource;
  in_ParameterDigest : string;
  in_Budget : BudgetScope;
  in_Lease : option LeaseReference;
  in_Approval : option Approval;
  in_Context : ExecutionContext
}.

(** ** Tables *)
Definition IsSideEffect (action : string) : bool :=
  roleIn action [ActionRepoWrite; ActionRepoApplyPatch; ActionToolInvoke; ActionKnowledgeWrite;
    ActionArtifactPublish; ActionPolicyWrite; ActionDeploy; ActionSandboxExec; ActionIntegrationMerge].

Definition RequiresTask (action : string) : bool :=
  negb (roleIn action [ActionProjectCreate; ActionProjectRead; ActionProjectCommand;
    ActionSettingsRead; ActionSettingsWrite; ActionGoalRead; ActionPlanRead; ActionKnowledgeRead;
    ActionKnowledgeWrite; ActionArtifactPublish; ActionPolicyTest; ActionModelCapabilities;
    ActionModelGenerate; ActionModelStream; ActionModelCancel; ActionModelReconcile;
    ActionIntegrationMerge]).

Definition LeaseRoleRequiresTask (role : string) : bool :=
  negb (roleIn role [RoleGoalProposer; RoleGoalChallenger; RolePlanSupervisor; RoleGlobalAuditor;
    RoleKnowledgeCurator; RoleService]).

Definition taskModelLeaseRole (role : string) : bool :=
  roleIn role [RoleModulePlanner; RoleExecutor; RoleAuditor; "MODULE_AUDITOR"].

Definition readTools : list string :=
  ["artifact.read"; "knowledge.read_range"; "knowledge.search"; "repository.file.read"].

Definition globalAuditorReadToolResource (resource : Resource) : bool :=
  if (rs_Type resource ≠? "tool") || (rs_Path resource ≟ "")
     || negb (HasPrefix (rs_ID resource) "tool://") then false else
  existsb (fun toolID =>
    let marker := "/" +:+ toolID +:+ "@" in
    match Path.LastIndex (rs_ID resource) marker with
    | None => false
    | Some index =>
        Nat.ltb (String.length "tool://") index
        && Nat.ltb (index + String.length marker) (String.length (rs_ID resource))
        && negb (Path.ContainsAny (slice_from (index + String.length marker) (rs_ID resource)) [47; 64])
    end) readTools.

Definition globalAuditorProjectReadTool (input : PolicyInput) : bool :=
  (in_Action input ≟ ActionToolInvoke) && (pr_Role (in_Principal input) ≟ RoleGlobalAuditor)
  && (ts_ID (in_Task input) ≟ "") && globalAuditorReadToolResource (in_Resource input).

Definition validLeaseTaskBinding (role taskID : string) (taskVersion : Z) (specDigest : string) : bool :=
  if taskID ≟ "" then negb (LeaseRoleRequiresTask role) && (taskVersion =? 0) && (specDigest ≟ "")
  else (0 <=? taskVersion) && digestPattern specDigest.

Definition validLeaseScopeBinding (action role taskID : string) (taskVersion : Z)
    (specDigest : string) : bool :=
  if action ≟ ActionKnowledgeWrite
  then (role ≟ RoleKnowledgeCurator) && (taskID ≟ "") && (taskVersion =? 0) && (specDigest ≟ "")
  else validLeaseTaskBinding role taskID taskVersion specDigest.

Definition IsHighRisk (action : string) : bool :=
  (action ≟ ActionKnowledgeWrite) || (action ≟ ActionPolicyWrite)
  || (action ≟ ActionArtifactPublish) || (action ≟ ActionDeploy).

(** ** Names and paths *)
Definition sensitiveAttributeName (value : string) : bool :=
  let normalized := ToLower (Path.remove_byte 45 (Path.remove_byte 95 value)) in
  existsb (Path.Contains normalized) sensitiveFragments.

Definition safeID (value : string) : bool :=
  negb ((value ≟ "") || (256 <? len value) || Path.ContainsAny value [13; 10; 0; 47; 92])
  && printable value.

Definition safeReason (value : string) : bool :=
  negb ((value ≟ "") || (128 <? len value))
  && forallb (fun c => byte_is 95 c || byte_is 45 c || byte_in 65 90 c || byte_in 48 57 c) (bytes value).

Definition normalizeRelativePath (value : string) : result string Error :=
  let denied := New CodeUnauthorizedPath "" ∅ in
  reject denied when (value ≟ "") || Path.ContainsAny value [0; 92] || HasPrefix value "/" ;;
  let clean := Path.Clean value in
  reject denied when (clean ≠? value) || (clean ≟ ".") || (clean ≟ "..") || HasPrefix clean "../" ;;
  Ok clean.

Definition normalizeGlob (value : string) : result string Error :=
  let denied := New CodeUnauthorizedPath "" ∅ in
  reject denied when (value ≟ "") || Path.ContainsAny value [0; 92] || HasPrefix value "/" ;;
  let clean := Path.Clean value in
  reject denied when (clean ≠? value) || (clean ≟ ".") || (clean ≟ "..") || HasPrefix clean "../" ;;
  Ok clean.

Definition segmentMatch (candidate pattern : string) : bool := Path.Match pattern candidate.

Fixpoint suffixes {A} (l : list A) : list (list A) :=
  match l with [] => [] | _ :: rest => l :: suffixes rest end.

Fixpoint globPartsMatch (candidate pattern : list string) : bool :=
  match pattern with
  | [] => Nat.eqb (length candidate) 0
  | p :: pattern =>
      if p ≟ "**" then
        match pattern with
        | [] => true
        | _ => existsb (fun rest => globPartsMatch rest pattern) (suffixes candidate)
        end
      else
        match candidate with
        | [] => false
        | c :: candidate =>
            if negb (segmentMatch c p) then false else globPartsMatch candidate pattern
        end
  end.

(** [strings.Split(s, "/")]. *)
Definition split_path (s : string) : list string := map of_bytes (Trace.split_on 47 (bytes s)).

Definition globMatch (candidate pattern : string) : bool :=
  if pattern ≟ "**" then true else globPartsMatch (split_path candidate) (split_path pattern).

Definition pathMatchesGlob (candidate pattern : string) : bool :=
  match normalizeRelativePath candidate, normalizeGlob pattern with
  | Ok candidate, Ok pattern => globMatch candidate pattern
  | _, _ => false
  end.

(** ** Validators *)
Definition validTaskExecutionScope (task : TaskScope) : bool :=
  if (ts_DeploymentProfile task ≠? "LOCAL") && (ts_DeploymentProfile task ≠? "TEST")
     && (ts_DeploymentProfile task ≠? "PREPRODUCTION") && (ts_DeploymentProfile task ≠? "PRODUCTION")
  then false else
  if (ts_WorkloadTrust task ≠? "TRUSTED") && (ts_WorkloadTrust task ≠? "UNTRUSTED") then false else
  ((ts_ExecutionPlatform task ≟ "LINUX") && (ts_SandboxLevel task ≟ "CONTAINER"))
  || ((ts_ExecutionPlatform task ≟ "WINDOWS") && (ts_SandboxLevel task ≟ "NONE")).

Definition validateApproval (approval : Approval) (now : time) : option Error :=
  let required := New CodeApprovalRequired "" ∅ in
  if negb (safeID (ap_ID approval)) || negb (safeID (ap_TenantID approval))
     || negb (safeID (ap_ProjectID approval)) || negb (safeID (ap_PrincipalID approval))
     || negb (safeOpaque (ap_SubjectType approval) 128) || negb (safeOpaque (ap_SubjectID approval) 512)
     || (ap_SubjectVersion approval <? 0) || negb (digestPattern (ap_SubjectDigest approval))
     || negb (safeOpaque (ap_Signature approval) 2048) || IsZero (ap_IssuedAt approval)
  then Some required else
  if (ap_CoApproverID approval ≠? "")
     && (negb (safeID (ap_CoApproverID approval)) || (ap_CoApproverID approval ≟ ap_PrincipalID approval))
  then Some required else
  if IsZero (ap_ExpiresAt approval) || negb (Before (ap_IssuedAt approval) (ap_ExpiresAt approval))
     || negb (Before now (ap_ExpiresAt approval)) || Before now (ap_IssuedAt approval)
  then Some required else
  match ap_RevokedAt approval with
  | Some revoked => if negb (After revoked now) then Some required else None
  | None => None
  end.

Definition policyAuthorizationTime (input : PolicyInput) (fallback : time) : result time Error :=
  if ec_AuthorizationTime (in_Context input) ≟ "" then Ok (UTC fallback) else
  match Path.ParseRFC3339UTC (ec_AuthorizationTime (in_Context input)) with
  | Some value => Ok value
  | None => Err (scoped CodeInvalidArgument "authorization time")
  end.

Definition bad_attribute (key value : string) : bool :=
  negb (safeOpaque key 128) || sensitiveAttributeName key || negb (safeOpaque value 1024).

Definition has_task (task : TaskScope) : bool :=
  (ts_ID task ≠? "") || (ts_TenantID task ≠? "") || (ts_ProjectID task ≠? "") || (ts_State task ≠? "")
  || (ts_SpecDigest task ≠? "") || (0 <? Z.of_nat (length (ts_OwnedPaths task))).

(** The task part of [PolicyInput.Validate]. *)
Definition task_error (input : PolicyInput) : option Error :=
  let project := in_Project input in
  let task := in_Task input in
  if (RequiresTask (in_Action input) && negb (globalAuditorProjectReadTool input)) || has_task task then
    if negb (safeID (ts_TenantID task)) || negb (safeID (ts_ProjectID task)) || negb (safeID (ts_ID task))
       || (ts_State task ≟ "") || (ts_StateVersion task <? 0)
    then Some (scoped CodeInvalidArgument "task") else
    if (ps_TenantID project ≠? ts_TenantID task) || (ps_ID project ≠? ts_ProjectID task)
    then Some (scoped CodeForbidden "task project") else
    if IsSideEffect (in_Action input) && negb (validTaskExecutionScope task)
    then Some (scoped CodeSandboxLevelInsufficient "trusted task execution profile") else None
  else None.

(** The part about resources and owned paths. *)
Definition resource_error (input : PolicyInput) : option Error :=
  let resource := in_Resource input in
  if ((rs_Type resource ≠? "") && negb (safeOpaque (rs_Type resource) 128))
     || ((rs_ID resource ≠? "") && negb (safeOpaque (rs_ID resource) 512))
  then Some (scoped CodeInvalidArgument "resource") else
  if 32 <? Z.of_nat (size (rs_Attributes resource))
  then Some (scoped CodeInvalidArgument "resource attributes") else
  if any_entry bad_attribute (rs_Attributes resource)
  then Some (scoped CodeInvalidArgument "resource attributes") else
  if (rs_Path resource ≠? "") && negb (is_ok (normalizeRelativePath (rs_Path resource)))
  then Some (New CodeUnauthorizedPath "" ∅) else
  if existsb (fun owned => negb (is_ok (normalizeGlob owned))) (ts_OwnedPaths (in_Task input))
  then Some (New CodeUnauthorizedPath "" ∅) else None.

Definition lease_reference_error (input : PolicyInput) (now : time) : option Error :=
  match in_Lease input with
  | None => None
  | Some lease =>
      if (lr_ID lease ≟ "") || (lr_FencingToken lease <? 1) || IsZero (lr_ExpiresAt lease)
         || (lr_PolicyVersion lease ≟ "")
      then Some (scoped CodePolicyDenied "lease") else
      if negb (Before now (lr_ExpiresAt lease)) then Some (New CodeLeaseExpired "" ∅) else None
  end.

(** The first error of a sequence of checks. *)
Fixpoint first_error {E} (checks : list (option E)) : option E :=
  match checks with
  | [] => None
  | Some e :: _ => Some e
  | None :: checks => first_error checks
  end.

Definition Input_Validate (input : PolicyInput) (now : time) : option Error :=
  match policyAuthorizationTime input now with
  | Err timeErr => Some timeErr
  | Ok now =>
      let project := in_Project input in
      let principal := in_Principal input in
      first_error [
        Principal_Validate principal;
        (if negb (safeID (ps_TenantID project)) || negb (safeID (ps_ID project)) || (ps_State project ≟ "")
            || (ps_StateVersion project <? 0) || (ps_Classification project ≟ "")
         then Some (scoped CodeInvalidArgument "project") else None);
        task_error input;
        (if (pr_TenantID principal ≠? "") && (pr_TenantID principal ≠? ps_TenantID project)
         then Some (scoped CodeForbidden "tenant") else None);
        (if (pr_ProjectID principal ≠? "") && (pr_ProjectID principal ≠? ps_ID project)
         then Some (scoped CodeForbidden "project") else None);
        (if negb (actionPattern (in_Action input)) then Some (scoped CodeInvalidArgument "action") else None);
        resource_error input;
        lease_reference_error input now;
        match in_Approval input with Some approval => validateApproval approval now | None => None end]
  end.

(** ** Policy decisions *)
Record Constraints : Type := mkConstraints {
  co_PathGlob : string;
  co_MaxBytes : Z;
  co_ExpiresAt : time;
  co_AllowedMethods : list string
}.

#[global] Instance eta_constraints : Eta Constraints := fun c =>
  mkConstraints (co_PathGlob c) (co_MaxBytes c) (co_ExpiresAt c) (co_AllowedMethods c).

Definition zeroConstraints : Constraints := mkConstraints "" 0 0 [].

Definition Constraints_Validate (c : Constraints) (now : time) : bool :=
  if (co_PathGlob c ≠? "") && negb (is_ok (normalizeGlob (co_PathGlob c))) then false else
  if (co_MaxBytes c <? 0) || (negb (IsZero (co_ExpiresAt c)) && negb (Before now (co_ExpiresAt c)))
  then false else
  if 32 <? Z.of_nat (length (co_AllowedMethods c)) then false else
  forallb (fun m => safeOpaque m 32) (co_AllowedMethods c).

Record DecisionBinding : Type := mkDecisionBinding {
  db_PrincipalID : string;
  db_TenantID : string;
  db_ProjectID : string;
  db_ProjectVersion : Z;
  db_TaskID : string;
  db_TaskVersion : Z;
  db_SpecDigest : string;
  db_Role : string;
  db_Action : string;
  db_Resource : Resource;
  db_ParameterDigest : string;
  db_BudgetAccountID : string
}.

Record PolicyDecision : Type := mkPolicyDecision {
  pd_Decision : Decision;
  pd_PolicyVersion : string;
  pd_Constraints : Constraints;
  pd_ReasonCodes : list string;
  pd_RuleID : string;
  pd_Binding : option DecisionBinding
}.

#[global] Instance eta_decision : Eta PolicyDecision := fun d =>
  mkPolicyDecision (pd_Decision d) (pd_PolicyVersion d) (pd_Constraints d) (pd_ReasonCodes d)
    (pd_RuleID d) (pd_Binding d).

Definition resourceEmpty (r : Resource) : bool :=
  (rs_Type r ≟ "") && (rs_ID r ≟ "") && (rs_Path r ≟ "") && Nat.eqb (size (rs_Attributes r)) 0.

Definition leaseActionAllowed (action role taskID : string) : bool :=
  if action ≟ ActionKnowledgeWrite then (role ≟ RoleKnowledgeCurator) && (taskID ≟ "") else
  if taskID ≟ "" then
    ((action ≟ ActionModelGenerate) && negb (LeaseRoleRequiresTask role))
    || ((action ≟ ActionToolInvoke) && (role ≟ RoleGlobalAuditor))
    || ((action ≟ ActionArtifactPublish) && (role ≟ RoleService))
    || ((action ≟ ActionIntegrationMerge) && (role ≟ RoleService))
  else IsSideEffect action || (action ≟ ActionModelGenerate) && taskModelLeaseRole role.

Definition binding_valid (b : DecisionBinding) : bool :=
  let resource := db_Resource b in
  negb (negb (safeID (db_PrincipalID b)) || negb (safeID (db_TenantID b)) || negb (safeID (db_ProjectID b))
    || (db_ProjectVersion b <? 0) || ((db_TaskID b ≠? "") && negb (safeID (db_TaskID b)))
    || negb (validLeaseScopeBinding (db_Action b) (db_Role b) (db_TaskID b) (db_TaskVersion b) (db_SpecDigest b))
    || negb (safeOpaque (db_Role b) 128) || negb (leaseActionAllowed (db_Action b) (db_Role b) (db_TaskID b))
    || negb (digestPattern (db_ParameterDigest b)) || negb (safeID (db_BudgetAccountID b)))
  && negb ((rs_Path resource ≠? "") && negb (is_ok (normalizeRelativePath (rs_Path resource))))
  && negb (resourceEmpty resource
    || ((rs_Type resource ≠? "") && negb (safeOpaque (rs_Type resource) 128))
    || ((rs_ID resource ≠? "") && negb (safeOpaque (rs_ID resource) 512))
    || (32 <? Z.of_nat (size (rs_Attributes resource))))
  && negb (any_entry bad_attribute (rs_Attributes resource)).

Definition Decision_Validate (d : PolicyDecision) (now : time) : option Error :=
  let denied := New CodePolicyDenied "" {["policyVersion" := AnyString (pd_PolicyVersion d)]} in
  if negb (Decision_Valid (pd_Decision d)) || negb (safeOpaque (pd_PolicyVersion d) 256)
     || ((pd_RuleID d ≠? "") && negb (ruleIDPattern (pd_RuleID d)))
     || negb (Constraints_Validate (pd_Constraints d) now)
  then Some denied else
  if Nat.eqb (length (pd_ReasonCodes d)) 0 then Some denied else
  if negb (forallb safeReason (pd_ReasonCodes d)) then Some denied else
  match pd_Binding d with
  | Some binding => if binding_valid binding then None else Some denied
  | None => None
  end.
End Authz.
