(* ===== verification/AuthzProps.v ===== *)
(** Path authorization: a declarative reading of the relative paths the policy
    accepts and of the globs a task owns, and the proof that the normaliser
    (which runs [path.Clean]) and the matcher implement it. *)

From S2P Require Import Prelude GoLib Trace Errors Contracts Path Authz.

Module AuthzProps.
Import Trace.
Import Path.
Import Authz.

(** ** Segments *)
Notation slash := "/"%char.
Definition slashless (e : seg) : Prop := Forall (fun c => byte_is 47 c = false) e.

Lemma byte_is_char x c : byte_is (byte_of x) c = true <-> c = x.
Proof.
  unfold byte_is, byte_of. split; [|intros ->; apply Z.eqb_refl]. intros Hc%Z.eqb_eq.
  assert (HN : N_of_ascii c = N_of_ascii x) by lia.
  apply (f_equal ascii_of_N) in HN. by rewrite !ascii_N_embedding in HN.
Qed.
Lemma byte_is_slash c : byte_is 47 c = true <-> c = slash.
Proof. exact (byte_is_char slash c). Qed.

Lemma split_on_cons sep l : exists e rest, split_on sep l = e :: rest.
Proof.
  destruct l as [|c l]; cbn; [eauto|]. destruct (byte_is sep c); [eauto|].
  destruct (split_on sep l); eauto.
Qed.

Lemma split_on_slashless l : Forall slashless (split_on 47 l).
Proof.
  induction l as [|c l IH]; cbn; [by repeat constructor|].
  destruct (byte_is 47 c) eqn:Hc; [constructor; [by apply Forall_nil|done]|].
  destruct (split_on_cons 47 l) as (e & rest & He). rewrite He in *.
  apply Forall_cons in IH as [Hs Hr]. constructor; [|done]. by apply Forall_cons.
Qed.

Lemma join_split l : join_slash (split_on 47 l) = l.
Proof.
  induction l as [|c l IH]; cbn; [done|]. destruct (split_on_cons 47 l) as (e & rest & He).
  destruct (byte_is 47 c) eqn:Hc; rewrite He in *.
  - apply byte_is_slash in Hc as ->. cbn in *. by rewrite IH.
  - destruct rest; cbn in *; by rewrite IH.
Qed.

Lemma split_app e l : slashless e -> split_on 47 (e ++ slash :: l) = e :: split_on 47 l.
Proof.
  induction 1 as [|c e Hc _ IH]; [done|]. cbn in *. by rewrite Hc, IH.
Qed.

Lemma split_slashless e : slashless e -> split_on 47 e = [e].
Proof. induction 1 as [|c e Hc _ IH]; [done|]. cbn. by rewrite Hc, IH. Qed.

Lemma split_join l : Forall slashless l -> l <> [] -> split_on 47 (join_slash l) = l.
Proof.
  induction 1 as [|e l He Hl IH]; [done|]. intros _. destruct l as [|e' l]; [by apply split_slashless|].
  change (join_slash (e :: e' :: l)) with (e ++ slash :: join_slash (e' :: l)).
  rewrite split_app by done. by rewrite IH.
Qed.

(** ** [path.Clean] on relative paths *)
Definition normal (e : seg) : Prop := e <> [] /\ e <> dot /\ e <> dotdot.

(** The elements collected so far: ordinary ones above leading parents. *)
Definition stack (out : list seg) : Prop :=
  exists n xs, out = xs ++ repeat dotdot n /\ Forall normal xs /\ Forall slashless out.

Lemma stack_element out e : stack out -> slashless e -> stack (clean_element false out e).
Proof.
  intros (n & xs & -> & Hx & Hs) He. unfold clean_element.
  destruct (_ || _) eqn:Hskip; [by exists n, xs|]. go_bool.
  assert (Hpar : slashless dotdot) by by repeat constructor.
  case_bool_decide as Hdd.
  - destruct xs as [|x xs]; cbn.
    + exists (S n), []. destruct n; cbn; [by repeat constructor|].
      split; [done|]. split; [done|]. by constructor.
    + apply Forall_cons in Hx as [(_ & _ & Hxn) Hx]. rewrite bool_decide_eq_false_2 by done.
      exists n, xs. cbn in Hs. by apply Forall_cons in Hs as [_ Hs].
  - exists n, (e :: xs). split; [done|]. split; [by constructor|]. by constructor.
Qed.

Lemma stack_fold l out : stack out -> Forall slashless l -> stack (foldl (clean_element false) out l).
Proof.
  revert out. induction l as [|e l IH]; intros out Ho Hl; [done|].
  apply Forall_cons in Hl as [He Hl]. apply IH; [by apply stack_element|done].
Qed.

Lemma normal_fold l out : Forall normal l -> foldl (clean_element false) out l = rev l ++ out.
Proof.
  revert out. induction l as [|e l IH]; intros out Hl; [done|]. apply Forall_cons in Hl as [(H1 & H2 & H3) Hl].
  cbn. unfold clean_element at 2. rewrite !bool_decide_eq_false_2 by done. cbn.
  rewrite IH by done. by rewrite <- app_assoc.
Qed.

(** A relative path whose segments are all ordinary names, without NUL or
    backslash. *)
Definition confined (value : string) : Prop :=
  ContainsAny value [0; 92] = false /\ Forall normal (split_on 47 (bytes value)).

Lemma Clean_relative value : HasPrefix value "/" = false ->
  let joined := join_slash (rev (foldl (clean_element false) [] (split_on 47 (bytes value)))) in
  bytes (Clean value) = match joined with [] => dot | _ => joined end.
Proof.
  intros Hr. unfold Clean, clean_bytes. rewrite bytes_of_bytes.
  assert (Hroot : match bytes value with c :: _ => byte_is 47 c | [] => false end = false).
  { unfold HasPrefix in Hr. destruct (bytes value) as [|c l]; [done|]. destruct (byte_is 47 c) eqn:Hc; [|done].
    apply byte_is_slash in Hc as ->. by cbn in Hr. }
  by rewrite Hroot.
Qed.

(** The normaliser accepts exactly the confined paths, and returns them as they
    are. *)
Lemma confined_accepted value : confined value -> normalizeRelativePath value = Ok value.
Proof.
  intros [Hany Hn]. unfold normalizeRelativePath. rewrite Hany.
  assert (Hne : value <> "") by (intros ->; by apply Forall_cons in Hn as [[? _] _]).
  assert (Hroot : HasPrefix value "/" = false).
  { destruct (HasPrefix value "/") eqn:Hp; [|done]. apply prefix_app in Hp as [r Hr].
    rewrite Hr in Hn. by apply Forall_cons in Hn as [[? _] _]. }
  assert (Hclean : Clean value = value).
  { apply bytes_inj. rewrite Clean_relative by done. cbv zeta.
    rewrite normal_fold, app_nil_r, rev_involutive, join_split by done.
    by destruct (bytes value) eqn:Hb; [destruct value|]. }
  assert (Hup : HasPrefix value "../" = false).
  { destruct (HasPrefix value "../") eqn:Hp; [|done]. apply prefix_app in Hp as [r Hr].
    change (bytes "../" ++ r) with (dotdot ++ slash :: r) in Hr.
    rewrite Hr, split_app in Hn by by repeat constructor. by apply Forall_cons in Hn as [(_ & _ & ?) _]. }
  rewrite Hroot. cbv zeta. rewrite Hclean, Hup. rewrite (bool_decide_eq_false_2 (value = "")) by done.
  rewrite (bool_decide_eq_false_2 (value = ".")) by (intros ->; by apply Forall_cons in Hn as [(_ & ? & _) _]).
  rewrite (bool_decide_eq_false_2 (value = "..")) by (intros ->; by apply Forall_cons in Hn as [(_ & _ & ?) _]).
  by rewrite (bool_decide_eq_true_2 (value = value)).
Qed.

Lemma accepted_confined value clean : normalizeRelativePath value = Ok clean -> clean = value /\ confined value.
Proof.
  unfold normalizeRelativePath. intros Hn. accepted Hn. go_bool. split; [done|]. split; [done|].
  match goal with Hr : HasPrefix value "/" = false |- _ => pose proof (Clean_relative value Hr) as Hb end.
  match goal with He : Clean value = value |- _ => rewrite He in * end. cbv zeta in Hb.
  destruct (stack_fold (split_on 47 (bytes value)) []) as (n & xs & Hout & Hx & Hs);
    [by exists 0%nat, []|apply split_on_slashless|].
  rewrite Hout in Hb, Hs. clear Hout. rewrite rev_app_distr, rev_repeat in Hb.
  assert (Hs' : Forall slashless (repeat dotdot n ++ rev xs)).
  { apply Forall_app in Hs as [Hs1 Hs2]. apply Forall_app. split; [done|]. by apply Forall_rev. }
  assert (Hx' : Forall normal (rev xs)) by by apply Forall_rev.
  destruct (join_slash (repeat dotdot n ++ rev xs)) eqn:Hj.
  { exfalso. assert (value = ".") by by apply bytes_inj. done. }
  rewrite <- Hj in Hb. rewrite Hb, split_join; [|done|by intros He; rewrite He in Hj].
  destruct n as [|n]; [done|]. exfalso. destruct (repeat dotdot n ++ rev xs) as [|e r] eqn:Hrest.
  - assert (value = "..") by (apply bytes_inj; rewrite Hb; cbn [repeat app]; by rewrite Hrest). done.
  - assert (Hup : HasPrefix value "../" = true).
    { apply prefix_app. exists (join_slash (e :: r)). rewrite Hb. cbn [repeat app]. by rewrite Hrest. }
    congruence.
Qed.

(** ** Globs *)
(** What a glob means: [**] at the end stands for any segments; before more
    pattern it skips any segments but leaves one; any other segment is matched
    by [path.Match]. *)
Inductive matches : list string -> list string -> Prop :=
| matches_nil : matches [] []
| matches_rest cs : matches cs ["**"]
| matches_skip skipped c cs p ps :
    matches (c :: cs) (p :: ps) -> matches (skipped ++ c :: cs) ("**" :: p :: ps)
| matches_segment c cs p ps :
    p <> "**" -> Path.Match p c = true -> matches cs ps -> matches (c :: cs) (p :: ps).

Lemma suffixes_in {A} (l r : list A) : r ∈ suffixes l <-> exists skipped c cs, r = c :: cs /\ l = skipped ++ r.
Proof.
  induction l as [|x l IH]; cbn.
  - split; [by intros ?%elem_of_nil|]. by intros ([] & c & cs & -> & ?).
  - rewrite elem_of_cons, IH. split.
    + intros [->|(s & c & cs & -> & ->)]; [by exists [], x, l|by exists (x :: s), c, cs].
    + intros ([|y s] & c & cs & -> & Hl); cbn in Hl; [by left|].
      injection Hl as -> ->. right. by exists s, c, cs.
Qed.

Lemma globPartsMatch_exact pattern candidate :
  globPartsMatch candidate pattern = true <-> matches candidate pattern.
Proof.
  revert candidate. induction pattern as [|p pattern IH]; intros candidate; cbn [globPartsMatch].
  - destruct candidate; cbn; split; try done; [constructor|by inversion 1].
  - case_bool_decide as Hp; [subst p|].
    + destruct pattern as [|q qs]; [split; [constructor|done]|]. rewrite existsb_exists. split.
      * intros (r & Hr & Hm%IH). apply list_elem_of_In, suffixes_in in Hr as (s & c & cs & -> & ->).
        by constructor.
      * inversion 1 as [| |s c cs ? ? Hm|]; subst; [|done]. exists (c :: cs). split; [|by apply IH].
        apply list_elem_of_In, suffixes_in. eauto.
    + destruct candidate as [|c cs]; [split; [done|by inversion 1; subst]|].
      unfold segmentMatch. destruct (Path.Match p c) eqn:Hm; cbn [negb]; [rewrite IH|]; split; try done.
      * by constructor.
      * by inversion 1; subst.
      * inversion 1; subst; congruence.
Qed.

(** C24: A path is authorized by a glob exactly when both are confined relative
    paths (no empty, [.] or [..] segment, no NUL, no backslash, no leading
    slash, so nothing escapes the repository) and the segments of the one match
    the segments of the other. *)
Theorem path_authorized_exact path glob :
  pathMatchesGlob path glob = true <->
  confined path /\ confined glob /\ matches (split_path path) (split_path glob).
Proof.
  unfold pathMatchesGlob. change (normalizeGlob glob) with (normalizeRelativePath glob). split.
  - destruct (normalizeRelativePath path) eqn:Hp; [|done].
    destruct (normalizeRelativePath glob) eqn:Hg; [|done].
    apply accepted_confined in Hp as [-> Hp], Hg as [-> Hg]. intros Hm. split; [done|]. split; [done|].
    unfold globMatch in Hm. case_bool_decide as Hs; [subst glob; constructor|].
    by apply globPartsMatch_exact.
  - intros (Hp & Hg & Hm). rewrite !confined_accepted by done. unfold globMatch.
    case_bool_decide; [done|]. by apply globPartsMatch_exact.
Qed.

Example path_examples :
  pathMatchesGlob "src/a/main.go" "src/**" = true /\ pathMatchesGlob "src/../etc/passwd" "**" = false
  /\ pathMatchesGlob "src/main.go" "src/*.go" = true /\ pathMatchesGlob "src/a/main.go" "src/*.go" = false.
Proof. by vm_compute. Qed.
End AuthzProps.
