(* ===== verification/EventBusProps.v ===== *)
(** The event bus between a publisher and the consumers of a tenant: a published
    event is delivered to its tenant's consumers as it was stored, and to no
    other tenant's, whatever the headers of a message claim. *)

From S2P Require Import Prelude GoLib Path Trace AuthzProps Json EventStore EventStoreProps EventBus.

Module EventBusProps.
Import Trace Path AuthzProps EventStore EventBus.

(** ** Subjects *)
Notation dot := "."%char.

(** A token without wildcards or bytes that NATS does not take. *)
Definition plain_byte (c : ascii) : bool := byte_in 33 126 c && negb (any_of [42; 62; 47; 92] c).
Definition plain_token (token : list ascii) : Prop := token <> [] /\ Forall (fun c => plain_byte c = true) token.

Lemma plain_byte_none c : plain_byte c = true ->
  any_of [42; 62] c = false /\ any_of [32; 9; 13; 10; 47; 92] c = false /\ byte_in 33 126 c = true.
Proof.
  unfold plain_byte, any_of, byte_in, byte_is. cbn. intros H. split_and!; [..|by go_bool; lia].
  all: apply not_true_is_false; intros E; lia.
Qed.
Lemma none_exists {A} (f : A -> bool) l : Forall (fun x => f x = false) l -> existsb f l = false.
Proof. induction 1 as [|x l H _ IH]; cbn; [done|]. by rewrite H. Qed.

Lemma split_on_app sep c a b : byte_is sep c = true ->
  split_on sep (a ++ c :: b) = split_on sep a ++ split_on sep b.
Proof.
  intros Hc. induction a as [|x a IH]; cbn; [by rewrite Hc|]. destruct (byte_is sep x); [by rewrite IH|].
  rewrite IH. by destruct (split_on_cons sep a) as (part & parts & ->).
Qed.

Lemma split_on_none sep a : Forall (fun c => byte_is sep c = false) a -> split_on sep a = [a].
Proof. induction 1 as [|c a Hc _ IH]; [done|]. cbn. by rewrite Hc, IH. Qed.

(** The bytes of a list are separators or bytes of its parts. *)
Lemma split_on_bytes sep (P : ascii -> Prop) l :
  (forall c, byte_is sep c = true -> P c) -> Forall (Forall P) (split_on sep l) -> Forall P l.
Proof.
  intros Hs. induction l as [|c l IH]; cbn; intros H; [done|]. destruct (byte_is sep c) eqn:Hc.
  - apply Forall_cons in H as [_ H]. constructor; auto.
  - destruct (split_on_cons sep l) as (part & parts & Hp). rewrite Hp in *.
    apply Forall_cons in H as [H1 H2]. apply Forall_cons in H1 as [H0 H1].
    constructor; [done|]. apply IH. by constructor.
Qed.

Lemma dot_is c : byte_is 46 c = true -> c = dot.
Proof. exact (proj1 (byte_is_char dot c)). Qed.

Lemma contains_app sub l : contains_bytes sub l = true -> exists a b, l = a ++ sub ++ b.
Proof.
  induction l as [|c l IH]; cbn; intros H; apply orb_true_iff in H as [H|H]; try done.
  - apply prefix_app in H as [r Hr]. by exists [], r.
  - apply prefix_app in H as [r Hr]. by exists [], r.
  - destruct (IH H) as (a & b & ->). by exists (c :: a), b.
Qed.

(** An empty part shows in the split. *)
Lemma plain_parts_dots v : Forall plain_token (split_on 46 (bytes v)) ->
  HasPrefix v "." = false /\ HasSuffix v "." = false /\ Contains v ".." = false.
Proof.
  intros H. assert (Hno : forall a b, bytes v = a ++ dot :: b -> split_on 46 a <> [[]] /\ split_on 46 b <> [[]] /\
    (forall b', b = dot :: b' -> False)).
  { intros a b Hv. rewrite Hv, split_on_app in H by done. apply Forall_app in H as [Ha Hb]. split_and!.
    - intros E. rewrite E in Ha. by apply Forall_cons in Ha as [[Ha _] _].
    - intros E. rewrite E in Hb. by apply Forall_cons in Hb as [[Hb _] _].
    - intros b' ->. cbn in Hb. by apply Forall_cons in Hb as [[Hb _] _]. }
  split_and!; apply not_true_is_false; intros E.
  - apply prefix_app in E as [r Hr]. destruct (Hno [] r Hr) as (? & _). done.
  - apply prefix_app in E as [r Hr]. apply (f_equal (@rev ascii)) in Hr. rewrite rev_involutive, rev_app_distr in Hr.
    destruct (Hno (rev r) [] Hr) as (_ & ? & _). done.
  - apply contains_app in E as (a & b & Hab). destruct (Hno a (dot :: b) Hab) as (_ & _ & H3). by apply (H3 b).
Qed.

Lemma plain_token_valid token : plain_token token -> token_valid false token = true.
Proof.
  intros [Hne H]. unfold token_valid. destruct token as [|c token]; [done|]. cbn [length Nat.eqb].
  rewrite none_exists by (eapply Forall_impl; [exact H|]; intros x Hx; apply (plain_byte_none x Hx)).
  apply forallb_forall. intros x Hx%list_elem_of_In. rewrite Forall_forall in H.
  apply (plain_byte_none x), H, Hx.
Qed.

(** Subjects of plain tokens are the valid ones. *)
Lemma plain_subject v : Forall plain_token (split_on 46 (bytes v)) -> validNATSSubject v false = true.
Proof.
  intros H. pose proof (plain_parts_dots v H) as (H1 & H2 & H3). unfold validNATSSubject. rewrite H1, H2, H3.
  rewrite (none_exists _ (bytes v)).
  - rewrite bool_decide_eq_false_2; [|by intros ->; apply Forall_cons in H as [[H _] _]].
    apply forallb_forall. intros t Ht%list_elem_of_In. apply plain_token_valid. rewrite Forall_forall in H.
    by apply H.
  - apply (split_on_bytes 46); [by intros c ->%dot_is|]. eapply Forall_impl; [exact H|]. intros t [_ Ht].
    eapply Forall_impl; [exact Ht|]. intros c Hc. apply (plain_byte_none c Hc).
Qed.

Lemma split_on_parts sep (P : ascii -> Prop) l : Forall P l -> Forall (Forall P) (split_on sep l).
Proof.
  induction 1 as [|c l Hc _ IH]; cbn; [by repeat constructor|]. destruct (byte_is sep c); [by constructor|].
  destruct (split_on_cons sep l) as (part & parts & Hp). rewrite Hp in *.
  apply Forall_cons in IH as [? ?]. by repeat constructor.
Qed.

Lemma exists_none {A} (f : A -> bool) l : existsb f l = false -> Forall (fun x => f x = false) l.
Proof. induction l as [|x l IH]; cbn; intros H; [constructor|]. go_bool. constructor; auto. Qed.

Lemma subject_plain v : validNATSSubject v false = true -> Forall plain_token (split_on 46 (bytes v)).
Proof.
  unfold validNATSSubject. intros H. guards H. go_bool.
  match goal with G : existsb _ (bytes v) = false |- _ => apply exists_none, (split_on_parts 46) in G; rename G into Hws end.
  rewrite forallb_forall in H. rewrite Forall_forall in Hws |- *. intros t Ht. specialize (H t (proj1 (list_elem_of_In _ _) Ht)).
  specialize (Hws t Ht). unfold token_valid in H. guards H. split; [by destruct t|].
  cbn [negb orb] in *. rewrite andb_true_r in *. rewrite forallb_forall in H.
  match goal with G : existsb _ t = false |- _ => apply exists_none in G; rename G into Hwild end.
  rewrite Forall_forall in Hws, Hwild |- *. intros c Hc. specialize (H c (proj1 (list_elem_of_In _ _) Hc)).
  specialize (Hws c Hc). specialize (Hwild c Hc). unfold plain_byte. cbn in Hws, Hwild |- *. go_bool.
  rewrite H. apply negb_true_iff. by rewrite !orb_false_iff.
Qed.

Definition dotless (token : list ascii) : Prop := Forall (fun c => byte_is 46 c = false) token.

Lemma token_plain value : validNATSToken value = true -> plain_token (bytes value) /\ dotless (bytes value).
Proof.
  unfold validNATSToken. intros H. guards H. go_bool.
  match goal with G : existsb _ (bytes value) = false |- _ => apply exists_none in G; rename G into Hw end.
  rewrite forallb_forall in H. unfold plain_token, dotless. rewrite !Forall_forall in *. split_and!.
  - intros E. apply (f_equal of_bytes) in E. rewrite of_bytes_bytes in E. by subst.
  - intros c Hc. specialize (H c (proj1 (list_elem_of_In _ _) Hc)). specialize (Hw c Hc). unfold plain_byte.
    rewrite H. cbn in Hw |- *. go_bool. apply negb_true_iff. by rewrite !orb_false_iff.
  - intros c Hc. specialize (Hw c Hc). cbn in Hw. by go_bool.
Qed.

(** The first token of two equal dotted lists is the same. *)
Lemma dotless_inj a b x y : dotless a -> dotless b -> a ++ dot :: x = b ++ dot :: y -> a = b.
Proof.
  intros Ha. revert b. induction Ha as [|c a Hc Ha IH]; intros [|d b] Hb H; [done|..]; injection H as H1 H2; subst.
  - by apply Forall_cons in Hb as [Hb _].
  - by vm_compute in Hc.
  - f_equal. apply Forall_cons in Hb as [_ Hb]. by apply (IH b).
Qed.

(** ** Deliveries *)
Section Bus.
Context (jcs_Transform : string -> option string) (sha256_Sum256 : string -> list Z).
Context (url_Scheme : string -> option string) (unmarshal_data : string -> option event_data).
Context (marshal_event : CE.Event -> option string) (unmarshal_event : string -> option CE.Event).
Context (MsgIdHdr : string).
Notation Validate := (Validate url_Scheme unmarshal_data).
Notation Externalize := (Externalize jcs_Transform sha256_Sum256 url_Scheme unmarshal_data).
Notation message_of := (message_of jcs_Transform sha256_Sum256 url_Scheme unmarshal_data marshal_event MsgIdHdr).
Notation decodeJetStreamDelivery := (decodeJetStreamDelivery url_Scheme unmarshal_data unmarshal_event MsgIdHdr).

Lemma subject_bytes b ty T : bytes (subject b ty T) =
  bytes (b_subjectPrefix b) ++ dot :: bytes T ++ dot :: bytes (if ty ≟ "" then "event" else ty).
Proof. unfold subject. rewrite !bytes_concat. done. Qed.
Lemma tenant_prefix_bytes p T : bytes (tenant_prefix p T) = bytes p ++ dot :: bytes T ++ [dot].
Proof. unfold tenant_prefix. rewrite !bytes_concat. done. Qed.

Lemma subject_tenant b ty T T' : validNATSToken T = true -> validNATSToken T' = true ->
  HasPrefix (subject b ty T) (tenant_prefix (b_subjectPrefix b) T') = true -> T' = T.
Proof.
  intros [_ HT]%token_plain [_ HT']%token_plain [r Hr]%prefix_app. apply bytes_inj.
  rewrite subject_bytes, tenant_prefix_bytes, <- app_assoc in Hr. apply app_inv_head in Hr.
  injection Hr as Hr. rewrite <- app_assoc in Hr. by apply (dotless_inj _ _ _ _ HT' HT (eq_sym Hr)).
Qed.

(** C40: A tenant's consumers take nothing from another tenant's subjects: a message
    on a subject that the bus builds for [tenantID] is refused for every other
    tenant, whatever its headers and its data say. *)
Theorem tenant_isolated b aggregateType tenantID message T delivery :
  validNATSToken tenantID = true -> i_Subject message = subject b aggregateType tenantID ->
  decodeJetStreamDelivery (Some message) (b_subjectPrefix b) T = Ok delivery ->
  T = tenantID /\ dl_TenantID delivery = tenantID.
Proof.
  intros HT Hs H. unfold EventBus.decodeJetStreamDelivery in H. accepted H. subst. go_bool.
  rewrite Hs in *. assert (T = tenantID) as -> by (by eapply subject_tenant). done.
Qed.

(** What a bus takes for granted of its prefix. *)
Lemma new_bus_prefix stream source prefix b : NewJetStreamEventBus stream source prefix = Ok b ->
  Forall plain_token (split_on 46 (bytes (b_subjectPrefix b))).
Proof. unfold NewJetStreamEventBus. cbv zeta. intros H. accepted H. go_bool. by apply subject_plain. Qed.

Lemma plain_aggregate ty : In ty ("task" :: "agent_run" :: "agent-run" :: "audit" :: "approval" :: plain_aggregates) ->
  plain_token (bytes (if ty ≟ "" then "event" else ty)) /\ dotless (bytes (if ty ≟ "" then "event" else ty)).
Proof.
  intros H. unfold plain_token, dotless.
  repeat (destruct H as [<-|H]; [split_and!; [discriminate|..]; repeat constructor|]). destruct H.
Qed.

Lemma scope_aggregate event o sc : scope_of event o = Ok sc ->
  In (e_AggregateType event) ("task" :: "agent_run" :: "agent-run" :: "audit" :: "approval" :: plain_aggregates).
Proof.
  unfold scope_of. intros H. cbv zeta in H.
  set (ty := e_AggregateType event) in *.
  destruct (ty ≟ "task") eqn:E1; [go_bool; rewrite E1; unfold In; tauto|].
  destruct ((ty ≟ "agent_run") || _) eqn:E2.
  { apply orb_true_iff in E2 as [E2|E2]; go_bool; rewrite E2; unfold In; tauto. }
  destruct (ty ≟ "audit") eqn:E3; [go_bool; rewrite E3; unfold In; tauto|].
  destruct (ty ≟ "approval") eqn:E4; [go_bool; rewrite E4; unfold In; tauto|].
  destruct (existsb _ plain_aggregates) eqn:E; [|discriminate].
  apply existsb_exists in E as (x & Hx & E). go_bool. rewrite E. by do 5 right.
Qed.

(** A built subject names the tenant's namespace and something in it. *)
Lemma subject_valid b ty T : Forall plain_token (split_on 46 (bytes (b_subjectPrefix b))) ->
  validNATSToken T = true ->
  In ty ("task" :: "agent_run" :: "agent-run" :: "audit" :: "approval" :: plain_aggregates) ->
  validNATSSubject (subject b ty T) false = true /\
  HasPrefix (subject b ty T) (tenant_prefix (b_subjectPrefix b) T) = true /\
  (len (subject b ty T) =? len (tenant_prefix (b_subjectPrefix b) T)) = false.
Proof.
  intros Hp [HT HTd]%token_plain [Hty Htyd]%plain_aggregate. split_and!.
  - apply plain_subject. rewrite subject_bytes, !split_on_app, (split_on_none _ _ HTd), (split_on_none _ _ Htyd) by done.
    apply Forall_app. split; [done|]. apply Forall_cons. split; [done|]. by apply Forall_singleton.
  - apply prefix_app. exists (bytes (if ty ≟ "" then "event" else ty)).
    rewrite subject_bytes, tenant_prefix_bytes, <- app_assoc. cbn. by rewrite <- app_assoc.
  - apply Z.eqb_neq. destruct Hty as [Hne _]. unfold len. rewrite <- !length_bytes, subject_bytes, tenant_prefix_bytes.
    rewrite !length_app. cbn. rewrite !length_app. cbn.
    destruct (bytes (if ty ≟ "" then "event" else ty)); [done|]. cbn. lia.
Qed.

(** A message as the broker hands it on: the subject, the data and the headers
    set on it, nothing under another name. *)
Record carried (message : Outgoing) (i : Incoming) : Prop := {
  ca_subject : i_Subject i = g_Subject message;
  ca_data : i_Data i = g_Data message;
  ca_header : forall key value, (key, value) ∈ g_Header message -> i_Get i key = value;
  ca_other : forall key, key ∉ (g_Header message).*1 -> i_Get i key = ""
}.

(** The JSON of an envelope decodes to it, but for the bytes of its data, which
    decode to the same fields. *)
Definition json_preserves (e : CE.Event) (data : string) : Prop :=
  exists payload, marshal_event e = Some payload /\ unmarshal_event payload = Some (e ⟦ CE.Data := data ⟧) /\
    unmarshal_data data = unmarshal_data (CE.Data e).

Lemma validate_data e data : unmarshal_data data = unmarshal_data (CE.Data e) ->
  Validate (e ⟦ CE.Data := data ⟧) = Validate e.
Proof. intros H. unfold EventBus.Validate, data_bad. cbn. by rewrite H. Qed.

Definition envelope_of (event : DomainEvent) (source : string) : result CE.Event bus_error :=
  Externalize event (mkOptions source "" "" "" "" "" "").

Lemma externalized event o external : Externalize event o = Ok external ->
  is_ok (Validate external) = true /\
  In (e_AggregateType event) ("task" :: "agent_run" :: "agent-run" :: "audit" :: "approval" :: plain_aggregates) /\
  CE.ID external = e_EventID event /\ CE.Type_ external = e_Type event /\ CE.Time external = e_OccurredAt event /\
  CE.ProjectID external = e_ProjectID event /\ CE.Data external = e_Payload event /\
  CE.Traceparent external = o_Traceparent (with_event event o) /\
  CE.Tracestate external = o_Tracestate (with_event event o).
Proof.
  unfold EventBus.Externalize. cbv zeta. intros H. accepted H. go_bool.
  match goal with G : scope_of _ _ = Ok _ |- _ => apply scope_aggregate in G end.
  split_and!; try done. apply EventStoreProps.cloneJSON_id.
Qed.

Lemma message_parts b event m : message_of b event = Ok m ->
  validNATSToken (e_TenantID event) = true /\
  exists external, envelope_of event (b_source b) = Ok external /\ marshal_event external = Some (g_Data m) /\
    g_Subject m = subject b (e_AggregateType event) (e_TenantID event) /\
    g_Header m = [(MsgIdHdr, e_EventID event); (tenantHeader, e_TenantID event);
                  (traceparentHeader, CE.Traceparent external)]
                 ++ (if CE.Tracestate external ≠? "" then [(tracestateHeader, CE.Tracestate external)] else []).
Proof.
  unfold EventBus.message_of, envelope_of. intros H. accepted H. go_bool. split; [done|].
  eexists. split_and!; try done.
Qed.

(** The headers of a carried message are those of its envelope. *)
Lemma carried_headers (event : DomainEvent) m (external : CE.Event) i : MsgIdHdr <> tracestateHeader -> carried m i ->
  g_Header m = [(MsgIdHdr, e_EventID event); (tenantHeader, e_TenantID event);
                (traceparentHeader, CE.Traceparent external)]
               ++ (if CE.Tracestate external ≠? "" then [(tracestateHeader, CE.Tracestate external)] else []) ->
  i_Get i MsgIdHdr = e_EventID event /\ i_Get i tenantHeader = e_TenantID event /\
  i_Get i traceparentHeader = CE.Traceparent external /\ i_Get i tracestateHeader = CE.Tracestate external.
Proof.
  intros Hid [_ _ Hh Ho] Hm. rewrite Hm in Hh, Ho. split_and!; [by apply Hh; cbn; set_solver..|].
  destruct (CE.Tracestate external ≠? "") eqn:E; go_bool; cbn in Hh, Ho; [apply Hh; set_solver|].
  rewrite E. apply Ho. intros Hin. repeat (apply elem_of_cons in Hin as [Hin|Hin]; [by try apply Hid|]).
  by apply not_elem_of_nil in Hin.
Qed.

(** C11: A published event is delivered.  A message the bus makes of a stored event,
    handed on by the broker, is decoded by a consumer of the event's tenant into
    the event's envelope: its identity, type, time, project and trace are those
    stored, and its data decodes to the stored payload's.  A consumer of any
    other tenant refuses it. *)
Theorem published_delivered stream source prefix b event m i data attempt :
  NewJetStreamEventBus stream source prefix = Ok b -> message_of b event = Ok m ->
  MsgIdHdr <> tracestateHeader -> carried m i -> i_NumDelivered i = Some attempt ->
  (forall external, envelope_of event (b_source b) = Ok external -> json_preserves external data) ->
  exists external,
    CE.ID external = e_EventID event /\ CE.Type_ external = e_Type event /\ CE.Time external = e_OccurredAt event /\
    CE.ProjectID external = e_ProjectID event /\ CE.Traceparent external = e_Traceparent event /\
    CE.Tracestate external = e_Tracestate event /\ CE.Data external = data /\
    unmarshal_data data = unmarshal_data (e_Payload event) /\
    forall T, decodeJetStreamDelivery (Some i) (b_subjectPrefix b) T =
      if T ≟ e_TenantID event
      then Ok (mkDelivery external T (subject b (e_AggregateType event) T) attempt)
      else Err ErrJetStreamEnvelope.
Proof.
  intros Hb Hm Hid Hc Hn Hj. destruct (message_parts _ _ _ Hm) as (Htok & external & Hx & Hd & Hs & Hh).
  destruct (Hj external Hx) as (payload & Hp & Hu & Hdata). assert (payload = g_Data m) as -> by congruence.
  destruct (carried_headers event m external i Hid Hc Hh) as (H1 & H2 & H3 & H4).
  destruct (externalized _ _ _ Hx) as (Hok & Hty & E1 & E2 & E3 & E4 & E5 & E6 & E7).
  destruct (subject_valid b _ _ (new_bus_prefix _ _ _ _ Hb) Htok Hty) as (S1 & S2 & S3).
  exists (external ⟦ CE.Data := data ⟧). split_and!; try done; [congruence|].
  intros T. unfold EventBus.decodeJetStreamDelivery. rewrite (ca_subject _ _ Hc), Hs, H2, (ca_data _ _ Hc), Hn.
  destruct (decide (T = e_TenantID event)) as [->|HT].
  - rewrite Htok, S1, S2, S3, Hu, !(bool_decide_eq_true_2 (e_TenantID event = _)) by done. cbn [negb orb].
    rewrite validate_data, Hok by done.
    change (CE.ID (external ⟦ CE.Data := data ⟧)) with (CE.ID external).
    change (CE.Traceparent (external ⟦ CE.Data := data ⟧)) with (CE.Traceparent external).
    change (CE.Tracestate (external ⟦ CE.Data := data ⟧)) with (CE.Tracestate external).
    rewrite H1, H3, H4, E1, !bool_decide_eq_true_2 by done. reflexivity.
  - rewrite !(bool_decide_eq_false_2 (_ = _)) by congruence. cbn [negb]. repeat case_match; done.
Qed.
End Bus.

(** ** Example: a task's event between a bus and the consumers of its tenant *)
Notation sample_jcs := EventStoreProps.demo_jcs.
Notation sample_sha256 := EventStoreProps.demo_sha256.
Definition sample_scheme (_ : string) : option string := Some "https".
Definition sample_data (_ : string) : option event_data := Some (mkData "P" 4).
Definition sample_trace : string := "00-00000000000000000000000000000001-0000000000000001-01".
Definition sample_event : DomainEvent :=
  mkDomainEvent "e4" "tn" "P" "task" "T1" 4 "io.aor.module.integrated.v1" "{}" EventStoreProps.demo_digest 5
    "" "" sample_trace "k=v" "" "" "" "" "{}" EventStoreProps.demo_digest.
Definition sample_external : CE.Event :=
  CE.mk "1.0" "e4" "urn:aor" "io.aor.module.integrated.v1" "projects/P/tasks/T1" 5 "application/json"
    "https://schemas.aor.local/events/module-integrated.v1.schema.json" sample_trace "k=v" "P" "T1" "" ""
    "NOT_CREATED" "{}".
Definition sample_marshal (_ : CE.Event) : option string := Some "envelope".
Definition sample_unmarshal (_ : string) : option CE.Event := Some sample_external.
Definition sample_id : string := "Nats-Msg-Id".
Definition sample_bus : JetStreamEventBus := mkBus "EVENTS" "urn:aor" "aor.events".
Definition sample_header : list (string * string) :=
  [(sample_id, "e4"); (tenantHeader, "tn"); (traceparentHeader, sample_trace); (tracestateHeader, "k=v")].
Definition sample_message : Outgoing := mkOutgoing "aor.events.tn.task" "envelope" sample_header.
Definition sample_get (key : string) : string :=
  match list_find (fun kv => kv.1 = key) sample_header with Some (_, kv) => kv.2 | None => "" end.
Definition sample_incoming : Incoming := mkIncoming "aor.events.tn.task" "envelope" sample_get (Some 1).

Lemma sample_carried : carried sample_message sample_incoming.
Proof.
  split; [done|done|..].
  - intros key value H. cbn in H. repeat (apply elem_of_cons in H as [[= -> ->]|H]; [by vm_compute|]).
    by apply not_elem_of_nil in H.
  - intros key H. cbn. unfold sample_get. destruct (list_find _ sample_header) as [[n kv]|] eqn:E; [|done].
    exfalso. apply H. apply list_find_Some in E as (E & <- & _). apply list_elem_of_fmap. exists kv. split; [done|].
    by eapply list_elem_of_lookup_2.
Qed.

Notation sample_decode := (decodeJetStreamDelivery sample_scheme sample_data sample_unmarshal sample_id
  (Some sample_incoming) "aor.events").

Lemma published_delivered_witness :
  message_of sample_jcs sample_sha256 sample_scheme sample_data sample_marshal sample_id sample_bus sample_event
    = Ok sample_message /\
  sample_decode "tn" = Ok (mkDelivery sample_external "tn" "aor.events.tn.task" 1) /\
  sample_decode "other" = Err ErrJetStreamEnvelope.
Proof.
  assert (Hb : NewJetStreamEventBus "EVENTS" "urn:aor" "" = Ok sample_bus) by (vm_compute; reflexivity).
  assert (Hm : message_of sample_jcs sample_sha256 sample_scheme sample_data sample_marshal sample_id sample_bus
    sample_event = Ok sample_message) by (vm_compute; reflexivity).
  assert (Hx : envelope_of sample_jcs sample_sha256 sample_scheme sample_data sample_event "urn:aor" = Ok sample_external)
    by (vm_compute; reflexivity).
  assert (Hj : forall external, envelope_of sample_jcs sample_sha256 sample_scheme sample_data sample_event
    (b_source sample_bus) = Ok external -> json_preserves sample_data sample_marshal sample_unmarshal external "{}").
  { intros external E. change (b_source sample_bus) with "urn:aor" in E. rewrite Hx in E. injection E as <-.
    exists "envelope". split_and!; reflexivity. }
  assert (Hid : sample_id <> tracestateHeader) by (intros E; vm_compute in E; discriminate E).
  destruct (published_delivered sample_jcs sample_sha256 sample_scheme sample_data sample_marshal sample_unmarshal
    sample_id "EVENTS" "urn:aor" "" sample_bus sample_event sample_message sample_incoming "{}" 1 Hb Hm Hid
    sample_carried eq_refl Hj) as (external & _ & _ & _ & _ & _ & _ & _ & _ & H).
  split; [exact Hm|]. split; [|exact (H "other")].
  vm_compute. reflexivity.
Defined.

Lemma tenant_isolated_witness : exists delivery, sample_decode "tn" = Ok delivery /\ dl_TenantID delivery = "tn".
Proof.
  assert (Hd : sample_decode "tn" = Ok (mkDelivery sample_external "tn" "aor.events.tn.task" 1)) by (vm_compute; reflexivity).
  exists (mkDelivery sample_external "tn" "aor.events.tn.task" 1). split; [exact Hd|].
  exact (proj2 (tenant_isolated sample_scheme sample_data sample_unmarshal sample_id sample_bus "task" "tn" sample_incoming
    "tn" _ eq_refl eq_refl Hd)).
Defined.
End EventBusProps.
