(* ===== verification/Lease.v ===== *)
(** Capability leases ([internal/authz/lease.go], [lease_tenant.go]): the signed
    lease record and its expiry, the signer interface and its HMAC
    implementation, the in-memory lease store, and the lease manager's
    operations.

    Each manager operation reads the store once and then, if all its checks
    pass, writes it once by a compare-and-swap on the fencing token; between
    the two other operations may run.  An operation therefore takes the store
    it reads and the store it writes; a call alone in the process has both
    equal.  The readings of clocks, generated identifiers and the context are
    arguments.  [json_Marshal] is the encoding of the signing view and
    [hmac_SHA256] the keyed hash; a manager is one that [NewLeaseManager]
    returned, so the guards against nil receivers are not modelled. *)

From S2P Require Import Prelude GoLib Trace Errors Contracts Path Authz.

Module Lease.
Import Authz.

Abbreviation LeaseState := string (only parsing).
Definition LeaseActive : LeaseState := "ACTIVE".
Definition LeaseRevoked : LeaseState := "REVOKED".
Definition LeaseExpired : LeaseState := "EXPIRED".

Record CapabilityLease : Type := mkLease {
  l_ID : string;
  l_IdempotencyKey : string;
  l_AgentInstanceID : string;
  l_PrincipalID : string;
  l_PrincipalType : PrincipalType;
  l_TenantID : string;
  l_ProjectID : string;
  l_ProjectVersion : Z;
  l_TaskID : string;
  l_TaskVersion : Z;
  l_SpecDigest : string;
  l_Role : string;
  l_Action : string;
  l_Resource : Resource;
  l_ParameterDigest : string;
  l_Capabilities : list string;
  l_IssuedAt : time;
  l_ExpiresAt : time;
  l_LastHeartbeatAt : time;
  l_HeartbeatIntervalSeconds : Z;
  l_PolicyVersion : string;
  l_BudgetAccountID : string;
  l_Nonce : string;
  l_FencingToken : Z;
  l_State : LeaseState;
  l_RevokedAt : option time;
  l_Signature : string
}.

#[global] Instance eta_lease : Eta CapabilityLease := fun l => mkLease
  (l_ID l) (l_IdempotencyKey l) (l_AgentInstanceID l) (l_PrincipalID l) (l_PrincipalType l)
  (l_TenantID l) (l_ProjectID l) (l_ProjectVersion l) (l_TaskID l) (l_TaskVersion l)
  (l_SpecDigest l) (l_Role l) (l_Action l) (l_Resource l) (l_ParameterDigest l) (l_Capabilities l)
  (l_IssuedAt l) (l_ExpiresAt l) (l_LastHeartbeatAt l) (l_HeartbeatIntervalSeconds l)
  (l_PolicyVersion l) (l_BudgetAccountID l) (l_Nonce l) (l_FencingToken l) (l_State l)
  (l_RevokedAt l) (l_Signature l).

#[export] Instance CapabilityLease_eq_dec : EqDecision CapabilityLease.
Proof. solve_decision. Defined.

Definition Reference (lease : CapabilityLease) : LeaseReference :=
  mkLeaseReference (l_ID lease) (l_ExpiresAt lease) (l_PolicyVersion lease) (l_FencingToken lease).

Definition isOperationLease (lease : CapabilityLease) : bool :=
  HasPrefix (l_IdempotencyKey lease) "runtime-operation-" && (rs_Path (l_Resource lease) ≠? "")
  && ((l_Action lease ≟ ActionModelGenerate) || (l_Action lease ≟ ActionToolInvoke)).

(** [3*time.Duration(seconds)*time.Second]. *)
Definition heartbeat_window (seconds : Z) : duration := wrap64 (wrap64 (3 * seconds) * Second).

Definition IsExpired (lease : CapabilityLease) (now : time) : bool :=
  if IsZero (l_ExpiresAt lease) || negb (Before now (l_ExpiresAt lease)) then true else
  if isOperationLease lease then false else
  (0 <? l_HeartbeatIntervalSeconds lease) && negb (IsZero (l_LastHeartbeatAt lease))
  && negb (Before now (Add (l_LastHeartbeatAt lease) (heartbeat_window (l_HeartbeatIntervalSeconds lease)))).

(** ** Helpers *)
Fixpoint containsString (values : list string) (expected : string) : bool :=
  match values with
  | [] => false
  | value :: values => if value ≟ expected then true else containsString values expected
  end.

Definition validLeasePrincipalBinding (action : string) (principalType : PrincipalType)
    (role : string) : bool :=
  if action ≟ ActionKnowledgeWrite then
    (principalType ≟ PrincipalKnowledgeCurator) && (role ≟ RoleKnowledgeCurator)
  else if action ≟ ActionArtifactPublish then
    (principalType ≟ PrincipalService) && (role ≟ RoleService)
  else true.

(** The loop asks [right] for each key of [left]; a missing key reads as "". *)
Definition resourcesEqual (left right : Resource) : bool :=
  if (rs_Type left ≠? rs_Type right) || (rs_ID left ≠? rs_ID right) || (rs_Path left ≠? rs_Path right)
     || negb (Nat.eqb (size (rs_Attributes left)) (size (rs_Attributes right)))
  then false else
  negb (any_entry (fun key value => default "" (rs_Attributes right !! key) ≠? value)
          (rs_Attributes left)).

Definition decisionBindingsEqual (left right : DecisionBinding) : bool :=
  (db_PrincipalID left ≟ db_PrincipalID right) && (db_TenantID left ≟ db_TenantID right)
  && (db_ProjectID left ≟ db_ProjectID right) && (db_ProjectVersion left =? db_ProjectVersion right)
  && (db_TaskID left ≟ db_TaskID right) && (db_TaskVersion left =? db_TaskVersion right)
  && (db_SpecDigest left ≟ db_SpecDigest right) && (db_Role left ≟ db_Role right)
  && (db_Action left ≟ db_Action right) && resourcesEqual (db_Resource left) (db_Resource right)
  && (db_ParameterDigest left ≟ db_ParameterDigest right)
  && (db_BudgetAccountID left ≟ db_BudgetAccountID right).

(** Copies of maps, slices and pointed-to times: the same values. *)
Definition cloneStringMap (input : gmap string string) : gmap string string :=
  if Nat.eqb (size input) 0 then ∅ else input.
Definition cloneResource (r : Resource) : Resource :=
  mkResource (rs_Type r) (rs_ID r) (rs_Path r) (cloneStringMap (rs_Attributes r)).
Definition cloneLease (lease : CapabilityLease) : CapabilityLease :=
  lease ⟦ l_Capabilities := copy_slice (l_Capabilities lease) ⟧
        ⟦ l_Resource := cloneResource (l_Resource lease) ⟧.

(** All the text of a lease that must be free of control characters. *)
Definition lease_text (lease : CapabilityLease) : string :=
  l_ID lease +:+ l_IdempotencyKey lease +:+ l_AgentInstanceID lease +:+ l_PrincipalID lease
  +:+ l_ProjectID lease +:+ l_TaskID lease +:+ l_Role lease +:+ l_Action lease
  +:+ l_ParameterDigest lease +:+ l_PolicyVersion lease +:+ l_BudgetAccountID lease +:+ l_Nonce lease.

Definition ValidateShape (lease : CapabilityLease) : option Error :=
  let denied := scoped CodePolicyDenied "lease" in
  first_error [
    (if (l_ID lease ≟ "") || (l_AgentInstanceID lease ≟ "") || (l_PrincipalID lease ≟ "")
        || (l_TenantID lease ≟ "") || (l_ProjectID lease ≟ "") || (l_ProjectVersion lease <? 0)
        || negb (validLeaseScopeBinding (l_Action lease) (l_Role lease) (l_TaskID lease)
                   (l_TaskVersion lease) (l_SpecDigest lease))
        || (l_Role lease ≟ "") || negb (leaseActionAllowed (l_Action lease) (l_Role lease) (l_TaskID lease))
        || negb (validLeasePrincipalBinding (l_Action lease) (l_PrincipalType lease) (l_Role lease))
        || resourceEmpty (l_Resource lease) || (l_ParameterDigest lease ≟ "")
        || (l_PolicyVersion lease ≟ "") || (l_BudgetAccountID lease ≟ "") || (l_Nonce lease ≟ "")
        || (l_FencingToken lease <? 1) || (l_State lease ≟ "") || IsZero (l_IssuedAt lease)
        || IsZero (l_ExpiresAt lease) || IsZero (l_LastHeartbeatAt lease)
        || (l_HeartbeatIntervalSeconds lease <=? 0) || (300 <? l_HeartbeatIntervalSeconds lease)
        || Nat.eqb (length (l_Capabilities lease)) 0 || Nat.ltb 64 (length (l_Capabilities lease))
        || negb (containsString (l_Capabilities lease) (l_Action lease))
     then Some denied else None);
    (if (l_PrincipalType lease ≟ "") || negb (After (l_ExpiresAt lease) (l_IssuedAt lease))
        || Before (l_LastHeartbeatAt lease) (l_IssuedAt lease)
        || After (l_LastHeartbeatAt lease) (l_ExpiresAt lease)
     then Some denied else None);
    (if negb (digestPattern (l_ParameterDigest lease)) || negb (digestPattern (l_Nonce lease))
     then Some (scoped CodePolicyDenied "lease digest") else None);
    (if negb (forallb (fun c => safeOpaque c 128) (l_Capabilities lease))
     then Some (scoped CodePolicyDenied "lease capabilities") else None);
    (if (rs_Path (l_Resource lease) ≠? "") && negb (is_ok (normalizeRelativePath (rs_Path (l_Resource lease))))
     then Some (New CodeUnauthorizedPath "" ∅) else None);
    (if (l_State lease ≠? LeaseActive) && (l_State lease ≠? LeaseRevoked) && (l_State lease ≠? LeaseExpired)
     then Some denied else None);
    (if ((l_IdempotencyKey lease ≠? "")
          && ((256 <? len (l_IdempotencyKey lease)) || (TrimSpace (l_IdempotencyKey lease) ≠? l_IdempotencyKey lease)))
        || has_control (lease_text lease)
     then Some denied else None)].

(** ** Signers *)
(** [leaseSigningView]: every field of the lease but its signature. *)
Record leaseSigningView : Type := mkSigningView { signed : CapabilityLease }.
Definition signing_view (lease : CapabilityLease) : leaseSigningView :=
  mkSigningView (cloneLease lease ⟦ l_Signature := "" ⟧).

(** The interface: a payload is its bytes. *)
Class Signer : Type := {
  Sign : string -> result string Error;
  Verify : string -> string -> option Error
}.

(** What the lease manager relies on. *)
Class SignerLaws `{Signer} : Prop := {
  verify_sign : forall payload signature, Sign payload = Ok signature -> Verify payload signature = None
}.

Section HMAC.
Context (hmac_SHA256 : list ascii -> string -> list Z).

Definition NewHMACSigner (key : list ascii) : result (list ascii) Error :=
  if Nat.ltb (length key) 32 then Err (scoped CodeInvalidArgument "signing key")
  else Ok (copy_slice key).

Definition HMACSigner_Sign (key : list ascii) (payload : string) : result string Error :=
  if Nat.ltb (length key) 32 then Err (New CodeInternalError "" ∅)
  else Ok ("hmac-sha256:" +:+ of_bytes (Trace.hex_encode (hmac_SHA256 key payload))).

Definition HMACSigner_Verify (key : list ascii) (payload signature : string) : option Error :=
  let unauthorized := New CodeUnauthorized "" ∅ in
  if Nat.ltb (length key) 32 || negb (HasPrefix signature "hmac-sha256:") then Some unauthorized else
  match Trace.hex_decode (bytes (TrimPrefix signature "hmac-sha256:")) with
  | None => Some unauthorized
  | Some decoded =>
      if negb (Nat.eqb (length decoded) 32) then Some unauthorized else
      if hmac_SHA256 key payload ≠? decoded then Some unauthorized else None
  end.

Definition HMACSigner (key : list ascii) : Signer :=
  {| Sign := HMACSigner_Sign key; Verify := HMACSigner_Verify key |}.
End HMAC.

(** ** Contexts *)
Record context : Type := mkContext {
  ctx_Err : option string;
  ctx_lease_tenant : string;
  ctx_principal : option Principal;
  ctx_authorization_time : time
}.

#[global] Instance eta_context : Eta context := fun c =>
  mkContext (ctx_Err c) (ctx_lease_tenant c) (ctx_principal c) (ctx_authorization_time c).

Definition PrincipalFromContext (ctx : context) : option Principal :=
  match ctx_principal ctx with
  | Some principal => if is_nil (Principal_Validate principal) then Some principal else None
  | None => None
  end.

Definition withLeaseTenant (ctx : context) (tenantID : string) : context :=
  if tenantID ≟ "" then ctx else ctx ⟦ ctx_lease_tenant := tenantID ⟧.

Definition leaseTenantID (ctx : context) : string :=
  if ctx_lease_tenant ctx ≠? "" then ctx_lease_tenant ctx else
  match PrincipalFromContext ctx with Some principal => pr_TenantID principal | None => "" end.

Definition leaseAuthorizationTime (ctx : context) (fallback : time) : time :=
  if negb (IsZero (ctx_authorization_time ctx)) then UTC (ctx_authorization_time ctx) else UTC fallback.

(** ** The store *)
(** Errors: the package's (a wrapped cause is not kept), the context's, and the
    identifier generator's. *)
Inductive lease_error : Type :=
| Coded (err : Error)
| ContextErr (err : string)
| GeneratorErr (err : string).

Abbreviation MemoryLeaseStore := (gmap string CapabilityLease) (only parsing).
Definition NewMemoryLeaseStore : MemoryLeaseStore := ∅.

Definition Put (ctx : context) (lease : CapabilityLease) (s : MemoryLeaseStore)
    : result MemoryLeaseStore lease_error :=
  match ctx_Err ctx with Some e => Err (ContextErr e) | None =>
  reject Coded (New CodeConflict "" ∅) when negb (is_nil (s !! l_ID lease)) ;;
  reject Coded (New CodeConflict "" ∅) when
    (l_IdempotencyKey lease ≠? "")
    && existsb (fun kv => (l_TenantID (snd kv) ≟ l_TenantID lease)
          && (l_PrincipalID (snd kv) ≟ l_PrincipalID lease)
          && (l_IdempotencyKey (snd kv) ≟ l_IdempotencyKey lease)) (map_to_list s) ;;
  Ok (<[l_ID lease := cloneLease lease]> s)
  end.

Definition Get (ctx : context) (id : string) (s : MemoryLeaseStore)
    : result (option CapabilityLease) lease_error :=
  match ctx_Err ctx with Some e => Err (ContextErr e) | None =>
  match s !! id with
  | None => Ok None
  | Some lease =>
      if (leaseTenantID ctx ≠? "") && (l_TenantID lease ≠? leaseTenantID ctx) then Ok None
      else Ok (Some (cloneLease lease))
  end
  end.

(** [order] lists the entries of the map as the loop meets them. *)
Definition GetByIdempotency (ctx : context) (tenantID principalID key : string)
    (order : list (string * CapabilityLease)) : result (option CapabilityLease) lease_error :=
  reject Coded (New CodeInvalidArgument "" ∅) when
    (tenantID ≟ "") || (principalID ≟ "") || (key ≟ "") ;;
  match ctx_Err ctx with Some e => Err (ContextErr e) | None =>
  let scope := leaseTenantID ctx in
  if (scope ≠? "") && (scope ≠? tenantID) then Ok None else
  match List.find (fun kv => (l_TenantID (snd kv) ≟ tenantID)
          && (l_PrincipalID (snd kv) ≟ principalID) && (l_IdempotencyKey (snd kv) ≟ key)) order with
  | Some (_, lease) => Ok (Some (cloneLease lease))
  | None => Ok None
  end
  end.

(** The new store and whether it was swapped. *)
Definition CompareAndSwap (ctx : context) (id : string) (expected : Z)
    (replacement : CapabilityLease) (s : MemoryLeaseStore)
    : result (MemoryLeaseStore * bool) lease_error :=
  match ctx_Err ctx with Some e => Err (ContextErr e) | None =>
  match s !! id with
  | None => Ok (s, false)
  | Some current =>
      if negb (l_FencingToken current =? expected) || (l_TenantID current ≠? l_TenantID replacement)
         || (l_ID current ≠? l_ID replacement)
      then Ok (s, false)
      else Ok (<[id := cloneLease replacement]> s, true)
  end
  end.

(** ** Requests *)
Record LeaseRequest : Type := mkLeaseRequest {
  lq_ID : string;
  lq_IdempotencyKey : string;
  lq_AgentInstanceID : string;
  lq_Principal : Principal;
  lq_TenantID : string;
  lq_ProjectID : string;
  lq_ProjectVersion : Z;
  lq_TaskID : string;
  lq_TaskVersion : Z;
  lq_SpecDigest : string;
  lq_Role : string;
  lq_Action : string;
  lq_Resource : Resource;
  lq_ParameterDigest : string;
  lq_Capabilities : list string;
  lq_PolicyVersion : string;
  lq_BudgetAccountID : string;
  lq_TTL : duration;
  lq_HeartbeatInterval : duration;
  lq_Grant : PolicyDecision;
  lq_RequestDigest : string;
  lq_FencingToken : Z;
  lq_NotAfter : time
}.

Record LeaseRenewalRequest : Type := mkLeaseRenewalRequest {
  rq_LeaseID : string;
  rq_TenantID : string;
  rq_FencingToken : Z;
  rq_PrincipalID : string;
  rq_PrincipalType : PrincipalType;
  rq_Role : string;
  rq_PolicyVersion : string;
  rq_TTL : duration;
  rq_Grant : PolicyDecision;
  rq_RequestDigest : string;
  rq_PreserveFencing : bool
}.

Record LeaseHeartbeatRequest : Type := mkLeaseHeartbeatRequest {
  hq_LeaseID : string;
  hq_TenantID : string;
  hq_ProjectID : string;
  hq_TaskID : string;
  hq_PrincipalID : string;
  hq_FencingToken : Z
}.

Record LeaseRevokeRequest : Type := mkLeaseRevokeRequest {
  vq_LeaseID : string;
  vq_ProjectID : string;
  vq_TaskID : string;
  vq_Actor : Principal;
  vq_Reason : string;
  vq_RequestDigest : string
}.

Record LeaseCheck : Type := mkLeaseCheck {
  ck_LeaseID : string;
  ck_AgentInstanceID : string;
  ck_PrincipalID : string;
  ck_PrincipalType : PrincipalType;
  ck_TenantID : string;
  ck_ProjectID : string;
  ck_ProjectVersion : Z;
  ck_TaskID : string;
  ck_TaskVersion : Z;
  ck_SpecDigest : string;
  ck_Role : string;
  ck_Action : string;
  ck_Resource : Resource;
  ck_ParameterDigest : string;
  ck_PolicyVersion : string;
  ck_BudgetAccountID : string;
  ck_Capability : string;
  ck_FencingToken : Z
}.

Record LeaseManagerConfig : Type := mkLeaseManagerConfig {
  cf_DefaultTTL : duration;
  cf_MaxTTL : duration;
  cf_HeartbeatInterval : duration
}.

Record LeaseManager : Type := mkLeaseManager {
  defaultTTL : duration;
  maxTTL : duration;
  heartbeatInterval : duration
}.

(** The durations of [NewLeaseManager]; the store and signer are the section
    parameters below. *)
Definition NewLeaseManager (config : LeaseManagerConfig) : result LeaseManager Error :=
  let default := if cf_DefaultTTL config <=? 0 then 5 * Minute else cf_DefaultTTL config in
  let max := if cf_MaxTTL config <=? 0 then 15 * Minute else cf_MaxTTL config in
  let heartbeat := if cf_HeartbeatInterval config <=? 0 then 30 * Second
                   else cf_HeartbeatInterval config in
  reject scoped CodeInvalidArgument "lease ttl" when max <? default ;;
  Ok (mkLeaseManager default max heartbeat).

(** [m.now]: the injected clock, else the time source, else the wall clock. *)
Definition manager_now (clock : option time) (source : option (result time string)) (wall : time)
    : result time Error :=
  let unavailable := scoped CodeDependencyUnavailable "lease clock" in
  match clock with
  | Some now => if IsZero (UTC now) then Err unavailable else Ok (UTC now)
  | None =>
      match source with
      | Some (Err _) => Err unavailable
      | Some (Ok now) => if IsZero now then Err unavailable else Ok (UTC now)
      | None => Ok (UTC wall)
      end
  end.

(** ** The manager *)
Section Manager.
Context `{Signer} (json_Marshal : leaseSigningView -> string).
Context (m : LeaseManager).

Definition leaseSigningPayload (lease : CapabilityLease) : string := json_Marshal (signing_view lease).

Definition verify (lease : CapabilityLease) : option Error :=
  match ValidateShape lease with
  | Some e => Some e
  | None => Verify (leaseSigningPayload lease) (l_Signature lease)
  end.

Definition sign (lease : CapabilityLease) : result CapabilityLease Error :=
  match Sign (leaseSigningPayload lease) with
  | Err _ => Err (New CodeInternalError "" ∅)
  | Ok signature => Ok (lease ⟦ l_Signature := signature ⟧)
  end.

Definition lift {A} (r : result A Error) : result A lease_error :=
  match r with Ok a => Ok a | Err e => Err (Coded e) end.

(** [None] passes on; an error stops. *)
Definition check {A} (e : option Error) (k : result A Error) : result A Error :=
  match e with Some e => Err e | None => k end.

Definition validateLeaseGrant (grant : PolicyDecision) (policyVersion : string)
    (expected : DecisionBinding) (now : time) : option Error :=
  match Decision_Validate grant now with
  | Some e => Some e
  | None =>
      let denied := New CodePolicyDenied "" {["policyVersion" := AnyString policyVersion]} in
      if (pd_Decision grant ≠? DecisionAllow) || (pd_PolicyVersion grant ≠? policyVersion) then Some denied else
      match pd_Binding grant with
      | None => Some denied
      | Some binding => if negb (decisionBindingsEqual binding expected) then Some denied else None
      end
  end.

(** The statements [Issue] and [Renew] share: the requested time to live,
    capped by the grant. *)
Definition granted_ttl (ttl : duration) (grant : PolicyDecision) (policyVersion : string) (now : time)
    : result duration Error :=
  let ttl := if ttl <=? 0 then defaultTTL m else ttl in
  reject New CodePolicyDenied "" {["limit" := AnyInt (maxTTL m)]} when maxTTL m <? ttl ;;
  if IsZero (co_ExpiresAt (pd_Constraints grant)) then Ok ttl else
  let grantTTL := Sub (co_ExpiresAt (pd_Constraints grant)) now in
  reject New CodePolicyDenied "" {["policyVersion" := AnyString policyVersion]} when grantTTL <=? 0 ;;
  Ok (if grantTTL <? ttl then grantTTL else ttl).

Definition request_binding (request : LeaseRequest) : DecisionBinding :=
  mkDecisionBinding (pr_ID (lq_Principal request)) (lq_TenantID request) (lq_ProjectID request)
    (lq_ProjectVersion request) (lq_TaskID request) (lq_TaskVersion request) (lq_SpecDigest request)
    (lq_Role request) (lq_Action request) (cloneResource (lq_Resource request))
    (lq_ParameterDigest request) (lq_BudgetAccountID request).

(** The checks of [Issue] before it reads the clock. *)
Definition issue_request_error (request : LeaseRequest) : option Error :=
  let principal := lq_Principal request in
  let agent := if lq_AgentInstanceID request ≟ "" then pr_ID principal else lq_AgentInstanceID request in
  first_error [
    Principal_Validate principal;
    (if pr_ID principal ≠? agent then Some (scoped CodeForbidden "agent") else None);
    (if (lq_TenantID request ≟ "") || (lq_ProjectID request ≟ "") || (lq_ProjectVersion request <? 0)
        || negb (validLeaseScopeBinding (lq_Action request) (lq_Role request) (lq_TaskID request)
                   (lq_TaskVersion request) (lq_SpecDigest request))
        || (lq_Role request ≟ "") || (lq_Action request ≟ "")
        || negb (validLeasePrincipalBinding (lq_Action request) (pr_Type principal) (lq_Role request))
        || resourceEmpty (lq_Resource request) || negb (digestPattern (lq_ParameterDigest request))
        || (lq_PolicyVersion request ≟ "") || (lq_BudgetAccountID request ≟ "")
        || Nat.eqb (length (lq_Capabilities request)) 0 || Nat.ltb 64 (length (lq_Capabilities request))
        || negb (containsString (lq_Capabilities request) (lq_Action request))
        || ((lq_RequestDigest request ≠? "") && negb (digestPattern (lq_RequestDigest request)))
        || (lq_FencingToken request <? 0)
     then Some (scoped CodeInvalidArgument "lease") else None);
    (if (pr_TenantID principal ≠? "") && (pr_TenantID principal ≠? lq_TenantID request)
     then Some (scoped CodeForbidden "tenant") else None);
    (if (pr_ProjectID principal ≠? "") && (pr_ProjectID principal ≠? lq_ProjectID request)
     then Some (scoped CodeForbidden "project") else None);
    (if (pr_Role principal ≠? "") && (pr_Role principal ≠? lq_Role request)
     then Some (scoped CodeForbidden "role") else None);
    (if negb (leaseActionAllowed (lq_Action request) (lq_Role request) (lq_TaskID request))
     then Some (scoped CodePolicyDenied "action") else None)].

(** The time to live of an issued lease: also capped by [NotAfter]. *)
Definition issue_ttl (request : LeaseRequest) (now : time) : result duration Error :=
  ttl <-! granted_ttl (lq_TTL request) (lq_Grant request) (lq_PolicyVersion request) now ;;
  if IsZero (lq_NotAfter request) then Ok ttl else
  let remaining := Sub (lq_NotAfter request) now in
  reject New CodeLeaseExpired "" ∅ when remaining <=? 0 ;;
  Ok (if remaining <? ttl then remaining else ttl).

Definition issue_heartbeat (request : LeaseRequest) (ttl : duration) : result duration Error :=
  let heartbeat := if lq_HeartbeatInterval request <=? 0 then heartbeatInterval m
                   else lq_HeartbeatInterval request in
  reject scoped CodeInvalidArgument "heartbeat" when
    (heartbeat <=? 0) || negb (Z.rem heartbeat Second =? 0) || (5 * Minute <? heartbeat)
    || (Z.quot ttl 3 <? heartbeat) ;;
  Ok heartbeat.

(** The lease [Issue] builds. *)
Definition new_lease (request : LeaseRequest) (id nonce : string) (now : time)
    (ttl heartbeat : duration) : CapabilityLease :=
  let principal := lq_Principal request in
  mkLease id (lq_IdempotencyKey request)
    (if lq_AgentInstanceID request ≟ "" then pr_ID principal else lq_AgentInstanceID request)
    (pr_ID principal) (pr_Type principal) (lq_TenantID request) (lq_ProjectID request)
    (lq_ProjectVersion request) (lq_TaskID request) (lq_TaskVersion request) (lq_SpecDigest request)
    (lq_Role request) (lq_Action request) (cloneResource (lq_Resource request))
    (lq_ParameterDigest request) (copy_slice (lq_Capabilities request)) now (Add now ttl) now
    (Z.quot heartbeat Second) (lq_PolicyVersion request) (lq_BudgetAccountID request) nonce
    (if lq_FencingToken request =? 0 then 1 else lq_FencingToken request) LeaseActive None "".

(** [uuid] is what [uuid.NewV7] returns and [random] the digest nonce that
    [randomID] leads to. *)
Definition Issue (ctx : context) (request : LeaseRequest) (clock : result time Error)
    (uuid : result string string) (random : result string Error) (s : MemoryLeaseStore)
    : MemoryLeaseStore * result CapabilityLease lease_error :=
  let issued :=
    reject Coded (New CodeDependencyUnavailable "" ∅) when negb (is_nil (ctx_Err ctx)) ;;
    match issue_request_error request with Some e => Err (Coded e) | None =>
    trustedNow <-! lift clock ;;
    let now := leaseAuthorizationTime ctx trustedNow in
    match validateLeaseGrant (lq_Grant request) (lq_PolicyVersion request) (request_binding request) now with
    | Some e => Err (Coded e)
    | None =>
    ttl <-! lift (issue_ttl request now) ;;
    heartbeat <-! lift (issue_heartbeat request ttl) ;;
    id <-! (if lq_ID request ≟ "" then
              match uuid with Ok id => Ok id | Err e => Err (GeneratorErr e) end
            else Ok (lq_ID request)) ;;
    nonce <-! (if lq_RequestDigest request ≟ "" then lift random else Ok (lq_RequestDigest request)) ;;
    let lease := new_lease request id nonce now ttl heartbeat in
    match ValidateShape lease with
    | Some e => Err (Coded e)
    | None =>
    lease <-! lift (sign lease) ;;
    s <-! Put ctx lease s ;;
    Ok (s, lease)
    end end end in
  match issued with
  | Ok (s, lease) => (s, Ok (cloneLease lease))
  | Err e => (s, Err e)
  end.

(** *** Updates: read, decide, compare and swap *)
(** [Get] under the tenant of the request, and the signature of what it found. *)
Definition read (ctx : context) (tenantID id : string) (missing : Code) (s : MemoryLeaseStore)
    : result CapabilityLease lease_error :=
  found <-! Get (withLeaseTenant ctx tenantID) id s ;;
  match found with
  | None => Err (Coded (New missing "" ∅))
  | Some current =>
      match verify current with Some e => Err (Coded e) | None => Ok current end
  end.

(** The swap that ends an update, and the answer of a lost one. *)
Definition swap {A} (ctx : context) (current updated : CapabilityLease) (answer : A)
    (lost : result A lease_error) (s : MemoryLeaseStore)
    : MemoryLeaseStore * result A lease_error :=
  match CompareAndSwap ctx (l_ID current) (l_FencingToken current) updated s with
  | Err e => (s, Err e)
  | Ok (s, true) => (s, Ok answer)
  | Ok (s, false) => (s, lost)
  end.

Definition lost_swap {A} : result A lease_error := Err (Coded (New CodeConflict "" ∅)).

Definition lease_binding (lease : CapabilityLease) : DecisionBinding :=
  mkDecisionBinding (l_PrincipalID lease) (l_TenantID lease) (l_ProjectID lease)
    (l_ProjectVersion lease) (l_TaskID lease) (l_TaskVersion lease) (l_SpecDigest lease)
    (l_Role lease) (l_Action lease) (cloneResource (l_Resource lease)) (l_ParameterDigest lease)
    (l_BudgetAccountID lease).

(** [Renew] from the lease it read to the lease it writes. *)
Definition renewed (request : LeaseRenewalRequest) (now : time) (current : CapabilityLease)
    : result CapabilityLease Error :=
  reject New CodeLeaseExpired "" ∅ when (l_State current ≠? LeaseActive) || IsExpired current now ;;
  reject scoped CodeConflict "lease fencing" when
    (rq_FencingToken request <? 1) || negb (rq_FencingToken request =? l_FencingToken current) ;;
  reject scoped CodeForbidden "lease principal" when
    (rq_PrincipalID request ≟ "") || (rq_PrincipalID request ≠? l_PrincipalID current)
    || ((rq_PrincipalType request ≠? "") && (rq_PrincipalType request ≠? l_PrincipalType current))
    || ((rq_Role request ≠? "") && (rq_Role request ≠? l_Role current)) ;;
  reject New CodePolicyDenied "" {["policyVersion" := AnyString (l_PolicyVersion current)]} when
    (rq_PolicyVersion request ≟ "") || (rq_PolicyVersion request ≠? l_PolicyVersion current) ;;
  check (validateLeaseGrant (rq_Grant request) (l_PolicyVersion current) (lease_binding current) now)
    (ttl <-! granted_ttl (rq_TTL request) (rq_Grant request) (l_PolicyVersion current) now ;;
     let updated := cloneLease current in
     let updated := updated ⟦ l_ExpiresAt := Add now ttl ⟧ in
     let updated := updated ⟦ l_LastHeartbeatAt := now ⟧ in
     let updated := updated ⟦ l_FencingToken := if rq_PreserveFencing request then l_FencingToken updated
                                                 else wrap64 (l_FencingToken updated + 1) ⟧ in
     let updated := updated ⟦ l_Nonce := if rq_RequestDigest request ≠? "" then rq_RequestDigest request
                                         else l_Nonce updated ⟧ in
     reject scoped CodeInvalidArgument "lease time" when
       Before (l_ExpiresAt updated) (l_IssuedAt updated) ;;
     sign updated).

Definition Renew (ctx : context) (request : LeaseRenewalRequest) (clock : result time Error)
    (s s' : MemoryLeaseStore) : MemoryLeaseStore * result CapabilityLease lease_error :=
  let decided :=
    reject Coded (New CodeDependencyUnavailable "" ∅) when negb (is_nil (ctx_Err ctx)) ;;
    reject Coded (scoped CodeInvalidArgument "lease request digest") when
      (rq_RequestDigest request ≠? "") && negb (digestPattern (rq_RequestDigest request)) ;;
    now <-! lift clock ;;
    current <-! read ctx (rq_TenantID request) (rq_LeaseID request) CodeNotFound s ;;
    updated <-! lift (renewed request now current) ;;
    Ok (current, updated) in
  match decided with
  | Err e => (s', Err e)
  | Ok (current, updated) => swap ctx current updated updated lost_swap s'
  end.

Definition heartbeaten (request : LeaseHeartbeatRequest) (now : time) (current : CapabilityLease)
    : result CapabilityLease Error :=
  reject New CodeLeaseExpired "" ∅ when (l_State current ≠? LeaseActive) || IsExpired current now ;;
  reject scoped CodeForbidden "lease fencing" when
    (hq_ProjectID request ≟ "") || (hq_ProjectID request ≠? l_ProjectID current)
    || (hq_TaskID request ≠? l_TaskID current) || (hq_PrincipalID request ≟ "")
    || (hq_PrincipalID request ≠? l_PrincipalID current)
    || negb (hq_FencingToken request =? l_FencingToken current) ;;
  reject scoped CodeInvalidArgument "heartbeat time" when Before now (l_LastHeartbeatAt current) ;;
  let updated := cloneLease current in
  let updated := updated ⟦ l_LastHeartbeatAt := now ⟧ in
  let heartbeatExpiry := Add now (defaultTTL m) in
  let updated := updated ⟦ l_ExpiresAt := if After heartbeatExpiry (l_ExpiresAt updated)
                                          then heartbeatExpiry else l_ExpiresAt updated ⟧ in
  sign updated.

Definition Heartbeat (ctx : context) (request : LeaseHeartbeatRequest) (clock : result time Error)
    (s s' : MemoryLeaseStore) : MemoryLeaseStore * result CapabilityLease lease_error :=
  let decided :=
    reject Coded (New CodeDependencyUnavailable "" ∅) when negb (is_nil (ctx_Err ctx)) ;;
    now <-! lift clock ;;
    current <-! read ctx (hq_TenantID request) (hq_LeaseID request) CodeNotFound s ;;
    updated <-! lift (heartbeaten request now current) ;;
    Ok (current, updated) in
  match decided with
  | Err e => (s', Err e)
  | Ok (current, updated) => swap ctx current updated updated lost_swap s'
  end.

(** [Ok None]: the lease is already revoked by the same request. *)
Definition revoked (request : LeaseRevokeRequest) (now : time) (current : CapabilityLease)
    : result (option CapabilityLease) Error :=
  reject scoped CodeForbidden "lease revoke binding" when
    (l_ProjectID current ≠? vq_ProjectID request) || (l_TaskID current ≠? vq_TaskID request) ;;
  reject scoped CodeForbidden "lease revoke" when
    (pr_ID (vq_Actor request) ≠? l_PrincipalID current)
    && (pr_Type (vq_Actor request) ≠? PrincipalBreakGlassAdmin)
    && (pr_Role (vq_Actor request) ≠? RoleBreakGlassAdmin) ;;
  if l_State current ≠? LeaseActive then
    if (l_State current ≟ LeaseRevoked) && (l_Nonce current ≟ vq_RequestDigest request) then Ok None
    else Err (scoped CodeIdempotencyConflict "lease revoke")
  else
    let updated := cloneLease current in
    let updated := updated ⟦ l_State := LeaseRevoked ⟧ in
    let updated := updated ⟦ l_RevokedAt := Some now ⟧ in
    let updated := updated ⟦ l_FencingToken := wrap64 (l_FencingToken updated + 1) ⟧ in
    let updated := updated ⟦ l_Nonce := vq_RequestDigest request ⟧ in
    signed <-! sign updated ;;
    Ok (Some signed).

(** [s'']: the store of the second [Get], after a lost swap. *)
Definition Revoke (ctx : context) (request : LeaseRevokeRequest) (clock : result time Error)
    (s s' s'' : MemoryLeaseStore) : MemoryLeaseStore * result unit lease_error :=
  let decided :=
    reject Coded (New CodeDependencyUnavailable "" ∅) when negb (is_nil (ctx_Err ctx)) ;;
    match Principal_Validate (vq_Actor request) with Some e => Err (Coded e) | None =>
    reject Coded (scoped CodeInvalidArgument "revoke reason") when
      (vq_ProjectID request ≟ "") || (vq_Reason request ≟ "") || (256 <? len (vq_Reason request))
      || has_control (vq_Reason request) || negb (digestPattern (vq_RequestDigest request)) ;;
    now <-! lift clock ;;
    current <-! read ctx (pr_TenantID (vq_Actor request)) (vq_LeaseID request) CodeNotFound s ;;
    updated <-! lift (revoked request now current) ;;
    Ok (current, updated)
    end in
  match decided with
  | Err e => (s', Err e)
  | Ok (_, None) => (s', Ok tt)
  | Ok (current, Some updated) =>
      let lost :=
        match Get (withLeaseTenant ctx (pr_TenantID (vq_Actor request))) (vq_LeaseID request) s'' with
        | Ok (Some latest) =>
            if (l_State latest ≟ LeaseRevoked) && (l_Nonce latest ≟ vq_RequestDigest request)
            then Ok tt else lost_swap
        | _ => lost_swap
        end in
      swap ctx current updated tt lost s'
  end.

(** [expire]: a best effort. *)
Definition expire (ctx : context) (current : CapabilityLease) (s : MemoryLeaseStore) : MemoryLeaseStore :=
  let updated := cloneLease current in
  let updated := updated ⟦ l_State := LeaseExpired ⟧ in
  let updated := updated ⟦ l_FencingToken := wrap64 (l_FencingToken updated + 1) ⟧ in
  match sign updated with
  | Err _ => s
  | Ok updated => fst (swap ctx current updated tt lost_swap s)
  end.

(** The bindings [Validate] compares, in its order. *)
Definition check_error (ck : LeaseCheck) (current : CapabilityLease) : option Error :=
  if (ck_AgentInstanceID ck ≟ "") || (ck_AgentInstanceID ck ≠? l_AgentInstanceID current)
     || (ck_PrincipalID ck ≟ "") || (ck_PrincipalID ck ≠? l_PrincipalID current)
     || (ck_PrincipalType ck ≟ "") || (ck_PrincipalType ck ≠? l_PrincipalType current)
     || (ck_TenantID ck ≟ "") || (ck_TenantID ck ≠? l_TenantID current)
     || (ck_ProjectID ck ≟ "") || (ck_ProjectID ck ≠? l_ProjectID current)
     || negb (ck_ProjectVersion ck =? l_ProjectVersion current)
     || (ck_TaskID ck ≠? l_TaskID current) || negb (ck_TaskVersion ck =? l_TaskVersion current)
     || (ck_SpecDigest ck ≠? l_SpecDigest current)
     || (ck_Role ck ≟ "") || (ck_Role ck ≠? l_Role current)
     || (ck_Action ck ≟ "") || (ck_Action ck ≠? l_Action current)
     || (ck_PolicyVersion ck ≟ "") || (ck_PolicyVersion ck ≠? l_PolicyVersion current)
     || (ck_BudgetAccountID ck ≟ "") || (ck_BudgetAccountID ck ≠? l_BudgetAccountID current)
     || (ck_Capability ck ≟ "") || negb (containsString (l_Capabilities current) (ck_Capability ck))
     || (ck_FencingToken ck <? 1) || negb (ck_FencingToken ck =? l_FencingToken current)
  then Some (scoped CodeForbidden "lease binding") else
  if negb (digestPattern (ck_ParameterDigest ck)) || (ck_ParameterDigest ck ≠? l_ParameterDigest current)
  then Some (scoped CodePolicyDenied "lease parameters") else
  if resourceEmpty (ck_Resource ck) || negb (resourcesEqual (ck_Resource ck) (l_Resource current))
  then Some (New CodeUnauthorizedPath "" ∅) else None.

Definition Validate (ctx : context) (ck : LeaseCheck) (clock : result time Error)
    (s s' : MemoryLeaseStore) : MemoryLeaseStore * result CapabilityLease lease_error :=
  let decided :=
    reject Coded (New CodeDependencyUnavailable "" ∅) when negb (is_nil (ctx_Err ctx)) ;;
    trustedNow <-! lift clock ;;
    let now := leaseAuthorizationTime ctx trustedNow in
    current <-! read ctx (ck_TenantID ck) (ck_LeaseID ck) CodeLeaseExpired s ;;
    Ok (now, current) in
  match decided with
  | Err e => (s', Err e)
  | Ok (now, current) =>
      if (l_State current ≠? LeaseActive) || IsExpired current now then
        (if (l_State current ≟ LeaseActive) && IsExpired current now then expire ctx current s' else s',
         Err (Coded (New CodeLeaseExpired "" ∅)))
      else match check_error ck current with
           | Some e => (s', Err (Coded e))
           | None => (s', Ok current)
           end
  end.

Definition ValidateActive (ctx : context) (leaseID : string) (clock : result time Error)
    (s : MemoryLeaseStore) : result CapabilityLease lease_error :=
  reject Coded (New CodeDependencyUnavailable "" ∅) when negb (is_nil (ctx_Err ctx)) ;;
  current <-! read ctx "" leaseID CodeLeaseExpired s ;;
  now <-! lift clock ;;
  reject Coded (New CodeLeaseExpired "" ∅) when (l_State current ≠? LeaseActive) || IsExpired current now ;;
  Ok current.

Definition manager_Get (ctx : context) (id : string) (s : MemoryLeaseStore)
    : result (option CapabilityLease) lease_error :=
  reject Coded (New CodeDependencyUnavailable "" ∅) when negb (is_nil (ctx_Err ctx)) ;;
  found <-! Get ctx id s ;;
  match found with
  | None => Ok None
  | Some lease => match verify lease with Some e => Err (Coded e) | None => Ok (Some lease) end
  end.

Definition GetForTenant (ctx : context) (tenantID id : string) (s : MemoryLeaseStore)
    : result (option CapabilityLease) lease_error :=
  reject Coded (scoped CodeInvalidArgument "lease tenant") when tenantID ≟ "" ;;
  manager_Get (withLeaseTenant ctx tenantID) id s.

Definition manager_GetByIdempotency (ctx : context) (tenantID principalID key : string)
    (order : list (string * CapabilityLease)) : result (option CapabilityLease) lease_error :=
  reject Coded (New CodeInvalidArgument "" ∅) when
    (tenantID ≟ "") || (principalID ≟ "") || (key ≟ "") ;;
  found <-! GetByIdempotency (withLeaseTenant ctx tenantID) tenantID principalID key order ;;
  match found with
  | None => Ok None
  | Some lease => match verify lease with Some e => Err (Coded e) | None => Ok (Some lease) end
  end.

Definition IssueWithAuthoritativeTime (ctx : context) (request : LeaseRequest) (at_ : time) clock uuid random
    (s : MemoryLeaseStore) : MemoryLeaseStore * result CapabilityLease lease_error :=
  if IsZero at_ then (s, Err (Coded (scoped CodeInvalidArgument "lease authorization time"))) else
  Issue (ctx ⟦ ctx_authorization_time := UTC at_ ⟧) request clock uuid random s.

Definition ValidateWithAuthoritativeTime (ctx : context) (ck : LeaseCheck) (at_ : time) clock
    (s s' : MemoryLeaseStore) : MemoryLeaseStore * result CapabilityLease lease_error :=
  if IsZero at_ then (s', Err (Coded (scoped CodeInvalidArgument "lease authorization time"))) else
  Validate (ctx ⟦ ctx_authorization_time := UTC at_ ⟧) ck clock s s'.
End Manager.
End Lease.
