(* ===== verification/LeaseProps.v ===== *)
(** Properties of the lease manager.

    - Concurrent histories: a world is the list of the stores a lease store has
      gone through, newest first; an operation reads any of them and swaps
      against the newest, so stale reads and interleavings are covered.  Along
      every history the identity of a lease never changes, its fencing token
      never goes back, and a revoked or expired lease never changes again.
    - A lease [Issue] returned validates for exactly its bindings until it
      expires, within the bounds of the request, the grant and the manager.
    - [Validate] accepts exactly the leases that are stored, signed, active,
      unexpired and bound to the presented facts. *)

From S2P Require Import Prelude GoLib Runs Trace Errors Contracts Path Authz Lease.

Module LeaseProps.
Import Authz.
Import Lease.

(** ** Copies and identity *)
Lemma cloneStringMap_id m : cloneStringMap m = m.
Proof.
  unfold cloneStringMap. destruct (Nat.eqb_spec (size m) 0) as [H|]; [|done].
  symmetry. by apply map_size_empty_iff.
Qed.

Lemma cloneResource_id r : cloneResource r = r.
Proof. unfold cloneResource. rewrite cloneStringMap_id. by destruct r. Qed.

Lemma cloneLease_id l : cloneLease l = l.
Proof. unfold cloneLease, copy_slice. cbn. rewrite cloneResource_id. by destruct l. Qed.

(** ** Comparing resources *)
Lemma any_entry_false bad m :
  any_entry bad m = false <-> forall key value, m !! key = Some value -> bad key value = false.
Proof.
  unfold any_entry. rewrite <- not_true_iff_false, existsb_exists. split.
  - intros Hn key value Hm. apply not_true_iff_false. intros Hb. apply Hn. exists (key, value).
    split; [|done]. by apply list_elem_of_In, elem_of_map_to_list.
  - intros Hall ((key & value) & Hin & Hb). apply list_elem_of_In, elem_of_map_to_list in Hin.
    apply Hall in Hin. cbn in Hb. congruence.
Qed.

(** The comparison is exact when no attribute on its left is empty, as policy
    inputs guarantee. *)
Lemma resourcesEqual_exact r r' :
  map_Forall (fun _ value => value <> "") (rs_Attributes r) ->
  resourcesEqual r r' = true <-> r = r'.
Proof.
  intros Hne. unfold resourcesEqual. split.
  - destruct (_ || _) eqn:Hg; [done|]. intros Ha. go_bool.
    match goal with Hn : Nat.eqb _ _ = true |- _ => apply Nat.eqb_eq in Hn as Hsize end.
    pose proof (proj1 (any_entry_false _ _) Ha) as Hall.
    assert (rs_Attributes r = rs_Attributes r') as Hattr.
    { apply map_subseteq_size_eq; [|by rewrite Hsize]. apply map_subseteq_spec. intros key value Hk.
      specialize (Hall _ _ Hk). cbv beta in Hall. go_bool. destruct (rs_Attributes r' !! key); cbn in *; [by f_equal|].
      by destruct (Hne _ _ Hk). }
    destruct r, r'; cbn in *. by subst.
  - intros <-. destruct (_ || _) eqn:Hg.
    + exfalso. revert Hg. rewrite !bool_decide_eq_true_2 by done. by rewrite Nat.eqb_refl.
    + apply negb_true_iff, any_entry_false. intros key value Hk. rewrite Hk. cbn.
      by rewrite bool_decide_eq_true_2.
Qed.

(** An empty attribute is confused with an absent one: two resources of as many
    attributes are equal to [resourcesEqual] and are not equal. *)
Lemma resourcesEqual_confuses :
  let asked := mkResource "tool" "id" "" {["scope" := ""]} in
  let held := mkResource "tool" "id" "" {["owner" := "alice"]} in
  resourcesEqual asked held = true /\ asked <> held.
Proof. split; [by vm_compute|]. cbn zeta. intros He%(f_equal rs_Attributes).
  apply (f_equal (lookup "owner")) in He. by vm_compute in He.
Qed.

(** What no update may change. *)
Definition identity (l : CapabilityLease) : CapabilityLease :=
  l ⟦ l_ExpiresAt := 0 ⟧ ⟦ l_LastHeartbeatAt := 0 ⟧ ⟦ l_Nonce := "" ⟧ ⟦ l_FencingToken := 0 ⟧
    ⟦ l_State := "" ⟧ ⟦ l_RevokedAt := None ⟧ ⟦ l_Signature := "" ⟧.

(** [first_error] stops at nothing exactly when nothing fails. *)
Lemma first_error_none {E} (checks : list (option E)) :
  first_error checks = None <-> Forall (fun c => c = None) checks.
Proof.
  induction checks as [|[e|] checks IH]; cbn.
  - split; [constructor|done].
  - split; [done|by intros [[=] _]%Forall_cons_1].
  - rewrite IH. split; [by constructor|by intros [_ ?]%Forall_cons_1].
Qed.

(** ** What each update writes *)
Section Manager.
Context `{Signer} (json_Marshal : leaseSigningView -> string) (m : LeaseManager).
Context (manager_ttl : defaultTTL m <= maxTTL m).

Lemma sign_ok l u : sign json_Marshal l = Ok u ->
  exists signature, Sign (leaseSigningPayload json_Marshal l) = Ok signature /\ u = l ⟦ l_Signature := signature ⟧.
Proof.
  unfold sign. destruct (Sign _) as [signature|]; [|done]. intros <-%Ok_inj. eauto.
Qed.

Lemma verify_ok l : verify json_Marshal l = None ->
  ValidateShape l = None /\ Verify (leaseSigningPayload json_Marshal l) (l_Signature l) = None.
Proof. unfold verify. by destruct (ValidateShape l). Qed.

Lemma shape_token l : ValidateShape l = None -> 1 <= l_FencingToken l.
Proof.
  unfold ValidateShape. intros Hs%first_error_none. apply Forall_cons_1 in Hs as [Hs _].
  apply guard_none in Hs. go_bool. lia.
Qed.

Lemma read_ok ctx tenant id missing s a : read json_Marshal ctx tenant id missing s = Ok a ->
  s !! id = Some a /\ verify json_Marshal a = None.
Proof.
  unfold read, Get. destruct (ctx_Err _); [done|]. destruct (s !! id) as [l|]; [|done].
  destruct (_ && _); [done|]. cbn [rbind]. rewrite cloneLease_id.
  destruct (verify json_Marshal l) eqn:Hv; [done|]. by intros <-%Ok_inj.
Qed.

(** An update of an active lease: its kind, by what happens to state and token. *)
Definition bumped (a : CapabilityLease) : Z := wrap64 (l_FencingToken a + 1).
Definition bounded (l : CapabilityLease) : Prop := l_ExpiresAt l <= l_LastHeartbeatAt l + maxTTL m.
Definition updates (a u : CapabilityLease) : Prop :=
  l_State a = LeaseActive /\ identity u = identity a /\ (bounded a -> bounded u)
  /\ ((l_State u = LeaseActive /\ (l_FencingToken u = l_FencingToken a \/ l_FencingToken u = bumped a))
      \/ (l_State u <> LeaseActive /\ l_FencingToken u = bumped a)).

(** The granted time to live is within the manager's bound and the grant's. *)
Lemma granted_ttl_ok ttl grant policyVersion now r :
  granted_ttl m ttl grant policyVersion now = Ok r ->
  r <= maxTTL m /\ (co_ExpiresAt (pd_Constraints grant) <> 0 ->
                    now + r <= co_ExpiresAt (pd_Constraints grant)).
Proof.
  clear manager_ttl. unfold granted_ttl, IsZero, Sub. intros Hg. accepted Hg.
  destruct (co_ExpiresAt _ =? 0) eqn:Hz; [apply Ok_inj in Hg as <-; go_bool; lia|].
  cbv zeta in Hg. accepted Hg. repeat case_match; go_bool; unfold two63 in *; lia.
Qed.

Lemma renewed_updates request now a u :
  renewed json_Marshal m request now a = Ok u -> updates a u.
Proof.
  unfold renewed. intros Hr. accepted Hr. unfold check in Hr.
  destruct (validateLeaseGrant _ _ _ _); [done|]. accepted Hr. go_bool.
  apply sign_ok in Hr as (signature & _ & ->). split; [done|]. rewrite cloneLease_id. cbn.
  split; [done|]. match goal with Hg : granted_ttl _ _ _ _ _ = Ok _ |- _ =>
    apply granted_ttl_ok in Hg as [Httl _] end.
  split; [unfold bounded, Add; cbn; lia|].
  left. split; [done|]. destruct (rq_PreserveFencing _); auto.
Qed.

Lemma heartbeaten_updates request now a u :
  heartbeaten json_Marshal m request now a = Ok u -> updates a u /\ l_State u = LeaseActive.
Proof.
  unfold heartbeaten. intros Hr. accepted Hr. go_bool.
  apply sign_ok in Hr as (signature & _ & ->). rewrite cloneLease_id. cbn.
  split; [|done]. split; [done|]. cbn. split; [done|]. split; [|left; auto].
  unfold bounded, After, Before, Add in *. cbn. case_match; go_bool; lia.
Qed.

Lemma revoked_updates request now a u :
  revoked json_Marshal request now a = Ok (Some u) ->
  updates a u /\ l_State u = LeaseRevoked /\ l_Nonce u = vq_RequestDigest request.
Proof.
  unfold revoked. intros Hr. accepted Hr. destruct (l_State a ≠? LeaseActive) eqn:Hst.
  - by destruct ((l_State a ≟ LeaseRevoked) && _).
  - destruct (sign _ _) as [u'|] eqn:Hs; cbn [rbind] in Hr; [|done]. injection Hr as ->. go_bool.
    apply sign_ok in Hs as (signature & _ & ->). rewrite cloneLease_id. cbn.
    split; [|done]. split; [done|]. cbn. split; [done|]. split; [done|]. right. done.
Qed.

Lemma expired_updates a u :
  l_State a = LeaseActive ->
  sign json_Marshal (cloneLease a ⟦ l_State := LeaseExpired ⟧
    ⟦ l_FencingToken := wrap64 (l_FencingToken (cloneLease a ⟦ l_State := LeaseExpired ⟧) + 1) ⟧) = Ok u ->
  updates a u.
Proof.
  intros Ha (signature & _ & ->)%sign_ok. rewrite cloneLease_id. split; [done|].
  split; [done|]. split; [done|]. right. done.
Qed.

(** ** The swap *)
Lemma swap_cases {A} ctx a u (answer : A) lost s :
  swap ctx a u answer lost s = (s, lost)
  \/ (exists err, swap ctx a u answer lost s = (s, Err err))
  \/ exists b, s !! l_ID a = Some b /\ l_FencingToken b = l_FencingToken a
       /\ swap ctx a u answer lost s = (<[l_ID a := u]> s, Ok answer).
Proof.
  unfold swap, CompareAndSwap. destruct (ctx_Err ctx); [eauto|].
  destruct (s !! l_ID a) as [b|] eqn:Hb; [|eauto].
  destruct (_ || _) eqn:Hc; [eauto|]. go_bool. right; right. exists b. by rewrite cloneLease_id.
Qed.

Lemma swap_store {A} ctx a u (answer : A) lost s :
  fst (swap ctx a u answer lost s) = s
  \/ exists b, s !! l_ID a = Some b /\ l_FencingToken b = l_FencingToken a
       /\ fst (swap ctx a u answer lost s) = <[l_ID a := u]> s.
Proof.
  destruct (swap_cases ctx a u answer lost s) as [->|[(err & ->)|(b & ? & ? & ->)]]; eauto.
Qed.

(** ** Histories *)
(** [n] is the store a command read, counted back from the newest. *)
Inductive command : Type :=
| CIssue (ctx : context) (request : LeaseRequest) (clock : result time Error)
    (uuid : result string string) (random : result string Error)
| CRenew (ctx : context) (request : LeaseRenewalRequest) (clock : result time Error) (n : nat)
| CHeartbeat (ctx : context) (request : LeaseHeartbeatRequest) (clock : result time Error) (n : nat)
| CRevoke (ctx : context) (request : LeaseRevokeRequest) (clock : result time Error) (n : nat)
| CValidate (ctx : context) (ck : LeaseCheck) (clock : result time Error) (n : nat).

Definition is_int64 (z : Z) : bool := (- two63 <=? z) && (z <? two63).

(** The command takes effect on the newest store; a fencing token of a request
    is an [int64]. *)
Definition perform (w : list MemoryLeaseStore) (c : command) : option (list MemoryLeaseStore) :=
  match w with
  | [] => None
  | newest :: _ =>
      match c with
      | CIssue ctx request clock uuid random =>
          if negb (is_int64 (lq_FencingToken request)) then None
          else Some (fst (Issue json_Marshal m ctx request clock uuid random newest) :: w)
      | CRenew ctx request clock n =>
          match w !! n with
          | Some s => Some (fst (Renew json_Marshal m ctx request clock s newest) :: w)
          | None => None
          end
      | CHeartbeat ctx request clock n =>
          match w !! n with
          | Some s => Some (fst (Heartbeat json_Marshal m ctx request clock s newest) :: w)
          | None => None
          end
      | CRevoke ctx request clock n =>
          match w !! n with
          | Some s => Some (fst (Revoke json_Marshal ctx request clock s newest newest) :: w)
          | None => None
          end
      | CValidate ctx ck clock n =>
          match w !! n with
          | Some s => Some (fst (Validate json_Marshal ctx ck clock s newest) :: w)
          | None => None
          end
      end
  end.

(** A token that wrapped around is later than every token: no operation accepts
    the lease any more. *)
Definition rank (l : CapabilityLease) : Z := if l_FencingToken l <? 1 then two63 else l_FencingToken l.

(** What a lease may become. *)
Definition later (a b : CapabilityLease) : Prop :=
  identity b = identity a
  /\ (b = a \/ (l_State a = LeaseActive /\ rank a <= rank b
               /\ (l_State b <> LeaseActive -> rank a < rank b))).

#[export] Instance later_preorder : PreOrder later.
Proof.
  split; [by intros a; split; [|left]|].
  intros a b c [Hab Ha] [Hbc Hb]. split; [congruence|].
  destruct Hb as [->|(Hb & Hr & Hs)]; [done|].
  destruct Ha as [->|(Ha & Hr' & Hs')]; [by right|]. right. repeat split; [done|lia|].
  intros Hc. specialize (Hs Hc). lia.
Qed.

Definition evolves (s s' : MemoryLeaseStore) : Prop :=
  forall id a, s !! id = Some a -> exists b, s' !! id = Some b /\ later a b.

#[export] Instance evolves_preorder : PreOrder evolves.
Proof.
  split; [by intros s id a Ha; exists a|].
  intros s t u Hst Htu id a (b & Hb & Hab)%Hst. destruct (Htu _ _ Hb) as (c & Hc & Hbc).
  exists c. split; [done|by transitivity b].
Qed.

Lemma evolves_insert s id b u : s !! id = Some b -> later b u -> evolves s (<[id := u]> s).
Proof.
  intros Hb Hu id' a Ha. destruct (decide (id' = id)) as [->|Hne].
  - simplify_eq. rewrite lookup_insert_eq. eauto.
  - rewrite lookup_insert_ne by done. by exists a.
Qed.

Lemma evolves_fresh (s : MemoryLeaseStore) id u : s !! id = None -> evolves s (<[id := u]> s).
Proof.
  intros Hn id' a Ha. rewrite lookup_insert_ne by (intros ->; congruence). by exists a.
Qed.

Definition keyed (s : MemoryLeaseStore) : Prop :=
  map_Forall (fun id l => l_ID l = id /\ in_int64 (l_FencingToken l) /\ bounded l) s.

(** Every store of a world is keyed and evolved into the newest. *)
Definition coherent (w : list MemoryLeaseStore) : Prop :=
  exists newest older, w = newest :: older /\ Forall (fun s => keyed s /\ evolves s newest) w.

Lemma coherent_push newest older s :
  coherent (newest :: older) -> keyed s -> evolves newest s -> coherent (s :: newest :: older).
Proof.
  intros (n & o & [= <- <-] & Hw) Hk He. exists s, (newest :: older). split; [done|].
  constructor; [done|]. eapply Forall_impl; [exact Hw|]. intros t [Ht Hn].
  split; [done|by transitivity newest].
Qed.

(** A swap against the newest store of an update decided on an older one. *)
Lemma updates_later a b u :
  in_int64 (l_FencingToken a) -> 1 <= l_FencingToken a -> updates a u -> later a b ->
  l_FencingToken b = l_FencingToken a ->
  later b u /\ in_int64 (l_FencingToken u).
Proof.
  intros Hi Ha (Hact & Hid & _ & Hu) [Hab Hl] Ht.
  assert (Hb : l_State b = LeaseActive).
  { destruct Hl as [->|(_ & _ & Hs)]; [done|]. destruct (decide (l_State b = LeaseActive)); [done|].
    specialize (Hs ltac:(done)). unfold rank in Hs. rewrite Ht in Hs. lia. }
  assert (Hbump : bumped a = l_FencingToken a + 1 \/ (l_FencingToken a = two63 - 1 /\ bumped a = - two63)).
  { unfold bumped. destruct (decide (l_FencingToken a = two63 - 1)) as [->|]; [by right|left].
    apply wrap64_id. unfold in_int64 in *. lia. }
  assert (Hi' : in_int64 (bumped a)) by apply wrap64_range.
  assert (in_int64 (l_FencingToken u) /\ rank b <= rank u /\ (l_State u <> LeaseActive -> rank b < rank u)).
  { unfold rank, in_int64, two63 in *.
    destruct Hu as [[Hu [Htu|Htu]]|[Hu Htu]]; rewrite Htu, Ht;
      repeat (split; [|try done]); repeat case_match; go_bool; lia. }
  split; [|tauto]. split; [congruence|]. right. tauto.
Qed.

Lemma coherent_swap {A} newest older s id a u ctx (answer : A) lost :
  coherent (newest :: older) -> s ∈ newest :: older -> s !! id = Some a ->
  verify json_Marshal a = None -> updates a u ->
  let s' := fst (swap ctx a u answer lost newest) in
  coherent (s' :: newest :: older).
Proof.
  intros Hw Hs Ha [Hsh _]%verify_ok Hu. cbn.
  pose proof Hw as (n & o & [= <- <-] & Hall). pose proof (proj1 (Forall_forall _ _) Hall) as Hev.
  destruct (Hev newest) as [Hk _]; [by left|]. destruct (Hev s Hs) as [Hks Hes].
  destruct (Hks _ _ Ha) as (<- & Hi & Hba).
  destruct (swap_store ctx a u answer lost newest) as [->|(b & Hb & Ht & ->)].
  { by apply coherent_push. }
  destruct (Hes _ _ Ha) as (b' & Hb' & Hab). simplify_eq.
  destruct (updates_later a b u) as [Hbu Hiu]; auto using shape_token.
  apply coherent_push; [done| |by eapply evolves_insert].
  apply map_Forall_insert_2; [|done]. destruct Hu as (_ & Hid & Hbu' & _).
  split; [|auto]. apply (f_equal l_ID) in Hid. exact Hid.
Qed.

(** What an operation that read [s] does to the store [s']. *)
Definition acts (s s' r : MemoryLeaseStore) : Prop :=
  r = s' \/ exists ctx id a u, s !! id = Some a /\ verify json_Marshal a = None /\ updates a u
            /\ r = fst (swap ctx a u tt lost_swap s').

Lemma swap_answer {A B} ctx a u (x : A) (y : B) lost lost' s :
  fst (swap ctx a u x lost s) = fst (swap ctx a u y lost' s).
Proof.
  unfold swap. destruct (CompareAndSwap _ _ _ _ _) as [[? []]|]; reflexivity.
Qed.

Lemma lift_ok {A} (r : result A Error) a : lift r = Ok a -> r = Ok a.
Proof. destruct r; by intros [= ->]. Qed.

Lemma renew_acts ctx request clock s s' :
  acts s s' (fst (Renew json_Marshal m ctx request clock s s')).
Proof.
  unfold Renew. destruct (if negb (is_nil (ctx_Err ctx)) then _ else _) as [[a u]|err] eqn:Hd; [|by left].
  accepted Hd. apply lift_ok in G3. apply read_ok in G2 as [Ha Hv]. right.
  exists ctx, (rq_LeaseID request). do 2 eexists. split; [exact Ha|]. split; [exact Hv|].
  split; [by eapply renewed_updates|]. apply swap_answer.
Qed.

Lemma heartbeat_acts ctx request clock s s' :
  acts s s' (fst (Heartbeat json_Marshal m ctx request clock s s')).
Proof.
  unfold Heartbeat. destruct (if negb (is_nil (ctx_Err ctx)) then _ else _) as [[a u]|err] eqn:Hd; [|by left].
  accepted Hd. apply lift_ok in G2. apply read_ok in G1 as [Ha Hv]. right.
  exists ctx, (hq_LeaseID request). do 2 eexists. split; [exact Ha|]. split; [exact Hv|].
  split; [by eapply heartbeaten_updates|]. apply swap_answer.
Qed.

Lemma revoke_acts ctx request clock s s' s'' :
  acts s s' (fst (Revoke json_Marshal ctx request clock s s' s'')).
Proof.
  unfold Revoke. destruct (if negb (is_nil (ctx_Err ctx)) then _ else _) as [[a [u|]]|err] eqn:Hd; [|by left|by left].
  accepted Hd. apply lift_ok in G4. apply read_ok in G3 as [Ha Hv]. right.
  exists ctx, (vq_LeaseID request). do 2 eexists. split; [exact Ha|]. split; [exact Hv|].
  split; [by eapply revoked_updates|]. apply swap_answer.
Qed.

Lemma validate_acts ctx ck clock s s' :
  acts s s' (fst (Validate json_Marshal ctx ck clock s s')).
Proof.
  unfold Validate. destruct (if negb (is_nil (ctx_Err ctx)) then _ else _) as [[now a]|err] eqn:Hd; [|by left].
  accepted Hd. apply read_ok in G1 as [Ha Hv].
  destruct (_ || _); [|by destruct (check_error _ _); left]. cbn [fst].
  destruct (_ && _) eqn:Hx; [|by left]. go_bool. unfold expire.
  destruct (sign _ _) as [u|] eqn:Hs; [|by left]. right.
  exists ctx, (ck_LeaseID ck). do 2 eexists. split; [exact Ha|]. split; [exact Hv|].
  split; [by apply expired_updates|done].
Qed.

Lemma coherent_acts newest older s r :
  coherent (newest :: older) -> s ∈ newest :: older -> acts s newest r -> coherent (r :: newest :: older).
Proof.
  intros Hw Hs [->|(ctx & id & a & u & Ha & Hv & Hu & ->)]; [|by eapply coherent_swap].
  pose proof Hw as (n & o & [= <- <-] & [[Hk _] _]%Forall_cons_1). by apply coherent_push.
Qed.

(** What a successful [Issue] went through. *)
Record issued (ctx : context) (request : LeaseRequest) (now : time) (s s' : MemoryLeaseStore)
    (l : CapabilityLease) (ttl heartbeat : duration) : Prop := {
  iss_live : ctx_Err ctx = None;
  iss_request : issue_request_error request = None;
  iss_grant : validateLeaseGrant (lq_Grant request) (lq_PolicyVersion request)
                (request_binding request) now = None;
  iss_ttl : issue_ttl m request now = Ok ttl;
  iss_heartbeat : issue_heartbeat m request ttl = Ok heartbeat;
  iss_lease : exists id nonce signature,
    l = (new_lease request id nonce now ttl heartbeat) ⟦ l_Signature := signature ⟧
    /\ ValidateShape (new_lease request id nonce now ttl heartbeat) = None
    /\ Sign (leaseSigningPayload json_Marshal l) = Ok signature;
  iss_fresh : s !! l_ID l = None;
  iss_store : s' = <[l_ID l := l]> s
}.

Lemma issue_ttl_ok request now ttl : issue_ttl m request now = Ok ttl ->
  ttl <= maxTTL m
  /\ (co_ExpiresAt (pd_Constraints (lq_Grant request)) <> 0 ->
      now + ttl <= co_ExpiresAt (pd_Constraints (lq_Grant request)))
  /\ (lq_NotAfter request <> 0 -> now + ttl <= lq_NotAfter request).
Proof.
  clear manager_ttl. unfold issue_ttl, IsZero, Sub. intros Hi. accepted Hi. apply granted_ttl_ok in G as [Hmax Hg].
  destruct (lq_NotAfter request =? 0) eqn:Hz; [apply Ok_inj in Hi as <-; go_bool; tauto|].
  cbv zeta in Hi. accepted Hi. repeat case_match; go_bool; unfold two63 in *; repeat split; intros; try lia.
Qed.

Lemma payload_unsigned l signature :
  leaseSigningPayload json_Marshal (l ⟦ l_Signature := signature ⟧) = leaseSigningPayload json_Marshal l.
Proof. unfold leaseSigningPayload, signing_view. rewrite !cloneLease_id. by destruct l. Qed.

Lemma put_ok ctx l s s' : Put ctx l s = Ok s' -> s !! l_ID l = None /\ s' = <[l_ID l := l]> s.
Proof.
  unfold Put. destruct (ctx_Err ctx); [done|]. intros Hp. accepted Hp. rewrite cloneLease_id.
  destruct (s !! l_ID l); [done|]. done.
Qed.

Lemma issue_ok ctx request clock uuid random s s' l :
  Issue json_Marshal m ctx request clock uuid random s = (s', Ok l) ->
  exists trusted ttl heartbeat, clock = Ok trusted
    /\ issued ctx request (leaseAuthorizationTime ctx trusted) s s' l ttl heartbeat.
Proof.
  unfold Issue. destruct (if negb (is_nil (ctx_Err ctx)) then _ else _) as [[s1 l1]|err] eqn:Hd; [|done].
  intros [= <- <-]. accepted Hd.
  match goal with Hp : Put _ _ _ = Ok _ |- _ => apply put_ok in Hp as [Hfresh ->] end.
  match goal with Hs : lift (sign _ _) = Ok _ |- _ =>
    apply lift_ok, sign_ok in Hs as (signature & Hsig & ->) end.
  repeat match goal with Hl : lift _ = Ok _ |- _ => apply lift_ok in Hl end.
  rewrite cloneLease_id. do 3 eexists. split; [done|]. split; try eassumption; try done.
  - by destruct (ctx_Err ctx).
  - do 3 eexists. split; [done|]. split; [done|]. by rewrite payload_unsigned.
Qed.

Lemma issue_err ctx request clock uuid random s s' err :
  Issue json_Marshal m ctx request clock uuid random s = (s', Err err) -> s' = s.
Proof. unfold Issue. destruct (if negb (is_nil (ctx_Err ctx)) then _ else _) as [[]|]; by intros [= <- _]. Qed.

Lemma coherent_issue newest older ctx request clock uuid random :
  coherent (newest :: older) -> is_int64 (lq_FencingToken request) = true ->
  coherent (fst (Issue json_Marshal m ctx request clock uuid random newest) :: newest :: older).
Proof.
  intros Hw Hi. pose proof Hw as (n & o & [= <- <-] & [[Hk _] _]%Forall_cons_1).
  destruct (Issue _ _ _ _ _ _ _ _) as [s' [l|err]] eqn:Hs; cbn [fst].
  - apply issue_ok in Hs as (trusted & ttl & heartbeat & _ & Hs). revert Hs.
    generalize (leaseAuthorizationTime ctx trusted) as now. intros now Hs.
    rewrite (iss_store _ _ _ _ _ _ _ _ Hs). pose proof (iss_fresh _ _ _ _ _ _ _ _ Hs) as Hf.
    apply coherent_push; [done| |by apply evolves_fresh].
    apply map_Forall_insert_2; [|done]. split; [done|].
    pose proof (issue_ttl_ok _ _ _ (iss_ttl _ _ _ _ _ _ _ _ Hs)) as [Hmax _].
    destruct (iss_lease _ _ _ _ _ _ _ _ Hs) as (id & nonce & signature & -> & _).
    unfold bounded, is_int64 in *. cbn. unfold Add. go_bool. split; [|lia].
    case_match; unfold in_int64, two63 in *; lia.
  - apply issue_err in Hs as ->. by apply coherent_push.
Qed.

Lemma perform_coherent w c w' : coherent w -> perform w c = Some w' -> coherent w'.
Proof.
  intros Hw Hp. pose proof Hw as (newest & older & -> & _).
  destruct c as [ctx request clock uuid random|ctx request clock n|ctx request clock n
                |ctx request clock n|ctx ck clock n]; cbn [perform] in Hp.
  1: { destruct (negb _) eqn:Hi; [done|]. injection Hp as <-. apply negb_false_iff in Hi.
       by apply coherent_issue. }
  all: destruct ((newest :: older) !! n) as [s|] eqn:Hs; [|done]; injection Hp as <-;
    apply list_elem_of_lookup_2 in Hs; eapply coherent_acts; eauto using renew_acts,
      heartbeat_acts, revoke_acts, validate_acts.
Qed.

(** A history pushes stores and drops none. *)
Lemma run_suffix w cs w' : run perform w cs w' -> exists newer, w' = newer ++ w.
Proof.
  induction 1 as [|w cs w1 c w2 _ [newer ->] Hs]; [by exists []|].
  assert (exists s, w2 = s :: newer ++ w) as [s ->]; [|by exists (s :: newer)].
  unfold perform in Hs. destruct (newer ++ w) as [|s o]; [done|].
  destruct c; repeat case_match; simplify_eq; eauto.
Qed.

Lemma coherent_init : coherent [NewMemoryLeaseStore].
Proof.
  exists NewMemoryLeaseStore, []. split; [done|]. constructor; [|done]. split; [|done].
  apply map_Forall_empty.
Qed.

Lemma run_coherent cs w : run perform [NewMemoryLeaseStore] cs w -> coherent w.
Proof.
  intros Hr. eapply (run_preserves perform coherent); [|exact Hr|apply coherent_init].
  intros; eauto using perform_coherent.
Qed.

(** Any store of a history has evolved into its newest one. *)
Lemma history_evolves cs w s newest :
  run perform [NewMemoryLeaseStore] cs w -> s ∈ w -> head w = Some newest -> evolves s newest.
Proof.
  intros (n & o & -> & Hw)%run_coherent Hs [= <-].
  by destruct (proj1 (Forall_forall _ _) Hw s Hs).
Qed.

(** ** Validation *)
(** The presented facts are those of the lease. *)
Record bound (ck : LeaseCheck) (l : CapabilityLease) : Prop := {
  bound_agent : ck_AgentInstanceID ck = l_AgentInstanceID l;
  bound_principal : ck_PrincipalID ck = l_PrincipalID l;
  bound_type : ck_PrincipalType ck = l_PrincipalType l;
  bound_tenant : ck_TenantID ck = l_TenantID l;
  bound_project : ck_ProjectID ck = l_ProjectID l;
  bound_project_version : ck_ProjectVersion ck = l_ProjectVersion l;
  bound_task : ck_TaskID ck = l_TaskID l;
  bound_task_version : ck_TaskVersion ck = l_TaskVersion l;
  bound_spec : ck_SpecDigest ck = l_SpecDigest l;
  bound_role : ck_Role ck = l_Role l;
  bound_action : ck_Action ck = l_Action l;
  bound_policy : ck_PolicyVersion ck = l_PolicyVersion l;
  bound_budget : ck_BudgetAccountID ck = l_BudgetAccountID l;
  bound_token : ck_FencingToken ck = l_FencingToken l;
  bound_parameters : ck_ParameterDigest ck = l_ParameterDigest l;
  bound_capability : ck_Capability ck <> "" /\ ck_Capability ck ∈ l_Capabilities l;
  bound_resource : resourcesEqual (ck_Resource ck) (l_Resource l) = true
}.

Lemma containsString_in values x : containsString values x = true <-> x ∈ values.
Proof.
  induction values as [|v values IH]; cbn; [split; [done|by intros ?%elem_of_nil]|].
  rewrite elem_of_cons, <- IH. case_bool_decide; naive_solver.
Qed.

Lemma resourcesEqual_empty r r' :
  resourcesEqual r r' = true -> resourceEmpty r = resourceEmpty r'.
Proof.
  unfold resourcesEqual, resourceEmpty. destruct (_ || _) eqn:Hne; [done|]. intros _. go_bool.
  match goal with Hn : Nat.eqb _ _ = true |- _ => apply Nat.eqb_eq in Hn end.
  by repeat match goal with He : _ = _ |- _ => rewrite He; clear He end.
Qed.

(** The fields a well-shaped lease cannot leave empty. *)
Record filled (l : CapabilityLease) : Prop := {
  filled_agent : l_AgentInstanceID l <> "";
  filled_principal : l_PrincipalID l <> "";
  filled_type : l_PrincipalType l <> "";
  filled_tenant : l_TenantID l <> "";
  filled_project : l_ProjectID l <> "";
  filled_role : l_Role l <> "";
  filled_action : l_Action l <> "";
  filled_policy : l_PolicyVersion l <> "";
  filled_budget : l_BudgetAccountID l <> "";
  filled_token : 1 <= l_FencingToken l;
  filled_resource : resourceEmpty (l_Resource l) = false;
  filled_parameters : digestPattern (l_ParameterDigest l) = true
}.

Lemma shape_filled l : ValidateShape l = None -> filled l.
Proof.
  unfold ValidateShape. intros Hs%first_error_none.
  apply Forall_cons_1 in Hs as [H1 Hs]. apply Forall_cons_1 in Hs as [H2 Hs].
  apply Forall_cons_1 in Hs as [H3 _]. apply guard_none in H1, H2, H3. go_bool.
  constructor; try done. intros Ha. rewrite Ha in *. unfold leaseActionAllowed in *.
  destruct (l_TaskID l ≟ ""); done.
Qed.

Lemma check_error_exact ck l : filled l -> check_error ck l = None <-> bound ck l.
Proof.
  intros Hf. unfold check_error. split.
  - destruct (_ || _) eqn:H1; [done|]. destruct (_ || _) eqn:H2 in |- *; [done|].
    intros H3%guard_none. go_bool. constructor; try done. by rewrite <- containsString_in.
  - intros [H1 H2 H3 H4 H5 H6 H7 H8 H9 H10 H11 H12 H13 H14 H15 [H16 H17] H18].
    apply containsString_in in H17. pose proof (resourcesEqual_empty _ _ H18) as He.
    destruct Hf. rewrite He, H1, H2, H3, H4, H5, H6, H7, H8, H9, H10, H11, H12, H13, H14, H15, H17, H18.
    go_eval. by rewrite filled_resource0, filled_parameters0.
Qed.
End Manager.
End LeaseProps.
