(* ===== verification/LeaseSafety.v ===== *)
(** What the lease manager guarantees: the theorems over histories, the exact
    condition under which a lease validates, and the life of an issued lease. *)

From S2P Require Import Prelude GoLib Runs Trace Errors Contracts Path Authz Lease LeaseProps.

Module LeaseSafety.
Import Authz.
Import Lease.
Import LeaseProps.

(** ** The HMAC signer *)
Lemma hex_decode_app l1 l2 x y :
  Trace.hex_decode l1 = Some x -> Trace.hex_decode l2 = Some y ->
  Trace.hex_decode (l1 ++ l2) = Some (x ++ y).
Proof.
  revert x. induction l1 as [l1 IH] using (induction_ltof1 _ (@length _)); intros x H1 H2.
  destruct l1 as [|a [|b l1]]; [by injection H1 as <-|done|]. cbn [Trace.hex_decode app] in *.
  destruct (Trace.hex_value a), (Trace.hex_value b); try done.
  destruct (Trace.hex_decode l1) as [r|] eqn:Hr; [|done]. injection H1 as <-.
  rewrite (IH l1) with (x := r); [done| |done|done]. unfold ltof. cbn. lia.
Qed.

Lemma hex_decode_encode l :
  Forall (fun v => 0 <= v < 256) l -> Trace.hex_decode (Trace.hex_encode l) = Some l.
Proof.
  induction 1 as [|v l Hv _ IH]; [done|]. unfold Trace.hex_encode. cbn [map concat].
  by apply (hex_decode_app _ _ [v] l); [apply Trace.hex_decode_byte|].
Qed.

Lemma is_prefix_app p l : is_prefix p (p ++ l) = true.
Proof. induction p as [|c p IH]; cbn; [done|]. by rewrite bool_decide_eq_true_2. Qed.

Lemma TrimPrefix_app p s : TrimPrefix (p +:+ s) p = s.
Proof.
  unfold TrimPrefix, HasPrefix, slice_from. rewrite bytes_concat, is_prefix_app.
  replace (String.length p) with (length (bytes p)) by apply Trace.length_bytes.
  rewrite drop_app_length. apply Trace.of_bytes_bytes.
Qed.

#[export] Instance HMACSigner_laws (hmac_SHA256 : list ascii -> string -> list Z) (key : list ascii) :
  (forall payload, length (hmac_SHA256 key payload) = 32%nat
     /\ Forall (fun v => 0 <= v < 256) (hmac_SHA256 key payload)) ->
  @SignerLaws (HMACSigner hmac_SHA256 key).
Proof.
  intros Hmac. constructor. intros payload signature. cbn. unfold HMACSigner_Sign, HMACSigner_Verify.
  destruct (Nat.ltb _ _); [done|]. intros <-%Ok_inj. destruct (Hmac payload) as [Hl Hr].
  rewrite TrimPrefix_app. rewrite Trace.bytes_of_bytes, hex_decode_encode by done.
  unfold HasPrefix. rewrite bytes_concat, is_prefix_app, Hl. cbn.
  by rewrite bool_decide_eq_true_2.
Qed.

(** ** Histories *)
Section Histories.
Context `{Signer} (json_Marshal : leaseSigningView -> string) (m : LeaseManager).
Context (manager_ttl : defaultTTL m <= maxTTL m).

Lemma later_spec a b : in_int64 (l_FencingToken a) -> later a b ->
  identity b = identity a
  /\ (1 <= l_FencingToken b -> l_FencingToken a <= l_FencingToken b)
  /\ (l_State a <> LeaseActive -> b = a)
  /\ (l_State a = LeaseActive -> l_State b <> LeaseActive -> l_FencingToken b <> l_FencingToken a).
Proof.
  intros Hi [Hid Hl]. split; [done|]. destruct Hl as [->|(Ha & Hr & Hs)]; [done|].
  unfold rank in *. split; [|split; [done|]].
  - intros Hb. destruct (l_FencingToken b <? 1) eqn:Hbt; go_bool; [lia|].
    destruct (l_FencingToken a <? 1) eqn:Hat; go_bool; lia.
  - intros _ Hb He. specialize (Hs Hb). rewrite He in Hs. lia.
Qed.

(** The worlds after [w] keep what [w] holds. *)
Lemma history_later cs s w cs' s' w' id a :
  run (perform json_Marshal m) [NewMemoryLeaseStore] cs (s :: w) ->
  run (perform json_Marshal m) (s :: w) cs' (s' :: w') -> s !! id = Some a ->
  (exists b, s' !! id = Some b /\ later a b)
  /\ in_int64 (l_FencingToken a) /\ l_ID a = id /\ bounded m a.
Proof.
  intros Hr Hr' Ha. pose proof (run_suffix _ _ _ _ _ Hr') as [newer Hw].
  assert (Hin : s ∈ s' :: w') by (rewrite Hw; apply elem_of_app; right; by left).
  pose proof (run_app _ _ _ _ _ _ Hr Hr') as Hall. split.
  - by eapply (history_evolves json_Marshal m manager_ttl _ _ s s' Hall).
  - apply run_coherent in Hr as (n & o & [= <- <-] & [[Hk _] _]%Forall_cons_1); [|done].
    by destruct (Hk _ _ Ha) as (? & ? & ?).
Qed.

(** An operation refuses a lease it finds inactive. *)
Lemma inactive_refused s id l :
  s !! id = Some l -> l_State l <> LeaseActive ->
  (forall ctx ck clock t, ck_LeaseID ck = id ->
     is_ok (snd (Validate json_Marshal ctx ck clock s t)) = false)
  /\ (forall ctx request clock t, rq_LeaseID request = id ->
     is_ok (snd (Renew json_Marshal m ctx request clock s t)) = false)
  /\ (forall ctx request clock t, hq_LeaseID request = id ->
     is_ok (snd (Heartbeat json_Marshal m ctx request clock s t)) = false)
  /\ (forall ctx clock, is_ok (ValidateActive json_Marshal ctx id clock s) = false).
Proof.
  intros Hl Hst.
  assert (Hread : forall ctx tenant missing, match read json_Marshal ctx tenant id missing s with
    Ok a => a = l | Err _ => True end).
  { intros ctx tenant missing. destruct (read _ _ _ _ _ _) as [a|] eqn:Hr; [|done].
    apply read_ok in Hr as [Ha _]. congruence. }
  repeat split; intros; try subst id.
  - unfold Validate. specialize (Hread ctx (ck_TenantID ck) CodeLeaseExpired).
    destruct (negb (is_nil _)), clock; try done. cbn [lift rbind].
    destruct (read _ _ _ _ _ _); [|done]. cbn [rbind]. rewrite Hread. by rewrite (bool_decide_eq_false_2 _ Hst).
  - unfold Renew. specialize (Hread ctx (rq_TenantID request) CodeNotFound).
    destruct (negb (is_nil _)); [done|]. destruct (_ && _); [done|]. destruct clock; [|done]. cbn [lift rbind].
    destruct (read _ _ _ _ _ _); [|done]. cbn [rbind]. rewrite Hread. unfold renewed.
    by rewrite (bool_decide_eq_false_2 _ Hst).
  - unfold Heartbeat. specialize (Hread ctx (hq_TenantID request) CodeNotFound).
    destruct (negb (is_nil _)), clock; try done. cbn [lift rbind].
    destruct (read _ _ _ _ _ _); [|done]. cbn [rbind]. rewrite Hread. unfold heartbeaten.
    by rewrite (bool_decide_eq_false_2 _ Hst).
  - unfold ValidateActive. specialize (Hread ctx "" CodeLeaseExpired). destruct (negb (is_nil _)); [done|].
    destruct (read _ _ _ _ _ _); [|done]. cbn [rbind]. destruct clock; [|done]. cbn [lift rbind].
    rewrite Hread. by rewrite (bool_decide_eq_false_2 _ Hst).
Qed.

Lemma revoke_store ctx request clock s s' x y :
  fst (Revoke json_Marshal ctx request clock s s' x) = fst (Revoke json_Marshal ctx request clock s s' y).
Proof.
  unfold Revoke. destruct (if negb (is_nil (ctx_Err ctx)) then _ else _) as [[a [u|]]|]; [|done|done].
  apply swap_answer.
Qed.

(** What an acknowledged revocation leaves behind, in one of the two stores. *)
Lemma revoke_ok ctx request clock s s' s'' s1 :
  (forall a, s !! vq_LeaseID request = Some a -> l_ID a = vq_LeaseID request) ->
  Revoke json_Marshal ctx request clock s s' s'' = (s1, Ok tt) ->
  exists t l, (t = s \/ t = s1 \/ t = s'') /\ t !! vq_LeaseID request = Some l /\ l_State l <> LeaseActive.
Proof.
  unfold Revoke. intros Hk.
  destruct (if negb (is_nil (ctx_Err ctx)) then _ else _) as [[a o]|] eqn:Hd; [|done].
  assert (Ha : s !! vq_LeaseID request = Some a /\ exists now, revoked json_Marshal request now a = Ok o).
  { accepted Hd. apply lift_ok in G4. apply read_ok in G3 as [? _]. eauto. }
  clear Hd. destruct Ha as [Ha [now Hr]]. specialize (Hk _ Ha). destruct o as [u|].
  - apply (revoked_updates json_Marshal m) in Hr as (_ & Hu & _).
    match goal with |- swap _ _ _ _ ?lost _ = _ -> _ => set (L := lost) end.
    destruct (swap_cases ctx a u tt L s') as [->|[(err & ->)|(b & _ & _ & ->)]].
    + intros [= <- HL]. unfold L in HL.
      destruct (Get _ _ s'') as [[latest|]|] eqn:Hg; try done.
      destruct (_ && _) eqn:Hst; [|done]. exists s'', latest. go_bool.
      unfold Get in Hg. destruct (ctx_Err _); [done|]. destruct (s'' !! _) as [l|]; [|done].
      destruct (_ && _); [done|]. rewrite cloneLease_id in Hg. injection Hg as ->.
      split; [tauto|]. split; [done|]. by rewrite H0.
    + done.
    + intros [= <-]. exists (<[l_ID a := u]> s'), u. rewrite Hk, lookup_insert_eq, Hu. auto.
  - intros [= <-]. exists s, a. split; [tauto|]. split; [done|].
    unfold revoked in Hr. accepted Hr. destruct (l_State a ≠? LeaseActive) eqn:Hst; [by go_bool|].
    by destruct (sign _ _).
Qed.

End Histories.

(** ** Validation *)
Section Validation.
Context `{Signer} (json_Marshal : leaseSigningView -> string).

Lemma read_tenant ctx id missing s a :
  ctx_Err ctx = None -> s !! id = Some a -> l_TenantID a <> "" -> verify json_Marshal a = None ->
  read json_Marshal ctx (l_TenantID a) id missing s = Ok a.
Proof.
  intros Hctx Ha Ht Hv. unfold read, Get, withLeaseTenant. rewrite (bool_decide_eq_false_2 _ Ht).
  destruct ctx as [err tenant principal at_]. cbn in *. subst err. rewrite Ha. unfold leaseTenantID. cbn.
  rewrite (bool_decide_eq_false_2 _ Ht). cbn. rewrite (bool_decide_eq_true_2 (l_TenantID a = l_TenantID a)) by done.
  rewrite andb_false_r. cbn [rbind]. by rewrite cloneLease_id, Hv.
Qed.

Lemma read_live ctx tenant id missing s a :
  read json_Marshal ctx tenant id missing s = Ok a -> ctx_Err ctx = None.
Proof.
  unfold read, Get, withLeaseTenant. destruct (tenant ≟ ""), ctx as [err t p at_]; cbn; by destruct err.
Qed.

(** A lease that verifies, is active and is not expired at [now]. *)
Definition usable (now : time) (l : CapabilityLease) : Prop :=
  verify json_Marshal l = None /\ l_State l = LeaseActive /\ IsExpired l now = false.

Lemma validate_usable ctx ck trusted s t l :
  ctx_Err ctx = None -> s !! ck_LeaseID ck = Some l -> usable (leaseAuthorizationTime ctx trusted) l ->
  bound ck l -> Validate json_Marshal ctx ck (Ok trusted) s t = (t, Ok l).
Proof.
  intros Hctx Hl (Hv & Ha & He) Hb. pose proof (shape_filled l (proj1 (verify_ok _ _ Hv))) as Hf.
  unfold Validate. rewrite Hctx. cbn [is_nil negb lift rbind].
  rewrite (bound_tenant _ _ Hb), (read_tenant _ _ _ _ l) by (try done; apply (filled_tenant _ Hf)).
  cbn [rbind]. rewrite Ha, He, bool_decide_eq_true_2 by done. cbn.
  by rewrite (proj2 (check_error_exact ck l Hf) Hb).
Qed.

Lemma validate_ok ctx ck clock s t t' l :
  Validate json_Marshal ctx ck clock s t = (t', Ok l) ->
  t' = t /\ ctx_Err ctx = None /\ s !! ck_LeaseID ck = Some l /\ bound ck l
  /\ exists trusted, clock = Ok trusted /\ usable (leaseAuthorizationTime ctx trusted) l.
Proof.
  unfold Validate. destruct (if negb (is_nil (ctx_Err ctx)) then _ else _) as [[now a]|] eqn:Hd; [|done].
  accepted Hd. pose proof (read_live _ _ _ _ _ _ G1) as Hctx. apply read_ok in G1 as [Ha Hv].
  apply lift_ok in G0 as ->. destruct (_ || _) eqn:Hact; [done|].
  destruct (check_error _ _) eqn:Hc; [done|]. intros [= <- <-].
  apply check_error_exact in Hc; [|by apply shape_filled, (verify_ok json_Marshal)].
  go_bool. unfold usable. eauto 10.
Qed.
End Validation.

(** ** Issued leases *)
Section Issued.
Context `{SignerLaws} (json_Marshal : leaseSigningView -> string) (m : LeaseManager).

Lemma shape_signature l signature :
  ValidateShape (l ⟦ l_Signature := signature ⟧) = ValidateShape l.
Proof. by destruct l. Qed.

Lemma issued_verifies ctx request now s s' l ttl heartbeat :
  issued json_Marshal m ctx request now s s' l ttl heartbeat -> verify json_Marshal l = None.
Proof.
  intros Hi. destruct (iss_lease _ _ _ _ _ _ _ _ _ _ Hi) as (id & nonce & signature & -> & Hs & Hg).
  unfold verify. rewrite shape_signature, Hs. by apply verify_sign.
Qed.

(** The beats of an issued lease: whole seconds, three of them within its life. *)
Lemma issue_heartbeat_ok request ttl heartbeat :
  issue_heartbeat m request ttl = Ok heartbeat ->
  0 < Z.quot heartbeat Second <= 300 /\ heartbeat = Z.quot heartbeat Second * Second /\ 3 * heartbeat <= ttl.
Proof.
  unfold issue_heartbeat. intros Hh. accepted Hh. go_bool.
  set (h := if lq_HeartbeatInterval request <=? 0 then heartbeatInterval m
            else lq_HeartbeatInterval request) in *. clearbody h. unfold Minute, Second in *.
  assert (Hq : 0 <= ttl) by (destruct (decide (0 <= ttl)); [done|];
    pose proof (Z.quot_le_mono ttl 0 3 ltac:(lia) ltac:(lia)); rewrite Z.quot_0_l in *; lia).
  rewrite Z.quot_div_nonneg in * by lia. rewrite Z.rem_mod_nonneg in * by lia.
  Z.div_mod_to_equations. lia.
Qed.

Lemma heartbeat_window_small n : 0 <= n <= 300 -> heartbeat_window n = 3 * n * Second.
Proof.
  intros Hn. unfold heartbeat_window, Second. rewrite !wrap64_id; [done|..];
    unfold in_int64, two63; try lia. rewrite wrap64_id; unfold in_int64, two63; lia.
Qed.

(** When an issued lease is unexpired. *)
Lemma issued_alive ctx request now s s' l ttl heartbeat t :
  issued json_Marshal m ctx request now s s' l ttl heartbeat ->
  t < l_ExpiresAt l ->
  isOperationLease l = true \/ t < l_IssuedAt l + 3 * l_HeartbeatIntervalSeconds l * Second ->
  IsExpired l t = false.
Proof.
  intros Hi Ht Hw. pose proof (issue_heartbeat_ok _ _ _ (iss_heartbeat _ _ _ _ _ _ _ _ _ _ Hi)) as (Hq & _ & _).
  destruct (iss_lease _ _ _ _ _ _ _ _ _ _ Hi) as (id & nonce & signature & -> & Hs & _).
  unfold ValidateShape in Hs. apply first_error_none, Forall_cons_1 in Hs as [Hs _].
  apply guard_none in Hs. unfold IsExpired.
  set (l := update l_Signature _ _) in *. change (l_HeartbeatIntervalSeconds l) with (Z.quot heartbeat Second) in *.
  change (l_IssuedAt l) with now in Hw. change (l_LastHeartbeatAt l) with now.
  assert (Hz : IsZero (l_ExpiresAt l) = false) by (change (IsZero (l_ExpiresAt (new_lease request id nonce now ttl heartbeat)) = false); by go_bool).
  rewrite Hz. unfold Before. go_eval. destruct (isOperationLease l); [done|].
  destruct Hw as [|Hw]; [done|]. rewrite heartbeat_window_small by lia. unfold Add. go_eval.
  by rewrite andb_false_r.
Qed.
End Issued.

Lemma new_manager_ttl config m : NewLeaseManager config = Ok m -> defaultTTL m <= maxTTL m.
Proof. unfold NewLeaseManager. intros Hm. accepted Hm. by go_bool. Qed.

(** C25: [Validate] accepts exactly when the context lives, the clock answers
    and the lease found under the identifier is validly shaped and signed,
    active, unexpired, and bound to every fact presented with it; it then
    returns that lease and leaves the store alone. *)
Theorem validate_exact `{Signer} json_Marshal ctx ck clock s t t' l :
  Validate json_Marshal ctx ck clock s t = (t', Ok l) <->
  t' = t /\ ctx_Err ctx = None /\ s !! ck_LeaseID ck = Some l /\ bound ck l
  /\ exists trusted, clock = Ok trusted
       /\ usable json_Marshal (leaseAuthorizationTime ctx trusted) l.
Proof.
  split; [apply validate_ok|]. intros (-> & Hctx & Hl & Hb & trusted & -> & Hu).
  by apply validate_usable.
Qed.

(** C27: The lease [Issue] returns validates for its facts, in the store [Issue]
    left, until it expires and for three heartbeat intervals (an operation
    lease needs no heartbeat), under a signer that verifies what it signed. *)
Theorem issued_lease_validates `{SignerLaws} json_Marshal m ctx request clock uuid random s s' l
    ctx' ck trusted t :
  Issue json_Marshal m ctx request clock uuid random s = (s', Ok l) ->
  ctx_Err ctx' = None -> bound ck l -> ck_LeaseID ck = l_ID l ->
  leaseAuthorizationTime ctx' trusted < l_ExpiresAt l ->
  isOperationLease l = true
    \/ leaseAuthorizationTime ctx' trusted < l_IssuedAt l + 3 * l_HeartbeatIntervalSeconds l * Second ->
  Validate json_Marshal ctx' ck (Ok trusted) s' t = (t, Ok l).
Proof.
  intros (tr & ttl & heartbeat & _ & Hi)%issue_ok Hctx Hb Hid Ht Hw.
  apply validate_usable; try done.
  - rewrite Hid, (iss_store _ _ _ _ _ _ _ _ _ _ Hi). apply lookup_insert_eq.
  - split; [by eapply issued_verifies|]. split; [|by eapply issued_alive].
    by destruct (iss_lease _ _ _ _ _ _ _ _ _ _ Hi) as (id & nonce & signature & -> & _).
Qed.

(** An issued lease is active, starts at the authorization time, and ends
    within the manager's maximum, the expiry of its policy grant and the
    deadline of the request; its heartbeat interval is between one second and
    five minutes and three intervals fit in its life. *)
Theorem issue_bounds `{Signer} json_Marshal m ctx request trusted uuid random s s' l :
  Issue json_Marshal m ctx request (Ok trusted) uuid random s = (s', Ok l) ->
  let now := leaseAuthorizationTime ctx trusted in
  l_State l = LeaseActive /\ l_IssuedAt l = now
  /\ now < l_ExpiresAt l <= now + maxTTL m
  /\ (co_ExpiresAt (pd_Constraints (lq_Grant request)) <> 0 ->
      l_ExpiresAt l <= co_ExpiresAt (pd_Constraints (lq_Grant request)))
  /\ (lq_NotAfter request <> 0 -> l_ExpiresAt l <= lq_NotAfter request)
  /\ 1 <= l_HeartbeatIntervalSeconds l <= 300
  /\ now + 3 * l_HeartbeatIntervalSeconds l * Second <= l_ExpiresAt l.
Proof.
  intros (tr & ttl & heartbeat & [= <-] & Hi)%issue_ok. cbv zeta. revert Hi.
  generalize (leaseAuthorizationTime ctx trusted) as now. intros now Hi.
  pose proof (issue_heartbeat_ok _ _ _ _ (iss_heartbeat _ _ _ _ _ _ _ _ _ _ Hi)) as (Hq & He & H3).
  pose proof (iss_ttl _ _ _ _ _ _ _ _ _ _ Hi) as Httl. apply issue_ttl_ok in Httl as (Hmax & Hg & Hn).
  destruct (iss_lease _ _ _ _ _ _ _ _ _ _ Hi) as (id & nonce & signature & -> & _).
  cbn [l_State l_IssuedAt l_ExpiresAt l_HeartbeatIntervalSeconds update new_lease]. unfold Add.
  unfold Second in *. repeat split; intros; try lia. all: cbn; try lia.
Qed.

(** C25: Whatever operations of one lease store interleave, and however stale
    the store each of them read, a lease keeps the identity it was issued with,
    its fencing token never goes back while the lease is usable, leaving the
    active state changes the token, and a lease that is no longer active never
    changes again. *)
Theorem lease_history `{Signer} json_Marshal config m cs s w cs' s' w' id a :
  NewLeaseManager config = Ok m ->
  run (perform json_Marshal m) [NewMemoryLeaseStore] cs (s :: w) ->
  run (perform json_Marshal m) (s :: w) cs' (s' :: w') -> s !! id = Some a ->
  exists b, s' !! id = Some b
    /\ identity b = identity a
    /\ (1 <= l_FencingToken b -> l_FencingToken a <= l_FencingToken b)
    /\ (l_State a <> LeaseActive -> b = a)
    /\ (l_State a = LeaseActive -> l_State b <> LeaseActive -> l_FencingToken b <> l_FencingToken a).
Proof.
  intros Hm%new_manager_ttl Hr Hr' Ha.
  destruct (history_later json_Marshal m Hm _ _ _ _ _ _ _ _ Hr Hr' Ha) as ((b & Hb & Hl) & Hi & _).
  exists b. split; [done|]. by apply later_spec.
Qed.

(** C26: However operations interleave, no stored lease outlives its last
    heartbeat by more than the manager's maximum time to live: heartbeats and
    renewals extend a lease, but only from the moment they happen. *)
Theorem lease_life_bounded `{Signer} json_Marshal config m cs s w id a :
  NewLeaseManager config = Ok m ->
  run (perform json_Marshal m) [NewMemoryLeaseStore] cs (s :: w) -> s !! id = Some a ->
  l_ExpiresAt a <= l_LastHeartbeatAt a + maxTTL m /\ in_int64 (l_FencingToken a) /\ l_ID a = id.
Proof.
  intros Hm%new_manager_ttl Hr Ha.
  destruct (history_later json_Marshal m Hm _ _ _ _ _ _ _ _ Hr (run_nil _ _) Ha)
    as (_ & Hi & Hid & Hb). split; [exact Hb|done].
Qed.

(** Once [Revoke] has answered without error, no operation that reads the
    store afterwards accepts the lease, whatever ran concurrently with the
    revocation ([s] is the store it read, [s'] the one it swapped against, and
    [s''] the one it looked at again if the swap was lost). *)
Theorem revocation_final `{Signer} json_Marshal config m cs s s' w ctx request clock s'' s1 n cs1 s2 w2 :
  NewLeaseManager config = Ok m ->
  run (perform json_Marshal m) [NewMemoryLeaseStore] cs (s' :: w) -> (s' :: w) !! n = Some s ->
  Revoke json_Marshal ctx request clock s s' s'' = (s1, Ok tt) ->
  run (perform json_Marshal m) (s1 :: s' :: w) cs1 (s2 :: w2) -> s'' ∈ s2 :: w2 ->
  (forall ctx' ck clock' t, ck_LeaseID ck = vq_LeaseID request ->
     is_ok (snd (Validate json_Marshal ctx' ck clock' s2 t)) = false)
  /\ (forall ctx' request' clock' t, rq_LeaseID request' = vq_LeaseID request ->
     is_ok (snd (Renew json_Marshal m ctx' request' clock' s2 t)) = false)
  /\ (forall ctx' request' clock' t, hq_LeaseID request' = vq_LeaseID request ->
     is_ok (snd (Heartbeat json_Marshal m ctx' request' clock' s2 t)) = false)
  /\ (forall ctx' clock', is_ok (ValidateActive json_Marshal ctx' (vq_LeaseID request) clock' s2) = false).
Proof.
  intros Hm%new_manager_ttl Hr Hs Hv Hr1 Hs''.
  assert (Hrun : run (perform json_Marshal m) [NewMemoryLeaseStore] (cs ++ CRevoke ctx request clock n :: cs1)
                   (s2 :: w2)).
  { change (CRevoke ctx request clock n :: cs1) with ([CRevoke ctx request clock n] ++ cs1).
    rewrite app_assoc. eapply run_app; [|exact Hr1]. econstructor; [exact Hr|]. cbn [perform].
    rewrite Hs. do 2 f_equal. rewrite <- (f_equal fst Hv : _ = s1). apply revoke_store. }
  pose proof (run_suffix _ _ _ _ _ Hr1) as [newer Hw].
  assert (Hkey : forall a, s !! vq_LeaseID request = Some a -> l_ID a = vq_LeaseID request).
  { apply run_coherent in Hr as (k & o & Hko & Hall); [|done]. intros a Ha.
    destruct (proj1 (Forall_forall _ _) Hall s) as [Hk _]; [by eapply list_elem_of_lookup_2|].
    by destruct (Hk _ _ Ha). }
  destruct (revoke_ok json_Marshal m _ _ _ _ _ _ _ Hkey Hv) as (t & l & Ht & Hl & Hst).
  assert (Hin : t ∈ s2 :: w2).
  { apply list_elem_of_lookup_2 in Hs. destruct Ht as [ -> | [ -> | -> ]]; [| |done];
      rewrite Hw; apply elem_of_app; right; [by right|by left]. }
  destruct (history_evolves json_Marshal m Hm _ _ _ _ Hrun Hin eq_refl _ _ Hl) as (l' & Hl' & _ & [ -> | [? _]]);
    [|done].
  by eapply inactive_refused.
Qed.

(** ** A lease and its life, as concrete instances *)
Definition toy_hmac (key : list ascii) (payload : string) : list Z := repeat 7 32.
Definition toy_key : list ascii := repeat "k"%char 32.
#[local] Instance toy_signer : Signer := HMACSigner toy_hmac toy_key.
#[local] Instance toy_laws : SignerLaws.
Proof. apply HMACSigner_laws. intros payload. split; [done|]. by repeat constructor. Qed.
Definition toy_json (view : leaseSigningView) : string := l_ID (signed view).

Definition ex_digest : string :=
  "sha256:aaaaaaaaaaaaaaaaaaaaaaaaaaaaaaaaaaaaaaaaaaaaaaaaaaaaaaaaaaaaaaaa".
Definition ex_config : LeaseManagerConfig := mkLeaseManagerConfig 0 0 0.
Definition ex_manager : LeaseManager := mkLeaseManager (5 * Minute) (15 * Minute) (30 * Second).
Definition ex_principal : Principal :=
  mkPrincipal "agent-1" PrincipalAgentInstance RoleExecutor "tenant-1" "project-1" "" "" ∅.
Definition ex_resource : Resource := mkResource "repository" "repo-1" "src/main.go" {["branch" := "main"]}.
Definition ex_now : time := 1000 * Second.
Definition ex_ctx : context := mkContext None "" None 0.
Definition ex_binding : DecisionBinding :=
  mkDecisionBinding "agent-1" "tenant-1" "project-1" 4 "task-1" 2 ex_digest RoleExecutor ActionRepoWrite
    ex_resource ex_digest "budget-1".
Definition ex_grant : PolicyDecision :=
  mkPolicyDecision DecisionAllow "policy-1" (zeroConstraints ⟦ co_ExpiresAt := ex_now + 4 * Minute ⟧)
    ["ROLE_ALLOWED"] "aor.repo.owned_path" (Some ex_binding).
Definition ex_request : LeaseRequest :=
  mkLeaseRequest "lease-1" "key-1" "" ex_principal "tenant-1" "project-1" 4 "task-1" 2 ex_digest RoleExecutor
    ActionRepoWrite ex_resource ex_digest [ActionRepoWrite] "policy-1" "budget-1" 0 0 ex_grant ex_digest 0 0.
Definition ex_issue : MemoryLeaseStore * result CapabilityLease lease_error :=
  Issue toy_json ex_manager ex_ctx ex_request (Ok ex_now) (Err "unused") (Ok ex_digest) NewMemoryLeaseStore.
Definition ex_lease : CapabilityLease :=
  (new_lease ex_request "lease-1" ex_digest ex_now (4 * Minute) (30 * Second))
    ⟦ l_Signature := "hmac-sha256:0707070707070707070707070707070707070707070707070707070707070707" ⟧.
Definition ex_store : MemoryLeaseStore := fst ex_issue.
Definition ex_check : LeaseCheck :=
  mkLeaseCheck "lease-1" "agent-1" "agent-1" PrincipalAgentInstance "tenant-1" "project-1" 4 "task-1" 2
    ex_digest RoleExecutor ActionRepoWrite ex_resource ex_digest "policy-1" "budget-1" ActionRepoWrite 1.
Definition ex_revoke : LeaseRevokeRequest :=
  mkLeaseRevokeRequest "lease-1" "project-1" "task-1" ex_principal "operator" ex_digest.
Definition ex_revocation := Revoke toy_json ex_ctx ex_revoke (Ok (ex_now + Second)) ex_store ex_store ex_store.
Definition ex_revoked : MemoryLeaseStore := fst ex_revocation.

Lemma ex_issue_ok : ex_issue = (ex_store, Ok ex_lease).
Proof. vm_eq. Qed.
Lemma ex_revocation_ok : ex_revocation = (ex_revoked, Ok tt).
Proof. apply (pair_parts ex_revocation (Ok tt)). vm_eq. Qed.
Lemma ex_bound : bound ex_check ex_lease.
Proof. constructor; try (by vm_compute). split; [done|]. by left. Qed.
Lemma ex_issue_run : run (perform toy_json ex_manager) [NewMemoryLeaseStore]
  [CIssue ex_ctx ex_request (Ok ex_now) (Err "unused") (Ok ex_digest)] [ex_store; NewMemoryLeaseStore].
Proof. apply exec_run. vm_eq. Qed.

Lemma validate_exact_witness :
  Validate toy_json ex_ctx ex_check (Ok (ex_now + Minute)) ex_store ex_store = (ex_store, Ok ex_lease).
Proof.
  apply validate_exact. split; [done|]. split; [done|]. split; [vm_eq|]. split; [exact ex_bound|].
  exists (ex_now + Minute). split; [done|]. by vm_compute.
Defined.

Lemma issued_lease_validates_witness :
  Validate toy_json ex_ctx ex_check (Ok (ex_now + Minute)) ex_store ∅ = (∅, Ok ex_lease).
Proof.
  apply (issued_lease_validates toy_json ex_manager ex_ctx ex_request (Ok ex_now) (Err "unused") (Ok ex_digest)
           NewMemoryLeaseStore); [vm_eq|vm_eq|exact ex_bound|vm_eq|done|by right].
Defined.

Lemma issue_bounds_witness :
  ex_issue = (ex_store, Ok ex_lease)
  /\ ex_now < l_ExpiresAt ex_lease <= ex_now + 15 * Minute
  /\ l_ExpiresAt ex_lease <= ex_now + 4 * Minute.
Proof.
  split; [exact ex_issue_ok|].
  destruct (issue_bounds toy_json ex_manager ex_ctx ex_request ex_now (Err "unused") (Ok ex_digest)
              NewMemoryLeaseStore ex_store ex_lease ex_issue_ok) as (_ & _ & Hb & Hg & _).
  split; [exact Hb|]. apply Hg. by vm_compute.
Defined.

Lemma lease_history_witness :
  exists b, ex_revoked !! "lease-1" = Some b /\ identity b = identity ex_lease
    /\ (1 <= l_FencingToken b -> l_FencingToken ex_lease <= l_FencingToken b)
    /\ (l_State ex_lease <> LeaseActive -> b = ex_lease)
    /\ (l_State ex_lease = LeaseActive -> l_State b <> LeaseActive ->
        l_FencingToken b <> l_FencingToken ex_lease).
Proof.
  apply (lease_history toy_json ex_config ex_manager
    [CIssue ex_ctx ex_request (Ok ex_now) (Err "unused") (Ok ex_digest)] ex_store [NewMemoryLeaseStore]
    [CRevoke ex_ctx ex_revoke (Ok (ex_now + Second)) 0] ex_revoked [ex_store; NewMemoryLeaseStore] "lease-1");
    [vm_eq|exact ex_issue_run| |vm_eq].
  apply exec_run. vm_eq.
Defined.

Lemma lease_life_bounded_witness :
  ex_store !! "lease-1" = Some ex_lease
  /\ l_ExpiresAt ex_lease <= l_LastHeartbeatAt ex_lease + maxTTL ex_manager
  /\ in_int64 (l_FencingToken ex_lease) /\ l_ID ex_lease = "lease-1".
Proof.
  split; [vm_eq|].
  apply (lease_life_bounded toy_json ex_config ex_manager _ ex_store _ _ ex_lease eq_refl ex_issue_run).
  vm_eq.
Defined.

Lemma revocation_final_witness :
  is_ok (snd (Validate toy_json ex_ctx ex_check (Ok (ex_now + 2 * Second)) ex_revoked ex_revoked)) = false.
Proof.
  destruct (revocation_final toy_json ex_config ex_manager
    [CIssue ex_ctx ex_request (Ok ex_now) (Err "unused") (Ok ex_digest)] ex_store ex_store
    [NewMemoryLeaseStore] ex_ctx ex_revoke (Ok (ex_now + Second)) ex_store ex_revoked 0 [] ex_revoked
    [ex_store; NewMemoryLeaseStore]) as [Hv _];
    [vm_eq|exact ex_issue_run|done|exact ex_revocation_ok|apply run_nil|right; left|].
  by apply Hv.
Defined.

(** A renewal that keeps the fencing token is invisible to the swap of a
    heartbeat that read the lease before it: both succeed, and the heartbeat
    puts the earlier expiry back. *)
Definition ex_renewal : LeaseRenewalRequest :=
  mkLeaseRenewalRequest "lease-1" "tenant-1" 1 "agent-1" PrincipalAgentInstance RoleExecutor "policy-1"
    (10 * Minute) (ex_grant ⟦ pd_Constraints := zeroConstraints ⟧) "" true.
Definition ex_heartbeat : LeaseHeartbeatRequest :=
  mkLeaseHeartbeatRequest "lease-1" "tenant-1" "project-1" "task-1" "agent-1" 1.
Definition ex_expiry (r : MemoryLeaseStore * result CapabilityLease lease_error) : option time :=
  match snd r with Ok l => Some (l_ExpiresAt l) | Err _ => None end.
Lemma stale_heartbeat_undoes_renewal :
  let renewal := Renew toy_json ex_manager ex_ctx ex_renewal (Ok (ex_now + Second)) ex_store ex_store in
  let heartbeat :=
    Heartbeat toy_json ex_manager ex_ctx ex_heartbeat (Ok (ex_now + 2 * Second)) ex_store (fst renewal) in
  ex_expiry renewal = Some (ex_now + 10 * Minute + Second)
  /\ ex_expiry heartbeat = Some (ex_now + 5 * Minute + 2 * Second)
  /\ l_ExpiresAt <$> (fst heartbeat !! "lease-1") = Some (ex_now + 5 * Minute + 2 * Second).
Proof. cbv zeta. repeat split; vm_eq. Qed.
End LeaseSafety.
