(* ===== verification/Engine.v ===== *)
(** The policy engine ([internal/authz/engine.go]): what [Evaluate] decides at a
    commit boundary, what [EvaluateLeaseGrant] decides before a lease exists,
    and the default decision both start from.

    A rule is any function of the input (the interface [Rule]; a nil rule is
    [None]), the approval verifier is any function of the approval, and the
    lease manager is the one of [Lease.v] or nil.  [Evaluate] reaches the lease
    store through [Validate], so it takes the store it reads and the store it
    may write, as [Validate] does.  [wall] is the reading of the engine's clock
    and [lease_clock] that of the lease manager's. *)

From S2P Require Import Prelude GoLib Trace Errors Contracts Path Authz Lease.

Module Engine.
Import Authz.
Import Lease.

Definition Rule : Type := PolicyInput -> PolicyDecision * bool.
Definition ApprovalVerifier : Type := Approval -> option string.

Record PolicyBundle : Type := mkPolicyBundle {
  bu_Version : string;
  bu_Digest : string;
  bu_Available : bool;
  bu_Rules : list (option Rule)
}.

Record EngineConfig : Type := mkEngineConfig {
  ec_Bundle : PolicyBundle;
  ec_LeaseManager : option LeaseManager;
  ec_ApprovalVerifier : option ApprovalVerifier;
  ec_MaxWriteBytes : Z
}.

Record Engine : Type := mkEngine {
  bundle : PolicyBundle;
  leases : option LeaseManager;
  approvals : option ApprovalVerifier;
  maxWriteBytes : Z
}.

#[global] Instance eta_bundle : Eta PolicyBundle := fun b =>
  mkPolicyBundle (bu_Version b) (bu_Digest b) (bu_Available b) (bu_Rules b).

Definition NewEngine (config : EngineConfig) : Engine :=
  let maxBytes := if ec_MaxWriteBytes config <=? 0 then Z.shiftl 1 20 else ec_MaxWriteBytes config in
  mkEngine ((ec_Bundle config) ⟦ bu_Rules := copy_slice (bu_Rules (ec_Bundle config)) ⟧)
    (ec_LeaseManager config) (ec_ApprovalVerifier config) maxBytes.

(** ** Decisions *)
Definition denyDecision (version reason : string) : PolicyDecision :=
  mkPolicyDecision DecisionDeny version zeroConstraints [reason] "aor.default.deny" None.
Definition approvalDecision (version reason : string) : PolicyDecision :=
  mkPolicyDecision DecisionApprovalRequired version zeroConstraints [reason] "aor.approval.required" None.
Definition allowDecision (version rule : string) (reasons : list string) : PolicyDecision :=
  mkPolicyDecision DecisionAllow version zeroConstraints (copy_slice reasons) rule None.

Definition grant_binding (input : PolicyInput) : DecisionBinding :=
  let principal := in_Principal input in
  let project := in_Project input in
  let task := in_Task input in
  mkDecisionBinding (pr_ID principal) (ps_TenantID project) (ps_ID project) (ps_StateVersion project)
    (ts_ID task) (ts_StateVersion task) (ts_SpecDigest task) (pr_Role principal) (in_Action input)
    (cloneResource (in_Resource input)) (in_ParameterDigest input) (bs_AccountID (in_Budget input)).

Definition set_expiry (c : Constraints) (at_ : time) : Constraints := c ⟦ co_ExpiresAt := at_ ⟧.

Definition bindGrant (result : PolicyDecision) (input : PolicyInput) (now : time) : PolicyDecision :=
  if pd_Decision result ≠? DecisionAllow then result else
  let c := pd_Constraints result in
  let c := if IsZero (co_ExpiresAt c) then set_expiry c (Add now (5 * Minute)) else c in
  result ⟦ pd_Constraints := c ⟧ ⟦ pd_Binding := Some (grant_binding input) ⟧.

Definition leaseGrantActionAllowed (input : PolicyInput) : bool :=
  let principal := in_Principal input in
  if in_Action input ≟ ActionKnowledgeWrite
  then (ts_ID (in_Task input) ≟ "") && (pr_Role principal ≟ RoleKnowledgeCurator) else
  if ts_ID (in_Task input) ≟ "" then
    ((in_Action input ≟ ActionModelGenerate) && negb (LeaseRoleRequiresTask (pr_Role principal)))
    || globalAuditorProjectReadTool input
    || ((in_Action input ≟ ActionArtifactPublish) && (pr_Type principal ≟ PrincipalService)
        && (pr_Role principal ≟ RoleService))
    || ((in_Action input ≟ ActionIntegrationMerge) && (pr_Role principal ≟ RoleService))
  else IsSideEffect (in_Action input)
       || (in_Action input ≟ ActionModelGenerate) && taskModelLeaseRole (pr_Role principal).

Definition reasonForError (err : lease_error) : string :=
  match err with
  | Coded typed =>
      match ErrCode typed with
      | CodeLeaseExpired => "LEASE_EXPIRED"
      | CodeApprovalRequired => "APPROVAL_REQUIRED"
      | CodeUnauthorizedPath => "UNAUTHORIZED_PATH"
      | CodeDependencyUnavailable => "DEPENDENCY_UNAVAILABLE"
      | CodeForbidden | CodeUnauthorized => "IDENTITY_SCOPE_DENIED"
      | _ => "INVALID_POLICY_INPUT"
      end
  | _ => "POLICY_CHECK_FAILED"
  end.

Definition artifactPublicationProjectStateAllowed (input : PolicyInput) : bool :=
  let state := ps_State (in_Project input) in
  let attribute key := default "" (rs_Attributes (in_Resource input) !! key) in
  if negb (roleIn state ["PAUSED"; "ABORTED"; "FAILED_SYSTEM"; "ARCHIVED"]) then true else
  if attribute "operation" ≟ "project-export" then roleIn state ["PAUSED"; "ABORTED"; "ARCHIVED"] else
  roleIn state ["PAUSED"; "ARCHIVED"] && (attribute "operation" ≟ "deletion-proof")
  && (attribute "deletionId" ≠? "").

(** The states in which a project or a task accepts no work. *)
Definition projectClosed (input : PolicyInput) : bool :=
  roleIn (ps_State (in_Project input)) ["ABORTED"; "ARCHIVED"; "FAILED_SYSTEM"; "PAUSED"].
Definition taskClosed (input : PolicyInput) : bool :=
  roleIn (ts_State (in_Task input)) ["CANCELED"; "SUPERSEDED"; "PASSED"; "INTEGRATED"].

Definition approvalMatches (input : PolicyInput) (now : time) : bool :=
  match in_Approval input with
  | None => false
  | Some approval =>
      if negb (is_nil (validateApproval approval now)) then false else
      let resource := in_Resource input in
      let expected := if rs_ID resource ≟ "" then rs_Path resource else rs_ID resource in
      if (expected ≟ "") || (ap_SubjectID approval ≠? expected) then false else
      let subjectVersion :=
        if (in_Action input ≟ ActionKnowledgeWrite)
           || ((in_Action input ≟ ActionArtifactPublish) && (ts_ID (in_Task input) ≟ ""))
        then ps_StateVersion (in_Project input) else ts_StateVersion (in_Task input) in
      if (ap_TenantID approval ≠? ps_TenantID (in_Project input))
         || (ap_ProjectID approval ≠? ps_ID (in_Project input))
         || negb (ap_SubjectVersion approval =? subjectVersion)
         || (ap_SubjectDigest approval ≠? in_ParameterDigest input) then false else
      (ap_SubjectType approval ≟ in_Action input) || (ap_SubjectType approval ≟ rs_Type resource)
  end.

(** ** The engine *)
Section Engine.
Context `{Signer} (json_Marshal : leaseSigningView -> string).
Context (e : Engine).

Definition version : string := bu_Version (bundle e).

Definition bundleUsable : bool :=
  bu_Available (bundle e) && (version ≠? "")
  && ((bu_Digest (bundle e) ≟ "") || (bu_Digest (bundle e) ≟ version)).

Definition policyVersion : string := if version ≠? "" then version else "unavailable".

Definition validateExecutionBoundary (input : PolicyInput) : option Error :=
  if negb (RequiresTask (in_Action input)) || globalAuditorProjectReadTool input then None else
  let task := in_Task input in
  let insufficient := scoped CodeSandboxLevelInsufficient in
  if IsSideEffect (in_Action input) && negb (validTaskExecutionScope task)
  then Some (insufficient "trusted task execution profile") else
  if ((ec_Platform (in_Context input) ≠? "") && (ec_Platform (in_Context input) ≠? ts_ExecutionPlatform task))
     || ((ec_SandboxLevel (in_Context input) ≠? "")
         && (ec_SandboxLevel (in_Context input) ≠? ts_SandboxLevel task))
  then Some (insufficient "execution context mismatch") else
  let production := ts_DeploymentProfile task ≟ "PRODUCTION" in
  let untrusted := (ts_WorkloadTrust task ≟ "UNTRUSTED") || ts_HostileMultiTenant task
    || ts_RequiresNetworkIsolation task || ts_RequiresHiddenConfidentiality task in
  if production && untrusted
     && ((ts_ExecutionPlatform task ≠? "LINUX") || (ts_SandboxLevel task ≠? "CONTAINER"))
  then Some (insufficient "production untrusted workload") else
  if (ts_ExecutionPlatform task ≟ "WINDOWS") && (ts_SandboxLevel task ≠? "NONE")
  then Some (insufficient "windows isolation") else
  if (ts_ExecutionPlatform task ≟ "LINUX") && (ts_SandboxLevel task ≠? "CONTAINER")
  then Some (insufficient "linux isolation") else None.

Definition validateApprovalProof (input : PolicyInput) : option Error :=
  match in_Approval input with
  | None => None
  | Some approval =>
      match approvals e with
      | None => Some (scoped CodeDependencyUnavailable "approval verifier")
      | Some verifyApproval =>
          match verifyApproval approval with
          | Some _ => Some (New CodeApprovalRequired "" ∅)
          | None => None
          end
      end
  end.

(** The facts both entry points ask of a bound request. *)
Definition missingFacts (input : PolicyInput) : bool :=
  (in_ParameterDigest input ≟ "") || (bs_AccountID (in_Budget input) ≟ "")
  || negb (bs_Available (in_Budget input))
  || negb (validLeaseScopeBinding (in_Action input) (pr_Role (in_Principal input)) (ts_ID (in_Task input))
             (ts_StateVersion (in_Task input)) (ts_SpecDigest (in_Task input))).

Definition lease_check (input : PolicyInput) (lease : LeaseReference) : LeaseCheck :=
  let principal := in_Principal input in
  let project := in_Project input in
  let task := in_Task input in
  mkLeaseCheck (lr_ID lease) (pr_ID principal) (pr_ID principal) (pr_Type principal)
    (ps_TenantID project) (ps_ID project) (ps_StateVersion project) (ts_ID task) (ts_StateVersion task)
    (ts_SpecDigest task) (pr_Role principal) (in_Action input) (in_Resource input)
    (in_ParameterDigest input) version (bs_AccountID (in_Budget input)) (in_Action input)
    (lr_FencingToken lease).

(** [CapabilityLease{}]. *)
Definition zeroLease : CapabilityLease :=
  mkLease "" "" "" "" "" "" "" 0 "" 0 "" "" "" (mkResource "" "" "" ∅) "" [] 0 0 0 0 "" "" "" 0 ""
    None "".

Definition validateLease (ctx : context) (input : PolicyInput) (lease_clock : result time Error)
    (s s' : MemoryLeaseStore) : MemoryLeaseStore * result CapabilityLease lease_error :=
  if negb (IsSideEffect (in_Action input)) then (s', Ok zeroLease) else
  match in_Lease input with
  | None => (s', Err (Coded (scoped CodePolicyDenied "lease required")))
  | Some reference =>
      if lr_PolicyVersion reference ≠? version
      then (s', Err (Coded (New CodePolicyDenied "" {["policyVersion" := AnyString version]}))) else
      if missingFacts input then (s', Err (Coded (scoped CodePolicyDenied "commit facts"))) else
      match leases e with
      | None => (s', Err (Coded (scoped CodeDependencyUnavailable "lease store")))
      | Some _ =>
          match Validate json_Marshal ctx (lease_check input reference) lease_clock s s' with
          | (s', Err err) => (s', Err err)
          | (s', Ok lease) =>
              if negb (Equal (l_ExpiresAt lease) (lr_ExpiresAt reference))
                 || (l_BudgetAccountID lease ≠? bs_AccountID (in_Budget input))
              then (s', Err (Coded (scoped CodePolicyDenied "lease binding")))
              else (s', Ok lease)
          end
      end
  end.

(** ** The default decision *)
Definition allow (rule : string) (reasons : list string) : PolicyDecision :=
  allowDecision version rule reasons.
Definition deny (reason : string) : PolicyDecision := denyDecision version reason.

Definition constrained (c : Constraints) (input : PolicyInput) (lease : CapabilityLease) : Constraints :=
  let c := if negb (IsZero (l_ExpiresAt lease))
              && (IsZero (co_ExpiresAt c) || Before (l_ExpiresAt lease) (co_ExpiresAt c))
           then set_expiry c (l_ExpiresAt lease) else c in
  if (co_MaxBytes c =? 0) && roleIn (in_Action input) [ActionRepoWrite; ActionRepoApplyPatch; ActionToolInvoke]
  then c ⟦ co_MaxBytes := maxWriteBytes e ⟧ else c.

Definition constrainAllow (result : PolicyDecision) (input : PolicyInput) (lease : CapabilityLease)
    : PolicyDecision :=
  if IsSideEffect (in_Action input)
  then result ⟦ pd_Constraints := constrained (pd_Constraints result) input lease ⟧
  else result.

Definition sandboxExecDecision (input : PolicyInput) (lease : CapabilityLease) : PolicyDecision :=
  let role := pr_Role (in_Principal input) in
  let projectState := ps_State (in_Project input) in
  let taskState := ts_State (in_Task input) in
  if (pr_Type (in_Principal input) ≠? PrincipalAgentInstance) || negb (roleIn role [RoleExecutor; RoleAuditor])
  then deny "EXECUTION_ROLE_REQUIRED" else
  if (rs_Type (in_Resource input) ≠? "sandbox") || (rs_ID (in_Resource input) ≟ "")
  then deny "SANDBOX_RESOURCE_REQUIRED" else
  let validState := (role ≟ RoleExecutor) && (projectState ≟ "EXECUTING") && (taskState ≟ "EXECUTING") in
  let validState := validState || (role ≟ RoleAuditor) && roleIn projectState ["EXECUTING"; "GLOBAL_AUDIT"]
    && roleIn taskState ["DETERMINISTIC_AUDIT"; "LLM_AUDIT"] in
  if negb validState then deny "TASK_NOT_EXECUTABLE" else
  constrainAllow (allow "aor.sandbox.exec" ["EXECUTION_ROLE_ALLOWED"; "TASK_STATE_VALID"; "LEASE_VALID"])
    input lease.

Definition repoWriteDecision (input : PolicyInput) (lease : CapabilityLease) : PolicyDecision :=
  if (pr_Type (in_Principal input) ≠? PrincipalAgentInstance) || (pr_Role (in_Principal input) ≠? RoleExecutor)
  then deny "EXECUTOR_REQUIRED" else
  if (ps_State (in_Project input) ≠? "EXECUTING") || (ts_State (in_Task input) ≠? "EXECUTING")
  then deny "TASK_NOT_EXECUTING" else
  if rs_Path (in_Resource input) ≟ "" then deny "RESOURCE_PATH_REQUIRED" else
  match List.find (pathMatchesGlob (rs_Path (in_Resource input))) (ts_OwnedPaths (in_Task input)) with
  | Some owned =>
      (allow "aor.repo.owned_path" ["ROLE_ALLOWED"; "TASK_OWNS_PATH"; "LEASE_VALID"])
        ⟦ pd_Constraints := mkConstraints owned (maxWriteBytes e) (l_ExpiresAt lease) [] ⟧
  | None => deny "TASK_DOES_NOT_OWN_PATH"
  end.

Definition artifactScopeDenied (input : PolicyInput) : bool :=
  let resource := in_Resource input in
  (rs_Type resource ≠? "artifact") || negb (HasPrefix (rs_ID resource) "artifact://sha256/")
  || negb (len (rs_ID resource) =? len "artifact://sha256/" + 64)
  || negb (digestPattern ("sha256:" +:+ TrimPrefix (rs_ID resource) "artifact://sha256/"))
  || negb (bs_Available (in_Budget input)) || negb (artifactPublicationProjectStateAllowed input)
  || ((ts_ID (in_Task input) ≠? "") && taskClosed input).

Definition modelDecision (input : PolicyInput) : PolicyDecision :=
  let principal := in_Principal input in
  let projectScope := negb (LeaseRoleRequiresTask (pr_Role principal)) && (ts_ID (in_Task input) ≟ "") in
  let taskScope := taskModelLeaseRole (pr_Role principal) && (ts_ID (in_Task input) ≠? "")
    && negb (taskClosed input) in
  if (pr_Type principal ≟ PrincipalAgentInstance) && (projectScope || taskScope)
     && (rs_Type (in_Resource input) ≟ "model") && (rs_ID (in_Resource input) ≠? "")
     && negb (projectClosed input) && bs_Available (in_Budget input)
  then allow "aor.model.invoke" ["MODEL_POLICY_ALLOWED"; "PROJECT_SCOPE_VALID"]
  else deny "MODEL_SCOPE_DENIED".

Definition toolDecision (input : PolicyInput) (lease : CapabilityLease) : PolicyDecision :=
  let allowed := constrainAllow (allow "aor.tool.invoke" ["ROLE_ALLOWED"; "LEASE_VALID"]) input lease in
  if globalAuditorProjectReadTool input && (ps_State (in_Project input) ≟ "GLOBAL_AUDIT") then allowed else
  if roleIn (pr_Role (in_Principal input)) [RoleGoalProposer; RoleGoalChallenger; RolePlanSupervisor;
       RoleModulePlanner; RoleExecutor; RoleAuditor; RoleKnowledgeCurator; RoleService] then
    (if projectClosed input || taskClosed input then deny "TASK_NOT_ACTIVE" else allowed)
  else deny "ROLE_DENIED".

Definition mergeDecision (input : PolicyInput) (lease : CapabilityLease) : PolicyDecision :=
  let principal := in_Principal input in
  if (pr_Type principal ≠? PrincipalService) || (pr_Role principal ≠? RoleService)
  then deny "TRUSTED_SERVICE_REQUIRED" else
  if (ps_State (in_Project input) ≠? "INTEGRATING") || (rs_Type (in_Resource input) ≠? "integration")
     || (rs_ID (in_Resource input) ≟ "") || (ts_ID (in_Task input) ≠? "")
  then deny "INTEGRATION_SCOPE_DENIED" else
  constrainAllow (allow "aor.integration.merge"
    ["TRUSTED_SERVICE_ALLOWED"; "PROJECT_STATE_VALID"; "LEASE_VALID"]) input lease.

Definition knowledgeDecision (input : PolicyInput) (lease : CapabilityLease) (now : time) : PolicyDecision :=
  let principal := in_Principal input in
  if (pr_Type principal ≠? PrincipalKnowledgeCurator) || (pr_Role principal ≠? RoleKnowledgeCurator)
  then deny "CURATOR_REQUIRED" else
  if negb (approvalMatches input now) then approvalDecision version "CURATOR_APPROVAL_REQUIRED" else
  constrainAllow (allow "aor.knowledge.write" ["CURATOR_ALLOWED"; "APPROVAL_VALID"; "LEASE_VALID"])
    input lease.

Definition publishDecision (input : PolicyInput) (lease : CapabilityLease) (now : time) : PolicyDecision :=
  let principal := in_Principal input in
  if (pr_Type principal ≠? PrincipalService) || (pr_Role principal ≠? RoleService)
  then deny "TRUSTED_SERVICE_REQUIRED" else
  if artifactScopeDenied input then deny "PUBLISH_SCOPE_DENIED" else
  if negb (is_nil (in_Approval input)) && negb (approvalMatches input now)
  then approvalDecision version "PUBLISH_APPROVAL_REQUIRED" else
  constrainAllow (allow "aor.artifact.publish" ["TRUSTED_SERVICE_ALLOWED"; "LEASE_VALID"]) input lease.

Definition breakGlassDecision (input : PolicyInput) (lease : CapabilityLease) (now : time) : PolicyDecision :=
  let principal := in_Principal input in
  if (pr_Type principal ≠? PrincipalBreakGlassAdmin) && (pr_Role principal ≠? RoleBreakGlassAdmin)
  then deny "BREAK_GLASS_REQUIRED" else
  if negb (approvalMatches input now)
     || match in_Approval input with Some approval => ap_CoApproverID approval ≟ "" | None => true end
  then approvalDecision version "BREAK_GLASS_APPROVAL_REQUIRED" else
  constrainAllow (allow "aor.break_glass" ["BREAK_GLASS_ALLOWED"; "APPROVAL_VALID"; "LEASE_VALID"])
    input lease.

(** [defaultDecision]: the [switch] on the action, one branch a line. *)
Definition defaultDecision (input : PolicyInput) (lease : CapabilityLease) (now : time) : PolicyDecision :=
  let action := in_Action input in
  let principal := in_Principal input in
  if roleIn action [ActionGoalRead; ActionPlanRead; ActionTaskRead; ActionKnowledgeRead; ActionSettingsRead]
  then allow "aor.read" ["ROLE_ALLOWED"; "PROJECT_SCOPE_VALID"] else
  if action ≟ ActionSettingsWrite then
    (if ((pr_Type principal ≟ PrincipalUser) || (pr_Type principal ≟ PrincipalBreakGlassAdmin))
        && roleIn (pr_Role principal) [RoleUser; RoleBreakGlassAdmin]
     then allow "aor.human.control" ["HUMAN_CONTROL_ALLOWED"; "PROJECT_SCOPE_VALID"]
     else deny "HUMAN_CONTROL_REQUIRED") else
  if action ≟ ActionRepoRead then
    (if roleIn (pr_Role principal) [RoleExecutor; RoleAuditor; RoleModulePlanner; RolePlanSupervisor; RoleService]
     then allow "aor.repo.read" ["ROLE_ALLOWED"; "PROJECT_SCOPE_VALID"]
     else deny "ROLE_DENIED") else
  if action ≟ ActionModelGenerate then modelDecision input else
  if roleIn action [ActionRepoWrite; ActionRepoApplyPatch] then repoWriteDecision input lease else
  if action ≟ ActionToolInvoke then toolDecision input lease else
  if action ≟ ActionSandboxExec then sandboxExecDecision input lease else
  if action ≟ ActionIntegrationMerge then mergeDecision input lease else
  if action ≟ ActionKnowledgeWrite then knowledgeDecision input lease now else
  if action ≟ ActionArtifactPublish then publishDecision input lease now else
  if action ≟ ActionPolicyTest then
    (if (pr_Type principal ≟ PrincipalService) || (pr_Type principal ≟ PrincipalBreakGlassAdmin)
        || (pr_Role principal ≟ RoleBreakGlassAdmin)
     then allow "aor.policy.test" ["ADMIN_ROLE_ALLOWED"]
     else deny "ADMIN_ROLE_REQUIRED") else
  if roleIn action [ActionPolicyWrite; ActionDeploy] then breakGlassDecision input lease now else
  deny "UNKNOWN_ACTION".

(** The constraints of the baseline cut down those of a rule; the path globs
    are compared by [intersectAllow] first. *)
Definition intersected (baseline narrowed : Constraints) : Constraints :=
  let c := narrowed in
  let c := if co_PathGlob baseline ≠? "" then c ⟦ co_PathGlob := co_PathGlob baseline ⟧ else c in
  let c := if (0 <? co_MaxBytes baseline)
              && ((co_MaxBytes c =? 0) || (co_MaxBytes baseline <? co_MaxBytes c))
           then c ⟦ co_MaxBytes := co_MaxBytes baseline ⟧ else c in
  if negb (IsZero (co_ExpiresAt baseline))
     && (IsZero (co_ExpiresAt c) || Before (co_ExpiresAt baseline) (co_ExpiresAt c))
  then set_expiry c (co_ExpiresAt baseline) else c.

Definition intersectAllow (baseline narrowed : PolicyDecision) (input : PolicyInput)
    (lease : CapabilityLease) : PolicyDecision :=
  let b := pd_Constraints baseline in
  let c := pd_Constraints narrowed in
  if (co_PathGlob b ≠? "") && ((co_PathGlob c ≠? "") && (co_PathGlob c ≠? co_PathGlob b))
  then deny "POLICY_CONSTRAINT_CONFLICT" else
  constrainAllow (narrowed ⟦ pd_Constraints := intersected b c ⟧) input lease.

(** ** The entry points *)
Abbreviation outcome := (prod PolicyDecision (option lease_error)) (only parsing).

Definition policyDenied : Error := New CodePolicyDenied "" {["policyVersion" := AnyString version]}.

(** A decision that leaves the engine is a valid one. *)
Definition validated (d : PolicyDecision) (now : time) : outcome :=
  match Decision_Validate d now with
  | Some err => (deny "INVALID_POLICY_RESULT", Some (Coded err))
  | None => (d, None)
  end.

Definition refuse (err : Error) : outcome := (deny (reasonForError (Coded err)), Some (Coded err)).

(** A rule's answer with its version filled in, or the refusal of a wrong one. *)
Definition stamped (result : PolicyDecision) : PolicyDecision :=
  if pd_PolicyVersion result ≟ "" then result ⟦ pd_PolicyVersion := version ⟧ else result.

(** The loop over the rules: the first that applies answers through [finish]. *)
Fixpoint first_rule (rules : list (option Rule)) (input : PolicyInput)
    (finish : PolicyDecision -> outcome) (none : outcome) : outcome :=
  match rules with
  | [] => none
  | None :: _ => (deny "INVALID_POLICY_RULE", Some (Coded policyDenied))
  | Some rule :: rules =>
      match rule input with
      | (_, false) => first_rule rules input finish none
      | (result, true) =>
          let result := stamped result in
          if pd_PolicyVersion result ≠? version
          then (deny "POLICY_VERSION_MISMATCH", Some (Coded policyDenied))
          else finish result
      end
  end.

(** The checks both entry points start with, up to the approval proof. *)
Definition prechecked (ctx : context) (input : PolicyInput) (wall : time) : outcome + time :=
  if negb bundleUsable then
    inl (denyDecision policyVersion "POLICY_UNAVAILABLE",
         Some (Coded (New CodeDependencyUnavailable "" {["policyVersion" := AnyString policyVersion]})))
  else if negb (is_nil (ctx_Err ctx)) then inl (deny "REQUEST_CANCELED", Some (Coded policyDenied))
  else match policyAuthorizationTime input wall with
  | Err timeErr => inl (refuse timeErr)
  | Ok now =>
      match Input_Validate input now with
      | Some err => inl (refuse err)
      | None =>
          match validateApprovalProof input with
          | Some err => inl (refuse err)
          | None => inr now
          end
      end
  end.

Definition Evaluate (ctx : context) (input : PolicyInput) (wall : time) (lease_clock : result time Error)
    (s s' : MemoryLeaseStore) : MemoryLeaseStore * outcome :=
  match prechecked ctx input wall with
  | inl refused => (s', refused)
  | inr now =>
      match validateExecutionBoundary input with
      | Some err => (s', (deny "EXECUTION_BOUNDARY_DENIED", Some (Coded err)))
      | None =>
          match validateLease ctx input lease_clock s s' with
          | (s', Err err) => (s', (deny (reasonForError err), Some err))
          | (s', Ok lease) =>
              let baseline := defaultDecision input lease now in
              if pd_Decision baseline ≠? DecisionAllow then (s', validated baseline now) else
              (s', first_rule (bu_Rules (bundle e)) input (fun result =>
                 match Decision_Validate result now with
                 | Some err => (deny "INVALID_POLICY_RESULT", Some (Coded err))
                 | None =>
                     (if pd_Decision result ≟ DecisionAllow
                      then intersectAllow baseline result input lease else result, None)
                 end) (validated baseline now))
          end
      end
  end.

Definition Authorize := Evaluate.

Definition EvaluateLeaseGrant (ctx : context) (input : PolicyInput) (wall : time) : outcome :=
  match prechecked ctx input wall with
  | inl refused => refused
  | inr now =>
      if negb (leaseGrantActionAllowed input) || negb (is_nil (in_Lease input)) || missingFacts input then
        (deny "INVALID_LEASE_GRANT_INPUT", Some (Coded (scoped CodePolicyDenied "lease grant")))
      else
      match validateExecutionBoundary input with
      | Some err => (deny "EXECUTION_BOUNDARY_DENIED", Some (Coded err))
      | None =>
          let baseline := bindGrant (defaultDecision input zeroLease now) input now in
          if pd_Decision baseline ≠? DecisionAllow then validated baseline now else
          first_rule (bu_Rules (bundle e)) input (fun result =>
            let result := bindGrant result input now in
            validated
              (if pd_Decision result ≟ DecisionAllow
               then (intersectAllow baseline result input zeroLease) ⟦ pd_Binding := pd_Binding baseline ⟧
               else result) now) (validated baseline now)
      end
  end.
End Engine.
End Engine.
