(* ===== verification/EngineProps.v ===== *)
(** What the policy engine guarantees: it fails closed, an allowed side effect
    stands on a live lease with exactly the presented facts, custom rules only
    narrow the default decision, who may write to a repository and who may take
    a high-risk action, and how a lease grant, the lease issued under it and the
    commit-time evaluation compose. *)

From S2P Require Import Prelude GoLib Trace Errors Contracts Path Authz Lease LeaseProps LeaseSafety Engine.

Module EngineProps.
Import Authz.
Import Lease.
Import LeaseProps.
Import LeaseSafety.
Import Engine.

(** ** Constraints *)
(** [c] allows no more than [c0]; an empty field is no restriction. *)
Definition narrower (c c0 : Constraints) : Prop :=
  (co_PathGlob c0 <> "" -> co_PathGlob c = co_PathGlob c0)
  /\ (0 < co_MaxBytes c0 -> 0 < co_MaxBytes c <= co_MaxBytes c0)
  /\ (co_ExpiresAt c0 <> 0 -> co_ExpiresAt c <> 0 /\ co_ExpiresAt c <= co_ExpiresAt c0).

Section Engine.
Context `{Signer} (json_Marshal : leaseSigningView -> string).
Context (e : Engine).

Lemma intersected_narrower b c :
  0 <= co_MaxBytes c -> (co_PathGlob b ≠? "") && ((co_PathGlob c ≠? "") && (co_PathGlob c ≠? co_PathGlob b)) = false ->
  narrower (intersected b c) b.
Proof.
  intros Hc Hg. unfold narrower, intersected, set_expiry, IsZero, Before.
  destruct b as [bg bm be bl], c as [cg cm ce cl]. cbn in *.
  repeat case_match; cbn in *; go_bool; repeat split; intros; try done; try lia.
Qed.

Lemma constrained_narrower c input lease : narrower (constrained e c input lease) c.
Proof.
  unfold narrower, constrained, set_expiry, IsZero, Before.
  destruct c as [cg cm ce cl]. cbn.
  repeat case_match; cbn in *; go_bool; repeat split; intros; try done; try lia.
Qed.

#[local] Instance narrower_trans : Transitive narrower.
Proof.
  intros a b c (Hg & Hm & He) (Hg' & Hm' & He'). repeat split; intros.
  - rewrite <- Hg' by done. apply Hg. by rewrite Hg'.
  - by apply Hm, Hm'.
  - specialize (Hm' ltac:(done)). specialize (Hm ltac:(lia)). lia.
  - destruct (He' ltac:(done)). by apply He.
  - destruct (He' ltac:(done)). destruct (He ltac:(done)). lia.
Qed.

(** ** The shape of a default allow *)
Definition named (rule : string) (reasons : list string) : Prop :=
  ruleIDPattern rule = true /\ reasons <> [] /\ forallb safeReason reasons = true.

Inductive baseline (input : PolicyInput) (lease : CapabilityLease) : PolicyDecision -> Prop :=
| base_plain rule reasons : named rule reasons -> IsSideEffect (in_Action input) = false ->
    baseline input lease (allow e rule reasons)
| base_constrained rule reasons : named rule reasons ->
    baseline input lease (constrainAllow e (allow e rule reasons) input lease)
| base_owned rule reasons owned : named rule reasons -> owned ∈ ts_OwnedPaths (in_Task input) ->
    pathMatchesGlob (rs_Path (in_Resource input)) owned = true -> IsSideEffect (in_Action input) = true ->
    baseline input lease
      ((allow e rule reasons) ⟦ pd_Constraints := mkConstraints owned (maxWriteBytes e) (l_ExpiresAt lease) [] ⟧).

Ltac solve_named := by repeat split; vm_compute.

Lemma roleIn_in role roles : roleIn role roles = true <-> role ∈ roles.
Proof.
  induction roles as [|r roles IH]; cbn; [split; [done|by intros ?%elem_of_nil]|].
  rewrite elem_of_cons, <- IH. case_bool_decide; naive_solver.
Qed.

Lemma default_baseline input lease now :
  pd_Decision (defaultDecision e input lease now) = DecisionAllow ->
  baseline input lease (defaultDecision e input lease now).
Proof.
  unfold defaultDecision, modelDecision, repoWriteDecision, toolDecision, sandboxExecDecision,
    mergeDecision, knowledgeDecision, publishDecision, breakGlassDecision.
  intros Hd. repeat case_match; try discriminate Hd.
  all: try (apply base_constrained; solve_named).
  all: try (apply base_owned; [solve_named|..]).
  all: try (apply base_plain; [solve_named|]).
  all: try match goal with Hf : List.find _ _ = Some _ |- _ => apply List.find_some in Hf as [? ?] end.
  all: try (apply list_elem_of_In); try done.
  all: match goal with
       | Ha : roleIn (in_Action _) _ = true |- _ =>
           apply roleIn_in in Ha; rewrite !elem_of_cons, elem_of_nil in Ha
       | Ha : bool_decide (in_Action _ = _) = true |- _ => apply bool_decide_eq_true in Ha
       end.
  all: by destruct_or?; try match goal with Ha : in_Action _ = _ |- _ => rewrite Ha end.
Qed.

(** Its constraints, and that it is a valid decision. *)
Lemma zero_constrained input lease :
  constrained e zeroConstraints input lease
  = mkConstraints "" (co_MaxBytes (constrained e zeroConstraints input lease)) (l_ExpiresAt lease) []
  /\ co_MaxBytes (constrained e zeroConstraints input lease) ∈ [0; maxWriteBytes e].
Proof.
  unfold constrained, set_expiry, IsZero, Before.
  generalize (roleIn (in_Action input) [ActionRepoWrite; ActionRepoApplyPatch; ActionToolInvoke]) as write.
  intros write. destruct (l_ExpiresAt lease =? 0) eqn:Hz; cbn; go_bool; [rewrite Hz|];
    destruct write; cbn; (split; [done|]); rewrite !elem_of_cons; auto.
Qed.
Lemma baseline_form input lease d : baseline input lease d ->
  exists rule reasons c, d = mkPolicyDecision DecisionAllow (version e) c reasons rule None
    /\ named rule reasons
    /\ (co_PathGlob c = "" \/ (co_PathGlob c ∈ ts_OwnedPaths (in_Task input)
          /\ pathMatchesGlob (rs_Path (in_Resource input)) (co_PathGlob c) = true))
    /\ co_MaxBytes c ∈ [0; maxWriteBytes e]
    /\ co_ExpiresAt c = (if IsSideEffect (in_Action input) then l_ExpiresAt lease else 0)
    /\ co_AllowedMethods c = [].
Proof.
  destruct 1 as [rule reasons Hn Hs|rule reasons Hn|rule reasons owned Hn Ho Hp Hs].
  - exists rule, reasons, zeroConstraints. rewrite Hs. repeat split; try apply Hn; auto. by left.
  - unfold constrainAllow. destruct (IsSideEffect (in_Action input)) eqn:Hs.
    + destruct (zero_constrained input lease) as [Hc Hm].
      exists rule, reasons, (constrained e zeroConstraints input lease). split; [done|].
      split; [done|]. rewrite Hc. cbn [co_PathGlob co_MaxBytes co_ExpiresAt co_AllowedMethods]. auto.
    + exists rule, reasons, zeroConstraints. repeat split; try apply Hn; auto. by left.
  - exists rule, reasons, (mkConstraints owned (maxWriteBytes e) (l_ExpiresAt lease) []).
    rewrite Hs. cbn. split; [done|]. split; [done|]. split; [auto|]. rewrite !elem_of_cons. auto.
Qed.

(** A decision with sound parts is a valid one. *)
Lemma allow_valid c reasons rule binding now :
  safeOpaque (version e) 256 = true -> named rule reasons -> Constraints_Validate c now = true ->
  match binding with Some b => binding_valid b = true | None => True end ->
  Decision_Validate (mkPolicyDecision DecisionAllow (version e) c reasons rule binding) now = None.
Proof.
  intros Hv (Hr & Hne & Hs) Hc Hb. unfold Decision_Validate. cbn [pd_Decision pd_PolicyVersion
    pd_RuleID pd_Constraints pd_ReasonCodes pd_Binding].
  rewrite Hv, Hr, Hc, Hs, andb_false_r. destruct reasons; [done|]. cbn.
  destruct binding; [by rewrite Hb|done].
Qed.

Lemma constraints_valid c now :
  (co_PathGlob c = "" \/ is_ok (normalizeGlob (co_PathGlob c)) = true) -> 0 <= co_MaxBytes c ->
  (co_ExpiresAt c = 0 \/ now < co_ExpiresAt c) ->
  (length (co_AllowedMethods c) <= 32)%nat -> forallb (fun m => safeOpaque m 32) (co_AllowedMethods c) = true ->
  Constraints_Validate c now = true.
Proof.
  intros Hg Hm He Hl Hf. unfold Constraints_Validate, IsZero, Before. rewrite Hf. go_eval.
  assert (Hglob : (co_PathGlob c ≠? "") && negb (is_ok (normalizeGlob (co_PathGlob c))) = false)
    by (destruct Hg as [-> | ->]; [done|apply andb_false_r]).
  rewrite Hglob.
  destruct He as [-> |He]; [done|]. go_eval. by rewrite andb_false_r.
Qed.

Lemma constraints_valid_inv c now : Constraints_Validate c now = true ->
  (co_PathGlob c = "" \/ is_ok (normalizeGlob (co_PathGlob c)) = true) /\ 0 <= co_MaxBytes c
  /\ (co_ExpiresAt c = 0 \/ now < co_ExpiresAt c)
  /\ (length (co_AllowedMethods c) <= 32)%nat /\ forallb (fun m => safeOpaque m 32) (co_AllowedMethods c) = true.
Proof.
  unfold Constraints_Validate, IsZero, Before. intros Hc. guards Hc. go_bool.
  repeat match goal with Ho : _ && _ = false |- _ => apply andb_false_iff in Ho as [?|?] end; go_bool;
    repeat split; auto; lia.
Qed.

(** What remains of a rule's constraints under those of the baseline. *)
Lemma intersected_valid b c now :
  Constraints_Validate b now = true -> Constraints_Validate c now = true ->
  Constraints_Validate (intersected b c) now = true.
Proof.
  intros (Hg & Hm & He & _ & _)%constraints_valid_inv (Hg' & Hm' & He' & Hl & Hf)%constraints_valid_inv.
  unfold intersected, set_expiry, IsZero, Before. destruct b as [bg bm be bl], c as [cg cm ce cl]. cbn in *.
  repeat case_match; cbn in *; go_bool; apply constraints_valid; cbn; auto; lia.
Qed.

Lemma constrained_valid c input lease now :
  0 <= maxWriteBytes e -> (l_ExpiresAt lease = 0 \/ now < l_ExpiresAt lease) ->
  Constraints_Validate c now = true -> Constraints_Validate (constrained e c input lease) now = true.
Proof.
  intros Hmax Hexp (Hg & Hm & He & Hl & Hf)%constraints_valid_inv.
  unfold constrained, set_expiry, IsZero, Before. destruct c as [cg cm ce cl]. cbn in *.
  repeat case_match; cbn in *; go_bool; apply constraints_valid; cbn; auto; lia.
Qed.

(** ** What the checks before the decision establish *)
Record cleared (ctx : context) (input : PolicyInput) (wall now : time) : Prop := {
  cleared_ctx : ctx_Err ctx = None;
  cleared_time : policyAuthorizationTime input wall = Ok now;
  cleared_input : Input_Validate input now = None;
  cleared_proof : validateApprovalProof e input = None;
  cleared_bundle : bundleUsable e = true
}.

Lemma prechecked_ok ctx input wall now : prechecked e ctx input wall = inr now -> cleared ctx input wall now.
Proof.
  unfold prechecked. destruct (bundleUsable e) eqn:Hb; [|done]. destruct (ctx_Err ctx) eqn:Hc; [done|].
  cbn [negb is_nil]. destruct (policyAuthorizationTime input wall) as [n|] eqn:Ht; [|done].
  destruct (Input_Validate input n) eqn:Hi; [done|].
  destruct (validateApprovalProof e input) eqn:Hp; [done|]. by intros [= <-].
Qed.

Lemma prechecked_err ctx input wall d err : prechecked e ctx input wall = inl (d, err) ->
  pd_Decision d = DecisionDeny /\ err <> None.
Proof.
  unfold prechecked, refuse. repeat case_match; intros [= <- <-]; done.
Qed.

(** The parts of a validated input the decisions below rely on. *)
Lemma validated_input input now wall ctx : cleared ctx input wall now ->
  map_Forall (fun _ value => value <> "") (rs_Attributes (in_Resource input))
  /\ (forall lease, in_Lease input = Some lease -> now < lr_ExpiresAt lease)
  /\ (forall approval, in_Approval input = Some approval -> validateApproval approval now = None).
Proof.
  intros Hc. pose proof (cleared_input _ _ _ _ Hc) as Hi. pose proof (cleared_time _ _ _ _ Hc) as Ht.
  unfold Input_Validate in Hi. destruct (policyAuthorizationTime input now) as [n|] eqn:Hn; [|done].
  assert (n = now) as ->.
  { unfold policyAuthorizationTime in Ht, Hn. destruct (_ ≟ _); [by injection Hn as <-|].
    destruct (Path.ParseRFC3339UTC _); [congruence|done]. }
  apply first_error_none in Hi. rewrite !Forall_cons in Hi. destruct Hi as (_ & _ & _ & _ & _ & _ & Hr & Hl & Ha & _).
  split; [|split].
  - unfold resource_error in Hr. intros key value Hk Hv. subst value.
    destruct (_ || _) in Hr; [done|]. destruct (32 <? _) in Hr; [done|].
    destruct (any_entry _ _) eqn:Ha' in Hr; [done|].
    pose proof (proj1 (any_entry_false _ _) Ha' _ _ Hk) as Hb. unfold bad_attribute in Hb.
    rewrite orb_true_r in Hb. done.
  - intros lease Hle. unfold lease_reference_error in Hl. rewrite Hle in Hl. destruct (_ || _) in Hl; [done|].
    unfold Before in Hl. destruct (now <? _) eqn:Hb in Hl; [by go_bool|done].
  - intros approval Hap. by rewrite Hap in Ha.
Qed.

(** The lease of an allowed side effect. *)
Record covered (ctx : context) (input : PolicyInput) (lease_clock : result time Error)
    (s : MemoryLeaseStore) (lease : CapabilityLease) : Prop := {
  covered_by : exists reference trusted,
    in_Lease input = Some reference /\ lease_clock = Ok trusted
    /\ lr_PolicyVersion reference = version e
    /\ s !! lr_ID reference = Some lease
    /\ usable json_Marshal (leaseAuthorizationTime ctx trusted) lease
    /\ bound (lease_check e input reference) lease
    /\ l_ExpiresAt lease = lr_ExpiresAt reference
    /\ missingFacts input = false
}.

Lemma validateLease_ok ctx input lease_clock s t t' lease :
  validateLease json_Marshal e ctx input lease_clock s t = (t', Ok lease) ->
  t' = t /\ (IsSideEffect (in_Action input) = false /\ lease = zeroLease
             \/ IsSideEffect (in_Action input) = true /\ covered ctx input lease_clock s lease).
Proof.
  unfold validateLease. destruct (IsSideEffect (in_Action input)); cbn [negb].
  2: { intros [= <- <-]. auto. }
  destruct (in_Lease input) as [reference|] eqn:Hr; [|done]. destruct (_ ≠? version e) eqn:Hv; [done|].
  destruct (missingFacts input) eqn:Hm; [done|]. destruct (leases e) as [m|]; [|done].
  destruct (Validate _ _ _ _ _ _) as [u [l|]] eqn:Hl; [|done].
  apply validate_ok in Hl as (-> & _ & Hl & Hb & trusted & -> & Hu).
  unfold Equal. destruct (_ || _) eqn:Hx; [done|]. intros [= <- <-]. go_bool.
  split; [done|]. right. split; [done|]. constructor. exists reference, trusted.
  repeat (split; [done|]). done.
Qed.
(** ** The entry points, inverted *)
Lemma first_rule_answer rules input finish none r :
  first_rule e rules input finish none = r ->
  r = none \/ (snd r <> None /\ pd_Decision (fst r) = DecisionDeny)
  \/ exists result, pd_PolicyVersion result = version e /\ r = finish result.
Proof.
  induction rules as [|[rule|] rules IH]; cbn [first_rule]; [auto| |].
  - destruct (rule input) as [result []]; [|done].
    destruct (_ ≠? _) eqn:Hv; intros <-; [right; left; done|]. go_bool. right; right. eauto.
  - intros <-. right; left. done.
Qed.

Lemma validated_cases d now :
  (validated e d now = (d, None) /\ Decision_Validate d now = None)
  \/ (snd (validated e d now) <> None /\ pd_Decision (fst (validated e d now)) = DecisionDeny).
Proof. unfold validated. destruct (Decision_Validate d now); [right|left]; done. Qed.

(** An answer without an error. *)
Inductive answered (input : PolicyInput) (lease : CapabilityLease) (now : time) : PolicyDecision -> Prop :=
| answer_default : Decision_Validate (defaultDecision e input lease now) now = None ->
    answered input lease now (defaultDecision e input lease now)
| answer_rule result : pd_Decision (defaultDecision e input lease now) = DecisionAllow ->
    pd_PolicyVersion result = version e -> Decision_Validate result now = None ->
    answered input lease now
      (if pd_Decision result ≟ DecisionAllow
       then intersectAllow e (defaultDecision e input lease now) result input lease else result).

Lemma evaluate_cases ctx input wall lease_clock s t t' d err :
  Evaluate json_Marshal e ctx input wall lease_clock s t = (t', (d, err)) ->
  (err <> None /\ pd_Decision d = DecisionDeny)
  \/ (err = None /\ exists now lease, cleared ctx input wall now /\ validateExecutionBoundary input = None
       /\ validateLease json_Marshal e ctx input lease_clock s t = (t', Ok lease)
       /\ answered input lease now d).
Proof.
  unfold Evaluate. destruct (prechecked _ _ _ _) as [[d' err']|now] eqn:Hp.
  { intros [= <- <- <-]. left. apply prechecked_err in Hp. tauto. }
  apply prechecked_ok in Hp. destruct (validateExecutionBoundary input) eqn:Hx; [by intros [= <- <- <-]; left|].
  destruct (validateLease _ _ _ _ _ _ _) as [u [lease|]] eqn:Hl; [|by intros [= <- <- <-]; left].
  assert (Hdefault : forall r, r = validated e (defaultDecision e input lease now) now ->
    (snd r <> None /\ pd_Decision (fst r) = DecisionDeny)
    \/ (snd r = None /\ answered input lease now (fst r))).
  { intros r ->. destruct (validated_cases (defaultDecision e input lease now) now) as [[-> Hv]|?]; [|by left].
    right. split; [done|]. by constructor. }
  destruct (_ ≠? DecisionAllow) eqn:Hallow.
  - intros [= <- Hr]. destruct (Hdefault (d, err) (eq_sym Hr)) as [?|[Hn Ha]]; [by left|right].
    split; [done|]. exists now, lease. auto.
  - intros [= <- Hr]. go_bool. apply first_rule_answer in Hr as [Hr|[?|(result & Hv & Hr)]]; [|by left|].
    + destruct (Hdefault (d, err) Hr) as [?|[Hn Ha]]; [by left|right]. split; [done|]. exists now, lease. auto.
    + destruct (Decision_Validate result now) eqn:Hval; injection Hr as -> ->; [by left|right].
      split; [done|]. exists now, lease. repeat (split; [done|]). by constructor.
Qed.
(** ** What an answer is worth *)
Lemma bundle_version ctx input wall now : cleared ctx input wall now -> version e <> "".
Proof.
  intros Hb%cleared_bundle. unfold bundleUsable in Hb. by go_bool.
Qed.

Lemma revalidate result c now :
  Decision_Validate result now = None -> Constraints_Validate c now = true ->
  Decision_Validate (result ⟦ pd_Constraints := c ⟧) now = None.
Proof.
  unfold Decision_Validate. cbn. intros Hd Hc. rewrite Hc.
  destruct (Constraints_Validate (pd_Constraints result) now); [exact Hd|].
  rewrite !orb_true_r in Hd. done.
Qed.

Lemma valid_constraints d now : Decision_Validate d now = None ->
  Constraints_Validate (pd_Constraints d) now = true /\ safeOpaque (pd_PolicyVersion d) 256 = true.
Proof.
  unfold Decision_Validate. destruct (_ || _) eqn:Hg; [done|]. intros _. by go_bool.
Qed.

Lemma pathMatchesGlob_ok path glob : pathMatchesGlob path glob = true -> is_ok (normalizeGlob glob) = true.
Proof.
  unfold pathMatchesGlob. destruct (normalizeRelativePath path); [|done]. by destruct (normalizeGlob glob).
Qed.

Lemma baseline_constraints_valid input lease now d :
  baseline input lease d -> 0 <= maxWriteBytes e ->
  (l_ExpiresAt lease = 0 \/ now < l_ExpiresAt lease) -> Constraints_Validate (pd_Constraints d) now = true.
Proof.
  intros (rule & reasons & c & -> & _ & Hg & Hm & He & Hl)%baseline_form Hmax Hexp. cbn.
  rewrite !elem_of_cons, elem_of_nil in Hm. apply constraints_valid; rewrite ?Hl; [|lia| |cbn; lia|done].
  - destruct Hg as [->|[_ Hg]]; [by left|right]. by apply pathMatchesGlob_ok in Hg.
  - rewrite He. destruct (IsSideEffect _); auto.
Qed.

Lemma intersectAllow_cases b result input lease :
  intersectAllow e b result input lease = deny e "POLICY_CONSTRAINT_CONFLICT"
  \/ (co_PathGlob (pd_Constraints b) ≠? "") && ((co_PathGlob (pd_Constraints result) ≠? "")
        && (co_PathGlob (pd_Constraints result) ≠? co_PathGlob (pd_Constraints b))) = false
     /\ intersectAllow e b result input lease
        = constrainAllow e (result ⟦ pd_Constraints := intersected (pd_Constraints b) (pd_Constraints result) ⟧) input lease.
Proof. unfold intersectAllow. destruct (_ && _); auto. Qed.

Lemma deny_valid reason now : safeOpaque (version e) 256 = true -> safeReason reason = true ->
  Decision_Validate (deny e reason) now = None.
Proof. unfold Decision_Validate. cbn. intros -> ->. done. Qed.

Lemma intersectAllow_valid b result input lease now :
  pd_PolicyVersion result = version e -> Decision_Validate result now = None ->
  Constraints_Validate (pd_Constraints b) now = true -> 0 <= maxWriteBytes e ->
  (l_ExpiresAt lease = 0 \/ now < l_ExpiresAt lease) ->
  Decision_Validate (intersectAllow e b result input lease) now = None
  /\ pd_PolicyVersion (intersectAllow e b result input lease) = version e.
Proof.
  intros Hv Hd Hb Hmax Hexp. destruct (valid_constraints _ _ Hd) as [Hc Hs]. rewrite Hv in Hs.
  destruct (intersectAllow_cases b result input lease) as [->|[_ ->]]; [split; [by apply deny_valid|done]|].
  assert (Hi : Constraints_Validate (intersected (pd_Constraints b) (pd_Constraints result)) now = true)
    by by apply intersected_valid.
  unfold constrainAllow. destruct (IsSideEffect _); (split; [|exact Hv]).
  - apply revalidate; [by apply revalidate|]. by apply constrained_valid.
  - by apply revalidate.
Qed.

Lemma default_version input lease now : pd_PolicyVersion (defaultDecision e input lease now) = version e.
Proof.
  unfold defaultDecision, modelDecision, repoWriteDecision, toolDecision, sandboxExecDecision,
    mergeDecision, knowledgeDecision, publishDecision, breakGlassDecision, constrainAllow.
  by repeat case_match.
Qed.

Lemma answered_valid input lease now d :
  answered input lease now d -> 0 <= maxWriteBytes e ->
  (l_ExpiresAt lease = 0 \/ now < l_ExpiresAt lease) ->
  Decision_Validate d now = None /\ pd_PolicyVersion d = version e.
Proof.
  intros Ha Hmax Hexp. destruct Ha as [Hv|result Hallow Hv Hd]; [by rewrite default_version|].
  destruct (_ ≟ DecisionAllow); [|done]. apply intersectAllow_valid; auto.
  apply (baseline_constraints_valid input lease); auto. by apply default_baseline.
Qed.

(** An allow came from a default allow, and allows no more. *)
Lemma answered_allow input lease now d :
  answered input lease now d -> pd_Decision d = DecisionAllow ->
  pd_Decision (defaultDecision e input lease now) = DecisionAllow
  /\ narrower (pd_Constraints d) (pd_Constraints (defaultDecision e input lease now)).
Proof.
  intros Ha Hd. destruct Ha as [Hv|result Hallow Hv Hval].
  - split; [done|]. repeat split; auto; lia.
  - split; [done|]. destruct (_ ≟ DecisionAllow) eqn:Hr; [|by go_bool].
    destruct (valid_constraints _ _ Hval) as [Hc _]. apply constraints_valid_inv in Hc as (_ & Hm & _).
    destruct (intersectAllow_cases (defaultDecision e input lease now) result input lease) as [He|[Hg He]];
      rewrite He in *; [done|].
    unfold constrainAllow. destruct (IsSideEffect _); cbn [pd_Constraints update].
    + etransitivity; [apply constrained_narrower|]. by apply intersected_narrower.
    + by apply intersected_narrower.
Qed.
End Engine.

(** ** Guarantees *)
Lemma new_engine_max config : 0 < maxWriteBytes (NewEngine config).
Proof. unfold NewEngine. cbn. destruct (ec_MaxWriteBytes config <=? 0) eqn:H; [done|by go_bool]. Qed.

(** The expiry of the lease an answer rests on. *)
Lemma covered_expiry `{Signer} json_Marshal e ctx input wall now lease_clock s t t' lease :
  cleared e ctx input wall now ->
  validateLease json_Marshal e ctx input lease_clock s t = (t', Ok lease) ->
  t' = t /\ (l_ExpiresAt lease = 0 \/ now < l_ExpiresAt lease).
Proof.
  intros Hc Hl. apply validateLease_ok in Hl as [-> [[_ ->]|[_ [Hcov]]]]; [by split; [|left]|].
  destruct Hcov as (reference & trusted & Hr & _ & _ & _ & _ & _ & He & _).
  split; [done|]. right. rewrite He. by eapply validated_input.
Qed.

(** The engine fails closed: an evaluation that reports an error denies,
    and one that does not answers with a valid decision of the engine's own
    policy version and writes nothing. *)
Theorem engine_fails_closed `{Signer} json_Marshal config ctx input wall lease_clock s t t' d err :
  Evaluate json_Marshal (NewEngine config) ctx input wall lease_clock s t = (t', (d, err)) ->
  match err with
  | Some _ => pd_Decision d = DecisionDeny
  | None => t' = t /\ pd_PolicyVersion d = bu_Version (ec_Bundle config)
            /\ exists now, policyAuthorizationTime input wall = Ok now /\ Decision_Validate d now = None
  end.
Proof.
  intros [[He Hd]|(-> & now & lease & Hc & _ & Hl & Ha)]%evaluate_cases; [by destruct err|].
  destruct (covered_expiry _ _ _ _ _ _ _ _ _ _ _ Hc Hl) as [-> Hexp]. pose proof (new_engine_max config).
  apply answered_valid in Ha as [Hv Hver]; [|lia|done]. split; [done|]. split; [done|].
  exists now. split; [apply (cleared_time _ _ _ _ _ Hc)|done].
Qed.

(** C28: No side effect is allowed without a capability lease: the store holds,
    under the identifier and fencing token presented, a signed, active and
    unexpired lease issued to this very principal for exactly this action,
    resource, parameters, project and task version, specification, role, policy
    version and budget; and the allowance ends with the lease. *)
Theorem side_effect_needs_lease `{Signer} json_Marshal e ctx input wall lease_clock s t t' d :
  Evaluate json_Marshal e ctx input wall lease_clock s t = (t', (d, None)) ->
  pd_Decision d = DecisionAllow -> IsSideEffect (in_Action input) = true ->
  exists reference lease trusted,
    in_Lease input = Some reference /\ s !! lr_ID reference = Some lease
    /\ lease_clock = Ok trusted /\ usable json_Marshal (leaseAuthorizationTime ctx trusted) lease
    /\ l_FencingToken lease = lr_FencingToken reference
    /\ l_PrincipalID lease = pr_ID (in_Principal input)
    /\ l_Role lease = pr_Role (in_Principal input)
    /\ l_TenantID lease = ps_TenantID (in_Project input)
    /\ l_ProjectID lease = ps_ID (in_Project input)
    /\ l_ProjectVersion lease = ps_StateVersion (in_Project input)
    /\ l_TaskID lease = ts_ID (in_Task input)
    /\ l_TaskVersion lease = ts_StateVersion (in_Task input)
    /\ l_SpecDigest lease = ts_SpecDigest (in_Task input)
    /\ l_Action lease = in_Action input
    /\ l_Resource lease = in_Resource input
    /\ l_ParameterDigest lease = in_ParameterDigest input
    /\ l_PolicyVersion lease = bu_Version (bundle e)
    /\ l_BudgetAccountID lease = bs_AccountID (in_Budget input)
    /\ co_ExpiresAt (pd_Constraints d) <> 0
    /\ co_ExpiresAt (pd_Constraints d) <= l_ExpiresAt lease.
Proof.
  intros [[? _]|(_ & now & lease & Hc & _ & Hl & Ha)]%evaluate_cases Hd Hs; [done|].
  destruct (answered_allow _ _ _ _ _ Ha Hd) as [Hb (_ & _ & Hexp)].
  apply default_baseline, baseline_form in Hb as (rule & reasons & c & Heq & _ & _ & _ & He & _).
  rewrite Heq in Hexp. cbn in Hexp. rewrite He, Hs in Hexp.
  apply validateLease_ok in Hl as [_ [[Hn _]|[_ [Hcov]]]]; [congruence|].
  destruct Hcov as (reference & trusted & Hr & Hclock & _ & Hstored & Hu & Hbound & Hle & _).
  destruct (validated_input _ _ _ _ _ Hc) as (Hattr & Hlive & _). specialize (Hlive _ Hr).
  assert (Hnz : l_ExpiresAt lease <> 0).
  { destruct Hu as (_ & _ & Hx). unfold IsExpired, IsZero in Hx.
    destruct (l_ExpiresAt lease =? 0) eqn:Hz; [done|by go_bool]. }
  pose proof (proj1 (resourcesEqual_exact _ _ Hattr) (bound_resource _ _ Hbound)) as Hres.
  destruct Hbound. cbn in *.
  exists reference, lease, trusted. repeat (split; [by try symmetry|]). by apply Hexp.
Qed.

Definition without_rules (config : EngineConfig) : EngineConfig :=
  mkEngineConfig ((ec_Bundle config) ⟦ bu_Rules := [] ⟧) (ec_LeaseManager config)
    (ec_ApprovalVerifier config) (ec_MaxWriteBytes config).

(** The custom rules of a bundle only narrow: whatever they allow, the same
    engine without rules allows too, with constraints at least as wide. *)
Theorem rules_only_narrow `{Signer} json_Marshal config ctx input wall lease_clock s t t' d :
  Evaluate json_Marshal (NewEngine config) ctx input wall lease_clock s t = (t', (d, None)) ->
  pd_Decision d = DecisionAllow ->
  exists d0, Evaluate json_Marshal (NewEngine (without_rules config)) ctx input wall lease_clock s t
             = (t', (d0, None))
    /\ pd_Decision d0 = DecisionAllow /\ narrower (pd_Constraints d) (pd_Constraints d0).
Proof.
  intros He Hd. pose proof He as [[? _]|(_ & now & lease & Hc & Hx & Hl & Ha)]%evaluate_cases; [done|].
  destruct (covered_expiry _ _ _ _ _ _ _ _ _ _ _ Hc Hl) as [-> Hexp]. pose proof (new_engine_max config).
  destruct (answered_allow _ _ _ _ _ Ha Hd) as [Hb Hn].
  destruct (answered_valid _ _ _ _ _ Ha ltac:(lia) Hexp) as [Hv Hver].
  destruct (valid_constraints _ _ Hv) as [_ Hsafe]. rewrite Hver in Hsafe.
  pose proof (default_baseline _ _ _ _ Hb) as Hbase.
  assert (Hvb : Decision_Validate (defaultDecision (NewEngine config) input lease now) now = None).
  { pose proof (baseline_constraints_valid _ _ _ _ _ Hbase ltac:(lia) Hexp) as Hbc.
    apply baseline_form in Hbase as (rule & reasons & c & Heq & Hnamed & _). rewrite Heq in *.
    by apply allow_valid. }
  exists (defaultDecision (NewEngine config) input lease now). split; [|done].
  unfold Evaluate. change (prechecked (NewEngine (without_rules config)) ctx input wall)
    with (prechecked (NewEngine config) ctx input wall).
  unfold Evaluate in He. destruct (prechecked _ _ _ _) as [[]|now'] eqn:Hp;
    [apply prechecked_err in Hp as [_ Hp]; congruence|].
  apply prechecked_ok, cleared_time in Hp. rewrite (cleared_time _ _ _ _ _ Hc) in Hp. injection Hp as <-.
  rewrite Hx. change (validateLease json_Marshal (NewEngine (without_rules config)) ctx input lease_clock s t)
    with (validateLease json_Marshal (NewEngine config) ctx input lease_clock s t). rewrite Hl.
  change (defaultDecision (NewEngine (without_rules config)) input lease now)
    with (defaultDecision (NewEngine config) input lease now).
  rewrite Hb, bool_decide_eq_true_2 by done. cbn [negb without_rules first_rule bu_Rules bundle NewEngine
    ec_Bundle update copy_slice app]. unfold validated. by rewrite Hvb.
Qed.

(** A repository write is allowed only to the executor agent of an
    executing task of an executing project, only on a path the task owns, only
    within the owning glob and the engine's byte limit. *)
Theorem repo_write_owned `{Signer} json_Marshal config ctx input wall lease_clock s t t' d :
  Evaluate json_Marshal (NewEngine config) ctx input wall lease_clock s t = (t', (d, None)) ->
  pd_Decision d = DecisionAllow -> in_Action input = ActionRepoWrite \/ in_Action input = ActionRepoApplyPatch ->
  pr_Type (in_Principal input) = PrincipalAgentInstance /\ pr_Role (in_Principal input) = RoleExecutor
  /\ ps_State (in_Project input) = "EXECUTING" /\ ts_State (in_Task input) = "EXECUTING"
  /\ co_PathGlob (pd_Constraints d) ∈ ts_OwnedPaths (in_Task input)
  /\ pathMatchesGlob (rs_Path (in_Resource input)) (co_PathGlob (pd_Constraints d)) = true
  /\ 0 < co_MaxBytes (pd_Constraints d) <= maxWriteBytes (NewEngine config).
Proof.
  intros [[? _]|(_ & now & lease & Hc & _ & Hl & Ha)]%evaluate_cases Hd Hact; [done|].
  destruct (answered_allow _ _ _ _ _ Ha Hd) as [Hb (Hg & Hm & _)]. pose proof (new_engine_max config) as Hmax.
  assert (Hdef : defaultDecision (NewEngine config) input lease now = repoWriteDecision (NewEngine config) input lease)
    by (unfold defaultDecision; destruct Hact as [-> | ->]; reflexivity).
  rewrite Hdef in *. unfold repoWriteDecision in *. repeat case_match; try discriminate Hb. go_bool.
  match goal with Hf : List.find _ _ = Some _ |- _ => apply List.find_some in Hf as [Hin Hp] end.
  cbn [pd_Constraints update co_PathGlob co_MaxBytes] in *. apply list_elem_of_In in Hin.
  rewrite Hg by (intros ->; apply pathMatchesGlob_ok in Hp; discriminate Hp).
  repeat (split; [done|]). by apply Hm.
Qed.

(** An approval that answers for this request. *)
Record approves (input : PolicyInput) (now : time) (a : Approval) : Prop := {
  approves_given : in_Approval input = Some a;
  approves_valid : validateApproval a now = None;
  approves_tenant : ap_TenantID a = ps_TenantID (in_Project input);
  approves_project : ap_ProjectID a = ps_ID (in_Project input);
  approves_digest : ap_SubjectDigest a = in_ParameterDigest input;
  approves_subject : ap_SubjectID a = (if rs_ID (in_Resource input) ≟ "" then rs_Path (in_Resource input)
                                       else rs_ID (in_Resource input));
  approves_kind : ap_SubjectType a = in_Action input \/ ap_SubjectType a = rs_Type (in_Resource input)
}.

Lemma approvalMatches_ok input now : approvalMatches input now = true -> exists a, approves input now a.
Proof.
  unfold approvalMatches. destruct (in_Approval input) as [a|] eqn:Ha; [|done].
  destruct (validateApproval a now) eqn:Hv; [done|]. cbn [negb is_nil].
  destruct (_ || _) eqn:Hs; [done|]. cbv zeta. match goal with |- (if ?c then _ else _) = _ -> _ => destruct c eqn:Ht end; [done|].
  intros Hk%orb_true_iff. go_bool. exists a. constructor; try done.
  by destruct Hk as [?%bool_decide_eq_true|?%bool_decide_eq_true]; [left|right].
Qed.

Lemma knowledge_default e input lease now : in_Action input = ActionKnowledgeWrite ->
  defaultDecision e input lease now = knowledgeDecision e input lease now.
Proof. unfold defaultDecision. intros ->. reflexivity. Qed.

Lemma break_glass_default e input lease now :
  in_Action input = ActionPolicyWrite \/ in_Action input = ActionDeploy ->
  defaultDecision e input lease now = breakGlassDecision e input lease now.
Proof. unfold defaultDecision. intros [-> | ->]; reflexivity. Qed.

(** Writing knowledge, writing policy and deploying are allowed only under
    a valid approval that the verifier accepted and that names this tenant,
    project, subject and parameter digest; policy writes and deployments need a
    break-glass administrator and a second, different approver. *)
Theorem high_risk_approved `{Signer} json_Marshal e ctx input wall lease_clock s t t' d :
  Evaluate json_Marshal e ctx input wall lease_clock s t = (t', (d, None)) ->
  pd_Decision d = DecisionAllow ->
  in_Action input ∈ [ActionKnowledgeWrite; ActionPolicyWrite; ActionDeploy] ->
  exists now a verifyApproval, policyAuthorizationTime input wall = Ok now /\ approves input now a
    /\ approvals e = Some verifyApproval /\ verifyApproval a = None
    /\ (in_Action input <> ActionKnowledgeWrite ->
        (pr_Type (in_Principal input) = PrincipalBreakGlassAdmin
         \/ pr_Role (in_Principal input) = RoleBreakGlassAdmin)
        /\ ap_CoApproverID a <> "" /\ ap_CoApproverID a <> ap_PrincipalID a).
Proof.
  intros [[? _]|(_ & now & lease & Hc & _ & Hl & Ha)]%evaluate_cases Hd Hact; [done|].
  destruct (answered_allow _ _ _ _ _ Ha Hd) as [Hb _].
  pose proof (cleared_proof _ _ _ _ _ Hc) as Hproof. pose proof (cleared_time _ _ _ _ _ Hc) as Htime.
  assert (Hok : approvalMatches input now = true
    /\ (in_Action input <> ActionKnowledgeWrite ->
        (pr_Type (in_Principal input) = PrincipalBreakGlassAdmin \/ pr_Role (in_Principal input) = RoleBreakGlassAdmin)
        /\ match in_Approval input with Some a => ap_CoApproverID a <> "" | None => False end)).
  { rewrite !elem_of_cons, elem_of_nil in Hact. destruct Hact as [Hk|Hact].
    - rewrite knowledge_default in Hb by done. split; [|done].
      unfold knowledgeDecision in Hb. destruct (_ || _); [done|]. by destruct (approvalMatches input now).
    - rewrite break_glass_default in Hb by tauto. unfold breakGlassDecision in Hb.
      destruct (_ && _) eqn:Hadmin; [done|]. destruct (_ || _) eqn:Hap; [done|].
      apply orb_false_iff in Hap as [Hap Hco]. apply negb_false_iff in Hap. split; [done|]. intros _. split.
      + apply andb_false_iff in Hadmin as [?|?]; go_bool; auto.
      + destruct (in_Approval input); [by go_bool|done]. }
  destruct Hok as [[a Hap]%approvalMatches_ok Hco].
  unfold validateApprovalProof in Hproof. rewrite (approves_given _ _ _ Hap) in *.
  destruct (approvals e) as [v|]; [|done]. destruct (v a) eqn:Hva; [done|].
  exists now, a, v. repeat (split; [done|]). intros Hne. destruct (Hco Hne) as [Hadmin Hcoa].
  split; [done|]. split; [done|]. pose proof (approves_valid _ _ _ Hap) as Hval.
  unfold validateApproval in Hval. destruct (_ || _) in Hval; [done|].
  destruct (_ && _) eqn:Hg in Hval; [done|]. intros Heq. rewrite bool_decide_eq_false_2 in Hg by done.
  rewrite Heq, bool_decide_eq_true_2, orb_true_r in Hg by done. done.
Qed.

(** ** From the grant to the lease *)
Lemma intersected_expiry b c : co_ExpiresAt b <> 0 ->
  co_ExpiresAt (intersected b c) <> 0 /\ co_ExpiresAt (intersected b c) <= co_ExpiresAt b.
Proof.
  intros Hb. unfold intersected, set_expiry, IsZero, Before. destruct b, c. cbn in *.
  repeat case_match; cbn in *; go_bool; lia.
Qed.

Lemma bound_allow d input now : pd_Decision (bindGrant d input now) = DecisionAllow ->
  pd_Decision d = DecisionAllow /\ pd_Binding (bindGrant d input now) = Some (grant_binding input)
  /\ pd_PolicyVersion (bindGrant d input now) = pd_PolicyVersion d
  /\ (co_ExpiresAt (pd_Constraints d) = 0 ->
      co_ExpiresAt (pd_Constraints (bindGrant d input now)) = now + 5 * Minute).
Proof.
  unfold bindGrant. destruct (_ ≠? DecisionAllow) eqn:Hd; go_bool; [done|]. intros _.
  repeat split; [done|]. cbn. by intros ->.
Qed.

(** What stands behind an allowed grant. *)
Record granted (e : Engine) (ctx : context) (input : PolicyInput) (wall now : time) (d : PolicyDecision) : Prop := {
  granted_cleared : cleared e ctx input wall now;
  granted_action : leaseGrantActionAllowed input = true;
  granted_facts : missingFacts input = false;
  granted_boundary : validateExecutionBoundary input = None;
  granted_default : pd_Decision (defaultDecision e input zeroLease now) = DecisionAllow;
  granted_binding : pd_Binding d = Some (grant_binding input);
  granted_version : pd_PolicyVersion d = version e;
  granted_expiry : now + 5 * Minute <> 0 ->
    co_ExpiresAt (pd_Constraints d) <> 0 /\ co_ExpiresAt (pd_Constraints d) <= now + 5 * Minute
}.

Lemma zero_default_expiry e input now :
  pd_Decision (defaultDecision e input zeroLease now) = DecisionAllow ->
  co_ExpiresAt (pd_Constraints (defaultDecision e input zeroLease now)) = 0.
Proof.
  intros (rule & reasons & c & -> & _ & _ & _ & He & _)%default_baseline%baseline_form. cbn. rewrite He.
  by destruct (IsSideEffect _).
Qed.

Lemma validated_ok e d now r : validated e d now = (r, None) -> r = d.
Proof. unfold validated. destruct (Decision_Validate d now); [done|]. by intros [= <-]. Qed.

Lemma grant_ok e ctx input wall d :
  EvaluateLeaseGrant e ctx input wall = (d, None) -> pd_Decision d = DecisionAllow ->
  exists now, granted e ctx input wall now d.
Proof.
  unfold EvaluateLeaseGrant. intros Hg Hd. destruct (prechecked _ _ _ _) as [[? []]|now] eqn:Hp; [done| |].
  { apply prechecked_err in Hp. by destruct Hp. }
  apply prechecked_ok in Hp. destruct (_ || _) eqn:Hfacts; [done|].
  destruct (validateExecutionBoundary input) eqn:Hx; [done|]. go_bool. exists now.
  set (base := bindGrant (defaultDecision e input zeroLease now) input now) in *.
  destruct (_ ≠? DecisionAllow) eqn:Hb; go_bool.
  { apply validated_ok in Hg. congruence. }
  destruct (bound_allow _ _ _ Hb) as (Hdef & Hbind & Hver & Hexp).
  specialize (Hexp (zero_default_expiry _ _ _ Hdef)). fold base in Hbind, Hver, Hexp. rewrite default_version in Hver.
  assert (Hparts : pd_Binding d = Some (grant_binding input) /\ pd_PolicyVersion d = version e
    /\ (now + 5 * Minute <> 0 -> co_ExpiresAt (pd_Constraints d) <> 0
                               /\ co_ExpiresAt (pd_Constraints d) <= now + 5 * Minute)).
  { apply first_rule_answer in Hg as [Hg|[[? _]|(result & Hv & Hg)]]; [|done|].
    - apply eq_sym, validated_ok in Hg as ->. rewrite Hexp. split; [done|]. split; [done|]. lia.
    - apply eq_sym, validated_ok in Hg. set (r := bindGrant result input now) in *.
      destruct (_ ≟ DecisionAllow) eqn:Hr; [|subst d; by go_bool]. go_bool.
      destruct (bound_allow _ _ _ Hr) as (_ & _ & Hrv & _). fold r in Hrv. rewrite Hv in Hrv. subst d.
      destruct (intersectAllow_cases e base r input zeroLease) as [He|[_ He]]; rewrite He in *; [done|].
      split; [done|]. unfold constrainAllow in *. pose proof (intersected_expiry (pd_Constraints base) (pd_Constraints r)) as Hi.
      rewrite Hexp in Hi. destruct (IsSideEffect _); cbn [pd_PolicyVersion pd_Constraints update]; (split; [done|]).
      + intros Hz. destruct (Hi Hz) as [Hi1 Hi2].
        destruct (constrained_narrower e (intersected (pd_Constraints base) (pd_Constraints r)) input zeroLease)
          as (_ & _ & Hc). destruct (Hc Hi1). split; [done|lia].
      + done. }
  destruct Hparts as (? & ? & ?). by constructor.
Qed.

Lemma decisionBindingsEqual_ok b b' : decisionBindingsEqual b b' = true ->
  db_PrincipalID b = db_PrincipalID b' /\ db_TenantID b = db_TenantID b' /\ db_ProjectID b = db_ProjectID b'
  /\ db_ProjectVersion b = db_ProjectVersion b' /\ db_TaskID b = db_TaskID b' /\ db_TaskVersion b = db_TaskVersion b'
  /\ db_SpecDigest b = db_SpecDigest b' /\ db_Role b = db_Role b' /\ db_Action b = db_Action b'
  /\ resourcesEqual (db_Resource b) (db_Resource b') = true
  /\ db_ParameterDigest b = db_ParameterDigest b' /\ db_BudgetAccountID b = db_BudgetAccountID b'.
Proof. unfold decisionBindingsEqual. intros Hb. go_bool. by repeat split. Qed.

(** A lease issued under a grant is a lease for what the policy granted and
    nothing else: when [EvaluateLeaseGrant] allows an input and [Issue] returns
    a lease under that decision, the default policy allowed the input, and the
    lease carries the input's principal, tenant, project, task, versions,
    specification, role, action, resource, parameters and budget under the
    engine's policy version, for at most five minutes after the evaluation. *)
Theorem grant_bounds_lease `{Signer} json_Marshal m e ctx input wall d now ctx' request clock uuid random s s' l :
  EvaluateLeaseGrant e ctx input wall = (d, None) -> pd_Decision d = DecisionAllow ->
  policyAuthorizationTime input wall = Ok now -> 0 <= now ->
  lq_Grant request = d ->
  Issue json_Marshal m ctx' request clock uuid random s = (s', Ok l) ->
  pd_Decision (defaultDecision e input zeroLease now) = DecisionAllow
  /\ l_PrincipalID l = pr_ID (in_Principal input) /\ l_AgentInstanceID l = pr_ID (in_Principal input)
  /\ l_TenantID l = ps_TenantID (in_Project input) /\ l_ProjectID l = ps_ID (in_Project input)
  /\ l_ProjectVersion l = ps_StateVersion (in_Project input)
  /\ l_TaskID l = ts_ID (in_Task input) /\ l_TaskVersion l = ts_StateVersion (in_Task input)
  /\ l_SpecDigest l = ts_SpecDigest (in_Task input) /\ l_Role l = pr_Role (in_Principal input)
  /\ l_Action l = in_Action input /\ l_Resource l = in_Resource input
  /\ l_ParameterDigest l = in_ParameterDigest input
  /\ l_BudgetAccountID l = bs_AccountID (in_Budget input)
  /\ l_PolicyVersion l = bu_Version (bundle e)
  /\ l_ExpiresAt l <= now + 5 * Minute.
Proof.
  intros Hg Hd Hnow Hpos Hreq (trusted & ttl & heartbeat & -> & Hi)%issue_ok.
  destruct (grant_ok _ _ _ _ _ Hg Hd) as [now' [Hc _ _ _ Hdef Hbind Hver Hexp]]. unfold version in Hver.
  rewrite (cleared_time _ _ _ _ _ Hc) in Hnow. injection Hnow as ->.
  destruct (validated_input _ _ _ _ _ Hc) as [Hattr _].
  pose proof (iss_grant _ _ _ _ _ _ _ _ _ _ Hi) as Hgrant. pose proof (iss_request _ _ _ _ _ _ _ _ _ _ Hi) as Hrq.
  pose proof (iss_ttl _ _ _ _ _ _ _ _ _ _ Hi) as Httl. apply issue_ttl_ok in Httl as (_ & Htl & _).
  destruct (iss_lease _ _ _ _ _ _ _ _ _ _ Hi) as (id & nonce & signature & -> & _).
  rewrite Hreq in *. unfold validateLeaseGrant in Hgrant. destruct (Decision_Validate d _); [done|].
  destruct (_ || _) eqn:Hgr in Hgrant; [done|]. rewrite Hbind in Hgrant.
  destruct (decisionBindingsEqual _ _) eqn:Heq; [|done]. apply decisionBindingsEqual_ok in Heq.
  cbn [grant_binding request_binding db_PrincipalID db_TenantID db_ProjectID db_ProjectVersion db_TaskID
    db_TaskVersion db_SpecDigest db_Role db_Action db_Resource db_ParameterDigest db_BudgetAccountID] in Heq.
  rewrite !cloneResource_id in Heq. destruct Heq as (E1 & E2 & E3 & E4 & E5 & E6 & E7 & E8 & E9 & E10 & E11 & E12).
  apply resourcesEqual_exact in E10; [|done].
  unfold issue_request_error in Hrq. apply first_error_none in Hrq. rewrite !Forall_cons in Hrq.
  destruct Hrq as (_ & Hagent & _). apply guard_none in Hagent. go_bool.
  split; [done|]. unfold new_lease. rewrite cloneResource_id.
  cbn [update l_PrincipalID l_AgentInstanceID l_TenantID l_ProjectID l_ProjectVersion l_TaskID l_TaskVersion
    l_SpecDigest l_Role l_Action l_Resource l_ParameterDigest l_BudgetAccountID l_PolicyVersion l_ExpiresAt].
  repeat (split; [by (symmetry; done) || congruence|]).
  unfold Add, Minute, Second in *. destruct Hexp as [Hnz Hle]; [lia|]. specialize (Htl Hnz). lia.
Qed.

(** ** A write under a lease, and a deployment under an approval *)
#[local] Existing Instance toy_signer.

Definition ex_project : ProjectScope := mkProjectScope "tenant-1" "project-1" "EXECUTING" 4 "INTERNAL".
Definition ex_task : TaskScope :=
  mkTaskScope "tenant-1" "project-1" "task-1" "EXECUTING" 2 ex_digest ["docs/**"; "src/**"] "LINUX" "CONTAINER"
    "TRUSTED" "LOCAL" false false false.
Definition ex_input (lease : option LeaseReference) : PolicyInput :=
  mkPolicyInput ex_principal ex_project ex_task ActionRepoWrite ex_resource ex_digest
    (mkBudgetScope "budget-1" true) lease None (mkExecutionContext "" "" "" "").
(** A rule that caps the size of a write. *)
Definition ex_rule : Rule := fun input =>
  (mkPolicyDecision DecisionAllow "" (mkConstraints "" 4096 0 []) ["SMALL_WRITES"] "team.small" None,
   in_Action input ≟ ActionRepoWrite).
Definition ex_engine (rules : list (option Rule)) : EngineConfig :=
  mkEngineConfig (mkPolicyBundle "policy-1" "policy-1" true rules) (Some ex_manager) None 0.
Definition ex_outcome (rules : list (option Rule)) : MemoryLeaseStore * (PolicyDecision * option lease_error) :=
  Evaluate toy_json (NewEngine (ex_engine rules)) ex_ctx (ex_input (Some (Reference ex_lease)))
    (ex_now + Second) (Ok (ex_now + Second)) ex_store ex_store.
Definition ex_allowed : PolicyDecision :=
  mkPolicyDecision DecisionAllow "policy-1" (mkConstraints "src/**" 4096 (ex_now + 4 * Minute) [])
    ["SMALL_WRITES"] "team.small" None.

Lemma ex_outcome_ok : ex_outcome [Some ex_rule] = (ex_store, (ex_allowed, None)).
Proof. vm_eq. Qed.

Lemma engine_fails_closed_witness :
  exists now, policyAuthorizationTime (ex_input (Some (Reference ex_lease))) (ex_now + Second) = Ok now
    /\ Decision_Validate ex_allowed now = None.
Proof.
  destruct (engine_fails_closed toy_json (ex_engine [Some ex_rule]) _ _ _ _ _ _ _ _ _ ex_outcome_ok)
    as (_ & _ & Hv). exact Hv.
Defined.

Lemma side_effect_needs_lease_witness :
  exists reference lease trusted, in_Lease (ex_input (Some (Reference ex_lease))) = Some reference
    /\ ex_store !! lr_ID reference = Some lease /\ Ok (ex_now + Second) = @Ok time Error trusted
    /\ usable toy_json (leaseAuthorizationTime ex_ctx trusted) lease.
Proof.
  destruct (side_effect_needs_lease toy_json (NewEngine (ex_engine [Some ex_rule])) _ _ _ _ _ _ _ _
              ex_outcome_ok eq_refl eq_refl) as (reference & lease & trusted & H1 & H2 & H3 & H4 & _).
  exists reference, lease, trusted. by repeat (split; [assumption|]).
Defined.

Lemma rules_only_narrow_witness :
  exists d0, ex_outcome [] = (ex_store, (d0, None)) /\ pd_Decision d0 = DecisionAllow
    /\ narrower (pd_Constraints ex_allowed) (pd_Constraints d0).
Proof.
  exact (rules_only_narrow toy_json (ex_engine [Some ex_rule]) _ _ _ _ _ _ _ _ ex_outcome_ok eq_refl).
Defined.

Lemma repo_write_owned_witness :
  "src/**" ∈ ts_OwnedPaths ex_task /\ pathMatchesGlob "src/main.go" "src/**" = true.
Proof.
  destruct (repo_write_owned toy_json (ex_engine [Some ex_rule]) _ _ _ _ _ _ _ _ ex_outcome_ok eq_refl
              (or_introl eq_refl)) as (_ & _ & _ & _ & Hin & Hp & _). by split.
Defined.

Definition ex_admin : Principal :=
  mkPrincipal "admin-1" PrincipalBreakGlassAdmin RoleBreakGlassAdmin "tenant-1" "project-1" "" "" ∅.
Definition ex_approval : Approval :=
  mkApproval "approval-1" "tenant-1" "project-1" "user-1" "user-2" ActionPolicyWrite "policy-main" 2 ex_digest
    ex_now (ex_now + Hour) None "signature".
Definition ex_policy_resource : Resource := mkResource "policy" "policy-main" "" ∅.
Definition ex_policy_request : LeaseRequest :=
  mkLeaseRequest "lease-2" "" "" ex_admin "tenant-1" "project-1" 4 "task-1" 2 ex_digest RoleBreakGlassAdmin
    ActionPolicyWrite ex_policy_resource ex_digest [ActionPolicyWrite] "policy-1" "budget-1" 0 0
    (mkPolicyDecision DecisionAllow "policy-1" zeroConstraints ["ALLOWED"] "aor.break_glass"
      (Some (mkDecisionBinding "admin-1" "tenant-1" "project-1" 4 "task-1" 2 ex_digest RoleBreakGlassAdmin
               ActionPolicyWrite ex_policy_resource ex_digest "budget-1"))) ex_digest 0 0.
Definition ex_policy_store : MemoryLeaseStore :=
  fst (Issue toy_json ex_manager ex_ctx ex_policy_request (Ok ex_now) (Err "unused") (Ok ex_digest) ∅).
Definition ex_policy_input : PolicyInput :=
  mkPolicyInput ex_admin ex_project ex_task ActionPolicyWrite ex_policy_resource ex_digest
    (mkBudgetScope "budget-1" true) (Some (mkLeaseReference "lease-2" (ex_now + 5 * Minute) "policy-1" 1))
    (Some ex_approval) (mkExecutionContext "" "" "" "").
Definition ex_policy_engine : Engine :=
  NewEngine (mkEngineConfig (mkPolicyBundle "policy-1" "" true []) (Some ex_manager) (Some (fun _ => None)) 0).

Lemma high_risk_approved_witness :
  exists now a verifyApproval, policyAuthorizationTime ex_policy_input (ex_now + Second) = Ok now
    /\ approves ex_policy_input now a /\ approvals ex_policy_engine = Some verifyApproval
    /\ verifyApproval a = None.
Proof.
  destruct (high_risk_approved toy_json ex_policy_engine ex_ctx ex_policy_input (ex_now + Second)
    (Ok (ex_now + Second)) ex_policy_store ex_policy_store ex_policy_store
    ((allow ex_policy_engine "aor.break_glass" ["BREAK_GLASS_ALLOWED"; "APPROVAL_VALID"; "LEASE_VALID"])
       ⟦ pd_Constraints := zeroConstraints ⟦ co_ExpiresAt := ex_now + 5 * Minute ⟧ ⟧))
    as (now & a & v & H1 & H2 & H3 & H4 & _); [vm_eq|done|right; left|].
  exists now, a, v. by repeat (split; [assumption|]).
Defined.

Definition ex_granted : PolicyDecision :=
  fst (EvaluateLeaseGrant (NewEngine (ex_engine [])) ex_ctx (ex_input None) ex_now).
Definition ex_granted_request : LeaseRequest :=
  mkLeaseRequest "lease-1" "key-1" "" ex_principal "tenant-1" "project-1" 4 "task-1" 2 ex_digest RoleExecutor
    ActionRepoWrite ex_resource ex_digest [ActionRepoWrite] "policy-1" "budget-1" 0 0 ex_granted ex_digest 0 0.
Definition ex_granted_issue : MemoryLeaseStore * result CapabilityLease lease_error :=
  Issue toy_json ex_manager ex_ctx ex_granted_request (Ok ex_now) (Err "unused") (Ok ex_digest) ∅.
Definition ex_granted_lease : CapabilityLease :=
  match snd ex_granted_issue with Ok l => l | Err _ => zeroLease end.

Lemma grant_bounds_lease_witness :
  pd_Decision ex_granted = DecisionAllow /\ l_Resource ex_granted_lease = ex_resource
  /\ l_ExpiresAt ex_granted_lease <= ex_now + 5 * Minute.
Proof.
  destruct (grant_bounds_lease toy_json ex_manager (NewEngine (ex_engine [])) ex_ctx (ex_input None) ex_now
    ex_granted ex_now ex_ctx ex_granted_request (Ok ex_now) (Err "unused") (Ok ex_digest) ∅
    (fst ex_granted_issue) ex_granted_lease)
    as (_ & _ & _ & _ & _ & _ & _ & _ & _ & _ & _ & Hr & _ & _ & _ & He);
    [vm_eq|vm_eq|vm_eq|done|done|vm_eq|].
  split; [vm_eq|]. by split.
Defined.
End EngineProps.
