(* ===== verification/Integration.v ===== *)
(** Integration of finished modules, data and store
    ([internal/integration/types.go], and the value helpers of [queue.go] and
    [authority.go]): candidates, audits, check results, merge results, the
    integration task and the in-memory store that moves it.

    Every method of the store is one critical section of its mutex.  An empty
    list stands for a nil slice: no caller passes an empty non-nil one. *)

From S2P Require Import Prelude GoLib Trace Contracts Path.

Module Integration.

(** ** Errors: the package's sentinels, [errors.Join], and what collaborators
    return. *)
Inductive error : Type :=
| ErrInvalidRequest | ErrConflict | ErrNotAudited | ErrMergeConflict | ErrMergePending
| ErrAttemptState | ErrAttemptsExhausted | ErrImmutable | ErrChecksFailed
| Join (first second : error)
| External (message : string).

#[export] Instance error_eq_dec : EqDecision error.
Proof. solve_decision. Defined.

(** [errors.Is]. *)
Fixpoint Is (err target : error) : bool :=
  if err ≟ target then true else
  match err with Join a b => Is a target || Is b target | _ => false end.

(** [err.Error()] is the text of an error. *)
Fixpoint text (err : error) : string :=
  match err with
  | ErrInvalidRequest => "invalid integration request"
  | ErrConflict => "integration conflict"
  | ErrNotAudited => "integration audit has not passed"
  | ErrMergeConflict => "merge executor reported a conflict"
  | ErrMergePending => "integration merge is pending recovery"
  | ErrAttemptState => "integration attempt state conflict"
  | ErrAttemptsExhausted => "integration attempts exhausted"
  | ErrImmutable => "integration result is immutable"
  | ErrChecksFailed => "integration checks failed"
  | Join first second => text first +:+ String (ascii_of_nat 10) (text second)
  | External message => message
  end.

(** ** Checks *)
Abbreviation CheckKind := string (only parsing).
Definition CheckCompile : CheckKind := "COMPILE".
Definition CheckContract : CheckKind := "CONTRACT".
Definition CheckIntegration : CheckKind := "INTEGRATION".
Definition CheckE2E : CheckKind := "E2E".
Definition CheckMigration : CheckKind := "MIGRATION".
Definition requiredCheckKinds : list CheckKind :=
  [CheckCompile; CheckContract; CheckIntegration; CheckE2E; CheckMigration].

Definition CheckPassed : string := "PASS".
Definition CheckFailed : string := "FAIL".
Definition CheckError : string := "ERROR".

Record CheckResult : Type := mkCheckResult {
  k_Kind : CheckKind;
  k_Status : string;
  k_EvidenceSHA256 : string;
  k_Summary : string;
  k_OwnerTaskID : string;
  k_Tasks : list string;
  k_StartedAt : time;
  k_CompletedAt : time
}.

#[global] Instance eta_check : Eta CheckResult := fun k => mkCheckResult (k_Kind k) (k_Status k)
  (k_EvidenceSHA256 k) (k_Summary k) (k_OwnerTaskID k) (k_Tasks k) (k_StartedAt k) (k_CompletedAt k).

#[export] Instance CheckResult_eq_dec : EqDecision CheckResult.
Proof. solve_decision. Defined.

(** ** Candidates, findings, audits, results *)
Record Candidate : Type := mkCandidate {
  c_TaskID : string;
  c_ModuleID : string;
  c_SubmissionCommit : string;
  c_ModuleSpecRef : SpecRef;
  c_OwnedPaths : list string;
  c_PublicInterfaces : list string;
  c_EvidenceSHA256 : string;
  c_AuditPassed : bool
}.

#[global] Instance eta_candidate : Eta Candidate := fun c => mkCandidate (c_TaskID c) (c_ModuleID c)
  (c_SubmissionCommit c) (c_ModuleSpecRef c) (c_OwnedPaths c) (c_PublicInterfaces c)
  (c_EvidenceSHA256 c) (c_AuditPassed c).

#[export] Instance Candidate_eq_dec : EqDecision Candidate.
Proof. solve_decision. Defined.

Record Finding : Type := mkFinding {
  f_ID : string;
  f_Severity : string;
  f_Category : string;
  f_Summary : string;
  f_Tasks : list string
}.

#[export] Instance Finding_eq_dec : EqDecision Finding.
Proof. solve_decision. Defined.

Record Audit : Type := mkAudit {
  au_IntegrationID : string;
  au_ProjectID : string;
  au_BaseCommit : string;
  au_Candidates : list Candidate;
  au_Findings : list Finding;
  au_Checks : list CheckResult;
  au_EvidenceSHA256 : string;
  au_Passed : bool;
  au_CreatedAt : time
}.

#[global] Instance eta_audit : Eta Audit := fun a => mkAudit (au_IntegrationID a) (au_ProjectID a)
  (au_BaseCommit a) (au_Candidates a) (au_Findings a) (au_Checks a) (au_EvidenceSHA256 a) (au_Passed a)
  (au_CreatedAt a).

#[export] Instance Audit_eq_dec : EqDecision Audit.
Proof. solve_decision. Defined.

Definition zeroAudit : Audit := mkAudit "" "" "" [] [] [] "" false 0.

Record MergeResult : Type := mkMergeResult {
  m_TenantID : string;
  m_IntegrationID : string;
  m_ProjectID : string;
  m_OwnerTaskID : string;
  m_Attempt : Z;
  m_Commit : string;
  m_RequestDigest : string;
  m_Audit : Audit;
  m_Candidates : list Candidate;
  m_Checks : list CheckResult;
  m_Duplicate : bool;
  m_Pending : bool;
  m_LeaseID : string;
  m_FencingToken : Z
}.

#[global] Instance eta_result : Eta MergeResult := fun m => mkMergeResult (m_TenantID m)
  (m_IntegrationID m) (m_ProjectID m) (m_OwnerTaskID m) (m_Attempt m) (m_Commit m)
  (m_RequestDigest m) (m_Audit m) (m_Candidates m) (m_Checks m) (m_Duplicate m) (m_Pending m)
  (m_LeaseID m) (m_FencingToken m).

#[export] Instance MergeResult_eq_dec : EqDecision MergeResult.
Proof. solve_decision. Defined.

Definition zeroMergeResult : MergeResult :=
  mkMergeResult "" "" "" "" 0 "" "" zeroAudit [] [] false false "" 0.

Abbreviation TaskState := string (only parsing).
Definition TaskReworkRequired : TaskState := "REWORK_REQUIRED".
Definition TaskExecuting : TaskState := "EXECUTING".
Definition TaskMergeReserved : TaskState := "MERGE_RESERVED".
Definition TaskBlockedUserDecision : TaskState := "BLOCKED_USER_DECISION".
Definition TaskDone : TaskState := "DONE".

Record IntegrationTask : Type := mkIntegrationTask {
  t_TenantID : string;
  t_ProjectID : string;
  t_ID : string;
  t_OwnerTaskID : string;
  t_State : TaskState;
  t_Version : Z;
  t_Attempt : Z;
  t_Conflict : Audit
}.

#[global] Instance eta_task : Eta IntegrationTask := fun t => mkIntegrationTask (t_TenantID t)
  (t_ProjectID t) (t_ID t) (t_OwnerTaskID t) (t_State t) (t_Version t) (t_Attempt t) (t_Conflict t).

#[export] Instance IntegrationTask_eq_dec : EqDecision IntegrationTask.
Proof. solve_decision. Defined.

Definition zeroTask : IntegrationTask := mkIntegrationTask "" "" "" "" "" 0 0 zeroAudit.

Record StartAttemptRequest : Type := mkStartAttemptRequest {
  sa_TenantID : string;
  sa_ProjectID : string;
  sa_IntegrationID : string;
  sa_OwnerTaskID : string;
  sa_Attempt : Z;
  sa_ExpectedVersion : Z
}.

(** ** Requests *)
Record Request : Type := mkRequest {
  q_TenantID : string;
  q_ProjectID : string;
  q_IntegrationID : string;
  q_IdempotencyKey : string;
  q_BaseCommit : string;
  q_Candidates : list Candidate;
  q_PolicyDigest : string;
  q_ExpectedVersion : Z;
  q_CreatedAt : time;
  q_PrincipalID : string;
  q_LeaseID : string;
  q_FencingToken : Z;
  q_OwnerTaskID : string;
  q_Attempt : Z
}.

Record VerifiedRequest : Type := mkVerifiedRequest {
  v_TenantID : string;
  v_ProjectID : string;
  v_IntegrationID : string;
  v_BaseCommit : string;
  v_Candidates : list Candidate;
  v_PolicyDigest : string;
  v_ExpectedVersion : Z;
  v_PrincipalID : string;
  v_LeaseID : string;
  v_FencingToken : Z;
  v_Authorization : string;
  v_OwnerTaskID : string;
  v_Attempt : Z
}.

(** [MergeVerificationInput]. *)
Record MergeVerificationInput : Type := mkVerificationInput {
  vi_TenantID : string;
  vi_ProjectID : string;
  vi_IntegrationID : string;
  vi_IntegrationCommit : string;
  vi_BaseCommit : string;
  vi_Candidates : list Candidate
}.

#[global] Instance eta_verified : Eta VerifiedRequest := fun v => mkVerifiedRequest (v_TenantID v)
  (v_ProjectID v) (v_IntegrationID v) (v_BaseCommit v) (v_Candidates v) (v_PolicyDigest v)
  (v_ExpectedVersion v) (v_PrincipalID v) (v_LeaseID v) (v_FencingToken v) (v_Authorization v)
  (v_OwnerTaskID v) (v_Attempt v).

(** ** Values *)
Definition containsString (values : list string) (expected : string) : bool :=
  existsb (fun value => value ≟ expected) values.

(** Lower-case text whose bytes after [prefix] are [count] hexadecimal digits. *)
Definition hex_text (prefix count : Z) (value : string) : bool :=
  (len value =? prefix + count) && (ToLower value ≟ value)
  && negb (is_nil (Trace.hex_decode (drop (Z.to_nat prefix) (bytes value)))).

Definition commitID (value : string) : bool := hex_text 0 40 value.
Definition digestPattern (value : string) : bool :=
  HasPrefix value "sha256:" && hex_text 7 64 value.

Definition cleanPath (value : string) : option string :=
  let clean := Path.Clean (of_bytes (map (fun c => if byte_is 92 c then "/"%char else c) (bytes value))) in
  if (value ≟ "") || (clean ≠? value) || (clean ≟ ".") || HasPrefix clean "/" || (clean ≟ "..")
     || HasPrefix clean "../" || (clean ≟ ".git") || HasPrefix clean ".git/"
  then None else Some clean.

Definition containsPath (parent child : string) : bool :=
  (parent ≟ child) || HasPrefix child (parent +:+ "/").

(** [sort.Strings]. *)
Definition sort_strings : list string -> list string := sort_slice String.ltb.

(** The loop of [uniqueStrings] over the values, [seen] so far. *)
Fixpoint first_seen (seen : gset string) (values : list string) : list string :=
  match values with
  | [] => []
  | value :: values =>
      if (value ≟ "") || bool_decide (value ∈ seen) then first_seen seen values
      else value :: first_seen ({[value]} ∪ seen) values
  end.
Definition uniqueStrings (values : list string) : list string := sort_strings (first_seen ∅ values).

Definition validAttemptBinding (ownerTaskID : string) (attempt : Z) : bool :=
  (attempt =? 0) && (ownerTaskID ≟ "")
  || (1 <=? attempt) && (attempt <=? 3) && (ownerTaskID ≠? "").

(** ** Copies: the same values. *)
Definition cloneCandidate (c : Candidate) : Candidate :=
  c ⟦ c_OwnedPaths := copy_slice (c_OwnedPaths c) ⟧ ⟦ c_PublicInterfaces := copy_slice (c_PublicInterfaces c) ⟧.
Definition cloneCandidates (input : list Candidate) : list Candidate := map cloneCandidate (copy_slice input).
Definition cloneChecks (checks : list CheckResult) : list CheckResult :=
  map (fun k => k ⟦ k_Tasks := copy_slice (k_Tasks k) ⟧) checks.
Definition cloneAudit (audit : Audit) : Audit :=
  mkAudit (au_IntegrationID audit) (au_ProjectID audit) (au_BaseCommit audit)
    (cloneCandidates (au_Candidates audit))
    (map (fun f => mkFinding (f_ID f) (f_Severity f) (f_Category f) (f_Summary f) (copy_slice (f_Tasks f)))
       (copy_slice (au_Findings audit)))
    (cloneChecks (au_Checks audit)) (au_EvidenceSHA256 audit) (au_Passed audit) (au_CreatedAt audit).
Definition cloneResult (result : MergeResult) : MergeResult :=
  result ⟦ m_Audit := cloneAudit (m_Audit result) ⟧ ⟦ m_Candidates := cloneCandidates (m_Candidates result) ⟧
         ⟦ m_Checks := cloneChecks (m_Checks result) ⟧.
Definition cloneIntegrationTask (task : IntegrationTask) : IntegrationTask :=
  task ⟦ t_Conflict := cloneAudit (t_Conflict task) ⟧.

(** ** Validators *)
Definition validCheckKind (kind : CheckKind) : bool := existsb (fun required => kind ≟ required) requiredCheckKinds.
Definition knownStatus (status : string) : bool :=
  (status ≟ CheckPassed) || (status ≟ CheckFailed) || (status ≟ CheckError).
Definition findCheck (checks : list CheckResult) (kind : CheckKind) : option CheckResult :=
  List.find (fun check => k_Kind check ≟ kind) checks.

(** The loop over the checks of [validCheckResults]. *)
Fixpoint checks_wellformed (seen : gset string) (checks : list CheckResult) : bool :=
  match checks with
  | [] => true
  | check :: checks =>
      if negb (validCheckKind (k_Kind check)) || negb (knownStatus (k_Status check)) then false else
      if bool_decide (k_Kind check ∈ seen) then false else
      if negb (digestPattern (k_EvidenceSHA256 check)) || IsZero (k_StartedAt check)
         || IsZero (k_CompletedAt check) || Before (k_CompletedAt check) (k_StartedAt check) then false else
      if (k_OwnerTaskID check ≠? "") && negb (containsString (k_Tasks check) (k_OwnerTaskID check)) then false
      else checks_wellformed ({[k_Kind check]} ∪ seen) checks
  end.

Definition all_passed (checks : list CheckResult) : bool :=
  forallb (fun kind => match findCheck checks kind with
                       | Some check => k_Status check ≟ CheckPassed
                       | None => false end) requiredCheckKinds.

Definition validCheckResults (checks : list CheckResult) (requireAllPassed : bool) : bool :=
  match checks with
  | [] => negb requireAllPassed
  | _ =>
      if negb (checks_wellformed ∅ checks) then false else
      if requireAllPassed then
        Nat.eqb (length checks) (length requiredCheckKinds) && all_passed checks
      else true
  end.

(** A candidate whose fields are in order; [passed] asks for its audit too. *)
Definition candidate_valid (passed : bool) (c : Candidate) : bool :=
  negb ((c_TaskID c ≟ "") || (c_ModuleID c ≟ "") || negb (commitID (c_SubmissionCommit c))
    || negb (SpecRef_valid (c_ModuleSpecRef c)) || negb (digestPattern (c_EvidenceSHA256 c))
    || passed && negb (c_AuditPassed c)).

(** The loops over candidates: each is valid and names another task. *)
Fixpoint candidates_valid (passed : bool) (seen : gset string) (candidates : list Candidate) : bool :=
  match candidates with
  | [] => true
  | c :: candidates =>
      if negb (candidate_valid passed c) || bool_decide (c_TaskID c ∈ seen) then false
      else candidates_valid passed ({[c_TaskID c]} ∪ seen) candidates
  end.

Definition validStoredCandidates (candidates : list Candidate) : bool :=
  match candidates with
  | [] => true
  | _ => negb (1024 <? Z.of_nat (length candidates)) && candidates_valid true ∅ candidates
  end.

Definition validConflictResult (result : MergeResult) : bool :=
  let audit := m_Audit result in
  (m_TenantID result ≠? "") && (m_ProjectID result ≠? "") && (m_IntegrationID result ≠? "")
  && (m_OwnerTaskID result ≠? "") && (0 <=? m_Attempt result) && (m_Attempt result <=? 3)
  && (m_Commit result ≟ "") && (m_RequestDigest result ≟ "") && Nat.eqb (length (m_Candidates result)) 0
  && Nat.eqb (length (m_Checks result)) 0 && negb (m_Duplicate result) && negb (m_Pending result)
  && (au_IntegrationID audit ≟ m_IntegrationID result) && (au_ProjectID audit ≟ m_ProjectID result)
  && negb (au_Passed audit) && Nat.ltb 0 (length (au_Findings audit))
  && validStoredCandidates (au_Candidates audit) && validCheckResults (au_Checks audit) false
  && digestPattern (au_EvidenceSHA256 audit) && negb (IsZero (au_CreatedAt audit)).

Definition sameConflictResult (left right : MergeResult) : bool :=
  validConflictResult left && validConflictResult right
  && (m_TenantID left ≟ m_TenantID right) && (m_ProjectID left ≟ m_ProjectID right)
  && (m_IntegrationID left ≟ m_IntegrationID right) && (m_OwnerTaskID left ≟ m_OwnerTaskID right)
  && (m_Attempt left =? m_Attempt right)
  && (au_EvidenceSHA256 (m_Audit left) ≟ au_EvidenceSHA256 (m_Audit right))
  && (au_Findings (m_Audit left) ≟ au_Findings (m_Audit right)).

Definition validStartAttemptRequest (request : StartAttemptRequest) : bool :=
  (sa_TenantID request ≠? "") && (sa_ProjectID request ≠? "") && (sa_IntegrationID request ≠? "")
  && (sa_OwnerTaskID request ≠? "") && (1 <=? sa_Attempt request) && (sa_Attempt request <=? 3)
  && (1 <=? sa_ExpectedVersion request).

Definition upper_byte (c : ascii) : ascii := if byte_in 97 122 c then ascii_of_N (N_of_ascii c - 32) else c.
(** [strings.ToUpper] as far as a comparison with an ASCII literal without [I],
    [S] or [K] from other letters can see it: U+0131 and U+017F upper to ASCII
    letters too, and are written out. *)
Fixpoint upper_bytes (l : list ascii) : list ascii :=
  match l with
  | [] => []
  | a :: l1 =>
      match l1 with
      | b :: l2 =>
          if byte_is 0xC4 a && byte_is 0xB1 b then "I"%char :: upper_bytes l2 else
          if byte_is 0xC5 a && byte_is 0xBF b then "S"%char :: upper_bytes l2 else
          upper_byte a :: upper_bytes l1
      | [] => [upper_byte a]
      end
  end.
Definition ToUpper (s : string) : string := of_bytes (upper_bytes (bytes s)).

(** One finding of a failed check suite, given the kinds that failed. *)
Definition check_finding (failed : list CheckKind) (f : Finding) : bool :=
  let named := HasPrefix (f_ID f) "integration-check-" in
  (f_Severity f ≟ "BLOCKING") && (named || (f_ID f ≟ "integration-checks-incomplete"))
  && (negb (named && (f_ID f ≠? "integration-check-runner"))
      || containsString failed (ToUpper (TrimPrefix (f_ID f) "integration-check-"))).

Definition check_failure (audit : Audit) (ownerTaskID : string) : bool :=
  if negb (Nat.eqb (length (au_Checks audit)) (length requiredCheckKinds))
     || negb (validCheckResults (au_Checks audit) false) then false else
  let failed := map k_Kind (List.filter (fun check => k_Status check ≠? CheckPassed) (au_Checks audit)) in
  if Nat.eqb (length failed) 0 then false else
  forallb (check_finding failed) (au_Findings audit)
  && existsb (fun f => containsString (f_Tasks f) ownerTaskID) (au_Findings audit).

Definition isMergeFailureAudit (audit : Audit) (ownerTaskID : string) : bool :=
  match au_Findings audit with
  | [] => false
  | [finding] =>
      if f_ID finding ≟ "merge-conflict" then
        (f_Severity finding ≟ "BLOCKING") && (f_Category finding ≟ "MERGE")
        && Nat.eqb (length (au_Checks audit)) 0 && containsString (f_Tasks finding) ownerTaskID
      else check_failure audit ownerTaskID
  | _ => check_failure audit ownerTaskID
  end.

(** [authority.go]. *)
Definition allConflictFindingsOwned (findings : list Finding) (ownerTaskID : string) : bool :=
  Nat.ltb 0 (length findings) && forallb (fun f => containsString (f_Tasks f) ownerTaskID) findings.
Definition globalAuditConflictEvidence (result : MergeResult) : bool :=
  match au_Checks (m_Audit result) with
  | [check] =>
      (k_Kind check ≟ CheckIntegration) && (k_Status check ≟ CheckError)
      && (k_EvidenceSHA256 check ≟ au_EvidenceSHA256 (m_Audit result))
      && (k_OwnerTaskID check ≟ m_OwnerTaskID result) && containsString (k_Tasks check) (m_OwnerTaskID result)
      && allConflictFindingsOwned (au_Findings (m_Audit result)) (m_OwnerTaskID result)
  | _ => false
  end.

(** ** The store *)
Record memoryRecord : Type := mkRecord {
  result : MergeResult;
  task : IntegrationTask
}.

Abbreviation MemoryStore := (gmap string memoryRecord) (only parsing).
Definition NewMemoryStore : MemoryStore := ∅.

Definition record_key (tenantID id : string) : string := tenantID +:+ nul +:+ id.
Definition zeroRecord : memoryRecord := mkRecord zeroMergeResult zeroTask.

Definition Get (tenantID id : string) (s : MemoryStore) : MergeResult * bool :=
  let record := default zeroRecord (s !! record_key tenantID id) in
  (cloneResult (result record), negb (is_nil (s !! record_key tenantID id))).

Definition GetTask (tenantID id : string) (s : MemoryStore) : IntegrationTask * bool :=
  let record := default zeroRecord (s !! record_key tenantID id) in
  (cloneIntegrationTask (task record), negb (is_nil (s !! record_key tenantID id))).

(** The answers of the store: a value, whether the store changed, an error. *)
Definition StartAttempt (request : StartAttemptRequest) (s : MemoryStore)
    : MemoryStore * (IntegrationTask * bool * option error) :=
  if negb (validStartAttemptRequest request) then (s, (zeroTask, false, Some ErrInvalidRequest)) else
  let key := record_key (sa_TenantID request) (sa_IntegrationID request) in
  match s !! key with
  | None => (s, (zeroTask, false, Some ErrAttemptState))
  | Some record =>
      let t := task record in
      if (t_ProjectID t ≠? sa_ProjectID request) || (t_OwnerTaskID t ≠? sa_OwnerTaskID request)
      then (s, (zeroTask, false, Some ErrAttemptState)) else
      let same := (t_Attempt t =? sa_Attempt request) && (sa_ExpectedVersion request <? t_Version t) in
      if (t_State t ≟ TaskBlockedUserDecision) && same
      then (s, (cloneIntegrationTask t, false, Some ErrAttemptsExhausted)) else
      if same then (s, (cloneIntegrationTask t, false, None)) else
      if (t_State t ≠? TaskReworkRequired) || negb (t_Version t =? sa_ExpectedVersion request)
         || negb (wrap64 (t_Attempt t + 1) =? sa_Attempt request)
      then (s, (cloneIntegrationTask t, false, Some ErrAttemptState)) else
      let t := t ⟦ t_State := TaskExecuting ⟧ ⟦ t_Attempt := sa_Attempt request ⟧
                 ⟦ t_Version := wrap64 (t_Version t + 1) ⟧ in
      (<[key := mkRecord ((result record) ⟦ m_Attempt := sa_Attempt request ⟧) t]> s,
       (cloneIntegrationTask t, true, None))
  end.

(** The record of a conflict on a record that exists. *)
Definition conflicted (result : MergeResult) (t : IntegrationTask) : IntegrationTask :=
  t ⟦ t_OwnerTaskID := m_OwnerTaskID result ⟧ ⟦ t_Conflict := cloneAudit (m_Audit result) ⟧
    ⟦ t_Version := wrap64 (t_Version t + 1) ⟧
    ⟦ t_State := if m_Attempt result =? 3 then TaskBlockedUserDecision else TaskReworkRequired ⟧.

Definition RecordConflict (conflict : MergeResult) (s : MemoryStore)
    : MemoryStore * (MergeResult * bool * option error) :=
  if negb (validConflictResult conflict) then (s, (zeroMergeResult, false, Some ErrInvalidRequest)) else
  let key := record_key (m_TenantID conflict) (m_IntegrationID conflict) in
  match s !! key with
  | Some prior =>
      let t := task prior in
      if (t_State t ≟ TaskReworkRequired) || (t_State t ≟ TaskBlockedUserDecision) then
        (if sameConflictResult (result prior) conflict then (s, (cloneResult (result prior), false, None))
         else (s, (zeroMergeResult, false, Some ErrImmutable)))
      else
      let failure := isMergeFailureAudit (m_Audit conflict) (m_OwnerTaskID conflict) in
      let initialMergeFailure := (m_Attempt conflict =? 0) && (t_State t ≟ TaskMergeReserved)
        && (t_Attempt t =? 0) && (t_OwnerTaskID t ≟ "") && failure in
      if negb initialMergeFailure
         && ((t_OwnerTaskID t ≠? m_OwnerTaskID conflict) || negb (t_Attempt t =? m_Attempt conflict))
      then (s, (zeroMergeResult, false, Some ErrAttemptState)) else
      let reworkFailure := (0 <? m_Attempt conflict)
        && ((t_State t ≟ TaskExecuting) || (t_State t ≟ TaskMergeReserved) && failure) in
      if negb initialMergeFailure && negb reworkFailure
      then (s, (zeroMergeResult, false, Some ErrAttemptState)) else
      (<[key := mkRecord (cloneResult conflict) (conflicted conflict t)]> s, (cloneResult conflict, true, None))
  | None =>
      if negb (m_Attempt conflict =? 0) then (s, (zeroMergeResult, false, Some ErrAttemptState)) else
      (<[key := mkRecord (cloneResult conflict)
           (mkIntegrationTask (m_TenantID conflict) (m_ProjectID conflict) (m_IntegrationID conflict)
              (m_OwnerTaskID conflict) TaskReworkRequired 1 0 (cloneAudit (m_Audit conflict)))]> s,
       (cloneResult conflict, true, None))
  end.

Definition RecordGlobalAuditConflict (conflict : MergeResult) (expectedProjectVersion : Z) (s : MemoryStore)
    : MemoryStore * (MergeResult * bool * option error) :=
  if (expectedProjectVersion <? 1) || negb (m_Attempt conflict =? 0) || negb (globalAuditConflictEvidence conflict)
  then (s, (zeroMergeResult, false, Some ErrInvalidRequest))
  else RecordConflict conflict s.

(** The boolean tells whether the caller owns the reservation. *)
Definition Reserve (reservation : MergeResult) (s : MemoryStore)
    : MemoryStore * (MergeResult * bool * option error) :=
  let key := record_key (m_TenantID reservation) (m_IntegrationID reservation) in
  match s !! key with
  | Some prior =>
      let t := task prior in
      if (m_RequestDigest (result prior) ≟ m_RequestDigest reservation)
         && (au_EvidenceSHA256 (m_Audit (result prior)) ≟ au_EvidenceSHA256 (m_Audit reservation)) then
        (if (t_State t ≟ TaskDone)
            && ((m_LeaseID (result prior) ≠? m_LeaseID reservation)
                || negb (m_FencingToken (result prior) =? m_FencingToken reservation))
         then (s, (zeroMergeResult, false, Some ErrImmutable))
         else (s, (cloneResult (result prior), false, None)))
      else
      if m_RequestDigest (result prior) ≠? "" then (s, (zeroMergeResult, false, Some ErrImmutable)) else
      if (m_Attempt reservation =? 0) || (t_State t ≠? TaskExecuting)
         || negb (t_Attempt t =? m_Attempt reservation) || (t_OwnerTaskID t ≠? m_OwnerTaskID reservation)
      then (s, (zeroMergeResult, false, Some ErrAttemptState)) else
      let r := cloneResult (reservation ⟦ m_Pending := true ⟧) in
      (<[key := mkRecord r (t ⟦ t_State := TaskMergeReserved ⟧ ⟦ t_Version := wrap64 (t_Version t + 1) ⟧)]> s,
       (cloneResult r, true, None))
  | None =>
      if negb (m_Attempt reservation =? 0) || (m_OwnerTaskID reservation ≠? "")
      then (s, (zeroMergeResult, false, Some ErrAttemptState)) else
      let r := cloneResult (reservation ⟦ m_Pending := true ⟧) in
      (<[key := mkRecord r (mkIntegrationTask (m_TenantID reservation) (m_ProjectID reservation)
           (m_IntegrationID reservation) "" TaskMergeReserved 1 0 zeroAudit)]> s, (cloneResult r, true, None))
  end.

Definition Complete (completed : MergeResult) (s : MemoryStore) : MemoryStore * option error :=
  if (negb (Nat.eqb (length (m_Checks completed)) 0) && negb (validCheckResults (m_Checks completed) true))
     || negb (validStoredCandidates (m_Candidates completed)) then (s, Some ErrInvalidRequest) else
  let key := record_key (m_TenantID completed) (m_IntegrationID completed) in
  match s !! key with
  | None => (s, Some ErrImmutable)
  | Some prior =>
      let t := task prior in
      if (m_RequestDigest (result prior) ≠? m_RequestDigest completed)
         || (au_EvidenceSHA256 (m_Audit (result prior)) ≠? au_EvidenceSHA256 (m_Audit completed))
      then (s, Some ErrImmutable) else
      if negb (m_Pending (result prior)) then
        (if (t_State t ≟ TaskDone)
            && ((m_LeaseID (result prior) ≠? m_LeaseID completed)
                || negb (m_FencingToken (result prior) =? m_FencingToken completed))
         then (s, Some ErrImmutable)
         else if (m_Commit (result prior) ≟ m_Commit completed) && (t_State t ≟ TaskDone)
         then (s, None) else (s, Some ErrImmutable))
      else
      if (t_State t ≠? TaskMergeReserved) || (t_OwnerTaskID t ≠? m_OwnerTaskID completed)
         || negb (t_Attempt t =? m_Attempt completed)
      then (s, Some ErrAttemptState) else
      (<[key := mkRecord (cloneResult (completed ⟦ m_Pending := false ⟧))
           (t ⟦ t_State := TaskDone ⟧ ⟦ t_Version := wrap64 (t_Version t + 1) ⟧)]> s, None)
  end.

(** [FindConflictByEvidence] over the records in the order the loop meets them;
    [canonicalUUID] is the test with the third-party parser. *)
Fixpoint find_conflict (found : option IntegrationTask) (tenantID projectID evidenceSHA256 : string)
    (order : list memoryRecord) : Prelude.result (option IntegrationTask) error :=
  match order with
  | [] => Ok found
  | record :: order =>
      let t := task record in
      if (t_TenantID t ≠? tenantID) || (t_ProjectID t ≠? projectID)
         || (au_EvidenceSHA256 (t_Conflict t) ≠? evidenceSHA256)
      then find_conflict found tenantID projectID evidenceSHA256 order else
      match found with
      | Some _ => Err ErrImmutable
      | None => find_conflict (Some (cloneIntegrationTask t)) tenantID projectID evidenceSHA256 order
      end
  end.

Definition FindConflictByEvidence (canonicalUUID : string -> bool) (ctx_done : bool)
    (tenantID projectID evidenceSHA256 : string) (order : list memoryRecord)
    : Prelude.result (option IntegrationTask) error :=
  if ctx_done || negb (canonicalUUID tenantID) || negb (canonicalUUID projectID)
     || negb (digestPattern evidenceSHA256) then Err ErrInvalidRequest
  else find_conflict None tenantID projectID evidenceSHA256 order.
End Integration.
