(* ===== verification/IntegrationProps.v ===== *)
(** The life of an integration task in the store: the abstract lifecycle, and
    that every sequence of store operations follows it. *)

From S2P Require Import Prelude GoLib Runs Integration.

Module IntegrationProps.
Import Integration.

(** ** Commands on the store *)
Inductive command : Type :=
| DoStartAttempt (request : StartAttemptRequest)
| DoRecordConflict (conflict : MergeResult)
| DoRecordGlobalAuditConflict (conflict : MergeResult) (expectedProjectVersion : Z)
| DoReserve (reservation : MergeResult)
| DoComplete (completed : MergeResult).

Definition perform (s : MemoryStore) (c : command) : MemoryStore :=
  match c with
  | DoStartAttempt request => fst (StartAttempt request s)
  | DoRecordConflict conflict => fst (RecordConflict conflict s)
  | DoRecordGlobalAuditConflict conflict version => fst (RecordGlobalAuditConflict conflict version s)
  | DoReserve reservation => fst (Reserve reservation s)
  | DoComplete completed => fst (Complete completed s)
  end.
Definition command_step (s : MemoryStore) (c : command) : option MemoryStore := Some (perform s c).

(** The record a command is about. *)
Definition subject (c : command) : string :=
  match c with
  | DoStartAttempt request => record_key (sa_TenantID request) (sa_IntegrationID request)
  | DoRecordConflict r | DoRecordGlobalAuditConflict r _ | DoReserve r | DoComplete r =>
      record_key (m_TenantID r) (m_IntegrationID r)
  end.

(** ** The lifecycle: a state and the number of the attempt. *)
Abbreviation phase := (TaskState * Z)%type (only parsing).

Definition failed_at (attempt : Z) : TaskState :=
  if attempt =? 3 then TaskBlockedUserDecision else TaskReworkRequired.

Inductive lifecycle : option phase -> option phase -> Prop :=
| reserve_first : lifecycle None (Some (TaskMergeReserved, 0))
| conflict_first : lifecycle None (Some (TaskReworkRequired, 0))
| begin_attempt k : 0 <= k <= 2 ->
    lifecycle (Some (TaskReworkRequired, k)) (Some (TaskExecuting, k + 1))
| reserve_again k : 1 <= k <= 3 ->
    lifecycle (Some (TaskExecuting, k)) (Some (TaskMergeReserved, k))
| attempt_fails k : 1 <= k <= 3 ->
    lifecycle (Some (TaskExecuting, k)) (Some (failed_at k, k))
| merge_fails k : 0 <= k <= 3 ->
    lifecycle (Some (TaskMergeReserved, k)) (Some (failed_at k, k))
| merge_completes k : 0 <= k <= 3 ->
    lifecycle (Some (TaskMergeReserved, k)) (Some (TaskDone, k)).

(** How far a phase is along: every transition moves further. *)
Definition rank (p : option phase) : Z :=
  match p with
  | None => 0
  | Some (state, k) =>
      if state ≟ TaskExecuting then 3 * k else if state ≟ TaskMergeReserved then 3 * k + 1 else 3 * k + 2
  end.

Definition reachable_phase (p : phase) : Prop :=
  let '(state, k) := p in
  (state = TaskMergeReserved \/ state = TaskDone) /\ 0 <= k <= 3
  \/ state = TaskReworkRequired /\ 0 <= k <= 2
  \/ state = TaskExecuting /\ 1 <= k <= 3
  \/ state = TaskBlockedUserDecision /\ k = 3.

Lemma rank_bound p : reachable_phase p -> rank (Some p) <= 3 * snd p + 2 /\ 3 * snd p + 2 <= 11.
Proof.
  destruct p as [state k]. unfold reachable_phase, rank. intros H. cbn [snd].
  repeat case_bool_decide; naive_solver lia.
Qed.

Lemma failed_at_phase k : 0 <= k <= 3 -> reachable_phase (failed_at k, k) /\ rank (Some (failed_at k, k)) = 3 * k + 2.
Proof.
  intros Hk. unfold failed_at. destruct (Z.eqb_spec k 3) as [->|Hne]; [split; [naive_solver|done]|].
  split; [cbn; naive_solver lia|done].
Qed.

Lemma rank_executing k : rank (Some (TaskExecuting, k)) = 3 * k.
Proof. reflexivity. Qed.
Lemma rank_reserved k : rank (Some (TaskMergeReserved, k)) = 3 * k + 1.
Proof. reflexivity. Qed.
Lemma rank_rework k : rank (Some (TaskReworkRequired, k)) = 3 * k + 2.
Proof. reflexivity. Qed.
Lemma rank_done k : rank (Some (TaskDone, k)) = 3 * k + 2.
Proof. reflexivity. Qed.

Lemma lifecycle_advances p q : lifecycle p q -> exists q', q = Some q' /\ reachable_phase q' /\ rank p < rank q.
Proof.
  destruct 1 as [| |k Hk|k Hk|k Hk|k Hk|k Hk];
    try (destruct (failed_at_phase k) as [Hr Hq]; [lia|]);
    (eexists; split; [reflexivity|]); (split; [first [assumption | cbn; naive_solver lia]|]);
    rewrite ?Hq, ?rank_executing, ?rank_reserved, ?rank_rework, ?rank_done; cbn [rank]; lia.
Qed.

Lemma lifecycle_final state k p :
  state = TaskDone \/ state = TaskBlockedUserDecision -> ~ lifecycle (Some (state, k)) p.
Proof. intros [-> | ->] H; inversion H. Qed.

(** ** The abstraction of a record *)
Definition phase_of (r : memoryRecord) : phase := (t_State (task r), t_Attempt (task r)).
Definition phase_at (s : MemoryStore) (key : string) : option phase := phase_of <$> s !! key.
Definition version_of (o : option memoryRecord) : Z := from_option (fun r => t_Version (task r)) 0 o.
Definition version_at (s : MemoryStore) (key : string) : Z := version_of (s !! key).

Definition record_wf (r : memoryRecord) : Prop :=
  reachable_phase (phase_of r) /\ 1 <= t_Version (task r) <= rank (Some (phase_of r)).
Definition store_wf (s : MemoryStore) : Prop := forall key r, s !! key = Some r -> record_wf r.

(** One transition of one record. *)
Definition moved (old : option memoryRecord) (new : memoryRecord) : Prop :=
  lifecycle (phase_of <$> old) (Some (phase_of new)) /\ t_Version (task new) = version_of old + 1.

(** What a command does: nothing, or one transition of its subject. *)
Definition effect (key : string) (s s' : MemoryStore) : Prop :=
  s' = s \/ exists r, s' = <[key := r]> s /\ moved (s !! key) r.

Lemma effect_none key s : effect key s s.
Proof. by left. Qed.

Lemma effect_insert key s r : moved (s !! key) r -> effect key s (<[key := r]> s).
Proof. right. eauto. Qed.
#[local] Hint Resolve effect_none effect_insert : core.

(** The version of a well-formed record does not wrap. *)
Lemma version_next r : record_wf r -> wrap64 (t_Version (task r) + 1) = t_Version (task r) + 1.
Proof.
  intros [Hp Hv]. pose proof (rank_bound _ Hp). apply wrap64_id. unfold in_int64, two63. lia.
Qed.

Lemma phase_cases r : record_wf r -> reachable_phase (t_State (task r), t_Attempt (task r)).
Proof. by intros [? _]. Qed.

(** Split the guards of a store operation into its branches. *)
#[local] Ltac branches :=
  repeat match goal with
  | |- effect _ _ (fst (if ?c then _ else _)) => let G := fresh "G" in destruct c eqn:G
  | |- effect _ _ (fst (let x := _ in _)) => cbv zeta
  | |- effect _ _ (fst (match ?m with Some _ => _ | None => _ end)) => let G := fresh "G" in destruct m eqn:G
  end; cbn [fst]; auto.

Lemma start_effect request s :
  store_wf s -> effect (subject (DoStartAttempt request)) s (fst (StartAttempt request s)).
Proof.
  intros Hwf. unfold StartAttempt. branches. apply effect_insert. cbn [subject].
  match goal with H : _ !! _ = Some ?r |- _ => rewrite H; pose proof (Hwf _ _ H) as Hr end.
  go_bool. pose proof (version_next _ Hr) as Hv. pose proof (phase_cases _ Hr) as Hp.
  unfold moved, phase_of. cbn. rewrite Hv.
  match goal with H : t_State _ = _ |- _ => rewrite H in * end.
  split; [|done].
  assert (0 <= t_Attempt (task m) <= 2) by (cbn in Hp; naive_solver).
  match goal with H : wrap64 _ = sa_Attempt _ |- _ =>
    rewrite wrap64_id in H by (unfold in_int64, two63; lia); rewrite <- H end.
  by constructor.
Qed.

(** What a store operation reads of a present record. *)
#[local] Ltac read_record Hwf :=
  match goal with H : _ !! _ = Some ?r |- _ =>
    rewrite H; pose proof (Hwf _ _ H) as Hr; pose proof (version_next _ Hr) as Hv;
    pose proof (phase_cases _ Hr) as Hp end.

Lemma reserve_effect reservation s :
  store_wf s -> effect (subject (DoReserve reservation)) s (fst (Reserve reservation s)).
Proof.
  intros Hwf. unfold Reserve. branches; apply effect_insert; cbn [subject].
  - read_record Hwf. go_bool. unfold moved, phase_of. cbn. rewrite Hv. split; [|done].
    match goal with H : t_State _ = _ |- _ => rewrite H in * end.
    constructor. cbn in Hp. naive_solver.
  - match goal with H : _ !! _ = None |- _ => rewrite H end. split; [constructor|done].
Qed.

Lemma complete_effect completed s :
  store_wf s -> effect (subject (DoComplete completed)) s (fst (Complete completed s)).
Proof.
  intros Hwf. unfold Complete. branches. apply effect_insert; cbn [subject].
  read_record Hwf. go_bool. unfold moved, phase_of. cbn. rewrite Hv. split; [|done].
  match goal with H : t_State _ = _ |- _ => rewrite H in * end.
  constructor. cbn in Hp. naive_solver.
Qed.

Lemma valid_conflict_attempt conflict : validConflictResult conflict = true -> 0 <= m_Attempt conflict <= 3.
Proof. unfold validConflictResult. intros H. go_bool. lia. Qed.

(** A conflict hits a record that is executing or reserved, at its attempt. *)
Lemma conflict_branch conflict t :
  let failure := isMergeFailureAudit (m_Audit conflict) (m_OwnerTaskID conflict) in
  let initial := (m_Attempt conflict =? 0) && (t_State t ≟ TaskMergeReserved)
    && (t_Attempt t =? 0) && (t_OwnerTaskID t ≟ "") && failure in
  negb initial && ((t_OwnerTaskID t ≠? m_OwnerTaskID conflict) || negb (t_Attempt t =? m_Attempt conflict)) = false ->
  negb initial && negb ((0 <? m_Attempt conflict)
    && ((t_State t ≟ TaskExecuting) || (t_State t ≟ TaskMergeReserved) && failure)) = false ->
  t_Attempt t = m_Attempt conflict
  /\ (t_State t = TaskMergeReserved \/ t_State t = TaskExecuting /\ 1 <= m_Attempt conflict).
Proof.
  intros failure initial. destruct initial eqn:Hi; cbn [negb andb].
  - intros _ _. subst initial. go_bool. split; [lia|by left].
  - intros H1 H2. go_bool. split; [done|].
    match goal with H : _ || _ = true |- _ => apply orb_true_iff in H as [H|H] end; go_bool; [right|left]; auto with lia.
Qed.

Lemma conflict_effect conflict s :
  store_wf s -> effect (subject (DoRecordConflict conflict)) s (fst (RecordConflict conflict s)).
Proof.
  intros Hwf. unfold RecordConflict. branches; apply effect_insert; cbn [subject].
  - match goal with H : negb (validConflictResult _) = false |- _ => apply negb_false_iff, valid_conflict_attempt in H end.
    match goal with H1 : _ = false, H2 : _ = false |- _ => destruct (conflict_branch conflict _ H1 H2) as [Ha Hs] end.
    read_record Hwf. unfold moved, phase_of, conflicted. cbn -[failed_at]. rewrite Hv. split; [|done].
    rewrite Ha. change (if m_Attempt conflict =? 3 then _ else _) with (failed_at (m_Attempt conflict)).
    destruct Hs as [-> | [-> ?]]; constructor; lia.
  - match goal with H : _ !! _ = None |- _ => rewrite H end. split; [constructor|done].
Qed.

Lemma perform_effect s c : store_wf s -> effect (subject c) s (perform s c).
Proof.
  intros Hwf. destruct c; cbn [perform].
  - by apply start_effect.
  - by apply conflict_effect.
  - unfold RecordGlobalAuditConflict. destruct (_ || _); [auto|]. by apply (conflict_effect conflict).
  - by apply reserve_effect.
  - by apply complete_effect.
Qed.

(** ** Runs of commands *)
Lemma moved_wf old new : from_option record_wf True old -> moved old new -> record_wf new.
Proof.
  intros Hold [Hl Hv]. destruct (lifecycle_advances _ _ Hl) as (q & [= <-] & Hq & Hr).
  split; [done|]. rewrite Hv. destruct old as [r|]; cbn in Hr |- *; [|lia].
  destruct Hold as [_ Hold]. cbn in Hold. lia.
Qed.

Lemma effect_wf key s s' : store_wf s -> effect key s s' -> store_wf s'.
Proof.
  intros Hwf [->|(r & -> & Hm)]; [done|]. intros k x [[<- <-]|[Hne Hx]]%lookup_insert_Some; [|by eapply Hwf].
  eapply moved_wf, Hm. destruct (s !! key) eqn:E; [|done]. by eapply Hwf.
Qed.

(** How the record of one key went from [s] to [s']: [n] transitions, each
    adding one to the version, and no other change. *)
Definition progressed (key : string) (s s' : MemoryStore) (n : nat) : Prop :=
  nsteps lifecycle n (phase_at s key) (phase_at s' key)
  /\ version_at s' key = version_at s key + Z.of_nat n
  /\ (n = 0%nat -> s' !! key = s !! key).

Lemma progressed_trans key s1 s2 s3 n m :
  progressed key s1 s2 n -> progressed key s2 s3 m -> progressed key s1 s3 (n + m).
Proof.
  intros (H1 & V1 & Z1) (H2 & V2 & Z2). split; [by eapply nsteps_trans|]. split; [lia|].
  intros H0. rewrite Z2, Z1 by lia. done.
Qed.

Lemma effect_progressed key s s' k : effect key s s' -> exists n, progressed k s s' n.
Proof.
  intros [->|(r & -> & Hl & Hv)]; [exists 0%nat; split; [constructor|split; [lia|done]]|].
  destruct (decide (k = key)) as [->|Hne].
  - exists 1%nat. unfold progressed, phase_at, version_at. rewrite lookup_insert_eq.
    split; [by apply nsteps_once|]. split; [cbn [version_of from_option]; lia|done].
  - exists 0%nat. unfold progressed, phase_at, version_at. rewrite lookup_insert_ne by done.
    split; [constructor|split; [lia|done]].
Qed.

Lemma run_progressed s cs s' :
  run command_step s cs s' -> store_wf s -> store_wf s' /\ forall key, exists n, progressed key s s' n.
Proof.
  induction 1 as [s|s cs s1 c s2 _ IH Hs]; intros Hwf.
  - split; [done|]. intros key. exists 0%nat. split; [constructor|split; [lia|done]].
  - destruct (IH Hwf) as [Hwf1 Hp]. injection Hs as <-. pose proof (perform_effect _ c Hwf1) as He.
    split; [by eapply effect_wf|]. intros key. destruct (Hp key) as [n Hn].
    destruct (effect_progressed _ _ _ key He) as [m Hm]. exists (n + m)%nat. by eapply progressed_trans.
Qed.

(** A run touches the subjects of its commands only. *)
Lemma run_frame s cs s' key other :
  run command_step s cs s' -> store_wf s -> Forall (fun c => subject c = key) cs -> other <> key -> s' !! other = s !! other.
Proof.
  induction 1 as [s|s cs s1 c s2 Hrun IH Hs]; intros Hwf Hsub Hne; [done|].
  apply Forall_app in Hsub as [Hsub Hc]. apply Forall_cons in Hc as [Hc _].
  destruct (run_progressed _ _ _ Hrun Hwf) as [Hwf1 _]. injection Hs as <-.
  rewrite <- IH by done. destruct (perform_effect _ c Hwf1) as [->|(r & -> & _)]; [done|].
  by rewrite lookup_insert_ne by congruence.
Qed.

Lemma new_store_wf : store_wf NewMemoryStore.
Proof. intros key r H. unfold NewMemoryStore in H. by rewrite lookup_empty in H. Qed.

Lemma final_stays s s' key n state k :
  progressed key s s' n -> phase_at s key = Some (state, k) -> state = TaskDone \/ state = TaskBlockedUserDecision ->
  s' !! key = s !! key.
Proof.
  intros (Hn & _ & Hz) Hp Hs. destruct n as [|n]; [by apply Hz|]. rewrite Hp in Hn.
  inversion Hn as [|? ? q ? Hl]; subst. by apply lifecycle_final in Hl.
Qed.

(** ** The properties *)

(** C29: The store implements the lifecycle of an integration task: whatever
    sequence of its operations runs, with whatever requests, every record went
    through a path of the lifecycle from nothing, one version per transition.
    A path has at most eleven transitions (three for each of the three rework
    attempts after the first merge), so versions are bounded and never wrap. *)
Theorem store_follows_lifecycle cs s key :
  run command_step NewMemoryStore cs s ->
  exists n, nsteps lifecycle n None (phase_at s key)
    /\ version_at s key = Z.of_nat n
    /\ match phase_at s key with
       | None => n = 0%nat
       | Some (state, attempt) => 0 <= attempt <= 3 /\ 1 <= Z.of_nat n <= 3 * attempt + 2
       end
    /\ (n <= 11)%nat.
Proof.
  intros Hrun. destruct (run_progressed _ _ _ Hrun new_store_wf) as [Hwf Hp].
  destruct (Hp key) as (n & Hn & Hv & _). exists n. split; [done|]. split; [exact Hv|].
  change (version_at NewMemoryStore key) with 0 in Hv. unfold phase_at, version_at in *.
  destruct (s !! key) as [r|] eqn:E.
  - destruct (Hwf _ _ E) as [Hr Hb]. pose proof (rank_bound _ Hr) as [H1 H2].
    cbn [version_of from_option fmap option_fmap option_map phase_of snd] in *. cbn in Hr.
    unfold phase_of in *. cbn [snd] in *. split; [|lia]. split; [naive_solver lia|lia].
  - cbn [version_of from_option] in Hv. split; [|lia]. cbn. lia.
Qed.

(** What is decided stays: once an integration task is DONE, or blocked
    for the user after its third failed attempt, no store operation changes its
    record again - not its commit, its audit, its checks nor its lease. *)
Theorem integration_final cs s cs' s' key r :
  run command_step NewMemoryStore cs s -> run command_step s cs' s' ->
  s !! key = Some r -> t_State (task r) = TaskDone \/ t_State (task r) = TaskBlockedUserDecision ->
  s' !! key = Some r.
Proof.
  intros Hrun Hrun' Hr Hs. destruct (run_progressed _ _ _ Hrun new_store_wf) as [Hwf _].
  destruct (run_progressed _ _ _ Hrun' Hwf) as [_ Hp]. destruct (Hp key) as [n Hn].
  rewrite <- Hr. eapply final_stays; [exact Hn| |exact Hs]. unfold phase_at. by rewrite Hr.
Qed.
End IntegrationProps.
