(* ===== verification/Queue.v ===== *)
(** The integration queue ([internal/integration/queue.go]): verification of a
    merge request, its ownership audit, the reserved merge with its recovery,
    the cross-module checks, and the conflicts they end in.

    The queue's mutex makes each operation one step on the store.  Its
    collaborators keep a state of their own of type [E] and are called through
    the class [Collaborators]; so does the clock, and so does the order in
    which Go visits a map.  The JSON encoders, the canonical transform, the
    hash and the Unicode lower-casing of interface names are arguments. *)

From S2P Require Import Prelude GoLib Trace Contracts EventStore Path Integration.

Module Queue.
Import Integration.

(** ** State passing *)
Definition ST (S A : Type) : Type := S -> S * A.
Definition ret {S A} (a : A) : ST S A := fun s => (s, a).
Definition bind {S A B} (m : ST S A) (k : A -> ST S B) : ST S B :=
  fun s => let '(s', a) := m s in k a s'.

#[local] Notation "x ⟵ m ;; k" := (bind m (fun x => k))
  (at level 100, m at level 99, k at level 200, right associativity,
   format "'[v' x  ⟵  m  ;; '/' k ']'") : go_scope.

Definition try {S A B X} (m : ST S (Prelude.result A X)) (k : A -> ST S (Prelude.result B X))
    : ST S (Prelude.result B X) :=
  bind m (fun r => match r with Ok a => k a | Err e => ret (Err e) end).
#[local] Notation "x ⟵! m ;; k" := (try m (fun x => k))
  (at level 100, m at level 99, k at level 200, right associativity,
   format "'[v' x  ⟵!  m  ;; '/' k ']'") : go_scope.

(** A loop that carries [a] over the values of [l]. *)
Fixpoint loop {S A X} (f : X -> A -> ST S A) (l : list X) (a : A) : ST S A :=
  match l with
  | [] => ret a
  | x :: l => a ⟵ f x a ;; loop f l a
  end.

(** ** The collaborators *)
Class Collaborators (E : Type) := {
  clock : ST E time;
  range : gmap string string -> ST E (list (string * string));
  gate_Validate : Request -> ST E (Prelude.result VerifiedRequest error);
  executor_Merge : string -> list string -> string -> ST E (Prelude.result string error);
  executor_Lookup : string -> ST E (Prelude.result (option string) error);
  verifier_Verify : MergeVerificationInput -> ST E (list CheckResult * option error)
}.

(** A [range] over a map visits every entry once. *)
Class RangeLaw (E : Type) `{Collaborators E} : Prop :=
  range_visits : forall m e, snd (range m e) ≡ₚ map_to_list m.

(** ** Values that are digested *)
Record AuditView : Type := mkAuditView {
  aw_TenantID : string;
  aw_IntegrationID : string;
  aw_ProjectID : string;
  aw_BaseCommit : string;
  aw_Candidates : list Candidate;
  aw_Findings : list Finding;
  aw_PolicyDigest : string;
  aw_StateVersion : Z;
  aw_Authorization : string;
  aw_OwnerTaskID : string;
  aw_Attempt : Z;
  aw_Checks : list CheckResult
}.

(** [rw_CreatedAt] is the instant; its RFC 3339 text is part of the encoding. *)
Record RequestView : Type := mkRequestView {
  rw_TenantID : string;
  rw_ProjectID : string;
  rw_IntegrationID : string;
  rw_IdempotencyKey : string;
  rw_BaseCommit : string;
  rw_Candidates : list Candidate;
  rw_PolicyDigest : string;
  rw_ExpectedVersion : Z;
  rw_CreatedAt : time;
  rw_PrincipalID : string;
  rw_Authorization : string;
  rw_OwnerTaskID : string;
  rw_Attempt : Z
}.

Record CheckView : Type := mkCheckView {
  cw_TenantID : string;
  cw_ProjectID : string;
  cw_IntegrationID : string;
  cw_IntegrationCommit : string;
  cw_Check : CheckResult
}.

(** [json.Marshal] on the three views, [canonicaljson]'s transform and SHA-256,
    and [strings.ToLower] on arbitrary text. *)
Record Encoding : Type := mkEncoding {
  marshal_audit : AuditView -> Prelude.result string error;
  marshal_request : RequestView -> Prelude.result string error;
  marshal_check : CheckView -> Prelude.result string error;
  jcs_Transform : string -> option string;
  sha256_Sum256 : string -> list Z;
  strings_ToLower : string -> string
}.

Section Queue.
Context (enc : Encoding).

Definition Digest (value : string) : Prelude.result string error :=
  match CanonicalJson.Digest (jcs_Transform enc) (sha256_Sum256 enc) value with
  | Some digest => Ok digest
  | None => Err (External "canonicalize JSON")
  end.

(** ** Canonical forms and digests *)
Definition candidate_before (left right : Candidate) : bool :=
  if c_TaskID left ≠? c_TaskID right then String.ltb (c_TaskID left) (c_TaskID right)
  else String.ltb (c_ModuleID left) (c_ModuleID right).

Definition canonicalCandidates (input : list Candidate) : list Candidate :=
  sort_slice candidate_before
    (map (fun c => c ⟦ c_OwnedPaths := sort_strings (c_OwnedPaths c) ⟧
                     ⟦ c_PublicInterfaces := sort_strings (c_PublicInterfaces c) ⟧) (cloneCandidates input)).

Definition candidateTaskIDs (candidates : list Candidate) : list string :=
  map c_TaskID (canonicalCandidates candidates).

Definition auditDigestWithChecks (request : VerifiedRequest) (findings : list Finding)
    (checks : list CheckResult) : Prelude.result string error :=
  value <-! marshal_audit enc (mkAuditView (v_TenantID request) (v_IntegrationID request)
    (v_ProjectID request) (v_BaseCommit request) (v_Candidates request) findings (v_PolicyDigest request)
    (v_ExpectedVersion request) (v_Authorization request) (v_OwnerTaskID request) (v_Attempt request) checks) ;;
  Digest value.

Definition auditDigest (request : VerifiedRequest) (findings : list Finding) : Prelude.result string error :=
  auditDigestWithChecks request findings [].

Definition requestDigest (request : Request) (verified : VerifiedRequest) : Prelude.result string error :=
  let candidates := sort_slice candidate_before (canonicalCandidates (v_Candidates verified)) in
  value <-! marshal_request enc (mkRequestView (v_TenantID verified) (v_ProjectID verified)
    (v_IntegrationID verified) (q_IdempotencyKey request) (v_BaseCommit verified) candidates
    (v_PolicyDigest verified) (v_ExpectedVersion verified) (UTC (q_CreatedAt request)) (v_PrincipalID verified)
    (v_Authorization verified) (v_OwnerTaskID verified) (v_Attempt verified)) ;;
  Digest value.

Definition normalizedCheckDigest (request : VerifiedRequest) (commit : string) (check : CheckResult)
    : Prelude.result string error :=
  let check := check ⟦ k_EvidenceSHA256 := "" ⟧ in
  value <-! marshal_check enc (mkCheckView (v_TenantID request) (v_ProjectID request)
    (v_IntegrationID request) commit check) ;;
  Digest value.

(** ** Verification *)
Definition cloneRequest (request : Request) : Request :=
  mkRequest (q_TenantID request) (q_ProjectID request) (q_IntegrationID request) (q_IdempotencyKey request)
    (q_BaseCommit request) (cloneCandidates (q_Candidates request)) (q_PolicyDigest request)
    (q_ExpectedVersion request) (q_CreatedAt request) (q_PrincipalID request) (q_LeaseID request)
    (q_FencingToken request) (q_OwnerTaskID request) (q_Attempt request).

Definition cloneVerifiedRequest (request : VerifiedRequest) : VerifiedRequest :=
  request ⟦ v_Candidates := cloneCandidates (v_Candidates request) ⟧.

(** The owner of a rework attempt is one of the tasks. *)
Definition owner_listed (attempt : Z) (owner : string) (candidates : list Candidate) : bool :=
  negb (0 <? attempt) || containsString (map c_TaskID candidates) owner.

(** [validateRequest(request) == nil]. *)
Definition validateRequest (request : Request) : bool :=
  if (q_TenantID request ≟ "") || (q_ProjectID request ≟ "") || (q_IntegrationID request ≟ "")
     || (q_IdempotencyKey request ≟ "") || has_control (q_IdempotencyKey request)
     || negb (commitID (q_BaseCommit request)) || Nat.eqb (length (q_Candidates request)) 0
     || negb (digestPattern (q_PolicyDigest request)) || (q_ExpectedVersion request <? 1)
     || IsZero (q_CreatedAt request) || (q_PrincipalID request ≟ "") || (q_LeaseID request ≟ "")
     || (q_FencingToken request <? 1) || negb (validAttemptBinding (q_OwnerTaskID request) (q_Attempt request))
  then false else
  if negb (candidates_valid false ∅ (q_Candidates request)) then false else
  owner_listed (q_Attempt request) (q_OwnerTaskID request) (q_Candidates request).

(** [validateVerifiedRequest(request) == nil]. *)
Definition validateVerifiedRequest (request : VerifiedRequest) : bool :=
  if (v_TenantID request ≟ "") || (v_ProjectID request ≟ "") || (v_IntegrationID request ≟ "")
     || negb (commitID (v_BaseCommit request)) || Nat.eqb (length (v_Candidates request)) 0
     || negb (digestPattern (v_PolicyDigest request)) || (v_ExpectedVersion request <? 1)
     || (v_PrincipalID request ≟ "") || (v_LeaseID request ≟ "")
     || (v_FencingToken request <? 1) || negb (digestPattern (v_Authorization request))
     || negb (validAttemptBinding (v_OwnerTaskID request) (v_Attempt request))
  then false else
  if negb (candidates_valid true ∅ (v_Candidates request)) then false else
  owner_listed (v_Attempt request) (v_OwnerTaskID request) (v_Candidates request).

Definition requestMatchesVerified (request : Request) (verified : VerifiedRequest) : bool :=
  (q_TenantID request ≟ v_TenantID verified) && (q_ProjectID request ≟ v_ProjectID verified)
  && (q_IntegrationID request ≟ v_IntegrationID verified) && (q_BaseCommit request ≟ v_BaseCommit verified)
  && (q_PolicyDigest request ≟ v_PolicyDigest verified) && (q_ExpectedVersion request =? v_ExpectedVersion verified)
  && (q_PrincipalID request ≟ v_PrincipalID verified) && (q_LeaseID request ≟ v_LeaseID verified)
  && (q_FencingToken request =? v_FencingToken verified) && (q_OwnerTaskID request ≟ v_OwnerTaskID verified)
  && (q_Attempt request =? v_Attempt verified)
  && (canonicalCandidates (q_Candidates request) ≟ canonicalCandidates (v_Candidates verified)).

Context `{Collaborators E}.

Definition verify (request : Request) : ST E (Prelude.result VerifiedRequest error) :=
  if negb (validateRequest request) then ret (Err ErrInvalidRequest) else
  now ⟵ clock ;;
  if After (q_CreatedAt request) (Add (UTC now) Minute) then ret (Err ErrInvalidRequest) else
  answer ⟵ gate_Validate (cloneRequest request) ;;
  ret match answer with
      | Err _ => Err ErrNotAudited
      | Ok verified =>
          if negb (validateVerifiedRequest verified) || negb (requestMatchesVerified request verified)
          then Err ErrNotAudited else Ok (cloneVerifiedRequest verified)
      end.

(** ** The audit of ownership *)
Record Auditing : Type := mkAuditing {
  findings : list Finding;
  paths : gmap string string;
  interfaces : gmap string string
}.

Definition blocking (ID Category Summary : string) (Tasks : list string) : Finding :=
  mkFinding ID "BLOCKING" Category Summary Tasks.

Definition evidence_finding (c : Candidate) : Finding :=
  blocking ("audit-evidence-" +:+ c_TaskID c) "EVIDENCE"
    "candidate has no passing immutable audit evidence" [c_TaskID c].
Definition path_finding (c : Candidate) : Finding :=
  blocking ("path-invalid-" +:+ c_TaskID c) "OWNERSHIP" "candidate path is invalid" [c_TaskID c].
Definition overlap_finding (prior : string) (c : Candidate) : Finding :=
  blocking ("path-overlap-" +:+ prior +:+ "-" +:+ c_TaskID c) "OWNERSHIP"
    "module ownership overlaps" [prior; c_TaskID c].
Definition interface_finding (prior : string) (c : Candidate) : Finding :=
  blocking ("interface-conflict-" +:+ prior +:+ "-" +:+ c_TaskID c) "INTERFACE"
    "public interface is owned by multiple modules" [prior; c_TaskID c].

(** Does the owned path [prior] of another task overlap [clean] of [c]? *)
Definition overlaps (c : Candidate) (clean : string) (prior : string * string) : bool :=
  (snd prior ≠? c_TaskID c) && (containsPath (fst prior) clean || containsPath clean (fst prior)).

Definition audit_path (c : Candidate) (raw : string) (a : Auditing) : ST E Auditing :=
  match cleanPath raw with
  | None => ret (mkAuditing (findings a ++ [path_finding c]) (paths a) (interfaces a))
  | Some clean =>
      priors ⟵ range (paths a) ;;
      ret (mkAuditing
        (findings a ++ map (fun prior => overlap_finding (snd prior) c) (List.filter (overlaps c clean) priors))
        (<[clean := c_TaskID c]> (paths a)) (interfaces a))
  end.

Definition audit_interface (c : Candidate) (a : Auditing) (publicInterface : string) : Auditing :=
  let key := strings_ToLower enc (TrimSpace publicInterface) in
  if key ≟ "" then a else
  mkAuditing
    (match interfaces a !! key with
     | Some prior => if prior ≠? c_TaskID c then findings a ++ [interface_finding prior c] else findings a
     | None => findings a
     end) (paths a) (<[key := c_TaskID c]> (interfaces a)).

Definition audit_candidate (c : Candidate) (a : Auditing) : ST E Auditing :=
  let a := if negb (c_AuditPassed c) || (c_EvidenceSHA256 c ≟ "")
           then mkAuditing (findings a ++ [evidence_finding c]) (paths a) (interfaces a) else a in
  a ⟵ loop (audit_path c) (c_OwnedPaths c) a ;;
  ret (fold_left (audit_interface c) (c_PublicInterfaces c) a).

(** The first finding of each identity. *)
Fixpoint first_findings (seen : gset string) (input : list Finding) : list Finding :=
  match input with
  | [] => []
  | f :: input =>
      if bool_decide (f_ID f ∈ seen) then first_findings seen input
      else f :: first_findings ({[f_ID f]} ∪ seen) input
  end.
Definition deduplicateFindings (input : list Finding) : list Finding :=
  sort_slice (fun left right => String.ltb (f_ID left) (f_ID right)) (first_findings ∅ input).

Definition auditVerified (request : VerifiedRequest) : ST E (Prelude.result Audit error) :=
  let candidates := sort_slice (fun left right => String.ltb (c_TaskID left) (c_TaskID right))
                      (cloneCandidates (v_Candidates request)) in
  a ⟵ loop audit_candidate candidates (mkAuditing [] ∅ ∅) ;;
  let findings := deduplicateFindings (findings a) in
  let request := request ⟦ v_Candidates := candidates ⟧ in
  match auditDigest request findings with
  | Err err => ret (Err err)
  | Ok digest =>
      now ⟵ clock ;;
      ret (Ok (mkAudit (v_IntegrationID request) (v_ProjectID request) (v_BaseCommit request)
        (cloneCandidates (v_Candidates request)) findings [] digest (Nat.eqb (length findings) 0) (UTC now)))
  end.

Definition Audit (request : Request) : ST E (Prelude.result Integration.Audit error) :=
  verified ⟵! verify request ;;
  auditVerified verified.

(** ** Conflicts and their owner *)
(** The last of the finding's tasks that is a candidate. *)
Definition finding_owner (allowed : list string) (f : Finding) : option string :=
  List.find (fun task => containsString allowed task) (rev (f_Tasks f)).

Fixpoint first_owner (allowed : list string) (input : list Finding) : string :=
  match input with
  | [] => ""
  | f :: input => match finding_owner allowed f with Some owner => owner | None => first_owner allowed input end
  end.
Definition conflictOwner (audit : Integration.Audit) (candidates : list Candidate) : string :=
  first_owner (map c_TaskID candidates) (au_Findings audit).

Definition mergeFailureAudit (request : VerifiedRequest) : ST E (Prelude.result Integration.Audit error) :=
  let finding := blocking "merge-conflict" "MERGE" "repository merge could not create an integration commit"
                   (candidateTaskIDs (v_Candidates request)) in
  match auditDigest request [finding] with
  | Err err => ret (Err err)
  | Ok digest =>
      now ⟵ clock ;;
      ret (Ok (mkAudit (v_IntegrationID request) (v_ProjectID request) (v_BaseCommit request)
        (cloneCandidates (v_Candidates request)) [finding] [] digest false (UTC now)))
  end.

(** ** The checks *)
Definition validatedCheckTasks (provided candidates : list string) : list string :=
  let validated := List.filter (containsString candidates) provided in
  uniqueStrings (match validated with [] => candidates | _ => validated end).

(** The first loop of [normalizeCheckResults]: the first valid check of each
    kind, and whether any was malformed. *)
Fixpoint checks_by_kind (byKind : gmap string CheckResult) (malformed : bool) (raw : list CheckResult)
    : gmap string CheckResult * bool :=
  match raw with
  | [] => (byKind, malformed)
  | check :: raw =>
      if negb (validCheckKind (k_Kind check)) then checks_by_kind byKind true raw else
      match byKind !! k_Kind check with
      | Some _ => checks_by_kind byKind true raw
      | None => checks_by_kind (<[k_Kind check := check]> byKind) malformed raw
      end
  end.

Definition with_digest (request : VerifiedRequest) (commit : string) (check : CheckResult)
    : Prelude.result CheckResult error :=
  digest <-! normalizedCheckDigest request commit check ;;
  Ok (check ⟦ k_EvidenceSHA256 := digest ⟧).

Definition check_owner (request : VerifiedRequest) (check : CheckResult) : string :=
  if (k_OwnerTaskID check ≟ "") || negb (containsString (k_Tasks check) (k_OwnerTaskID check)) then
    if v_OwnerTaskID request ≟ "" then hd "" (k_Tasks check) else v_OwnerTaskID request
  else k_OwnerTaskID check.

Definition check_times (now : time) (check : CheckResult) : CheckResult :=
  let started := if IsZero (k_StartedAt check) then now else k_StartedAt check in
  let completed :=
    if IsZero (k_CompletedAt check) || Before (k_CompletedAt check) started
    then if Before now started then started else now
    else k_CompletedAt check in
  check ⟦ k_StartedAt := started ⟧ ⟦ k_CompletedAt := completed ⟧.

(** One required kind: its check made well-formed, and whether it was not. *)
Definition normalize_kind (request : VerifiedRequest) (commit : string) (now : time) (tasks : list string)
    (byKind : gmap string CheckResult) (kind : CheckKind) : Prelude.result (CheckResult * bool) error :=
  let found := byKind !! kind in
  let check := default (mkCheckResult kind CheckError "" "required integration check did not return a result"
                          "" [] 0 0) found in
  let unknown := negb (knownStatus (k_Status check)) in
  let check := if unknown then check ⟦ k_Status := CheckError ⟧
                 ⟦ k_Summary := "integration check returned an invalid status" ⟧ else check in
  let check := check ⟦ k_Tasks := validatedCheckTasks (k_Tasks check) tasks ⟧ in
  let check := check ⟦ k_OwnerTaskID := check_owner request check ⟧ in
  let check := check_times now check in
  check <-! (if digestPattern (k_EvidenceSHA256 check) then Ok check else with_digest request commit check) ;;
  Ok (check, is_nil found || unknown).

Fixpoint normalize_kinds (request : VerifiedRequest) (commit : string) (now : time) (tasks : list string)
    (byKind : gmap string CheckResult) (kinds : list CheckKind)
    : Prelude.result (list CheckResult * bool) error :=
  match kinds with
  | [] => Ok ([], false)
  | kind :: kinds =>
      first <-! normalize_kind request commit now tasks byKind kind ;;
      rest <-! normalize_kinds request commit now tasks byKind kinds ;;
      Ok (fst first :: fst rest, snd first || snd rest)
  end.

(** The first INTEGRATION check marked as an error with [summary]. *)
Fixpoint fail_integration (request : VerifiedRequest) (commit summary : string) (checks : list CheckResult)
    : Prelude.result (list CheckResult) error :=
  match checks with
  | [] => Ok []
  | check :: checks =>
      if k_Kind check ≟ CheckIntegration then
        check <-! with_digest request commit (check ⟦ k_Status := CheckError ⟧ ⟦ k_Summary := summary ⟧) ;;
        Ok (check :: checks)
      else
        checks <-! fail_integration request commit summary checks ;;
        Ok (check :: checks)
  end.

Definition normalize_checks (request : VerifiedRequest) (commit : string) (now : time) (raw : list CheckResult)
    (runErr : option error) : Prelude.result (list CheckResult * bool) error :=
  let tasks := candidateTaskIDs (v_Candidates request) in
  let '(byKind, malformed) := checks_by_kind ∅ false (cloneChecks raw) in
  normal <-! normalize_kinds request commit now tasks byKind requiredCheckKinds ;;
  let malformed := malformed || snd normal || negb (is_nil runErr) in
  checks <-! match runErr with
             | Some err => fail_integration request commit (text err) (fst normal)
             | None => Ok (fst normal)
             end ;;
  checks <-! (if malformed && forallb (fun check => k_Status check ≟ CheckPassed) checks
              then fail_integration request commit "integration check suite returned malformed results" checks
              else Ok checks) ;;
  Ok (checks, negb malformed && validCheckResults checks true).

Definition normalizeCheckResults (request : VerifiedRequest) (commit : string) (raw : list CheckResult)
    (runErr : option error) : ST E (Prelude.result (list CheckResult * bool) error) :=
  now ⟵ clock ;;
  ret (normalize_checks request commit (UTC now) raw runErr).

(** The finding of one check that did not pass. *)
Definition failed_check_finding (request : VerifiedRequest) (tasks : list string) (check : CheckResult) : Finding :=
  let owner := if k_OwnerTaskID check ≟ "" then v_OwnerTaskID request else k_OwnerTaskID check in
  let findingTasks := match k_Tasks check with [] => tasks | _ => k_Tasks check end in
  let findingTasks := if (owner ≠? "") && negb (containsString findingTasks owner)
                      then findingTasks ++ [owner] else findingTasks in
  blocking ("integration-check-" +:+ ToLower (k_Kind check)) (k_Kind check) (k_Summary check)
    (uniqueStrings findingTasks).

Definition check_findings (request : VerifiedRequest) (checks : list CheckResult) (runErr : option error)
    : list Finding :=
  let tasks := candidateTaskIDs (v_Candidates request) in
  let findings := map (failed_check_finding request tasks)
                    (List.filter (fun check => k_Status check ≠? CheckPassed) checks) in
  let findings := match runErr with
                  | Some err => findings ++ [blocking "integration-check-runner" "CHECK_RUNNER" (text err) tasks]
                  | None => findings
                  end in
  match findings with
  | [] => [blocking "integration-checks-incomplete" "CHECKS" "required integration checks did not all pass" tasks]
  | _ => findings
  end.

Definition checkFailureAudit (request : VerifiedRequest) (checks : list CheckResult) (runErr : option error)
    : ST E (Prelude.result Integration.Audit error) :=
  if Nat.eqb (length checks) 0 && is_nil runErr then ret (Err ErrChecksFailed) else
  let findings := check_findings request checks runErr in
  match auditDigestWithChecks request findings checks with
  | Err err => ret (Err err)
  | Ok digest =>
      now ⟵ clock ;;
      ret (Ok (mkAudit (v_IntegrationID request) (v_ProjectID request) (v_BaseCommit request)
        (cloneCandidates (v_Candidates request)) findings (cloneChecks checks) digest false (UTC now)))
  end.

(** ** The merge, on the store and the collaborators *)
Definition world : Type := MemoryStore * E.

Definition outside {A} (m : ST E A) : ST world A := fun w => let '(e, a) := m (snd w) in ((fst w, e), a).
Definition stored {A} (f : MemoryStore -> MemoryStore * A) : ST world A :=
  fun w => let '(s, a) := f (fst w) in ((s, snd w), a).

Definition reverifyReservation (request : Request) (reservation : MergeResult)
    : ST E (Prelude.result VerifiedRequest error) :=
  verified ⟵! verify request ;;
  ret match requestDigest request verified with
      | Ok digest => if digest ≟ m_RequestDigest reservation then Ok verified else Err ErrNotAudited
      | Err _ => Err ErrNotAudited
      end.

Definition recordConflict (request : VerifiedRequest) (audit : Integration.Audit)
    : ST world (MergeResult * option error) :=
  let owner := if v_OwnerTaskID request ≟ "" then conflictOwner audit (v_Candidates request)
               else v_OwnerTaskID request in
  let conflict := mkMergeResult (v_TenantID request) (v_IntegrationID request) (v_ProjectID request) owner
                    (v_Attempt request) "" "" audit [] [] false false "" 0 in
  if owner ≟ "" then ret (conflict, Some ErrInvalidRequest) else
  answer ⟵ stored (RecordConflict conflict) ;;
  let '(kept, changed, err) := answer in
  match err with
  | Some err => ret (conflict, Some err)
  | None =>
      let kept := kept ⟦ m_Duplicate := negb changed ⟧ in
      read ⟵ stored (fun s => (s, GetTask (v_TenantID request) (v_IntegrationID request) s)) ;;
      let '(task, found) := read in
      if negb found then ret (kept, Some ErrAttemptState) else
      if t_State task ≟ TaskBlockedUserDecision then ret (kept, Some (Join ErrConflict ErrAttemptsExhausted))
      else ret (kept, Some ErrConflict)
  end.

(** [checked] tells whether the caller passed a verifier. *)
Definition completeRecovered (verified : VerifiedRequest) (reservation : MergeResult) (commit : string)
    (checked : bool) : ST world (MergeResult * option error) :=
  if negb (commitID commit) then ret (zeroMergeResult, Some ErrMergeConflict) else
  let result := reservation ⟦ m_Commit := commit ⟧ ⟦ m_Pending := false ⟧ in
  let complete (result : MergeResult) : ST world (MergeResult * option error) :=
    err ⟵ stored (Complete result) ;;
    ret match err with Some err => (zeroMergeResult, Some err) | None => (result, None) end in
  if negb checked then complete result else
  suite ⟵ outside (verifier_Verify (mkVerificationInput (v_TenantID verified) (v_ProjectID verified)
            (v_IntegrationID verified) commit (v_BaseCommit verified) (cloneCandidates (v_Candidates verified)))) ;;
  let '(rawChecks, runErr) := suite in
  normal ⟵ outside (normalizeCheckResults verified commit rawChecks runErr) ;;
  match normal with
  | Err err => ret (result, Some err)
  | Ok (checks, passed) =>
      if negb passed then
        failure ⟵ outside (checkFailureAudit verified checks runErr) ;;
        match failure with
        | Err err => ret (result, Some err)
        | Ok failure =>
            answer ⟵ recordConflict verified failure ;;
            let '(conflict, err) := answer in
            ret (conflict, Some (match err with Some err => Join ErrChecksFailed err | None => ErrChecksFailed end))
        end
      else complete (result ⟦ m_Checks := cloneChecks checks ⟧)
  end.

Definition mergeExecutionID (integrationID : string) (attempt : Z) : string :=
  if attempt =? 0 then integrationID else integrationID +:+ ":attempt:" +:+ pretty attempt.

(** The commit is in the executor's books: verify once more, then complete. *)
Definition recover (request : Request) (verified : VerifiedRequest) (reservation : MergeResult)
    (commit : string) (checked : bool) : ST world (MergeResult * option error) :=
  again ⟵ outside (reverifyReservation request reservation) ;;
  match again with
  | Err err => ret (reservation, Some err)
  | Ok _ => completeRecovered verified reservation commit checked
  end.

(** The rest of [merge] under a pending reservation that the executor has not
    merged yet. *)
Definition execute (request : Request) (reservation : MergeResult) (executionID : string) (checked : bool)
    : ST world (MergeResult * option error) :=
  again ⟵ outside (reverifyReservation request reservation) ;;
  match again with
  | Err err => ret (reservation, Some err)
  | Ok verified =>
      let commits := sort_strings (map c_SubmissionCommit (v_Candidates verified)) in
      merged ⟵ outside (executor_Merge (v_BaseCommit verified) commits executionID) ;;
      match merged with
      | Ok commit => recover request verified reservation commit checked
      | Err err =>
          recovered ⟵ outside (executor_Lookup executionID) ;;
          match recovered with
          | Err lookupErr => ret (reservation, Some (Join ErrMergePending (Join err lookupErr)))
          | Ok (Some commit) => recover request verified reservation commit checked
          | Ok None =>
              if negb (Is err ErrMergeConflict) then ret (reservation, Some (Join ErrMergePending err)) else
              failure ⟵ outside (mergeFailureAudit verified) ;;
              match failure with
              | Err err => ret (reservation, Some err)
              | Ok failure => recordConflict verified failure
              end
          end
      end
  end.

(** The reservation of a verified and audited request. *)
Definition reservation_of (verified : VerifiedRequest) (digest : string) (audit : Integration.Audit) : MergeResult :=
  mkMergeResult (v_TenantID verified) (v_IntegrationID verified) (v_ProjectID verified) (v_OwnerTaskID verified)
    (v_Attempt verified) "" digest audit (cloneCandidates (v_Candidates verified)) [] false true
    (v_LeaseID verified) (v_FencingToken verified).

(** [merge] from the call of [Reserve] on. *)
Definition reserved_merge (request : Request) (verified : VerifiedRequest) (reservation : MergeResult)
    (checked : bool) : ST world (MergeResult * option error) :=
  let executionID := mergeExecutionID (v_IntegrationID verified) (v_Attempt verified) in
  answer ⟵ stored (Reserve reservation) ;;
  let '(prior, owner, err) := answer in
  match err with
  | Some err => ret (zeroMergeResult, Some err)
  | None =>
      if negb owner && negb (m_Pending prior) then ret (prior ⟦ m_Duplicate := true ⟧, None) else
      if owner then execute request reservation executionID checked else
      let reservation := reservation ⟦ m_Duplicate := true ⟧ in
      recovered ⟵ outside (executor_Lookup executionID) ;;
      match recovered with
      | Err lookupErr => ret (zeroMergeResult, Some lookupErr)
      | Ok (Some commit) => recover request verified reservation commit checked
      | Ok None => execute request reservation executionID checked
      end
  end.

Definition merge (request : Request) (checked : bool) : ST world (MergeResult * option error) :=
  answer ⟵ outside (verify request) ;;
  match answer with
  | Err err => ret (zeroMergeResult, Some err)
  | Ok verified =>
      audited ⟵ outside (auditVerified verified) ;;
      match audited with
      | Err err => ret (zeroMergeResult, Some err)
      | Ok audit =>
          if negb (au_Passed audit) then recordConflict verified audit else
          match requestDigest request verified with
          | Err err => ret (zeroMergeResult, Some err)
          | Ok digest => reserved_merge request verified (reservation_of verified digest audit) checked
          end
      end
  end.

(** The queue's other operations hold the mutex around one store call, or
    only read. *)
Definition StartAttempt (request : StartAttemptRequest) : ST world (IntegrationTask * bool * option error) :=
  stored (Integration.StartAttempt request).
Definition Task (tenantID integrationID : string) : ST world (IntegrationTask * bool) :=
  stored (fun s => (s, GetTask tenantID integrationID s)).
Definition Result (tenantID integrationID : string) : ST world (MergeResult * bool) :=
  stored (fun s => (s, Get tenantID integrationID s)).

Definition Merge (request : Request) : ST world (MergeResult * option error) := merge request false.
Definition MergeWithChecks (request : Request) : ST world (MergeResult * option error) := merge request true.
End Queue.
End Queue.
