(* ===== verification/QueueAudit.v ===== *)
(** The ownership audit of the integration queue: what passes it, and that its
    outcome does not depend on the order in which Go visits a map. *)

From Stdlib Require Import Sorting.
From S2P Require Import Prelude GoLib Contracts EventStore Path Integration Queue.

Module QueueAudit.
Import Integration Queue.

(** ** The state monad *)
Lemma bind_run {S A B} (m : ST S A) (k : A -> ST S B) s :
  bind m k s = k (snd (m s)) (fst (m s)).
Proof. unfold bind. by destruct (m s). Qed.

Lemma loop_app {S A X} (f : X -> A -> ST S A) l1 l2 a s :
  loop f (l1 ++ l2) a s = bind (loop f l1 a) (loop f l2) s.
Proof.
  revert a s. induction l1 as [|x l1 IH]; intros a s; cbn; [done|].
  rewrite !bind_run. rewrite (IH (snd (f x a s)) (fst (f x a s))). by rewrite !bind_run.
Qed.

(** What every round keeps, the loop keeps. *)
Lemma loop_ind {S A X} (f : X -> A -> ST S A) (P : list X -> A -> Prop) l a s :
  P [] a -> (forall done x a s, P done a -> P (done ++ [x]) (snd (f x a s))) ->
  P l (snd (loop f l a s)).
Proof.
  intros H0 Hstep. induction l as [|x l IH] using rev_ind; [done|].
  rewrite loop_app, bind_run. cbn. rewrite bind_run. cbn. by apply Hstep.
Qed.

(** ** The audit as one loop over its items *)
Inductive item : Type :=
| Evidence (c : Candidate)
| Owned (c : Candidate) (raw : string)
| Interface (c : Candidate) (publicInterface : string).

Definition items_of (c : Candidate) : list item :=
  Evidence c :: map (Owned c) (c_OwnedPaths c) ++ map (Interface c) (c_PublicInterfaces c).

Section Audit.
Context (enc : Encoding) `{Collaborators E}.

Definition visit (x : item) (a : Auditing) : ST E Auditing :=
  match x with
  | Evidence c =>
      ret (if negb (c_AuditPassed c) || (c_EvidenceSHA256 c ≟ "")
           then mkAuditing (findings a ++ [evidence_finding c]) (paths a) (interfaces a) else a)
  | Owned c raw => audit_path c raw a
  | Interface c i => ret (audit_interface enc c a i)
  end.

Lemma visit_owned c l a e : loop visit (map (Owned c) l) a e = loop (audit_path c) l a e.
Proof. revert a e. induction l as [|x l IH]; intros a e; cbn; [done|]. rewrite !bind_run. apply IH. Qed.

Lemma visit_interfaces c l a e :
  loop visit (map (Interface c) l) a e = (e, fold_left (audit_interface enc c) l a).
Proof. revert a e. induction l as [|x l IH]; intros a e; cbn; [done|]. apply IH. Qed.

Lemma audit_candidate_items c a e : audit_candidate enc c a e = loop visit (items_of c) a e.
Proof.
  unfold audit_candidate, items_of. cbn [loop visit]. rewrite (bind_run (ret _)). cbn [ret fst snd].
  rewrite loop_app, !bind_run, visit_owned, visit_interfaces. reflexivity.
Qed.

Lemma audit_items cs a e : loop (audit_candidate enc) cs a e = loop visit (flat_map items_of cs) a e.
Proof.
  revert a e. induction cs as [|c cs IH]; intros a e; cbn [loop flat_map]; [done|].
  rewrite loop_app, !bind_run, audit_candidate_items. apply IH.
Qed.

(** ** When nothing is found *)
Definition interface_key (i : string) : string := strings_ToLower enc (TrimSpace i).

(** An item that is in order by itself. *)
Definition sound (x : item) : Prop :=
  match x with
  | Evidence c => c_AuditPassed c = true /\ c_EvidenceSHA256 c <> ""
  | Owned _ raw => is_Some (cleanPath raw)
  | Interface _ _ => True
  end.

(** Two items that can stand beside each other. *)
Definition compatible (x y : item) : Prop :=
  match x, y with
  | Owned c p, Owned d q =>
      c_TaskID c <> c_TaskID d -> forall p' q', cleanPath p = Some p' -> cleanPath q = Some q' ->
      containsPath p' q' = false /\ containsPath q' p' = false
  | Interface c i, Interface d j =>
      c_TaskID c <> c_TaskID d -> interface_key i <> "" -> interface_key i <> interface_key j
  | _, _ => True
  end.

Definition clear (l : list item) : Prop :=
  (forall x, x ∈ l -> sound x) /\ (forall x y, x ∈ l -> y ∈ l -> compatible x y).

Lemma compatible_sym x y : compatible x y -> compatible y x.
Proof.
  destruct x, y; cbn; try done.
  - intros Hc Hne p' q' Hp Hq. destruct (Hc (not_eq_sym Hne) q' p' Hq Hp). auto.
  - intros Hc Hne Hj Heq. apply (Hc (not_eq_sym Hne)); congruence.
Qed.

Lemma compatible_self x : compatible x x.
Proof. by destruct x; cbn. Qed.

Lemma clear_nil : clear [].
Proof. split; [intros x H0|intros x y H0]; by apply not_elem_of_nil in H0. Qed.

Lemma clear_snoc l x : clear (l ++ [x]) <-> clear l /\ sound x /\ (forall y, y ∈ l -> compatible y x).
Proof.
  unfold clear. setoid_rewrite elem_of_app. setoid_rewrite list_elem_of_singleton.
  split; [naive_solver|]. intros ([Hs Hc] & Hx & Hy). split; [naive_solver|].
  intros y z [Hyl | ->] [Hzl | ->]; auto using compatible_self, compatible_sym.
Qed.

(** The maps of an audit that has found nothing. *)
Definition paths_of (l : list item) (m : gmap string string) : Prop :=
  forall p t, m !! p = Some t <-> exists c raw, Owned c raw ∈ l /\ cleanPath raw = Some p /\ t = c_TaskID c.
Definition interfaces_of (l : list item) (m : gmap string string) : Prop :=
  forall k t, m !! k = Some t <->
    k <> "" /\ exists c i, Interface c i ∈ l /\ interface_key i = k /\ t = c_TaskID c.

Definition audited (l : list item) (a : Auditing) : Prop :=
  (findings a = [] <-> clear l) /\ (clear l -> paths_of l (paths a) /\ interfaces_of l (interfaces a)).

(** Growing a list by an item that says nothing about the map keeps it. *)
Lemma paths_of_other l x m : (forall c raw, x <> Owned c raw) -> paths_of l m -> paths_of (l ++ [x]) m.
Proof. intros Hx Hm p t. rewrite (Hm p t). setoid_rewrite elem_of_app. setoid_rewrite list_elem_of_singleton. naive_solver. Qed.

Lemma interfaces_of_other l x m :
  (forall c i, x = Interface c i -> interface_key i = "") -> interfaces_of l m -> interfaces_of (l ++ [x]) m.
Proof.
  intros Hx Hm k t. rewrite (Hm k t). setoid_rewrite elem_of_app. setoid_rewrite list_elem_of_singleton.
  split; [naive_solver|]. intros (Hk & c & i & [Hin | <-] & <- & ->); [naive_solver|].
  by rewrite (Hx c i eq_refl) in Hk.
Qed.

Lemma app_nil_iff {A} (l k : list A) : l ++ k = [] <-> l = [] /\ k = [].
Proof. split; [apply app_eq_nil|by intros [-> ->]]. Qed.

Lemma containsPath_refl p : containsPath p p = true.
Proof. unfold containsPath. by rewrite bool_decide_eq_true_2. Qed.

Lemma filter_nil_iff {A} (f : A -> bool) l : List.filter f l = [] <-> forall x, x ∈ l -> f x = false.
Proof.
  induction l as [|y l IH]; cbn; [split; [intros _ x H0; by apply not_elem_of_nil in H0|done]|].
  setoid_rewrite elem_of_cons. destruct (f y) eqn:Hy; [split; [done|]|].
  - intros Hall. rewrite (Hall y) in Hy by auto. done.
  - rewrite IH. naive_solver.
Qed.

#[local] Instance filter_Permutation {A} (f : A -> bool) : Proper (Permutation ==> Permutation) (List.filter f).
Proof.
  induction 1 as [|x l k Hp IH|x y l|l k j _ IH1 _ IH2]; cbn; [done| | |by rewrite IH1].
  - destruct (f x); [by rewrite IH|done].
  - destruct (f x), (f y); try done. constructor.
Qed.

Lemma map_nil_iff {A B} (f : A -> B) l : map f l = [] <-> l = [].
Proof. split; [apply map_eq_nil|by intros ->]. Qed.

(** The path [p'] of [c] overlaps nothing recorded exactly when it is
    compatible with what came before. *)
Lemma no_overlaps l m c raw p' order :
  order ≡ₚ map_to_list m -> paths_of l m -> cleanPath raw = Some p' ->
  List.filter (overlaps c p') order = [] <-> forall y, y ∈ l -> compatible y (Owned c raw).
Proof.
  intros Horder Hm Hp. rewrite filter_nil_iff. setoid_rewrite Horder. split.
  - intros Hno y Hy. destruct y as [|d q|]; cbn; try done. intros Hne q' r' Hq [= ->]%(eq_trans (eq_sym Hp)).
    specialize (Hno (q', c_TaskID d)). unfold overlaps in Hno. cbn in Hno.
    rewrite elem_of_map_to_list in Hno. rewrite bool_decide_eq_false_2 in Hno by done. cbn in Hno.
    apply orb_false_iff, Hno. apply Hm. eauto.
  - intros Hall [q' t] Hin%elem_of_map_to_list. apply Hm in Hin as (d & q & Hin & Hq & ->).
    unfold overlaps. cbn. case_bool_decide as Heq; [done|]. cbn.
    destruct (Hall _ Hin Heq q' p' Hq Hp) as [-> ->]. done.
Qed.

Lemma paths_of_insert l m c raw p' :
  cleanPath raw = Some p' -> (forall y, y ∈ l -> compatible y (Owned c raw)) -> paths_of l m ->
  paths_of (l ++ [Owned c raw]) (<[p' := c_TaskID c]> m).
Proof.
  intros Hp Hc Hm p t. setoid_rewrite elem_of_app. setoid_rewrite list_elem_of_singleton.
  rewrite lookup_insert_Some, (Hm p t). split.
  - intros [[<- <-]|[Hne (d & q & Hin & Hq & ->)]]; eauto 10.
  - intros (d & q & [Hin | [= -> ->]] & Hq & ->).
    + destruct (decide (p' = p)) as [->|Hne]; [left|right; eauto 10]. split; [done|].
      destruct (decide (c_TaskID d = c_TaskID c)) as [|Hne]; [done|].
      destruct (Hc _ Hin Hne p p Hq Hp) as [Ho _]. by rewrite containsPath_refl in Ho.
    + left. rewrite Hp in Hq. by injection Hq as <-.
Qed.

Lemma interfaces_of_insert l m c i :
  interface_key i <> "" -> (forall y, y ∈ l -> compatible y (Interface c i)) -> interfaces_of l m ->
  interfaces_of (l ++ [Interface c i]) (<[interface_key i := c_TaskID c]> m).
Proof.
  intros Hi Hc Hm k t. setoid_rewrite elem_of_app. setoid_rewrite list_elem_of_singleton.
  rewrite lookup_insert_Some, (Hm k t). split.
  - intros [[<- <-]|[Hne (Hk & d & j & Hin & Hq & ->)]]; eauto 10.
  - intros (Hk & d & j & [Hin | [= -> ->]] & Hq & ->); [|auto].
    destruct (decide (interface_key i = k)) as [Heq|Hne]; [left|right; eauto 10]. split; [done|].
    destruct (decide (c_TaskID d = c_TaskID c)) as [|Hne]; [done|].
    destruct (Hc _ Hin Hne); congruence.
Qed.

(** An interface clashes with what came before exactly when the map says so. *)
Lemma no_clash l m c i :
  interface_key i <> "" -> interfaces_of l m ->
  (forall prior, m !! interface_key i = Some prior -> prior = c_TaskID c)
  <-> forall y, y ∈ l -> compatible y (Interface c i).
Proof.
  intros Hi Hm. split.
  - intros Hno y Hy. destruct y as [| |d j]; cbn; try done. intros Hne Hj Heq. apply Hne, Hno.
    apply Hm. split; [done|]. eauto.
  - intros Hall prior (_ & d & j & Hin & Hj & ->)%Hm. apply dec_stable. intros Hne.
    apply (Hall _ Hin Hne); congruence.
Qed.

Lemma audited_evidence l a c e : audited l a -> audited (l ++ [Evidence c]) (snd (visit (Evidence c) a e)).
Proof.
  intros [Hf Hm]. unfold audited. rewrite clear_snoc. cbn [visit ret snd sound].
  split; [|intros [Hl _]; destruct (Hm Hl); split; [apply paths_of_other|apply interfaces_of_other]; try done;
    by destruct (_ || _)].
  assert (Hc : forall y, y ∈ l -> compatible y (Evidence c)) by (intros [] _; done).
  destruct (negb (c_AuditPassed c) || (c_EvidenceSHA256 c ≟ "")) eqn:Hbad; cbn [findings].
  - rewrite app_nil_iff. apply orb_true_iff in Hbad as [Hbad|Hbad]; go_bool; split; try (by intros [_ [=]]); naive_solver congruence.
  - go_bool. rewrite Hf. tauto.
Qed.

Lemma audited_owned `{!RangeLaw E} l a c raw e :
  audited l a -> audited (l ++ [Owned c raw]) (snd (visit (Owned c raw) a e)).
Proof.
  intros [Hf Hm]. unfold audited. rewrite clear_snoc. cbn [visit sound]. unfold audit_path.
  destruct (cleanPath raw) as [p'|] eqn:Hp; cbn [ret snd findings].
  - rewrite bind_run. cbn [ret snd findings paths interfaces].
    set (order := snd (range (paths a) e)).
    assert (Hno : clear l -> List.filter (overlaps c p') order = [] <-> forall y, y ∈ l -> compatible y (Owned c raw)).
    { intros Hl. apply (no_overlaps l (paths a)); [apply range_visits|by apply Hm|done]. }
    split.
    + rewrite app_nil_iff, map_nil_iff, Hf. naive_solver.
    + intros (Hl & _ & Hc). destruct (Hm Hl). split; [by apply paths_of_insert|by apply interfaces_of_other].
  - split; [|intros (_ & [? [=]] & _)]. rewrite app_nil_iff. split; [by intros [_ [=]]|].
    by intros (_ & [? [=]] & _).
Qed.

Lemma audited_interface l a c i e :
  audited l a -> audited (l ++ [Interface c i]) (snd (visit (Interface c i) a e)).
Proof.
  intros [Hf Hm]. unfold audited. rewrite clear_snoc. cbn [visit sound ret snd]. unfold audit_interface.
  change (strings_ToLower enc (TrimSpace i)) with (interface_key i).
  case_bool_decide as Hi.
  { assert (Hc : forall y, y ∈ l -> compatible y (Interface c i)).
    { intros [| |d j] _; cbn; try done. intros _ Hj. congruence. }
    split; [rewrite Hf; tauto|]. intros [Hl _]. destruct (Hm Hl).
    split; [by apply paths_of_other|]. apply interfaces_of_other; [|done]. by intros ?? [= _ <-]. }
  cbn [findings paths interfaces]. split.
  - pose proof (fun Hl => no_clash l (interfaces a) c i Hi (proj2 (Hm Hl))) as Hno.
    destruct (interfaces a !! interface_key i) as [prior|]; [case_bool_decide as Heq; cbn [negb]|].
    + rewrite Hf. split; [|tauto]. intros Hl. split; [done|]. split; [done|]. apply Hno; [done|]. by intros ? [= <-].
    + rewrite app_nil_iff. split; [by intros [_ [=]]|]. intros (Hl & _ & Hc). destruct Heq.
      by apply (proj2 (Hno Hl) Hc).
    + rewrite Hf. split; [|tauto]. intros Hl. split; [done|]. split; [done|]. by apply Hno.
  - intros (Hl & _ & Hc). destruct (Hm Hl). split; [by apply paths_of_other|by apply interfaces_of_insert].
Qed.

Lemma audited_loop `{!RangeLaw E} l e : audited l (snd (loop visit l (mkAuditing [] ∅ ∅) e)).
Proof.
  apply (loop_ind visit audited).
  - split; [split; [intros _; apply clear_nil|done]|]. intros _. split; intros p t; cbn; rewrite lookup_empty.
    + split; [done|]. intros (c & raw & H0 & _). by apply not_elem_of_nil in H0.
    + split; [done|]. intros (_ & c & i & H0 & _). by apply not_elem_of_nil in H0.
  - intros done x a s Ha. destruct x; [by apply audited_evidence|by apply audited_owned|by apply audited_interface].
Qed.

(** ** The order of the findings *)
Definition found (id : string) (l : list Finding) : option Finding := List.find (fun f => f_ID f ≟ id) l.

(** Two lists of findings that deduplicate to the same. *)
Definition same_findings (l1 l2 : list Finding) : Prop := forall id, found id l1 = found id l2.

Lemma found_app id l1 l2 : found id (l1 ++ l2) = match found id l1 with Some f => Some f | None => found id l2 end.
Proof. unfold found. induction l1 as [|f l1 IH]; cbn; [done|]. by destruct (f_ID f ≟ id). Qed.

Lemma found_some id l f : found id l = Some f -> f ∈ l /\ f_ID f = id.
Proof. intros [Hf Hid]%List.find_some. split; [by apply list_elem_of_In|]. by go_bool. Qed.

Lemma found_in id l f : f ∈ l -> f_ID f = id -> is_Some (found id l).
Proof.
  intros Hf%list_elem_of_In Hid. destruct (found id l) eqn:Hn; [done|].
  apply (List.find_none _ _ Hn) in Hf. by go_bool.
Qed.

Lemma same_findings_app l1 l2 k1 k2 :
  same_findings l1 l2 -> same_findings k1 k2 -> same_findings (l1 ++ k1) (l2 ++ k2).
Proof. intros Hl Hk id. by rewrite !found_app, Hl, Hk. Qed.

Lemma same_findings_perm l1 l2 :
  l1 ≡ₚ l2 -> (forall f g, f ∈ l1 -> g ∈ l1 -> f_ID f = f_ID g -> f = g) -> same_findings l1 l2.
Proof.
  intros Hp Hu id. destruct (found id l1) as [f|] eqn:H1, (found id l2) as [g|] eqn:H2; try done.
  - apply found_some in H1 as [Hf <-], H2 as [Hg Hid]. rewrite <- Hp in Hg. f_equal. auto.
  - apply found_some in H1 as [Hf Hid]. rewrite Hp in Hf. destruct (found_in id l2 f) as [? Hs]; congruence.
  - apply found_some in H2 as [Hf Hid]. rewrite <- Hp in Hf. destruct (found_in id l1 g) as [? Hs]; congruence.
Qed.

Lemma elem_of_first_findings seen l f :
  f ∈ first_findings seen l <-> f_ID f ∉ seen /\ found (f_ID f) l = Some f.
Proof.
  revert seen. induction l as [|g l IH]; intros seen; cbn; [rewrite elem_of_nil; naive_solver|].
  unfold found. cbn. change (List.find _ l) with (found (f_ID f) l).
  case_bool_decide as Hg.
  - rewrite IH. case_bool_decide as Heq; [rewrite Heq in Hg; naive_solver|done].
  - rewrite elem_of_cons, IH. case_bool_decide as Heq; set_solver.
Qed.

Lemma first_findings_NoDup seen l : NoDup (first_findings seen l).
Proof.
  revert seen. induction l as [|g l IH]; intros seen; cbn; [constructor|].
  case_bool_decide; [apply IH|]. constructor; [|apply IH].
  rewrite elem_of_first_findings. set_solver.
Qed.

Lemma finding_order_total f g :
  not_after (fun left right => String.ltb (f_ID left) (f_ID right)) f g ->
  not_after (fun left right => String.ltb (f_ID left) (f_ID right)) g f -> f_ID f = f_ID g.
Proof. unfold not_after. intros H1 H2. destruct (string_ltb_total (f_ID f) (f_ID g)) as [?|[?|?]]; congruence. Qed.

Lemma deduplicate_same l1 l2 : same_findings l1 l2 -> deduplicateFindings l1 = deduplicateFindings l2.
Proof.
  intros Hs. unfold deduplicateFindings. set (less := fun left right => _).
  assert (Hp : first_findings ∅ l1 ≡ₚ first_findings ∅ l2).
  { apply NoDup_Permutation; try apply first_findings_NoDup. intros f.
    by rewrite !elem_of_first_findings, (Hs (f_ID f)). }
  apply (StronglySorted_unique_strong (not_after less)).
  - intros f g. rewrite !sort_slice_Permutation, <- Hp, !elem_of_first_findings.
    intros [_ Hf] [_ Hg] H1 H2. pose proof (finding_order_total _ _ H1 H2) as Heq. congruence.
  - apply sort_slice_StronglySorted; [intros x y; apply string_ltb_asym|].
    intros x y z. apply string_ltb_negtrans.
  - apply sort_slice_StronglySorted; [intros x y; apply string_ltb_asym|].
    intros x y z. apply string_ltb_negtrans.
  - by rewrite !sort_slice_Permutation.
Qed.

(** Two audits at the same point: the same maps, and the same findings. *)
Definition agree (a b : Auditing) : Prop :=
  same_findings (findings a) (findings b) /\ paths a = paths b /\ interfaces a = interfaces b.

Lemma agree_add a b k1 k2 p i :
  agree a b -> same_findings k1 k2 -> agree (mkAuditing (findings a ++ k1) p i) (mkAuditing (findings b ++ k2) p i).
Proof. intros (Hf & _ & _) Hk. split; [by apply same_findings_app|done]. Qed.

Lemma overlap_finding_inj t u c : f_ID (overlap_finding t c) = f_ID (overlap_finding u c) -> overlap_finding t c = overlap_finding u c.
Proof.
  cbn. intros Hid. apply (f_equal bytes) in Hid. rewrite !bytes_concat in Hid.
  apply app_inv_head in Hid. rewrite !app_assoc in Hid. do 2 apply app_inv_tail in Hid.
  by apply bytes_inj in Hid as ->.
Qed.

Lemma visit_agree `{!RangeLaw E} x a b e1 e2 :
  agree a b -> agree (snd (visit x a e1)) (snd (visit x b e2)).
Proof.
  intros Hab. pose proof Hab as (Hf & Hp & Hi). destruct x as [c|c raw|c i]; cbn [visit].
  - cbn [ret snd]. destruct (_ || _); [|done]. rewrite Hp, Hi. by apply agree_add.
  - unfold audit_path. destruct (cleanPath raw) as [p'|].
    + rewrite !bind_run. cbn [ret snd]. rewrite <- Hp, <- Hi. apply agree_add; [done|].
      set (o1 := snd _). set (o2 := snd _).
      assert (Ho : o1 ≡ₚ o2) by (subst o1 o2; by rewrite !range_visits).
      apply same_findings_perm; [apply Permutation_map; by rewrite Ho|].
      intros f g Hfin Hgin. apply list_elem_of_In, in_map_iff in Hfin as (u & <- & _), Hgin as (v & <- & _).
      apply overlap_finding_inj.
    + cbn [ret snd]. rewrite Hp, Hi. by apply agree_add.
  - cbn [ret snd]. unfold audit_interface. case_bool_decide; [done|]. rewrite Hi.
    repeat split; [|by rewrite Hp]. cbn [findings]. destruct (interfaces b !! _); [|done].
    destruct (_ ≠? _); [|done]. by apply same_findings_app.
Qed.

Lemma loop_agree `{!RangeLaw E} l a b e1 e2 :
  agree a b -> agree (snd (loop visit l a e1)) (snd (loop visit l b e2)).
Proof.
  revert a b e1 e2. induction l as [|x l IH]; intros a b e1 e2 Hab; cbn [loop]; [done|].
  rewrite !bind_run. apply IH, visit_agree, Hab.
Qed.

(** ** The properties *)

(** Candidates whose modules can be integrated together: each with passing
    evidence and clean paths, and no two tasks owning overlapping paths or the
    same public interface. *)
Definition separated (cs : list Candidate) : Prop :=
  (forall c, c ∈ cs -> c_AuditPassed c = true /\ c_EvidenceSHA256 c <> ""
     /\ forall p, p ∈ c_OwnedPaths c -> is_Some (cleanPath p))
  /\ (forall c d, c ∈ cs -> d ∈ cs -> c_TaskID c <> c_TaskID d ->
     (forall p q, p ∈ c_OwnedPaths c -> q ∈ c_OwnedPaths d -> containsPath p q = false)
     /\ (forall i j, i ∈ c_PublicInterfaces c -> j ∈ c_PublicInterfaces d ->
         interface_key i <> "" -> interface_key i <> interface_key j)).

Lemma cleanPath_id p q : cleanPath p = Some q -> q = p.
Proof. unfold cleanPath. cbv zeta. destruct (_ || _) eqn:Hb; [done|]. intros [= <-]. by go_bool. Qed.

Lemma items_elem cs x :
  x ∈ flat_map items_of cs <-> exists c, c ∈ cs /\
    (x = Evidence c \/ (exists p, p ∈ c_OwnedPaths c /\ x = Owned c p)
     \/ exists i, i ∈ c_PublicInterfaces c /\ x = Interface c i).
Proof.
  rewrite list_elem_of_In, in_flat_map. setoid_rewrite <- list_elem_of_In.
  unfold items_of. setoid_rewrite elem_of_cons. setoid_rewrite elem_of_app.
  setoid_rewrite (list_elem_of_fmap (Owned _) : forall l y, y ∈ map _ l <-> _).
  setoid_rewrite (list_elem_of_fmap (Interface _) : forall l y, y ∈ map _ l <-> _).
  naive_solver.
Qed.

Lemma clear_separated cs : clear (flat_map items_of cs) <-> separated cs.
Proof.
  unfold clear, separated. setoid_rewrite items_elem. split.
  - intros [Hs Hc]. split.
    + intros c Hc1. destruct (Hs (Evidence c)) as [H1 H2]; [by eauto|]. split; [done|]. split; [done|].
      intros p Hp. apply (Hs (Owned c p)). eauto 10.
    + intros c d Hc1 Hd1 Hne. split.
      * intros p q Hp Hq. destruct (Hs (Owned c p)) as [p' Hp']; [by eauto 10|].
        destruct (Hs (Owned d q)) as [q' Hq']; [by eauto 10|].
        pose proof (cleanPath_id _ _ Hp') as ->. pose proof (cleanPath_id _ _ Hq') as ->.
        refine (proj1 (Hc (Owned c p) (Owned d q) _ _ Hne p q Hp' Hq')); eauto 10.
      * intros i j Hi Hj. refine (Hc (Interface c i) (Interface d j) _ _ Hne); eauto 10.
  - intros [Hs Hc]. split.
    + intros x (c & Hin & [->|[(p & Hp & ->)|(i & Hi & ->)]]); cbn; [|by apply (Hs c)|done].
      by destruct (Hs c Hin) as (? & ? & _).
    + intros x y (c & Hin & Hx) (d & Hind & Hy).
      destruct Hx as [->|[(p & Hp & ->)|(i & Hi & ->)]], Hy as [->|[(q & Hq & ->)|(j & Hj & ->)]]; cbn; try done.
      * intros Hne p' q' ->%cleanPath_id ->%cleanPath_id.
        split; [by apply (Hc c d)|by apply (Hc d c Hind Hin (not_eq_sym Hne))].
      * intros Hne. by apply (Hc c d).
Qed.

Lemma separated_perm cs ds : cs ≡ₚ ds -> separated cs -> separated ds.
Proof. intros Hp [Hs Hc]. split; [intros c; rewrite <- Hp; apply Hs|]. intros c d. rewrite <- !Hp. apply Hc. Qed.

(** The candidates in the order the audit visits them. *)
Definition audit_order (request : VerifiedRequest) : list Candidate :=
  sort_slice (fun left right => String.ltb (c_TaskID left) (c_TaskID right)) (cloneCandidates (v_Candidates request)).

Lemma cloneCandidates_id cs : cloneCandidates cs = cs.
Proof. unfold cloneCandidates. rewrite copy_slice_id. induction cs as [|[] cs IH]; cbn; [done|]. by rewrite IH. Qed.

Lemma audit_order_perm request : audit_order request ≡ₚ v_Candidates request.
Proof. unfold audit_order. rewrite cloneCandidates_id. apply sort_slice_Permutation. Qed.

Definition audit_trail (request : VerifiedRequest) (e : E) : Auditing :=
  snd (loop visit (flat_map items_of (audit_order request)) (mkAuditing [] ∅ ∅) e).

(** What [auditVerified] answers. *)
Lemma auditVerified_ok request e e' a :
  auditVerified enc request e = (e', Ok a) ->
  exists digest now,
    let findings := deduplicateFindings (findings (audit_trail request e)) in
    auditDigest enc (request ⟦ v_Candidates := audit_order request ⟧) findings = Ok digest
    /\ a = mkAudit (v_IntegrationID request) (v_ProjectID request) (v_BaseCommit request) (audit_order request)
             findings [] digest (Nat.eqb (length findings) 0) now.
Proof.
  unfold auditVerified. rewrite bind_run, audit_items. fold (audit_order request).
  fold (audit_trail request e). destruct (auditDigest _ _ _) as [digest|] eqn:Hd; [|done].
  rewrite bind_run. intros [= _ <-]. exists digest. eexists. split; [done|].
  f_equal. apply cloneCandidates_id.
Qed.

Lemma deduplicate_nil l : Nat.eqb (length (deduplicateFindings l)) 0 = true <-> l = [].
Proof.
  rewrite Nat.eqb_eq. unfold deduplicateFindings.
  rewrite (Permutation_length (sort_slice_Permutation _ _)).
  destruct l as [|f l]; [done|]. cbn. rewrite bool_decide_eq_false_2 by set_solver. done.
Qed.

Lemma passed_iff `{!RangeLaw E} request e e' a :
  auditVerified enc request e = (e', Ok a) -> au_Passed a = true <-> separated (v_Candidates request).
Proof.
  intros (digest & now & _ & ->)%auditVerified_ok. cbn [au_Passed].
  rewrite deduplicate_nil. unfold audit_trail. rewrite (proj1 (audited_loop _ e)), clear_separated.
  split; apply separated_perm; by rewrite audit_order_perm.
Qed.

(** A passed audit is about candidates that can stand together. *)
Lemma passed_separated `{!RangeLaw E} request e e' a :
  auditVerified enc request e = (e', Ok a) -> au_Passed a = true -> separated (au_Candidates a).
Proof.
  intros Ha Hp. pose proof (proj1 (passed_iff _ _ _ _ Ha) Hp) as Hs.
  apply auditVerified_ok in Ha as (digest & now & _ & ->). cbn.
  eapply separated_perm, Hs. symmetry. apply audit_order_perm.
Qed.

(** The audit of a request does not depend on the world but for its time. *)
Lemma audit_again `{!RangeLaw E} request e1 e1' a e2 :
  auditVerified enc request e1 = (e1', Ok a) ->
  exists e2' now, auditVerified enc request e2 = (e2', Ok (a ⟦ au_CreatedAt := now ⟧)).
Proof.
  intros (digest & now & Hd & ->)%auditVerified_ok.
  assert (Hs : same_findings (findings (audit_trail request e1)) (findings (audit_trail request e2)))
    by (refine (proj1 (loop_agree _ _ _ e1 e2 _)); repeat split).
  rewrite (deduplicate_same _ _ Hs) in Hd |- *.
  unfold auditVerified. rewrite bind_run, audit_items. fold (audit_order request).
  fold (audit_trail request e2). rewrite Hd. rewrite bind_run. rewrite cloneCandidates_id. do 2 eexists. reflexivity.
Qed.
End Audit.

(** The ownership audit accepts exactly the sets of candidates that can be
    integrated together: it passes if and only if every candidate has passing
    evidence and clean relative paths, no path of one task contains a path of
    another, and no two tasks publish the same interface name. *)
Theorem audit_passed_exact enc `{RangeLaw E} request e e' a :
  auditVerified enc request e = (e', Ok a) ->
  au_Passed a = true <-> separated enc (v_Candidates request).
Proof.
  apply (passed_iff enc).
Qed.

(** The audit is deterministic although it ranges over a map, whose order
    Go does not fix: two audits of one verified request have the same findings
    and the same evidence digest, and differ in their time only.  A retried
    merge therefore meets its own reservation. *)
Theorem audit_deterministic enc `{RangeLaw E} request e1 e1' a1 e2 e2' a2 :
  auditVerified enc request e1 = (e1', Ok a1) -> auditVerified enc request e2 = (e2', Ok a2) ->
  a2 = a1 ⟦ au_CreatedAt := au_CreatedAt a2 ⟧.
Proof.
  intros H1 H2. destruct (audit_again enc _ _ _ _ e2 H1) as (e & now & Ha).
  rewrite Ha in H2. by injection H2 as _ <-.
Qed.
End QueueAudit.
