(* ===== verification/QueueProps.v ===== *)
(** What a merge leaves in the store: its outcomes, the books of the queue, and
    the meaning of success, failure and retry. *)

From S2P Require Import Prelude GoLib Runs Contracts EventStore Integration IntegrationProps Queue QueueAudit.

Module QueueProps.
Import Integration IntegrationProps Queue QueueAudit.

(** ** Where a computation on the store ends *)
Section Ends.
Context {E : Type}.

Definition ends {A} (m : ST (world (E := E)) A) (s : MemoryStore) (Q : A -> MemoryStore -> Prop) : Prop :=
  forall e, Q (snd (m (s, e))) (fst (fst (m (s, e)))).

Lemma ends_ret {A} (a : A) s (Q : A -> MemoryStore -> Prop) : Q a s -> ends (ret a) s Q.
Proof. by intros HQ e. Qed.

Lemma ends_outside {A B} (m : ST E A) (k : A -> ST world B) s Q :
  (forall e e' a, m e = (e', a) -> ends (k a) s Q) -> ends (bind (outside m) k) s Q.
Proof.
  intros Hk e. rewrite bind_run. unfold outside. cbn [snd fst].
  destruct (m e) as [e' a] eqn:Hm. cbn [snd fst]. by eapply Hk.
Qed.

Lemma ends_stored {A B} (f : MemoryStore -> MemoryStore * A) (k : A -> ST (world (E := E)) B) s Q :
  ends (k (snd (f s))) (fst (f s)) Q -> ends (bind (stored f) k) s Q.
Proof.
  intros Hk e. rewrite bind_run. unfold stored. cbn [snd fst].
  specialize (Hk e). destruct (f s) as [s' a]. exact Hk.
Qed.

Lemma ends_bind {A B} (m : ST world A) (k : A -> ST (world (E := E)) B) s (P : A -> MemoryStore -> Prop) Q :
  ends m s P -> (forall a s', P a s' -> ends (k a) s' Q) -> ends (bind m k) s Q.
Proof.
  intros Hm Hk e. rewrite bind_run. specialize (Hm e). specialize (Hk _ _ Hm (snd (fst (m (s, e))))).
  by rewrite <- surjective_pairing in Hk.
Qed.

Lemma ends_mono {A} (m : ST (world (E := E)) A) s (P Q : A -> MemoryStore -> Prop) :
  (forall a s', P a s' -> Q a s') -> ends m s P -> ends m s Q.
Proof. intros HPQ Hm e. apply HPQ, Hm. Qed.
End Ends.

(** ** Facts of the store operations *)
Lemma cloneChecks_id l : cloneChecks l = l.
Proof. unfold cloneChecks. rewrite <- (map_id l) at 2. apply map_ext. by intros []. Qed.

Lemma cloneAudit_id a : cloneAudit a = a.
Proof.
  unfold cloneAudit. rewrite cloneCandidates_id, cloneChecks_id, copy_slice_id.
  destruct a as [? ? ? ? fs ? ? ? ?]. cbn. f_equal.
  rewrite <- (map_id fs) at 2. apply map_ext. by intros [].
Qed.

Lemma merge_result_clone r : cloneResult r = r.
Proof. unfold cloneResult. cbn. rewrite cloneAudit_id, cloneCandidates_id, cloneChecks_id. by destruct r. Qed.

Lemma integration_task_clone t : cloneIntegrationTask t = t.
Proof. unfold cloneIntegrationTask. cbn. rewrite cloneAudit_id. by destruct t. Qed.

Definition key_of (r : MergeResult) : string := record_key (m_TenantID r) (m_IntegrationID r).

Lemma complete_error r s s' err : Complete r s = (s', Some err) -> s' = s.
Proof. unfold Complete. intros Hc. repeat case_match; congruence. Qed.

(** Completing a pending record makes it DONE with the given result. *)
Lemma complete_pending r s s' prior :
  Complete r s = (s', None) -> s !! key_of r = Some prior -> m_Pending (result prior) = true ->
  t_State (task prior) = TaskMergeReserved
  /\ s' = <[key_of r := mkRecord (r ⟦ m_Pending := false ⟧)
             ((task prior) ⟦ t_State := TaskDone ⟧ ⟦ t_Version := wrap64 (t_Version (task prior) + 1) ⟧)]> s.
Proof.
  intros Hc Hp Hpend. unfold Complete, key_of in *. rewrite Hp in Hc. rewrite merge_result_clone in Hc.
  destruct (_ || _) in Hc; [done|]. destruct (_ || _) in Hc; [done|]. rewrite Hpend in Hc. cbn [negb] in Hc.
  destruct (_ || _) eqn:Hg in Hc; [done|]. go_bool. by injection Hc as <-.
Qed.

(** What [Reserve] answers when it does not fail. *)
Lemma reserve_ok r s s' prior owner :
  Reserve r s = (s', (prior, owner, None)) ->
  exists rec, s' !! key_of r = Some rec /\ prior = result rec
    /\ (if owner then s' = <[key_of r := rec]> s /\ result rec = r ⟦ m_Pending := true ⟧
                      /\ t_State (task rec) = TaskMergeReserved
        else s' = s /\ m_RequestDigest (result rec) = m_RequestDigest r
             /\ au_EvidenceSHA256 (m_Audit (result rec)) = au_EvidenceSHA256 (m_Audit r)
             /\ (t_State (task rec) = TaskDone ->
                 m_LeaseID (result rec) = m_LeaseID r /\ m_FencingToken (result rec) = m_FencingToken r)).
Proof.
  unfold Reserve, key_of. rewrite merge_result_clone.
  destruct (s !! _) as [rec|] eqn:Hs.
  - destruct (_ && _) eqn:Hsame.
    + destruct (_ && _) eqn:Hlease in |- *; [done|]. intros [= <- <- <-]. exists rec. rewrite merge_result_clone.
      go_bool. repeat split; try done; apply andb_false_iff in Hlease as [Hlease|Hlease]; go_bool; congruence.
    + do 2 (destruct (_ : bool) in |- *; [done|]). intros [= <- <- <-]. eexists. rewrite lookup_insert_eq, merge_result_clone. done.
  - destruct (_ || _); [done|]. intros [= <- <- <-]. eexists. rewrite lookup_insert_eq, merge_result_clone. done.
Qed.

Section Merge.
Context (enc : Encoding) `{Collaborators E}.

(** ** What verification has established *)
Lemma verified_ok request e e' v :
  verify request e = (e', Ok v) ->
  validateRequest request = true /\ validateVerifiedRequest v = true
  /\ requestMatchesVerified request v = true /\ exists e1, gate_Validate (cloneRequest request) e1 = (e', Ok v).
Proof.
  unfold verify. destruct (validateRequest request) eqn:Hv; cbn [negb]; [|done].
  rewrite bind_run. destruct (After _ _); [done|]. rewrite bind_run.
  destruct (gate_Validate _ _) as [e2 answer] eqn:Hg. cbn [fst snd ret].
  destruct answer as [w|]; [|done]. destruct (_ || _) eqn:Hm; [done|].
  unfold cloneVerifiedRequest. cbn. rewrite cloneCandidates_id.
  replace (mkVerifiedRequest _ _ _ _ _ _ _ _ _ _ _ _ _) with w by (by destruct w).
  intros [= -> ->]. go_bool. eauto 6.
Qed.

Lemma matches_key request v :
  requestMatchesVerified request v = true ->
  v_TenantID v = q_TenantID request /\ v_IntegrationID v = q_IntegrationID request.
Proof. unfold requestMatchesVerified. intros Hm. go_bool. done. Qed.

Definition request_key (request : Request) : string := record_key (q_TenantID request) (q_IntegrationID request).

Lemma verify_key request e e' v :
  verify request e = (e', Ok v) -> record_key (v_TenantID v) (v_IntegrationID v) = request_key request.
Proof. intros (_ & _ & Hm & _)%verified_ok. apply matches_key in Hm as [-> ->]. done. Qed.

Lemma reverify_ok request rsv e e' v :
  reverifyReservation enc request rsv e = (e', Ok v) -> exists e1, verify request e = (e1, Ok v).
Proof.
  unfold reverifyReservation, try. rewrite bind_run. destruct (verify request e) as [e1 [w|]] eqn:Hv; cbn; [|done].
  unfold ret. destruct (requestDigest _ _ _) as [d|]; [|done]. destruct (d ≟ _); [|done]. intros [= _ ->]. eauto.
Qed.

Lemma Digest_nonempty value d : Digest enc value = Ok d -> d <> "".
Proof.
  unfold Digest, CanonicalJson.Digest. destruct (CanonicalJson.Canonicalize _ _); [|done]. by intros [= <-].
Qed.

Lemma requestDigest_nonempty request v d : requestDigest enc request v = Ok d -> d <> "".
Proof. unfold requestDigest. intros (value & _ & Hd)%rbind_ok. by eapply Digest_nonempty. Qed.

(** ** The outcomes of a merge *)

(** The commit is the executor's answer: to a merge of the submitted commits of
    the request's candidates onto its base, or, asked about that execution,
    from its books. *)
Definition executed (request : Request) (commit : string) : Prop :=
  exists execution e e', execution = mergeExecutionID (q_IntegrationID request) (q_Attempt request) /\
    (executor_Lookup execution e = (e', Ok (Some commit)) \/
     exists commits, commits ≡ₚ map c_SubmissionCommit (q_Candidates request) /\
       executor_Merge (q_BaseCommit request) commits execution e = (e', Ok commit)).

(** The checks are those of the verifier's answer on that commit, and passed. *)
Definition suite_passed (request : Request) (commit : string) (checks : list CheckResult) : Prop :=
  exists v now raw runErr e e', requestMatchesVerified request v = true /\
    verifier_Verify (mkVerificationInput (v_TenantID v) (v_ProjectID v) (v_IntegrationID v) commit
      (v_BaseCommit v) (v_Candidates v)) e = (e', (raw, runErr)) /\
    normalize_checks enc v commit now raw runErr = Ok (checks, true).
Definition checked_ok (request : Request) (commit : string) (checked : bool) (checks : list CheckResult) : Prop :=
  if checked then suite_passed request commit checks else checks = [].

Lemma matches_commits request v :
  requestMatchesVerified request v = true ->
  sort_strings (map c_SubmissionCommit (v_Candidates v)) ≡ₚ map c_SubmissionCommit (q_Candidates request).
Proof.
  assert (Hc : forall cs, map c_SubmissionCommit (canonicalCandidates cs) ≡ₚ map c_SubmissionCommit cs).
  { intros cs. unfold canonicalCandidates. rewrite cloneCandidates_id.
    rewrite (Permutation_map c_SubmissionCommit (sort_slice_Permutation candidate_before _)). by rewrite map_map. }
  unfold requestMatchesVerified, sort_strings. intros Hm. go_bool.
  rewrite sort_slice_Permutation, <- Hc, <- (Hc (q_Candidates request)).
  match goal with Heq : canonicalCandidates _ = canonicalCandidates _ |- _ => by rewrite Heq end.
Qed.
Lemma matches_execution request v :
  requestMatchesVerified request v = true ->
  v_BaseCommit v = q_BaseCommit request /\
  mergeExecutionID (v_IntegrationID v) (v_Attempt v) = mergeExecutionID (q_IntegrationID request) (q_Attempt request).
Proof. unfold requestMatchesVerified. intros Hm. go_bool. split; congruence. Qed.

Lemma executed_merge request v v' e e' commit :
  requestMatchesVerified request v = true -> requestMatchesVerified request v' = true ->
  executor_Merge (v_BaseCommit v') (sort_strings (map c_SubmissionCommit (v_Candidates v')))
    (mergeExecutionID (v_IntegrationID v) (v_Attempt v)) e = (e', Ok commit) -> executed request commit.
Proof.
  intros [_ Hx]%matches_execution Hm' He. pose proof (matches_commits _ _ Hm') as Hc.
  apply matches_execution in Hm' as [Hb _]. rewrite Hx, Hb in He. eexists _, e, e'. split; [reflexivity|]. right.
  eexists. split; [exact Hc|exact He].
Qed.
Lemma executed_lookup request v e e' commit :
  requestMatchesVerified request v = true ->
  executor_Lookup (mergeExecutionID (v_IntegrationID v) (v_Attempt v)) e = (e', Ok (Some commit)) ->
  executed request commit.
Proof. intros [_ ->]%matches_execution He. eexists _, e, e'. split; [reflexivity|]. by left. Qed.

(** [c] is a conflict of the record of the request. *)
(** What can follow a reservation [rsv] that stands in [s]. *)
Inductive after (request : Request) (checked : bool) (rsv : MergeResult) (s : MemoryStore)
    : MergeResult * option error -> MemoryStore -> Prop :=
| stays r err : after request checked rsv s (r, Some err) s
| conflicts c r err : key_of c = request_key request ->
    after request checked rsv s (r, Some err) (perform s (DoRecordConflict c))
| completes duplicate commit checks s' :
    commitID commit = true -> executed request commit -> checked_ok request commit checked checks ->
    let r := rsv ⟦ m_Duplicate := duplicate ⟧ ⟦ m_Commit := commit ⟧ ⟦ m_Pending := false ⟧ ⟦ m_Checks := checks ⟧ in
    Complete r s = (s', None) -> after request checked rsv s (r, None) s'.

Lemma record_conflict_ends verified audit s :
  ends (E := E) (recordConflict verified audit) s (fun a s' => exists r err, a = (r, Some err) /\
    (s' = s \/ exists c, key_of c = record_key (v_TenantID verified) (v_IntegrationID verified)
                        /\ s' = perform s (DoRecordConflict c))).
Proof.
  unfold recordConflict. cbv zeta.
  generalize (if v_OwnerTaskID verified ≟ "" then conflictOwner audit (v_Candidates verified)
              else v_OwnerTaskID verified). intros owner.
  destruct (owner ≟ ""); [apply ends_ret; eauto 6|].
  match goal with |- context [RecordConflict ?c] => set (conflict := c) end.
  apply ends_stored.
  destruct (snd (RecordConflict conflict s)) as [[kept changed] err].
  assert (Hdo : exists c, key_of c = record_key (v_TenantID verified) (v_IntegrationID verified)
                        /\ fst (RecordConflict conflict s) = perform s (DoRecordConflict c)) by (by exists conflict).
  destruct err as [err|]; [apply ends_ret; eauto 6|].
  apply ends_stored. cbn [snd fst]. destruct (GetTask _ _ _) as [t found].
  destruct (negb found); [apply ends_ret; eauto 6|]. destruct (_ ≟ _); apply ends_ret; eauto 6.
Qed.

Lemma record_conflict_after request checked rsv verified audit s :
  record_key (v_TenantID verified) (v_IntegrationID verified) = request_key request ->
  ends (E := E) (recordConflict verified audit) s (after request checked rsv s).
Proof.
  intros Hkey. eapply ends_mono; [|apply record_conflict_ends].
  intros a s' (r & err & -> & [->|(c & Hc & ->)]); constructor. by rewrite Hc.
Qed.

(** The checks a suite passed with. *)
Lemma normalize_passed verified commit now raw runErr checks :
  normalize_checks enc verified commit now raw runErr = Ok (checks, true) -> validCheckResults checks true = true.
Proof.
  unfold normalize_checks. cbv zeta. destruct (checks_by_kind _ _ _) as [byKind malformed].
  intros (normal & _ & (c1 & _ & (c2 & _ & [= -> Hp])%rbind_ok)%rbind_ok)%rbind_ok. by apply andb_true_iff in Hp as [_ Hp].
Qed.

(** ** From a standing reservation to the end *)
Section Standing.
Context (request : Request) (checked : bool) (rsv : MergeResult) (s : MemoryStore).
Hypothesis Hchecks : m_Checks rsv = [].

#[local] Abbreviation outcome := (after request checked rsv s) (only parsing).

Lemma complete_after duplicate commit checks :
  let r := rsv ⟦ m_Duplicate := duplicate ⟧ ⟦ m_Commit := commit ⟧ ⟦ m_Pending := false ⟧ ⟦ m_Checks := checks ⟧ in
  commitID commit = true -> executed request commit -> checked_ok request commit checked checks ->
  ends (E := E) (bind (stored (Complete r)) (fun err =>
    ret match err with Some err => (zeroMergeResult, Some err) | None => (r, None) end)) s outcome.
Proof.
  intros r Hc Hx Hk. apply ends_stored. apply ends_ret. destruct (Complete r s) as [s' [err|]] eqn:Hdone; cbn [fst snd].
  - apply complete_error in Hdone as ->. constructor.
  - by constructor.
Qed.

Lemma completeRecovered_ends verified duplicate commit :
  requestMatchesVerified request verified = true -> executed request commit ->
  ends (completeRecovered enc verified (rsv ⟦ m_Duplicate := duplicate ⟧) commit checked) s outcome.
Proof.
  intros Hm Hx. pose proof (matches_key _ _ Hm) as [HT HI].
  assert (Hkey : record_key (v_TenantID verified) (v_IntegrationID verified) = request_key request)
    by (by rewrite HT, HI).
  unfold completeRecovered. destruct (commitID commit) eqn:Hc; [|apply ends_ret; constructor].
  cbn [negb]. destruct checked eqn:Hck; cbn [negb].
  - apply ends_outside. intros e e' [rawChecks runErr] Hv. rewrite cloneCandidates_id in Hv. apply ends_outside. intros e1 e2 [[checks passed]|err] Hn;
      [|apply ends_ret; constructor].
    destruct passed; cbn [negb].
    + rewrite cloneChecks_id. pose proof (complete_after duplicate commit checks) as Hdone. rewrite Hck in Hdone.
      apply Hdone; [done|done|]. unfold normalizeCheckResults in Hn. rewrite bind_run in Hn.
      injection Hn as _ Hn. by eexists verified, _, rawChecks, runErr, e, e'.
    + apply ends_outside. intros e3 e4 [failure|err] _; [|apply ends_ret; constructor].
      eapply ends_bind; [by apply record_conflict_ends|].
      intros a s' (r & err & -> & [->|(c & Hcc & ->)]); apply ends_ret; constructor. by rewrite Hcc.
  - pose proof (complete_after duplicate commit []) as Hdone. rewrite Hck in Hdone. cbv zeta in Hdone.
    replace (update m_Checks _ _) with (rsv ⟦ m_Duplicate := duplicate ⟧ ⟦ m_Commit := commit ⟧ ⟦ m_Pending := false ⟧)
      in Hdone by (cbn; by rewrite Hchecks).
    by apply Hdone.
Qed.

Lemma recover_ends verified duplicate commit :
  requestMatchesVerified request verified = true -> executed request commit ->
  ends (recover enc request verified (rsv ⟦ m_Duplicate := duplicate ⟧) commit checked) s outcome.
Proof.
  intros Hm Hx. unfold recover. apply ends_outside. intros e e' [w|err] _; [|apply ends_ret; constructor].
  by apply completeRecovered_ends.
Qed.

Lemma execute_ends v0 duplicate :
  requestMatchesVerified request v0 = true ->
  ends (execute enc request (rsv ⟦ m_Duplicate := duplicate ⟧)
    (mergeExecutionID (v_IntegrationID v0) (v_Attempt v0)) checked) s outcome.
Proof.
  intros Hm0. unfold execute. apply ends_outside. intros e e' [v|err] Hv; [|apply ends_ret; constructor].
  apply reverify_ok in Hv as [e1 Hv]. pose proof (verified_ok _ _ _ _ Hv) as (_ & _ & Hm & _). apply verify_key in Hv.
  apply ends_outside. intros e2 e3 [commit|err] He; [apply recover_ends; [done|by apply (executed_merge request v0 v e2 e3)]|].
  apply ends_outside. intros e4 e5 [[commit|]|lookupErr] Hl;
    [apply recover_ends; [done|by apply (executed_lookup request v0 e4 e5)]| |apply ends_ret; constructor].
  destruct (negb _); [apply ends_ret; constructor|].
  apply ends_outside. intros e6 e7 [failure|err'] _; [|apply ends_ret; constructor].
  by apply record_conflict_after.
Qed.
End Standing.

(** Everything a merge can do to the store. *)
Inductive outcome (request : Request) (checked : bool) (s : MemoryStore)
    : MergeResult * option error -> MemoryStore -> Prop :=
| refused r err : outcome request checked s (r, Some err) s
| rejected c r err : key_of c = request_key request ->
    outcome request checked s (r, Some err) (perform s (DoRecordConflict c))
| duplicate verified digest audit prior e e' e1 e1' :
    verify request e = (e', Ok verified) -> auditVerified enc verified e1 = (e1', Ok audit) ->
    au_Passed audit = true -> requestDigest enc request verified = Ok digest ->
    Reserve (reservation_of verified digest audit) s = (s, (prior, false, None)) -> m_Pending prior = false ->
    outcome request checked s (prior ⟦ m_Duplicate := true ⟧, None) s
| reserved verified digest audit prior owner s1 a s' e e' e1 e1' :
    verify request e = (e', Ok verified) -> auditVerified enc verified e1 = (e1', Ok audit) ->
    au_Passed audit = true -> requestDigest enc request verified = Ok digest ->
    Reserve (reservation_of verified digest audit) s = (s1, (prior, owner, None)) ->
    owner = true \/ m_Pending prior = true ->
    after request checked (reservation_of verified digest audit) s1 a s' ->
    outcome request checked s a s'.

Lemma reserve_error r s s' x err : Reserve r s = (s', (x, Some err)) -> s' = s.
Proof. unfold Reserve. intros Hc. repeat case_match; congruence. Qed.

Lemma merge_ends request checked s : ends (merge enc request checked) s (outcome request checked s).
Proof.
  unfold merge. apply ends_outside. intros e e' [v|err] Hv; [|apply ends_ret; constructor].
  pose proof (verify_key _ _ _ _ Hv) as Hkey. pose proof (verified_ok _ _ _ _ Hv) as (_ & _ & Hm & _).
  apply ends_outside. intros e1 e1' [audit|err] Ha; [|apply ends_ret; constructor].
  destruct (au_Passed audit) eqn:Hp; cbn [negb].
  2:{ eapply ends_mono; [|apply record_conflict_ends]. intros a s' (r & err & -> & [->|(c & Hc & ->)]);
      constructor. by rewrite Hc. }
  destruct (requestDigest enc request v) as [digest|err] eqn:Hd; [|apply ends_ret; constructor].
  unfold reserved_merge. apply ends_stored.
  destruct (Reserve (reservation_of v digest audit) s) as [s1 [[prior owner] err]] eqn:Hr. cbn [fst snd].
  destruct err as [err|]; [apply reserve_error in Hr as ->; apply ends_ret; constructor|].
  destruct (negb owner && negb (m_Pending prior)) eqn:Hdup.
  { apply andb_true_iff in Hdup as [->%negb_true_iff Hpend%negb_true_iff].
    assert (s1 = s) as -> by (apply reserve_ok in Hr as (rec & _ & _ & ? & _); done).
    apply ends_ret. by econstructor. }
  assert (Hstand : owner = true \/ m_Pending prior = true).
  { destruct owner; [by left|]. right. by destruct (m_Pending prior). }
  eapply ends_mono; [intros a s' Hafter; by eapply reserved|].
  destruct owner; [by apply (execute_ends request checked (reservation_of v digest audit) s1 eq_refl v false)|].
  apply ends_outside. intros e2 e3 [[commit|]|lookupErr] Hl.
  - apply (recover_ends request checked (reservation_of v digest audit) s1 eq_refl); [done|].
    by apply (executed_lookup request v e2 e3).
  - by apply (execute_ends request checked (reservation_of v digest audit) s1 eq_refl).
  - apply ends_ret. constructor.
Qed.
End Merge.

(** ** The books of the queue *)
Section Books.
Context (enc : Encoding) `{Collaborators E}.

(** A passed audit of candidates that can stand together. *)
Definition cleared (a : Integration.Audit) : Prop :=
  au_Passed a = true /\ separated enc (au_Candidates a).

(** A result is the integration of a request: of the candidates that were
    verified for it, under its digest, with the executor's commit, and with no
    checks or the verifier's. *)
Definition integrates (request : Request) (r : MergeResult) : Prop :=
  executed request (m_Commit r) /\
  (exists v, requestMatchesVerified request v = true /\ m_Candidates r = v_Candidates v /\
     requestDigest enc request v = Ok (m_RequestDigest r)) /\
  (m_Checks r = [] \/ suite_passed enc request (m_Commit r) (m_Checks r)).

Definition record_ok (key : string) (rec : memoryRecord) : Prop :=
  let r := result rec in let state := t_State (task rec) in
  (m_Pending r = true <-> state = TaskMergeReserved)
  /\ (state = TaskMergeReserved \/ state = TaskDone -> m_RequestDigest r <> "" /\ cleared (m_Audit r))
  /\ (state = TaskDone -> commitID (m_Commit r) = true
      /\ (m_Checks r = [] \/ validCheckResults (m_Checks r) true = true)
      /\ exists request, request_key request = key /\ integrates request r)
  /\ (state <> TaskMergeReserved -> state <> TaskDone -> m_RequestDigest r = "" /\ m_Commit r = "").
Definition books (s : MemoryStore) : Prop := forall key rec, s !! key = Some rec -> record_ok key rec.

Lemma books_insert s key rec : books s -> record_ok key rec -> books (<[key := rec]> s).
Proof. intros Hs Hr k x [[<- <-]|[_ Hx]]%lookup_insert_Some; [done|by eapply Hs]. Qed.

(** A conflict's record is ok: it carries no merge. *)
Lemma conflict_ok key c t :
  validConflictResult c = true -> t_State t = TaskReworkRequired \/ t_State t = TaskBlockedUserDecision ->
  record_ok key (mkRecord c t).
Proof.
  unfold validConflictResult, record_ok. cbn. intros Hv Hs. go_bool.
  match goal with H : m_Pending c = false |- _ => rewrite H end.
  destruct Hs as [-> | ->]; (split; [split; intros [=]|]); (split; [by intros [[=]|[=]]|]);
    (split; [intros [=]|]); done.
Qed.

Lemma conflict_books c s : books s -> books (perform s (DoRecordConflict c)).
Proof.
  intros Hs. cbn [perform]. unfold RecordConflict.
  destruct (validConflictResult c) eqn:Hv; cbn [negb]; [|done]. rewrite merge_result_clone.
  destruct (s !! _) as [prior|] eqn:Hp; [|destruct (negb _); [done|]].
  - cbv zeta. repeat match goal with |- books (fst (if ?c then _ else _)) => destruct c end; try exact Hs.
    cbn [fst]. apply books_insert; [done|].
    apply conflict_ok; [done|]. unfold conflicted. cbn. destruct (_ =? 3); auto.
  - cbn [fst]. apply books_insert; [done|]. apply conflict_ok; [done|by left].
Qed.

Lemma start_books request s : books s -> books (perform s (DoStartAttempt request)).
Proof.
  intros Hs. cbn [perform]. unfold Integration.StartAttempt. destruct (negb _); [done|].
  destruct (s !! _) as [prior|] eqn:Hp; [|done]. cbv zeta.
  do 4 (match goal with |- books (fst (if ?c then _ else _)) =>
        let G := fresh "G" in destruct c eqn:G end; [exact Hs|]). cbn [fst]. apply books_insert; [done|].
  destruct (Hs _ _ Hp) as (Hpend & _ & _ & Hno). go_bool.
  match goal with H : t_State _ = _ |- _ => rewrite H in * end.
  destruct (Hno ltac:(done) ltac:(done)) as [Hd Hc]. unfold record_ok. cbn.
  split; [rewrite Hpend; split; intros [=]|]. split; [by intros [[=]|[=]]|]. split; [intros [=]|]. done.
Qed.

Lemma reserve_books r s s' a :
  books s -> cleared (m_Audit r) -> m_RequestDigest r <> "" -> m_Commit r = "" -> Reserve r s = (s', a) -> books s'.
Proof.
  intros Hs Ha Hd Hc Hr. destruct a as [[prior owner] [err|]]; [by apply reserve_error in Hr as ->|].
  apply reserve_ok in Hr as (rec & Hl & _ & Hrec). destruct owner; [|by destruct Hrec as [-> _]].
  destruct Hrec as (-> & Hres & Hst). apply books_insert; [done|]. unfold record_ok. rewrite Hres, Hst. cbn.
  split; [done|]. split; [done|]. split; [intros [=]|]. by intros [].
Qed.

Lemma reserved_books v digest audit s s1 prior owner e e' e1 e1' request `{!RangeLaw E} :
  books s -> verify request e = (e', Ok v) -> auditVerified enc v e1 = (e1', Ok audit) -> au_Passed audit = true ->
  requestDigest enc request v = Ok digest -> Reserve (reservation_of v digest audit) s = (s1, (prior, owner, None)) ->
  books s1 /\ cleared audit /\ digest <> "".
Proof.
  intros Hs Hv Ha Hp Hd Hr. pose proof (requestDigest_nonempty _ _ _ _ Hd) as Hne.
  assert (Hcl : cleared audit) by (split; [done|by eapply passed_separated]).
  split; [|done]. eapply reserve_books; [exact Hs| | | |exact Hr]; done.
Qed.

(** Where a reservation stands in the store. *)
Lemma reservation_stands v digest audit s s1 prior owner :
  Reserve (reservation_of v digest audit) s = (s1, (prior, owner, None)) ->
  owner = true \/ m_Pending prior = true ->
  exists rec, s1 !! record_key (v_TenantID v) (v_IntegrationID v) = Some rec /\ m_Pending (result rec) = true
    /\ m_RequestDigest (result rec) = digest.
Proof.
  intros Hr Hstand. apply reserve_ok in Hr as (rec & Hl & -> & Hrec). exists rec. split; [done|].
  destruct owner; [destruct Hrec as (_ & -> & _); done|]. destruct Hrec as (_ & Hd & _). naive_solver.
Qed.

(** A completed reservation of a verified request. *)
Lemma completed_integrates request checked v digest audit duplicate commit checks e e' :
  verify request e = (e', Ok v) -> requestDigest enc request v = Ok digest -> executed request commit ->
  checked_ok enc request commit checked checks ->
  integrates request ((reservation_of v digest audit) ⟦ m_Duplicate := duplicate ⟧ ⟦ m_Commit := commit ⟧
    ⟦ m_Pending := false ⟧ ⟦ m_Checks := checks ⟧).
Proof.
  intros (_ & _ & Hm & _)%verified_ok Hd Hx Hk. split_and!; [done| |].
  - exists v. cbn. by rewrite cloneCandidates_id.
  - destruct checked; [right|left]; exact Hk.
Qed.

Lemma checked_valid request commit checked checks :
  checked_ok enc request commit checked checks ->
  checks = [] /\ checked = false \/ checked = true /\ validCheckResults checks true = true.
Proof.
  destruct checked; cbn; [|by left]. intros (? & ? & ? & ? & ? & ? & _ & _ & Hn). right. split; [done|].
  by eapply normalize_passed.
Qed.

Lemma completed_books request v digest audit s s' checked r rec e e' :
  books s -> cleared audit -> verify request e = (e', Ok v) -> requestDigest enc request v = Ok digest ->
  let rsv := reservation_of v digest audit in
  s !! key_of rsv = Some rec -> m_Pending (result rec) = true ->
  after enc request checked rsv s r s' -> books s'.
Proof.
  intros Hs Ha Hv Hd rsv Hl Hp.
  destruct 1 as [|c r err Hk|dup commit checks s' Hc Hx Hk x Hdone]; [done|by apply conflict_books|].
  destruct (complete_pending x s s' rec Hdone Hl Hp) as [_ ->]. apply books_insert; [done|].
  pose proof (requestDigest_nonempty _ _ _ _ Hd) as Hne.
  unfold record_ok. cbn. split; [split; intros [=]|]. split; [done|]. split; [|by intros _ []].
  intros _. split; [done|]. split; [destruct (checked_valid _ _ _ _ Hk) as [[? _]|[_ ?]]; [by left|by right]|].
  exists request. split; [by rewrite <- (verify_key _ _ _ _ Hv)|].
  by apply (completed_integrates request checked v digest audit dup commit checks e e').
Qed.

Lemma outcome_books `{!RangeLaw E} request checked s a s' :
  books s -> outcome enc request checked s a s' -> books s'.
Proof.
  intros Hs. destruct 1 as [|c r err Hk| |v digest audit prior owner s1 a s' e e' e1 e1' Hv Ha Hp Hd Hr Hst Haft];
    [done|by apply conflict_books|done|].
  destruct (reserved_books _ _ _ _ _ _ _ _ _ _ _ _ Hs Hv Ha Hp Hd Hr) as (Hs1 & Hcl & Hne).
  destruct (reservation_stands _ _ _ _ _ _ _ Hr Hst) as (rec & Hl & Hpend & _).
  exact (completed_books request v digest audit _ _ _ _ _ _ _ Hs1 Hcl Hv Hd Hl Hpend Haft).
Qed.

(** ** The queue's operations on a world *)
Inductive operation : world (E := E) -> world (E := E) -> Prop :=
| starts request w : operation w (fst (Queue.StartAttempt request w))
| merges request checked w : operation w (fst (merge enc request checked w))
| moves_on s e e' : operation (s, e) (s, e').

Lemma run_one s c : run command_step s [c] (perform s c).
Proof. apply (run_snoc command_step s [] s); [constructor|done]. Qed.

Lemma outcome_runs request checked s a s' :
  outcome enc request checked s a s' ->
  exists cs, run command_step s cs s' /\ Forall (fun c => subject c = request_key request) cs /\ (length cs <= 2)%nat.
Proof.
  destruct 1 as [|c r err Hk| |v digest audit prior owner s1 a s' e e' e1 e1' Hv _ _ _ Hr _ Haft].
  - exists []. split; [constructor|]. split; [constructor|cbn; lia].
  - exists [DoRecordConflict c]. split; [apply run_one|]. split; [by repeat constructor|cbn; lia].
  - exists []. split; [constructor|]. split; [constructor|cbn; lia].
  - assert (s1 = perform s (DoReserve (reservation_of v digest audit))) as -> by (cbn; by rewrite Hr).
    pose proof (verify_key _ _ _ _ Hv) as Hkey. inversion Haft as [r err|c r err Hk|dup commit checks s2 Hc Hx Hk x Hdone]; subst.
    + eexists [_]. split; [apply run_one|]. split; [by repeat constructor|cbn; lia].
    + exists [DoReserve (reservation_of v digest audit); DoRecordConflict c].
      split; [apply (run_app command_step _ [_] _ [_] _ (run_one _ _) (run_one _ _))|]. split; [by repeat constructor|cbn; lia].
    + exists [DoReserve (reservation_of v digest audit); DoComplete x].
      assert (s' = perform (perform s (DoReserve (reservation_of v digest audit))) (DoComplete x)) as ->
        by (cbn -[Reserve Complete] in *; by rewrite Hdone).
      split; [apply (run_app command_step _ [_] _ [_] _ (run_one _ _) (run_one _ _))|]. split; [by repeat constructor|cbn; lia].
Qed.

(** ** Success *)
(** [r] answers [request] in the store [s]: its record is DONE with that result,
    for the verified request [v] and its passed audit. *)
Definition settled (request : Request) (s : MemoryStore) (r : MergeResult) (v : VerifiedRequest)
    (audit : Integration.Audit) : Prop :=
  requestDigest enc request v = Ok (m_RequestDigest r)
  /\ au_Passed audit = true /\ au_EvidenceSHA256 (m_Audit r) = au_EvidenceSHA256 audit
  /\ m_LeaseID r = v_LeaseID v /\ m_FencingToken r = v_FencingToken v
  /\ exists rec, s !! request_key request = Some rec /\ t_State (task rec) = TaskDone
       /\ m_Pending (result rec) = false /\ result rec = r ⟦ m_Duplicate := m_Duplicate (result rec) ⟧.

(** The record of the request was DONE with that result, of an earlier request
    with the same digest. *)
Definition done_before (s : MemoryStore) (request : Request) (r : MergeResult) : Prop :=
  exists rec earlier, s !! request_key request = Some rec /\ t_State (task rec) = TaskDone
    /\ r = (result rec) ⟦ m_Duplicate := true ⟧ /\ request_key earlier = request_key request
    /\ integrates earlier (result rec).

Lemma outcome_settled request checked s r s' :
  books s -> outcome enc request checked s (r, None) s' ->
  exists v audit e e' e1 e1', verify request e = (e', Ok v) /\ auditVerified enc v e1 = (e1', Ok audit)
    /\ settled request s' r v audit
    /\ (s' = s /\ m_Duplicate r = true /\ done_before s request r
        \/ integrates request r /\ m_Candidates r = v_Candidates v /\ checked_ok enc request (m_Commit r) checked (m_Checks r)).
Proof.
  intros Hs Hout. inversion Hout as [| |v digest audit prior e e' e1 e1' Hv Ha Hp Hd Hr Hpend|
      v digest audit prior owner s1 a s2 e e' e1 e1' Hv Ha Hp Hd Hr Hst Haft]; subst.
  - exists v, audit, e, e', e1, e1'. split; [done|]. split; [done|]. refine (proj1 (and_comm _ _) _).
    apply reserve_ok in Hr as (rec & Hl & -> & _ & Hdig & Hev & Hlease). cbn in Hdig, Hev, Hlease.
    change (key_of _) with (record_key (v_TenantID v) (v_IntegrationID v)) in Hl.
    rewrite (verify_key _ _ _ _ Hv) in Hl. pose proof (requestDigest_nonempty _ _ _ _ Hd) as Hne.
    destruct (Hs _ _ Hl) as (Hiff & _ & Hfin & Hno).
    assert (Hdone : t_State (task rec) = TaskDone).
    { apply dec_stable. intros Hnd. destruct Hno as [H0 _]; [|done|congruence].
      intros Hres%Hiff. congruence. }
    destruct (Hlease Hdone) as [Hl1 Hl2]. split.
    { left. split; [done|]. split; [done|]. destruct (Hfin Hdone) as (_ & _ & earlier & Hke & He). by exists rec, earlier. }
    unfold settled. cbn. split; [by rewrite Hdig|]. repeat split; try done.
    exists rec. repeat split; try done. by destruct (result rec).
  - exists v, audit, e, e', e1, e1'. split; [done|]. split; [done|].
    destruct (reservation_stands _ _ _ _ _ _ _ Hr Hst) as (rec & Hl & Hpend & _).
    inversion Haft as [| |dup commit checks s3 Hc Hx Hk x Hdone]; subst.
    destruct (complete_pending x _ _ _ Hdone Hl Hpend) as [_ ->]. refine (proj1 (and_comm _ _) _). split.
    { right. split; [by apply (completed_integrates request checked v digest audit dup commit checks e e')|].
      split; [cbn; by rewrite cloneCandidates_id|done]. }
    unfold settled. cbn. repeat split; try done. eexists. rewrite <- (verify_key _ _ _ _ Hv).
    change (key_of x) with (record_key (v_TenantID v) (v_IntegrationID v)). by rewrite lookup_insert_eq.
Qed.

Lemma merge_outcome request checked s e s' e' a :
  merge enc request checked (s, e) = ((s', e'), a) -> outcome enc request checked s a s'.
Proof. intros Hm. pose proof (merge_ends enc request checked s e) as Hends. by rewrite Hm in Hends. Qed.

Lemma operation_books `{!RangeLaw E} w w' :
  operation w w' -> books (fst w) -> books (fst w') /\ exists cs, run command_step (fst w) cs (fst w').
Proof.
  destruct 1 as [request [s e]|request checked [s e]|s e e']; intros Hs; cbn [fst].
  - unfold Queue.StartAttempt, stored. cbn [fst snd].
    change (fst (let '(s1, a) := Integration.StartAttempt request s in (s1, e, a)))
      with (fst (let '(s1, a) := Integration.StartAttempt request s in ((s1, e), a))).
    pose proof (start_books request s Hs) as Hb. pose proof (run_one s (DoStartAttempt request)) as Hrun.
    cbn [perform] in Hb, Hrun. destruct (Integration.StartAttempt request s) as [s1 a]. cbn [fst] in *. eauto.
  - destruct (merge enc request checked (s, e)) as [[s' e'] a] eqn:Hm. apply merge_outcome in Hm. cbn [fst].
    split; [by eapply outcome_books|]. destruct (outcome_runs _ _ _ _ _ Hm) as (cs & Hrun & _). eauto.
  - split; [done|]. exists []. constructor.
Qed.

Lemma reached_books `{!RangeLaw E} w w' :
  rtc operation w w' -> books (fst w) -> books (fst w') /\ exists cs, run command_step (fst w) cs (fst w').
Proof.
  induction 1 as [w|w1 w2 w3 Hop _ IH]; intros Hs; [split; [done|]; exists []; constructor|].
  destruct (operation_books _ _ Hop Hs) as [Hs2 [cs Hrun]]. destruct (IH Hs2) as [Hs3 [cs' Hrun']].
  split; [done|]. exists (cs ++ cs'). by eapply run_app.
Qed.

Lemma new_books : books NewMemoryStore.
Proof. intros key rec Hl. unfold NewMemoryStore in Hl. by rewrite lookup_empty in Hl. Qed.

(** ** Retry *)
(** A reservation that meets its own settled record gets the record's result. *)
Lemma reserve_settled request s r v audit e e' now :
  settled request s r v audit -> verify request e = (e', Ok v) ->
  exists rec, Reserve (reservation_of v (m_RequestDigest r) (audit ⟦ au_CreatedAt := now ⟧)) s
              = (s, (result rec, false, None))
    /\ m_Pending (result rec) = false /\ result rec = r ⟦ m_Duplicate := m_Duplicate (result rec) ⟧.
Proof.
  intros (Hd & Hp & Hev & Hl1 & Hl2 & rec & Hl & Hdone & Hpend & Heq) Hv. exists rec. split; [|done].
  unfold Reserve. change (record_key _ _) with (record_key (v_TenantID v) (v_IntegrationID v)).
  rewrite (verify_key _ _ _ _ Hv), Hl. cbn -[bool_decide]. rewrite merge_result_clone.
  assert (H1 : m_RequestDigest (result rec) = m_RequestDigest r) by (by rewrite Heq).
  assert (H2 : au_EvidenceSHA256 (m_Audit (result rec)) = au_EvidenceSHA256 audit) by (by rewrite Heq).
  assert (H3 : m_LeaseID (result rec) = v_LeaseID v) by (by rewrite Heq).
  assert (H4 : m_FencingToken (result rec) = v_FencingToken v) by (by rewrite Heq).
  rewrite H1, H2, H3, H4, Hdone, Z.eqb_refl. rewrite !bool_decide_eq_true_2 by done. done.
Qed.

Lemma merge_settled `{!RangeLaw E} request checked s r v audit e1 e1' e2 e3 :
  settled request s r v audit -> auditVerified enc v e1 = (e1', Ok audit) -> verify request e2 = (e3, Ok v) ->
  merge enc request checked (s, e2) = ((s, fst (auditVerified enc v e3)), (r ⟦ m_Duplicate := true ⟧, None)).
Proof.
  intros Hset Ha Hv. destruct (audit_again enc _ _ _ _ e3 Ha) as (e4 & now & Ha2).
  destruct (reserve_settled _ _ _ _ _ _ _ now Hset Hv) as (rec & Hr & Hpend & Heq).
  destruct Hset as (Hd & Hp & _). unfold merge, outside. rewrite bind_run. cbn [fst snd]. rewrite Hv. cbn [fst snd].
  rewrite bind_run. cbn [fst snd]. rewrite Ha2. cbn [fst snd].
  change (au_Passed (audit ⟦ au_CreatedAt := now ⟧)) with (au_Passed audit). rewrite Hp. cbn [negb]. rewrite Hd.
  unfold reserved_merge. rewrite bind_run. unfold stored. cbn [fst snd]. rewrite Hr. cbn [fst snd].
  rewrite Hpend. cbn. rewrite Heq. done.
Qed.

(** ** Recovery *)
(** A reservation that the caller owns stands with the caller's owner and
    attempt. *)
Lemma reserve_owned r s s' prior :
  Reserve r s = (s', (prior, true, None)) ->
  exists rec, s' = <[key_of r := rec]> s /\ result rec = r ⟦ m_Pending := true ⟧
    /\ t_State (task rec) = TaskMergeReserved /\ t_OwnerTaskID (task rec) = m_OwnerTaskID r
    /\ t_Attempt (task rec) = m_Attempt r.
Proof.
  unfold Reserve, key_of. rewrite merge_result_clone. destruct (s !! _) as [rec|].
  - destruct (_ && _); [destruct (_ && _) in |- *; done|]. destruct (_ ≠? "") in |- *; [done|].
    destruct (_ || _) eqn:Hg in |- *; [done|]. intros [= <- _]. go_bool. eexists. split; [done|].
    cbn. repeat split; congruence.
  - destruct (_ || _) eqn:Hg; [done|]. intros [= <- _]. go_bool. eexists. split; [done|]. cbn. repeat split; congruence.
Qed.

(** What an unfinished merge leaves for a later one. *)
Definition unfinished (request : Request) (s : MemoryStore) (v : VerifiedRequest) (audit : Integration.Audit) : Prop :=
  exists rec, s !! request_key request = Some rec /\ m_Pending (result rec) = true
    /\ t_State (task rec) = TaskMergeReserved /\ t_OwnerTaskID (task rec) = v_OwnerTaskID v
    /\ t_Attempt (task rec) = v_Attempt v /\ requestDigest enc request v = Ok (m_RequestDigest (result rec))
    /\ au_EvidenceSHA256 (m_Audit (result rec)) = au_EvidenceSHA256 audit /\ au_Passed audit = true.

(** A recorded conflict is not a reservation. *)
Lemma conflict_unreserved c s :
  perform s (DoRecordConflict c) = s
  \/ exists rec, perform s (DoRecordConflict c) = <[key_of c := rec]> s /\ t_State (task rec) <> TaskMergeReserved.
Proof.
  cbn [perform]. unfold RecordConflict. destruct (negb _); [by left|]. rewrite merge_result_clone.
  change (record_key _ _) with (key_of c). destruct (s !! _) as [prior|] eqn:Hp; [|destruct (negb _); [by left|]].
  - cbv zeta. repeat match goal with |- fst (if ?c then _ else _) = _ \/ _ => destruct c end; try by left.
    right. eexists. split; [done|]. unfold conflicted. cbn. by destruct (_ =? 3).
  - right. eexists. by split.
Qed.

(** The record of [key] is reserved in [s]. *)
Definition reserved_at (s : MemoryStore) (key : string) : Prop :=
  exists rec, s !! key = Some rec /\ t_State (task rec) = TaskMergeReserved.

Lemma conflict_reserved c s key :
  key_of c = key -> reserved_at (perform s (DoRecordConflict c)) key -> perform s (DoRecordConflict c) = s.
Proof.
  intros <- (rec & Hl & Hst). destruct (conflict_unreserved c s) as [|(x & Hx & Hne)]; [done|].
  rewrite Hx, lookup_insert_eq in Hl. by injection Hl as ->.
Qed.

Lemma outcome_unfinished request checked s0 s a :
  books s0 -> ~ reserved_at s0 (request_key request) ->
  outcome enc request checked s0 a s -> reserved_at s (request_key request) ->
  exists v audit e e' e1 e1', verify request e = (e', Ok v) /\ auditVerified enc v e1 = (e1', Ok audit)
    /\ unfinished request s v audit.
Proof.
  intros Hs Hno Hout Hres.
  destruct Hout as [|c r err Hc| |v digest audit prior owner s1 a s e e' e1 e1' Hv Ha Hp Hd Hr Hst Haft]; try done.
  { by rewrite (conflict_reserved _ _ _ Hc Hres) in Hres. }
  exists v, audit, e, e', e1, e1'. split; [done|]. split; [done|].
  assert (Hown : owner = true).
  { destruct owner; [done|]. apply reserve_ok in Hr as (rec & Hl & -> & -> & _). destruct Hst as [|Hpend]; [done|].
    change (key_of _) with (record_key (v_TenantID v) (v_IntegrationID v)) in Hl.
    rewrite (verify_key _ _ _ _ Hv) in Hl. destruct Hno. exists rec. split; [done|]. by apply (Hs _ _ Hl). }
  subst owner. apply reserve_owned in Hr as (rec & -> & Hrec & Hst' & Ho & Hat).
  change (key_of _) with (record_key (v_TenantID v) (v_IntegrationID v)) in *. rewrite (verify_key _ _ _ _ Hv) in *.
  assert (Hun : unfinished request (<[request_key request := rec]> s0) v audit).
  { exists rec. rewrite lookup_insert_eq, Hrec. cbn. repeat split; done. }
  destruct Haft as [|c r err Hc|dup commit checks s' Hc Hx Hk x Hdone]; [done| |].
  - by rewrite (conflict_reserved _ _ _ Hc Hres).
  - exfalso. destruct Hun as (rec' & Hl' & Hpend' & _). destruct Hres as (rec2 & Hl2 & Hst2).
    assert (Hkx : key_of x = request_key request) by (by rewrite <- (verify_key _ _ _ _ Hv)).
    rewrite <- Hkx in Hdone, Hl'. destruct (complete_pending x _ _ _ Hdone Hl' Hpend') as [_ ->].
    rewrite Hkx, lookup_insert_eq in Hl2. by injection Hl2 as <-.
Qed.

Lemma stored_candidates v :
  validateVerifiedRequest v = true -> Z.of_nat (length (v_Candidates v)) <= 1024 ->
  validStoredCandidates (cloneCandidates (v_Candidates v)) = true.
Proof.
  rewrite cloneCandidates_id. unfold validateVerifiedRequest. intros Hv Hn. guards Hv. go_bool.
  unfold validStoredCandidates. destruct (v_Candidates v) as [|c cs] eqn:Hc; [done|].
  rewrite (proj2 (Z.ltb_ge _ _)) by lia. done.
Qed.

(** Completing what [unfinished] left. *)
Lemma complete_unfinished request s v audit now commit dup e e' :
  unfinished request s v audit -> verify request e = (e', Ok v) -> Z.of_nat (length (v_Candidates v)) <= 1024 ->
  forall digest, requestDigest enc request v = Ok digest ->
  let r := (reservation_of v digest (audit ⟦ au_CreatedAt := now ⟧)) ⟦ m_Duplicate := dup ⟧ ⟦ m_Commit := commit ⟧
             ⟦ m_Pending := false ⟧ in
  exists s', Complete r s = (s', None).
Proof.
  intros (rec & Hl & Hpend & Hst & Ho & Hat & Hd & Hev & _) Hv Hn digest Hd' r.
  destruct (verified_ok _ _ _ _ Hv) as (_ & Hvalid & _). unfold Complete. subst r.
  cbn -[bool_decide validStoredCandidates cloneCandidates record_key].
  rewrite stored_candidates by done. cbn [negb]. rewrite (verify_key _ _ _ _ Hv), Hl.
  rewrite Hpend, Hst, Ho, Hat, Hev, Z.eqb_refl. assert (digest = m_RequestDigest (result rec)) as -> by congruence.
  repeat (rewrite bool_decide_eq_true_2 by done; cbn [negb orb andb]). eauto.
Qed.

Lemma reserve_unfinished request s v audit now e e' digest :
  unfinished request s v audit -> verify request e = (e', Ok v) -> requestDigest enc request v = Ok digest ->
  exists rec, Reserve (reservation_of v digest (audit ⟦ au_CreatedAt := now ⟧)) s = (s, (result rec, false, None))
    /\ m_Pending (result rec) = true.
Proof.
  intros (rec & Hl & Hpend & Hst & _ & _ & Hd & Hev & _) Hv Hd'. exists rec. split; [|done].
  assert (digest = m_RequestDigest (result rec)) as -> by congruence.
  unfold Reserve. change (record_key _ _) with (record_key (v_TenantID v) (v_IntegrationID v)).
  rewrite (verify_key _ _ _ _ Hv), Hl. cbn -[bool_decide]. rewrite merge_result_clone, Hev, Hst.
  rewrite !bool_decide_eq_true_2 by done. by rewrite bool_decide_eq_false_2.
Qed.

(** The gate vouches for [v] and the executor's book holds [commit], in every
    world that satisfies [later]. *)
Definition steady (later : E -> Prop) (request : Request) (v : VerifiedRequest) (commit : string) : Prop :=
  (forall e, later e -> exists e', verify request e = (e', Ok v) /\ later e')
  /\ (forall e, later e -> later (fst (auditVerified enc v e)))
  /\ (forall e, later e -> exists e',
        executor_Lookup (mergeExecutionID (v_IntegrationID v) (v_Attempt v)) e = (e', Ok (Some commit)) /\ later e').

(** The later merge: it finds the reservation and the executor's commit. *)
Lemma merge_unfinished `{!RangeLaw E} later request s v audit e1 e1' commit :
  unfinished request s v audit -> auditVerified enc v e1 = (e1', Ok audit) ->
  steady later request v commit -> commitID commit = true -> Z.of_nat (length (v_Candidates v)) <= 1024 ->
  forall e, later e -> exists s' e' r, merge enc request false (s, e) = ((s', e'), (r, None)) /\ m_Commit r = commit.
Proof.
  intros Hun Ha (Hgate & Haudit & Hbook) Hc Hn e Hlater. pose proof Hun as (rec0 & _ & _ & _ & _ & _ & Hd & _ & Hp).
  destruct (Hgate e Hlater) as (ea & Hv & Hla). destruct (audit_again enc _ _ _ _ ea Ha) as (eb & now & Ha2).
  pose proof (Haudit ea Hla) as Hlb. rewrite Ha2 in Hlb. cbn [fst] in Hlb.
  destruct (reserve_unfinished _ _ _ _ now _ _ _ Hun Hv Hd) as (rec & Hr & Hpend).
  destruct (Hbook eb Hlb) as (ec & Hl & Hlc). destruct (Hgate ec Hlc) as (ed & Hv2 & _).
  destruct (complete_unfinished _ _ _ _ now commit true _ _ Hun Hv Hn _ Hd) as [s' Hdone].
  unfold merge, outside. rewrite bind_run. cbn [fst snd]. rewrite Hv. cbn [fst snd].
  rewrite bind_run. cbn [fst snd]. rewrite Ha2. cbn [fst snd].
  change (au_Passed (audit ⟦ au_CreatedAt := now ⟧)) with (au_Passed audit). rewrite Hp. cbn [negb]. rewrite Hd.
  unfold reserved_merge. rewrite bind_run. unfold stored. cbn [fst snd]. rewrite Hr. cbn [fst snd].
  rewrite Hpend. cbn [negb andb]. unfold outside. rewrite bind_run. cbn [fst snd]. rewrite Hl. cbn [fst snd].
  unfold recover, outside. rewrite bind_run. cbn [fst snd]. unfold reverifyReservation, try. rewrite bind_run.
  rewrite Hv2. cbn [fst snd]. rewrite Hd. unfold ret at 1.
  rewrite bool_decide_eq_true_2 by done. cbn [fst snd].
  unfold completeRecovered. rewrite Hc. cbn [negb]. rewrite bind_run. unfold stored. cbn [fst snd].
  match goal with |- context [Complete ?x ?y] => change (Complete x y) with (Complete x s); set (r := x) in *;
    assert (Complete r s = (s', None)) as -> by exact Hdone end.
  cbn [fst snd]. do 3 eexists. split; reflexivity.
Qed.
End Books.
End QueueProps.
