(* ===== verification/QueueChecks.v ===== *)
(** The cross-module checks of a merge: whatever the verifier returns becomes
    the five required checks, well-formed, and each says what the verifier
    said of it. *)

From S2P Require Import Prelude GoLib Trace Contracts EventStore Integration Queue QueueAudit QueueProps.

Module QueueChecks.
Import Integration Queue QueueAudit QueueProps.

(** ** Digests *)
(** SHA-256 returns 32 bytes. *)
Definition hash_law (enc : Encoding) : Prop :=
  forall value, length (sha256_Sum256 enc value) = 32%nat /\ Forall (fun b => 0 <= b < 256) (sha256_Sum256 enc value).

Lemma lower_hex_digit d : 0 <= d < 16 -> lower_byte (Trace.hex_digit d) = Trace.hex_digit d /\ byte_of (Trace.hex_digit d) < 128.
Proof.
  intros Hd. unfold lower_byte, byte_in, Trace.hex_digit, byte_of.
  assert (Hc : d = 0 \/ d = 1 \/ d = 2 \/ d = 3 \/ d = 4 \/ d = 5 \/ d = 6 \/ d = 7 \/ d = 8 \/ d = 9 \/ d = 10
    \/ d = 11 \/ d = 12 \/ d = 13 \/ d = 14 \/ d = 15) by lia.
  repeat (destruct Hc as [->|Hc]; [done|]). by subst.
Qed.

(** Lower-case ASCII text is its own lower case. *)
Lemma lower_bytes_id l : Forall (fun c => lower_byte c = c /\ byte_of c < 128) l -> lower_bytes l = l.
Proof.
  induction l as [|a l IH]; intros Hl; [done|]. apply Forall_cons in Hl as [[Ha Hlt] Hl]. specialize (IH Hl).
  assert (Hno : forall v, 128 <= v -> byte_is v a = false) by (intros v Hv; apply Z.eqb_neq; lia).
  cbn [lower_bytes]. destruct l as [|b l]; [by rewrite Ha|]. rewrite (Hno 0xC4) by lia. cbn [andb].
  destruct l as [|c l]; [by rewrite Ha, IH|]. rewrite (Hno 0xE2) by lia. cbn [andb]. by rewrite Ha, IH.
Qed.

Lemma hex_encode_lower l : Forall (fun b => 0 <= b < 256) l ->
  Forall (fun c => lower_byte c = c /\ byte_of c < 128) (Trace.hex_encode l).
Proof.
  induction 1 as [|b l Hb _ IH]; [constructor|]. unfold Trace.hex_encode. cbn.
  constructor; [|constructor; [|exact IH]]; apply lower_hex_digit.
  - split; [apply Z.div_pos; lia|apply Z.div_lt_upper_bound; lia].
  - apply Z.mod_pos_bound. lia.
Qed.

Lemma hex_encode_decodes l : Forall (fun b => 0 <= b < 256) l -> is_nil (Trace.hex_decode (Trace.hex_encode l)) = false.
Proof.
  induction 1 as [|b l Hb _ IH]; [done|]. unfold Trace.hex_encode. cbn [map concat].
  change (Trace.hex_byte b ++ concat (map Trace.hex_byte l)) with
    (Trace.hex_digit (b / 16) :: Trace.hex_digit (b mod 16) :: Trace.hex_encode l). cbn [Trace.hex_decode].
  rewrite !Trace.hex_value_digit.
  - by destruct (Trace.hex_decode (Trace.hex_encode l)).
  - apply Z.mod_pos_bound. lia.
  - split; [apply Z.div_pos; lia|apply Z.div_lt_upper_bound; lia].
Qed.

Lemma hex_encode_length l : length (Trace.hex_encode l) = (2 * length l)%nat.
Proof. unfold Trace.hex_encode. induction l as [|b l IH]; cbn; [done|]. rewrite IH. lia. Qed.

Lemma sha_digest_pattern l :
  length l = 32%nat -> Forall (fun b => 0 <= b < 256) l -> digestPattern ("sha256:" +:+ of_bytes (Trace.hex_encode l)) = true.
Proof.
  intros Hlen Hl. pose proof (hex_encode_lower l Hl) as Hlow.
  assert (Hb : bytes ("sha256:" +:+ of_bytes (Trace.hex_encode l)) = bytes "sha256:" ++ Trace.hex_encode l)
    by (rewrite bytes_concat; f_equal; apply Trace.bytes_of_bytes).
  unfold digestPattern, hex_text. apply andb_true_iff. split; [unfold HasPrefix; by rewrite Hb|].
  apply andb_true_iff. split; [apply andb_true_iff; split|].
  - apply Z.eqb_eq. unfold len. rewrite <- Trace.length_bytes, Hb, length_app, hex_encode_length, Hlen. done.
  - apply bool_decide_eq_true. unfold ToLower. rewrite Hb, lower_bytes_id; [|apply Forall_app; split; [|done]].
    + rewrite <- Hb. apply Trace.of_bytes_bytes.
    + by repeat constructor.
  - rewrite Hb. change (drop (Z.to_nat 7) (bytes "sha256:" ++ Trace.hex_encode l)) with (Trace.hex_encode l).
    by rewrite hex_encode_decodes.
Qed.

(** A SHA-256 digest as text: its name and 64 hexadecimal digits in lower case. *)
Definition digest_text (value : string) : Prop :=
  exists hex, bytes value = bytes "sha256:" ++ hex /\ length hex = 64%nat /\
    Forall (fun c => 48 <= byte_of c <= 57 \/ 97 <= byte_of c <= 102) hex.

Lemma lower_ascii l : Forall (fun c => byte_of c < 128) l -> lower_bytes l = map lower_byte l.
Proof.
  induction 1 as [|a l Ha Hl IH]; [done|].
  assert (Hno : forall v, 128 <= v -> byte_is v a = false) by (intros v Hv; apply Z.eqb_neq; lia).
  cbn [lower_bytes map]. destruct l as [|b l]; [done|]. rewrite (Hno 0xC4) by lia. cbn [andb].
  destruct l as [|c l]; [by rewrite IH|]. rewrite (Hno 0xE2) by lia. cbn [andb]. by rewrite IH.
Qed.

Lemma hex_decode_digits l : is_nil (Trace.hex_decode l) = false ->
  Forall (fun c => 48 <= byte_of c <= 57 \/ 65 <= byte_of c <= 70 \/ 97 <= byte_of c <= 102) l.
Proof.
  assert (Hv : forall c x, Trace.hex_value c = Some x ->
    48 <= byte_of c <= 57 \/ 65 <= byte_of c <= 70 \/ 97 <= byte_of c <= 102).
  { intros c x. unfold Trace.hex_value, byte_in. repeat case_match; intros [=]; lia. }
  enough (H : forall n l, (length l <= n)%nat -> is_nil (Trace.hex_decode l) = false ->
    Forall (fun c => 48 <= byte_of c <= 57 \/ 65 <= byte_of c <= 70 \/ 97 <= byte_of c <= 102) l) by by eapply H.
  clear l. induction n as [|n IH]; intros [|a [|b l]] Hlen; cbn in *; try done; try lia.
  destruct (Trace.hex_value a) eqn:Ea, (Trace.hex_value b) eqn:Eb, (Trace.hex_decode l) eqn:El; try done.
  intros _. constructor; [by eapply Hv|]. constructor; [by eapply Hv|]. apply IH; [lia|by rewrite El].
Qed.

Lemma digest_pattern_text value : digestPattern value = true -> digest_text value.
Proof.
  unfold digestPattern, hex_text. intros H. go_bool.
  match goal with P : HasPrefix _ _ = true |- _ => apply prefix_app in P as [hex Hx] end.
  exists hex. rewrite Hx in *. split; [done|].
  match goal with P : len value = _ |- _ => unfold len in P; rewrite <- Trace.length_bytes, Hx, length_app in P;
    change (length (bytes "sha256:")) with 7%nat in P; split; [lia|] end.
  match goal with P : is_nil (Trace.hex_decode _) = false |- _ =>
    change (drop (Z.to_nat 7) (bytes "sha256:" ++ hex)) with hex in P; apply hex_decode_digits in P as Hd end.
  match goal with P : ToLower value = value |- _ => unfold ToLower in P; apply (f_equal bytes) in P;
    rewrite Trace.bytes_of_bytes, Hx, lower_ascii, map_app in P end.
  2: { apply Forall_app. split; [by repeat constructor|]. eapply Forall_impl; [exact Hd|]. intros c; cbn; lia. }
  match goal with P : _ ++ _ = _ ++ _ |- _ => apply app_inj_1 in P as [_ P]; [|done]; rename P into Hlow end.
  clear - Hd Hlow. induction Hd as [|c l Hc _ IH]; [constructor|]. injection Hlow as Hlc Hl.
  constructor; [|by apply IH]. unfold lower_byte, byte_in in Hlc.
  destruct (_ && _) eqn:G in Hlc; [|lia]. exfalso.
  apply (f_equal N_of_ascii) in Hlc. unfold byte_of in *. rewrite N_ascii_embedding in Hlc; lia.
Qed.

(** ** What a check says *)
Definition statuses : list string := ["PASS"; "FAIL"; "ERROR"].
Lemma known_status x : knownStatus x = true <-> x ∈ statuses.
Proof. unfold knownStatus, statuses. rewrite !orb_true_iff, !bool_decide_eq_true. set_solver. Qed.

(** A check in order, its tasks among [tasks]. *)
Record well_formed (tasks : list string) (k : CheckResult) : Prop := {
  in_status : k_Status k ∈ statuses;
  in_digest : digest_text (k_EvidenceSHA256 k);
  in_time : k_StartedAt k <> 0 /\ k_CompletedAt k <> 0 /\ k_StartedAt k <= k_CompletedAt k;
  in_tasks : forall t, t ∈ k_Tasks k -> t ∈ tasks;
  in_owner : k_OwnerTaskID k = "" \/ k_OwnerTaskID k ∈ k_Tasks k
}.

(** The first check of its kind. *)
Definition first_of (kind : string) (raw : list CheckResult) (c : CheckResult) : Prop :=
  exists l1 l2, raw = l1 ++ c :: l2 /\ k_Kind c = kind /\ kind ∉ map k_Kind l1.

(** What the verifier said of a kind, in the check [k] for it: nothing, or
    something without a status, is an error; otherwise the status and the
    summary are its own, and so is a digest it gave. *)
Inductive reported (raw : list CheckResult) (k : CheckResult) : Prop :=
| reported_missing : k_Kind k ∉ map k_Kind raw -> k_Status k = "ERROR" -> reported raw k
| reported_invalid c : first_of (k_Kind k) raw c -> k_Status c ∉ statuses -> k_Status k = "ERROR" -> reported raw k
| reported_as c : first_of (k_Kind k) raw c -> k_Status c ∈ statuses ->
    k_Status k = k_Status c -> k_Summary k = k_Summary c ->
    (digestPattern (k_EvidenceSHA256 c) = true -> k_EvidenceSHA256 k = k_EvidenceSHA256 c) -> reported raw k.

(** A complete answer: one check of each required kind, each with a status. *)
Definition complete (raw : list CheckResult) : Prop :=
  map k_Kind raw ≡ₚ ["COMPILE"; "CONTRACT"; "INTEGRATION"; "E2E"; "MIGRATION"] /\
  Forall (fun c => k_Status c ∈ statuses) raw.

Lemma find_first kind raw c : findCheck raw kind = Some c -> first_of kind raw c.
Proof.
  unfold findCheck, first_of. induction raw as [|x raw IH]; cbn; [done|].
  destruct (bool_decide_reflect (k_Kind x = kind)) as [Hx|Hx].
  - intros [= <-]. exists [], raw. split_and!; [done|done|apply not_elem_of_nil].
  - intros (l1 & l2 & -> & Hk & Hn)%IH. exists (x :: l1), l2. split_and!; [done|done|].
    cbn. rewrite not_elem_of_cons. split; [congruence|done].
Qed.
Lemma find_none kind raw : findCheck raw kind = None -> kind ∉ map k_Kind raw.
Proof.
  unfold findCheck. induction raw as [|x raw IH]; cbn; [intros _; apply not_elem_of_nil|].
  destruct (bool_decide_reflect (k_Kind x = kind)); [done|]. intros H. rewrite not_elem_of_cons.
  split; [congruence|auto].
Qed.

Section Checks.
Context (enc : Encoding).

Lemma Digest_pattern value d : hash_law enc -> Digest enc value = Ok d -> digestPattern d = true.
Proof.
  intros Hash. unfold Digest, CanonicalJson.Digest. destruct (CanonicalJson.Canonicalize _ _); [|done]. intros [= <-].
  destruct (Hash s). by apply sha_digest_pattern.
Qed.

(** ** One check *)
(** A check as the store wants it, its tasks among [allowed], its owner one of
    them or [fallback]. *)
Definition bound_check (allowed : list string) (fallback : string) (k : CheckResult) : Prop :=
  knownStatus (k_Status k) = true /\ digestPattern (k_EvidenceSHA256 k) = true
  /\ IsZero (k_StartedAt k) = false /\ IsZero (k_CompletedAt k) = false
  /\ Before (k_CompletedAt k) (k_StartedAt k) = false
  /\ (forall t, t ∈ k_Tasks k -> t ∈ allowed)
  /\ (k_OwnerTaskID k = "" \/ k_OwnerTaskID k ∈ k_Tasks k \/ k_OwnerTaskID k = fallback).

Lemma contains_elem l t : containsString l t = true <-> t ∈ l.
Proof.
  unfold containsString. rewrite existsb_exists. setoid_rewrite bool_decide_eq_true.
  setoid_rewrite <- list_elem_of_In. naive_solver.
Qed.

Lemma first_seen_elem seen l t : t ∈ first_seen seen l -> t ∈ l.
Proof.
  revert seen. induction l as [|x l IH]; intros seen; cbn; [done|].
  destruct (_ || _); rewrite ?elem_of_cons; naive_solver.
Qed.

Lemma uniqueStrings_elem l t : t ∈ uniqueStrings l -> t ∈ l.
Proof. unfold uniqueStrings, sort_strings. rewrite sort_slice_Permutation. apply first_seen_elem. Qed.

Lemma validatedCheckTasks_elem provided candidates t :
  t ∈ validatedCheckTasks provided candidates -> t ∈ candidates.
Proof.
  unfold validatedCheckTasks. intros Ht%uniqueStrings_elem.
  destruct (List.filter (containsString candidates) provided) as [|x l] eqn:Hf; [done|].
  rewrite <- Hf in Ht. apply list_elem_of_In, List.filter_In in Ht as [_ Ht]. by apply contains_elem.
Qed.

Lemma candidateTaskIDs_perm cs : candidateTaskIDs cs ≡ₚ map c_TaskID cs.
Proof.
  unfold candidateTaskIDs, canonicalCandidates. rewrite cloneCandidates_id.
  rewrite (Permutation_map c_TaskID (sort_slice_Permutation candidate_before _)). by rewrite map_map.
Qed.

Lemma check_owner_bound v k :
  check_owner v k = "" \/ check_owner v k ∈ k_Tasks k \/ check_owner v k = v_OwnerTaskID v.
Proof.
  unfold check_owner. destruct (_ || _) eqn:Ho.
  - clear Ho. case_bool_decide; [|right; right; done]. destruct (k_Tasks k); cbn; [by left|right; left; by left].
  - go_bool. right; left. by apply contains_elem.
Qed.

Lemma check_times_bound now k :
  now <> 0 ->
  IsZero (k_StartedAt (check_times now k)) = false /\ IsZero (k_CompletedAt (check_times now k)) = false
  /\ Before (k_CompletedAt (check_times now k)) (k_StartedAt (check_times now k)) = false.
Proof.
  intros Hnow. unfold check_times, IsZero, Before. cbv zeta. cbn [k_StartedAt k_CompletedAt update].
  destruct (k_StartedAt k =? 0) eqn:Hs;
    match goal with |- context [(k_CompletedAt k =? 0) || ?c] => destruct (k_CompletedAt k =? 0) eqn:Hc, c eqn:Hb end;
    cbn [orb]; repeat match goal with |- context [if ?c then _ else _] => destruct c eqn:? end; lia.
Qed.

(** ** The suite *)
Definition keyed (m : gmap string CheckResult) : Prop := forall kind k, m !! kind = Some k -> k_Kind k = kind.

Lemma checks_by_kind_keyed raw m bad : keyed m -> keyed (fst (checks_by_kind m bad raw)).
Proof.
  revert m bad. induction raw as [|k raw IH]; intros m bad Hm; cbn; [done|].
  destruct (negb _); [by apply IH|]. destruct (m !! k_Kind k); [by apply IH|]. apply IH.
  intros kind x [[<- <-]|[_ Hx]]%lookup_insert_Some; [done|by apply Hm].
Qed.

(** The first of each kind is kept. *)
Lemma checks_by_kind_find raw m bad kind : validCheckKind kind = true ->
  fst (checks_by_kind m bad raw) !! kind = match m !! kind with Some c => Some c | None => findCheck raw kind end.
Proof.
  intros Hkind. revert m bad. induction raw as [|k raw IH]; intros m bad; cbn [checks_by_kind].
  { unfold findCheck. cbn. by destruct (m !! kind). }
  unfold findCheck in *. cbn [List.find].
  destruct (bool_decide_reflect (k_Kind k = kind)) as [Hk|Hk].
  - subst kind. rewrite Hkind. cbn [negb]. destruct (m !! k_Kind k) eqn:E; [by rewrite IH, E|].
    by rewrite IH, lookup_insert_eq.
  - destruct (negb _); [apply IH|]. destruct (m !! k_Kind k); [apply IH|]. by rewrite IH, lookup_insert_ne.
Qed.

Lemma checks_by_kind_bad raw m bad :
  snd (checks_by_kind m bad raw) = false <->
  bad = false /\ Forall (fun k => validCheckKind (k_Kind k) = true) raw /\ NoDup (map k_Kind raw) /\
  (forall k, k ∈ raw -> m !! k_Kind k = None).
Proof.
  revert m bad. induction raw as [|k raw IH]; intros m bad; cbn [checks_by_kind snd].
  { split; [|tauto]. intros ->. split_and!; [done|constructor|constructor|by intros k ?%not_elem_of_nil]. }
  rewrite Forall_cons. cbn [map]. rewrite NoDup_cons. destruct (validCheckKind (k_Kind k)) eqn:Hv; cbn [negb].
  2: { rewrite IH. split; [by intros [? _]|naive_solver]. }
  destruct (m !! k_Kind k) eqn:E.
  { rewrite IH. split; [by intros [? _]|]. intros (_ & _ & _ & Hno). rewrite Hno in E; [done|by left]. }
  rewrite IH. setoid_rewrite elem_of_cons. split.
  - intros (-> & ? & ? & Hno). split_and!; try done.
    + intros (x & Hx & Hin%list_elem_of_In)%list_elem_of_In%in_map_iff. specialize (Hno x Hin).
      rewrite Hx, lookup_insert_eq in Hno. done.
    + intros x [->|Hx]; [done|]. specialize (Hno x Hx). by apply lookup_insert_None in Hno as [? _].
  - intros (-> & [_ ?] & [Hn ?] & Hno). split_and!; try done. intros x Hx. apply lookup_insert_None.
    split; [by apply Hno; right|]. intros Heq. apply Hn. rewrite Heq. by apply list_elem_of_In, in_map, list_elem_of_In.
Qed.

Lemma findCheck_kind ks k : NoDup (map k_Kind ks) -> k ∈ ks -> findCheck ks (k_Kind k) = Some k.
Proof.
  induction ks as [|x ks IH]; intros Hnd Hk; [by apply not_elem_of_nil in Hk|].
  cbn in Hnd. apply NoDup_cons in Hnd as [Hni Hnd]. unfold findCheck. cbn.
  apply elem_of_cons in Hk as [->|Hk]; [by rewrite bool_decide_eq_true_2|].
  rewrite bool_decide_eq_false_2; [by apply IH|].
  intros Heq. apply Hni. rewrite Heq. apply list_elem_of_In, in_map, list_elem_of_In, Hk.
Qed.

Lemma required_NoDup : NoDup requiredCheckKinds.
Proof. apply (bool_decide_unpack _). by vm_compute. Qed.

Section Suite.
Context (v : VerifiedRequest) (commit : string) (now : time).

(** In order, when the hash and the clock are. *)
Definition bound (k : CheckResult) : Prop :=
  hash_law enc -> now <> 0 -> bound_check (candidateTaskIDs (v_Candidates v)) (v_OwnerTaskID v) k.

Lemma with_digest_ok k k' : with_digest enc v commit k = Ok k' ->
  exists d, (hash_law enc -> digestPattern d = true) /\ k' = k ⟦ k_EvidenceSHA256 := d ⟧.
Proof.
  unfold with_digest, normalizedCheckDigest. intros (d & Hd & [= <-])%rbind_ok. exists d. split; [|done].
  cbv zeta in Hd. apply rbind_ok in Hd as (value & _ & Hd). intros Hash. by eapply Digest_pattern.
Qed.

(** What is taken of the first check of a kind. *)
Definition taken (found : option CheckResult) (k : CheckResult) : Prop :=
  match found with
  | None => k_Status k = CheckError
  | Some c => if knownStatus (k_Status c)
              then k_Status k = k_Status c /\ k_Summary k = k_Summary c /\
                (digestPattern (k_EvidenceSHA256 c) = true -> k_EvidenceSHA256 k = k_EvidenceSHA256 c)
              else k_Status k = CheckError
  end.
Definition given (found : option CheckResult) : bool :=
  match found with Some c => knownStatus (k_Status c) | None => false end.

Lemma normalize_kind_ok m kind k bad :
  keyed m -> normalize_kind enc v commit now (candidateTaskIDs (v_Candidates v)) m kind = Ok (k, bad) ->
  k_Kind k = kind /\ bound k /\ taken (m !! kind) k /\ bad = negb (given (m !! kind)).
Proof.
  intros Hm. unfold normalize_kind. cbv zeta.
  set (check := default _ (m !! kind)).
  assert (Hk : k_Kind check = kind) by (subst check; destruct (m !! kind) eqn:Hx; [by apply Hm|done]).
  set (c1 := if negb _ then _ else check).
  assert (H1 : k_Kind c1 = kind /\ knownStatus (k_Status c1) = true).
  { subst c1. destruct (knownStatus (k_Status check)) eqn:Hs; cbn [negb]; done. }
  set (c2 := c1 ⟦ k_Tasks := _ ⟧). set (c3 := c2 ⟦ k_OwnerTaskID := _ ⟧).
  pose proof (check_times_bound now c3) as Ht. set (c4 := check_times now c3) in *.
  assert (H4 : forall d, (hash_law enc -> digestPattern d = true) -> bound (c4 ⟦ k_EvidenceSHA256 := d ⟧)).
  { intros d Hd Hash Hnow. destruct (Ht Hnow) as (? & ? & ?). split_and!; try done; [by apply H1|by apply Hd| |].
    - intros t. apply validatedCheckTasks_elem.
    - apply (check_owner_bound v c2). }
  assert (Htaken : forall d, (digestPattern (k_EvidenceSHA256 c1) = true -> d = k_EvidenceSHA256 c1) ->
    taken (m !! kind) (c4 ⟦ k_EvidenceSHA256 := d ⟧)).
  { intros d Hd. unfold taken. subst c4 c3 c2 c1 check. destruct (m !! kind) as [c|]; cbn in *; [|done].
    destruct (knownStatus (k_Status c)); cbn in *; done. }
  assert (Hbad : is_nil (m !! kind) || negb (knownStatus (k_Status check)) = negb (given (m !! kind))).
  { subst check. by destruct (m !! kind). }
  intros (k' & Hd & [= -> Hb])%rbind_ok. rewrite Hbad in Hb.
  destruct (digestPattern (k_EvidenceSHA256 c4)) eqn:He.
  - injection Hd as <-. split; [apply H1|]. specialize (H4 _ (fun _ => He)).
    specialize (Htaken (k_EvidenceSHA256 c4) ltac:(done)). by destruct c4.
  - apply with_digest_ok in Hd as (d & Hp & ->). split_and!; [apply H1|auto| |done].
    apply Htaken. change (k_EvidenceSHA256 c1) with (k_EvidenceSHA256 c4). congruence.
Qed.

Lemma normalize_kinds_ok m kinds ks bad :
  keyed m -> normalize_kinds enc v commit now (candidateTaskIDs (v_Candidates v)) m kinds = Ok (ks, bad) ->
  map k_Kind ks = kinds /\ Forall bound ks /\ Forall (fun k => taken (m !! k_Kind k) k) ks /\
  (bad = false <-> Forall (fun kind => given (m !! kind) = true) kinds).
Proof.
  intros Hm. revert ks bad. induction kinds as [|kind kinds IH]; intros ks bad; cbn [normalize_kinds].
  { intros [= <- <-]. split_and!; try constructor; done. }
  intros ([k b] & Hk & ([ks' b'] & Hks & [= <- <-])%rbind_ok)%rbind_ok. cbn.
  destruct (normalize_kind_ok _ _ _ _ Hm Hk) as (Hkk & Hb & Ht & ->), (IH _ _ Hks) as (-> & Hbs & Hts & Hbad).
  rewrite <- Hkk in *. rewrite orb_false_iff, negb_false_iff, Hbad.
  rewrite (Forall_cons (fun kind => given (m !! kind) = true)). split_and!; try done; by constructor.
Qed.

(** Marking the INTEGRATION check keeps the rest. *)
Definition marked (k k' : CheckResult) : Prop :=
  k' = k \/ k_Kind k = CheckIntegration /\ k_Kind k' = CheckIntegration /\ k_Status k' = CheckError.

Lemma fail_integration_ok summary ks ks' :
  Forall bound ks -> fail_integration enc v commit summary ks = Ok ks' ->
  map k_Kind ks' = map k_Kind ks /\ Forall bound ks' /\ Forall2 marked ks ks'
  /\ (CheckIntegration ∈ map k_Kind ks -> Exists (fun k => k_Status k <> CheckPassed) ks').
Proof.
  intros Hb. revert ks'. induction Hb as [|k ks Hk Hks IH]; intros ks'; cbn.
  - intros [= <-]. split_and!; [done|done|constructor|by intros H0%not_elem_of_nil].
  - case_bool_decide as Hkind.
    + intros (k' & (d & Hd & ->)%with_digest_ok & [= <-])%rbind_ok. split_and!; [done| | |].
      * constructor; [|done]. intros Hash Hnow. destruct (Hk Hash Hnow) as (_ & _ & Hrest).
        repeat split; try done; try by apply Hd. all: apply Hrest.
      * constructor; [by right|]. clear. induction ks; constructor; [by left|done].
      * intros _. by apply Exists_cons_hd.
    + intros (ks1 & Hks1 & [= <-])%rbind_ok. destruct (IH _ Hks1) as (Heq & Hb1 & Hmk & Hex). cbn. rewrite Heq.
      split_and!; [done|by constructor|constructor; [by left|done]|].
      intros [Hk1|Hin]%elem_of_cons; [by destruct Hkind|]. apply Exists_cons_tl. auto.
Qed.

Lemma marked_trans ks ks1 ks2 : Forall2 marked ks ks1 -> Forall2 marked ks1 ks2 -> Forall2 marked ks ks2.
Proof.
  intros H. revert ks2. induction H as [|k k1 ks ks1 Hk _ IH]; intros ks2; inversion 1; subst; constructor; auto.
  unfold marked in *. naive_solver.
Qed.
Lemma marked_refl ks : Forall2 marked ks ks.
Proof. induction ks; constructor; [by left|done]. Qed.

Lemma passed_forall ks : forallb (fun k => k_Status k ≟ CheckPassed) ks = true <-> Forall (fun k => k_Status k = CheckPassed) ks.
Proof. rewrite forallb_forall, Forall_forall. setoid_rewrite bool_decide_eq_true. by setoid_rewrite list_elem_of_In. Qed.

Lemma exists_not_passed ks : Exists (fun k => k_Status k <> CheckPassed) ks -> forallb (fun k => k_Status k ≟ CheckPassed) ks = false.
Proof.
  intros Hex. apply not_true_iff_false. rewrite passed_forall. intros Hall.
  apply Exists_exists in Hex as (k & Hk & Hne). by apply Hne, (proj1 (Forall_forall _ _) Hall).
Qed.

(** The suite is malformed unless the verifier's answer was complete. *)
Lemma complete_spec raw m bad bad' :
  checks_by_kind ∅ false raw = (m, bad) ->
  (bad' = false <-> Forall (fun kind => given (m !! kind) = true) requiredCheckKinds) ->
  bad || bad' = false <-> complete raw.
Proof.
  intros Hm Hbad'. pose proof (checks_by_kind_bad raw ∅ false) as Hbad. rewrite Hm in Hbad. cbn [snd] in Hbad.
  assert (Hfind : forall kind, kind ∈ requiredCheckKinds -> m !! kind = findCheck raw kind).
  { intros kind Hk. pose proof (checks_by_kind_find raw ∅ false kind) as Hf. rewrite Hm in Hf. cbn [fst] in Hf.
    rewrite lookup_empty in Hf. apply Hf. unfold validCheckKind. apply existsb_exists. exists kind.
    split; [by apply list_elem_of_In|]. by apply bool_decide_eq_true. }
  assert (Hvalid : forall kind, validCheckKind kind = true <-> kind ∈ requiredCheckKinds).
  { intros kind. unfold validCheckKind. rewrite existsb_exists. setoid_rewrite bool_decide_eq_true.
    setoid_rewrite <- list_elem_of_In. naive_solver. }
  rewrite orb_false_iff, Hbad, Hbad'. unfold complete. change ["COMPILE"; _; _; _; _] with requiredCheckKinds.
  rewrite !Forall_forall. split.
  - intros [(_ & Hv & Hnd & _) Hg]. split.
    + apply NoDup_Permutation; [done|apply required_NoDup|]. intros kind. split.
      * intros (c & <- & Hc%list_elem_of_In)%list_elem_of_In%in_map_iff. by apply Hvalid, Hv.
      * intros Hk. specialize (Hg kind Hk). rewrite Hfind in Hg by done.
        destruct (findCheck raw kind) as [c|] eqn:E; [|done]. apply find_first in E as (l1 & l2 & -> & <- & _).
        apply list_elem_of_In, in_map, list_elem_of_In. set_solver.
    + intros c Hc. apply known_status. specialize (Hv c Hc). apply Hvalid in Hv. specialize (Hg _ Hv).
      rewrite Hfind, findCheck_kind in Hg by done. done.
  - intros [Hp Hst]. assert (Hnd : NoDup (map k_Kind raw)) by (rewrite Hp; apply required_NoDup). split.
    + split_and!; [done| |done|by intros k _; apply lookup_empty]. intros c Hc. apply Hvalid. rewrite <- Hp.
      by apply list_elem_of_In, in_map, list_elem_of_In.
    + intros kind Hk. rewrite Hfind by done. rewrite <- Hp in Hk.
      apply list_elem_of_In, in_map_iff in Hk as (c & <- & Hc%list_elem_of_In).
      rewrite findCheck_kind by done. by apply known_status, Hst.
Qed.

(** What the normalised suite looks like. *)
Lemma normalize_checks_ok raw runErr checks passed :
  normalize_checks enc v commit now raw runErr = Ok (checks, passed) ->
  map k_Kind checks = requiredCheckKinds /\ Forall bound checks
  /\ Forall (fun k => taken (findCheck raw (k_Kind k)) k \/
       k_Kind k = CheckIntegration /\ k_Status k = CheckError /\ ~ (complete raw /\ runErr = None)) checks
  /\ (passed = true <-> (complete raw /\ runErr = None) /\ validCheckResults checks true = true).
Proof.
  unfold normalize_checks. cbv zeta. rewrite cloneChecks_id.
  pose proof (checks_by_kind_keyed raw ∅ false) as Hm.
  destruct (checks_by_kind ∅ false raw) as [m bad] eqn:Eraw. cbn [fst] in Hm.
  specialize (Hm ltac:(intros kind k H0; by rewrite lookup_empty in H0)).
  intros ([ks bad'] & Hks & (ks1 & H1 & (ks2 & H2 & [= <- <-])%rbind_ok)%rbind_ok)%rbind_ok. cbn [fst snd] in *.
  destruct (normalize_kinds_ok _ _ _ _ Hm Hks) as (Hkinds & Hb & Htaken & Hbad').
  pose proof (complete_spec raw m bad bad' Eraw Hbad') as Hcomplete.
  assert (Hmal : bad || bad' || negb (is_nil runErr) = false <-> complete raw /\ runErr = None).
  { rewrite orb_false_iff, Hcomplete, negb_false_iff. destruct runErr; cbn; split; intros [? ?]; split; done. }
  assert (Hone : map k_Kind ks1 = requiredCheckKinds /\ Forall bound ks1 /\ Forall2 marked ks ks1 /\
    (runErr = None -> ks1 = ks)).
  { destruct runErr as [err|]; [|injection H1 as <-; split_and!; [done|done|apply marked_refl|done]].
    destruct (fail_integration_ok _ _ _ Hb H1) as (-> & Hb1 & Hmk & _). done. }
  destruct Hone as (Hkinds1 & Hb1 & Hmk1 & Hsame).
  assert (Htwo : map k_Kind ks2 = requiredCheckKinds /\ Forall bound ks2 /\ Forall2 marked ks ks2 /\
    (bad || bad' || negb (is_nil runErr) = false -> ks2 = ks)).
  { destruct ((bad || bad' || negb (is_nil runErr)) && forallb _ ks1) eqn:Hall.
    - destruct (fail_integration_ok _ _ _ Hb1 H2) as (Hk2 & Hb2 & Hmk & _).
      split_and!; [congruence|done|by eapply marked_trans|]. intros E. by rewrite E in Hall.
    - injection H2 as <-. split_and!; [done|done|done|]. intros E. apply Hsame. by apply Hmal. }
  destruct Htwo as (Hk2 & Hb2 & Hmk2 & Hsame2). split_and!; [done|done| |].
  - assert (Hraw : Forall (fun k => taken (findCheck raw (k_Kind k)) k) ks).
    { rewrite Forall_forall in Htaken |- *. intros k Hk. specialize (Htaken k Hk).
      pose proof (checks_by_kind_find raw ∅ false (k_Kind k)) as Hf. rewrite Eraw, lookup_empty in Hf.
      cbn [fst] in Hf. rewrite <- Hf; [done|]. unfold validCheckKind. apply existsb_exists. exists (k_Kind k).
      split; [|by apply bool_decide_eq_true]. rewrite <- Hkinds. by apply in_map, list_elem_of_In. }
    destruct (bad || bad' || negb (is_nil runErr)) eqn:E.
    + assert (Hnot : ~ (complete raw /\ runErr = None)) by (by rewrite <- Hmal).
      clear - Hraw Hmk2 Hnot. induction Hmk2 as [|k k2 ks ks2 Hk _ IH]; [constructor|].
      apply Forall_cons in Hraw as [Hk0 Hraw]. constructor; [|by apply IH].
      destruct Hk as [->|(_ & ? & ?)]; [by left|right; auto].
    + rewrite Hsame2 by done. eapply Forall_impl; [exact Hraw|]. by left.
  - by rewrite andb_true_iff, negb_true_iff, Hmal.
Qed.

(** ** The store's validator on a bound suite *)
Lemma bound_wellformed allowed seen ks :
  Forall (bound_check allowed "") ks -> NoDup (map k_Kind ks) -> (forall k, k ∈ ks -> k_Kind k ∉ seen) ->
  (forall k, k ∈ ks -> validCheckKind (k_Kind k) = true) -> checks_wellformed seen ks = true.
Proof.
  intros Hb. revert seen. induction Hb as [|k ks Hk _ IH]; intros seen Hnd Hseen Hkind; [done|].
  cbn in Hnd. apply NoDup_cons in Hnd as [Hni Hnd]. destruct Hk as (Hs & Hd & H1 & H2 & H3 & _ & Ho).
  cbn [checks_wellformed]. rewrite Hkind by (by left). rewrite Hs. cbn [negb orb].
  rewrite bool_decide_eq_false_2 by (apply Hseen; by left). rewrite Hd, H1, H2, H3. cbn [negb orb].
  assert (Howner : (k_OwnerTaskID k ≠? "") && negb (containsString (k_Tasks k) (k_OwnerTaskID k)) = false).
  { apply andb_false_iff. destruct Ho as [->|[Ho|Ho]]; [by left|right|rewrite Ho; by left].
    apply negb_false_iff. by apply contains_elem. }
  rewrite Howner. apply IH; [done| |].
  - intros x Hx. rewrite not_elem_of_union, not_elem_of_singleton. split; [|apply Hseen; by right].
    intros Heq. apply Hni. rewrite <- Heq. apply list_elem_of_In, in_map, list_elem_of_In, Hx.
  - intros x Hx. apply Hkind. by right.
Qed.
End Suite.

(** ** The verdict *)
Lemma all_passed_spec ks : map k_Kind ks = requiredCheckKinds ->
  all_passed ks = true <-> Forall (fun k => k_Status k = CheckPassed) ks.
Proof.
  intros Hk. pose proof required_NoDup as Hnd. rewrite <- Hk in Hnd.
  unfold all_passed. rewrite forallb_forall, Forall_forall, <- Hk. setoid_rewrite in_map_iff. split.
  - intros Hall k Hin. specialize (Hall (k_Kind k) ltac:(exists k; split; [done|by apply list_elem_of_In])).
    rewrite findCheck_kind in Hall by done. by go_bool.
  - intros Hall kind (k & <- & Hin%list_elem_of_In). rewrite findCheck_kind by done.
    apply bool_decide_eq_true. auto.
Qed.

Lemma bound_valid allowed ks : map k_Kind ks = requiredCheckKinds -> Forall (bound_check allowed "") ks ->
  validCheckResults ks false = true
  /\ (validCheckResults ks true = true <-> Forall (fun k => k_Status k = CheckPassed) ks).
Proof.
  intros Hk Hb. pose proof required_NoDup as Hnd. rewrite <- Hk in Hnd.
  assert (Hw : checks_wellformed ∅ ks = true).
  { apply (bound_wellformed allowed); [done|done|set_solver|]. intros k Hin.
    assert (Hreq : k_Kind k ∈ requiredCheckKinds) by (rewrite <- Hk; apply list_elem_of_In, in_map, list_elem_of_In, Hin).
    unfold validCheckKind. apply existsb_exists. exists (k_Kind k). split; [by apply list_elem_of_In|].
    by apply bool_decide_eq_true. }
  unfold validCheckResults. destruct ks as [|k ks]; [done|]. rewrite Hw. cbn [negb]. split; [done|].
  rewrite <- all_passed_spec by done. apply (f_equal length) in Hk. rewrite length_map in Hk. rewrite Hk. done.
Qed.
End Checks.

Lemma bound_well_formed candidates k :
  bound_check (candidateTaskIDs candidates) "" k -> well_formed (map c_TaskID candidates) k.
Proof.
  intros (Hs & Hd & H1 & H2 & H3 & Ht & Ho). unfold IsZero, Before in *. split.
  - by apply known_status.
  - by apply digest_pattern_text.
  - lia.
  - intros t Hin. rewrite <- (candidateTaskIDs_perm). by apply Ht.
  - tauto.
Qed.

Lemma taken_reported raw k : taken (findCheck raw (k_Kind k)) k -> reported raw k.
Proof.
  unfold taken. destruct (findCheck raw (k_Kind k)) as [c|] eqn:E; [apply find_first in E|apply find_none in E].
  - destruct (knownStatus (k_Status c)) eqn:Hs.
    + apply known_status in Hs. intros (? & ? & ?). by eapply reported_as.
    + intros Herr. eapply reported_invalid; [exact E| |exact Herr]. intros Hin%known_status. congruence.
  - intros Herr. by apply reported_missing.
Qed.

(** In a complete answer the checks passed as the verifier says. *)
Lemma taken_passed raw checks :
  complete raw -> map k_Kind checks = requiredCheckKinds ->
  Forall (fun k => taken (findCheck raw (k_Kind k)) k) checks ->
  Forall (fun k => k_Status k = CheckPassed) checks <-> Forall (fun c => k_Status c = "PASS") raw.
Proof.
  intros [Hp Hst] Hk Hsaid. change ["COMPILE"; _; _; _; _] with requiredCheckKinds in Hp.
  assert (Hnd : NoDup (map k_Kind raw)) by (rewrite Hp; apply required_NoDup).
  assert (Hstatus : forall k c, k ∈ checks -> c ∈ raw -> k_Kind k = k_Kind c -> k_Status k = k_Status c).
  { intros k c Hin Hc Heq. pose proof (proj1 (Forall_forall _ _) Hsaid k Hin) as Ht. cbn in Ht.
    rewrite Heq, findCheck_kind in Ht by done. unfold taken in Ht.
    rewrite (proj2 (known_status _)) in Ht; [by destruct Ht|]. by apply (proj1 (Forall_forall _ _) Hst). }
  rewrite !Forall_forall. split.
  - intros H c Hc. assert (Hin : k_Kind c ∈ map k_Kind checks).
    { rewrite Hk, <- Hp. by apply list_elem_of_In, in_map, list_elem_of_In. }
    apply list_elem_of_In, in_map_iff in Hin as (k & Heq & Hin%list_elem_of_In).
    rewrite <- (Hstatus k c Hin Hc Heq). by apply H.
  - intros H k Hin. assert (Hc : k_Kind k ∈ map k_Kind raw).
    { rewrite Hp, <- Hk. by apply list_elem_of_In, in_map, list_elem_of_In. }
    apply list_elem_of_In, in_map_iff in Hc as (c & Heq & Hc%list_elem_of_In).
    rewrite (Hstatus k c Hin Hc (eq_sym Heq)). by apply H.
Qed.
(** A suite that passed is a complete answer without an error, all passed. *)
Lemma passed_raw enc v commit now raw runErr checks :
  normalize_checks enc v commit now raw runErr = Ok (checks, true) ->
  complete raw /\ runErr = None /\ Forall (fun c => k_Status c = "PASS") raw /\
  map k_Kind checks = requiredCheckKinds /\ Forall (fun k => k_Status k = CheckPassed) checks.
Proof.
  intros Hn. destruct (normalize_checks_ok enc v commit _ _ _ _ _ Hn) as (Hk & _ & Hsaid & Hpass).
  destruct (proj1 Hpass eq_refl) as [[Hc Herr] Hv].
  assert (Hall : Forall (fun k => k_Status k = CheckPassed) checks).
  { apply (all_passed_spec checks Hk). unfold validCheckResults in Hv. destruct checks as [|k checks]; [done|].
    destruct (negb _) in Hv; [done|]. by apply andb_true_iff in Hv as [_ Hv]. }
  split_and!; try done. apply (taken_passed raw checks Hc Hk); [|done].
  eapply Forall_impl; [exact Hsaid|]. cbn. tauto.
Qed.

(** C30: On the first merge of an integration, whatever the verifier answers is
    turned into exactly the five required checks in their order, each well
    formed - a known status, a SHA-256 digest, times in order, tasks of the
    candidates and an owner among them - so that the store accepts them.  Each
    check says what the verifier said of its kind first: the same status and
    summary, its digest when it gave one, and an error when it said nothing or
    gave no status; only the INTEGRATION check is also an error when the answer
    as a whole was not complete or came with an error.  And the suite passes if
    and only if the verifier answered without an error, with one check of each
    required kind and no other, all of them passed. *)
Theorem checks_normalized enc `{Collaborators E} v commit raw runErr e e' checks passed :
  hash_law enc -> snd (clock e) <> 0 -> v_OwnerTaskID v = "" ->
  normalizeCheckResults enc v commit raw runErr e = (e', Ok (checks, passed)) ->
  map k_Kind checks = ["COMPILE"; "CONTRACT"; "INTEGRATION"; "E2E"; "MIGRATION"]
  /\ Forall (well_formed (map c_TaskID (v_Candidates v))) checks
  /\ validCheckResults checks false = true
  /\ (forall k, k ∈ checks -> reported raw k \/
       k_Kind k = "INTEGRATION" /\ k_Status k = "ERROR" /\ ~ (complete raw /\ runErr = None))
  /\ (passed = true <-> complete raw /\ runErr = None /\ Forall (fun c => k_Status c = "PASS") raw).
Proof.
  intros Hash Hnow Howner. unfold normalizeCheckResults. rewrite bind_run. intros [= _ Hn].
  destruct (normalize_checks_ok enc v commit _ _ _ _ _ Hn) as (Hk & Hbound & Hsaid & Hpass).
  assert (Hb : Forall (bound_check (candidateTaskIDs (v_Candidates v)) "") checks).
  { rewrite <- Howner. eapply Forall_impl; [exact Hbound|]. intros k Hkb. by apply Hkb. }
  destruct (bound_valid _ _ Hk Hb) as [Hv Hall].
  split_and!; [done| |done| |].
  - eapply Forall_impl; [exact Hb|]. intros k Hkb. by apply bound_well_formed.
  - intros k Hin. destruct (proj1 (Forall_forall _ _) Hsaid k Hin) as [Ht|Ht]; [left|by right].
    by apply taken_reported.
  - rewrite Hpass, Hall. split.
    + intros [[Hc Herr] H1]. split_and!; [done|done|]. apply (taken_passed raw checks Hc Hk); [|done].
      eapply Forall_impl; [exact Hsaid|]. cbn. tauto.
    + intros (Hc & Herr & H1). split; [done|]. apply (taken_passed raw checks Hc Hk); [|done].
      eapply Forall_impl; [exact Hsaid|]. cbn. tauto.
Qed.
End QueueChecks.
