(* ===== verification/QueueSafety.v ===== *)
(** The properties of the integration queue, over every behaviour of the gate,
    the executor, the verifier and the clock; and a small concrete world. *)

From S2P Require Import Prelude GoLib Runs Contracts EventStore Integration IntegrationProps Queue QueueAudit QueueProps QueueChecks.

Module QueueSafety.
Import Integration IntegrationProps Queue QueueAudit QueueProps QueueChecks.

(** ** A concrete world: one candidate, a gate that vouches for it, an executor
    with a book of merged commits. *)
Record ex_env : Type := mkEx {
  ex_now : time;
  ex_merge : Prelude.result string error;
  ex_book : option string;
  ex_suite : list CheckResult * option error
}.

Definition ex_digest : string := "sha256:0123456789abcdef0123456789abcdef0123456789abcdef0123456789abcdef".
Definition ex_commit : string := "0123456789abcdef0123456789abcdef01234567".

#[export] Instance ex_collaborators : Collaborators ex_env := {
  clock := fun e => (e, ex_now e);
  range := fun m e => (e, map_to_list m);
  gate_Validate := fun q e => (e, Ok (mkVerifiedRequest (q_TenantID q) (q_ProjectID q) (q_IntegrationID q)
    (q_BaseCommit q) (q_Candidates q) (q_PolicyDigest q) (q_ExpectedVersion q) (q_PrincipalID q) (q_LeaseID q)
    (q_FencingToken q) ex_digest (q_OwnerTaskID q) (q_Attempt q)));
  executor_Merge := fun _ _ _ e => (mkEx (ex_now e) (ex_merge e)
    (match ex_merge e with Ok commit => Some commit | Err _ => ex_book e end) (ex_suite e), ex_merge e);
  executor_Lookup := fun _ e => (e, Ok (ex_book e));
  verifier_Verify := fun _ e => (e, ex_suite e)
}.

#[export] Instance ex_range : RangeLaw ex_env.
Proof. by intros m e. Qed.

Definition ex_enc : Encoding := mkEncoding
  (fun v => Ok (aw_IntegrationID v +:+ aw_OwnerTaskID v)) (fun v => Ok (rw_IdempotencyKey v +:+ rw_OwnerTaskID v))
  (fun v => Ok (k_Kind (cw_Check v))) Some
  (fun value => take 32 (map byte_of (bytes value) ++ replicate 32 0)) ToLower.

Definition ex_candidate (task path : string) : Candidate :=
  mkCandidate task ("module-" +:+ task) ex_commit (mkSpecRef 1 ex_digest)
    [path] ["Api-" +:+ task] ex_digest true.

Definition ex_request (owner : string) (attempt : Z) : Request :=
  mkRequest "t" "p" "i" "key" ex_commit [ex_candidate "T2" "b"; ex_candidate "T1" "a"] ex_digest 1 100 "service" "lease" 7
    owner attempt.

Definition ex_world : ex_env := mkEx 200 (Ok ex_commit) None ([], None).

Definition ex_check (kind : CheckKind) : CheckResult :=
  mkCheckResult kind CheckPassed ex_digest "ok" "" ["T2"] 150 160.
Definition ex_suite_passed : list CheckResult := map ex_check requiredCheckKinds.
Definition ex_checked : ex_env := mkEx 200 (Ok ex_commit) None (ex_suite_passed, None).
Definition ex_crashed : ex_env := mkEx 200 (Err (External "timeout")) None ([], None).

Example ex_valid : validateRequest (ex_request "" 0) = true.
Proof. vm_eq. Qed.
Example ex_merges : snd (snd (Merge ex_enc (ex_request "" 0) (NewMemoryStore, ex_world))) = None.
Proof. vm_eq. Qed.
Example ex_merges_checked : snd (snd (MergeWithChecks ex_enc (ex_request "" 0) (NewMemoryStore, ex_checked))) = None.
Proof. vm_eq. Qed.

(** What was merged without checks is answered without checks. *)
Definition ex_merged_again := MergeWithChecks ex_enc (ex_request "" 0)
  (fst (Merge ex_enc (ex_request "" 0) (NewMemoryStore, ex_checked))).
Example ex_merged_before : (snd (snd ex_merged_again), m_Duplicate (fst (snd ex_merged_again)),
  m_Checks (fst (snd ex_merged_again))) = (None, true, []).
Proof. vm_compute. reflexivity. Qed.

(** The passing suite, at a rework attempt owned by T1: refused, and the
    reservation stays pending. *)
Definition ex_rework_store : MemoryStore :=
  let audit := mkAudit "i" "p" ex_commit [] [blocking "merge-conflict" "MERGE" "" ["T1"]] [] ex_digest false 5 in
  let conflict := mkMergeResult "t" "i" "p" "T1" 0 "" "" audit [] [] false false "" 0 in
  perform (perform NewMemoryStore (DoRecordConflict conflict)) (DoStartAttempt (mkStartAttemptRequest "t" "p" "i" "T1" 1 1)).

Definition ex_rework_merge := MergeWithChecks ex_enc (ex_request "T1" 1) (ex_rework_store, ex_checked).
Example ex_stuck :
  (snd (snd ex_rework_merge), phase_at (fst (fst ex_rework_merge)) (request_key (ex_request "T1" 1)))
  = (Some (Join ErrChecksFailed ErrInvalidRequest), Some (TaskMergeReserved, 1)).
Proof. vm_eq. Qed.

(** ** The properties *)

(** C31: Whatever the gate, the executor, the verifier and the clock do, and in
    whatever order merges and attempts are asked for, the books of the queue
    stay in order: the store is the result of a run of store commands (so every
    record follows the lifecycle); a record is pending exactly while its merge
    is reserved; a reserved or finished merge carries a request digest and a
    passed audit of candidates that can stand together; a finished one a
    well-formed commit and no check that did not pass; and a record in any
    other state carries no merge. *)
Theorem queue_keeps_books enc `{RangeLaw E} (e0 : E) w :
  rtc (operation enc) (NewMemoryStore, e0) w ->
  books enc (fst w) /\ exists cs, run command_step NewMemoryStore cs (fst w).
Proof. intros Hrun. apply (reached_books enc _ _ Hrun). apply new_books. Qed.

(** A merge touches one record: the store after it is the store before it
    with at most two commands on the record of the request's tenant and
    integration. *)
Theorem merge_local enc `{Collaborators E} request checked s e s' e' a key :
  merge enc request checked (s, e) = ((s', e'), a) ->
  (exists cs, run command_step s cs s' /\ Forall (fun c => subject c = request_key request) cs /\ (length cs <= 2)%nat)
  /\ (store_wf s -> key <> request_key request -> s' !! key = s !! key).
Proof.
  intros Hm%merge_outcome. destruct (outcome_runs _ _ _ _ _ _ Hm) as (cs & Hrun & Hsub & Hlen).
  split; [eauto|]. intros Hwf Hne. by eapply run_frame.
Qed.

(** Candidates that agree: the same up to their order and that of their paths
    and interfaces. *)
Definition same_candidate (c d : Candidate) : Prop :=
  c_TaskID c = c_TaskID d /\ c_ModuleID c = c_ModuleID d /\ c_SubmissionCommit c = c_SubmissionCommit d /\
  c_ModuleSpecRef c = c_ModuleSpecRef d /\ c_OwnedPaths c ≡ₚ c_OwnedPaths d /\
  c_PublicInterfaces c ≡ₚ c_PublicInterfaces d /\ c_EvidenceSHA256 c = c_EvidenceSHA256 d /\
  c_AuditPassed c = c_AuditPassed d.
Definition same_candidates (cs ds : list Candidate) : Prop :=
  exists cs', cs ≡ₚ cs' /\ Forall2 same_candidate cs' ds.

Lemma matches_candidates request v :
  requestMatchesVerified request v = true -> same_candidates (v_Candidates v) (q_Candidates request).
Proof.
  unfold requestMatchesVerified. intros Hm. go_bool.
  match goal with Heq : canonicalCandidates _ = canonicalCandidates _ |- _ => rename Heq into Hc end.
  unfold canonicalCandidates in Hc. rewrite !cloneCandidates_id in Hc.
  match type of Hc with sort_slice _ (map ?f _) = _ => set (norm := f) in Hc end.
  assert (Hp : map norm (q_Candidates request) ≡ₚ map norm (v_Candidates v)).
  { rewrite <- (sort_slice_Permutation candidate_before (map norm (q_Candidates request))), Hc.
    by rewrite sort_slice_Permutation. }
  apply Permutation_map_inv in Hp as (cs' & Heq & Hp). exists cs'. split; [done|].
  assert (Hsort : forall l l', sort_strings l = sort_strings l' -> l ≡ₚ l').
  { intros l l' Hl. unfold sort_strings in Hl. by rewrite <- (sort_slice_Permutation String.ltb l), Hl, sort_slice_Permutation. }
  assert (Hnorm : forall c d, norm d = norm c -> same_candidate c d).
  { intros [] []. unfold norm, same_candidate. cbn. intros [=]. split_and!; try done; by apply Hsort. }
  clearbody norm. clear - Heq Hnorm. revert Heq. generalize (q_Candidates request) as ds.
  induction cs' as [|c cs' IH]; intros [|d ds]; cbn [map]; try done. intros [= Hn Heq].
  constructor; [by apply Hnorm|by apply IH].
Qed.

(** The result of a merge is the integration of the request: its candidates,
    merged by the executor onto its base under its execution - or found in the
    executor's books under that execution - and, when there are checks, these
    are the five required ones, all passed, and the verifier had answered on
    this commit, base and candidates with each of them once, all passed. *)
Definition integrated (request : Request) (r : MergeResult) `{Collaborators E} : Prop :=
  commitID (m_Commit r) = true /\ same_candidates (m_Candidates r) (q_Candidates request) /\
  executed request (m_Commit r) /\
  (m_Checks r = [] \/
   map k_Kind (m_Checks r) = ["COMPILE"; "CONTRACT"; "INTEGRATION"; "E2E"; "MIGRATION"] /\
   Forall (fun k => k_Status k = "PASS") (m_Checks r) /\
   exists input raw e e', verifier_Verify input e = (e', (raw, None)) /\
     vi_IntegrationCommit input = m_Commit r /\ vi_BaseCommit input = q_BaseCommit request /\
     same_candidates (vi_Candidates input) (q_Candidates request) /\
     complete raw /\ Forall (fun k => k_Status k = "PASS") raw).

Lemma integrates_spec enc `{Collaborators E} request r :
  commitID (m_Commit r) = true -> integrates enc request r -> integrated request r.
Proof.
  intros Hc (Hx & (v & Hm & Hcs & _) & Hk). split_and!; [done| |done|].
  - rewrite Hcs. by apply matches_candidates.
  - destruct Hk as [?|(w & now & raw & runErr & e & e' & Hw & Hv & Hn)]; [by left|right].
    destruct (passed_raw _ _ _ _ _ _ _ Hn) as (Hcomp & -> & Hraw & Hkinds & Hall). split_and!; [done|done|].
    eexists _, raw, e, e'. split_and!; [exact Hv|done| | |done|done].
    + by apply matches_execution in Hw as [? _].
    + by apply matches_candidates.
Qed.

(** The two ways a merge succeeds. *)
Lemma done_before_spec enc `{Collaborators E} s request r :
  books enc s -> done_before enc s request r ->
  (exists rec, s !! request_key request = Some rec /\ t_State (task rec) = TaskDone)
  /\ exists earlier v, request_key earlier = request_key request
       /\ requestDigest enc earlier v = Ok (m_RequestDigest r) /\ integrated earlier r.
Proof.
  intros Hs (rec & earlier & Hl & Hdone & -> & Hkey & Hint). split; [eauto|].
  destruct (Hs _ _ Hl) as (_ & _ & Hfin & _). destruct (Hfin Hdone) as [Hc _].
  pose proof Hint as (_ & (v & _ & _ & Hd) & _). exists earlier, v. split_and!; [done|done|].
  apply (integrates_spec enc _ (result rec) Hc Hint).
Qed.
Lemma checked_exactly enc `{Collaborators E} request commit checked checks :
  checked_ok enc request commit checked checks -> checked = true <-> checks <> [].
Proof. intros [[-> ->]|[-> Hv]]%checked_valid; split; try done. by intros _ ->. Qed.

(** C5: A merge that returns no error has integrated exactly what was verified
    and audited.  The gate vouched for the request as it is, and the candidates
    it vouched for have passing evidence and pairwise disjoint ownership; the
    record of the integration is DONE and holds the answer, under the lease and
    fencing token of the request and the digest of what was verified.  Either
    this merge finished it: the answer is the integration of the request
    ([integrated]) - the commit the executor answered for the submitted commits
    of exactly its candidates on its base - and there are checks, five and all
    passed, if and only if the caller asked for them.  Or it was DONE before:
    the store does not change, the answer is marked as a duplicate, and it is
    the integration of an earlier request with the same key and digest - with
    the checks that one asked for, so with none if it asked for none. *)
Theorem merge_success enc `{RangeLaw E} request checked s e s' e' r :
  books enc s -> merge enc request checked (s, e) = ((s', e'), (r, None)) ->
  (exists v e1 e1', gate_Validate (cloneRequest request) e1 = (e1', Ok v)
     /\ v_BaseCommit v = q_BaseCommit request /\ same_candidates (v_Candidates v) (q_Candidates request)
     /\ separated enc (v_Candidates v) /\ requestDigest enc request v = Ok (m_RequestDigest r))
  /\ (exists rec, s' !! request_key request = Some rec /\ t_State (task rec) = TaskDone
        /\ result rec = r ⟦ m_Duplicate := m_Duplicate (result rec) ⟧)
  /\ au_Passed (m_Audit r) = true
  /\ m_LeaseID r = q_LeaseID request /\ m_FencingToken r = q_FencingToken request
  /\ (integrated request r /\ (checked = true <-> m_Checks r <> [])
      \/ s' = s /\ m_Duplicate r = true
         /\ (exists rec, s !! request_key request = Some rec /\ t_State (task rec) = TaskDone)
         /\ exists earlier v, request_key earlier = request_key request
              /\ requestDigest enc earlier v = Ok (m_RequestDigest r) /\ integrated earlier r).
Proof.
  intros Hs Hm%merge_outcome. pose proof (outcome_books _ _ _ _ _ _ Hs Hm) as Hs'.
  destruct (outcome_settled _ _ _ _ _ _ Hs Hm) as (v & audit & e0 & e0' & e1 & e1' & Hv & Ha & Hset & Hck).
  destruct Hset as (Hd & Hp & _ & Hl1 & Hl2 & rec & Hl & Hdone & _ & Heq).
  destruct (verified_ok _ _ _ _ Hv) as (_ & _ & Hmatch & e2 & Hg).
  destruct (Hs' _ _ Hl) as (_ & Hmerge & Hfinal & _).
  destruct (Hmerge (or_intror Hdone)) as [_ [Hpass _]]. destruct (Hfinal Hdone) as [Hc _].
  rewrite Heq in Hc, Hpass. cbn in Hc, Hpass. split; [|split; [eauto|]].
  - exists v, e2, e0'. split_and!; [done|by apply matches_execution in Hmatch as [? _]| | |done].
    + by apply matches_candidates.
    + by eapply passed_iff.
  - split; [done|]. unfold requestMatchesVerified in Hmatch. go_bool. split; [congruence|]. split; [congruence|].
    destruct Hck as [(Hsame & Hdup & Hbefore)|(Hint & _ & Hck)]; [right|left].
    + split; [done|]. split; [done|]. by apply (done_before_spec enc s request r Hs).
    + split; [by eapply integrates_spec|]. by apply (checked_exactly enc request (m_Commit r)).
Qed.

(** C32: Merging is idempotent: once a merge has succeeded, the same request
    gets the same answer again, marked as a duplicate, from the store alone -
    the store does not change, and neither executor nor verifier is called -
    as long as the gate keeps its one answer for the request. *)
Theorem merge_idempotent enc `{RangeLaw E} request checked s e s' e' r checked' e2 e3 v :
  books enc s ->
  (forall e1 e1' v1 e2 e2' v2, verify request e1 = (e1', Ok v1) -> verify request e2 = (e2', Ok v2) -> v1 = v2) ->
  merge enc request checked (s, e) = ((s', e'), (r, None)) ->
  verify request e2 = (e3, Ok v) ->
  merge enc request checked' (s', e2)
  = ((s', fst (auditVerified enc v e3)), (r ⟦ m_Duplicate := true ⟧, None)).
Proof.
  intros Hs Hgate Hm%merge_outcome Hv2.
  destruct (outcome_settled _ _ _ _ _ _ Hs Hm) as (v1 & audit & e0 & e0' & e1 & e1' & Hv & Ha & Hset & _).
  rewrite (Hgate _ _ _ _ _ _ Hv Hv2) in *. by eapply merge_settled.
Qed.

(** C33: An interrupted merge can be finished: when a merge leaves its record
    reserved - a crash, a lost answer of the executor, a refused last
    verification - and the gate keeps vouching for the request while the
    executor's book holds the commit of this execution, the next merge returns
    that commit without error, and the record is DONE.  Nothing is merged
    twice: the executor is only asked. *)
Theorem interrupted_merge_finishes enc `{RangeLaw E} request checked s0 e0 s e a v commit later e2 :
  books enc s0 -> ~ reserved_at s0 (request_key request) ->
  merge enc request checked (s0, e0) = ((s, e), a) -> reserved_at s (request_key request) ->
  (forall e1 e1' v1 e2 e2' v2, verify request e1 = (e1', Ok v1) -> verify request e2 = (e2', Ok v2) -> v1 = v2) ->
  steady enc later request v commit -> later e2 -> commitID commit = true -> Z.of_nat (length (v_Candidates v)) <= 1024 ->
  exists s' e' r rec, Merge enc request (s, e2) = ((s', e'), (r, None)) /\ m_Commit r = commit
    /\ s' !! request_key request = Some rec /\ t_State (task rec) = TaskDone /\ m_Commit (result rec) = commit.
Proof.
  intros Hs Hno Hm%merge_outcome Hres Hone Hsteady Hlater Hc Hn.
  pose proof (outcome_books _ _ _ _ _ _ Hs Hm) as Hs1.
  destruct (outcome_unfinished _ _ _ _ _ _ Hs Hno Hm Hres) as (w & audit & ea & ea' & e1 & e1' & Hv & Ha & Hun).
  assert (w = v) as -> by (destruct (proj1 Hsteady e2 Hlater) as (? & Hv' & _); by eapply Hone).
  destruct (merge_unfinished _ _ _ _ _ _ _ _ _ Hun Ha Hsteady Hc Hn e2 Hlater) as (s' & e' & r & Hm2 & Hr).
  destruct (outcome_settled _ _ _ _ _ _ Hs1 (merge_outcome _ _ _ _ _ _ _ _ Hm2))
    as (? & ? & ? & ? & ? & ? & _ & _ & (_ & _ & _ & _ & _ & rec & Hl & Hdone & _ & Heq) & _).
  exists s', e', r, rec. repeat split; try done. by rewrite Heq.
Qed.

(** ** Witnesses *)

(** What a fallible call answered, and its run, without evaluating them. *)
Definition answer {A X} (d : A) (r : Prelude.result A X) : A := match r with Ok a => a | Err _ => d end.
Lemma answered {A B X} (d : B) (w : A * Prelude.result B X) :
  is_ok (snd w) = true -> w = (fst w, Ok (answer d (snd w))).
Proof. by destruct w as [a [b|x]]. Qed.

Lemma run_parts {A B C} (w : (A * B) * (C * option error)) err :
  snd (snd w) = err -> w = ((fst (fst w), snd (fst w)), (fst (snd w), err)).
Proof. intros <-. by destruct w as [[a b] [c d]]. Qed.

Definition ex_merged := Merge ex_enc (ex_request "" 0) (NewMemoryStore, ex_world).
Definition ex_merged_checked := MergeWithChecks ex_enc (ex_request "" 0) (NewMemoryStore, ex_checked).
Definition ex_verified : VerifiedRequest :=
  mkVerifiedRequest "t" "p" "i" ex_commit [ex_candidate "T2" "b"; ex_candidate "T1" "a"] ex_digest 1 "service"
    "lease" 7 ex_digest "" 0.
Definition ex_later : ex_env := mkEx 900 (Ok ex_commit) None ([], None).
Definition ex_audit (e : ex_env) : Integration.Audit := answer zeroAudit (snd (auditVerified ex_enc ex_verified e)).

Lemma ex_audits e : is_ok (snd (auditVerified ex_enc ex_verified e)) = true ->
  auditVerified ex_enc ex_verified e = (fst (auditVerified ex_enc ex_verified e), Ok (ex_audit e)).
Proof. apply answered. Qed.

Lemma ex_gate e1 e1' v1 e2 e2' v2 :
  verify (E := ex_env) (ex_request "" 0) e1 = (e1', Ok v1) -> verify (ex_request "" 0) e2 = (e2', Ok v2) -> v1 = v2.
Proof.
  intros (_ & _ & _ & e3 & H1)%verified_ok (_ & _ & _ & e4 & H2)%verified_ok.
  cbn [gate_Validate ex_collaborators] in H1, H2. congruence.
Qed.

Lemma present {A} (d : A) (o : option A) : is_nil o = false -> o = Some (default d o).
Proof. by destruct o. Qed.

Lemma queue_keeps_books_witness :
  rtc (operation ex_enc) (NewMemoryStore, ex_world) (fst ex_merged)
  /\ books ex_enc (fst (fst ex_merged)) /\ exists cs, run command_step NewMemoryStore cs (fst (fst ex_merged)).
Proof.
  assert (Hrun : rtc (operation ex_enc) (NewMemoryStore, ex_world) (fst ex_merged)) by apply rtc_once, merges.
  split; [exact Hrun|]. apply (queue_keeps_books ex_enc ex_world _ Hrun).
Defined.

Lemma merge_local_witness :
  (exists cs, run command_step NewMemoryStore cs (fst (fst ex_merged))
     /\ Forall (fun c => subject c = request_key (ex_request "" 0)) cs /\ (length cs <= 2)%nat)
  /\ fst (fst ex_merged) !! "other" = None.
Proof.
  assert (Hm : merge ex_enc (ex_request "" 0) false (NewMemoryStore, ex_world)
               = ((fst (fst ex_merged), snd (fst ex_merged)), snd ex_merged)).
  { change (merge ex_enc (ex_request "" 0) false (NewMemoryStore, ex_world)) with ex_merged.
    by destruct ex_merged as [[s e] a]. }
  destruct (merge_local ex_enc _ _ _ _ _ _ _ "other" Hm) as [H1 H2].
  split; [exact H1|]. rewrite H2; [reflexivity|apply new_store_wf|done].
Defined.

Lemma merge_success_witness :
  t_State (task (default zeroRecord (fst (fst ex_merged_checked) !! request_key (ex_request "" 0)))) = TaskDone
  /\ commitID (m_Commit (fst (snd ex_merged_checked))) = true
  /\ same_candidates (m_Candidates (fst (snd ex_merged_checked))) (q_Candidates (ex_request "" 0))
  /\ map k_Kind (m_Checks (fst (snd ex_merged_checked))) = requiredCheckKinds.
Proof.
  assert (Hm : merge ex_enc (ex_request "" 0) true (NewMemoryStore, ex_checked)
               = ((fst (fst ex_merged_checked), snd (fst ex_merged_checked)), (fst (snd ex_merged_checked), None)))
    by (apply (run_parts ex_merged_checked None); vm_eq).
  destruct (merge_success ex_enc _ _ _ _ _ _ _ (new_books ex_enc) Hm)
    as (_ & (rec & Hl & Hdone & _) & _ & _ & _ & Hend).
  rewrite Hl. split; [exact Hdone|].
  destruct Hend as [[(Hc & Hcs & _ & Hk) Hck]|(Hsame & _)].
  - split; [exact Hc|]. split; [exact Hcs|]. destruct Hk as [Hk|[Hk _]]; [|exact Hk].
    destruct (proj1 Hck eq_refl Hk).
  - rewrite Hsame in Hl. discriminate Hl.
Defined.

Lemma merge_idempotent_witness :
  merge ex_enc (ex_request "" 0) true (fst (fst ex_merged), ex_later)
  = ((fst (fst ex_merged), fst (auditVerified ex_enc ex_verified ex_later)),
     ((fst (snd ex_merged)) ⟦ m_Duplicate := true ⟧, None)).
Proof.
  apply (merge_idempotent ex_enc (ex_request "" 0) false NewMemoryStore ex_world _ (snd (fst ex_merged))).
  - apply new_books.
  - exact ex_gate.
  - apply (run_parts ex_merged None). vm_eq.
  - vm_eq.
Defined.

Lemma audit_passed_exact_witness :
  au_Passed (ex_audit ex_world) = true /\ separated ex_enc (v_Candidates ex_verified).
Proof.
  assert (Hp : au_Passed (ex_audit ex_world) = true) by vm_eq. split; [exact Hp|].
  refine (proj1 (audit_passed_exact ex_enc ex_verified ex_world _ (ex_audit ex_world) _) Hp).
  apply ex_audits. vm_eq.
Defined.

Lemma audit_deterministic_witness :
  ex_audit ex_later = (ex_audit ex_world) ⟦ au_CreatedAt := au_CreatedAt (ex_audit ex_later) ⟧.
Proof.
  eapply (audit_deterministic ex_enc ex_verified ex_world _ _ ex_later _ _); apply ex_audits; vm_eq.
Defined.

Definition ex_commands : list command :=
  let audit := mkAudit "i" "p" ex_commit [] [blocking "merge-conflict" "MERGE" "" ["T1"]] [] ex_digest false 5 in
  let conflict attempt := mkMergeResult "t" "i" "p" "T1" attempt "" "" audit [] [] false false "" 0 in
  [DoRecordConflict (conflict 0); DoStartAttempt (mkStartAttemptRequest "t" "p" "i" "T1" 1 1);
   DoRecordConflict (conflict 1); DoStartAttempt (mkStartAttemptRequest "t" "p" "i" "T1" 2 3);
   DoRecordConflict (conflict 2); DoStartAttempt (mkStartAttemptRequest "t" "p" "i" "T1" 3 5);
   DoRecordConflict (conflict 3)].
Definition ex_blocked : MemoryStore := fold_left perform ex_commands NewMemoryStore.
Definition ex_key : string := record_key "t" "i".

Lemma run_fold cs s : run command_step s cs (fold_left perform cs s).
Proof. apply exec_run. revert s. induction cs as [|c cs IH]; intros s; cbn; [done|apply IH]. Qed.

Lemma store_follows_lifecycle_witness :
  phase_at ex_blocked ex_key = Some (TaskBlockedUserDecision, 3)
  /\ exists n, nsteps lifecycle n None (phase_at ex_blocked ex_key) /\ version_at ex_blocked ex_key = Z.of_nat n
       /\ (n <= 11)%nat.
Proof.
  split; [vm_eq|].
  destruct (store_follows_lifecycle ex_commands ex_blocked ex_key) as (n & H1 & H2 & _ & H4).
  - apply run_fold.
  - eauto.
Defined.

Definition ex_record : memoryRecord := default zeroRecord (ex_blocked !! ex_key).

Lemma integration_final_witness :
  perform ex_blocked (DoStartAttempt (mkStartAttemptRequest "t" "p" "i" "T1" 3 6)) !! ex_key = Some ex_record.
Proof.
  apply (integration_final ex_commands ex_blocked
    [DoStartAttempt (mkStartAttemptRequest "t" "p" "i" "T1" 3 6)] _ ex_key ex_record).
  - apply run_fold.
  - apply (run_one ex_blocked).
  - apply present. vm_eq.
  - right. vm_eq.
Defined.

(** A crashed merge: the executor merged, its answer was lost. *)
Definition ex_interrupted := Merge ex_enc (ex_request "" 0) (NewMemoryStore, ex_crashed).
Definition ex_recovered : ex_env := mkEx 200 (Err (External "timeout")) (Some ex_commit) ([], None).
Definition ex_steady (e : ex_env) : Prop := ex_now e = 200 /\ ex_book e = Some ex_commit.

Lemma ex_steady_holds : steady ex_enc ex_steady (ex_request "" 0) ex_verified ex_commit.
Proof.
  split; [|split]; intros [now merged book suite] [Hnow Hbook]; cbn in Hnow, Hbook; subst now book.
  - exists (mkEx 200 merged (Some ex_commit) suite). split; [reflexivity|by split].
  - by split.
  - exists (mkEx 200 merged (Some ex_commit) suite). by repeat split.
Qed.

Lemma interrupted_merge_finishes_witness :
  snd (snd ex_interrupted) = Some (Join ErrMergePending (External "timeout"))
  /\ exists s' e' r rec, Merge ex_enc (ex_request "" 0) (fst (fst ex_interrupted), ex_recovered) = ((s', e'), (r, None))
       /\ m_Commit r = ex_commit /\ s' !! request_key (ex_request "" 0) = Some rec
       /\ t_State (task rec) = TaskDone /\ m_Commit (result rec) = ex_commit.
Proof.
  split; [vm_eq|].
  apply (interrupted_merge_finishes ex_enc (ex_request "" 0) false NewMemoryStore ex_crashed _
           (snd (fst ex_interrupted)) (snd ex_interrupted) ex_verified ex_commit ex_steady).
  - apply new_books.
  - intros (rec & Hl & _). discriminate Hl.
  - change (merge ex_enc (ex_request "" 0) false (NewMemoryStore, ex_crashed)) with ex_interrupted.
    by destruct ex_interrupted as [[s e] a].
  - exists (default zeroRecord (fst (fst ex_interrupted) !! request_key (ex_request "" 0))).
    split; [apply present|]; vm_eq.
  - exact ex_gate.
  - exact ex_steady_holds.
  - by split.
  - vm_eq.
  - vm_compute. discriminate.
Defined.

(** A verifier that returns an unknown kind, a repeated one and a bad status. *)
Definition ex_raw : list CheckResult :=
  [ex_check "LINT"; ex_check CheckE2E; ex_check CheckE2E; mkCheckResult CheckCompile "MAYBE" "" "" "" ["T9"] 0 0].
Definition ex_normalized := normalizeCheckResults ex_enc ex_verified ex_commit ex_raw None ex_world.
Definition ex_normal : list CheckResult := fst (answer ([], true) (snd ex_normalized)).

Lemma ex_hash : hash_law ex_enc.
Proof.
  intros value. cbn [sha256_Sum256 ex_enc]. split.
  - rewrite length_take, length_app. change (length (replicate 32 0)) with 32%nat. lia.
  - apply Forall_take, Forall_app. split; [|apply Forall_replicate; lia].
    apply Forall_forall. intros b (c & <- & _)%list_elem_of_In%in_map_iff.
    unfold byte_of. pose proof (N_ascii_bounded c). lia.
Qed.

Lemma ex_normalized_ok :
  ex_normalized = (fst ex_normalized, Ok (ex_normal, snd (answer ([], true) (snd ex_normalized)))).
Proof.
  assert (Hok : is_ok (snd ex_normalized) = true) by vm_eq. unfold ex_normal. revert Hok.
  generalize ex_normalized. by intros [e [[checks passed]|err]].
Qed.

Lemma checks_normalized_witness :
  map k_Kind ex_normal = requiredCheckKinds /\ Forall (well_formed ["T2"; "T1"]) ex_normal
  /\ map k_Status ex_normal = ["ERROR"; "ERROR"; "ERROR"; "PASS"; "ERROR"]
  /\ snd (answer ([], true) (snd ex_normalized)) = false.
Proof.
  destruct (checks_normalized ex_enc ex_verified ex_commit ex_raw None ex_world (fst ex_normalized)
              ex_normal (snd (answer ([], true) (snd ex_normalized)))) as (H1 & H2 & _).
  - exact ex_hash.
  - discriminate.
  - reflexivity.
  - exact ex_normalized_ok.
  - split; [exact H1|]. split; [exact H2|]. split; vm_eq.
Defined.
End QueueSafety.
